(* ===== verification/_CoqProject ===== *)
-Q . S2P
Prelude.v
Bytes.v
Names.v
DomainMap.v
DomainMapSpec.v
Trie.v
Config.v
Netlink.v
Text.v
LogFile.v
Dhcp.v
DomainRule.v
DomainRuleTree.v
DomainRuleZones.v
DomainRuleTreeSpec.v
IpSet.v
Message.v
FileWatch.v
Runtime.v
Context.v
Calls.v
Dnsmasq.v
DnsUrl.v
ClientMac.v
Zones.v
Samples.v
Reply.v
DnsmasqSpec.v
Odhcpd.v
HostsMw.v
ZonesSpec.v
FirewallMw.v
AddressMw.v
Lru.v
Cache.v
CacheSpec.v
CacheMw.v
Prefetch.v
CacheFile.v
Tasks.v
Upstream.v
UdpClient.v
ClientBuild.v
Probe.v
TcpSyn.v
Ping.v
Select.v
SelectSpec.v
SelectCorrect.v
NameServerMw.v
NameServerSpec.v
NameServerExamples.v
RewriteMw.v
DualstackMw.v
App.v
ConfigItems.v
Loader.v
LoaderSpec.v
Chain.v
Nom.v
ParseValues.v
ParseRules.v
ParseServers.v
ParseLine.v
ParseSpec.v
ParseIp.v
AddressFile.v
ParseTypes.v
ParseExamples.v
Connect.v
ConnectSpec.v
Certificates.v
Resolver.v
Service.v
Serving.v
Doh.v
Stats.v
QueryAudit.v
Pipeline.v
System.v
