(* ===== verification/Prelude.v ===== *)
(** * SmartDNS-rs: a verification library

    SmartDNS-rs is a local DNS server. A query received by a listener goes through
    a chain of middlewares: answers come from rules, from the cache, or from
    groups of upstream servers that are asked at the same time, and the address
    that is reached fastest is the one that is given. This library models the
    code that decides what is answered ([src/src/*.rs], [src/src/config],
    [src/src/infra]) and proves what it is for.

    ** The parts, and the files that model them

    The configuration and its rules:

    - [Prelude], [Bytes], [Text]: results, options, machine integers,
      lists and sorting; big-endian fields; the operations on strings of the
      standard library; addresses as text.
    - [Names]: the DNS library's names as a class ([NameLib], [NameLaws]) and
      [WildcardName] of [config/domain.rs].
    - [DomainMap], [DomainMapSpec]: the index from names to rules of
      [collections.rs], keyed by hashes of a kind and a case-folded name. It finds
      the value of the most specific rule that matches, and refines a map keyed
      by kind and labels.
    - [Trie]: the tries that may take its place (an experimental feature).
    - [Config]: the option types of [config/] (speed check modes, response modes,
      listener options, client rules, addresses and networks).
    - [DomainRule], [DomainRuleTree], [DomainRuleZones], [DomainRuleTreeSpec]: the
      options of a domain's rule, their inheritance, and [dns_rule.rs], which
      builds the tree of rules with shared values and memoised merges. The tree
      built is that of the same construction without sharing, and every name has
      its own rule merged with that of its zone.
    - [DomainRuleTree] (groups), [ConfigItems], [Loader], [LoaderSpec]: groups
      of rules ([config/rule_group.rs]), the files of the configuration, what its
      lines mean ([config/parser/mod.rs], [dns_conf.rs]), reading it with the
      files it includes, and what it is built into ([Builder] is
      [RuntimeConfigBuilder]).
    - [Nom], [ParseValues], [ParseRules], [ParseServers], [ParseLine]: the parser of the configuration, every directive of it
      ([config/parser/], [dns_url.rs], [proxy.rs]), over the combinators of its
      library. [ParseSpec], [ParseIp] and [ParseTypes] show which directive reads a
      line, that addresses are read as they are printed, and what is known of an
      item that was read.
    - [AddressFile]: the file of address rules that the API
      changes ([api/address.rs]), and how lines are printed.
    - [Runtime]: the options on the path of a query, and the parts of [build].
    - [DnsUrl]: listeners ([config/bind_addr.rs]) and the addresses
      by which an upstream would be this server ([own_listeners.rs]).
    - [IpSet]: sets and maps of addresses ([infra/ipset.rs]).

    Queries and the middlewares that answer or change them:

    - [Message]: messages, responses with their retained encoding, and errors
      ([dns.rs], [libdns/mod.rs], [dns_error.rs]).
    - [Context]: requests, contexts, TTL limits, the chain of middlewares and the
      start of a query ([dns.rs], [infra/middleware.rs], [dns_mw.rs]).
    - [Reply]: from a packet to its reply ([dns.rs], [app.rs], [server/mod.rs]).
    - [Serving], [Doh]: the connections of clients and the requests on them
      ([server/]), and queries over HTTP ([api/serve_dns.rs]).
    - [App], [Chain]: the dispatcher, the listeners that run, the chain a
      configuration calls for, starting and reloading ([app.rs]).
    - [Calls], [Pipeline]: middlewares as their calls of the rest of the chain, and
      the whole chain over one state, a clock and a log of the lookups made in groups
      of name servers ([infra/middleware.rs], [dns_mw.rs], [app.rs]).
    - [AddressMw], [RewriteMw], [DualstackMw]: address rules, limits of replies,
      bogus addresses, CNAME rules, DNS64, the choice between IPv4 and IPv6
      ([dns_mw_addr.rs], [dns_mw_bogus.rs], [dns_mw_cname.rs], [dns_mw_dns64.rs],
      [dns_mw_dualstack.rs]).
    - [FirewallMw], [Netlink]: the sets of the firewall the addresses of an answer
      are added to ([dns_mw_nftset.rs]), and the messages to the kernel that do it
      ([infra/kernel_ipset.rs], [infra/kernel_nftset.rs]).
    - [FileWatch], [Dnsmasq], [DnsmasqSpec], [Odhcpd], [HostsMw]: files that are
      read again when they change, under queries that interleave, and the leases
      and hosts in them ([dnsmasq.rs], [dns_mw_dnsmasq.rs], [dns_mw_odhcpd.rs],
      [dns_mw_hosts.rs]).
    - [Zones], [ZonesSpec]: names answered here: discovery of encrypted listeners,
      private reverse names, the identity of the server ([dns_mw_zone.rs],
      [zone/]).
    - [Lru], [Cache], [CacheSpec], [CacheMw], [Prefetch],
      [CacheFile]: the cache, its budget of
      memory, its expiry, its refreshing, its middleware and its saved form
      ([dns_mw_cache.rs]).

    The upstreams:

    - [DnsUrl], [ClientBuild]: their URLs ([dns_url.rs]) and the groups of servers
      the client is built of ([dns_client.rs]).
    - [Tasks], [Upstream]: concurrent lookups as tasks with completion times, the
      servers, their groups and the store of their addresses ([dns_client.rs]).
    - [UdpClient], [ClientMac]: exchanges over UDP and the sockets they share
      ([libdns/custom/udp_client.rs]), and the cache of the MAC addresses of
      clients ([infra/client_mac.rs]).
    - [Ping], [TcpSyn]: the probes of one target ([infra/ping.rs]) and the packets
      of half-open ones ([infra/ping/tcp_syn.rs]).
    - [Connect], [ConnectSpec]: at which addresses and in which
      ways a server is reached, and the race between them
      ([libdns/custom/connection_provider.rs], [libdns/bridge.rs], [proxy.rs]).
    - [Certificates]: the fields of certificates, which of an upstream are trusted,
      and the certificate the listeners present ([rustls.rs],
      [rustls/certificate.rs], [rustls/der.rs]).
    - [Resolver]: how a server is made, the resolver of the system and the lookup of
      the address of a host ([dns_client.rs], [preset_ns.rs]).
    - [Probe], [Select], [SelectSpec], [SelectCorrect]: speed checks
      ([infra/ping.rs]) and the choice of one answer among the upstreams, a state
      machine over the lookups and probes that are left ([dns_mw_ns.rs]).
    - [NameServerMw], [NameServerSpec]: the middleware that asks the upstreams
      ([dns_mw_ns.rs]).

    Beside the queries:

    - [LogFile]: logs that are copied and begun anew when they are full
      ([infra/mapped_file.rs]).
    - [Dhcp]: the name servers of the network ([infra/dhcp.rs]).
    - [Stats], [QueryAudit]: the counters of queries, the upstreams and the queries
      that are shown ([stats.rs], [plugins/mod.rs], [webui/mod.rs]), and the records of
      queries ([dns_mw_audit.rs]).

    - [Service]: what is installed and removed as a service on each system
      ([service/]), and the arguments of its command on Windows.
    - [System]: lookups from the command line ([resolver.rs]), the file that is read
      and the servers the client is made of ([dns_conf.rs], [main.rs]), where the
      log goes ([log.rs], [infra/syslog.rs]), the guard of the process, the name of
      the system and packets that are kept ([infra/process_guard.rs],
      [infra/os_release.rs], [infra/packet_debug.rs]), and the release the program
      is replaced by ([updater.rs]).

    [Samples], [NameServerExamples], [ParseExamples] and the ends of [CacheMw] and
    [Chain] hold concrete values and the theorems at them.

    ** How they interact

    [Loader.load_file] reads the configuration and [Loader.build] makes of it the
    [Runtime.RuntimeConfig], whose trees are filled by [DomainRuleTree.create], and
    the list of listeners; [Chain.reload] puts both in use. A packet is decoded by
    [Reply.request_of_serial] once the dispatcher lets it run
    ([App.send_start]). [Context.ctx_new] looks its name up in the index of its
    rule group ([Runtime.find_domain_rule], [DomainMap.dm_find]). The context goes
    through the chain ([Context.next_run]), whose order is that of
    [Chain.build_middleware]. A middleware is written once, as a [Calls.Handling] (its
    definition ends in [_run]): the calls it makes of the rest of the chain, and what
    it does with each answer. [Calls.answered] answers the calls by a function, which
    makes the handler of which the theorems of the middleware speak (its definition
    ends in [_handle]); [Calls.run_over] answers them by the rest of the chain.
    Middlewares that keep state between queries add it to the context as their
    world: the cache ([CacheMw.World]), the files
    ([FileWatch.FileCache]), the updates of the firewall ([FirewallMw.FwWorld]).
    [Pipeline.PipeWorld] has all of these, and [Calls.run_over] runs a handler over the
    part that is its own. The two lookups of a comparison run at the same time in the
    code; here the second begins at the time of the first, in the state the first
    left.
    The name server middleware ends the chain, and reports each lookup it makes in a
    group ([NameServerMw.Asking], [NameServerMw.GroupLookup]): one for a query, one more
    when the answer is checked again in another group, and none when there is no group.
    It may leave in the context the
    rest of a lookup whose answer it has already given
    ([Context.ctx_set_pending]), which the cache middleware on the way back starts
    as a task ([CacheMw.finish_speed_check]) and whose end it stores
    ([CacheMw.speed_check_done]). What the search gives becomes a packet in
    [Reply.search_reply], over the encoding that the cache kept
    ([Message.prepare_wire]). [Pipeline.serve_packet] is all of it, from a packet to
    its reply.

    ** Conventions

    Integers are [Z] with the width written out where it matters; instants and
    durations are nanoseconds, but where a file says otherwise. Errors are the
    [result] of this file. A panic is a value ([Context.Panic], [Tasks.Panicked],
    [Loader.LoadPanic], [Reply.WirePanics]). A spawned task is an effect the
    operation returns; a clock reading, the file system ([ConfigItems.Fs]), the iteration
    order of a hash map and a hash function are arguments. Code of libraries is a
    class with its documented behaviour as laws and a concrete instance that
    satisfies them: names ([NameLib], and as text [NameText]), networks
    ([NetLib]), range maps ([RangeMapLib]), messages ([MsgLib], their codec
    [MsgCodec], their headers [HeaderLib]), the files of hosts ([HostsLib]), the
    LRU cache ([LruLib]), futures ([FuturesLib]), parser combinators ([Nom], with the
    equations [NomLaws]), letters beyond ASCII ([Unicode]), sizes, patterns and
    levels ([ValueLib], [TokenLib]), record data ([RuleLib]), URLs ([UrlLib], and of addresses
    [UrlIpLaws]), the ranges of what these read ([LibraryTypes]), what a request
    over HTTP carries ([DohLib]), the text of an audit record ([AuditLib]).
    [FileCache] is the interface of
    the three caches of files, and their theorems under interleaving are proved
    against it. The network is an argument: what a connection answers and when
    ([Upstream.ns_connection]), and what a probe measures and how long it takes
    ([probe]). Computation between two waits takes no time; the shared cache is
    under its mutex, so each of its operations is one step.

    Loops that are not structural carry fuel: [DomainMap.find_levels] the number
    of labels, [Cache.evict_loop] the number of entries,
    [Select.sel_loop] a measure of the lookups and of the addresses they can still
    bring, [Upstream.select_response_loop] and [Select.fastest_response] the
    number of lookups, [Probe.select_ok] the number of probes, the repetition of a
    parser ([Nom.doc_more]) the length of its input, the readers of
    [Netlink], [CacheFile] and [Dhcp] the number of bytes, [Loader.load_file] the depth
    of includes. In each case the theorems show that the fuel is enough; for
    includes the number of files there are is.

    ** What is shown

    - the text of the configuration: the directive that reads a line, the types of
      what is read, addresses read back, and that the requests of the API keep the
      lines of a file;
    - the configuration: that reading it ends, that rules reach their group, that
      a refused one changes nothing, and which listeners then run;
    - rules: lookup by specificity, refinement of the index and of tries, the tree with shared
      rules, inheritance, address rules, CNAME rules, client rules;
    - clients: what is answered on a connection and when it is closed, and that the
      certificate presented is kept while it is valid;
    - packets: replies over shared encodings, the
      load of the dispatcher under any interleaving;
    - bounds: TTL limits, the limit on queries, the memory of the cache, batches
      of prefetching, DNS64 addresses, deadlines read from a file;
    - the cache: exact accounting in every reachable state, what a lookup
      returns, what comes between two refreshes of an entry, that an entry is prefetched in time whatever
      else happens, the order after a reload, what the middleware serves and stores, what of a saved cache is
      read back, also when it is damaged;
    - the upstreams: which servers a group has, that no upstream is this server,
      the address of the shortest delay, the first successful probe, the first
      response; the answer given early is the answer without a speed check; the
      time after which an answer is there; that the answer depends on the servers only
      through the lookups reported; that connecting ends, with what, and when it
      panics;
      that an upstream with a pin is trusted for that key only; filters and aliases; the recheck; that
      every query is answered;
    - local answers: leases, hosts, zones, and that private reverse names stay;
      that leases are those of the file at its last change;
    - the firewall: which sets are updated with which timeouts, and that the
      messages to the kernel say so;
    - dual stack: when a family is answered without records;
    - the whole chain: for which names and how often the name servers are asked; that what is answered here asks
      them nothing and does not fail; that private names never leave and what is
      cached is not asked again; that every packet is answered, and how, by any chain
      in any state when each group of name servers has a server, and that none keeps
      a permit;
    - around the server: which copies of a log stay, which lines it gains, the
      counters of queries under any interleaving, which name servers a reply of
      DHCP gives, that the configuration outlives the service, that a command line
      of Windows is read as its arguments; what the arguments
      of a lookup say, that one process runs, that the newest release is selected.

    ** What is not modelled

    Sockets, the handshake of TLS and the signing of certificates, what the other
    requests of the API and the web interface show, the declaration of the command
    line, the change of user at the start, downloads and the text of log lines
    are calls of the system and of libraries. *)

From stdpp Require Export base list gmap strings numbers sorting.
From Stdlib Require Export ZArith Lia ZifyBool.

#[global] Open Scope Z_scope.

Declare Scope smartdns_scope.
Delimit Scope smartdns_scope with sdns.

(** ** Results

    Rust's [Result<T, E>]; the error monad of every fallible operation. *)
Inductive result (A E : Type) : Type :=
| Ok (a : A)
| Err (e : E).
Arguments Ok {A E} _.
Arguments Err {A E} _.

Definition result_bind {A B E} (r : result A E) (k : A → result B E) : result B E :=
  match r with Ok a => k a | Err e => Err e end.

Definition result_map {A B E} (f : A → B) (r : result A E) : result B E :=
  match r with Ok a => Ok (f a) | Err e => Err e end.

Definition is_ok {A E} (r : result A E) : bool :=
  match r with Ok _ => true | Err _ => false end.

Notation "'let*' x ':=' r 'in' k" := (result_bind r (fun x => k))
  (at level 10, x pattern, r at level 100, k at level 200)
  : smartdns_scope.

(** ** Options: the [Option] combinators the source uses *)
Definition opt_or {A} (x y : option A) : option A :=
  match x with Some _ => x | None => y end.
Definition opt_filter {A} (p : A → bool) (x : option A) : option A :=
  match x with Some a => if p a then Some a else None | None => None end.
Definition opt_map_or {A B} (d : B) (f : A → B) (x : option A) : B :=
  match x with Some a => f a | None => d end.
Definition opt_unwrap_or {A} (d : A) (x : option A) : A :=
  match x with Some a => a | None => d end.
Definition is_some {A} (x : option A) : bool :=
  match x with Some _ => true | None => false end.
Definition is_none {A} (x : option A) : bool := negb (is_some x).

Notation "x '<||>' y" := (opt_or x y) (at level 50, left associativity) : smartdns_scope.

(** ** Machine integers

    A w-bit unsigned integer is a [Z] in [0, 2^w); the conversions are written
    out ([as u32] truncates, [saturating_sub] stops at zero, [wrapping_sub]
    wraps). *)
Definition u8_max : Z := 255.
Definition u16_max : Z := 65535.
Definition u32_max : Z := 4294967295.
Definition u64_max : Z := 18446744073709551615.

Definition as_u8 (z : Z) : Z := z mod 256.
Definition as_u16 (z : Z) : Z := z mod 65536.
Definition as_u32 (z : Z) : Z := z mod 4294967296.
Definition as_u64 (z : Z) : Z := z mod 18446744073709551616.

Definition saturating_sub (a b : Z) : Z := Z.max 0 (a - b).
Definition saturating_add_u64 (a b : Z) : Z := Z.min u64_max (a + b).
(** [u32::try_from(n).unwrap_or(u32::MAX)] *)
Definition try_u32_or_max (n : Z) : Z := if n <=? u32_max then n else u32_max.

Definition in_u8 (z : Z) : Prop := 0 ≤ z ≤ u8_max.
Definition in_u16 (z : Z) : Prop := 0 ≤ z ≤ u16_max.
Definition in_u32 (z : Z) : Prop := 0 ≤ z ≤ u32_max.
Definition in_u64 (z : Z) : Prop := 0 ≤ z ≤ u64_max.

(** ** Bytes: ASCII case, as [u8::to_ascii_lowercase] *)
Definition ascii_lower (b : Z) : Z :=
  if (65 <=? b) && (b <=? 90) then b + 32 else b.

(** ** Lists *)
(** First index of an element satisfying [p] ([Iterator::position]). *)
Fixpoint position {A} (p : A → bool) (l : list A) : option nat :=
  match l with
  | [] => None
  | x :: l => if p x then Some 0%nat else S <$> position p l
  end.

(** First element satisfying [p] ([Iterator::find]). *)
Fixpoint find_first {A} (p : A → bool) (l : list A) : option A :=
  match l with
  | [] => None
  | x :: l => if p x then Some x else find_first p l
  end.

(** Minimum of a list ([Iterator::min]). *)
Fixpoint list_min (l : list Z) : option Z :=
  match l with
  | [] => None
  | x :: l => Some (opt_map_or x (Z.min x) (list_min l))
  end.

Definition sum_list_with_Z {A} (f : A → Z) (l : list A) : Z :=
  foldr (fun x acc => f x + acc) 0 l.

#[global] Arguments sum_list_with_Z : simpl never.

Lemma sum_list_cons {A} (f : A → Z) x l : sum_list_with_Z f (x :: l) = f x + sum_list_with_Z f l.
Proof. done. Qed.

Lemma sum_list_app {A} (f : A → Z) l1 l2 :
  sum_list_with_Z f (l1 ++ l2) = sum_list_with_Z f l1 + sum_list_with_Z f l2.
Proof. induction l1 as [|x l1 IH]; [done|]. cbn [app]. rewrite !sum_list_cons, IH. lia. Qed.

Lemma sum_list_nonneg {A} (f : A → Z) l :
  (∀ x, x ∈ l → 0 ≤ f x) → 0 ≤ sum_list_with_Z f l.
Proof.
  induction l as [|x l IH]; intros Hf; [done|]. rewrite sum_list_cons.
  pose proof (Hf x (list_elem_of_here _ _)). assert (0 ≤ sum_list_with_Z f l); [|lia].
  apply IH. intros y Hy. apply Hf. by right.
Qed.

(** ** Hint databases and tactics *)
Create HintDb sdns discriminated.

(** Membership of an explicit element in an explicit list. *)
Ltac solve_elem := solve [repeat first [apply list_elem_of_here | apply list_elem_of_further]].

(** *** First result of an ordered list of alternatives *)
Fixpoint first_some {A} (l : list (option A)) : option A :=
  match l with
  | [] => None
  | Some a :: _ => Some a
  | None :: l => first_some l
  end.

Lemma first_some_app {A} (l1 l2 : list (option A)) :
  first_some (l1 ++ l2) = opt_or (first_some l1) (first_some l2).
Proof. induction l1 as [|[a|] l1 IH]; simpl; [done..|apply IH]. Qed.

Lemma first_some_None {A} (l : list (option A)) :
  first_some l = None ↔ ∀ o, o ∈ l → o = None.
Proof.
  induction l as [|[a|] l IH]; simpl.
  - split; [|done]. intros _ o Ho. by apply not_elem_of_nil in Ho.
  - split; [done|]. intros Hl. by specialize (Hl (Some a) (list_elem_of_here _ _)).
  - rewrite IH. split; intros Hl o; rewrite ?elem_of_cons.
    + intros [->|?]; auto.
    + intros ?. apply Hl. by rewrite elem_of_cons; right.
Qed.

(** When the alternatives carry sorted ranks, the first hit has the least. *)
Lemma first_some_ranked {A} (l : list (Z * option A)) a :
  StronglySorted Z.le l.*1 →
  first_some l.*2 = Some a →
  ∃ r, (r, Some a) ∈ l ∧ ∀ r' a', (r', Some a') ∈ l → r ≤ r'.
Proof.
  induction l as [|[r [b|]] l IH]; [done|..]; intros Hs; simpl in *;
    apply StronglySorted_inv in Hs as [Hs Hr].
  - intros [= ->]. exists r. split; [by left|]. intros r' a' [[= -> ->]|Hin]%elem_of_cons; [lia|].
    rewrite Forall_forall in Hr. apply Hr, list_elem_of_In. apply list_elem_of_In.
    by apply (list_elem_of_fmap_2 fst) in Hin.
  - intros Hf. destruct (IH Hs Hf) as (r0 & Hin & Hmin). exists r0. split; [by right|].
    intros r' a' [?|?]%elem_of_cons; [done|eauto].
Qed.

(** *** [find_first] *)
Lemma find_first_Some {A} (p : A → bool) l x :
  find_first p l = Some x → x ∈ l ∧ p x = true.
Proof.
  induction l as [|y l IH]; simpl; [done|]. case_match.
  - intros [= ->]. split; [by left|done].
  - intros [? ?]%IH. split; [by right|done].
Qed.

Lemma find_first_None {A} (p : A → bool) l :
  find_first p l = None ↔ ∀ x, x ∈ l → p x = false.
Proof.
  induction l as [|y l IH]; simpl.
  - split; [|done]. intros _ x Hx. by apply not_elem_of_nil in Hx.
  - destruct (p y) eqn:E.
    + split; [done|]. intros Hl. rewrite Hl in E; [done|by left].
    + rewrite IH. split; intros Hl x.
      * intros [->|?]%elem_of_cons; auto.
      * intros ?. apply Hl. by right.
Qed.

Lemma find_first_app {A} (p : A → bool) l1 l2 :
  find_first p (l1 ++ l2) = opt_or (find_first p l1) (find_first p l2).
Proof. induction l1; simpl; [done|]. by case_match. Qed.

(** *** Stable sorting *)
(** Stable sort by an order ([sort_by_key]): insertion from the right. *)
Fixpoint insert_by {A} (leb : A → A → bool) (x : A) (l : list A) : list A :=
  match l with
  | [] => [x]
  | y :: l' => if leb x y then x :: l else y :: insert_by leb x l'
  end.
Definition sort_by {A} (leb : A → A → bool) (l : list A) : list A := foldr (insert_by leb) [] l.

Section SortBy.
Context {A : Type} (leb : A → A → bool).

Lemma insert_by_perm x l : insert_by leb x l ≡ₚ x :: l.
Proof.
  induction l as [|y l IH]; [done|]. cbn. case_match; [done|]. rewrite IH. apply Permutation_swap.
Qed.

Lemma sort_by_perm l : sort_by leb l ≡ₚ l.
Proof. induction l as [|x l IH]; [done|]. cbn. fold (sort_by leb l). by rewrite insert_by_perm, IH. Qed.

(** Sorting by a numeric key. *)
Lemma sort_by_key_sorted (key : A → Z) l :
  (∀ a b, leb a b = (key a <=? key b)) →
  StronglySorted (fun a b => key a ≤ key b) (sort_by leb l).
Proof.
  intros Hle. induction l as [|x l IH]; [constructor|]. cbn. fold (sort_by leb l).
  induction IH as [|y k Hk IHk Hy]; cbn; [repeat constructor|].
  rewrite Hle. destruct (Z.leb_spec (key x) (key y)).
  - constructor; [by constructor|]. constructor; [lia|].
    eapply Forall_impl; [exact Hy|]. intros z ?. cbn in *. lia.
  - constructor; [done|]. rewrite insert_by_perm. constructor; [lia|done].
Qed.
End SortBy.
