(* ===== verification/Bytes.v ===== *)
(** * Bytes of integers

    An unsigned integer as bytes in either order, and back. *)

From S2P Require Import Prelude.

(** [to_be_bytes] of an [8 * n]-bit integer. *)
Fixpoint be_bytes (n : nat) (z : Z) : list Z :=
  match n with
  | O => []
  | S n => be_bytes n (z / 256) ++ [as_u8 z]
  end.

(** [from_be_bytes] *)
Definition be_value (l : list Z) : Z := fold_left (fun acc b => acc * 256 + b) l 0.

(** [to_ne_bytes] and [from_ne_bytes] on a little-endian or big-endian machine. *)
Definition ne_bytes (little : bool) (n : nat) (z : Z) : list Z :=
  if little then reverse (be_bytes n z) else be_bytes n z.
Definition ne_value (little : bool) (l : list Z) : Z :=
  be_value (if little then reverse l else l).

Definition all_u8 (l : list Z) : Prop := Forall in_u8 l.

Lemma be_value_snoc l b : be_value (l ++ [b]) = be_value l * 256 + b.
Proof. unfold be_value. by rewrite fold_left_app. Qed.

Lemma length_be_bytes n z : length (be_bytes n z) = n.
Proof. revert z. induction n as [|n IH]; intros z; [done|]. cbn. rewrite length_app, IH. cbn. lia. Qed.

Lemma length_ne_bytes little n z : length (ne_bytes little n z) = n.
Proof. unfold ne_bytes. destruct little; [rewrite length_reverse|]; apply length_be_bytes. Qed.

Lemma be_value_bytes n z : be_value (be_bytes n z) = z mod 256 ^ Z.of_nat n.
Proof.
  revert z. induction n as [|n IH]; intros z; [cbn; by rewrite Z.mod_1_r|].
  cbn [be_bytes]. rewrite be_value_snoc, IH. unfold as_u8.
  replace (Z.of_nat (S n)) with (1 + Z.of_nat n) by lia. rewrite Z.pow_add_r by lia.
  rewrite Z.pow_1_r, Z.rem_mul_r by lia. lia.
Qed.

Lemma ne_value_bytes little n z : ne_value little (ne_bytes little n z) = z mod 256 ^ Z.of_nat n.
Proof.
  unfold ne_value, ne_bytes. destruct little; rewrite ?reverse_involutive; apply be_value_bytes.
Qed.

Lemma be_bytes_u8 n z : all_u8 (be_bytes n z).
Proof.
  revert z. induction n as [|n IH]; intros z; [constructor|]. apply Forall_app. split; [apply IH|].
  apply Forall_singleton. unfold in_u8, as_u8, u8_max. pose proof (Z.mod_pos_bound z 256). lia.
Qed.

Lemma be_value_range l : all_u8 l → 0 ≤ be_value l < 256 ^ Z.of_nat (length l).
Proof.
  induction l as [|b l IH] using rev_ind; intros Hl; [done|]. apply Forall_app in Hl as [Hl Hb].
  apply Forall_cons_1 in Hb as [Hb _]. rewrite be_value_snoc, length_app. cbn [length].
  replace (Z.of_nat (length l + 1)) with (1 + Z.of_nat (length l)) by lia. rewrite Z.pow_add_r, Z.pow_1_r by lia.
  specialize (IH Hl). unfold in_u8, u8_max in Hb. lia.
Qed.

Lemma be_bytes_value l : all_u8 l → be_bytes (length l) (be_value l) = l.
Proof.
  induction l as [|b l IH] using rev_ind; intros Hl; [done|]. apply Forall_app in Hl as [Hl Hb].
  apply Forall_cons_1 in Hb as [Hb _]. unfold in_u8, u8_max in Hb.
  rewrite be_value_snoc, length_app. cbn [length]. rewrite Nat.add_1_r. cbn [be_bytes]. unfold as_u8.
  rewrite Z.div_add_l, Z.div_small, Z.add_0_r, IH by (done || lia). f_equal. f_equal.
  rewrite Z.add_comm, Z.mod_add by lia. apply Z.mod_small. lia.
Qed.
