(* ===== verification/Names.v ===== *)
(** * Domain names and wildcard rules

    The interface of the DNS library's [Name] (a third-party type: a class of
    the operations the program calls, with their documented behaviour as laws)
    and the program's own [WildcardName] of [config/domain.rs]. *)

From S2P Require Import Prelude.

(** ** The library's [Name] *)

(** A label is its bytes; names compare without ASCII case. *)
Definition label := list Z.
Definition lower (l : label) : label := ascii_lower <$> l.
Definition lowers (ls : list label) : list label := lower <$> ls.

(** The label [*]. *)
Definition star : label := [42].

Class NameLib (Name : Type) := {
  name_iter : Name → list label;
  name_is_fqdn : Name → bool;
  name_set_fqdn : bool → Name → Name;
  name_root : Name;
  name_is_root : Name → bool;
  name_is_wildcard : Name → bool;
  name_base_name : Name → Name;
  name_zone_of : Name → Name → bool;
  name_eq_ignore_root_case : Name → Name → bool;
  (** [PartialEq]: same labels without case, same kind of root. *)
  name_eqb : Name → Name → bool;
  (** [Ord]: the canonical order. *)
  name_cmp : Name → Name → comparison;
}.

(** What the library documents. The laws on comparison functions are stated on
    lower-case names, where case rules make no difference. *)
Class NameLaws (Name : Type) `{NameLib Name} : Prop := {
  name_root_iter : name_iter name_root = [];
  name_is_root_iter n : name_is_root n = true ↔ name_iter n = [] ∧ name_is_fqdn n = true;
  name_is_wildcard_iter n : name_is_wildcard n = true ↔ head (name_iter n) = Some star;
  name_base_name_iter n : name_iter (name_base_name n) = tail (name_iter n);
  name_set_fqdn_iter b n : name_iter (name_set_fqdn b n) = name_iter n;
  name_set_fqdn_fqdn b n : name_is_fqdn (name_set_fqdn b n) = b;
  name_zone_of_iter z n :
    name_zone_of z n = true ↔ lowers (name_iter z) `suffix_of` lowers (name_iter n);
  name_eq_ignore_root_case_iter a b :
    lowers (name_iter a) = name_iter a → lowers (name_iter b) = name_iter b →
    name_eq_ignore_root_case a b = true ↔ name_iter a = name_iter b;
  name_eqb_spec a b :
    name_eqb a b = true ↔
      lowers (name_iter a) = lowers (name_iter b) ∧ name_is_fqdn a = name_is_fqdn b;
}.

(** A concrete library: labels and the root flag, the representation used to
    show that the laws can hold and to evaluate the models. *)
Record PlainName := mkName { pn_labels : list label; pn_fqdn : bool }.

#[global] Instance PlainName_eq_dec : EqDecision PlainName.
Proof. solve_decision. Defined.

Definition labels_cmp (a b : list label) : comparison :=
  if bool_decide (lowers a = lowers b) then Eq
  else if (length a <? length b)%nat then Lt else Gt.

#[global] Instance PlainName_lib : NameLib PlainName := {
  name_iter := pn_labels;
  name_is_fqdn := pn_fqdn;
  name_set_fqdn b n := mkName (pn_labels n) b;
  name_root := mkName [] true;
  name_is_root n := bool_decide (pn_labels n = []) && pn_fqdn n;
  name_is_wildcard n := bool_decide (head (pn_labels n) = Some star);
  name_base_name n := mkName (tail (pn_labels n)) (pn_fqdn n);
  name_zone_of z n := bool_decide (lowers (pn_labels z) `suffix_of` lowers (pn_labels n));
  name_eq_ignore_root_case a b := bool_decide (pn_labels a = pn_labels b);
  name_eqb a b := bool_decide (lowers (pn_labels a) = lowers (pn_labels b)) &&
                  Bool.eqb (pn_fqdn a) (pn_fqdn b);
  name_cmp a b := labels_cmp (pn_labels a) (pn_labels b);
}.

#[global] Instance PlainName_laws : NameLaws PlainName.
Proof.
  split; intros; simpl; rewrite ?andb_true_iff, ?bool_decide_eq_true, ?Bool.eqb_true_iff; done.
Qed.

(** ** Wildcard names (config/domain.rs) *)

(** The pattern of a [*] label; the empty pattern is the bare [*]. *)
Definition Wildcard := list Z.

Section WildcardName.
Context {Name : Type} `{NameLib Name}.

Inductive WildcardName :=
| WDefault (n : Name)
| WSuffix (n : Name)
| WSub (w : Wildcard) (n : Name)
| WFull (n : Name).

(** [Deref]: the name the rule is written for. *)
Definition wn_deref (w : WildcardName) : Name :=
  match w with WDefault n | WSuffix n | WSub _ n | WFull n => n end.

Definition is_sub (w : WildcardName) : bool :=
  match w with WSub _ _ => true | _ => false end.

(** [From<Name>]. *)
Definition wn_from_name (n : Name) : WildcardName :=
  if name_is_wildcard n then WSub [] (name_base_name n) else WDefault n.

(** The rank of a kind among rules for one name, in [Ord::cmp]. *)
Definition wn_ord (w : WildcardName) : Z :=
  match w with WDefault _ => 3 | WSuffix _ => 2 | WSub _ _ => 1 | WFull _ => 0 end.

Definition wn_cmp (a b : WildcardName) : comparison :=
  match name_cmp (wn_deref a) (wn_deref b) with
  | Lt => Lt
  | Gt => Gt
  | Eq => Z.compare (wn_ord a) (wn_ord b)
  end.

Section Match.
(** The [wildcard] library's matcher: pattern, then input. *)
Variable wildcard_lib_match : list Z → list Z → bool.

Definition wildcard_is_match (w : Wildcard) (input : list Z) : bool :=
  match w with
  | [] => true
  | _ => wildcard_lib_match w input
  end.

Definition wn_is_match (w : WildcardName) (name : Name) : bool :=
  match w with
  | WDefault n => name_zone_of n name
  | WSuffix n => negb (name_eq_ignore_root_case n name) && name_zone_of n name
  | WSub w n =>
      name_eq_ignore_root_case n (name_base_name name) &&
      opt_map_or true (wildcard_is_match w) (head (name_iter name))
  | WFull n => name_eq_ignore_root_case n name
  end.
End Match.
End WildcardName.

Arguments WildcardName : clear implicits.

#[global] Instance WildcardName_eq_dec {Name} `{EqDecision Name} : EqDecision (WildcardName Name).
Proof. solve_decision. Defined.

(** ** Concrete parameters for evaluation *)

(** A matcher for the [wildcard] library's [*]. *)
Fixpoint glob_match (pat : list Z) : list Z → bool :=
  match pat with
  | [] => fun s => match s with [] => true | _ => false end
  | c :: pat =>
      if c =? 42 then
        fix any (s : list Z) : bool :=
          glob_match pat s || match s with [] => false | _ :: s => any s end
      else fun s => match s with
                    | [] => false
                    | x :: s => (ascii_lower x =? ascii_lower c) && glob_match pat s
                    end
  end.

(** A 64-bit hash of a kind byte and a wire name. *)
Definition fnv64 (kind : Z) (bytes : list Z) : Z :=
  fold_left (fun h b => as_u64 (Z.lxor h b * 1099511628211)) (kind :: bytes) 14695981039346656037.

(** Names from text, split at the dots. *)
Definition bytes_of_string (s : string) : list Z :=
  (fun c => Z.of_nat (Ascii.nat_of_ascii c)) <$> String.list_ascii_of_string s.

Fixpoint split_dots (cur : list Z) (s : list Z) : list label :=
  match s with
  | [] => match cur with [] => [] | _ => [reverse cur] end
  | c :: s => if c =? 46 then match cur with [] => split_dots [] s | _ => reverse cur :: split_dots [] s end
              else split_dots (c :: cur) s
  end.

Definition plain_name (s : string) : PlainName := mkName (split_dots [] (bytes_of_string s)) true.
