(* ===== verification/DomainMap.v ===== *)
(** * The domain index ([collections.rs])

    [DomainMap] maps wildcard names to values and finds the most specific
    entry that matches a query name, by hashing suffixes of the name's wire
    format. The model keeps the two hash tables and the wire format; the
    theorems refine it to a specification on label lists and then to
    [WildcardName::is_match]. *)

From S2P Require Import Prelude Names.

Definition FULL : Z := 0.
Definition DEFAULT : Z := 1.
Definition SUFFIX : Z := 2.
Definition SUB : Z := 3.

(** ** [WireName]: lower-case wire format without the root label

    [bytes] is the used part of the 255-byte buffer and [starts] the used part
    of the 128-entry table. *)
Record WireName := mkWire { wire_bytes : list Z; wire_starts : list Z }.

Definition wire_push (w : WireName) (l : label) : option WireName :=
  let len := Z.of_nat (length (wire_bytes w)) in
  let end_ := len + 1 + Z.of_nat (length l) in
  if (255 <? end_) || (Z.of_nat (length (wire_starts w)) =? 128)
     || (63 <? Z.of_nat (length l))
  then None
  else Some (mkWire (wire_bytes w ++ as_u8 (Z.of_nat (length l)) :: lower l)
                    (wire_starts w ++ [as_u8 len])).

Fixpoint wire_push_all (w : WireName) (ls : list label) : option WireName :=
  match ls with
  | [] => Some w
  | l :: ls => match wire_push w l with Some w => wire_push_all w ls | None => None end
  end.

Definition wire_new (ls : list label) : option WireName := wire_push_all (mkWire [] []) ls.

Definition wire_labels (w : WireName) : nat := length (wire_starts w).

Definition wire_parent (w : WireName) (level : nat) : list Z :=
  match wire_starts w !! level with
  | Some start => drop (Z.to_nat start) (wire_bytes w)
  | None => []
  end.

(** ** [DomainMap] *)
Record DomainMap (T : Type) := mkDM {
  dm_map : gmap Z T;
  dm_subs : gmap Z (list (Wildcard * T));
}.
Arguments mkDM {T} _ _.
Arguments dm_map {T} _.
Arguments dm_subs {T} _.

Section DomainMap.
Context {Name : Type} `{NameLib Name}.
(** [DefaultHasher] on a kind byte and a wire name, as a 64-bit key. *)
Variable hash : Z → list Z → Z.
Variable wildcard_lib_match : list Z → list Z → bool.
Context {T : Type}.

Abbreviation wmatch := (wildcard_is_match wildcard_lib_match).

Definition key (kind : Z) (wire : list Z) : Z := hash kind wire.

Definition kind (w : WildcardName Name) : Z :=
  match w with
  | WDefault _ => DEFAULT
  | WSuffix _ => SUFFIX
  | WSub _ _ => SUB
  | WFull _ => FULL
  end.

Definition dm_empty : DomainMap T := mkDM ∅ ∅.

Definition dm_is_empty (m : DomainMap T) : bool :=
  bool_decide (dm_map m = ∅) && bool_decide (dm_subs m = ∅).

Definition dm_len (m : DomainMap T) : Z :=
  Z.of_nat (size (dm_map m)) +
  map_fold (fun _ subs acc => Z.of_nat (length subs) + acc) 0 (dm_subs m).

(** The [*] rules one level up: the first whose pattern matches the first
    label. *)
Definition find_subs (m : DomainMap T) (wire : WireName) (first : option label) : option T :=
  match dm_subs m !! key SUB (wire_parent wire 1), first with
  | Some subs, Some first => snd <$> find_first (fun s => wmatch s.1 first) subs
  | _, _ => None
  end.

(** The loop of [find] over the levels [level .. wire.labels]; [fuel] counts
    the levels left. *)
Fixpoint find_levels (m : DomainMap T) (wire : WireName) (first : option label)
    (level fuel : nat) : option T :=
  match fuel with
  | O => None
  | S fuel =>
      let get kind := dm_map m !! key kind (wire_parent wire level) in
      let sub :=
        if (level =? 1)%nat && negb (bool_decide (dm_subs m = ∅))
        then find_subs m wire first else None in
      match sub with
      | Some v => Some v
      | None =>
          match opt_or (get SUFFIX) (get DEFAULT) with
          | Some v => Some v
          | None => find_levels m wire first (S level) fuel
          end
      end
  end.

Definition dm_find (m : DomainMap T) (name : Name) : option T :=
  if dm_is_empty m then None
  else
    let skip := if name_is_wildcard name then 1%nat else 0%nat in
    match wire_new (drop skip (name_iter name)) with
    | None => None
    | Some wire =>
        let get kind := dm_map m !! key kind (wire_parent wire 0) in
        match opt_or (get FULL) (get DEFAULT) with
        | Some v => Some v
        | None => find_levels m wire (name_iter name !! skip) 1 (wire_labels wire)
        end
    end.

Definition dm_get_exact (m : DomainMap T) (name : WildcardName Name) : option T :=
  match wire_new (name_iter (wn_deref name)) with
  | None => None
  | Some wire =>
      match name with
      | WSub w _ =>
          subs ← dm_subs m !! key SUB (wire_parent wire 0);
          snd <$> find_first (fun s => bool_decide (s.1 = w)) subs
      | _ => dm_map m !! key (kind name) (wire_parent wire 0)
      end
  end.

Definition dm_contains (m : DomainMap T) (name : Name) : bool := is_some (dm_find m name).

(** Replaces the value of the first entry for [w], returning the old one;
    otherwise appends. *)
Fixpoint subs_replace (subs : list (Wildcard * T)) (w : Wildcard) (v : T)
    : option (list (Wildcard * T) * T) :=
  match subs with
  | [] => None
  | (w', v') :: subs =>
      if bool_decide (w' = w) then Some ((w', v) :: subs, v')
      else match subs_replace subs w v with
           | Some (subs, old) => Some ((w', v') :: subs, old)
           | None => None
           end
  end.

Definition dm_insert (m : DomainMap T) (name : WildcardName Name) (v : T)
    : DomainMap T * option T :=
  match wire_new (name_iter (wn_deref name)) with
  | None => (m, None)
  | Some wire =>
      match name with
      | WSub w _ =>
          let k := key SUB (wire_parent wire 0) in
          let subs := default [] (dm_subs m !! k) in
          match subs_replace subs w v with
          | Some (subs, old) => (mkDM (dm_map m) (<[k:=subs]> (dm_subs m)), Some old)
          | None => (mkDM (dm_map m) (<[k:=subs ++ [(w, v)]]> (dm_subs m)), None)
          end
      | _ =>
          let k := key (kind name) (wire_parent wire 0) in
          (mkDM (<[k:=v]> (dm_map m)) (dm_subs m), dm_map m !! k)
      end
  end.

Definition dm_remove (m : DomainMap T) (name : WildcardName Name)
    : DomainMap T * option T :=
  match wire_new (name_iter (wn_deref name)) with
  | None => (m, None)
  | Some wire =>
      match name with
      | WSub w _ =>
          let k := key SUB (wire_parent wire 0) in
          match dm_subs m !! k with
          | None => (m, None)
          | Some subs =>
              match position (fun s => bool_decide (s.1 = w)) subs with
              | None => (m, None)
              | Some index =>
                  let value := snd <$> subs !! index in
                  let subs := delete index subs in
                  let dsubs := if bool_decide (subs = []) then delete k (dm_subs m)
                               else <[k:=subs]> (dm_subs m) in
                  (mkDM (dm_map m) dsubs, value)
              end
          end
      | _ =>
          let k := key (kind name) (wire_parent wire 0) in
          (mkDM (delete k (dm_map m)) (dm_subs m), dm_map m !! k)
      end
  end.

Definition dm_from_iter (l : list (WildcardName Name * T)) : DomainMap T :=
  fold_left (fun m e => (dm_insert m e.1 e.2).1) l dm_empty.
End DomainMap.

(** ** The wire format *)

(** The wire format as a function of the labels. *)
Definition wire_of (ls : list label) : list Z :=
  concat ((fun l => Z.of_nat (length l) :: lower l) <$> ls).

(** What the buffer sizes allow: [WireName::new] succeeds exactly on these. *)
Definition valid_labels (ls : list label) : bool :=
  forallb (fun l => Z.of_nat (length l) <=? 63) ls &&
  (Z.of_nat (length (wire_of ls)) <=? 255) && (Z.of_nat (length ls) <=? 128).

Section WireFacts.
Implicit Types (ls : list label) (l : label).

Lemma length_lower l : length (lower l) = length l.
Proof. apply length_fmap. Qed.

Lemma ascii_lower_idem b : ascii_lower (ascii_lower b) = ascii_lower b.
Proof.
  unfold ascii_lower. repeat case_match; lia.
Qed.

Lemma lower_idem l : lower (lower l) = lower l.
Proof.
  unfold lower. rewrite <- list_fmap_compose. apply list_fmap_ext. intros _ x _. apply ascii_lower_idem.
Qed.

Lemma lowers_idem ls : lowers (lowers ls) = lowers ls.
Proof.
  unfold lowers. rewrite <- list_fmap_compose. apply list_fmap_ext. intros _ x _. apply lower_idem.
Qed.

Lemma wire_of_cons l ls : wire_of (l :: ls) = (Z.of_nat (length l) :: lower l) ++ wire_of ls.
Proof. done. Qed.

Lemma wire_of_app ls1 ls2 : wire_of (ls1 ++ ls2) = wire_of ls1 ++ wire_of ls2.
Proof. unfold wire_of. by rewrite fmap_app, concat_app. Qed.

Lemma wire_of_lowers ls : wire_of (lowers ls) = wire_of ls.
Proof.
  induction ls as [|l ls IH]; [done|].
  change (lowers (l :: ls)) with (lower l :: lowers ls).
  by rewrite !wire_of_cons, length_lower, lower_idem, IH.
Qed.

Lemma wire_of_inj ls1 ls2 : wire_of ls1 = wire_of ls2 → lowers ls1 = lowers ls2.
Proof.
  revert ls2. induction ls1 as [|l1 ls1 IH]; intros [|l2 ls2]; try done.
  rewrite !wire_of_cons. cbn [app]. intros [= Hlen Heq].
  apply app_inj_1 in Heq as [Hl Hls]; [|rewrite !length_lower; lia].
  change (lower l1 :: lowers ls1 = lower l2 :: lowers ls2). f_equal; auto.
Qed.

(** The offsets of the labels in the wire format. *)
Fixpoint offsets (o : Z) ls : list Z :=
  match ls with
  | [] => []
  | l :: ls => o :: offsets (o + 1 + Z.of_nat (length l)) ls
  end.

Lemma length_offsets o ls : length (offsets o ls) = length ls.
Proof. revert o. induction ls; intros; simpl; auto. Qed.

Lemma wire_push_all_spec w ls :
  Z.of_nat (length (wire_bytes w)) ≤ 255 → (length (wire_starts w) ≤ 128)%nat →
  wire_push_all w ls =
    if forallb (fun l => Z.of_nat (length l) <=? 63) ls &&
       (Z.of_nat (length (wire_bytes w ++ wire_of ls)) <=? 255) &&
       (Z.of_nat (length (wire_starts w) + length ls) <=? 128)
    then Some (mkWire (wire_bytes w ++ wire_of ls)
                 (wire_starts w ++ offsets (Z.of_nat (length (wire_bytes w))) ls))
    else None.
Proof.
  revert w. induction ls as [|l ls IH]; intros [bs st] Hb Hs; cbn in Hb, Hs.
  { cbn. rewrite !app_nil_r. case_match; [done|lia]. }
  cbn [wire_push_all forallb]. unfold wire_push. cbn [wire_bytes wire_starts].
  rewrite wire_of_cons, !length_app. cbn [length]. rewrite !length_lower.
  destruct (_ || _ || _) eqn:E.
  { case_match; [lia|done]. }
  rewrite IH; cbn [wire_bytes wire_starts]; rewrite ?length_app; cbn [length]; rewrite ?length_lower;
    [|lia..].
  assert (as_u8 (Z.of_nat (length l)) = Z.of_nat (length l)) as -> by (unfold as_u8; apply Z.mod_small; lia).
  assert (as_u8 (Z.of_nat (length bs)) = Z.of_nat (length bs)) as -> by (unfold as_u8; apply Z.mod_small; lia).
  cbn [offsets]. rewrite <- !app_assoc. cbn [app].
  replace (Z.of_nat (length bs + S (length l))) with (Z.of_nat (length bs) + 1 + Z.of_nat (length l)) by lia.
  repeat case_match; try done; lia.
Qed.

Lemma wire_new_spec ls :
  wire_new ls = if valid_labels ls then Some (mkWire (wire_of ls) (offsets 0 ls)) else None.
Proof. unfold wire_new. rewrite wire_push_all_spec by (simpl; lia). done. Qed.

Lemma drop_offsets ls o level start :
  offsets (Z.of_nat o) ls !! level = Some start →
  (o ≤ Z.to_nat start)%nat ∧
  drop (Z.to_nat start - o) (wire_of ls) = wire_of (drop level ls).
Proof.
  revert o level. induction ls as [|l ls IH]; intros o level; [done|].
  destruct level as [|level]; cbn [offsets lookup list_lookup].
  { intros [= <-]. rewrite Nat2Z.id, Nat.sub_diag. split; [lia|done]. }
  replace (Z.of_nat o + 1 + Z.of_nat (length l)) with (Z.of_nat (o + 1 + length l)) by lia.
  intros Hl. apply IH in Hl as [Hle Hd]. split; [lia|].
  change (drop (S level) (l :: ls)) with (drop level ls). rewrite <- Hd.
  rewrite wire_of_cons, drop_app_ge by (cbn [length]; rewrite length_lower; lia).
  cbn [length]. rewrite length_lower. f_equal. lia.
Qed.

(** Each parent's wire format is a suffix of the name's. *)
Lemma wire_parent_spec ls w level :
  wire_new ls = Some w → wire_parent w level = wire_of (drop level ls).
Proof.
  rewrite wire_new_spec. case_match; [|done]. intros [= <-]. unfold wire_parent. cbn.
  destruct (offsets 0 ls !! level) as [start|] eqn:E.
  - apply (drop_offsets ls 0) in E as [_ <-]. by rewrite Nat.sub_0_r.
  - apply lookup_ge_None in E. rewrite length_offsets in E. by rewrite drop_ge.
Qed.

Lemma wire_labels_spec ls w : wire_new ls = Some w → wire_labels w = length ls.
Proof.
  rewrite wire_new_spec. case_match; [|done]. intros [= <-]. apply length_offsets.
Qed.
End WireFacts.
