(* ===== verification/DomainMapSpec.v ===== *)
(** * Correctness of the domain index

    An abstract index keyed by kind and labels, the refinement of
    [DomainMap] to it, and the meaning of a lookup: the most specific stored
    rule that matches the name. *)

From S2P Require Import Prelude Names DomainMap.

(** ** The abstract index *)
Record SpecMap (T : Type) := mkSM {
  sm_map : gmap (Z * list label) T;
  sm_subs : gmap (list label) (list (Wildcard * T));
}.
Arguments mkSM {T} _ _.
Arguments sm_map {T} _.
Arguments sm_subs {T} _.

(** The first pattern of [subs] that matches a label. *)
Definition sub_hit {T} (wm : list Z → list Z → bool) (subs : list (Wildcard * T))
    (first : option label) : option T :=
  l ← first; snd <$> find_first (fun s => wildcard_is_match wm s.1 l) subs.

Section Spec.
Context {Name : Type} `{NameLib Name}.
Variable wildcard_lib_match : list Z → list Z → bool.
Context {T : Type}.
Implicit Types (s : SpecMap T) (w : WildcardName Name).

Definition wn_labels w : list label := lowers (name_iter (wn_deref w)).
Definition wn_key w : Z * list label := (kind w, wn_labels w).

Definition sm_empty : SpecMap T := mkSM ∅ ∅.

Definition sm_insert s w (v : T) : SpecMap T * option T :=
  if negb (valid_labels (wn_labels w)) then (s, None)
  else match w with
  | WSub p _ =>
      let subs := default [] (sm_subs s !! wn_labels w) in
      match subs_replace subs p v with
      | Some (subs, old) => (mkSM (sm_map s) (<[wn_labels w:=subs]> (sm_subs s)), Some old)
      | None => (mkSM (sm_map s) (<[wn_labels w:=subs ++ [(p, v)]]> (sm_subs s)), None)
      end
  | _ => (mkSM (<[wn_key w:=v]> (sm_map s)) (sm_subs s), sm_map s !! wn_key w)
  end.

Definition sm_remove s w : SpecMap T * option T :=
  if negb (valid_labels (wn_labels w)) then (s, None)
  else match w with
  | WSub p _ =>
      match sm_subs s !! wn_labels w with
      | None => (s, None)
      | Some subs =>
          match position (fun x => bool_decide (x.1 = p)) subs with
          | None => (s, None)
          | Some i =>
              let rest := delete i subs in
              (mkSM (sm_map s)
                 (if bool_decide (rest = []) then delete (wn_labels w) (sm_subs s)
                  else <[wn_labels w:=rest]> (sm_subs s)),
               snd <$> subs !! i)
          end
      end
  | _ => (mkSM (delete (wn_key w) (sm_map s)) (sm_subs s), sm_map s !! wn_key w)
  end.

Definition sm_get_exact s w : option T :=
  if negb (valid_labels (wn_labels w)) then None
  else match w with
  | WSub p _ =>
      subs ← sm_subs s !! wn_labels w;
      snd <$> find_first (fun x => bool_decide (x.1 = p)) subs
  | _ => sm_map s !! wn_key w
  end.

(** The labels a query is matched with: a wildcard query as its parent. *)
Definition query_skip (n : Name) : nat := if name_is_wildcard n then 1%nat else 0%nat.
Definition query_labels (n : Name) : list label := lowers (drop (query_skip n) (name_iter n)).

(** The stored rules that could match, with their rank: the number of labels
    dropped, then the kind of rule. *)
Definition level_cands s (ls : list label) (first : option label) (level : nat)
    : list (Z * option T) :=
  let r := 4 * Z.of_nat level in
  [ (r + 1, if (level =? 1)%nat
            then sub_hit wildcard_lib_match (default [] (sm_subs s !! drop 1 ls)) first else None);
    (r + 2, sm_map s !! (SUFFIX, drop level ls));
    (r + 3, sm_map s !! (DEFAULT, drop level ls)) ].

Definition cands s (ls : list label) (first : option label) : list (Z * option T) :=
  (0, sm_map s !! (FULL, ls)) :: (3, sm_map s !! (DEFAULT, ls)) ::
  concat (level_cands s ls first <$> seq 1 (length ls)).

Definition sm_find s (n : Name) : option T :=
  let ls := query_labels n in
  if negb (valid_labels ls) then None
  else first_some (cands s ls (name_iter n !! query_skip n)).*2.

(** ** Sequences of updates *)
Inductive dm_op := OpInsert (w : WildcardName Name) (v : T) | OpRemove (w : WildcardName Name).

Definition op_name (o : dm_op) : WildcardName Name :=
  match o with OpInsert w _ | OpRemove w => w end.

Definition sm_step s (o : dm_op) : SpecMap T * option T :=
  match o with OpInsert w v => sm_insert s w v | OpRemove w => sm_remove s w end.

Fixpoint sm_run s (ops : list dm_op) : SpecMap T * list (option T) :=
  match ops with
  | [] => (s, [])
  | o :: ops => let '(s, out) := sm_step s o in let '(s, outs) := sm_run s ops in (s, out :: outs)
  end.

Variable hash : Z → list Z → Z.

Definition dm_step (m : DomainMap T) (o : dm_op) : DomainMap T * option T :=
  match o with
  | OpInsert w v => dm_insert hash m w v
  | OpRemove w => dm_remove hash m w
  end.

Fixpoint dm_run (m : DomainMap T) (ops : list dm_op) : DomainMap T * list (option T) :=
  match ops with
  | [] => (m, [])
  | o :: ops => let '(m, out) := dm_step m o in let '(m, outs) := dm_run m ops in (m, out :: outs)
  end.

(** ** Hash collisions

    The tables are keyed by 64-bit hashes, so the refinement needs the hash
    to separate the finitely many keys in play: those of the updates, and
    those a query asks for. *)
Definition query_keys (n : Name) : list (Z * list label) :=
  let ls := query_labels n in
  level ← seq 0 (S (length ls)); (fun k => (k, drop level ls)) <$> [FULL; DEFAULT; SUFFIX; SUB].

Definition collision_free (keys : list (Z * list label)) : Prop :=
  ∀ p q, p ∈ keys → q ∈ keys → hash p.1 (wire_of p.2) = hash q.1 (wire_of q.2) → p = q.

Lemma collision_free_NoDup keys :
  collision_free keys ↔ NoDup ((fun p => hash p.1 (wire_of p.2)) <$> remove_dups keys).
Proof.
  unfold collision_free. setoid_rewrite <- (elem_of_remove_dups keys). split.
  - intros Hc. apply NoDup_fmap_2_strong; [|apply NoDup_remove_dups]. auto.
  - intros Hnd p q [i Hi]%list_elem_of_lookup [j Hj]%list_elem_of_lookup Heq.
    assert (i = j) as <-; [|congruence].
    eapply NoDup_lookup; [exact Hnd|rewrite list_lookup_fmap, Hi; reflexivity|].
    rewrite list_lookup_fmap, Hj. cbn. congruence.
Qed.

#[global] Instance collision_free_dec keys : Decision (collision_free keys).
Proof.
  refine (cast_if (decide (NoDup ((fun p => hash p.1 (wire_of p.2)) <$> remove_dups keys))));
    by rewrite collision_free_NoDup.
Defined.

(** The concrete tables agree with the abstract ones on the keys in play. *)
Record dm_rel (keys : list (Z * list label)) (m : DomainMap T) s : Prop := {
  rel_map k ls : (k, ls) ∈ keys → dm_map m !! hash k (wire_of ls) = sm_map s !! (k, ls);
  rel_subs ls : (SUB, ls) ∈ keys → dm_subs m !! hash SUB (wire_of ls) = sm_subs s !! ls;
}.
End Spec.

Arguments dm_op Name T : clear implicits.

(** ** Refinement *)
Section Refinement.
Context {Name : Type} `{NameLib Name}.
Variable wm : list Z → list Z → bool.
Variable hash : Z → list Z → Z.
Context {T : Type}.
Implicit Types (m : DomainMap T) (s : SpecMap T) (w : WildcardName Name) (keys : list (Z * list label)).

Lemma valid_labels_lowers ls : valid_labels (lowers ls) = valid_labels ls.
Proof.
  unfold valid_labels. rewrite wire_of_lowers. unfold lowers. rewrite length_fmap. f_equal. f_equal.
  induction ls as [|l ls IH]; [done|]. cbn. rewrite length_lower. f_equal. done.
Qed.

Lemma length_lowers ls : length (lowers ls) = length ls.
Proof. apply length_fmap. Qed.

Lemma drop_lowers n ls : lowers (drop n ls) = drop n (lowers ls).
Proof. unfold lowers. by rewrite fmap_drop. Qed.

(** The key a name is stored under. *)
Lemma wire_new_key ls :
  match wire_new ls with
  | Some wire => valid_labels (lowers ls) = true ∧ wire_parent wire 0 = wire_of (lowers ls)
  | None => valid_labels (lowers ls) = false
  end.
Proof.
  rewrite valid_labels_lowers. destruct (wire_new ls) as [wire|] eqn:E.
  - rewrite (wire_parent_spec _ _ _ E), wire_of_lowers. rewrite wire_new_spec in E.
    by case_match.
  - rewrite wire_new_spec in E. by case_match.
Qed.

Lemma dm_rel_insert_map keys m s k ls v :
  collision_free hash keys → dm_rel hash keys m s → (k, ls) ∈ keys →
  dm_rel hash keys (mkDM (<[hash k (wire_of ls):=v]> (dm_map m)) (dm_subs m))
    (mkSM (<[(k, ls):=v]> (sm_map s)) (sm_subs s)).
Proof.
  intros Hc [Hm Hs] Hk. split; [|done]. intros k' ls' Hk'. simpl.
  destruct (decide ((k, ls) = (k', ls'))) as [[= -> ->]|Hne]; [by rewrite !lookup_insert_eq|].
  rewrite !lookup_insert_ne; [auto|done|]. intros He. by apply Hne, Hc.
Qed.

Lemma dm_rel_delete_map keys m s k ls :
  collision_free hash keys → dm_rel hash keys m s → (k, ls) ∈ keys →
  dm_rel hash keys (mkDM (delete (hash k (wire_of ls)) (dm_map m)) (dm_subs m))
    (mkSM (delete (k, ls) (sm_map s)) (sm_subs s)).
Proof.
  intros Hc [Hm Hs] Hk. split; [|done]. intros k' ls' Hk'. simpl.
  destruct (decide ((k, ls) = (k', ls'))) as [[= -> ->]|Hne]; [by rewrite !lookup_delete_eq|].
  rewrite !lookup_delete_ne; [auto|done|]. intros He. by apply Hne, Hc.
Qed.

Lemma dm_rel_subs keys m s ls (f : option (list (Wildcard * T))) :
  collision_free hash keys → dm_rel hash keys m s → (SUB, ls) ∈ keys →
  dm_rel hash keys
    (mkDM (dm_map m) (partial_alter (fun _ => f) (hash SUB (wire_of ls)) (dm_subs m)))
    (mkSM (sm_map s) (partial_alter (fun _ => f) ls (sm_subs s))).
Proof.
  intros Hc [Hm Hs] Hk. split; [done|]. intros ls' Hk'. simpl.
  destruct (decide (ls = ls')) as [->|Hne]; [by rewrite !lookup_partial_alter_eq|].
  rewrite !lookup_partial_alter_ne; [auto|done|]. intros He.
  by assert ((SUB, ls) = (SUB, ls')) as [= ?] by (by apply Hc).
Qed.

Definition rel_out keys (r : DomainMap T * option T) (r' : SpecMap T * option T) : Prop :=
  dm_rel hash keys r.1 r'.1 ∧ r.2 = r'.2.

Lemma dm_insert_refines keys m s w v :
  collision_free hash keys → wn_key w ∈ keys → dm_rel hash keys m s →
  rel_out keys (dm_insert hash m w v) (sm_insert s w v).
Proof.
  intros Hc Hk Hr. unfold dm_insert, sm_insert, key.
  pose proof (wire_new_key (name_iter (wn_deref w))) as Hw. unfold wn_labels at 1.
  destruct (wire_new _) as [wire|]; [destruct Hw as [-> Hp]|by rewrite Hw].
  cbn [negb]. rewrite Hp. unfold wn_key in Hk.
  destruct w as [n|n|p n|n]; cbn [wn_deref kind] in *;
    try (split; [by apply dm_rel_insert_map|by apply (rel_map _ _ _ _ Hr)]).
  rewrite (rel_subs _ _ _ _ Hr) by done.
  change (lowers (name_iter n)) with (wn_labels (WSub p n)).
  destruct (subs_replace _ _ _) as [[subs old]|]; (split; [by apply dm_rel_subs|done]).
Qed.

Lemma dm_remove_refines keys m s w :
  collision_free hash keys → wn_key w ∈ keys → dm_rel hash keys m s →
  rel_out keys (dm_remove hash m w) (sm_remove s w).
Proof.
  intros Hc Hk Hr. unfold dm_remove, sm_remove, key.
  pose proof (wire_new_key (name_iter (wn_deref w))) as Hw. unfold wn_labels at 1.
  destruct (wire_new _) as [wire|]; [destruct Hw as [-> Hp]|by rewrite Hw].
  cbn [negb]. rewrite Hp. unfold wn_key in Hk.
  destruct w as [n|n|p n|n]; cbn [wn_deref kind] in *;
    try (split; [by apply dm_rel_delete_map|by apply (rel_map _ _ _ _ Hr)]).
  rewrite (rel_subs _ _ _ _ Hr) by done.
  change (lowers (name_iter n)) with (wn_labels (WSub p n)).
  destruct (sm_subs s !! _) as [subs|]; [|by split].
  destruct (position _ _) as [i|]; [|by split]. split; [|done]. simpl.
  case_bool_decide; by apply dm_rel_subs.
Qed.

Lemma dm_get_exact_refines keys m s w :
  wn_key w ∈ keys → dm_rel hash keys m s → dm_get_exact hash m w = sm_get_exact s w.
Proof.
  intros Hk Hr. unfold dm_get_exact, sm_get_exact, key.
  pose proof (wire_new_key (name_iter (wn_deref w))) as Hw. unfold wn_labels at 1.
  destruct (wire_new _) as [wire|]; [destruct Hw as [-> Hp]|by rewrite Hw].
  cbn [negb]. rewrite Hp. unfold wn_key in Hk.
  destruct w as [n|n|p n|n]; cbn [wn_deref kind] in *; try by apply (rel_map _ _ _ _ Hr).
  by rewrite (rel_subs _ _ _ _ Hr).
Qed.

Lemma dm_run_refines keys ops m s :
  collision_free hash keys → dm_rel hash keys m s →
  Forall (fun o => wn_key (op_name o) ∈ keys) ops →
  dm_rel hash keys (dm_run hash m ops).1 (sm_run s ops).1 ∧
  (dm_run hash m ops).2 = (sm_run s ops).2.
Proof.
  intros Hc Hr Hops. revert m s Hr. induction Hops as [|o ops Ho Hops IH]; intros m s Hr; [done|].
  cbn [dm_run sm_run].
  assert (rel_out keys (dm_step hash m o) (sm_step s o)) as [Hr' Ho'].
  { destruct o; [by apply dm_insert_refines|by apply dm_remove_refines]. }
  destruct (dm_step hash m o), (sm_step s o). simpl in *. subst.
  destruct (IH _ _ Hr') as [IH1 IH2].
  destruct (dm_run hash _ ops), (sm_run _ ops). simpl in *. by subst.
Qed.

Lemma find_subs_refines keys m s ls wire first :
  dm_rel hash keys m s → wire_new ls = Some wire → (SUB, drop 1 (lowers ls)) ∈ keys →
  (if negb (bool_decide (dm_subs m = ∅)) then find_subs hash wm m wire first else None) =
  sub_hit wm (default [] (sm_subs s !! drop 1 (lowers ls))) first.
Proof.
  intros Hr Hw Hk. unfold find_subs, key, sub_hit.
  rewrite (wire_parent_spec _ _ _ Hw), <- (wire_of_lowers (drop 1 ls)), drop_lowers.
  rewrite <- (rel_subs _ _ _ _ Hr) by done.
  case_bool_decide as He; cbn [negb].
  - rewrite He, lookup_empty. by destruct first.
  - by destruct (dm_subs m !! _), first.
Qed.

(** The search loop visits the candidates in order. *)
Lemma find_levels_refines keys m s ls wire first level fuel :
  dm_rel hash keys m s → wire_new ls = Some wire →
  (level + fuel = S (length ls))%nat →
  (∀ k l, k ∈ [SUFFIX; DEFAULT; SUB] → (l ≤ length ls)%nat → (k, drop l (lowers ls)) ∈ keys) →
  find_levels hash wm m wire first level fuel =
  first_some (concat (level_cands wm s (lowers ls) first <$> seq level fuel)).*2.
Proof.
  intros Hr Hw. revert level. induction fuel as [|fuel IH]; intros level Hl Hk; [done|].
  cbn [find_levels seq fmap list_fmap concat]. rewrite fmap_app, first_some_app. unfold key.
  rewrite !(wire_parent_spec _ _ _ Hw), <- (wire_of_lowers (drop level ls)), !drop_lowers.
  rewrite !(rel_map _ _ _ _ Hr) by (apply Hk; [solve_elem|lia]).
  rewrite IH by (done || lia). cbn. destruct (Nat.eqb_spec level 1) as [->|]; cbn [andb].
  - rewrite (find_subs_refines keys m s ls) by (done || (apply Hk; [solve_elem|lia])).
    destruct (sub_hit _ _ _); [done|]. by destruct (sm_map s !! _), (sm_map s !! _).
  - by destruct (sm_map s !! _), (sm_map s !! _).
Qed.

(** The early return on an empty index changes no result. *)
Lemma find_levels_empty m wire first level fuel :
  dm_is_empty m = true → find_levels hash wm m wire first level fuel = None.
Proof.
  unfold dm_is_empty. rewrite andb_true_iff, !bool_decide_eq_true. intros [H1 H2].
  revert level. induction fuel as [|fuel IH]; intros level; [done|].
  cbn. rewrite H1, H2, !lookup_empty, bool_decide_true, andb_false_r by done. apply IH.
Qed.

Lemma dm_find_unfold m n :
  dm_find hash wm m n =
  match wire_new (drop (query_skip n) (name_iter n)) with
  | None => None
  | Some wire =>
      opt_or (opt_or (dm_map m !! hash FULL (wire_parent wire 0))
                     (dm_map m !! hash DEFAULT (wire_parent wire 0)))
        (find_levels hash wm m wire (name_iter n !! query_skip n) 1 (wire_labels wire))
  end.
Proof.
  unfold dm_find, key. fold (query_skip n). destruct (dm_is_empty m) eqn:E.
  - case_match; [|done]. rewrite find_levels_empty by done.
    unfold dm_is_empty in E. apply andb_true_iff in E as [E _].
    by rewrite (bool_decide_eq_true_1 _ E), !lookup_empty.
  - case_match; [|done]. by case_match.
Qed.

Lemma query_keys_elem n k l :
  k ∈ [FULL; DEFAULT; SUFFIX; SUB] → (l ≤ length (drop (query_skip n) (name_iter n)))%nat →
  (k, drop l (query_labels n)) ∈ query_keys n.
Proof.
  intros Hk Hl. unfold query_keys. apply list_elem_of_bind.
  exists l. split; [|apply elem_of_seq; unfold query_labels; rewrite length_lowers; lia].
  apply list_elem_of_fmap. eauto.
Qed.

Lemma dm_find_refines keys m s n :
  dm_rel hash keys m s → query_keys n ⊆ keys → dm_find hash wm m n = sm_find wm s n.
Proof.
  intros Hr Hk. rewrite dm_find_unfold. unfold sm_find.
  pose proof (wire_new_key (drop (query_skip n) (name_iter n))) as Hw. unfold query_labels at 1.
  destruct (wire_new _) as [wire|] eqn:Ew; [destruct Hw as [-> Hp]|by rewrite Hw].
  rewrite Hp, (wire_labels_spec _ _ Ew). fold (query_labels n). cbn [negb].
  rewrite !(rel_map _ _ _ _ Hr)
    by (apply Hk; apply (query_keys_elem _ _ 0%nat); [solve_elem|lia]).
  rewrite (find_levels_refines keys m s (drop (query_skip n) (name_iter n)) wire _ 1);
    [|done..|]; last first.
  { intros k l Hin Hl. apply Hk, query_keys_elem; [|done]. rewrite !elem_of_cons in *. tauto. }
  unfold cands. fold (query_labels n). unfold query_labels at 7. rewrite length_lowers.
  cbn [fmap list_fmap first_some snd].
  by destruct (sm_map s !! _), (sm_map s !! _).
Qed.
End Refinement.

(** ** Lookups find the most specific rule *)
Section MostSpecific.
Context {Name : Type} `{NameLaws Name}.
Variable wm : list Z → list Z → bool.
Variable hash : Z → list Z → Z.
Context {T : Type}.
Implicit Types (s : SpecMap T) (w : WildcardName Name) (entries : list (WildcardName Name * T)).

(** What identifies a rule: its kind, its labels, its pattern. *)
Definition rule_id w : Z * list label * option Wildcard :=
  (wn_key w, match w with WSub p _ => Some p | _ => None end).

(** The value the last entry for a rule gives it. *)
Definition last_value entries (id : Z * list label * option Wildcard) : option T :=
  snd <$> find_first (fun e => bool_decide (rule_id e.1 = id)) (reverse entries).

(** The rank of a rule for a name it matches: fewer dropped labels first, then
    full, [*], suffix and default rules, as in [Ord for WildcardName]. *)
Definition rank (n : Name) w : Z :=
  4 * Z.of_nat (length (name_iter n) - length (wn_labels w)) + wn_ord w.

Definition lower_case (n : Name) : Prop := lowers (name_iter n) = name_iter n.

Lemma last_value_snoc entries w v id :
  last_value (entries ++ [(w, v)]) id =
  if bool_decide (rule_id w = id) then Some v else last_value entries id.
Proof. unfold last_value. rewrite reverse_snoc. simpl. by case_bool_decide. Qed.

Lemma last_value_elem entries w :
  w ∈ entries.*1 → is_Some (last_value entries (rule_id w)).
Proof.
  intros (e & -> & He)%list_elem_of_fmap. unfold last_value.
  destruct (find_first _ _) eqn:E; [done|].
  rewrite find_first_None in E. specialize (E e).
  rewrite elem_of_reverse, bool_decide_eq_false in E. by destruct E.
Qed.

Lemma last_value_Some entries id v :
  last_value entries id = Some v → ∃ w, (w, v) ∈ entries ∧ rule_id w = id.
Proof.
  unfold last_value. intros ([w v'] & [He Hi]%find_first_Some & ->)%fmap_Some.
  rewrite elem_of_reverse in He. apply bool_decide_eq_true in Hi. eauto.
Qed.

Lemma subs_replace_Some (subs : list (Wildcard * T)) p v subs' old :
  subs_replace subs p v = Some (subs', old) → NoDup subs.*1 →
  subs'.*1 = subs.*1 ∧ p ∈ subs.*1 ∧
  ∀ q u, (q, u) ∈ subs' ↔ if bool_decide (q = p) then u = v else (q, u) ∈ subs.
Proof.
  revert subs'. induction subs as [|[q0 u0] subs IH]; [done|]. intros subs'. cbn.
  intros Hr [Hn Hnd]%NoDup_cons. revert Hr. case_bool_decide as E.
  - intros [= <- <-]. subst. split; [done|]. split; [by left|]. intros q u.
    rewrite elem_of_cons. case_bool_decide as E2; [subst|].
    + split; [intros [[= ->]|Hin]|intros ->; by left]; [done|].
      exfalso. apply Hn. apply list_elem_of_fmap. by exists (p, u).
    + rewrite elem_of_cons. split; intros [[= ? ?]|?]; subst; auto; done.
  - destruct (subs_replace subs p v) as [[subs1 old1]|] eqn:E1; [|done]. intros [= <- <-].
    destruct (IH _ eq_refl Hnd) as (Hk & Hp & Hin). cbn. rewrite Hk. split; [done|].
    split; [by right|]. intros q u. rewrite !elem_of_cons, Hin.
    case_bool_decide as E3; [subst|by rewrite elem_of_cons]. split; [|auto]. intros [[= ? ?]|?]; [by subst|done].
Qed.

Lemma subs_replace_None (subs : list (Wildcard * T)) p v :
  subs_replace subs p v = None → p ∉ subs.*1.
Proof.
  induction subs as [|[q u] subs IH]; cbn; [intros _ Hp; by apply not_elem_of_nil in Hp|].
  case_bool_decide; [done|]. destruct (subs_replace subs p v) as [[]|]; [done|].
  intros _. rewrite elem_of_cons. intros [->|?]; [done|]. by apply IH.
Qed.

Lemma sub_rule_id p n ls q :
  rule_id (WSub p n) = (SUB, ls, Some q) ↔ wn_labels (WSub p n) = ls ∧ p = q.
Proof. unfold rule_id, wn_key. cbn [kind]. split; [by intros [= -> ->]|by intros [-> ->]]. Qed.

(** The state of the abstract index after inserting [entries]. *)
Record sm_inv entries s : Prop := {
  inv_map k ls : k ≠ SUB → sm_map s !! (k, ls) = last_value entries (k, ls, None);
  inv_subs_nodup ls : NoDup (default [] (sm_subs s !! ls)).*1;
  inv_subs ls p v :
    (p, v) ∈ default [] (sm_subs s !! ls) ↔ last_value entries (SUB, ls, Some p) = Some v;
}.

Lemma sm_inv_empty : sm_inv [] (sm_empty (T := T)).
Proof.
  split; cbn; intros; rewrite ?lookup_empty; [done|constructor|].
  split; [|done]. intros Hp. by apply not_elem_of_nil in Hp.
Qed.

Lemma sm_inv_insert_plain entries s w v :
  sm_inv entries s → (∀ p n, w ≠ WSub p n) →
  sm_inv (entries ++ [(w, v)]) (mkSM (<[wn_key w:=v]> (sm_map s)) (sm_subs s)).
Proof.
  intros [Hm Hn Hs] Hw.
  assert (Hid : rule_id w = (wn_key w, None)) by (destruct w; [done..|by destruct (Hw w n)|done]).
  assert (Hk : (wn_key w).1 ≠ SUB) by (destruct w; [done..|by destruct (Hw w n)|done]).
  split; cbn; [|done|]; intros; rewrite last_value_snoc, Hid.
  - rewrite lookup_insert. destruct (decide (wn_key w = (k, ls))) as [->|Hne].
    + by rewrite bool_decide_true.
    + rewrite bool_decide_false by congruence. auto.
  - rewrite bool_decide_false by congruence. apply Hs.
Qed.

Lemma sm_inv_insert_sub entries s p n v subs' :
  sm_inv entries s →
  let ls := wn_labels (WSub p n) in
  NoDup subs'.*1 →
  (∀ q u, (q, u) ∈ subs' ↔
     if bool_decide (q = p) then u = v else (q, u) ∈ default [] (sm_subs s !! ls)) →
  sm_inv (entries ++ [(WSub p n, v)]) (mkSM (sm_map s) (<[ls:=subs']> (sm_subs s))).
Proof.
  intros [Hm Hn Hs] ls Hnd Hin. split; cbn.
  - intros k ls' Hk. rewrite last_value_snoc, bool_decide_false by done. auto.
  - intros ls'. rewrite lookup_insert. by destruct (decide (ls = ls')).
  - intros ls' q u. rewrite last_value_snoc.
    rewrite (bool_decide_ext _ _ (sub_rule_id p n ls' q)). fold ls. rewrite lookup_insert.
    destruct (decide (ls = ls')) as [<-|Hne].
    + cbn. rewrite Hin. destruct (decide (q = p)) as [->|Hq].
      * rewrite !bool_decide_true by done. split; congruence.
      * rewrite !bool_decide_false by (try intros [? ?]; congruence). apply Hs.
    + rewrite bool_decide_false by (intros [? ?]; congruence). apply Hs.
Qed.

Lemma sm_inv_insert entries s w v :
  sm_inv entries s → valid_labels (wn_labels w) = true →
  sm_inv (entries ++ [(w, v)]) (sm_insert s w v).1.
Proof.
  intros Hi Hv. unfold sm_insert. rewrite Hv. cbn [negb].
  destruct w as [n|n|p n|n]; try (by apply sm_inv_insert_plain).
  destruct (subs_replace _ p v) as [[subs' old]|] eqn:E.
  - destruct (subs_replace_Some _ _ _ _ _ E) as (Hk & _ & Hin); [apply Hi|].
    apply sm_inv_insert_sub; [done| |done]. rewrite Hk. apply Hi.
  - apply subs_replace_None in E. apply sm_inv_insert_sub; [done|..].
    + rewrite fmap_app. apply NoDup_app. split; [apply Hi|]. split; [|apply NoDup_singleton].
      intros q Hq ->%list_elem_of_singleton. done.
    + intros q u. rewrite elem_of_app, list_elem_of_singleton. case_bool_decide as Hq; [subst|].
      * split; [|intros ->; by right]. intros [Hin|[= ->]]; [|done].
        destruct E. apply list_elem_of_fmap. by exists (p, u).
      * split; [|auto]. intros [?|[= ? ?]]; [done|congruence].
Qed.

Definition inserts entries : list (dm_op Name T) := (fun e => OpInsert e.1 e.2) <$> entries.

Lemma inserts_cons w v entries : inserts ((w, v) :: entries) = OpInsert w v :: inserts entries.
Proof. done. Qed.

Lemma sm_inv_run entries :
  Forall (fun e => valid_labels (wn_labels e.1) = true) entries →
  sm_inv entries (sm_run sm_empty (inserts entries)).1.
Proof.
  intros Hv.
  enough (∀ pre s, sm_inv pre s →
    sm_inv (pre ++ entries) (sm_run s (inserts entries)).1) as Hgen
    by apply (Hgen [] _ sm_inv_empty).
  induction Hv as [|[w v] entries Hw Hv IH]; intros pre s Hs; [by rewrite app_nil_r|].
  rewrite inserts_cons. cbn [sm_run sm_step fst] in *.
  pose proof (sm_inv_insert _ _ _ v Hs Hw) as Hi.
  destruct (sm_insert s w v) as [s1 out]. cbn in Hi. specialize (IH _ _ Hi).
  rewrite <- app_assoc in IH. by destruct (sm_run s1 _).
Qed.

Lemma dm_from_iter_run entries :
  dm_from_iter hash entries = (dm_run hash dm_empty (inserts entries)).1.
Proof.
  unfold dm_from_iter. generalize (dm_empty (T := T)).
  induction entries as [|[w v] entries IH]; intros m; [done|].
  rewrite inserts_cons. cbn [dm_run dm_step fold_left fst snd]. rewrite IH.
  destruct (dm_insert hash m w v). cbn [fst]. by destruct (dm_run hash _ _).
Qed.

(** *** The candidates of a query, by rank *)
Lemma elem_of_level_cands s ls first level r o :
  (r, o) ∈ level_cands wm s ls first level ↔
  (r = 4 * Z.of_nat level + 1 ∧ o = if (level =? 1)%nat
     then sub_hit wm (default [] (sm_subs s !! drop 1 ls)) first else None) ∨
  (r = 4 * Z.of_nat level + 2 ∧ o = sm_map s !! (SUFFIX, drop level ls)) ∨
  (r = 4 * Z.of_nat level + 3 ∧ o = sm_map s !! (DEFAULT, drop level ls)).
Proof.
  unfold level_cands. rewrite !elem_of_cons, elem_of_nil.
  split; [intros [[= -> ->]|[[= -> ->]|[[= -> ->]|[]]]]; auto|].
  intros [[-> ->]|[[-> ->]|[-> ->]]]; auto.
Qed.

Lemma elem_of_cands s ls first r o :
  (r, o) ∈ cands wm s ls first ↔
  (r = 0 ∧ o = sm_map s !! (FULL, ls)) ∨ (r = 3 ∧ o = sm_map s !! (DEFAULT, ls)) ∨
  ∃ level, (1 ≤ level ≤ length ls)%nat ∧ (r, o) ∈ level_cands wm s ls first level.
Proof.
  unfold cands. rewrite !elem_of_cons, list_elem_of_In, in_concat.
  split.
  - intros [[= -> ->]|[[= -> ->]|(lc & Hlc & Hin)]]; auto.
    rewrite <- list_elem_of_In in Hlc. rewrite <- list_elem_of_In in Hin.
    apply list_elem_of_fmap in Hlc as (level & -> & Hl).
    apply elem_of_seq in Hl. right; right. exists level. split; [lia|done].
  - intros [[-> ->]|[[-> ->]|(level & Hl & Hin)]]; auto. right; right.
    exists (level_cands wm s ls first level). rewrite <- !list_elem_of_In. split; [|done].
    apply list_elem_of_fmap. exists level. split; [done|]. apply elem_of_seq. lia.
Qed.

Lemma cands_sorted s ls first : StronglySorted Z.le (cands wm s ls first).*1.
Proof.
  assert (Hlv : ∀ n a,
    StronglySorted Z.le (concat (level_cands wm s ls first <$> seq a n)).*1 ∧
    Forall (Z.le (4 * Z.of_nat a + 1)) (concat (level_cands wm s ls first <$> seq a n)).*1).
  { induction n as [|n IH]; intros a; cbn; [split; constructor|].
    destruct (IH (S a)) as [Hs Hf].
    assert (Hf' : ∀ z, z ≤ 4 * Z.of_nat a + 5 →
      Forall (Z.le z) (concat (level_cands wm s ls first <$> seq (S a) n)).*1).
    { intros z Hz. eapply Forall_impl; [exact Hf|]. cbv beta. lia. }
    split; repeat constructor; try lia; try done; apply Hf'; lia. }
  destruct (Hlv (length ls) 1%nat) as [Hs Hf]. unfold cands. cbn.
  repeat constructor; try lia; try done; (eapply Forall_impl; [exact Hf|]; cbv beta; lia).
Qed.

(** *** Matching, on labels *)
Lemma is_match_labels w n :
  lower_case n → lower_case (wn_deref w) →
  wn_is_match wm w n = true ↔
  match w with
  | WDefault _ => wn_labels w `suffix_of` name_iter n
  | WSuffix _ => wn_labels w ≠ name_iter n ∧ wn_labels w `suffix_of` name_iter n
  | WSub p _ => wn_labels w = tail (name_iter n) ∧
      opt_map_or true (wildcard_is_match wm p) (head (name_iter n)) = true
  | WFull _ => wn_labels w = name_iter n
  end.
Proof.
  unfold lower_case, wn_labels. intros Hn Hw.
  assert (Ht : lowers (tail (name_iter n)) = tail (name_iter n)).
  { destruct (name_iter n) as [|l ls]; [done|]. by injection Hn. }
  destruct w as [z|z|p z|z]; cbn [wn_is_match wn_deref] in *;
    rewrite ?andb_true_iff, ?negb_true_iff, ?name_zone_of_iter, ?Hn, ?Hw, ?name_eq_ignore_root_case_iter
      by (rewrite ?name_base_name_iter; done); rewrite ?name_base_name_iter; [done| |done..].
  pose proof (name_eq_ignore_root_case_iter z n Hw Hn) as He.
  destruct (name_eq_ignore_root_case z n); intuition congruence.
Qed.

Lemma suffix_drop (l1 l2 : list label) :
  l1 `suffix_of` l2 ↔ ∃ k, (k ≤ length l2)%nat ∧ l1 = drop k l2 ∧ (length l2 - length l1 = k)%nat.
Proof.
  split.
  - intros [k ->]. exists (length k). rewrite length_app, drop_app_length. split; [lia|]. split; [done|lia].
  - intros (k & Hk & -> & _). exists (take k l2). by rewrite take_drop.
Qed.

Section Query.
Context (entries : list (WildcardName Name * T)) (s : SpecMap T) (n : Name).
Context (Hinv : sm_inv entries s) (Hn : lower_case n) (Hne : name_iter n ≠ [])
  (Hl : ∀ w, w ∈ entries.*1 → lower_case (wn_deref w)).

Abbreviation query_cands := (cands wm s (name_iter n) (head (name_iter n))).

(** A rule of the index with the given id. *)
Lemma stored_rule id v :
  last_value entries id = Some v →
  ∃ w, w ∈ entries.*1 ∧ rule_id w = id ∧ last_value entries (rule_id w) = Some v.
Proof.
  intros Hv. destruct (last_value_Some _ _ _ Hv) as (w & Hin & Hid).
  exists w. split; [apply list_elem_of_fmap; by exists (w, v)|]. by rewrite Hid.
Qed.

Lemma cand_sound r v :
  (r, Some v) ∈ query_cands →
  ∃ w, w ∈ entries.*1 ∧ last_value entries (rule_id w) = Some v ∧
    wn_is_match wm w n = true ∧ rank n w = r.
Proof.
  rewrite elem_of_cands.
  enough (Hplain : ∀ k level, k ≠ SUB → (level ≤ length (name_iter n))%nat →
    last_value entries (k, drop level (name_iter n), None) = Some v →
    (k = FULL → level = 0%nat) → (k = SUFFIX → level ≠ 0%nat) →
    k ∈ [FULL; SUFFIX; DEFAULT] →
    ∃ w, w ∈ entries.*1 ∧ last_value entries (rule_id w) = Some v ∧
    wn_is_match wm w n = true ∧
    rank n w = 4 * Z.of_nat level + (if k =? FULL then 0 else if k =? SUFFIX then 2 else 3)).
  { intros [[-> He]|[[-> He]|(level & Hlv & Hc)]].
    - rewrite (inv_map _ _ Hinv) in He by done. apply (Hplain FULL 0%nat); try done; solve_elem || lia.
    - rewrite (inv_map _ _ Hinv) in He by done. apply (Hplain DEFAULT 0%nat); try done; solve_elem || lia.
    - apply elem_of_level_cands in Hc as [[-> He]|[[-> He]|[-> He]]].
      + destruct (Nat.eqb_spec level 1) as [->|]; [|done].
        destruct (name_iter n) as [|l ls] eqn:En; [done|]. cbn in He. symmetry in He.
        apply fmap_Some in He as ([p v'] & [Hin Hm]%find_first_Some & ->). cbn in Hm.
        apply (inv_subs _ _ Hinv) in Hin as Hlv'. apply stored_rule in Hlv' as (w & Hw & Hid & Hv).
        exists w. do 2 (split; [done|]).
        destruct w as [| |p' z|]; try done. apply sub_rule_id in Hid as [Hls ->].
        rewrite is_match_labels, En by auto. unfold rank. rewrite Hls, En. cbn [length tail head wn_ord].
        split; [done|]. cbn [drop]. rewrite drop_0. lia.
      + rewrite (inv_map _ _ Hinv) in He by done. apply (Hplain SUFFIX level); try done; solve_elem || lia.
      + rewrite (inv_map _ _ Hinv) in He by done. apply (Hplain DEFAULT level); try done; solve_elem || lia. }
  intros k level Hk Hlv Hv Hfull Hsuf Hin. apply stored_rule in Hv as (w & Hw & Hid & Hv).
  exists w. do 2 (split; [done|]). unfold rank. rewrite is_match_labels by auto.
  assert (Hsfx : drop level (name_iter n) `suffix_of` name_iter n).
  { exists (take level (name_iter n)). by rewrite take_drop. }
  destruct w as [z|z|p z|z]; [..|]; injection Hid as Hkk Hls; subst k; try done; rewrite Hls.
  - rewrite length_drop. split; [done|]. cbn. lia.
  - rewrite length_drop. split; [split; [|done]|cbn; lia].
    intros Heq%(f_equal length). rewrite length_drop in Heq. specialize (Hsuf eq_refl). lia.
  - rewrite (Hfull eq_refl), drop_0. split; [done|]. cbn. lia.
Qed.

Lemma cand_complete w :
  w ∈ entries.*1 → wn_is_match wm w n = true → ∃ v, (rank n w, Some v) ∈ query_cands.
Proof.
  intros Hw Hm. destruct (last_value_elem _ _ Hw) as [v Hv].
  rewrite is_match_labels in Hm by auto. setoid_rewrite elem_of_cands. unfold rank.
  destruct w as [z|z|p z|z]; unfold rule_id, wn_key in Hv; cbn [kind wn_ord] in *.
  - apply suffix_drop in Hm as (k & Hk & Hls & Hlen). rewrite Hlen.
    rewrite Hls, <- (inv_map _ _ Hinv) in Hv by done. exists v.
    destruct k as [|k]; [right; left; by rewrite drop_0 in Hv|right; right].
    exists (S k). split; [lia|]. apply elem_of_level_cands. right; right. by rewrite Hv.
  - destruct Hm as [Hneq Hm]. apply suffix_drop in Hm as (k & Hk & Hls & Hlen). rewrite Hlen.
    destruct k as [|k]; [by rewrite drop_0 in Hls|].
    rewrite Hls, <- (inv_map _ _ Hinv) in Hv by done. exists v. right; right.
    exists (S k). split; [lia|]. apply elem_of_level_cands. right; left. by rewrite Hv.
  - destruct Hm as [Hls Hm]. apply (inv_subs _ _ Hinv) in Hv. rewrite Hls in Hv |- *.
    destruct (name_iter n) as [|l ls] eqn:En; [done|]. cbn [tail head length opt_map_or] in *.
    destruct (find_first (fun x => wildcard_is_match wm x.1 l) (default [] (sm_subs s !! ls)))
      as [[p' v']|] eqn:Ef.
    + exists v'. right; right. exists 1%nat. split; [cbn; lia|]. apply elem_of_level_cands. left.
      split; [lia|]. cbn. by rewrite drop_0, Ef.
    + rewrite find_first_None in Ef. specialize (Ef _ Hv). cbn in Ef. congruence.
  - rewrite Hm, <- (inv_map _ _ Hinv) in Hv by done. exists v. left. rewrite Hm, Hv. split; [lia|done].
Qed.
End Query.
End MostSpecific.

(** ** The theorems *)
Section Theorems.
Context {Name : Type} `{NameLaws Name}.
Variable wm : list Z → list Z → bool.
Variable hash : Z → list Z → Z.
Context {T : Type}.

Lemma dm_rel_empty keys : dm_rel hash keys dm_empty (sm_empty (T := T)).
Proof. split; intros; cbn; by rewrite !lookup_empty. Qed.

(** C1: the value [find] returns is that of the most specific stored rule that
    matches the name, and it returns none only if no stored rule matches. Rules
    are compared by the number of labels below the rule's name, then full,
    [*], suffix and default; the name is lower case, as in a [LowerQuery], and
    neither the root nor itself a wildcard, and the hash separates the keys. *)
Theorem find_most_specific (entries : list (WildcardName Name * T)) (n : Name) :
  lower_case n → name_iter n ≠ [] → name_is_wildcard n = false →
  valid_labels (name_iter n) = true →
  Forall (fun e => lower_case (wn_deref e.1) ∧ valid_labels (wn_labels e.1) = true) entries →
  collision_free hash (((fun e => wn_key e.1) <$> entries) ++ query_keys n) →
  match dm_find hash wm (dm_from_iter hash entries) n with
  | Some v => ∃ w, w ∈ entries.*1 ∧ last_value entries (rule_id w) = Some v ∧
      wn_is_match wm w n = true ∧
      ∀ w', w' ∈ entries.*1 → wn_is_match wm w' n = true → rank n w ≤ rank n w'
  | None => ∀ w, w ∈ entries.*1 → wn_is_match wm w n = false
  end.
Proof.
  intros Hn Hne Hwild Hv He Hc. rewrite dm_from_iter_run.
  set (keys := _ ++ _) in Hc. pose (s := (sm_run sm_empty (inserts entries)).1).
  assert (Hrel : dm_rel hash keys (dm_run hash dm_empty (inserts entries)).1 s).
  { apply dm_run_refines; [done|apply dm_rel_empty|]. unfold inserts. apply Forall_fmap, Forall_forall.
    intros e Hin. apply elem_of_app. left. apply list_elem_of_fmap. by exists e. }
  rewrite (dm_find_refines _ _ _ _ _ _ Hrel)
    by (intros k Hk; apply elem_of_app; by right).
  assert (Hinv : sm_inv entries s).
  { apply sm_inv_run. eapply Forall_impl; [exact He|]. by intros e [_ ?]. }
  assert (Hlow : ∀ w, w ∈ entries.*1 → lower_case (wn_deref w)).
  { intros w (e & -> & Hin)%list_elem_of_fmap. rewrite Forall_forall in He. by apply He. }
  unfold sm_find, query_labels, query_skip. rewrite Hwild, drop_0, Hn, Hv. cbn [negb].
  replace (name_iter n !! 0%nat) with (head (name_iter n)) by (by destruct (name_iter n)).
  destruct (first_some _) as [v|] eqn:Ef.
  - apply first_some_ranked in Ef as (r & Hin & Hmin); [|apply cands_sorted].
    destruct (cand_sound wm entries s n Hinv Hn Hne Hlow r v Hin) as (w & Hw & Hvw & Hm & <-).
    exists w. do 3 (split; [done|]). intros w' Hw' Hm'.
    destruct (cand_complete wm entries s n Hinv Hn Hne Hlow w' Hw' Hm') as [v' Hv']. eauto.
  - rewrite first_some_None in Ef. intros w Hw. apply not_true_iff_false. intros Hm.
    destruct (cand_complete wm entries s n Hinv Hn Hne Hlow w Hw Hm) as [v Hin].
    discriminate (Ef (Some v)). apply list_elem_of_fmap. by exists (rank n w, Some v).
Qed.

(** C2: after any sequence of inserts and removes the index behaves as the
    abstract one: the same results of the updates, of [find] and of
    [get_exact], as long as the hash separates the keys in play. *)
Theorem dm_refines_spec (ops : list (dm_op Name T)) (n : Name) (w : WildcardName Name) :
  collision_free hash (((fun o => wn_key (op_name o)) <$> ops) ++ query_keys n ++ [wn_key w]) →
  (dm_run hash dm_empty ops).2 = (sm_run sm_empty ops).2 ∧
  dm_find hash wm (dm_run hash dm_empty ops).1 n = sm_find wm (sm_run sm_empty ops).1 n ∧
  dm_get_exact hash (dm_run hash dm_empty ops).1 w = sm_get_exact (sm_run sm_empty ops).1 w.
Proof.
  intros Hc. set (keys := _ ++ _) in Hc.
  assert (Hops : Forall (fun o => wn_key (op_name o) ∈ keys) ops).
  { apply Forall_forall. intros o Ho. apply elem_of_app. left. apply list_elem_of_fmap. by exists o. }
  destruct (dm_run_refines hash keys ops dm_empty sm_empty Hc (dm_rel_empty _) Hops) as [Hrel Hout].
  split; [done|]. split; [eapply dm_find_refines|eapply dm_get_exact_refines]; try done.
  - intros k Hk. unfold keys; rewrite !elem_of_app. auto.
  - unfold keys; rewrite !elem_of_app. right; right. by left.
Qed.
End Theorems.

(** ** Witnesses *)
Definition ex_rules : list (WildcardName PlainName * nat) :=
  [ (WDefault (plain_name "example.com"), 1%nat);
    (WSub (bytes_of_string "a*b") (plain_name "example.com"), 2%nat);
    (WFull (plain_name "www.example.com"), 3%nat);
    (WSuffix (plain_name "com"), 4%nat) ].

Lemma find_most_specific_witness :
  dm_find fnv64 glob_match (dm_from_iter fnv64 ex_rules) (plain_name "axb.example.com") = Some 2%nat ∧
  ∃ w, w ∈ ex_rules.*1 ∧ wn_is_match glob_match w (plain_name "axb.example.com") = true ∧
    ∀ w', w' ∈ ex_rules.*1 → wn_is_match glob_match w' (plain_name "axb.example.com") = true →
      rank (plain_name "axb.example.com") w ≤ rank (plain_name "axb.example.com") w'.
Proof.
  assert (Hf : dm_find fnv64 glob_match (dm_from_iter fnv64 ex_rules) (plain_name "axb.example.com")
    = Some 2%nat) by (vm_compute; reflexivity).
  split; [exact Hf|].
  assert (Hm := find_most_specific glob_match fnv64 ex_rules (plain_name "axb.example.com")).
  rewrite Hf in Hm. destruct Hm as (w & Hw & _ & Hmat & Hmin);
    [vm_compute; reflexivity|done|vm_compute; reflexivity|vm_compute; reflexivity| |
     |exists w; split; [exact Hw|split; [exact Hmat|exact Hmin]]].
  - repeat constructor.
  - apply (bool_decide_unpack _). vm_compute. exact I.
Defined.

Definition ex_ops : list (dm_op PlainName nat) :=
  inserts ex_rules ++ [OpRemove (WFull (plain_name "www.example.com"))].

Lemma dm_refines_spec_witness :
  dm_find fnv64 glob_match (dm_run fnv64 dm_empty ex_ops).1 (plain_name "www.example.com") =
  sm_find glob_match (sm_run sm_empty ex_ops).1 (plain_name "www.example.com").
Proof.
  destruct (dm_refines_spec glob_match fnv64 ex_ops (plain_name "www.example.com")
    (WDefault (plain_name "example.com"))) as (_ & Hf & _); [|exact Hf].
  apply (bool_decide_unpack _). vm_compute. exact I.
Defined.
