(* ===== verification/Trie.v ===== *)
(** * Tries ([collections.rs], [mod trie]; [dns_rule.rs])

    A map whose keys are lists, one node for each prefix in the order the key is
    read: from its end, as [TrieKey] is popped. The trie refines the finite map
    from keys to values; its length is the number of keys and its degree the
    length of the longest. *)

From S2P Require Import Prelude Names.

Section Trie.
Context {K : Type} `{EqDecision K}.

(** ** Hash maps: their entries, in some order *)
Section HashMap.
Context {A : Type}.
Implicit Types m : list (K * A).

Fixpoint hm_get (k : K) m : option A :=
  match m with
  | [] => None
  | (k', a) :: m => if decide (k' = k) then Some a else hm_get k m
  end.

(** [entry(k).or_default()] and a change of what is there. *)
Fixpoint hm_entry {B} (f : A → A * B) (default : A) (k : K) m : list (K * A) * B :=
  match m with
  | [] => let '(a, b) := f default in ([(k, a)], b)
  | (k', a) :: m =>
      if decide (k' = k) then let '(a, b) := f a in ((k', a) :: m, b)
      else let '(m, b) := hm_entry f default k m in ((k', a) :: m, b)
  end.

(** [get_mut(k)] and a change of what is there. *)
Fixpoint hm_modify (f : A → A) (k : K) m : list (K * A) :=
  match m with
  | [] => []
  | (k', a) :: m => if decide (k' = k) then (k', f a) :: m else (k', a) :: hm_modify f k m
  end.

Lemma hm_entry_get {B} (f : A → A * B) d k m :
  (hm_entry f d k m).2 = (f (opt_unwrap_or d (hm_get k m))).2 ∧
  ∀ k', hm_get k' (hm_entry f d k m).1 = if decide (k = k') then Some (f (opt_unwrap_or d (hm_get k m))).1 else hm_get k' m.
Proof.
  induction m as [|[k0 a] m [IH1 IH2]]; cbn [hm_entry hm_get].
  - cbn [opt_unwrap_or]. destruct (f d) as [a b]. done.
  - destruct (decide (k0 = k)) as [->|Hk]; cbn [opt_unwrap_or].
    + destruct (f a) as [a' b]. cbn. split; [done|]. intros k'. by case_decide.
    + destruct (hm_entry f d k m) as [m' b]. cbn in *. split; [done|]. intros k'. rewrite IH2. repeat case_decide; congruence.
Qed.

Lemma hm_modify_get f k m k' : hm_get k' (hm_modify f k m) = if decide (k = k') then f <$> hm_get k m else hm_get k' m.
Proof.
  induction m as [|[k0 a] m IH]; cbn [hm_modify hm_get]; [by case_decide|].
  destruct (decide (k0 = k)) as [->|]; cbn [hm_get]; [by case_decide|]. rewrite IH. repeat case_decide; congruence.
Qed.

(** A sum over the entries changes by what the entry changes. *)
Lemma hm_entry_sum {B} (f : A → A * B) d k m (g : A → nat) :
  g d = 0%nat →
  (sum_list_with (fun x => g x.2) (hm_entry f d k m).1 + g (opt_unwrap_or d (hm_get k m)) =
   sum_list_with (fun x => g x.2) m + g (f (opt_unwrap_or d (hm_get k m))).1)%nat.
Proof.
  intros Hd. induction m as [|[k0 a] m IH]; cbn [hm_entry hm_get].
  - cbn [opt_unwrap_or]. destruct (f d). cbn. lia.
  - destruct (decide (k0 = k)); cbn [opt_unwrap_or].
    + destruct (f a). cbn. lia.
    + destruct (hm_entry f d k m). cbn in *. lia.
Qed.

(** A change that makes no entry smaller. *)
Lemma hm_entry_max {B} (f : A → A * B) d k m (g : A → nat) :
  (g (opt_unwrap_or d (hm_get k m)) ≤ g (f (opt_unwrap_or d (hm_get k m))).1)%nat →
  max_list_with (fun x => g x.2) (hm_entry f d k m).1 =
  Nat.max (max_list_with (fun x => g x.2) m) (g (f (opt_unwrap_or d (hm_get k m))).1).
Proof.
  induction m as [|[k0 a] m IH]; cbn [hm_entry hm_get].
  - cbn [opt_unwrap_or]. destruct (f d). cbn. lia.
  - destruct (decide (k0 = k)); cbn [opt_unwrap_or]; intros Hle.
    + destruct (f a). cbn in *. lia.
    + specialize (IH Hle). destruct (hm_entry f d k m). cbn in *. lia.
Qed.
End HashMap.

Context {V : Type}.

(** ** Nodes *)
Inductive TrieNode := mkTrieNode (value : option V) (children : list (K * TrieNode)).
Definition trie_value (n : TrieNode) : option V := let '(mkTrieNode v _) := n in v.
Definition trie_children (n : TrieNode) : list (K * TrieNode) := let '(mkTrieNode _ c) := n in c.
Definition trie_empty : TrieNode := mkTrieNode None [].

(** The keys, in the order in which they are popped. *)
Fixpoint node_insert (popped : list K) (v : V) (n : TrieNode) : TrieNode * option V :=
  match popped with
  | [] => (mkTrieNode (Some v) (trie_children n), trie_value n)
  | key :: popped =>
      let '(children, old) := hm_entry (node_insert popped v) trie_empty key (trie_children n) in
      (mkTrieNode (trie_value n) children, old)
  end.

Fixpoint get_node (popped : list K) (n : TrieNode) : option TrieNode :=
  match popped with
  | [] => Some n
  | key :: popped => hm_get key (trie_children n) ≫= get_node popped
  end.
Definition trie_node_get (popped : list K) (n : TrieNode) : option V := get_node popped n ≫= trie_value.

(** [get_node_mut], and a change of the value. *)
Fixpoint node_modify (f : V → V) (popped : list K) (n : TrieNode) : TrieNode :=
  match popped with
  | [] => mkTrieNode (f <$> trie_value n) (trie_children n)
  | key :: popped => mkTrieNode (trie_value n) (hm_modify (node_modify f popped) key (trie_children n))
  end.

Fixpoint node_degree (n : TrieNode) : nat :=
  let '(mkTrieNode _ children) := n in S (max_list_with (fun x => node_degree x.2) children).
Fixpoint node_len (n : TrieNode) : nat :=
  let '(mkTrieNode value children) := n in
  ((if is_some value then 1 else 0) + sum_list_with (fun x => node_len x.2) children)%nat.

(** ** Tries; a key of no parts is not kept, and the value comes back *)
Abbreviation TrieMap := (list (K * TrieNode)).
Definition trie_insert (key : list K) (v : V) (t : TrieMap) : TrieMap * option V :=
  match rev key with
  | [] => (t, Some v)
  | k :: popped => hm_entry (node_insert popped v) trie_empty k t
  end.
Definition trie_get (key : list K) (t : TrieMap) : option V :=
  match rev key with
  | [] => None
  | k :: popped => hm_get k t ≫= trie_node_get popped
  end.
Definition trie_modify (f : V → V) (key : list K) (t : TrieMap) : TrieMap :=
  match rev key with
  | [] => t
  | k :: popped => hm_modify (node_modify f popped) k t
  end.
Definition trie_contains (key : list K) (t : TrieMap) : bool := is_some (trie_get key t).
Definition trie_degree (t : TrieMap) : nat := max_list_with (fun x => node_degree x.2) t.
Definition trie_len (t : TrieMap) : nat := sum_list_with (fun x => node_len x.2) t.

(** ** Correctness *)
Lemma trie_node_get_empty popped : trie_node_get popped trie_empty = None.
Proof. by destruct popped. Qed.

Lemma trie_node_get_cons k popped n : trie_node_get (k :: popped) n = hm_get k (trie_children n) ≫= trie_node_get popped.
Proof. unfold trie_node_get. cbn. by destruct (hm_get _ _). Qed.

Lemma child_get k popped (children : list (K * TrieNode)) :
  trie_node_get popped (opt_unwrap_or trie_empty (hm_get k children)) = hm_get k children ≫= trie_node_get popped.
Proof. destruct (hm_get k children); cbn; [done|apply trie_node_get_empty]. Qed.

Lemma node_insert_get popped v n :
  (node_insert popped v n).2 = trie_node_get popped n ∧
  ∀ q, trie_node_get q (node_insert popped v n).1 = if decide (popped = q) then Some v else trie_node_get q n.
Proof.
  revert n. induction popped as [|k popped IH]; intros n.
  - split; [done|]. intros [|k q]; [done|]. rewrite decide_False by done. done.
  - cbn [node_insert]. pose proof (hm_entry_get (node_insert popped v) trie_empty k (trie_children n)) as [H1 H2].
    destruct (hm_entry _ _ k _) as [children old]. cbn [fst snd] in *. destruct (IH (opt_unwrap_or trie_empty (hm_get k (trie_children n)))) as [I1 I2].
    split; [by rewrite H1, I1, trie_node_get_cons, child_get|]. intros [|k' q]; [done|]. rewrite !trie_node_get_cons. cbn [trie_children]. rewrite H2.
    destruct (decide (k = k')) as [<-|]; [|by rewrite decide_False by congruence]. cbn. rewrite I2, child_get. repeat case_decide; congruence.
Qed.

Lemma node_modify_get f popped n q : trie_node_get q (node_modify f popped n) = if decide (popped = q) then f <$> trie_node_get q n else trie_node_get q n.
Proof.
  revert n q. induction popped as [|k popped IH]; intros n [|k' q]; try done.
  cbn [node_modify]. rewrite !trie_node_get_cons. cbn [trie_children]. rewrite hm_modify_get.
  destruct (decide (k = k')) as [<-|]; [|by rewrite decide_False by congruence].
  destruct (hm_get k (trie_children n)); cbn; [rewrite IH|]; repeat case_decide; congruence.
Qed.

Lemma node_insert_len popped v n :
  node_len (node_insert popped v n).1 = (node_len n + if is_some (trie_node_get popped n) then 0 else 1)%nat.
Proof.
  revert n. induction popped as [|k popped IH]; intros [value children]; cbn [node_insert trie_children trie_value].
  - unfold trie_node_get. cbn. destruct value; cbn; lia.
  - rewrite trie_node_get_cons. cbn [trie_children].
    pose proof (hm_entry_sum (node_insert popped v) trie_empty k children node_len eq_refl) as Hs.
    rewrite IH, child_get in Hs. destruct (hm_entry _ _ k _). cbn in *. lia.
Qed.

Lemma node_insert_degree popped v n : node_degree (node_insert popped v n).1 = Nat.max (node_degree n) (S (length popped)).
Proof.
  revert n. induction popped as [|k popped IH]; intros [value children]; cbn [node_insert trie_children trie_value].
  - cbn. lia.
  - pose proof (hm_entry_max (node_insert popped v) trie_empty k children node_degree) as Hm. rewrite IH in Hm.
    specialize (Hm ltac:(lia)).
    assert (Hc : (node_degree (opt_unwrap_or trie_empty (hm_get k children)) ≤ Nat.max 1 (max_list_with (fun x => node_degree x.2) children))%nat).
    { clear. induction children as [|[k0 c] children IH]; cbn in *; [lia|]. destruct (decide (k0 = k)); cbn; lia. }
    destruct (hm_entry _ _ k _). cbn in *. lia.
Qed.

(** *** The finite map of a trie *)
Context `{Countable K}.

(** What the trie is for: a finite map from the keys that have a part. *)
Definition represents (t : TrieMap) (m : gmap (list K) V) : Prop :=
  (∀ key, trie_get key t = m !! key) ∧ m !! [] = None ∧
  trie_len t = size m ∧ ∀ n, (trie_degree t ≤ n)%nat ↔ map_Forall (fun key _ => (length key ≤ n)%nat) m.

Lemma represents_empty : represents [] ∅.
Proof.
  split; [|split; [done|split; [by rewrite map_size_empty|]]].
  - intros key. unfold trie_get. by destruct (rev key).
  - intros n. cbn. split; [intros _; apply map_Forall_empty|lia].
Qed.

Lemma trie_insert_represents key v t m :
  represents t m → key ≠ [] →
  (trie_insert key v t).2 = m !! key ∧ represents (trie_insert key v t).1 (<[key:=v]> m).
Proof.
  intros (Hg & He & Hl & Hd) Hne. unfold trie_insert. destruct (rev key) as [|k popped] eqn:Er.
  { by apply (f_equal (@rev K)) in Er; rewrite rev_involutive in Er. }
  destruct (hm_entry_get (node_insert popped v) trie_empty k t) as [H1 H2].
  destruct (node_insert_get popped v (opt_unwrap_or trie_empty (hm_get k t))) as [I1 I2].
  assert (Hold : hm_get k t ≫= trie_node_get popped = m !! key) by (rewrite <- Hg; unfold trie_get; by rewrite Er).
  split; [by rewrite H1, I1, child_get|]. split; [|split; [by rewrite lookup_insert_ne|split]].
  - intros q. unfold trie_get. destruct (rev q) as [|k' popped'] eqn:Eq.
    + assert (q = []) as -> by (by apply (f_equal (@rev K)) in Eq; rewrite rev_involutive in Eq).
      by rewrite lookup_insert_ne.
    + rewrite H2. destruct (decide (k = k')) as [<-|Hk]; cbn [mbind option_bind].
      * rewrite I2, child_get. destruct (decide (popped = popped')) as [<-|Hp].
        -- assert (key = q) as <- by (apply (f_equal (@rev K)) in Er, Eq; rewrite rev_involutive in *; congruence).
           by rewrite lookup_insert_eq.
        -- rewrite lookup_insert_ne by congruence. rewrite <- Hg. unfold trie_get. by rewrite Eq.
      * rewrite lookup_insert_ne by congruence. rewrite <- Hg. unfold trie_get. by rewrite Eq.
  - pose proof (hm_entry_sum (node_insert popped v) trie_empty k t node_len eq_refl) as Hs.
    rewrite node_insert_len, child_get, Hold in Hs. unfold trie_len in *. rewrite map_size_insert. destruct (m !! key); cbn in *; lia.
  - intros n. pose proof (hm_entry_max (node_insert popped v) trie_empty k t node_degree) as Hm. rewrite node_insert_degree in Hm.
    specialize (Hm ltac:(lia)). unfold trie_degree in *. rewrite Hm.
    assert (Hlen : length key = S (length popped)) by (by rewrite <- length_rev, Er).
    assert (Hc : (node_degree (opt_unwrap_or trie_empty (hm_get k t)) ≤ Nat.max 1 (max_list_with (fun x => node_degree x.2) t))%nat).
    { clear. induction t as [|[k0 c] t IH]; cbn in *; [lia|]. destruct (decide (k0 = k)); cbn; lia. }
    split.
    + intros Hle q w. rewrite lookup_insert_Some. intros [[<- <-]|[_ Hq]]; [lia|]. apply (proj1 (Hd n) ltac:(lia) q w Hq).
    + intros Hall. assert (length key ≤ n)%nat by (apply (Hall key v); by rewrite lookup_insert_eq).
      assert (max_list_with (fun x => node_degree x.2) t ≤ n)%nat; [|lia]. apply Hd. intros q w Hq.
      destruct (decide (key = q)) as [<-|]; [done|]. apply (Hall q w). by rewrite lookup_insert_ne.
Qed.

Lemma trie_modify_represents f key t m :
  represents t m → ∀ q, trie_get q (trie_modify f key t) = alter f key m !! q.
Proof.
  intros (Hg & He & _) q. unfold trie_modify. destruct (rev key) as [|k popped] eqn:Er.
  - assert (key = []) as -> by (by apply (f_equal (@rev K)) in Er; rewrite rev_involutive in Er).
    rewrite Hg. destruct (decide ([] = q)) as [<-|]; [by rewrite lookup_alter_eq, He|by rewrite lookup_alter_ne].
  - destruct (decide (key = q)) as [<-|Hq].
    + rewrite lookup_alter_eq, <- Hg. unfold trie_get. rewrite Er, hm_modify_get, decide_True by done.
      destruct (hm_get k t); cbn; [|done]. by rewrite node_modify_get, decide_True.
    + rewrite lookup_alter_ne, <- Hg by done. unfold trie_get. destruct (rev q) as [|k' popped'] eqn:Eq; [done|].
      rewrite hm_modify_get. destruct (decide (k = k')) as [<-|]; [|done]. destruct (hm_get k t); cbn; [|done].
      rewrite node_modify_get, decide_False; [done|]. intros <-. apply Hq. apply (f_equal (@rev K)) in Er, Eq. rewrite rev_involutive in *. congruence.
Qed.

(** Insertions one after the other, and what each gives back. *)
Fixpoint trie_inserts (l : list (list K * V)) (t : TrieMap) : TrieMap * list (option V) :=
  match l with
  | [] => (t, [])
  | (key, v) :: l => let '(t, old) := trie_insert key v t in let '(t, olds) := trie_inserts l t in (t, old :: olds)
  end.
Fixpoint map_inserts (l : list (list K * V)) (m : gmap (list K) V) : gmap (list K) V * list (option V) :=
  match l with
  | [] => (m, [])
  | (key, v) :: l =>
      let '(m', old) := if decide (key = []) then (m, Some v) else (<[key:=v]> m, m !! key) in
      let '(m', olds) := map_inserts l m' in (m', old :: olds)
  end.

(** The trie refines the finite map: any insertions give back what those into the
    map do, and after them every lookup is the map's, the length is the number of
    keys, and the degree is the length of the longest. Keys without a part are
    not kept. *)
Theorem trie_refines_map l :
  (trie_inserts l []).2 = (map_inserts l ∅).2 ∧ represents (trie_inserts l []).1 (map_inserts l ∅).1.
Proof.
  assert (Hgo : ∀ t m, represents t m →
    (trie_inserts l t).2 = (map_inserts l m).2 ∧ represents (trie_inserts l t).1 (map_inserts l m).1); [|apply Hgo, represents_empty].
  induction l as [|[key v] l IH]; intros t m Hr; [done|]. cbn [trie_inserts map_inserts]. destruct (decide (key = [])) as [->|Hne].
  - cbn. destruct (IH t m Hr) as [E1 E2]. destruct (trie_inserts l t), (map_inserts l m). cbn in *. by rewrite E1.
  - destruct (trie_insert_represents key v t m Hr Hne) as [E Hr']. destruct (trie_insert key v t) as [t' old]. cbn in E, Hr'. subst old.
    destruct (IH t' _ Hr') as [E1 E2]. destruct (trie_inserts l t'), (map_inserts l _). cbn in *. by rewrite E1.
Qed.
End Trie.
Arguments TrieNode : clear implicits.

(** ** Sets *)
Section TrieSet.
Context {K : Type} `{EqDecision K}.
Abbreviation TrieSet := (list (K * TrieNode K ())).
Definition trie_set_insert (key : list K) (s : TrieSet) : TrieSet * bool :=
  let '(s, old) := trie_insert key () s in (s, negb (is_some old)).

Lemma trie_set_insert_correct key (s : TrieSet) :
  key ≠ [] →
  (trie_set_insert key s).2 = negb (trie_contains key s) ∧
  ∀ q, trie_contains q (trie_set_insert key s).1 = bool_decide (key = q) || trie_contains q s.
Proof.
  intros Hne. unfold trie_set_insert, trie_contains, trie_insert, trie_get. destruct (rev key) as [|k popped] eqn:Er.
  { by apply (f_equal (@rev K)) in Er; rewrite rev_involutive in Er. }
  destruct (hm_entry_get (node_insert popped ()) trie_empty k s) as [H1 H2].
  destruct (node_insert_get popped () (opt_unwrap_or trie_empty (hm_get k s))) as [I1 I2].
  destruct (hm_entry _ _ k s) as [s' old]. cbn [fst snd] in *. split; [by rewrite H1, I1, child_get|].
  intros q. destruct (rev q) as [|k' popped'] eqn:Eq.
  - rewrite bool_decide_false; [done|]. intros <-. congruence.
  - rewrite H2. destruct (decide (k = k')) as [<-|Hk]; cbn [mbind option_bind].
    + rewrite I2, child_get. destruct (decide (popped = popped')) as [<-|Hp].
      * rewrite bool_decide_true; [done|]. apply (f_equal (@rev K)) in Er, Eq. rewrite rev_involutive in *. congruence.
      * rewrite bool_decide_false; [done|]. intros <-. congruence.
    + rewrite bool_decide_false; [done|]. intros <-. congruence.
Qed.
End TrieSet.

(** ** The key of a name: it and its parents up to the root
    ([From<Name> for TrieKey<Name>]) *)
Fixpoint key_of_labels (labels : list label) : list (list label) :=
  match labels with
  | [] => [[]]
  | l :: rest => (l :: rest) :: key_of_labels rest
  end.

(** Different names have different keys. *)
Lemma key_of_labels_inj a b : key_of_labels a = key_of_labels b → a = b.
Proof. destruct a, b; cbn; congruence. Qed.

Example trie_of_names :
  let key (s : list Z) := key_of_labels ((fun c => [c]) <$> s) in
  let '(t, olds) := trie_inserts [(key [], 1); (key [], 2); (key [5; 6], 3); (key [5; 6], 4); ([], 9)] [] in
  olds = [None; Some 1; None; Some 3; Some 9] ∧ trie_get (key [5; 6]) t = Some 4 ∧ trie_get (key [6]) t = None ∧
  trie_len t = 2%nat ∧ trie_degree t = 3%nat.
Proof. vm_compute. repeat split. Qed.
