(* ===== verification/Config.v ===== *)
(** * Configuration values ([config/])

    The rule and option types of the configuration, how options of a listener
    and a client rule combine ([ServerOpts::apply]), how repeated domain rules
    combine ([AddAssign]) and how a rule inherits from its parent domain's
    ([DomainRule::inherit]). *)

From S2P Require Import Prelude Names.

(** ** Addresses *)
Inductive IpAddr := V4 (a : Z) | V6 (a : Z).

#[global] Instance IpAddr_eq_dec : EqDecision IpAddr.
Proof. solve_decision. Defined.
#[global] Instance IpAddr_countable : Countable IpAddr.
Proof.
  apply (inj_countable' (fun i => match i with V4 a => inl a | V6 a => inr a end)
           (fun s => match s with inl a => V4 a | inr a => V6 a end)). by intros [].
Defined.

Definition is_ipv4 (i : IpAddr) : bool := match i with V4 _ => true | V6 _ => false end.
Definition is_ipv6 (i : IpAddr) : bool := negb (is_ipv4 i).

Record SocketAddr := mkSocket { sa_ip : IpAddr; sa_port : Z }.
#[global] Instance SocketAddr_eq_dec : EqDecision SocketAddr.
Proof. solve_decision. Defined.

(** ** Networks: the [ipnet] library's [IpNet]

    An address, its family and a prefix length; [network] and [broadcast] are
    the first and last address of the network. *)
Record IpNet := mkNet { net_addr : IpAddr; net_prefix_len : Z }.
#[global] Instance IpNet_eq_dec : EqDecision IpNet.
Proof. solve_decision. Defined.

Definition ip_bits (i : IpAddr) : Z := match i with V4 a | V6 a => a end.
Definition family_width (i : IpAddr) : Z := if is_ipv4 i then 32 else 128.

Class NetLib := {
  net_network : IpNet → Z;
  net_broadcast : IpNet → Z;
}.

(** A network holds its own address; its bounds are addresses of the family. *)
Class NetLaws `{NetLib} : Prop := {
  net_range n : 0 ≤ ip_bits (net_addr n) < 2 ^ family_width (net_addr n) →
    0 ≤ net_network n ≤ ip_bits (net_addr n) ∧
    ip_bits (net_addr n) ≤ net_broadcast n < 2 ^ family_width (net_addr n);
}.

(** [IpNet::contains] on an address and on a network. *)
Definition net_contains `{NetLib} (n : IpNet) (i : IpAddr) : bool :=
  Bool.eqb (is_ipv4 (net_addr n)) (is_ipv4 i) &&
  (net_network n <=? ip_bits i) && (ip_bits i <=? net_broadcast n).
Definition net_contains_net `{NetLib} (n m : IpNet) : bool :=
  Bool.eqb (is_ipv4 (net_addr n)) (is_ipv4 (net_addr m)) &&
  (net_network n <=? net_network m) && (net_broadcast m <=? net_broadcast n).

(** Masking computes the bounds. *)
Definition mask_net : NetLib := {|
  net_network n := let s := Z.max 0 (family_width (net_addr n) - Z.max 0 (net_prefix_len n)) in
    Z.shiftl (Z.shiftr (ip_bits (net_addr n)) s) s;
  net_broadcast n := let s := Z.max 0 (family_width (net_addr n) - Z.max 0 (net_prefix_len n)) in
    Z.shiftl (Z.shiftr (ip_bits (net_addr n)) s) s + (2 ^ s - 1);
|}.

Lemma mask_net_laws : @NetLaws mask_net.
Proof.
  split. intros n Hn. cbn.
  set (w := family_width (net_addr n)) in *. set (a := ip_bits (net_addr n)) in *.
  set (s := Z.max 0 _). assert (Hs : 0 ≤ s ≤ w) by (subst s w; unfold family_width; case_match; lia).
  rewrite Z.shiftl_mul_pow2, Z.shiftr_div_pow2 by lia.
  pose proof (Z.pow_pos_nonneg 2 s ltac:(lia) ltac:(lia)) as Hp.
  pose proof (Z.div_mod a (2 ^ s) ltac:(lia)) as Hd. pose proof (Z.mod_pos_bound a (2 ^ s) Hp) as Hm.
  assert (Hw : 2 ^ w = 2 ^ (w - s) * 2 ^ s) by (rewrite <- Z.pow_add_r by lia; f_equal; lia).
  assert (Hq : a / 2 ^ s < 2 ^ (w - s)) by (apply Z.div_lt_upper_bound; lia).
  assert (0 ≤ a / 2 ^ s) by (apply Z.div_pos; lia).
  rewrite Hw. generalize dependent (2 ^ (w - s)). generalize dependent (a mod 2 ^ s).
  generalize dependent (a / 2 ^ s). generalize dependent (2 ^ s). clear. intros p Hp q Hq r Ha Hr m Hm Hqm.
  split; nia.
Qed.

(** ** Speed checks ([config/speed_mode.rs]) *)
Inductive SpeedCheckMode :=
| SNone | SPing | STcp (port : Z) | STcpSyn (port : Z) | SHttp (port : Z) | SHttps (port : Z).
#[global] Instance SpeedCheckMode_eq_dec : EqDecision SpeedCheckMode.
Proof. solve_decision. Defined.

Inductive PingAddr :=
| PIcmp (i : IpAddr) | PTcp (s : SocketAddr) | PTcpSyn (s : SocketAddr)
| PHttp (s : SocketAddr) | PHttps (s : SocketAddr).
#[global] Instance PingAddr_eq_dec : EqDecision PingAddr.
Proof. solve_decision. Defined.

Definition mode_is_none (m : SpeedCheckMode) : bool :=
  match m with SNone => true | _ => false end.

Definition to_ping_addr (m : SpeedCheckMode) (i : IpAddr) : option PingAddr :=
  match m with
  | SNone => None
  | SPing => Some (PIcmp i)
  | STcp port => Some (PTcp (mkSocket i port))
  | STcpSyn port => Some (PTcpSyn (mkSocket i port))
  | SHttp port => Some (PHttp (mkSocket i port))
  | SHttps port => Some (PHttps (mkSocket i port))
  end.

Definition to_ping_addrs (m : SpeedCheckMode) (ips : list IpAddr) : list PingAddr :=
  omap (to_ping_addr m) ips.

Definition SpeedCheckModeList := list SpeedCheckMode.

Definition modes_push (l : SpeedCheckModeList) (m : SpeedCheckMode)
    : SpeedCheckModeList * option SpeedCheckMode :=
  if forallb (fun x => bool_decide (x ≠ m)) l then (l ++ [m], None) else (l, Some m).

Definition modes_from (l : list SpeedCheckMode) : SpeedCheckModeList :=
  fold_left (fun acc m => (modes_push acc m).1) l [].

Definition modes_default : SpeedCheckModeList := [SPing; SHttp 80; SHttps 443].

(** ** Response modes ([config/response_mode.rs]) *)
Inductive ResponseMode := FirstPing | FastestIp | FastestResponse.
#[global] Instance ResponseMode_eq_dec : EqDecision ResponseMode.
Proof. solve_decision. Defined.

(** ** Rule values ([config/mod.rs]) *)
Inductive AddressRuleValue :=
| ASOA | ASOAv4 | ASOAv6 | AIGN | AIGNv4 | AIGNv6
| AAddr (v4 : option (list Z)) (v6 : option (list Z)).
#[global] Instance AddressRuleValue_eq_dec : EqDecision AddressRuleValue.
Proof. solve_decision. Defined.

Inductive ConfigForIP (T : Type) :=
| ForAll (t : T) | ForV4 (t : T) | ForV6 (t : T) | ForNone | ForNoneV4 | ForNoneV6.
Arguments ForAll {T} _.
Arguments ForV4 {T} _.
Arguments ForV6 {T} _.
Arguments ForNone {T}.
Arguments ForNoneV4 {T}.
Arguments ForNoneV6 {T}.
#[global] Instance ConfigForIP_eq_dec {T} `{EqDecision T} : EqDecision (ConfigForIP T).
Proof. solve_decision. Defined.

Record NFTsetConfig := mkNft { nft_family : string; nft_table : string; nft_name : string }.
#[global] Instance NFTsetConfig_eq_dec : EqDecision NFTsetConfig.
Proof. solve_decision. Defined.

Definition KernelIpSet := string.

Inductive Ignorable (T : Type) := Ignore | Value (t : T).
Arguments Ignore {T}.
Arguments Value {T} _.
#[global] Instance Ignorable_eq_dec {T} `{EqDecision T} : EqDecision (Ignorable T).
Proof. solve_decision. Defined.

(** Record data of the DNS library. *)
Record SRV (Name : Type) := mkSRV {
  srv_priority : Z; srv_weight : Z; srv_port : Z; srv_target : Name }.
Record HTTPS (Name : Type) := mkHTTPS {
  https_priority : Z; https_target : Name; https_params : list (Z * list Z) }.
Definition TXT := list (list Z).
Record ClientSubnet := mkSubnet {
  subnet_addr : IpAddr; subnet_source_prefix : Z; subnet_scope_prefix : Z }.

Inductive HttpsRecordRule (Name : Type) :=
| HSOA | HIgnore | HFilter (no_ipv4_hint no_ipv6_hint : bool) | HRecordData (h : HTTPS Name).

#[global] Instance SRV_eq_dec {Name} `{EqDecision Name} : EqDecision (SRV Name).
Proof. solve_decision. Defined.
#[global] Instance HTTPS_eq_dec {Name} `{EqDecision Name} : EqDecision (HTTPS Name).
Proof. solve_decision. Defined.
#[global] Instance HttpsRecordRule_eq_dec {Name} `{EqDecision Name} : EqDecision (HttpsRecordRule Name).
Proof. solve_decision. Defined.
#[global] Instance ClientSubnet_eq_dec : EqDecision ClientSubnet.
Proof. solve_decision. Defined.

(** ** Clients ([config/client_rule.rs]) and listener options
    ([config/server_opts.rs]) *)
Record ServerOpts := mkOpts {
  so_ddr : option bool;
  so_local_addr : option SocketAddr;
  so_ipset : option (list (ConfigForIP KernelIpSet));
  so_nftset : option (list (ConfigForIP NFTsetConfig));
  so_group : option string;
  so_rule_group : option string;
  so_no_rule_addr : option bool;
  so_no_rule_nameserver : option bool;
  so_no_rule_ipset : option bool;
  so_no_speed_check : option bool;
  so_no_cache : option bool;
  so_no_rule_soa : option bool;
  so_no_dualstack_selection : option bool;
  so_force_aaaa_soa : option bool;
  so_force_https_soa : option bool;
  so_no_serve_expired : option bool;
  so_is_background : bool;
}.
#[global] Instance ServerOpts_eq_dec : EqDecision ServerOpts.
Proof. solve_decision. Defined.

Definition opts_default : ServerOpts :=
  mkOpts None None None None None None None None None None None None None None None None false.

Definition no_rule_addr (o : ServerOpts) : bool := opt_unwrap_or false (so_no_rule_addr o).
Definition no_rule_nameserver (o : ServerOpts) : bool := opt_unwrap_or false (so_no_rule_nameserver o).
Definition no_rule_ipset (o : ServerOpts) : bool := opt_unwrap_or false (so_no_rule_ipset o).
Definition no_speed_check (o : ServerOpts) : bool := opt_unwrap_or false (so_no_speed_check o).
Definition no_cache (o : ServerOpts) : bool := opt_unwrap_or false (so_no_cache o).
Definition no_rule_soa (o : ServerOpts) : bool := opt_unwrap_or false (so_no_rule_soa o).
Definition no_dualstack_selection (o : ServerOpts) : bool :=
  opt_unwrap_or false (so_no_dualstack_selection o).
Definition force_aaaa_soa (o : ServerOpts) : bool := opt_unwrap_or false (so_force_aaaa_soa o).
Definition force_https_soa (o : ServerOpts) : bool := opt_unwrap_or false (so_force_https_soa o).
Definition no_serve_expired (o : ServerOpts) : bool := opt_unwrap_or false (so_no_serve_expired o).

Definition opts_apply (self other : ServerOpts) : ServerOpts := {|
  so_ddr := opt_or (so_ddr self) (so_ddr other);
  so_local_addr := opt_or (so_local_addr self) (so_local_addr other);
  so_ipset := opt_or (so_ipset self) (so_ipset other);
  so_nftset := opt_or (so_nftset self) (so_nftset other);
  so_group := if is_none (so_group self) then so_group other else so_group self;
  so_rule_group := if is_none (so_rule_group self) then so_rule_group other else so_rule_group self;
  so_no_rule_addr :=
    if is_none (so_no_rule_addr self) then so_no_rule_addr other else so_no_rule_addr self;
  so_no_rule_nameserver :=
    if is_none (so_no_rule_nameserver self) then so_no_rule_nameserver other
    else so_no_rule_nameserver self;
  so_no_rule_ipset :=
    if is_none (so_no_rule_ipset self) then so_no_rule_ipset other else so_no_rule_ipset self;
  so_no_speed_check :=
    if is_none (so_no_speed_check self) then so_no_speed_check other else so_no_speed_check self;
  so_no_cache := if is_none (so_no_cache self) then so_no_cache other else so_no_cache self;
  so_no_rule_soa :=
    if is_none (so_no_rule_soa self) then so_no_rule_soa other else so_no_rule_soa self;
  so_no_dualstack_selection :=
    if is_none (so_no_dualstack_selection self) then so_no_dualstack_selection other
    else so_no_dualstack_selection self;
  so_force_aaaa_soa :=
    if is_none (so_force_aaaa_soa self) then so_force_aaaa_soa other else so_force_aaaa_soa self;
  so_force_https_soa :=
    if is_none (so_force_https_soa self) then so_force_https_soa other else so_force_https_soa self;
  so_no_serve_expired :=
    if is_none (so_no_serve_expired self) then so_no_serve_expired other
    else so_no_serve_expired self;
  so_is_background := so_is_background self;
|}.

Inductive Client := CMacAddr (mac : string) | CIpAddr (net : IpNet).

Record ClientRule := mkClientRule {
  cr_client : Client; cr_group : string; cr_options : ServerOpts }.

Definition match_ip `{NetLib} (r : ClientRule) (ip : IpAddr) : bool :=
  match cr_client r with CMacAddr _ => false | CIpAddr net => net_contains net ip end.
Definition match_net `{NetLib} (r : ClientRule) (n : IpNet) : bool :=
  match cr_client r with CMacAddr _ => false | CIpAddr net => net_contains_net net n end.

(** [eq_ignore_ascii_case]. *)
Definition eq_ignore_ascii_case (a b : string) : bool :=
  bool_decide (lower (bytes_of_string a) = lower (bytes_of_string b)).

Definition match_mac (r : ClientRule) (mac : string) : bool :=
  match cr_client r with CMacAddr m => eq_ignore_ascii_case m mac | CIpAddr _ => false end.
