(* ===== verification/Netlink.v ===== *)
(** * Messages to the kernel's address sets ([infra/kernel_ipset.rs],
      [infra/kernel_nftset.rs])

    The encoding of an added address for IPSet and nftables, the reading of
    replies, and the exchanges of one update. The socket is an argument: what the
    kernel answers to a packet. *)

From S2P Require Import Prelude Bytes Names Config.

Section Netlink.
(** The byte order of the machine. *)
Variable little : bool.

(** ** Attributes *)

(** Lengths are padded to four bytes. *)
Definition aligned (n : nat) : nat := ((n + 3) / 4 * 4)%nat.

Definition attribute (kind : Z) (value : list Z) : list Z :=
  let length_ := (4 + length value)%nat in
  ne_bytes little 2 (as_u16 (Z.of_nat length_)) ++ ne_bytes little 2 kind ++ value
  ++ replicate (aligned length_ - length_) 0.

Definition octets (ip : IpAddr) : list Z :=
  match ip with V4 a => be_bytes 4 a | V6 a => be_bytes 16 a end.

Definition nul_terminated (name : string) : list Z := bytes_of_string name ++ [0].

Definition bad_name (limit : nat) (name : string) : bool :=
  bool_decide (name = "") || (limit <=? length (bytes_of_string name))%nat
  || existsb (fun b => b =? 0) (bytes_of_string name).

Inductive IoError := InvalidInput (what : string) | Other (what : string) | OsError (code : Z).

(** ** IPSet *)
Definition ipset_request (name : string) (ip : IpAddr) (timeout : Z) : result (list Z) IoError :=
  if bad_name 32 name then Err (InvalidInput "invalid IPSet name")
  else
    let addr := match ip with
                | V4 _ => attribute 0x4001 (octets ip)
                | V6 _ => attribute 0x4002 (octets ip)
                end in
    let data := attribute 0x8001 addr
                ++ (if 0 <? timeout then attribute 0x4006 (be_bytes 4 timeout) else []) in
    let rest := ne_bytes little 2 (Z.lor (Z.shiftl 6 8) 9)
                ++ ne_bytes little 2 (Z.lor (Z.lor 1 4) 0x100)
                ++ ne_bytes little 4 1 ++ replicate 4 0
                ++ [if is_ipv4 ip then 2 else 10; 0; 0; 6]
                ++ attribute 1 [6] ++ attribute 2 (nul_terminated name)
                ++ attribute 0x8007 data in
    Ok (ne_bytes little 4 (as_u32 (Z.of_nat (4 + length rest))) ++ rest).

(** ** nftables *)
Definition message (kind flags sequence family : Z) (attrs : list Z) : list Z :=
  ne_bytes little 4 (20 + as_u32 (Z.of_nat (length attrs))) ++ ne_bytes little 2 kind
  ++ ne_bytes little 2 flags ++ ne_bytes little 4 sequence ++ ne_bytes little 4 0
  ++ [family; 0; 0; 0] ++ attrs.

Definition family_of (name : string) : result Z IoError :=
  if bool_decide (name = "inet") then Ok 1
  else if bool_decide (name = "ip") then Ok 2
  else if bool_decide (name = "arp") then Ok 3
  else if bool_decide (name = "netdev") then Ok 5
  else if bool_decide (name = "bridge") then Ok 7
  else if bool_decide (name = "ip6") then Ok 10
  else if bool_decide (name = "decnet") then Ok 12
  else Err (InvalidInput "unknown nftables family").

Definition set_attributes (table set : string) : result (list Z) IoError :=
  if bad_name 256 table || bad_name 256 set then Err (InvalidInput "invalid nftables table/set name")
  else Ok (attribute 1 (nul_terminated table) ++ attribute 2 (nul_terminated set)).

(** The loop of [set_flags] over the attributes that are left. *)
Fixpoint flags_loop (fuel : nat) (attrs : list Z) : option Z :=
  match fuel with
  | O => None
  | S fuel =>
      if (length attrs <? 4)%nat then None
      else
        let length_ := Z.to_nat (ne_value little (take 2 attrs)) in
        let kind := Z.land (ne_value little (take 2 (drop 2 attrs))) 0x3fff in
        if ((length_ <? 4) || (length attrs <? length_))%nat then None
        else if (kind =? 3) && (length_ =? 8)%nat then Some (be_value (take 4 (drop 4 attrs)))
        else flags_loop fuel (drop (aligned length_) attrs)
  end.

Definition set_flags (reply : list Z) : result Z IoError :=
  if (length reply <? 4)%nat then Err (Other "missing nftables set metadata")
  else match flags_loop (S (length reply)) (drop 4 reply) with
       | Some f => Ok f
       | None => Err (Other "nftables response omits set flags")
       end.

(** Adding one to the bytes of an address, from the last one: the bytes and
    whether a carry is left. *)
Fixpoint carry_rev (l : list Z) : list Z * bool :=
  match l with
  | [] => ([], true)
  | b :: l =>
      let next := as_u8 (b + 1) in
      if b + 1 <=? u8_max then (next :: l, false)
      else let '(l, c) := carry_rev l in (next :: l, c)
  end.
Definition next_address (address : list Z) : list Z * bool :=
  let '(l, c) := carry_rev (reverse address) in (reverse l, c).

Definition elements (ip : IpAddr) (flags timeout : Z) : result (list Z) IoError :=
  let address := octets ip in
  let element := attribute 0x8001 (attribute 1 address)
    ++ (if negb (Z.land flags 16 =? 0) && (0 <? timeout)
        then attribute 4 (be_bytes 8 (timeout * 1000)) else []) in
  let list_ := attribute 0x8001 element in
  if negb (Z.land flags 4 =? 0) then
    let '(end_, carried) := next_address address in
    if carried then Err (InvalidInput "nftables interval endpoint overflows")
    else Ok (attribute 0x8003
               (list_ ++ attribute 0x8001 (attribute 3 (be_bytes 4 1) ++ attribute 0x8001 (attribute 1 end_))))
  else Ok (attribute 0x8003 list_).

(** [bytes[18..20].copy_from_slice(&10u16.to_be_bytes())] *)
Definition with_subsystem (m : list Z) : list Z := take 18 m ++ be_bytes 2 10 ++ drop 20 m.

Definition batch (command family : Z) (attrs : list Z) : list Z :=
  with_subsystem (message 16 1 1 0 [])
  ++ message (Z.lor (Z.shiftl 10 8) command) (Z.lor (Z.lor 1 4) 0x400) 2 family attrs
  ++ with_subsystem (message 17 1 3 0 []).

(** *** Replies *)

(** What one received buffer does to an exchange: it goes on with more messages,
    or ends. *)
Inductive Scan :=
| ScanMore (messages : list (list Z))
| ScanDone (r : result (list (list Z)) IoError).

Definition i32_of (z : Z) : Z := if z <? 2147483648 then z else z - 4294967296.

Fixpoint scan_loop (fuel : nat) (sequence : Z) (messages : list (list Z)) (remaining : list Z) : Scan :=
  match fuel with
  | O => ScanMore messages
  | S fuel =>
      if (length remaining <? 16)%nat then ScanMore messages
      else
        let length_ := Z.to_nat (ne_value little (take 4 remaining)) in
        if ((length_ <? 16) || (length remaining <? length_))%nat
        then ScanDone (Err (Other "invalid nftables netlink response"))
        else
          let kind := ne_value little (take 2 (drop 4 remaining)) in
          let seq := ne_value little (take 4 (drop 8 remaining)) in
          let payload := take (length_ - 16) (drop 16 remaining) in
          let rest := drop (aligned length_) remaining in
          if seq =? sequence then
            if kind =? 2 then
              if (length payload <? 4)%nat then ScanDone (Err (Other "missing netlink status"))
              else
                let status := i32_of (ne_value little (take 4 payload)) in
                ScanDone (if status =? 0 then Ok messages else Err (OsError (- status)))
            else scan_loop fuel sequence (messages ++ [payload]) rest
          else scan_loop fuel sequence messages rest
  end.
Definition scan (sequence : Z) (messages : list (list Z)) (received : list Z) : Scan :=
  scan_loop (length received) sequence messages received.

(** The buffers the kernel sends, in order; they run out when the second of the
    timeout is over. *)
Fixpoint exchange (sequence : Z) (messages : list (list Z)) (received : list (list Z))
    : result (list (list Z)) IoError :=
  match received with
  | [] => Err (Other "nftables acknowledgement timed out")
  | r :: received =>
      match scan sequence messages r with
      | ScanDone x => x
      | ScanMore messages => exchange sequence messages received
      end
  end.

(** [kernel_nftset::add]: [kernel] is what it answers, with its state. *)
Definition ENOENT : Z := 2.

Section Add.
Context {K : Type} (kernel : K → list Z → K * list (list Z)).

Definition exchanged (k : K) (packet : list Z) (sequence : Z) : K * result (list (list Z)) IoError :=
  let '(k, received) := kernel k packet in (k, exchange sequence [] received).

Definition nft_add (k : K) (family_name table set : string) (ip : IpAddr) (timeout : Z)
    : K * result unit IoError :=
  match family_of family_name, set_attributes table set with
  | Err e, _ | Ok _, Err e => (k, Err e)
  | Ok family, Ok attrs =>
      let '(k, replies) :=
        exchanged k (message (Z.lor (Z.shiftl 10 8) 10) (Z.lor 1 4) 1 family attrs) 1 in
      match replies with
      | Err e => (k, Err e)
      | Ok replies =>
          match match head replies with
                | None => Err (Other "missing nftables set response")
                | Some reply => set_flags reply
                end with
          | Err e => (k, Err e)
          | Ok flags =>
              match elements ip flags timeout with
              | Err e => (k, Err e)
              | Ok added =>
                  let '(k, deleted) :=
                    if (0 <? timeout) && negb (Z.land flags 16 =? 0)
                    then match elements ip flags 0 with
                         | Err e => (k, Err e)
                         | Ok gone =>
                             let '(k, r) := exchanged k (batch 14 family (attrs ++ gone)) 2 in
                             (k, match r with
                                 | Err (OsError code) => if code =? ENOENT then Ok tt else Err (OsError code)
                                 | Err e => Err e
                                 | Ok _ => Ok tt
                                 end)
                         end
                    else (k, Ok tt) in
                  match deleted with
                  | Err e => (k, Err e)
                  | Ok _ =>
                      let '(k, r) := exchanged k (batch 12 family (attrs ++ added)) 2 in
                      (k, result_map (fun _ => tt) r)
                  end
              end
          end
      end
  end.
End Add.

(** ** Reading attributes

    How a receiver takes a list of attributes apart: the reference the encoders
    are checked against. *)
Fixpoint parse_attrs_fuel (fuel : nat) (l : list Z) : option (list (Z * list Z)) :=
  match fuel, l with
  | _, [] => Some []
  | O, _ => None
  | S fuel, _ =>
      let length_ := Z.to_nat (ne_value little (take 2 l)) in
      if ((length_ <? 4) || (length l <? length_))%nat then None
      else rest ← parse_attrs_fuel fuel (drop (aligned length_) l);
           Some ((ne_value little (take 2 (drop 2 l)), take (length_ - 4) (drop 4 l)) :: rest)
  end.
Definition parse_attrs (l : list Z) : option (list (Z * list Z)) := parse_attrs_fuel (length l) l.

Definition attributes (l : list (Z * list Z)) : list Z := l ≫= (fun x => attribute x.1 x.2).

(** An attribute that fits the 16-bit fields. *)
Definition attr_ok (x : Z * list Z) : Prop := in_u16 x.1 ∧ 4 + Z.of_nat (length x.2) ≤ u16_max.

Lemma aligned_ge n : (n ≤ aligned n)%nat.
Proof. unfold aligned. pose proof (Nat.div_mod_eq (n + 3) 4). pose proof (Nat.mod_upper_bound (n + 3) 4). lia. Qed.

Lemma aligned_le n : (aligned n ≤ n + 3)%nat.
Proof. unfold aligned. pose proof (Nat.div_mod_eq (n + 3) 4). lia. Qed.

Lemma length_attribute kind value : length (attribute kind value) = aligned (4 + length value).
Proof.
  unfold attribute. rewrite !length_app, !length_ne_bytes, length_replicate.
  pose proof (aligned_ge (4 + length value)). lia.
Qed.

(** The fields of an attribute at the front of a buffer. *)
Lemma attribute_fields kind value rest :
  attr_ok (kind, value) →
  let l := attribute kind value ++ rest in
  ne_value little (take 2 l) = Z.of_nat (4 + length value) ∧
  ne_value little (take 2 (drop 2 l)) = kind ∧
  take (length value) (drop 4 l) = value ∧
  drop (aligned (4 + length value)) l = rest ∧
  (4 + length value ≤ length l)%nat.
Proof.
  intros [Hk Hl] l. cbn [fst snd] in *. unfold in_u16, u16_max in *.
  assert (Hal := aligned_ge (4 + length value)).
  assert (Hlen : length l = (aligned (4 + length value) + length rest)%nat)
    by (unfold l; rewrite length_app; f_equal; apply length_attribute).
  split_and!.
  - unfold l, attribute. rewrite <- !app_assoc.
    rewrite take_app_length' by (by rewrite length_ne_bytes). rewrite ne_value_bytes. unfold as_u16.
    rewrite Z.mod_mod_divide by (by exists 1). rewrite !Z.mod_small; lia.
  - unfold l, attribute. rewrite <- !app_assoc. rewrite drop_app_length' by (by rewrite length_ne_bytes).
    rewrite take_app_length' by (by rewrite length_ne_bytes). rewrite ne_value_bytes. apply Z.mod_small. lia.
  - unfold l, attribute. rewrite <- !app_assoc. rewrite (app_assoc (ne_bytes _ _ _)).
    rewrite drop_app_length' by (by rewrite length_app, !length_ne_bytes). apply take_app_length.
  - unfold l. apply drop_app_length'. by rewrite length_attribute.
  - lia.
Qed.

Lemma parse_attrs_attributes_fuel fuel l :
  Forall attr_ok l → (length (attributes l) ≤ fuel)%nat → parse_attrs_fuel fuel (attributes l) = Some l.
Proof.
  intros Hl. revert fuel. induction Hl as [|[kind value] l Hx Hl IH]; intros fuel Hf; [by destruct fuel|].
  change (attributes ((kind, value) :: l)) with (attribute kind value ++ attributes l) in *.
  destruct (attribute_fields kind value (attributes l) Hx) as (H1 & H2 & H3 & H4 & H5).
  destruct fuel as [|fuel]; [cbn in Hf; lia|].
  assert (Hlong : (4 ≤ length (attribute kind value ++ attributes l))%nat) by lia.
  cbn [parse_attrs_fuel].
  destruct (attribute kind value ++ attributes l) as [|b l'] eqn:Hb; [cbn in Hlong; lia|]. rewrite <- Hb in *.
  rewrite H1, H2, Nat2Z.id, H4.
  destruct ((4 + length value <? 4) || (length (attribute kind value ++ attributes l) <? 4 + length value))%nat eqn:E; [lia|].
  rewrite IH by (rewrite length_app, length_attribute in Hf; pose proof (aligned_ge (4 + length value)); lia).
  cbn [mbind option_bind]. replace (4 + length value - 4)%nat with (length value) by lia. by rewrite H3.
Qed.

(** A receiver reads back what was written. *)
Lemma parse_attrs_attributes l : Forall attr_ok l → parse_attrs (attributes l) = Some l.
Proof. intros Hl. by apply parse_attrs_attributes_fuel. Qed.

Lemma attributes_cons kind value l : attributes ((kind, value) :: l) = attribute kind value ++ attributes l.
Proof. done. Qed.
Lemma attributes_nil : attributes [] = [].
Proof. done. Qed.
Lemma attributes_one kind value : attributes [(kind, value)] = attribute kind value.
Proof. apply app_nil_r. Qed.

(** ** Addresses *)
Definition ip_ok (ip : IpAddr) : Prop := 0 ≤ ip_bits ip < 2 ^ family_width ip.

Definition ip_width (ip : IpAddr) : nat := if is_ipv4 ip then 4%nat else 16%nat.

Lemma length_octets ip : length (octets ip) = ip_width ip.
Proof. destruct ip; apply length_be_bytes. Qed.

Lemma octets_value ip : ip_ok ip → be_value (octets ip) = ip_bits ip.
Proof. intros Hip. destruct ip; cbn [octets]; rewrite be_value_bytes; by apply Z.mod_small. Qed.

Lemma octets_u8 ip : all_u8 (octets ip).
Proof. destruct ip; apply be_bytes_u8. Qed.

(** The address after another one of its family. *)
Definition ip_succ (ip : IpAddr) : IpAddr :=
  match ip with V4 a => V4 (a + 1) | V6 a => V6 (a + 1) end.

Lemma carry_rev_spec l :
  all_u8 l →
  let '(r, c) := carry_rev l in
  length r = length l ∧ all_u8 r ∧
  be_value (reverse r) + (if c then 256 ^ Z.of_nat (length l) else 0) = be_value (reverse l) + 1.
Proof.
  induction l as [|b l IH]; intros Hl; [done|]. apply Forall_cons_1 in Hl as [Hb Hl].
  unfold in_u8, u8_max in Hb. cbn [carry_rev]. destruct (Z.leb_spec (b + 1) u8_max) as [Hc|Hc].
  - unfold u8_max in Hc. unfold as_u8. rewrite Z.mod_small by lia. split_and!; [done| |].
    + constructor; [unfold in_u8, u8_max; lia|done].
    + rewrite !reverse_cons, !be_value_snoc. lia.
  - unfold u8_max in Hc. replace b with 255 in * by lia. change (as_u8 (255 + 1)) with 0.
    specialize (IH Hl). destruct (carry_rev l) as [r c]. destruct IH as (H1 & H2 & H3). split_and!.
    + cbn. by rewrite H1.
    + constructor; [unfold in_u8, u8_max; lia|done].
    + rewrite !reverse_cons, !be_value_snoc. cbn [length]. rewrite Nat2Z.inj_succ, Z.pow_succ_r by lia.
      destruct c; lia.
Qed.

(** The next address, unless it is the last of its family. *)
Lemma next_address_octets ip :
  ip_ok ip →
  next_address (octets ip) =
    if ip_bits ip =? 2 ^ family_width ip - 1 then (replicate (ip_width ip) 0, true)
    else (octets (ip_succ ip), false).
Proof.
  intros Hip. unfold next_address. pose proof (carry_rev_spec (reverse (octets ip))) as Hc.
  rewrite reverse_involutive, length_reverse, octets_value, length_octets in Hc by done.
  specialize (Hc (proj2 (Forall_reverse _ _) (octets_u8 ip))).
  destruct (carry_rev (reverse (octets ip))) as [r c]. destruct Hc as (Hl & Hr & Hv).
  assert (Hr' : all_u8 (reverse r)) by (by apply Forall_reverse).
  pose proof (be_value_range (reverse r) Hr') as Hrange. pose proof (be_bytes_value (reverse r) Hr') as Hb.
  rewrite length_reverse, Hl in Hrange, Hb.
  assert (Hw : 256 ^ Z.of_nat (ip_width ip) = 2 ^ family_width ip) by (by destruct ip).
  rewrite Hw in Hrange, Hv. unfold ip_ok in Hip.
  destruct (Z.eqb_spec (ip_bits ip) (2 ^ family_width ip - 1)) as [E|E]; destruct c; try lia.
  - f_equal. rewrite <- Hb. replace (be_value (reverse r)) with 0 by lia. by destruct ip.
  - f_equal. rewrite <- Hb. replace (be_value (reverse r)) with (ip_bits ip + 1) by lia. by destruct ip.
Qed.

(** ** Updates *)
(** Attributes of attributes. *)
Definition ipset_addr (ip : IpAddr) : list (Z * list Z) := [(if is_ipv4 ip then 0x4001 else 0x4002, octets ip)].
Definition ipset_data (ip : IpAddr) (timeout : Z) : list (Z * list Z) :=
  (0x8001, attributes (ipset_addr ip)) :: if 0 <? timeout then [(0x4006, be_bytes 4 timeout)] else [].
Definition ipset_body (name : string) (ip : IpAddr) (timeout : Z) : list (Z * list Z) :=
  [(1, [6]); (2, nul_terminated name); (0x8007, attributes (ipset_data ip timeout))].

Lemma attr_ok_iff kind value :
  (0 <=? kind) && (kind <=? u16_max) && (4 + Z.of_nat (length value) <=? u16_max) = true → attr_ok (kind, value).
Proof. unfold attr_ok, in_u16. cbn. lia. Qed.

Lemma length_nul name : length (nul_terminated name) = S (length (bytes_of_string name)).
Proof. unfold nul_terminated. rewrite length_app. cbn. lia. Qed.

(** Attributes whose sizes are known after computing. *)
Ltac attrs_ok :=
  repeat (constructor; [apply attr_ok_iff|]); try constructor;
  rewrite ?length_nul, ?attributes_one, ?length_app, ?length_attribute, ?length_octets, ?length_be_bytes;
  try reflexivity.

Lemma ipset_addr_ok ip : Forall attr_ok (ipset_addr ip).
Proof. unfold ipset_addr. destruct ip; attrs_ok. Qed.

Lemma ipset_data_ok ip timeout : Forall attr_ok (ipset_data ip timeout).
Proof. unfold ipset_data, ipset_addr. destruct ip, (0 <? timeout); attrs_ok. Qed.

Lemma length_ipset_data ip timeout : (length (attributes (ipset_data ip timeout)) ≤ 64)%nat.
Proof.
  unfold ipset_data, ipset_addr. destruct ip, (0 <? timeout);
    rewrite ?attributes_cons, ?attributes_nil, ?app_nil_r, ?length_app, ?length_attribute, ?length_octets,
      ?length_be_bytes; cbn; lia.
Qed.

Lemma ipset_body_ok name ip timeout : bad_name 32 name = false → Forall attr_ok (ipset_body name ip timeout).
Proof.
  unfold bad_name. intros Hn. apply orb_false_iff in Hn as [Hn _]. apply orb_false_iff in Hn as [_ Hn].
  pose proof (length_ipset_data ip timeout). unfold ipset_body.
  repeat (constructor; [apply attr_ok_iff; rewrite ?length_nul; unfold u16_max; cbn [length]; lia|]). constructor.
Qed.

(** The header of a message, field by field. *)
Lemma header_fields (l4 l2 l2' l4' l4'' l3 rest : list Z) :
  length l4 = 4%nat → length l2 = 2%nat → length l2' = 2%nat → length l4' = 4%nat → length l4'' = 4%nat →
  length l3 = 4%nat →
  let m := l4 ++ l2 ++ l2' ++ l4' ++ l4'' ++ l3 ++ rest in
  take 4 m = l4 ∧ take 2 (drop 4 m) = l2 ∧ take 2 (drop 6 m) = l2' ∧ m !! 16%nat = l3 !! 0%nat ∧ drop 20 m = rest.
Proof.
  intros H1 H2 H3 H4 H5 H6 m. repeat (destruct l4 as [|? l4]; [discriminate|]; try discriminate).
  repeat (destruct l2 as [|? l2]; try discriminate). repeat (destruct l2' as [|? l2']; try discriminate).
  repeat (destruct l4' as [|? l4']; try discriminate). repeat (destruct l4'' as [|? l4'']; try discriminate).
  repeat (destruct l3 as [|? l3]; try discriminate).
  destruct l4; [|discriminate]. by subst m.
Qed.

Lemma length_ipset_body name ip timeout :
  bad_name 32 name = false → (length (attributes (ipset_body name ip timeout)) ≤ 128)%nat.
Proof.
  unfold bad_name. intros Hn. apply orb_false_iff in Hn as [Hn _]. apply orb_false_iff in Hn as [_ Hn].
  pose proof (length_ipset_data ip timeout). unfold ipset_body.
  rewrite !attributes_cons, attributes_nil, app_nil_r, !length_app, !length_attribute, length_nul.
  pose proof (aligned_le (4 + S (length (bytes_of_string name)))).
  pose proof (aligned_le (4 + length (attributes (ipset_data ip timeout)))). cbn [length].
  change (aligned (4 + 1)) with 8%nat. lia.
Qed.

Lemma ipset_request_shape name ip timeout :
  bad_name 32 name = false →
  ∃ len,
    ipset_request name ip timeout =
      Ok (ne_bytes little 4 len ++ ne_bytes little 2 0x609 ++ ne_bytes little 2 0x105 ++ ne_bytes little 4 1
          ++ replicate 4 0 ++ [if is_ipv4 ip then 2 else 10; 0; 0; 6] ++ attributes (ipset_body name ip timeout)) ∧
    len mod 4294967296 = Z.of_nat (length (ne_bytes little 4 len ++ ne_bytes little 2 0x609
      ++ ne_bytes little 2 0x105 ++ ne_bytes little 4 1
      ++ replicate 4 0 ++ [if is_ipv4 ip then 2 else 10; 0; 0; 6] ++ attributes (ipset_body name ip timeout))).
Proof.
  intros Hn. pose proof (length_ipset_body name ip timeout Hn).
  assert (Hb : attributes (ipset_body name ip timeout) =
    attribute 1 [6] ++ attribute 2 (nul_terminated name) ++ attribute 0x8007
      (attribute 0x8001 (match ip with V4 _ => attribute 0x4001 (octets ip) | V6 _ => attribute 0x4002 (octets ip) end)
       ++ (if 0 <? timeout then attribute 0x4006 (be_bytes 4 timeout) else []))).
  { unfold ipset_body, ipset_data, ipset_addr. rewrite !attributes_cons, attributes_nil, !app_nil_r.
    by destruct ip, (0 <? timeout); rewrite ?attributes_cons, ?attributes_nil, ?app_nil_r. }
  unfold ipset_request. rewrite Hn, <- Hb. eexists. split; [reflexivity|].
  unfold as_u32. rewrite !length_app, !length_ne_bytes, length_replicate. cbn [length].
    rewrite Z.mod_mod_divide by (by exists 1). apply Z.mod_small. lia.
Qed.

(** An update of an IPSet is refused when its name is not one the kernel
    takes, and is otherwise a message of its own length that is read back as the
    protocol, the name, the address in its family and, unless it is zero, the
    timeout. *)
Theorem ipset_request_reads (name : string) (ip : IpAddr) (timeout : Z) :
  ip_ok ip → in_u32 timeout →
  if bad_name 32 name then ipset_request name ip timeout = Err (InvalidInput "invalid IPSet name")
  else ∃ packet data addr,
    ipset_request name ip timeout = Ok packet ∧
    ne_value little (take 4 packet) = Z.of_nat (length packet) ∧
    ne_value little (take 2 (drop 4 packet)) = 0x609 ∧
    ne_value little (take 2 (drop 6 packet)) = 0x105 ∧
    packet !! 16%nat = Some (if is_ipv4 ip then 2 else 10) ∧
    parse_attrs (drop 20 packet) = Some [(1, [6]); (2, nul_terminated name); (0x8007, data)] ∧
    parse_attrs data =
      Some ((0x8001, addr) :: if 0 <? timeout then [(0x4006, be_bytes 4 timeout)] else []) ∧
    parse_attrs addr = Some [(if is_ipv4 ip then 0x4001 else 0x4002, octets ip)] ∧
    be_value (octets ip) = ip_bits ip.
Proof.
  intros Hip Ht. destruct (bad_name 32 name) eqn:Hn; [by unfold ipset_request; rewrite Hn|].
  destruct (ipset_request_shape name ip timeout Hn) as (len & Hreq & Hlen).
  eexists _, (attributes (ipset_data ip timeout)), (attributes (ipset_addr ip)). split; [exact Hreq|].
  destruct (header_fields (ne_bytes little 4 len) (ne_bytes little 2 0x609) (ne_bytes little 2 0x105)
    (ne_bytes little 4 1) (replicate 4 0) [if is_ipv4 ip then 2 else 10; 0; 0; 6]
    (attributes (ipset_body name ip timeout))) as (-> & -> & -> & -> & ->); rewrite ?length_ne_bytes; try done.
  rewrite !parse_attrs_attributes
    by eauto using ipset_addr_ok, ipset_data_ok, ipset_body_ok.
  rewrite !ne_value_bytes. split_and!; try done. by apply octets_value.
Qed.

(** The elements of an nftables update, as attributes. *)
Definition nft_key (ip : IpAddr) : list (Z * list Z) := [(1, octets ip)].
Definition nft_first (ip : IpAddr) (timed : bool) (timeout : Z) : list (Z * list Z) :=
  (0x8001, attributes (nft_key ip)) :: if timed then [(4, be_bytes 8 (timeout * 1000))] else [].
Definition nft_end (ip : IpAddr) : list (Z * list Z) :=
  [(3, be_bytes 4 1); (0x8001, attributes (nft_key (ip_succ ip)))].
Definition nft_list (ip : IpAddr) (interval timed : bool) (timeout : Z) : list (Z * list Z) :=
  (0x8001, attributes (nft_first ip timed timeout))
  :: if interval then [(0x8001, attributes (nft_end ip))] else [].

Ltac attr_lengths :=
  repeat (progress rewrite ?attributes_cons, ?attributes_nil, ?app_nil_r, ?length_app, ?length_attribute,
    ?length_octets, ?length_be_bytes).

Lemma nft_key_ok ip : Forall attr_ok (nft_key ip).
Proof. unfold nft_key. destruct ip; attrs_ok. Qed.
Lemma nft_first_ok ip timed timeout : Forall attr_ok (nft_first ip timed timeout).
Proof.
  unfold nft_first, nft_key. destruct ip, timed;
    repeat (constructor; [apply attr_ok_iff; attr_lengths; reflexivity|]); constructor.
Qed.
Lemma nft_end_ok ip : Forall attr_ok (nft_end ip).
Proof.
  unfold nft_end, nft_key. destruct ip;
    repeat (constructor; [apply attr_ok_iff; attr_lengths; reflexivity|]); constructor.
Qed.
Lemma nft_list_ok ip interval timed timeout : Forall attr_ok (nft_list ip interval timed timeout).
Proof.
  unfold nft_list, nft_first, nft_end, nft_key. destruct ip, interval, timed;
    repeat (constructor; [apply attr_ok_iff; attr_lengths; reflexivity|]); constructor.
Qed.

Definition flag_interval (flags : Z) : bool := negb (Z.land flags 4 =? 0).
Definition flag_timeout (flags : Z) : bool := negb (Z.land flags 16 =? 0).

(** An element added to an nftables set is refused exactly when the set
    holds intervals and no address follows; otherwise it is read back as the
    address, with its timeout in milliseconds when the set has timeouts, and in a
    set of intervals as the interval that ends before the next address. *)
Theorem nft_elements_read (ip : IpAddr) (flags timeout : Z) :
  ip_ok ip →
  if flag_interval flags && (ip_bits ip =? 2 ^ family_width ip - 1)
  then elements ip flags timeout = Err (InvalidInput "nftables interval endpoint overflows")
  else ∃ bytes items first key,
    elements ip flags timeout = Ok bytes ∧
    parse_attrs bytes = Some [(0x8003, items)] ∧
    parse_attrs first = Some ((0x8001, key) ::
      if flag_timeout flags && (0 <? timeout) then [(4, be_bytes 8 (timeout * 1000))] else []) ∧
    parse_attrs key = Some [(1, octets ip)] ∧
    (if flag_interval flags
     then ∃ last key', parse_attrs items = Some [(0x8001, first); (0x8001, last)] ∧
       parse_attrs last = Some [(3, [0; 0; 0; 1]); (0x8001, key')] ∧
       parse_attrs key' = Some [(1, octets (ip_succ ip))]
     else parse_attrs items = Some [(0x8001, first)]).
Proof.
  intros Hip. unfold elements. fold (flag_interval flags) (flag_timeout flags).
  set (timed := flag_timeout flags && (0 <? timeout)).
  assert (Hfirst : attribute 0x8001 (attribute 1 (octets ip))
    ++ (if timed then attribute 4 (be_bytes 8 (timeout * 1000)) else []) = attributes (nft_first ip timed timeout)).
  { unfold nft_first, nft_key. rewrite !attributes_cons, !attributes_nil, !app_nil_r.
    destruct timed; [by rewrite attributes_one|done]. }
  rewrite Hfirst, next_address_octets by done.
  assert (Hok : ∀ interval, Forall attr_ok [(0x8003, attributes (nft_list ip interval timed timeout))]).
  { intros interval. unfold nft_list, nft_first, nft_end, nft_key.
    destruct ip, interval, timed;
      repeat (constructor; [apply attr_ok_iff; attr_lengths; reflexivity|]); constructor. }
  destruct (flag_interval flags) eqn:Ei; cbn [andb].
  - destruct (ip_bits ip =? _); [done|].
    eexists (attributes [(0x8003, attributes (nft_list ip true timed timeout))]),
      (attributes (nft_list ip true timed timeout)), (attributes (nft_first ip timed timeout)), (attributes (nft_key ip)).
    rewrite !parse_attrs_attributes by eauto using nft_list_ok, nft_first_ok, nft_key_ok.
    split_and!; try done.
    + rewrite attributes_one. unfold nft_list, nft_end, nft_key.
      by rewrite !attributes_cons, !attributes_nil, !app_nil_r.
    + exists (attributes (nft_end ip)), (attributes (nft_key (ip_succ ip))).
      by rewrite !parse_attrs_attributes by eauto using nft_end_ok, nft_key_ok.
  - eexists (attributes [(0x8003, attributes (nft_list ip false timed timeout))]),
      (attributes (nft_list ip false timed timeout)), (attributes (nft_first ip timed timeout)), (attributes (nft_key ip)).
    rewrite !parse_attrs_attributes by eauto using nft_list_ok, nft_first_ok, nft_key_ok.
    split_and!; try done. rewrite attributes_one. unfold nft_list. by rewrite attributes_one.
Qed.

(** ** Replies *)
Lemma flags_loop_attributes fuel l :
  Forall attr_ok l → (length (attributes l) < fuel)%nat →
  flags_loop fuel (attributes l) =
    (fun x => be_value x.2) <$> find_first (fun x => (Z.land x.1 0x3fff =? 3) && (length x.2 =? 4)%nat) l.
Proof.
  intros Hl. revert fuel. induction Hl as [|[kind value] l Hx Hl IH]; intros fuel Hf; [by destruct fuel|].
  rewrite attributes_cons in *. destruct fuel as [|fuel]; [lia|].
  destruct (attribute_fields kind value (attributes l) Hx) as (H1 & H2 & H3 & H4 & H5).
  cbn [flags_loop find_first fst snd]. rewrite H1, H2, Nat2Z.id, H4.
  rewrite length_app, length_attribute in Hf. pose proof (aligned_ge (4 + length value)).
  destruct (length (attribute kind value ++ attributes l) <? 4)%nat eqn:E1; [lia|].
  destruct ((4 + length value <? 4) || (length (attribute kind value ++ attributes l) <? 4 + length value))%nat eqn:E2; [lia|].
  change (4 + length value =? 8)%nat with (length value =? 4)%nat.
  destruct (Z.land kind 0x3fff =? 3); cbn [andb]; [|apply IH; lia].
  destruct (length value =? 4)%nat eqn:E3; [|apply IH; lia].
  apply Nat.eqb_eq in E3. rewrite E3 in H3. cbn. by rewrite H3.
Qed.

(** The flags of a set are those of the first attribute of that kind in the
    reply, and a reply without one is an error. *)
Lemma set_flags_reads (header : list Z) (l : list (Z * list Z)) :
  length header = 4%nat → Forall attr_ok l →
  set_flags (header ++ attributes l) =
    match find_first (fun x => (Z.land x.1 0x3fff =? 3) && (length x.2 =? 4)%nat) l with
    | Some x => Ok (be_value x.2)
    | None => Err (Other "nftables response omits set flags")
    end.
Proof.
  intros Hh Hl. unfold set_flags. rewrite length_app, Hh, drop_app_length' by done.
  rewrite flags_loop_attributes by (done || lia). cbn [Nat.add Nat.ltb]. by destruct (find_first _ l).
Qed.

(** A message of the kernel: its kind, its sequence number and its payload. *)
Record NlMsg := mkNlMsg { nm_kind : Z; nm_seq : Z; nm_payload : list Z }.

Definition nlmsg (m : NlMsg) : list Z :=
  let length_ := (16 + length (nm_payload m))%nat in
  ne_bytes little 4 (Z.of_nat length_) ++ ne_bytes little 2 (nm_kind m) ++ ne_bytes little 2 0
  ++ ne_bytes little 4 (nm_seq m) ++ ne_bytes little 4 0 ++ nm_payload m
  ++ replicate (aligned length_ - length_) 0.

Record nlmsg_ok (m : NlMsg) : Prop := {
  nm_kind_ok : in_u16 (nm_kind m);
  nm_seq_ok : in_u32 (nm_seq m);
  nm_size_ok : 16 + Z.of_nat (length (nm_payload m)) ≤ u32_max;
}.

Definition nlmsgs (l : list NlMsg) : list Z := l ≫= nlmsg.

(** What the messages of an exchange come to: the payloads of its sequence
    number up to the acknowledgement, or the error it carries. *)
Fixpoint acknowledged (sequence : Z) (acc : list (list Z)) (l : list NlMsg) : Scan :=
  match l with
  | [] => ScanMore acc
  | m :: l =>
      if nm_seq m =? sequence then
        if nm_kind m =? 2 then
          if (length (nm_payload m) <? 4)%nat then ScanDone (Err (Other "missing netlink status"))
          else
            let status := i32_of (ne_value little (take 4 (nm_payload m))) in
            ScanDone (if status =? 0 then Ok acc else Err (OsError (- status)))
        else acknowledged sequence (acc ++ [nm_payload m]) l
      else acknowledged sequence acc l
  end.

Lemma length_nlmsg m : length (nlmsg m) = aligned (16 + length (nm_payload m)).
Proof.
  unfold nlmsg. rewrite !length_app, !length_ne_bytes, length_replicate.
  pose proof (aligned_ge (16 + length (nm_payload m))). lia.
Qed.

Lemma nlmsg_fields m rest :
  nlmsg_ok m →
  let l := nlmsg m ++ rest in
  ne_value little (take 4 l) = Z.of_nat (16 + length (nm_payload m)) ∧
  ne_value little (take 2 (drop 4 l)) = nm_kind m ∧
  ne_value little (take 4 (drop 8 l)) = nm_seq m ∧
  take (length (nm_payload m)) (drop 16 l) = nm_payload m ∧
  drop (aligned (16 + length (nm_payload m))) l = rest.
Proof.
  intros [Hk Hs Hl] l. unfold in_u16, in_u32, u16_max, u32_max in *.
  assert (Hd : drop (aligned (16 + length (nm_payload m))) l = rest)
    by (apply drop_app_length'; by rewrite length_nlmsg).
  revert Hd. subst l. unfold nlmsg. rewrite <- !app_assoc.
  set (len := ne_bytes little 4 (Z.of_nat (16 + length (nm_payload m)))).
  set (kind := ne_bytes little 2 (nm_kind m)). set (flags := ne_bytes little 2 0).
  set (seq := ne_bytes little 4 (nm_seq m)). set (pid := ne_bytes little 4 0). intros Hd.
  assert (H4 : ∀ k, drop 4 (len ++ k) = k) by (intros; apply drop_app_length'; by unfold len; rewrite length_ne_bytes).
  assert (H8 : ∀ k, drop 8 (len ++ kind ++ flags ++ k) = k).
  { intros k. rewrite !app_assoc. apply drop_app_length'. unfold len, kind, flags.
    by rewrite !length_app, !length_ne_bytes. }
  assert (H16 : ∀ k, drop 16 (len ++ kind ++ flags ++ seq ++ pid ++ k) = k).
  { intros k. rewrite !app_assoc. apply drop_app_length'. unfold len, kind, flags, seq, pid.
    by rewrite !length_app, !length_ne_bytes. }
  rewrite H4, H8, H16, !take_app_length' by (unfold len, kind, seq; by rewrite ?length_ne_bytes).
  unfold len, kind, seq. rewrite !ne_value_bytes. split_and!; [..|done|done]; apply Z.mod_small; lia.
Qed.

Lemma scan_messages_fuel fuel sequence acc l :
  Forall nlmsg_ok l → (length (nlmsgs l) ≤ fuel)%nat →
  scan_loop fuel sequence acc (nlmsgs l) = acknowledged sequence acc l.
Proof.
  intros Hl. revert fuel acc. induction Hl as [|m l Hm Hl IH]; intros fuel acc Hf; [by destruct fuel|].
  change (nlmsgs (m :: l)) with (nlmsg m ++ nlmsgs l) in *.
  destruct (nlmsg_fields m (nlmsgs l) Hm) as (H1 & H2 & H3 & H4 & H5).
  assert (Hlen : length (nlmsg m ++ nlmsgs l) = (aligned (16 + length (nm_payload m)) + length (nlmsgs l))%nat)
    by (by rewrite length_app, length_nlmsg).
  pose proof (aligned_ge (16 + length (nm_payload m))).
  destruct fuel as [|fuel]; [lia|]. cbn [scan_loop acknowledged].
  rewrite H1, H2, H3, Nat2Z.id, H5.
  destruct (length (nlmsg m ++ nlmsgs l) <? 16)%nat eqn:E1; [lia|].
  destruct ((16 + length (nm_payload m) <? 16) || (length (nlmsg m ++ nlmsgs l) <? 16 + length (nm_payload m)))%nat eqn:E2; [lia|].
  replace (16 + length (nm_payload m) - 16)%nat with (length (nm_payload m)) by lia. rewrite H4.
  repeat case_match; try done; apply IH; lia.
Qed.

Lemma acknowledged_app sequence acc l l' :
  acknowledged sequence acc (l ++ l') =
    match acknowledged sequence acc l with
    | ScanDone r => ScanDone r
    | ScanMore acc => acknowledged sequence acc l'
    end.
Proof. revert acc. induction l as [|m l IH]; intros acc; [done|]. cbn. case_match; [|apply IH]. case_match; [by case_match|apply IH]. Qed.

(** An exchange gives the payloads of its sequence number up to the
    acknowledgement, or the error of the acknowledgement, or times out, however
    the kernel splits its messages over the buffers received. *)
Theorem exchange_reads (sequence : Z) (acc : list (list Z)) (buffers : list (list NlMsg)) :
  Forall (Forall nlmsg_ok) buffers →
  exchange sequence acc (nlmsgs <$> buffers) =
    match acknowledged sequence acc (concat buffers) with
    | ScanDone r => r
    | ScanMore _ => Err (Other "nftables acknowledgement timed out")
    end.
Proof.
  intros Hb. revert acc. induction Hb as [|b buffers Hb Hbs IH]; intros acc; [done|].
  cbn [fmap list_fmap exchange concat]. unfold scan. rewrite scan_messages_fuel, acknowledged_app by done.
  destruct (acknowledged sequence acc b); [apply IH|done].
Qed.
End Netlink.

(** ** At concrete points *)

(** At an IPv4 address with a timeout. *)
Lemma ipset_request_reads_witness :
  ∃ packet, ipset_request true "route4" (V4 0xc0000204) 90 = Ok packet ∧
    ne_value true (take 4 packet) = Z.of_nat (length packet).
Proof.
  assert (Hi : ip_ok (V4 0xc0000204)) by (split; vm_compute; congruence).
  pose proof (ipset_request_reads true "route4" (V4 0xc0000204) 90 Hi ltac:(split; vm_compute; congruence)) as H.
  change (bad_name 32 "route4") with false in H. destruct H as (packet & data & addr & H1 & H2 & _). by exists packet.
Defined.

(** At the last address of a network in a set of intervals with timeouts. *)
Lemma nft_elements_read_witness :
  ∃ bytes items, elements true (V4 0xc00002ff) 20 90 = Ok bytes ∧ parse_attrs true bytes = Some [(0x8003, items)].
Proof.
  assert (Hi : ip_ok (V4 0xc00002ff)) by (split; vm_compute; congruence).
  pose proof (nft_elements_read true (V4 0xc00002ff) 20 90 Hi) as H.
  change (flag_interval 20 && (ip_bits (V4 0xc00002ff) =? 2 ^ family_width (V4 0xc00002ff) - 1)) with false in H.
  destruct H as (bytes & items & first & key & H1 & H2 & _). by exists bytes, items.
Defined.

(** At an answer and its acknowledgement in two buffers. *)
Lemma exchange_reads_witness :
  exchange true 1 [] (nlmsgs true <$> [[mkNlMsg 2569 1 [1; 0; 0; 0]]; [mkNlMsg 2 1 [0; 0; 0; 0]]]) = Ok [[1; 0; 0; 0]].
Proof.
  rewrite (exchange_reads true 1 [] [[mkNlMsg 2569 1 [1; 0; 0; 0]]; [mkNlMsg 2 1 [0; 0; 0; 0]]]).
  - reflexivity.
  - repeat constructor; cbn; unfold u16_max, u32_max; lia.
Defined.
