(* ===== verification/Text.v ===== *)
(** * Addresses as text, and text

    Addresses are read and written as bytes, other values as code points.
    [IpAddr::from_str] and [Display] of the standard library, over the bytes of
    the text. A parser takes what it reads from the front of the bytes, or fails
    and takes nothing. *)

From S2P Require Import Prelude Names Config.

Definition Parse (A : Type) : Type := list Z → option (A * list Z).

(** ** Characters *)
Definition digit_val (radix : Z) (b : Z) : option Z :=
  let v := if (48 <=? b) && (b <=? 57) then b - 48
           else if (97 <=? b) && (b <=? 122) then b - 87
           else if (65 <=? b) && (b <=? 90) then b - 55
           else radix in
  if v <? radix then Some v else None.

Definition given_char (c : Z) : Parse unit := fun l =>
  match l with b :: l => if b =? c then Some (tt, l) else None | [] => None end.

(** ** Numbers of at most [max_digits] digits *)
Fixpoint digits (radix : Z) (acc : Z) (count : nat) (l : list Z) : Z * nat * list Z :=
  match l with
  | b :: l' =>
      match digit_val radix b with
      | Some d => digits radix (acc * radix + d) (S count) l'
      | None => (acc, count, l)
      end
  | [] => (acc, count, l)
  end.

Definition read_number (radix : Z) (max_digits : nat) (allow_zero_prefix : bool) (limit : Z) : Parse Z := fun l =>
  let '(v, count, rest) := digits radix 0 0 l in
  if (max_digits <? count)%nat || (count =? 0)%nat then None
  else if negb allow_zero_prefix && bool_decide (head l = Some 48) && (1 <? count)%nat then None
  else if v <=? limit then Some (v, rest) else None.

(** An item after a separator, but for the first one. *)
Definition read_separator {A} (sep : Z) (index : nat) (p : Parse A) : Parse A := fun l =>
  match index with
  | O => p l
  | _ => '(_, l) ← given_char sep l; p l
  end.

(** ** IPv4 *)
Definition read_octet (index : nat) : Parse Z := read_separator 46 index (read_number 10 3 false 255).

Definition read_ipv4 : Parse Z := fun l =>
  '(a, l) ← read_octet 0 l; '(b, l) ← read_octet 1 l; '(c, l) ← read_octet 2 l; '(d, l) ← read_octet 3 l;
  Some (((a * 256 + b) * 256 + c) * 256 + d, l).

(** ** IPv6 *)

(** [read_groups]: up to [limit] groups, from the one with number [i]; the groups,
    whether an IPv4 address ends them, and what is left. *)
Fixpoint read_groups (limit i : nat) (l : list Z) : list Z * bool * list Z :=
  match limit with
  | O => ([], false, l)
  | S limit =>
      match (if (0 <? limit)%nat then read_separator 58 i read_ipv4 l else None) with
      | Some (v4, l) => ([v4 / 65536; v4 mod 65536], true, l)
      | None =>
          match read_separator 58 i (read_number 16 4 true 65535) l with
          | Some (g, l) => let '(gs, v4, l) := read_groups limit (S i) l in (g :: gs, v4, l)
          | None => ([], false, l)
          end
      end
  end.

Definition of_groups (gs : list Z) : Z := fold_left (fun acc g => acc * 65536 + g) gs 0.

Definition read_ipv6 : Parse Z := fun l =>
  let '(head_, head_ipv4, l) := read_groups 8 0 l in
  if (length head_ =? 8)%nat then Some (of_groups head_, l)
  else if head_ipv4 then None
  else
    '(_, l) ← given_char 58 l; '(_, l) ← given_char 58 l;
    let '(tail_, _, l) := read_groups (8 - (length head_ + 1)) 0 l in
    Some (of_groups (head_ ++ replicate (8 - length head_ - length tail_) 0 ++ tail_), l).

(** ** Addresses *)
Definition ip_of_bytes (l : list Z) : option IpAddr :=
  match read_ipv4 l with
  | Some (a, rest) => match rest with [] => Some (V4 a) | _ => None end
  | None => match read_ipv6 l with Some (a, []) => Some (V6 a) | _ => None end
  end.

(** [str::parse::<IpAddr>] *)
Definition ip_parse (s : string) : option IpAddr := ip_of_bytes (bytes_of_string s).

Definition text_of_bytes (l : list Z) : string :=
  String.string_of_list_ascii ((fun b => Ascii.ascii_of_nat (Z.to_nat b)) <$> l).

(** ** Printing *)
Definition digit_char (d : Z) : Z := if d <? 10 then 48 + d else 87 + d.

Fixpoint number_digits (radix : Z) (fuel : nat) (n : Z) : list Z :=
  match fuel with
  | O => []
  | S fuel => (if n / radix =? 0 then [] else number_digits radix fuel (n / radix)) ++ [digit_char (n mod radix)]
  end.

Definition show_ipv4 (a : Z) : list Z :=
  number_digits 10 3 (a / 16777216 mod 256) ++ [46] ++ number_digits 10 3 (a / 65536 mod 256) ++ [46]
  ++ number_digits 10 3 (a / 256 mod 256) ++ [46] ++ number_digits 10 3 (a mod 256).

Definition segments (a : Z) : list Z := (fun i => a / 65536 ^ i mod 65536) <$> [7; 6; 5; 4; 3; 2; 1; 0].

(** The first longest run of zeros: its start and its length. *)
Fixpoint longest_zeros (i : nat) (current longest : nat * nat) (gs : list Z) : nat * nat :=
  match gs with
  | [] => longest
  | g :: gs =>
      if g =? 0 then
        let current := if (current.2 =? 0)%nat then (i, 1%nat) else (current.1, S current.2) in
        longest_zeros (S i) current (if (longest.2 <? current.2)%nat then current else longest) gs
      else longest_zeros (S i) (0%nat, 0%nat) longest gs
  end.

Fixpoint show_groups (gs : list Z) : list Z :=
  match gs with
  | [] => []
  | [g] => number_digits 16 4 g
  | g :: gs => number_digits 16 4 g ++ [58] ++ show_groups gs
  end.

Definition show_ipv6 (a : Z) : list Z :=
  if a / 2 ^ 32 =? 65535 then [58; 58; 102; 102; 102; 102; 58] ++ show_ipv4 (a mod 2 ^ 32)
  else
    let gs := segments a in
    let '(start, len) := longest_zeros 0 (0%nat, 0%nat) (0%nat, 0%nat) gs in
    if (1 <? len)%nat then show_groups (take start gs) ++ [58; 58] ++ show_groups (drop (start + len) gs)
    else show_groups gs.

Definition ip_show (i : IpAddr) : string :=
  text_of_bytes (match i with V4 a => show_ipv4 a | V6 a => show_ipv6 a end).

Example ip_parse_examples :
  ip_parse "192.168.1.10" = Some (V4 0xc0a8010a) ∧ ip_parse "::1" = Some (V6 1) ∧
  ip_parse "2001:db8::ff00:42:8329" = Some (V6 0x20010db8000000000000ff0000428329) ∧
  ip_parse "::ffff:1.2.3.4" = Some (V6 0xffff01020304) ∧ ip_parse "1.2.3" = None ∧ ip_parse "01.2.3.4" = None ∧
  ip_parse "1::2::3" = None ∧ ip_parse "fe80::%eth0" = None ∧ ip_parse "1:2:3:4:5:6:7::" = Some (V6 0x00010002000300040005000600070000).
Proof. by vm_compute. Qed.

Example ip_show_examples :
  ip_show (V4 0xc0a8010a) = "192.168.1.10" ∧ ip_show (V6 1) = "::1" ∧
  ip_show (V6 0x20010db8000000000000ff0000428329) = "2001:db8::ff00:42:8329" ∧
  ip_show (V6 0xffff01020304) = "::ffff:1.2.3.4" ∧ ip_show (V6 0) = "::".
Proof. by vm_compute. Qed.

(** * Text

    The operations on strings of the standard library that the readers of lease
    and configuration files use, over the characters of the text (code points),
    and the text operations of the DNS library's names as a class. *)

Definition text := list Z.
Definition text_of (s : string) : text := bytes_of_string s.

(** [char::is_whitespace]: the Unicode property. *)
Definition is_whitespace (c : Z) : bool :=
  ((9 <=? c) && (c <=? 13)) || (c =? 32) || (c =? 133) || (c =? 160) || (c =? 5760)
  || ((8192 <=? c) && (c <=? 8202)) || (c =? 8232) || (c =? 8233) || (c =? 8239) || (c =? 8287) || (c =? 12288).

Definition is_ascii_hexdigit (c : Z) : bool :=
  ((48 <=? c) && (c <=? 57)) || ((65 <=? c) && (c <=? 70)) || ((97 <=? c) && (c <=? 102)).

Definition text_lower (l : text) : text := ascii_lower <$> l.

(** [split] at each character of a kind: one piece more than there are such
    characters. *)
Fixpoint split_at (p : Z → bool) (l : text) : list text :=
  match l with
  | [] => [[]]
  | c :: l =>
      if p c then [] :: split_at p l
      else match split_at p l with
           | [] => [[c]]
           | piece :: pieces => (c :: piece) :: pieces
           end
  end.

Definition non_empty (l : text) : bool := negb (bool_decide (l = [])).
Definition words_at (p : Z → bool) (l : text) : list text := List.filter non_empty (split_at p l).
Definition split_whitespace (l : text) : list text := words_at is_whitespace l.

Fixpoint trim_start (l : text) : text :=
  match l with
  | c :: l' => if is_whitespace c then trim_start l' else l
  | [] => []
  end.
Definition trim (l : text) : text := reverse (trim_start (reverse (trim_start l))).

(** [lines]: without the line ends, and without an empty last line. *)
Definition strip_cr (l : text) : text :=
  match reverse l with c :: l' => if c =? 13 then reverse l' else l | [] => l end.
Definition str_lines (l : text) : list text :=
  let pieces := split_at (Z.eqb 10) l in
  match reverse pieces with
  | [] => []
  | piece :: rest => (strip_cr <$> reverse rest) ++ if non_empty piece then [piece] else []
  end.

(** [i64::from_str]: an optional sign and at least one digit, within the width. *)
Definition i64_parse (l : text) : option Z :=
  let '(neg, l) := match l with
                   | c :: l' => if c =? 45 then (true, l') else if c =? 43 then (false, l') else (false, l)
                   | [] => (false, l)
                   end in
  match digits 10 0 0 l with
  | (v, S _, []) =>
      let v := if neg then - v else v in
      if (- 2 ^ 63 <=? v) && (v <=? 2 ^ 63 - 1) then Some v else None
  | _ => None
  end.

(** [from_str_radix] of an unsigned integer: digits after an optional plus. *)
Definition parse_unsigned (radix limit : Z) (l : text) : option Z :=
  let l := match l with c :: l' => if c =? 43 then l' else l | [] => l end in
  match digits radix 0 0 l with
  | (v, S _, []) => if v <=? limit then Some v else None
  | _ => None
  end.

(** [str::strip_prefix] *)
Fixpoint strip_prefix (p l : text) : option text :=
  match p, l with
  | [], _ => Some l
  | c :: p, d :: l => if c =? d then strip_prefix p l else None
  | _ :: _, [] => None
  end.

(** ** Names as text *)
Class NameText (Name : Type) := {
  name_parse : text → option Name;
  name_show : Name → text;
  name_append_name : Name → Name → option Name;
  name_prepend_label : text → Name → option Name;
  name_append_domain : Name → Name → option Name;
  name_num_labels : Name → nat;
  name_parse_arpa : Name → option IpNet;
}.

Class NameTextLaws (Name : Type) `{NameLib Name} `{NameText Name} : Prop := {
  (** [Display] ends in a dot exactly when the name is absolute. *)
  name_show_dot n : name_is_fqdn n = true → last (name_show n) = Some 46;
  name_append_name_iter a b n :
    name_append_name a b = Some n → name_iter n = name_iter a ++ name_iter b ∧ name_is_fqdn n = name_is_fqdn b;
  name_append_domain_iter a b n :
    name_append_domain a b = Some n → name_iter n = name_iter a ++ name_iter b ∧ name_is_fqdn n = true;
}.

(** The concrete names: labels between dots, without escapes. *)
Definition plain_parse (l : text) : option PlainName :=
  if bool_decide (l = [46]) then Some (mkName [] true)
  else match reverse (split_at (Z.eqb 46) l) with
       | [] => None
       | piece :: rest =>
           let fqdn := negb (non_empty piece) in
           let labels := reverse (if fqdn then rest else piece :: rest) in
           if forallb non_empty labels then Some (mkName labels fqdn) else None
       end.

Definition plain_show (n : PlainName) : text :=
  mjoin ((fun l => l ++ [46]) <$> removelast (pn_labels n)) ++ default [] (last (pn_labels n))
  ++ if pn_fqdn n then [46] else [].

(** The octets of a reverse name, the last one first. *)
Definition arpa_octets (labels : list label) : option (list Z) :=
  mapM (fun l => match read_number 10 3 false 255 l with Some (v, []) => Some v | _ => None end) labels.

Definition plain_arpa (n : PlainName) : option IpNet :=
  match reverse (lowers (pn_labels n)) with
  | a :: b :: octets =>
      if bool_decide (a = text_of "arpa") && bool_decide (b = text_of "in-addr") then
        match arpa_octets octets with
        | Some [o1; o2; o3; o4] => Some (mkNet (V4 (((o1 * 256 + o2) * 256 + o3) * 256 + o4)) 32)
        | _ => None
        end
      else None
  | _ => None
  end.

#[global] Instance PlainName_text : NameText PlainName := {
  name_parse := plain_parse;
  name_show := plain_show;
  name_prepend_label l n := Some (mkName (l :: pn_labels n) (pn_fqdn n));
  name_append_name a b := Some (mkName (pn_labels a ++ pn_labels b) (pn_fqdn b));
  name_append_domain a b := Some (mkName (pn_labels a ++ pn_labels b) true);
  name_num_labels n := length (List.filter (fun l => negb (bool_decide (l = star))) (take 1 (pn_labels n)) ++ drop 1 (pn_labels n));
  name_parse_arpa := plain_arpa;
}.

#[global] Instance PlainName_text_laws : NameTextLaws PlainName.
Proof.
  split.
  - intros n Hn. cbn in *. unfold plain_show. rewrite Hn, app_assoc. by rewrite last_snoc.
  - by intros a b n [= <-].
  - by intros a b n [= <-].
Qed.

(** ** Lemmas *)
Lemma split_at_nonempty p l : split_at p l ≠ [].
Proof. destruct l as [|c l]; [done|]. cbn. destruct (p c); [done|]. by destruct (split_at p l). Qed.

(** Splitting is the inverse of joining pieces without separators. *)
Fixpoint join_at (sep : Z) (pieces : list text) : text :=
  match pieces with
  | [] => []
  | [piece] => piece
  | piece :: pieces => piece ++ sep :: join_at sep pieces
  end.

Lemma split_at_plain p l : forallb (fun c => negb (p c)) l = true → split_at p l = [l].
Proof.
  induction l as [|c l IH]; [done|]. cbn. intros [Hc Hl]%andb_true_iff.
  apply negb_true_iff in Hc. by rewrite Hc, IH.
Qed.

Lemma split_at_app p sep l rest :
  forallb (fun c => negb (p c)) l = true → p sep = true →
  split_at p (l ++ sep :: rest) = l :: split_at p rest.
Proof.
  intros Hl Hs. induction l as [|c l IH]; [by cbn; rewrite Hs|].
  cbn in *. apply andb_true_iff in Hl as [Hc Hl]. apply negb_true_iff in Hc. by rewrite Hc, IH.
Qed.

Lemma split_join p sep pieces :
  pieces ≠ [] → p sep = true →
  Forall (fun piece => forallb (fun c => negb (p c)) piece = true) pieces →
  split_at p (join_at sep pieces) = pieces.
Proof.
  intros Hne Hs. induction pieces as [|piece pieces IH]; [done|]. intros [Hp Hr]%Forall_cons_1.
  destruct pieces as [|piece' pieces]; [by apply split_at_plain|].
  change (split_at p (piece ++ sep :: join_at sep (piece' :: pieces)) = piece :: piece' :: pieces).
  by rewrite split_at_app, IH.
Qed.

Lemma words_join p sep pieces :
  pieces ≠ [] → p sep = true → Forall (fun piece => piece ≠ []) pieces →
  Forall (fun piece => forallb (fun c => negb (p c)) piece = true) pieces →
  words_at p (join_at sep pieces) = pieces.
Proof.
  intros Hne Hs He Hp. unfold words_at. rewrite split_join by done. clear Hne Hp.
  induction He as [|piece pieces Hx _ IH]; [done|]. cbn. unfold non_empty at 1.
  by rewrite bool_decide_false, IH.
Qed.

Lemma trim_start_plain c l : is_whitespace c = false → trim_start (c :: l) = c :: l.
Proof. intros Hc. cbn. by rewrite Hc. Qed.

(** A text that starts and ends in other characters is not trimmed. *)
Lemma trim_plain l :
  (∀ c, head l = Some c → is_whitespace c = false) → (∀ c, last l = Some c → is_whitespace c = false) →
  trim l = l.
Proof.
  intros Hh Hl. unfold trim. destruct l as [|c l]; [done|]. rewrite trim_start_plain by (by apply Hh).
  destruct (reverse (c :: l)) as [|d r] eqn:E; [by apply (f_equal length) in E; rewrite length_reverse in E|].
  rewrite trim_start_plain; [by rewrite <- E, reverse_involutive|].
  apply Hl. rewrite <- head_reverse. by rewrite E.
Qed.

Example lines_example : str_lines (text_of "a" ++ [13; 10] ++ text_of "b" ++ [10]) = [text_of "a"; text_of "b"].
Proof. reflexivity. Qed.
Example words_example : split_whitespace (text_of "  a  bc ") = [text_of "a"; text_of "bc"].
Proof. reflexivity. Qed.
Example trim_example : trim (text_of "  a b ") = text_of "a b".
Proof. reflexivity. Qed.
Example i64_example : i64_parse (text_of "-1702763919") = Some (-1702763919) ∧ i64_parse (text_of "-") = None.
Proof. done. Qed.

Lemma last_app_cons {A} (l : list A) x l' : last (l ++ x :: l') = last (x :: l').
Proof. rewrite last_app. by destruct l' using rev_ind; rewrite ?last_snoc; [|change (x :: l' ++ [x0]) with ((x :: l') ++ [x0]); rewrite last_snoc]. Qed.

(** A line of words between spaces is those words. *)
Lemma words_line sep pieces first last_ :
  is_whitespace sep = true → head pieces = Some first → last pieces = Some last_ →
  Forall (fun piece => piece ≠ []) pieces →
  Forall (fun piece => forallb (fun c => negb (sep =? c)) piece = true) pieces →
  (∀ c, head first = Some c → is_whitespace c = false) → (∀ c, last last_ = Some c → is_whitespace c = false) →
  let line := join_at sep pieces in
  trim line = line ∧ head line = head first ∧ words_at (Z.eqb sep) line = pieces.
Proof.
  intros Hs Hf Hl He Hp H1 H2 line.
  assert (Hne : pieces ≠ []) by (by destruct pieces).
  assert (Hhead : head line = head first).
  { subst line. destruct pieces as [|p ps]; [done|]. injection Hf as ->. destruct ps as [|q ps]; [done|].
    cbn [join_at]. by destruct first as [|c f]; [by apply Forall_cons_1 in He as [? _]|]. }
  assert (Hlast : last line = last last_).
  { subst line. clear Hf H1 Hhead Hne. induction pieces as [|p ps IH]; [done|].
    destruct ps as [|q ps]; [by injection Hl as ->|]. apply Forall_cons_1 in He as [_ He].
    apply Forall_cons_1 in Hp as [_ Hp]. rewrite last_cons_cons in Hl. rewrite <- (IH Hl He Hp).
    change (join_at sep (p :: q :: ps)) with (p ++ sep :: join_at sep (q :: ps)). rewrite last_app_cons.
    destruct (join_at sep (q :: ps)) eqn:E; [|done].
    destruct ps; cbn in E; [by subst; apply Forall_cons_1 in He as [? _]|by destruct q]. }
  split; [apply trim_plain; [by rewrite Hhead|by rewrite Hlast]|]. split; [done|].
  apply words_join; [done|by apply Z.eqb_eq|done|done].
Qed.
