(* ===== verification/LogFile.v ===== *)
(** * Files that are rotated ([infra/mapped_file.rs])

    The logs and the audit are written to a file which, when it is full, is copied
    under a name with the date; the oldest copies are removed. Files are the
    entries of one directory, names are bytes. A write of the system writes all it
    is given; a file that is open is written at its end, as it is opened to append
    or empty, and only by this program. *)

From S2P Require Import Prelude Names Config Text.

Definition CHAR_DOT : Z := 46.
Definition CHAR_DASH : Z := 45.

(** ** Names of files *)

(** [Path::file_stem] and [Path::extension]: at the last dot, unless it is the
    first character. *)
Fixpoint split_last_dot (l : text) : option (text * text) :=
  match l with
  | [] => None
  | c :: l =>
      match split_last_dot l with
      | Some (stem, ext) => Some (c :: stem, ext)
      | None => if c =? CHAR_DOT then Some ([], l) else None
      end
  end.
Definition split_name (name : text) : text * option text :=
  match split_last_dot name with
  | Some ([], _) | None => (name, None)
  | Some (stem, ext) => (stem, Some ext)
  end.
Definition file_stem (name : text) : text := (split_name name).1.
Definition extension (name : text) : option text := (split_name name).2.

(** [Path::with_extension]: the extension is replaced. *)
Definition with_extension (ext : text) (name : text) : text :=
  if bool_decide (ext = []) then file_stem name else file_stem name ++ CHAR_DOT :: ext.

Fixpoint starts_with (p l : text) : bool :=
  match p, l with
  | [], _ => true
  | c :: p, d :: l => (c =? d) && starts_with p l
  | _ :: _, [] => false
  end.

(** The order of names: by their bytes. *)
Fixpoint text_leb (a b : text) : bool :=
  match a, b with
  | [], _ => true
  | _ :: _, [] => false
  | x :: a, y :: b => (x <? y) || ((x =? y) && text_leb a b)
  end.

(** ** The file *)
Abbreviation Dir := (gmap text (list Z)).

Record MappedFile := mkMapped {
  mf_name : text;
  mf_size : Z;
  mf_num : option nat;
  (** whether the file is open *)
  mf_open : bool;
  mf_len : Z;
  mf_peamble : option (list Z);
}.
Definition mapped_open (name : text) (size : Z) (num : option nat) : MappedFile := mkMapped name size num false 0 None.
Definition set_peamble (bytes : option (list Z)) (m : MappedFile) : MappedFile :=
  mkMapped (mf_name m) (mf_size m) (mf_num m) (mf_open m) (mf_len m) bytes.

Definition file_len (d : Dir) (name : text) : Z := opt_map_or 0 (fun c => Z.of_nat (length c)) (d !! name).

(** [len] *)
Definition mapped_len (d : Dir) (m : MappedFile) : Z :=
  if (0 <? mf_len m) || mf_open m then mf_len m else file_len d (mf_name m).
Definition is_full (d : Dir) (m : MappedFile) : bool := mf_size m <=? mapped_len d m.

(** The files of the log, the last in the order of names first. *)
Definition mapped_files (d : Dir) (m : MappedFile) : list text :=
  sort_by (fun a b => text_leb b a)
    (List.filter (fun name => bool_decide (extension name = extension (mf_name m)) && starts_with (file_stem (mf_name m)) name)
      (fst <$> map_to_list d)).

Definition remove_names (l : list text) (d : Dir) : Dir := fold_left (fun d name => delete name d) l d.

(** [backup_files] at a date; none when there is no file to copy. *)
Definition backup_name (name date : text) : text :=
  let new_name := file_stem name ++ CHAR_DASH :: date in
  match extension name with Some ext => with_extension ext new_name | None => new_name end.

Definition backup_files (date : text) (d : Dir) (m : MappedFile) : option Dir :=
  content ← d !! mf_name m;
  let d := <[backup_name (mf_name m) date := content]> d in
  let files := mapped_files d m in
  match mf_num m with
  | Some n => if (n <=? length files)%nat then Some (remove_names (drop n files) d) else Some d
  | None => Some d
  end.

(** [get_active_file]: the file is opened, empty when it is full, and begun with
    the preamble when it is empty. *)
Definition open_active (d : Dir) (m : MappedFile) : Dir * MappedFile :=
  if mf_open m then (d, m)
  else
    let content := match d !! mf_name m with
                   | Some c => if is_full d m then [] else c
                   | None => []
                   end in
    let content := match content, mf_peamble m with
                   | [], Some bytes => bytes
                   | _, _ => content
                   end in
    (<[mf_name m := content]> d,
     mkMapped (mf_name m) (mf_size m) (mf_num m) true (Z.of_nat (length content)) (mf_peamble m)).

Definition get_active_file (date : text) (d : Dir) (m : MappedFile) : option (Dir * MappedFile) :=
  if is_full d m then (fun d => open_active d m) <$> backup_files date d m
  else Some (open_active d m).

(** [flush]: a full file is closed. *)
Definition mapped_flush (d : Dir) (m : MappedFile) : MappedFile :=
  if mf_open m then
    let closed := mkMapped (mf_name m) (mf_size m) (mf_num m) false (mf_len m) (mf_peamble m) in
    if is_full d closed then closed else m
  else m.

(** [write]; none: an error, and nothing is written. *)
Definition mapped_write (date : text) (buf : list Z) (d : Dir) (m : MappedFile) : option (Dir * MappedFile) :=
  '(d, m) ← get_active_file date d m;
  let d := <[mf_name m := opt_unwrap_or [] (d !! mf_name m) ++ buf]> d in
  let m := mkMapped (mf_name m) (mf_size m) (mf_num m) (mf_open m) (mf_len m + Z.of_nat (length buf)) (mf_peamble m) in
  Some (d, if is_full d m then mapped_flush d m else m).

(** [remove_files] *)
Definition remove_files (d : Dir) (m : MappedFile) : Dir * MappedFile :=
  (remove_names (mapped_files d m) d, mkMapped (mf_name m) (mf_size m) (mf_num m) false (mf_len m) (mf_peamble m)).

(** ** The order of names *)
Lemma text_leb_refl a : text_leb a a = true.
Proof. induction a as [|x a IH]; [done|]. cbn. by rewrite Z.eqb_refl, IH, orb_true_r. Qed.

Lemma text_leb_total a b : text_leb a b = true ∨ text_leb b a = true.
Proof.
  revert b. induction a as [|x a IH]; intros [|y b]; [by left|by left|by right|]. cbn.
  destruct (Z.lt_trichotomy x y) as [Hx|[->|Hx]].
  - left. by rewrite (proj2 (Z.ltb_lt _ _) Hx).
  - rewrite Z.ltb_irrefl, Z.eqb_refl. apply IH.
  - right. by rewrite (proj2 (Z.ltb_lt _ _) Hx).
Qed.

Lemma text_leb_antisym a b : text_leb a b = true → text_leb b a = true → a = b.
Proof.
  revert b. induction a as [|x a IH]; intros [|y b]; cbn; try done.
  destruct (Z.ltb_spec x y), (Z.ltb_spec y x), (Z.eqb_spec x y), (Z.eqb_spec y x); cbn; try done; try lia.
  intros. f_equal; [done|]. by apply IH.
Qed.

Lemma text_leb_trans a b c : text_leb a b = true → text_leb b c = true → text_leb a c = true.
Proof.
  revert b c. induction a as [|x a IH]; intros [|y b] [|z c]; cbn; try done.
  destruct (Z.ltb_spec x y), (Z.eqb_spec x y), (Z.ltb_spec y z), (Z.eqb_spec y z), (Z.ltb_spec x z), (Z.eqb_spec x z);
    cbn; try done; try lia. apply IH.
Qed.

Lemma text_leb_app p a b : text_leb (p ++ a) (p ++ b) = text_leb a b.
Proof. induction p as [|c p IH]; [done|]. cbn. by rewrite Z.ltb_irrefl, Z.eqb_refl, IH. Qed.

(** Texts of one length are ordered whatever follows them. *)
Lemma text_leb_longer a b x y : length a = length b → a ≠ b → text_leb a b = true → text_leb (a ++ x) (b ++ y) = true.
Proof.
  revert b. induction a as [|c a IH]; intros [|d b]; cbn; try done. intros [= Hl] Hn.
  destruct (Z.ltb_spec c d), (Z.eqb_spec c d); cbn; try done. subst. apply IH; [done|]. by intros ->.
Qed.

(** *** The files, the greatest name first *)
Abbreviation geb := (fun a b => text_leb b a).

Lemma insert_geb_sorted x l : StronglySorted (fun a b => geb a b = true) l → StronglySorted (fun a b => geb a b = true) (insert_by geb x l).
Proof.
  induction l as [|y l IH]; intros Hs; cbn [insert_by]; [by repeat constructor|].
  apply StronglySorted_inv in Hs as [Hs Hy]. destruct (text_leb y x) eqn:E.
  - constructor; [by constructor|]. constructor; [done|]. eapply Forall_impl; [exact Hy|]. intros z Hz. exact (text_leb_trans _ _ _ Hz E).
  - constructor; [by apply IH|]. apply Forall_forall. intros z Hz.
    apply (elem_of_Permutation_proper _ _ _ (insert_by_perm geb x l)) in Hz.
    apply elem_of_cons in Hz as [->|Hz].
    + destruct (text_leb_total x y) as [?|E']; [done|congruence].
    + rewrite Forall_forall in Hy. by apply Hy.
Qed.

Lemma sort_geb_sorted l : StronglySorted (fun a b => geb a b = true) (sort_by geb l).
Proof. induction l as [|x l IH]; [constructor|]. by apply insert_geb_sorted. Qed.

(** The greatest element of a sorted list is its head. *)
Lemma sorted_head l a :
  StronglySorted (fun a b => geb a b = true) l → a ∈ l → (∀ x, x ∈ l → text_leb x a = true) → ∃ l', l = a :: l'.
Proof.
  intros Hs Ha Hmax. destruct l as [|b l]; [by apply not_elem_of_nil in Ha|].
  apply StronglySorted_inv in Hs as [_ Hb]. exists l. f_equal.
  apply elem_of_cons in Ha as [->|Ha]; [done|].
  rewrite Forall_forall in Hb. apply text_leb_antisym; [apply Hmax; by left|by apply Hb].
Qed.

Definition is_mapped (m : MappedFile) (name : text) : bool :=
  bool_decide (extension name = extension (mf_name m)) && starts_with (file_stem (mf_name m)) name.

Lemma mapped_files_spec d m :
  NoDup (mapped_files d m) ∧ StronglySorted (fun a b => geb a b = true) (mapped_files d m) ∧
  ∀ x, x ∈ mapped_files d m ↔ is_Some (d !! x) ∧ is_mapped m x = true.
Proof.
  unfold mapped_files. set (l := List.filter _ _).
  assert (Hl : NoDup l ∧ ∀ x, x ∈ l ↔ is_Some (d !! x) ∧ is_mapped m x = true).
  { split.
    - apply NoDup_ListNoDup, List.NoDup_filter, NoDup_ListNoDup, NoDup_fst_map_to_list.
    - intros x. unfold l. rewrite list_elem_of_In, filter_In, <- list_elem_of_In. fold (is_mapped m x).
      rewrite list_elem_of_fmap. split.
      + intros [([x' c] & -> & Hx%elem_of_map_to_list) Hm]. split; [by eexists|done].
      + intros [[c Hc] Hm]. split; [|done]. exists (x, c). split; [done|]. by apply elem_of_map_to_list. }
  destruct Hl as [Hnd Hin]. split; [by rewrite sort_by_perm|]. split; [apply sort_geb_sorted|].
  intros x. by rewrite sort_by_perm.
Qed.

Lemma remove_names_lookup l d x : remove_names l d !! x = if bool_decide (x ∈ l) then None else d !! x.
Proof.
  revert d. induction l as [|y l IH]; intros d; cbn; [done|]. unfold remove_names in *. cbn. rewrite IH.
  destruct (decide (x ∈ l)) as [E|E].
  - rewrite !bool_decide_true by (done || by right). done.
  - rewrite (bool_decide_false (x ∈ l)) by done. destruct (decide (x = y)) as [->|Hn].
    + rewrite bool_decide_true by (by left). by rewrite lookup_delete_eq.
    + rewrite bool_decide_false by (intros [?|?]%elem_of_cons; congruence). by rewrite lookup_delete_ne.
Qed.

(** ** Rotation *)
Lemma split_last_dot_app a b : CHAR_DOT ∉ b → split_last_dot (a ++ CHAR_DOT :: b) = Some (a, b).
Proof.
  intros Hb. induction a as [|c a IH]; cbn.
  - assert (split_last_dot b = None) as ->; [|done].
    induction b as [|d b IHb]; [done|]. cbn. apply not_elem_of_cons in Hb as [Hd Hb]. rewrite IHb by done.
    destruct (Z.eqb_spec d CHAR_DOT); congruence.
  - by rewrite IH.
Qed.

Lemma split_name_app a b : a ≠ [] → CHAR_DOT ∉ b → split_name (a ++ CHAR_DOT :: b) = (a, Some b).
Proof. intros Ha Hb. unfold split_name. rewrite split_last_dot_app by done. by destruct a. Qed.

Lemma starts_with_app p l : starts_with p (p ++ l) = true.
Proof. induction p as [|c p IH]; [done|]. cbn. by rewrite Z.eqb_refl. Qed.

Section Rotation.
(** A name with one extension and no other dot before it. *)
Variables (stem ext : text).
Hypothesis stem_nonempty : stem ≠ [].
Hypothesis stem_plain : CHAR_DOT ∉ stem.
Hypothesis ext_plain : CHAR_DOT ∉ ext.
Hypothesis ext_nonempty : ext ≠ [].

Let name : text := stem ++ CHAR_DOT :: ext.
Definition dated (date : text) : text := (stem ++ CHAR_DASH :: date) ++ CHAR_DOT :: ext.

Lemma backup_name_dated date : CHAR_DOT ∉ date → backup_name name date = dated date.
Proof.
  intros Hd. unfold backup_name, name. unfold file_stem, extension. rewrite split_name_app by done. cbn.
  unfold with_extension. rewrite bool_decide_false by done.
  assert (split_last_dot (stem ++ CHAR_DASH :: date) = None) as Hs.
  { assert (Hn : CHAR_DOT ∉ stem ++ CHAR_DASH :: date).
    { rewrite elem_of_app, elem_of_cons. intros [?|[?|?]]; done. }
    revert Hn. generalize (stem ++ CHAR_DASH :: date). induction l as [|c l IH]; [done|].
    intros [Hc Hl]%not_elem_of_cons. cbn. rewrite IH by done. destruct (Z.eqb_spec c CHAR_DOT); congruence. }
  unfold file_stem, split_name. by rewrite Hs.
Qed.

Lemma dated_mapped m date : mf_name m = name → is_mapped m (dated date) = true.
Proof.
  intros Hm. unfold is_mapped, extension, file_stem. rewrite Hm. unfold name, dated.
  rewrite !split_name_app by (done || by destruct stem). cbn. rewrite bool_decide_true by done.
  rewrite <- app_assoc. apply starts_with_app.
Qed.

Lemma name_mapped m : mf_name m = name → is_mapped m name = true.
Proof.
  intros Hm. unfold is_mapped, extension, file_stem. rewrite Hm. unfold name.
  rewrite !split_name_app by done. cbn. rewrite bool_decide_true by done. apply starts_with_app.
Qed.

Lemma dated_before_name date : text_leb (dated date) name = true ∧ dated date ≠ name.
Proof.
  unfold dated, name. rewrite <- app_assoc, text_leb_app. split; [done|].
  intros E%app_inv_head. done.
Qed.

Lemma dated_order d1 d2 : length d1 = length d2 → d1 ≠ d2 → text_leb d1 d2 = true → text_leb (dated d1) (dated d2) = true.
Proof.
  intros Hl Hn Hd. unfold dated. rewrite <- !app_assoc, text_leb_app. cbn.
  by apply text_leb_longer.
Qed.

(** The directory holds no other files that the names of the log match, and the
    copies in it are from before. *)
Definition own_files (date : text) (d : Dir) (m : MappedFile) : Prop :=
  ∀ x, is_Some (d !! x) → is_mapped m x = true →
    x = name ∨ ∃ date', x = dated date' ∧ length date' = length date ∧ date' ≠ date ∧ text_leb date' date = true.

Lemma rotated_files date d m old :
  mf_name m = name → own_files date d m → d !! name = Some old →
  ∃ rest, mapped_files (<[dated date := old]> d) m = name :: dated date :: rest.
Proof.
  intros Hname Hown Hold. set (d1 := <[dated date := old]> d).
  destruct (mapped_files_spec d1 m) as (Hnd & Hsort & Hin). set (files := mapped_files d1 m) in *.
  destruct (dated_before_name date) as [Hlt Hne].
  assert (Hbefore : ∀ x, x ∈ files → x = name ∨ text_leb x (dated date) = true).
  { intros x [Hx Hm]%Hin. unfold d1 in Hx. destruct (decide (x = dated date)) as [->|Hxd]; [right; apply text_leb_refl|].
    rewrite lookup_insert_ne in Hx by done. destruct (Hown x Hx Hm) as [->|(date' & -> & ? & ? & ?)]; [by left|right].
    by apply dated_order. }
  destruct (sorted_head files name) as [rest Hfiles]; [done| | |].
  { apply Hin. unfold d1. rewrite lookup_insert_ne by done. split; [by eexists|by apply name_mapped]. }
  { intros x Hx. destruct (Hbefore x Hx) as [->|?]; [apply text_leb_refl|by eapply text_leb_trans]. }
  rewrite Hfiles in *. apply StronglySorted_inv in Hsort as [Hsort _]. apply NoDup_cons in Hnd as [Hnot _].
  destruct (sorted_head rest (dated date)) as [rest' ->]; [done| | |by exists rest'].
  - assert (dated date ∈ name :: rest) as Hd.
    { apply Hin. unfold d1. rewrite lookup_insert_eq. split; [by eexists|by apply dated_mapped]. }
    by apply elem_of_cons in Hd as [?|?].
  - intros x Hx. destruct (Hbefore x) as [->|?]; [by right|done|done].
Qed.

(** What the write leaves: the copies but for the removed ones, and the file. *)
Lemma rotated_write date buf d m n old rest :
  mf_name m = name → CHAR_DOT ∉ date → mf_open m = false → is_full d m = true → mf_num m = Some n → (1 ≤ n)%nat →
  d !! name = Some old → mapped_files (<[dated date := old]> d) m = name :: rest → NoDup (name :: rest) →
  ∃ m', mapped_write date buf d m =
          Some (<[name := opt_unwrap_or [] (mf_peamble m) ++ buf]>
                  (remove_names (drop n (name :: rest)) (<[dated date := old]> d)), m') ∧ mf_name m' = name.
Proof.
  intros Hname Hdate Hclosed Hfull Hnum Hn Hold Hfiles Hnd. set (d1 := <[dated date := old]> d) in *.
  set (d2 := remove_names (drop n (name :: rest)) d1).
  assert (Hd2 : d2 !! name = Some old).
  { unfold d2. rewrite remove_names_lookup, bool_decide_false.
    - unfold d1. rewrite lookup_insert_ne; [done|]. apply dated_before_name.
    - destruct n as [|n]; [lia|]. cbn. intros Hx. apply NoDup_cons in Hnd as [Hnot _]. apply Hnot.
      rewrite <- (take_drop n rest). apply elem_of_app. by right. }
  assert (Hback : backup_files date d m = Some d2).
  { unfold backup_files. rewrite Hname, Hold. cbn [mbind option_bind]. rewrite backup_name_dated by done. fold d1. rewrite Hfiles, Hnum.
    destruct (Nat.leb_spec n (length (name :: rest))); [done|]. unfold d2. by rewrite drop_ge by lia. }
  assert (Hfull2 : is_full d2 m = true).
  { revert Hfull. unfold is_full, mapped_len, file_len. by rewrite Hclosed, Hname, Hold, Hd2. }
  unfold mapped_write, get_active_file. rewrite Hfull, Hback. cbn [fmap option_fmap option_map mbind option_bind].
  unfold open_active. rewrite Hclosed, Hname, Hd2, Hfull2.
  replace (match mf_peamble m with Some bytes => bytes | None => [] end) with (opt_unwrap_or [] (mf_peamble m)) by (by destruct (mf_peamble m)).
  cbn. rewrite lookup_insert_eq. cbn. rewrite insert_insert_eq. eexists. split; [done|].
  unfold mapped_flush. cbn. by repeat case_match.
Qed.

(** When the file is full, a write copies it under its date, keeps at most the
    number of files configured, which are the newest, and begins the file anew with
    the preamble and what is written; other files of the directory are not touched. *)
Theorem rotation_keeps_newest date buf d m n old :
  mf_name m = name → CHAR_DOT ∉ date → own_files date d m →
  mf_open m = false → is_full d m = true → mf_num m = Some n → (1 ≤ n)%nat → d !! name = Some old →
  ∃ d' m', mapped_write date buf d m = Some (d', m') ∧
    d' !! name = Some (opt_unwrap_or [] (mf_peamble m) ++ buf) ∧
    ((2 ≤ n)%nat → d' !! dated date = Some old) ∧
    (length (mapped_files d' m') ≤ n)%nat ∧
    (∀ x, is_mapped m x = false → d' !! x = d !! x) ∧
    (∀ x y, is_Some (d !! x) → d' !! x = None → y ∈ mapped_files d' m' → text_leb x y = true).
Proof.
  intros Hname Hdate Hown Hclosed Hfull Hnum Hn Hold.
  destruct (rotated_files date d m old Hname Hown Hold) as [rest Hfiles].
  set (d1 := <[dated date := old]> d) in *. destruct (mapped_files_spec d1 m) as (Hnd & Hsort & Hin).
  rewrite Hfiles in *. set (files := name :: dated date :: rest) in *.
  destruct (rotated_write date buf d m n old (dated date :: rest)) as (m' & Hw & Hname'); try done.
  fold d1 files in Hw. set (d' := <[name := _]> _) in Hw. exists d', m'. split; [done|]. split; [apply lookup_insert_eq|].
  destruct (dated_before_name date) as [_ Hne].
  assert (Hd' : ∀ x, x ≠ name → d' !! x = if bool_decide (x ∈ drop n files) then None else d1 !! x).
  { intros x Hx. unfold d'. by rewrite lookup_insert_ne, remove_names_lookup. }
  destruct (mapped_files_spec d' m') as (Hnd' & _ & Hin').
  assert (Htake : ∀ x, x ∈ mapped_files d' m' → x ∈ take n files).
  { intros x [Hx Hm]%Hin'. unfold is_mapped in Hm. rewrite Hname', <- Hname in Hm. fold (is_mapped m x) in Hm.
    destruct (decide (x = name)) as [->|Hxn]; [destruct n; [lia|by left]|].
    rewrite Hd' in Hx by done. case_bool_decide as Hxd; [by destruct Hx|].
    assert (x ∈ take n files ++ drop n files) as Hxf by (rewrite take_drop; by apply Hin). by apply elem_of_app in Hxf as [?|?]. }
  assert (Hdrop : ∀ x, x ∈ drop n files → x ∈ files) by (intros x Hx; rewrite <- (take_drop n files); apply elem_of_app; by right).
  split_and!.
  - intros Hn2. rewrite Hd' by done. rewrite bool_decide_false; [by unfold d1; rewrite lookup_insert_eq|].
    destruct n as [|[|n]]; [lia|lia|]. intros Hx. apply NoDup_cons in Hnd as [_ [Hnot _]%NoDup_cons]. apply Hnot.
    rewrite <- (take_drop n rest). apply elem_of_app. by right.
  - transitivity (length (take n files)); [|rewrite length_take; lia].
    apply submseteq_length, NoDup_submseteq; [done|exact Htake].
  - intros x Hx. rewrite Hd', bool_decide_false.
    + unfold d1. rewrite lookup_insert_ne; [done|]. intros <-. by rewrite dated_mapped in Hx.
    + intros [_ Hm]%Hdrop%Hin. congruence.
    + intros ->. by rewrite name_mapped in Hx.
  - intros x y Hx Hx' Hy%Htake. destruct (decide (x = name)) as [->|Hxn]; [unfold d' in Hx'; by rewrite lookup_insert_eq in Hx'|].
    rewrite Hd' in Hx' by done. case_bool_decide as Hxd.
    + rewrite <- (take_drop n files) in Hsort. apply StronglySorted_app in Hsort as (Hs & _ & _). exact (Hs y x Hy Hxd).
    + unfold d1 in Hx'. destruct (decide (x = dated date)) as [->|?]; [by rewrite lookup_insert_eq in Hx'|].
      rewrite lookup_insert_ne in Hx' by done. rewrite Hx' in Hx. by destruct Hx.
Qed.
End Rotation.

(** ** Concrete files *)
Abbreviation t := text_of.

(** Writes of two bytes to a log of size two that keeps three files. *)
Definition write_step (dm : option (gmap text (list Z) * MappedFile)) (date : string) : option (gmap text (list Z) * MappedFile) :=
  '(d, m) ← dm; mapped_write (t date) [7; 7] d m.

Lemma rotation_sample :
  (fun dates => length <$> ((fun dm => mapped_files dm.1 dm.2) <$> fold_left write_step dates (Some (∅, mapped_open (t "abc.txt") 2 (Some 3%nat)))))
    <$> [["1"]; ["1"; "2"]; ["1"; "2"; "3"]; ["1"; "2"; "3"; "4"]; ["1"; "2"; "3"; "4"; "5"]]%string
  = [Some 1; Some 2; Some 3; Some 3; Some 3]%nat.
Proof. vm_compute. reflexivity. Qed.

Definition full_log : gmap text (list Z) := {[t "abc.txt" := [1; 2]; t "abc-1.txt" := [0]; t "other.csv" := [9]]}.

Lemma full_log_own : own_files (t "abc") (t "txt") (t "2") full_log (mapped_open (t "abc.txt") 2 (Some 2%nat)).
Proof.
  intros x Hx Hm. unfold full_log in Hx. rewrite !lookup_insert_is_Some in Hx.
  destruct Hx as [<-|[_ [<-|[_ Hx]]]]; [by left| |].
  - right. exists (t "1"). by repeat split.
  - destruct (decide (x = t "other.csv")) as [->|Hn]; [by vm_compute in Hm|].
    rewrite lookup_singleton_ne in Hx by done. by destruct Hx.
Qed.

Lemma rotation_keeps_newest_witness :
  ∃ d' m', mapped_write (t "2") [3] full_log (mapped_open (t "abc.txt") 2 (Some 2%nat)) = Some (d', m') ∧
    d' !! t "abc.txt" = Some [3] ∧ d' !! t "abc-2.txt" = Some [1; 2] ∧ (length (mapped_files d' m') ≤ 2)%nat ∧
    d' !! t "other.csv" = Some [9].
Proof.
  assert (Hplain : ∀ l, existsb (Z.eqb CHAR_DOT) l = false → CHAR_DOT ∉ l).
  { intros l Hl Hin. assert (existsb (Z.eqb CHAR_DOT) l = true); [|congruence]. apply existsb_exists.
    exists CHAR_DOT. split; [by apply list_elem_of_In|done]. }
  destruct (rotation_keeps_newest (t "abc") (t "txt") ltac:(done) (Hplain (t "abc") eq_refl) (Hplain (t "txt") eq_refl) ltac:(done) (t "2") [3] full_log
              (mapped_open (t "abc.txt") 2 (Some 2%nat)) 2%nat [1; 2])
    as (d' & m' & Hw & Ha & Hb & Hl & Ho & _).
  - reflexivity.
  - apply Hplain. reflexivity.
  - exact full_log_own.
  - reflexivity.
  - vm_compute. reflexivity.
  - reflexivity.
  - lia.
  - vm_compute. reflexivity.
  - exists d', m'. split; [exact Hw|]. split; [exact Ha|]. split; [apply Hb; lia|]. split; [exact Hl|].
    rewrite Ho; vm_compute; reflexivity.
Defined.

(** The log of the program and its audit are in one directory, and the names of
    the audit begin with that of the log: the log, when it is rotated, removes the
    copies of the audit, and its own new copy. *)
Lemma rotation_removes_other_logs :
  let d := {[t "smartdns.log" := [1; 2]; t "smartdns-audit.log" := [5]; t "smartdns-audit-1.log" := [6]]} in
  (fun dm => (dm.1 !! t "smartdns-audit-1.log", dm.1 !! t "smartdns-2.log", dm.1 !! t "smartdns.log"))
    <$> mapped_write (t "2") [3] d (mapped_open (t "smartdns.log") 2 (Some 2%nat))
  = Some (None, None, Some [3]).
Proof. vm_compute. reflexivity. Qed.

(** With a dot in the stem, the copy replaces what comes after it, date included. *)
Lemma backup_name_dotted : backup_name (t "my.smartdns.log") (t "20240101") = t "my.log".
Proof. vm_compute. reflexivity. Qed.

(** A log of size zero is always full, and there is no file to copy: every write
    fails. *)
Lemma size_zero_fails name num date buf : mapped_write date buf ∅ (mapped_open name 0 num) = None.
Proof. reflexivity. Qed.
