(* ===== verification/Dhcp.v ===== *)
(** * Discovery of name servers by DHCP ([infra/dhcp.rs])

    The interface with the default route, the packet that asks for the options of
    its network, and what the replies say of name servers. *)

From S2P Require Import Prelude Bytes Names Config Text.

(** ** The interface (Linux) *)

Record Route := mkRoute { rt_iface : text; rt_gateway : Z }.

(** [little]: the byte order of the machine. *)
Definition route_line (little : bool) (line : text) : option (Z * Route) :=
  let fields := split_whitespace line in
  if (length fields <? 8)%nat then None
  else
    let field i := nth i fields [] in
    if negb (bool_decide (field 1%nat = text_of "00000000")) || negb (bool_decide (field 7%nat = text_of "00000000")) then None
    else
      gateway ← parse_unsigned 16 u32_max (field 2%nat);
      metric ← parse_unsigned 10 u32_max (field 6%nat);
      Some (metric, mkRoute (field 0%nat) (be_value (ne_bytes little 4 gateway))).

Definition default_routes (little : bool) (table : text) : list Route :=
  snd <$> sort_by (fun a b => a.1 <=? b.1) (omap (route_line little) (drop 1 (str_lines table))).

Fixpoint parse_all {A B} (f : A → option B) (l : list A) : option (list B) :=
  match l with
  | [] => Some []
  | x :: l => y ← f x; r ← parse_all f l; Some (y :: r)
  end.

(** Six bytes between colons; the address of all zeros is none. *)
Definition parse_mac (t : text) : option (list Z) :=
  let parts := split_at (Z.eqb 58) (trim t) in
  if (length parts =? 6)%nat then
    mac ← parse_all (parse_unsigned 16 u8_max) parts;
    if bool_decide (mac = [0; 0; 0; 0; 0; 0]) then None else Some mac
  else None.

Record NetworkInterface := mkInterface { if_name : text; if_mac : option (list Z); if_gateway : option Z }.

(** [find_interface_by_name]: from the routing table, whether an interface exists
    and the text of its address file. *)
Definition find_interface_by_name (little : bool) (table : option text) (exists_ : text → bool)
    (address_file : text → option text) (name : option text) : option NetworkInterface :=
  let routes := default_routes little (opt_unwrap_or [] table) in
  name ← match name with
         | Some name => if exists_ name then Some name else None
         | None => rt_iface <$> head routes
         end;
  Some (mkInterface name (address_file name ≫= parse_mac)
          (rt_gateway <$> find_first (fun r => bool_decide (rt_iface r = name) && negb (rt_gateway r =? 0)) routes)).

(** ** The packet *)
Definition MAGIC_COOKIE : list Z := [99; 130; 83; 99].
Definition PARAMETERS : list Z := [1; 3; 6; 15; 31; 33; 44; 46; 47; 119; 121; 28; 2; 12].

Definition dhcp_v4_discover (mac : list Z) (xid : Z) (broadcast : bool) (hostname : option (list Z)) : list Z :=
  let header := [1; 1; 6; 0] ++ be_bytes 4 xid ++ [0; 0] ++ [if broadcast then 128 else 0; 0]
                ++ replicate 16 0 ++ mac ++ replicate 202 0 in
  header ++ MAGIC_COOKIE ++ [53; 1; 1]
  ++ match hostname with
     | Some [] | None => []
     | Some host => let host := take 255 host in [12; Z.of_nat (length host)] ++ host
     end
  ++ [61; 7; 1] ++ mac ++ [55; Z.of_nat (length PARAMETERS)] ++ PARAMETERS ++ [255].

(** ** The reply *)
Record DhcpV4Reply := mkReply { dr_domain_name_servers : list Z; dr_name_servers : list Z }.
Definition reply_default : DhcpV4Reply := mkReply [] [].

Inductive DhcpError := NotReply | OtherRequest | Truncated (code : Z).

(** [as_chunks::<4>().0] *)
Fixpoint ipv4_chunks (l : list Z) : list Z :=
  match l with
  | a :: b :: c :: d :: l => be_value [a; b; c; d] :: ipv4_chunks l
  | _ => []
  end.

Definition add_option (code : Z) (value : list Z) (r : DhcpV4Reply) : DhcpV4Reply :=
  if code =? 6 then mkReply (dr_domain_name_servers r ++ ipv4_chunks value) (dr_name_servers r)
  else if code =? 5 then mkReply (dr_domain_name_servers r) (dr_name_servers r ++ ipv4_chunks value)
  else r.

(** The loop over the options; none when the fuel is exceeded. *)
Fixpoint read_options (fuel : nat) (options : list Z) (r : DhcpV4Reply) : option (result DhcpV4Reply DhcpError) :=
  match fuel with
  | O => None
  | S fuel =>
      match options with
      | [] => Some (Ok r)
      | code :: rest =>
          if code =? 0 then read_options fuel rest r
          else if code =? 255 then Some (Ok r)
          else
            match rest with
            | [] => Some (Err (Truncated code))
            | len :: rest =>
                let n := Z.to_nat len in
                if (length rest <? n)%nat then Some (Err (Truncated code))
                else read_options fuel (drop n rest) (add_option code (take n rest) r)
            end
      end
  end.

Definition dhcp_parse (packet : list Z) (xid : Z) : option (result DhcpV4Reply DhcpError) :=
  if (length packet <? 240)%nat || negb (nth 0 packet 0 =? 2) || negb (bool_decide (take 4 (drop 236 packet) = MAGIC_COOKIE))
  then Some (Err NotReply)
  else if negb (bool_decide (take 4 (drop 4 packet) = be_bytes 4 xid)) then Some (Err OtherRequest)
  else read_options (S (length packet)) (drop 240 packet) reply_default.

Definition nameservers (r : DhcpV4Reply) : list IpAddr :=
  V4 <$> match dr_domain_name_servers r with [] => dr_name_servers r | l => l end.

(** [exchange]: the first of the packets received that is a reply; none while no
    such packet comes. *)
Fixpoint first_reply (xid : Z) (packets : list (list Z)) : option DhcpV4Reply :=
  match packets with
  | [] => None
  | packet :: packets =>
      match dhcp_parse packet xid with
      | Some (Ok r) => Some r
      | _ => first_reply xid packets
      end
  end.

(** [discover_v4]: three attempts, each with what was received in its three
    seconds; the request of each has an id of its own. *)
Definition discover_v4 (interface : option NetworkInterface) (attempts : list (Z * list (list Z))) : option DhcpV4Reply :=
  i ← interface; _ ← if_mac i;
  first_some ((fun a => first_reply a.1 a.2) <$> take 3 attempts).

(** ** Options as they are written *)
Inductive DhcpOption := DhcpPad | DhcpOpt (code : Z) (value : list Z).

Definition option_ok (o : DhcpOption) : Prop :=
  match o with DhcpPad => True | DhcpOpt code value => code ≠ 0 ∧ code ≠ 255 ∧ (length value ≤ 255)%nat end.
Definition option_bytes (o : DhcpOption) : list Z :=
  match o with DhcpPad => [0] | DhcpOpt code value => code :: Z.of_nat (length value) :: value end.
Definition options_bytes (l : list DhcpOption) : list Z := l ≫= option_bytes.

Definition values_of (code : Z) (l : list DhcpOption) : list Z :=
  l ≫= (fun o => match o with DhcpOpt c value => if c =? code then ipv4_chunks value else [] | DhcpPad => [] end).

(** Reading is total with one unit of fuel for each byte and one more. *)
Lemma read_options_ends fuel options r : (length options < fuel)%nat → is_Some (read_options fuel options r).
Proof.
  revert options r. induction fuel as [|fuel IH]; intros options r Hl; [lia|]. cbn [read_options].
  destruct options as [|code rest]; [done|]. cbn [length] in Hl.
  destruct (code =? 0); [apply IH; lia|]. destruct (code =? 255); [done|].
  destruct rest as [|len rest]; [done|]. cbn [length] in Hl.
  destruct (_ <? _)%nat; [done|]. apply IH. rewrite length_drop. lia.
Qed.

Lemma read_options_written fuel l rest r :
  Forall option_ok l → (length (options_bytes l ++ rest) < fuel)%nat →
  ∃ fuel', (length rest < fuel')%nat ∧
    read_options fuel (options_bytes l ++ rest) r =
      read_options fuel' rest (mkReply (dr_domain_name_servers r ++ values_of 6 l) (dr_name_servers r ++ values_of 5 l)).
Proof.
  revert fuel r. induction l as [|o l IH]; intros fuel r Hok Hl.
  { exists fuel. split; [done|]. destruct r. cbn. by rewrite !app_nil_r. }
  apply Forall_cons_1 in Hok as [Ho Hok]. unfold options_bytes in *. cbn [mbind list_bind] in *.
  rewrite <- app_assoc in *. destruct fuel as [|fuel]; [lia|]. destruct o as [|code value].
  - cbn [option_bytes app length] in *. destruct (IH fuel r Hok) as (fuel' & Hf & E); [lia|].
    exists fuel'. split; [done|]. cbn [read_options]. rewrite Z.eqb_refl. exact E.
  - destruct Ho as (H0 & H255 & Hv). cbn [option_bytes app length] in *. rewrite !length_app in Hl.
    destruct (IH fuel (add_option code value r) Hok) as (fuel' & Hf & E); [rewrite length_app; lia|].
    exists fuel'. split; [done|]. cbn [read_options].
    destruct (Z.eqb_spec code 0), (Z.eqb_spec code 255); try done.
    rewrite Nat2Z.id. destruct (Nat.ltb_spec (length (value ++ (l ≫= option_bytes) ++ rest)) (length value)).
    { rewrite length_app in *. lia. }
    rewrite take_app_length, drop_app_length, E. f_equal. unfold add_option.
    destruct (Z.eqb_spec code 6) as [->|]; [|destruct (Z.eqb_spec code 5) as [->|]]; cbn [dr_domain_name_servers dr_name_servers values_of mbind list_bind].
    + cbn. by rewrite <- app_assoc.
    + cbn. by rewrite <- app_assoc.
    + unfold values_of. cbn. destruct (Z.eqb_spec code 6), (Z.eqb_spec code 5); try done.
Qed.

(** A reply to a request, with the options given; [fields] are its other bytes. *)
Definition dhcp_reply (xid : Z) (fields : list Z) (options : list Z) : list Z :=
  [2] ++ take 3 fields ++ be_bytes 4 xid ++ take 228 (drop 3 fields) ++ MAGIC_COOKIE ++ options.

(** Of a well-formed reply the name servers are the addresses of all its options
    of DNS servers, in order, or when there are none those of its options of name
    servers, whatever other options and padding it has and whether or not it has an
    end; a reply that is cut within an option is refused; and every packet is read
    to an end. *)
Theorem dhcp_reply_nameservers xid fields l tail :
  length fields = 231%nat → Forall option_ok l →
  (tail = [] ∨ (∃ more, tail = 255 :: more) →
   ∃ r, dhcp_parse (dhcp_reply xid fields (options_bytes l ++ tail)) xid = Some (Ok r) ∧
     nameservers r = V4 <$> match values_of 6 l with [] => values_of 5 l | servers => servers end) ∧
  (∀ code value k, code ≠ 0 → code ≠ 255 → (length value ≤ 255)%nat → (1 ≤ k < 2 + length value)%nat →
   dhcp_parse (dhcp_reply xid fields (options_bytes l ++ take k (option_bytes (DhcpOpt code value)))) xid
     = Some (Err (Truncated code))) ∧
  (∀ packet, is_Some (dhcp_parse packet xid)).
Proof.
  intros Hf Hok.
  assert (Hparse : ∀ options, dhcp_parse (dhcp_reply xid fields options) xid =
                     read_options (S (240 + length options)) options reply_default).
  { intros options. pose proof (length_be_bytes 4 xid) as Hx. unfold dhcp_parse, dhcp_reply.
    destruct (be_bytes 4 xid) as [|x0 [|x1 [|x2 [|x3 [|]]]]] eqn:Ex; try done.
    assert (Ht : length (take 3 fields) = 3%nat) by (rewrite length_take; lia).
    assert (Hd : length (take 228 (drop 3 fields)) = 228%nat) by (rewrite length_take, length_drop; lia).
    destruct (take 3 fields) as [|f0 [|f1 [|f2 [|]]]]; try done. set (mid := take 228 (drop 3 fields)) in *.
    cbn [app nth]. change ([2; f0; f1; f2; x0; x1; x2; x3]) with ([2; f0; f1; f2; x0; x1; x2; x3]).
    assert (Hdrop : ∀ k, drop (236 + k) (2 :: f0 :: f1 :: f2 :: x0 :: x1 :: x2 :: x3 :: mid ++ MAGIC_COOKIE ++ options)
                      = drop k (MAGIC_COOKIE ++ options)).
    { intros k. assert (Hm : ∀ x : list Z, drop (228 + k) (mid ++ x) = drop k x).
      { intros x. rewrite drop_app_ge by lia. f_equal. lia. }
      exact (Hm _). }
    assert (Hlen : length (2 :: f0 :: f1 :: f2 :: x0 :: x1 :: x2 :: x3 :: mid ++ MAGIC_COOKIE ++ options) = (240 + length options)%nat).
    { cbn [length]. rewrite !length_app, Hd. cbn. lia. }
    rewrite Hlen. destruct (Nat.ltb_spec (240 + length options) 240); [lia|].
    pose proof (Hdrop 0%nat) as H236. pose proof (Hdrop 4%nat) as H240. cbn [Nat.add] in H236, H240.
    rewrite H236, H240.
    change (take 4 (drop 0 (MAGIC_COOKIE ++ options))) with (MAGIC_COOKIE ++ take 0 options). rewrite take_0, bool_decide_true by done.
    rewrite bool_decide_true by (cbn; by rewrite take_0). done. }
  split_and!.
  - intros Htail. rewrite Hparse.
    destruct (read_options_written (S (240 + length (options_bytes l ++ tail))) l tail reply_default Hok) as (fuel' & Hf' & ->); [lia|].
    destruct fuel' as [|fuel']; [lia|]. eexists. split.
    { destruct Htail as [->|[more ->]]; [done|]. cbn [read_options]. by rewrite (proj2 (Z.eqb_neq 255 0)) by lia. }
    done.
  - intros code value k H0 H255 Hv Hk. rewrite Hparse.
    destruct (read_options_written (S (240 + length (options_bytes l ++ take k (option_bytes (DhcpOpt code value))))) l
                (take k (option_bytes (DhcpOpt code value))) reply_default Hok) as (fuel' & Hf' & ->); [lia|].
    destruct fuel' as [|fuel']; [lia|]. destruct k as [|[|k]]; [lia| |]; cbn [option_bytes take read_options];
      rewrite (proj2 (Z.eqb_neq code 0)), (proj2 (Z.eqb_neq code 255)) by done; [done|].
    rewrite Nat2Z.id. destruct (Nat.ltb_spec (length (take k value)) (length value)); [done|]. rewrite length_take in *. lia.
  - intros packet. unfold dhcp_parse. destruct (_ || _); [done|]. destruct (negb _); [done|].
    apply read_options_ends. rewrite length_drop. lia.
Qed.

Definition lan_options : list DhcpOption := [DhcpPad; DhcpOpt 1 [255; 255; 255; 0]; DhcpOpt 6 [192; 168; 1; 1; 8; 8; 8; 8]; DhcpOpt 5 [1; 2; 3; 4]].

Lemma dhcp_reply_nameservers_witness :
  (∃ r, dhcp_parse (dhcp_reply 7 (replicate 231 0) (options_bytes lan_options ++ [255; 1])) 7 = Some (Ok r) ∧
        nameservers r = [V4 3232235777; V4 134744072]) ∧
  dhcp_parse (dhcp_reply 7 (replicate 231 0) (options_bytes lan_options ++ [6; 4; 1; 1])) 7 = Some (Err (Truncated 6)).
Proof.
  destruct (dhcp_reply_nameservers 7 (replicate 231 0) lan_options [255; 1]) as (Hr & Hcut & _).
  - reflexivity.
  - repeat constructor; try done; cbn; lia.
  - split.
    + destruct Hr as (r & Hp & Hn); [right; by exists [1]|]. exists r. split; [exact Hp|exact Hn].
    + apply (Hcut 6 [1; 1; 8; 8] 4%nat); cbn; lia.
Defined.

(** A discovery is a request whose options are well formed and end. *)
Lemma discover_options mac xid broadcast hostname :
  length mac = 6%nat →
  ∃ l, Forall option_ok l ∧
    drop 240 (dhcp_v4_discover mac xid broadcast hostname) = options_bytes l ++ [255] ∧
    head l = Some (DhcpOpt 53 [1]) ∧ DhcpOpt 61 (1 :: mac) ∈ l ∧ DhcpOpt 55 PARAMETERS ∈ l.
Proof.
  intros Hm. destruct mac as [|m0 [|m1 [|m2 [|m3 [|m4 [|m5 [|]]]]]]]; try done.
  exists ([DhcpOpt 53 [1]] ++ match hostname with Some [] | None => [] | Some host => [DhcpOpt 12 (take 255 host)] end
          ++ [DhcpOpt 61 [1; m0; m1; m2; m3; m4; m5]; DhcpOpt 55 PARAMETERS]).
  split_and!.
  - apply Forall_app. split; [repeat constructor; try done; cbn; lia|]. apply Forall_app. split; [|repeat constructor; try done; cbn; lia].
    destruct hostname as [[|h host]|]; constructor; [|done]. split_and!; [done|done|]. rewrite length_take. lia.
  - unfold dhcp_v4_discover. pose proof (length_be_bytes 4 xid) as Hx.
    destruct (be_bytes 4 xid) as [|x0 [|x1 [|x2 [|x3 [|]]]]]; try done.
    destruct hostname as [[|h host]|]; cbn [app drop replicate MAGIC_COOKIE]; try reflexivity.
    cbn [options_bytes mbind list_bind option_bytes app]. cbn. by rewrite <- ?app_assoc.
  - done.
  - rewrite !elem_of_app. right. right. left.
  - rewrite !elem_of_app. right. right. right. left.
Qed.

Example discover_test :
  drop 240 (dhcp_v4_discover [2; 17; 34; 51; 68; 85] 305419896 true (Some (text_of "router")))
  = [53; 1; 1; 12; 6] ++ text_of "router" ++ [61; 7; 1; 2; 17; 34; 51; 68; 85]
    ++ [55; 14; 1; 3; 6; 15; 31; 33; 44; 46; 47; 119; 121; 28; 2; 12; 255].
Proof. vm_compute. reflexivity. Qed.

Definition route_table : text :=
  text_of "Iface Destination Gateway Flags RefCnt Use Metric Mask" ++ [10]
  ++ text_of "wlan0 00000000 0101A8C0 0003 0 0 600 00000000 0 0 0" ++ [10]
  ++ text_of "eth0 00000000 0100000A 0003 0 0 100 00000000 0 0 0" ++ [10]
  ++ text_of "eth0 0000000A 00000000 0001 0 0 100 00FFFFFF 0 0 0" ++ [10].

Example routes_test :
  default_routes true route_table = [mkRoute (text_of "eth0") 167772161; mkRoute (text_of "wlan0") 3232235777] ∧
  parse_mac (text_of "02:11:22:33:44:55" ++ [10]) = Some [2; 17; 34; 51; 68; 85] ∧
  parse_mac (text_of "00:00:00:00:00:00") = None ∧ parse_mac (text_of "02:11:22") = None.
Proof. vm_compute. repeat split. Qed.
