(* ===== verification/DomainRule.v ===== *)
(** * Domain rules ([config/domain_rule.rs])

    A rule's options, how a later line extends a rule ([AddAssign]) and how a
    rule takes what it does not set from its parent domain's ([inherit]). *)

From S2P Require Import Prelude Names Config.

Record DomainRule (Name : Type) := mkRule {
  nameserver : option string;
  address : option AddressRuleValue;
  cname : option (Ignorable Name);
  srv : option (SRV Name);
  txt : option (list TXT);
  https : option (HttpsRecordRule Name);
  speed_check_mode : option SpeedCheckModeList;
  dualstack_ip_selection : option bool;
  response_mode : option ResponseMode;
  rule_no_cache : option bool;
  rule_no_serve_expired : option bool;
  nftset : option (list (ConfigForIP NFTsetConfig));
  ipset : option (list (ConfigForIP KernelIpSet));
  rr_ttl : option Z;
  rr_ttl_min : option Z;
  rr_ttl_max : option Z;
  subnet : option ClientSubnet;
  recheck_nameserver : option string;
  recheck_ip_set : option string;
}.
Arguments nameserver {Name} _.
Arguments address {Name} _.
Arguments cname {Name} _.
Arguments srv {Name} _.
Arguments txt {Name} _.
Arguments https {Name} _.
Arguments speed_check_mode {Name} _.
Arguments dualstack_ip_selection {Name} _.
Arguments response_mode {Name} _.
Arguments rule_no_cache {Name} _.
Arguments rule_no_serve_expired {Name} _.
Arguments nftset {Name} _.
Arguments ipset {Name} _.
Arguments rr_ttl {Name} _.
Arguments rr_ttl_min {Name} _.
Arguments rr_ttl_max {Name} _.
Arguments subnet {Name} _.
Arguments recheck_nameserver {Name} _.
Arguments recheck_ip_set {Name} _.

#[global] Instance TXT_eq_dec : EqDecision TXT := _ : EqDecision (list (list Z)).
#[global] Instance DomainRule_eq_dec {Name} `{EqDecision Name} : EqDecision (DomainRule Name).
Proof. solve_decision. Defined.

Section DomainRule.
Context {Name : Type}.
Implicit Types (r : DomainRule Name).

Definition rule_default : DomainRule Name :=
  mkRule Name None None None None None None None None None None None None None None None None
    None None None.

(** [fill!]: an unset option takes the parent's. *)
Definition fill {A} (own parent : option A) : option A :=
  if is_none own then parent else own.

(** [if c { fill!(..) }] *)
Definition fill_if {A} (c : bool) (own parent : option A) : option A :=
  if c then fill own parent else own.

Definition has_ttl r : bool :=
  negb (is_none (rr_ttl r) && is_none (rr_ttl_min r) && is_none (rr_ttl_max r)).

Definition inherit (self parent : DomainRule Name) : DomainRule Name :=
  let recheck := is_none (nameserver self) in
  let ttl := is_none (rr_ttl self) && is_none (rr_ttl_min self) && is_none (rr_ttl_max self) in
  {| nameserver := fill (nameserver self) (nameserver parent);
     address := fill (address self) (address parent);
     cname := fill (cname self) (cname parent);
     srv := fill (srv self) (srv parent);
     txt := fill (txt self) (txt parent);
     https := fill (https self) (https parent);
     speed_check_mode := fill (speed_check_mode self) (speed_check_mode parent);
     dualstack_ip_selection := fill (dualstack_ip_selection self) (dualstack_ip_selection parent);
     response_mode := fill (response_mode self) (response_mode parent);
     rule_no_cache := fill (rule_no_cache self) (rule_no_cache parent);
     rule_no_serve_expired := fill (rule_no_serve_expired self) (rule_no_serve_expired parent);
     nftset := fill (nftset self) (nftset parent);
     ipset := fill (ipset self) (ipset parent);
     rr_ttl := fill_if ttl (rr_ttl self) (rr_ttl parent);
     rr_ttl_min := fill_if ttl (rr_ttl_min self) (rr_ttl_min parent);
     rr_ttl_max := fill_if ttl (rr_ttl_max self) (rr_ttl_max parent);
     subnet := fill (subnet self) (subnet parent);
     recheck_nameserver := fill_if recheck (recheck_nameserver self) (recheck_nameserver parent);
     recheck_ip_set := fill_if recheck (recheck_ip_set self) (recheck_ip_set parent);
  |}.

(** [if rhs.f.is_some() { self.f = rhs.f }] *)
Definition set_some {A} (self rhs : option A) : option A := if is_some rhs then rhs else self.

Definition rule_add_assign (self rhs : DomainRule Name) : DomainRule Name := {|
  nameserver := set_some (nameserver self) (nameserver rhs);
  address := set_some (address self) (address rhs);
  cname := set_some (cname self) (cname rhs);
  srv := set_some (srv self) (srv rhs);
  txt := match txt rhs with
         | Some t => Some (opt_unwrap_or [] (txt self) ++ t)
         | None => txt self
         end;
  https := set_some (https self) (https rhs);
  speed_check_mode := set_some (speed_check_mode self) (speed_check_mode rhs);
  dualstack_ip_selection := set_some (dualstack_ip_selection self) (dualstack_ip_selection rhs);
  response_mode := set_some (response_mode self) (response_mode rhs);
  rule_no_cache := set_some (rule_no_cache self) (rule_no_cache rhs);
  rule_no_serve_expired := set_some (rule_no_serve_expired self) (rule_no_serve_expired rhs);
  nftset := set_some (nftset self) (nftset rhs);
  ipset := opt_or (ipset rhs) (ipset self);
  rr_ttl := set_some (rr_ttl self) (rr_ttl rhs);
  rr_ttl_min := set_some (rr_ttl_min self) (rr_ttl_min rhs);
  rr_ttl_max := opt_or (rr_ttl_max rhs) (rr_ttl_max self);
  subnet := set_some (subnet self) (subnet rhs);
  recheck_nameserver := set_some (recheck_nameserver self) (recheck_nameserver rhs);
  recheck_ip_set := set_some (recheck_ip_set self) (recheck_ip_set rhs);
|}.

(** Assignments of one option. *)
Definition set_address r (v : AddressRuleValue) : DomainRule Name :=
  mkRule Name (nameserver r) (Some v) (cname r) (srv r) (txt r) (https r) (speed_check_mode r)
    (dualstack_ip_selection r) (response_mode r) (rule_no_cache r) (rule_no_serve_expired r)
    (nftset r) (ipset r) (rr_ttl r) (rr_ttl_min r) (rr_ttl_max r) (subnet r)
    (recheck_nameserver r) (recheck_ip_set r).
Definition set_nameserver r (v : string) : DomainRule Name :=
  mkRule Name (Some v) (address r) (cname r) (srv r) (txt r) (https r) (speed_check_mode r)
    (dualstack_ip_selection r) (response_mode r) (rule_no_cache r) (rule_no_serve_expired r)
    (nftset r) (ipset r) (rr_ttl r) (rr_ttl_min r) (rr_ttl_max r) (subnet r)
    (recheck_nameserver r) (recheck_ip_set r).
Definition set_cname r (v : Ignorable Name) : DomainRule Name :=
  mkRule Name (nameserver r) (address r) (Some v) (srv r) (txt r) (https r) (speed_check_mode r)
    (dualstack_ip_selection r) (response_mode r) (rule_no_cache r) (rule_no_serve_expired r)
    (nftset r) (ipset r) (rr_ttl r) (rr_ttl_min r) (rr_ttl_max r) (subnet r)
    (recheck_nameserver r) (recheck_ip_set r).
Definition set_srv r (v : SRV Name) : DomainRule Name :=
  mkRule Name (nameserver r) (address r) (cname r) (Some v) (txt r) (https r)
    (speed_check_mode r) (dualstack_ip_selection r) (response_mode r) (rule_no_cache r)
    (rule_no_serve_expired r) (nftset r) (ipset r) (rr_ttl r) (rr_ttl_min r) (rr_ttl_max r)
    (subnet r) (recheck_nameserver r) (recheck_ip_set r).
Definition set_https r (v : HttpsRecordRule Name) : DomainRule Name :=
  mkRule Name (nameserver r) (address r) (cname r) (srv r) (txt r) (Some v) (speed_check_mode r)
    (dualstack_ip_selection r) (response_mode r) (rule_no_cache r) (rule_no_serve_expired r)
    (nftset r) (ipset r) (rr_ttl r) (rr_ttl_min r) (rr_ttl_max r) (subnet r)
    (recheck_nameserver r) (recheck_ip_set r).
Definition set_nftset r (v : list (ConfigForIP NFTsetConfig)) : DomainRule Name :=
  mkRule Name (nameserver r) (address r) (cname r) (srv r) (txt r) (https r)
    (speed_check_mode r) (dualstack_ip_selection r) (response_mode r) (rule_no_cache r)
    (rule_no_serve_expired r) (Some v) (ipset r) (rr_ttl r) (rr_ttl_min r) (rr_ttl_max r)
    (subnet r) (recheck_nameserver r) (recheck_ip_set r).

(** ** Inheritance along a chain of parent domains

    [chain] goes from the most specific rule to the most general. *)
Fixpoint inherit_chain (chain : list (DomainRule Name)) : DomainRule Name :=
  match chain with
  | [] => rule_default
  | r :: chain => inherit r (inherit_chain chain)
  end.

Lemma fill_opt_or {A} (a b : option A) : fill a b = opt_or a b.
Proof. by destruct a. Qed.

Lemma fill_assoc {A} (a b c : option A) : fill (fill a b) c = fill a (fill b c).
Proof. by destruct a, b. Qed.

Lemma set_some_opt_or {A} (a b : option A) : set_some a b = opt_or b a.
Proof. by destruct b. Qed.

Lemma opt_or_assoc {A} (a b c : option A) : opt_or (opt_or a b) c = opt_or a (opt_or b c).
Proof. by destruct a. Qed.

Lemma opt_or_None_r {A} (a : option A) : opt_or a None = a.
Proof. by destruct a. Qed.

Lemma rule_eta r1 r2 :
  nameserver r1 = nameserver r2 → address r1 = address r2 → cname r1 = cname r2 →
  srv r1 = srv r2 → txt r1 = txt r2 → https r1 = https r2 →
  speed_check_mode r1 = speed_check_mode r2 →
  dualstack_ip_selection r1 = dualstack_ip_selection r2 → response_mode r1 = response_mode r2 →
  rule_no_cache r1 = rule_no_cache r2 → rule_no_serve_expired r1 = rule_no_serve_expired r2 →
  nftset r1 = nftset r2 → ipset r1 = ipset r2 →
  rr_ttl r1 = rr_ttl r2 → rr_ttl_min r1 = rr_ttl_min r2 → rr_ttl_max r1 = rr_ttl_max r2 →
  subnet r1 = subnet r2 → recheck_nameserver r1 = recheck_nameserver r2 →
  recheck_ip_set r1 = recheck_ip_set r2 → r1 = r2.
Proof. destruct r1, r2. simpl. by intros; subst. Qed.

(** Inheriting from a rule that has itself inherited is inheriting twice. *)
Lemma inherit_assoc r p g : inherit (inherit r p) g = inherit r (inherit p g).
Proof.
  apply rule_eta; simpl; try apply fill_assoc;
    unfold fill_if, fill;
    repeat match goal with |- context [is_none ?x] => is_var x || destruct x eqn:?; simpl end;
    simpl in *; done.
Qed.

(** *** What a chain of rules gives *)

(** The options taken one by one from the most specific rule that sets them. *)
Inductive plain_option : ∀ A, (DomainRule Name → option A) → Prop :=
| po_nameserver : plain_option _ nameserver
| po_address : plain_option _ address
| po_cname : plain_option _ cname
| po_srv : plain_option _ srv
| po_txt : plain_option _ txt
| po_https : plain_option _ https
| po_speed_check_mode : plain_option _ speed_check_mode
| po_dualstack : plain_option _ dualstack_ip_selection
| po_response_mode : plain_option _ response_mode
| po_no_cache : plain_option _ rule_no_cache
| po_no_serve_expired : plain_option _ rule_no_serve_expired
| po_nftset : plain_option _ nftset
| po_ipset : plain_option _ ipset
| po_subnet : plain_option _ subnet.

(** The three TTL options of a rule. *)
Definition ttl_slot r : option Z * option Z * option Z := (rr_ttl r, rr_ttl_min r, rr_ttl_max r).

(** The rules of a chain down to the first that names its own servers. *)
Fixpoint until_nameserver (chain : list (DomainRule Name)) : list (DomainRule Name) :=
  match chain with
  | [] => []
  | r :: chain => r :: if is_none (nameserver r) then until_nameserver chain else []
  end.

Lemma inherit_plain {A} (f : DomainRule Name → option A) r p :
  plain_option A f → f (inherit r p) = opt_or (f r) (f p).
Proof. destruct 1; apply fill_opt_or. Qed.

Lemma inherit_ttl_slot r p :
  ttl_slot (inherit r p) = if has_ttl r then ttl_slot r else ttl_slot p.
Proof.
  unfold ttl_slot, has_ttl, fill_if, fill. simpl.
  by destruct (rr_ttl r), (rr_ttl_min r), (rr_ttl_max r).
Qed.

Lemma inherit_recheck r p :
  (recheck_nameserver (inherit r p), recheck_ip_set (inherit r p)) =
  if is_none (nameserver r)
  then (opt_or (recheck_nameserver r) (recheck_nameserver p),
        opt_or (recheck_ip_set r) (recheck_ip_set p))
  else (recheck_nameserver r, recheck_ip_set r).
Proof. simpl. unfold fill_if. case_match; by rewrite ?fill_opt_or. Qed.

(** What a rule ends up with along a chain of parent domains, most specific
    first: every plain option from the first rule that sets it; the three TTL
    options together from the first rule that sets any of them; the recheck
    options from the rules down to the first that names its own servers, so a
    parent's recheck never applies to a child with other servers. *)
Theorem inherit_chain_options (chain : list (DomainRule Name)) :
  (∀ A (f : DomainRule Name → option A), plain_option A f →
    f (inherit_chain chain) = first_some (f <$> chain)) ∧
  ttl_slot (inherit_chain chain) = opt_map_or (None, None, None) ttl_slot (find_first has_ttl chain) ∧
  recheck_nameserver (inherit_chain chain) = first_some (recheck_nameserver <$> until_nameserver chain) ∧
  recheck_ip_set (inherit_chain chain) = first_some (recheck_ip_set <$> until_nameserver chain).
Proof.
  induction chain as [|r chain (IH1 & IH2 & IH3 & IH4)].
  { split; [by destruct 1|done]. }
  cbn [inherit_chain]. split; [|split].
  - intros A f Hf. rewrite (inherit_plain f) by done. rewrite (IH1 A f Hf). by cbn; destruct (f r).
  - rewrite inherit_ttl_slot, IH2. cbn. by destruct (has_ttl r).
  - pose proof (inherit_recheck r (inherit_chain chain)) as Hrc. rewrite IH3, IH4 in Hrc.
    cbn [until_nameserver fmap list_fmap first_some].
    apply pair_equal_spec. rewrite Hrc.
    by destruct (is_none (nameserver r)), (recheck_nameserver r), (recheck_ip_set r).
Qed.
End DomainRule.
