(* ===== verification/DomainRuleTree.v ===== *)
(** * The tree of domain rules ([dns_rule.rs])

    [DomainRuleMap::create] collects the rules of every name, sorts the names
    parents first and builds the index, each node with the rule merged from its
    parent's. Equal rules are interned by hash and merges are memoised by the
    addresses of the shared rules: the model keeps both, with an explicit
    store of shared rules. Then the groups of rules ([config/rule_group.rs]). *)

From S2P Require Import Prelude Names DomainMap DomainMapSpec Config DomainRule.

(** ** Nodes *)
Inductive TreeNode (R : Type) := mkNode (rule : R) (zone : option (TreeNode R)).
Arguments mkNode {R} _ _.

Definition node_rule {R} (n : TreeNode R) : R := match n with mkNode r _ => r end.
Definition node_zone {R} (n : TreeNode R) : option (TreeNode R) := match n with mkNode _ z => z end.

(** [DomainRuleGetter] for a node: the node, then its zone; for the
    [Option<Arc<..>>] of a context: the node only. *)
Definition node_get {R A} (f : TreeNode R → option A) (n : TreeNode R) : option A :=
  opt_or (f n) (z ← node_zone n; f z).
Definition opt_node_get {R A} (f : TreeNode R → option A) (n : option (TreeNode R)) : option A :=
  n ← n; f n.

(** ** Configuration input *)
Inductive Domain (Name : Type) := DName (w : WildcardName Name) | DSet (s : string).
Arguments DName {Name} _.
Arguments DSet {Name} _.

Record RuleInputs (Name : Type) := mkInputs {
  in_domain_rules : list (Domain Name * DomainRule Name);
  in_address_rules : list (Domain Name * AddressRuleValue);
  in_forward_rules : list (Domain Name * string);
  in_cnames : list (Domain Name * Ignorable Name);
  in_srv_records : list (Domain Name * SRV Name);
  in_https_records : list (Domain Name * HttpsRecordRule Name);
  in_nftsets : list (Domain Name * list (ConfigForIP NFTsetConfig));
  in_domain_sets : gmap string (list (WildcardName Name));
}.
Arguments mkInputs {Name} _ _ _ _ _ _ _ _.
Arguments in_domain_rules {Name} _.
Arguments in_address_rules {Name} _.
Arguments in_forward_rules {Name} _.
Arguments in_cnames {Name} _.
Arguments in_srv_records {Name} _.
Arguments in_https_records {Name} _.
Arguments in_nftsets {Name} _.
Arguments in_domain_sets {Name} _.

(** The elements of a list in the order of the given positions. *)
Definition reorder {A} (perm : list nat) (l : list A) : list A := omap (fun i => l !! i) perm.

Section Rules.
Context {Name : Type} `{NameLib Name}.
Implicit Types (w : WildcardName Name).

Definition expand_domain (d : Domain Name) (sets : gmap string (list (WildcardName Name)))
    : list (WildcardName Name) :=
  match d with
  | DName w => [w]
  | DSet s => default [] (sets !! s)
  end.

(** [Eq] on wildcard names: same kind, pattern and name. *)
Definition wn_eqb w1 w2 : bool :=
  match w1, w2 with
  | WDefault a, WDefault b | WSuffix a, WSuffix b | WFull a, WFull b => name_eqb a b
  | WSub p a, WSub q b => bool_decide (p = q) && name_eqb a b
  | _, _ => false
  end.

(** A hash map as an association list; the order is that of first insertion. *)
Fixpoint assoc_get {V} (m : list (WildcardName Name * V)) w : option V :=
  match m with
  | [] => None
  | (w', v) :: m => if wn_eqb w' w then Some v else assoc_get m w
  end.
Fixpoint assoc_set {V} (m : list (WildcardName Name * V)) w (v : V) : list (WildcardName Name * V) :=
  match m with
  | [] => [(w, v)]
  | (w', v') :: m => if wn_eqb w' w then (w', v) :: m else (w', v') :: assoc_set m w v
  end.

(** Every update of a name's rule, in the order [create] makes them. *)
Definition rule_updates (inp : RuleInputs Name)
    : list (WildcardName Name * (DomainRule Name → DomainRule Name)) :=
  let each {C} (l : list (Domain Name * C)) (upd : C → DomainRule Name → DomainRule Name) :=
    e ← l; (fun w => (w, upd e.2)) <$> expand_domain e.1 (in_domain_sets inp) in
  each (in_domain_rules inp) (fun c r => rule_add_assign r c) ++
  each (in_address_rules inp) (fun c r => set_address r c) ++
  each (in_forward_rules inp) (fun c r => set_nameserver r c) ++
  each (in_cnames inp) (fun c r => set_cname r c) ++
  each (in_srv_records inp) (fun c r => set_srv r c) ++
  each (in_https_records inp) (fun c r => set_https r c) ++
  each (in_nftsets inp) (fun c r => set_nftset r c).

(** ** Order and zones *)
Definition inherit_order w : Z :=
  match w with WDefault _ => 0 | WSuffix _ => 1 | WSub _ _ => 2 | WFull _ => 3 end.

(** The key of the second sort: labels, then kind. *)
Definition parents_first_key w : Z :=
  4 * Z.of_nat (length (name_iter (wn_deref w))) + inherit_order w.

Definition sort_items {V} (items : list (WildcardName Name * V)) : list (WildcardName Name * V) :=
  sort_by (fun a b => parents_first_key a.1 <=? parents_first_key b.1)
    (sort_by (fun a b => match wn_cmp a.1 b.1 with Gt => false | _ => true end) items).

Section Create.
Variable hash : Z → list Z → Z.
Variable wm : list Z → list Z → bool.
(** [hash_code] of a rule. *)
Variable hash_code : DomainRule Name → Z.

Definition zone_of {V} (rules : DomainMap V) w : option V :=
  let same_name :=
    match w with
    | WDefault _ => None
    | WSub _ n => opt_or (dm_get_exact hash rules (WSuffix n)) (dm_get_exact hash rules (WDefault n))
    | WSuffix n | WFull n => dm_get_exact hash rules (WDefault n)
    end in
  opt_or same_name
    (if name_is_root (wn_deref w) then None
     else dm_find hash wm rules (name_base_name (wn_deref w))).

(** *** Shared rules: a store, and the index by hash *)
Record Arcs := mkArcs { arc_store : list (DomainRule Name); arc_map : gmap Z nat }.

Definition arc_get (st : Arcs) (p : nat) : DomainRule Name := default rule_default (arc_store st !! p).

(** [rule_map.entry(rule.hash_code()).or_insert_with(|| Arc::new(rule)).clone()] *)
Definition intern (st : Arcs) (r : DomainRule Name) : Arcs * nat :=
  match arc_map st !! hash_code r with
  | Some p => (st, p)
  | None =>
      let p := length (arc_store st) in
      (mkArcs (arc_store st ++ [r]) (<[hash_code r:=p]> (arc_map st)), p)
  end.

Definition update_rule (acc : list (WildcardName Name * nat) * Arcs)
    (u : WildcardName Name * (DomainRule Name → DomainRule Name))
    : list (WildcardName Name * nat) * Arcs :=
  let '(rules, st) := acc in
  let rule := match assoc_get rules u.1 with Some p => arc_get st p | None => rule_default end in
  let '(st, p) := intern st (u.2 rule) in
  (assoc_set rules u.1 p, st).

Record CreateState := mkCreate {
  cs_arcs : Arcs;
  cs_rules : DomainMap (TreeNode nat);
  cs_inherited : gmap (nat * nat) nat;
}.

Definition create_step (cs : CreateState) (item : WildcardName Name * nat) : CreateState :=
  let '(name, p) := item in
  let zone := zone_of (cs_rules cs) name in
  let '(cs, q) :=
    match zone with
    | Some z =>
        match cs_inherited cs !! (node_rule z, p) with
        | Some q => (cs, q)
        | None =>
            let '(st, q) := intern (cs_arcs cs)
              (inherit (arc_get (cs_arcs cs) p) (arc_get (cs_arcs cs) (node_rule z))) in
            (mkCreate st (cs_rules cs) (<[(node_rule z, p):=q]> (cs_inherited cs)), q)
        end
    | None => (cs, p)
    end in
  mkCreate (cs_arcs cs) (dm_insert hash (cs_rules cs) name (mkNode q zone)).1 (cs_inherited cs).

(** [DomainRuleMap::create], from the shared rules of earlier groups; [perm] is
    the order in which the hash map of rules is iterated. *)
Definition create (st : Arcs) (perm : list nat) (inp : RuleInputs Name) : CreateState :=
  let '(rules, st) := fold_left update_rule (rule_updates inp) ([], st) in
  fold_left create_step (sort_items (reorder perm rules)) (mkCreate st dm_empty ∅).

(** *** The same construction without sharing; the rules made on the way are
    collected in [trace]. *)
Definition update_rule_ref
    (acc : list (WildcardName Name * DomainRule Name) * list (DomainRule Name))
    (u : WildcardName Name * (DomainRule Name → DomainRule Name)) :=
  let '(rules, trace) := acc in
  let rule := u.2 (opt_unwrap_or rule_default (assoc_get rules u.1)) in
  (assoc_set rules u.1 rule, trace ++ [rule]).

Definition ref_rule (rules : DomainMap (TreeNode (DomainRule Name))) w (own : DomainRule Name)
    : DomainRule Name :=
  match zone_of rules w with
  | Some z => inherit own (node_rule z)
  | None => own
  end.

Definition create_step_ref
    (acc : DomainMap (TreeNode (DomainRule Name)) * list (DomainRule Name))
    (item : WildcardName Name * DomainRule Name) :=
  let '(rules, trace) := acc in
  let r := ref_rule rules item.1 item.2 in
  ((dm_insert hash rules item.1 (mkNode r (zone_of rules item.1))).1, trace ++ [r]).

Definition create_ref (perm : list nat) (inp : RuleInputs Name) : DomainMap (TreeNode (DomainRule Name)) * list (DomainRule Name) :=
  let '(rules, trace) := fold_left update_rule_ref (rule_updates inp) ([], []) in
  fold_left create_step_ref (sort_items (reorder perm rules)) (dm_empty, trace).
End Create.
End Rules.

(** * Groups of rules ([config/rule_group.rs])

    The rules of the configuration between a [group-begin] and its [group-end],
    and what happens when a group is opened again: its rules are added after those
    that are there, and its options replace those that were set. *)

(** Options of the kernel's sets ([config/mod.rs]). *)
Record NetworkSetOptions := mkNetSets {
  net_ipset_timeout : option bool;
  net_nftset_timeout : option bool;
  net_ipset_no_speed : option (list (ConfigForIP KernelIpSet));
  net_nftset_no_speed : option (list (ConfigForIP NFTsetConfig));
}.
Definition net_sets_default : NetworkSetOptions := mkNetSets None None None None.

Section RuleGroup.
Context {Name : Type}.

Record RuleGroup := mkGroup {
  rg_network_sets : NetworkSetOptions;
  rg_nftsets : list (Domain Name * list (ConfigForIP NFTsetConfig));
  rg_forward_rules : list (Domain Name * string);
  rg_address_rules : list (Domain Name * AddressRuleValue);
  rg_domain_rules : list (Domain Name * DomainRule Name);
  rg_cnames : list (Domain Name * Ignorable Name);
  rg_srv_records : list (Domain Name * SRV Name);
  rg_https_records : list (Domain Name * HttpsRecordRule Name);
}.

Definition group_default : RuleGroup := mkGroup net_sets_default [] [] [] [] [] [] [].

Definition net_sets_merge (self other : NetworkSetOptions) : NetworkSetOptions :=
  mkNetSets (opt_or (net_ipset_timeout other) (net_ipset_timeout self))
    (opt_or (net_nftset_timeout other) (net_nftset_timeout self))
    (opt_or (net_ipset_no_speed other) (net_ipset_no_speed self))
    (opt_or (net_nftset_no_speed other) (net_nftset_no_speed self)).

(** [RuleGroup::merge] *)
Definition group_merge (self other : RuleGroup) : RuleGroup :=
  mkGroup (net_sets_merge (rg_network_sets self) (rg_network_sets other))
    (rg_nftsets self ++ rg_nftsets other) (rg_forward_rules self ++ rg_forward_rules other)
    (rg_address_rules self ++ rg_address_rules other) (rg_domain_rules self ++ rg_domain_rules other)
    (rg_cnames self ++ rg_cnames other) (rg_srv_records self ++ rg_srv_records other)
    (rg_https_records self ++ rg_https_records other).

(** [Domain]'s equality; names are compared without case. *)
Definition domain_eqb `{NameLib Name} (a b : Domain Name) : bool :=
  match a, b with
  | DName a, DName b => wn_eqb a b
  | DSet a, DSet b => bool_decide (a = b)
  | _, _ => false
  end.

(** [cnames.dedup_by(|a, b| a.domain == b.domain)]: of consecutive rules for one
    domain the first stays. *)
Fixpoint dedup_after `{NameLib Name} (kept : Domain Name) (l : list (Domain Name * Ignorable Name))
    : list (Domain Name * Ignorable Name) :=
  match l with
  | [] => []
  | b :: l => if domain_eqb b.1 kept then dedup_after kept l else b :: dedup_after b.1 l
  end.
Definition dedup_cnames `{NameLib Name} (l : list (Domain Name * Ignorable Name)) : list (Domain Name * Ignorable Name) :=
  match l with [] => [] | a :: l => a :: dedup_after a.1 l end.

Definition group_set_cnames (l : list (Domain Name * Ignorable Name)) (g : RuleGroup) : RuleGroup :=
  mkGroup (rg_network_sets g) (rg_nftsets g) (rg_forward_rules g) (rg_address_rules g) (rg_domain_rules g) l
    (rg_srv_records g) (rg_https_records g).

(** The arguments [DomainRuleMap::create] gets from a group. *)
Definition group_inputs (sets : gmap string (list (WildcardName Name))) (g : RuleGroup) : RuleInputs Name :=
  mkInputs (rg_domain_rules g) (rg_address_rules g) (rg_forward_rules g) (rg_cnames g) (rg_srv_records g)
    (rg_https_records g) (rg_nftsets g) sets.

(** *** Merging is associative, and an empty group changes nothing. *)
Lemma group_merge_assoc g1 g2 g3 : group_merge g1 (group_merge g2 g3) = group_merge (group_merge g1 g2) g3.
Proof. unfold group_merge, net_sets_merge. cbn. by rewrite !(assoc_L (++)), !opt_or_assoc. Qed.

Lemma group_merge_default_l g : group_merge group_default g = g.
Proof. destruct g as [[[] [] [] []]]; done. Qed.

Lemma group_merge_default_r g : group_merge g group_default = g.
Proof. destruct g as [[]]. unfold group_merge, net_sets_merge. cbn. by rewrite !app_nil_r. Qed.
End RuleGroup.
Arguments RuleGroup Name : clear implicits.
