(* ===== verification/DomainRuleZones.v ===== *)
(** * The zones of the rule tree

    The finished tree solves its own defining equation: every configured name
    is found with the rule merged from its own rule and from the rule of the
    node [zone_of] gives in the finished index. The parents-first order of
    [DomainRuleMap::create] is what makes this true: a name is inserted after
    everything its zone depends on. *)

From S2P Require Import Prelude Names DomainMap DomainMapSpec Config DomainRule DomainRuleTree.

(** ** Reads after an insert in the abstract index *)
Section Reads.
Context {Name : Type} `{NameLaws Name}.
Variable wm : list Z → list Z → bool.
Context {T : Type}.
Implicit Types (s : SpecMap T) (w : WildcardName Name).

Lemma subs_replace_find (subs : list (Wildcard * T)) p v q subs' old :
  subs_replace subs p v = Some (subs', old) →
  find_first (fun x => bool_decide (x.1 = q)) subs' =
  if bool_decide (p = q) then Some (p, v) else find_first (fun x => bool_decide (x.1 = q)) subs.
Proof.
  revert subs'. induction subs as [|[p0 u0] subs IH]; [done|]. intros subs'. cbn.
  destruct (decide (p0 = p)) as [->|E]; [rewrite (bool_decide_true (p = p)) by done|rewrite (bool_decide_false (p0 = p)) by done].
  - intros [= <- <-]. cbn. by case_bool_decide.
  - destruct (subs_replace subs p v) as [[subs1 old1]|] eqn:E1; [|done]. intros [= <- <-]. cbn.
    rewrite (IH _ eq_refl). repeat case_bool_decide; congruence.
Qed.

Lemma sm_get_exact_insert s w v w' :
  valid_labels (wn_labels w) = true →
  sm_get_exact (sm_insert s w v).1 w' =
  if bool_decide (rule_id w = rule_id w') then Some v else sm_get_exact s w'.
Proof.
  intros Hv. unfold sm_insert. rewrite Hv. cbn [negb].
  case_bool_decide as E.
  - assert (Hk : wn_key w = wn_key w') by (unfold rule_id in E; congruence).
    assert (Hl : wn_labels w = wn_labels w') by (unfold wn_key in Hk; congruence).
    unfold sm_get_exact. rewrite <- Hl, Hv. cbn [negb].
    destruct w as [n|n|p n|n], w' as [n'|n'|p' n'|n']; try discriminate E; cbn [sm_map fst];
      try (rewrite <- Hk; by rewrite lookup_insert_eq).
    assert (p' = p) as -> by (unfold rule_id in E; congruence).
    destruct (subs_replace _ _ _) as [[subs old]|] eqn:Er; cbn [sm_subs fst];
      rewrite lookup_insert_eq; cbn.
    + rewrite (subs_replace_find _ _ _ _ _ _ Er), bool_decide_true by done. done.
    + rewrite find_first_app. cbn. rewrite (bool_decide_true (p = p)) by done.
      destruct (find_first _ _) as [[q u]|] eqn:Ef; [|done]. exfalso.
      apply find_first_Some in Ef as [Hin Hq]. apply bool_decide_eq_true in Hq. cbn in Hq. subst.
      apply (subs_replace_None _ _ _ Er). apply list_elem_of_fmap. by exists (p, u).
  - unfold sm_get_exact. destruct (negb (valid_labels (wn_labels w'))); [done|].
    destruct w as [n|n|p n|n], w' as [n'|n'|p' n'|n']; cbn [sm_map sm_subs fst];
      try done;
      try (rewrite lookup_insert_ne; [done|]; intros Hk; apply E; unfold rule_id; by rewrite Hk).
    all: try (destruct (subs_replace _ _ _) as [[subs old]|]; done).
    set (ls := wn_labels (WSub p n)). set (ls' := wn_labels (WSub p' n')) in *.
    destruct (decide (ls = ls')) as [El|Hl].
    2: { destruct (subs_replace _ _ _) as [[subs old]|]; cbn [sm_subs fst]; by rewrite lookup_insert_ne. }
    assert (Hp : p ≠ p').
    { intros ->. apply E. unfold rule_id, wn_key. by fold ls ls'; rewrite El. }
    rewrite <- El. destruct (subs_replace _ _ _) as [[subs old]|] eqn:Er; cbn [sm_subs fst];
      rewrite lookup_insert_eq; cbn.
    + rewrite (subs_replace_find _ _ _ _ _ _ Er), bool_decide_false by done.
      destruct (sm_subs s !! ls); [done|discriminate Er].
    + rewrite find_first_app. cbn. rewrite (bool_decide_false (p = p')) by done.
      destruct (sm_subs s !! ls); cbn; [|done]. by destruct (find_first _ _).
Qed.

(** A search reads only rules with at most as many labels as the query. *)
Lemma sm_find_insert_longer s w v n :
  (length (query_labels n) < length (wn_labels w))%nat →
  sm_find wm (sm_insert s w v).1 n = sm_find wm s n.
Proof.
  intros Hlen. unfold sm_find. case_match; [done|].
  set (ls := query_labels n) in *. set (s' := (sm_insert s w v).1).
  assert (Hm : ∀ k l, (length l ≤ length ls)%nat → sm_map s' !! (k, l) = sm_map s !! (k, l)).
  { intros k l Hl. subst s'. unfold sm_insert. case_match; [done|].
    assert (Hne : wn_key w ≠ (k, l)) by (unfold wn_key; intros [= _ <-]; lia).
    destruct w; try (case_match; case_match; done || by rewrite lookup_insert_ne);
      cbn; try (by rewrite lookup_insert_ne). by destruct (subs_replace _ _ _) as [[]|]. }
  assert (Hs : ∀ l, (length l ≤ length ls)%nat → sm_subs s' !! l = sm_subs s !! l).
  { intros l Hl. subst s'. unfold sm_insert. case_match; [done|].
    assert (Hne : wn_labels w ≠ l) by (intros <-; lia).
    destruct w; try done. destruct (subs_replace _ _ _) as [[]|]; cbn; by rewrite lookup_insert_ne. }
  unfold cands. cbn [fmap list_fmap]. rewrite !Hm by lia. do 5 f_equal.
  apply list_fmap_ext. intros _ level _. unfold level_cands.
  rewrite !Hm, Hs by (rewrite length_drop; lia). done.
Qed.

(** ** Zones in the abstract index *)
Definition sm_zone_of s w : option T :=
  let same_name :=
    match w with
    | WDefault _ => None
    | WSub _ n => opt_or (sm_get_exact s (WSuffix n)) (sm_get_exact s (WDefault n))
    | WSuffix n | WFull n => sm_get_exact s (WDefault n)
    end in
  opt_or same_name
    (if name_is_root (wn_deref w) then None else sm_find wm s (name_base_name (wn_deref w))).

(** The keys the zone of a name depends on. *)
Definition zone_keys w : list (Z * list label) :=
  wn_key w :: (SUFFIX, wn_labels w) :: (DEFAULT, wn_labels w) ::
  query_keys (name_base_name (wn_deref w)).

(** Empty names are written as the root. *)
Definition rooted (n : Name) : bool :=
  negb (bool_decide (name_iter n = [])) || name_is_fqdn n.

Lemma base_query_shorter n :
  rooted n = true → name_is_root n = false →
  (length (query_labels (name_base_name n)) < length (name_iter n))%nat.
Proof.
  intros Hr Hroot. unfold query_labels. rewrite length_lowers, length_drop, name_base_name_iter.
  destruct (name_iter n) as [|l ls] eqn:E; [|cbn; lia]. exfalso.
  unfold rooted in Hr. rewrite E in Hr. cbn in Hr.
  assert (name_is_root n = true) by (by rewrite name_is_root_iter). congruence.
Qed.

Lemma sm_zone_insert s w v w' :
  rooted (wn_deref w') = true → valid_labels (wn_labels w) = true →
  parents_first_key w' ≤ parents_first_key w →
  sm_zone_of (sm_insert s w v).1 w' = sm_zone_of s w'.
Proof.
  intros Hr Hv Hk. unfold parents_first_key in Hk.
  assert (Ho : 0 ≤ inherit_order w ≤ 3) by (destruct w; cbn; lia).
  assert (Ho' : 0 ≤ inherit_order w' ≤ 3) by (destruct w'; cbn; lia).
  assert (Hlen : (length (name_iter (wn_deref w')) ≤ length (name_iter (wn_deref w)))%nat) by lia.
  unfold sm_zone_of. f_equal.
  - assert (Hex : ∀ u, wn_labels u = wn_labels w' → inherit_order u < inherit_order w' →
      sm_get_exact (sm_insert s w v).1 u = sm_get_exact s u).
    { intros u Hu Hou. rewrite sm_get_exact_insert, bool_decide_false; [done| |done].
      intros [= Hkind Hlab _]. assert (length (wn_labels w) = length (wn_labels w')) as Hl' by congruence.
      unfold wn_labels in Hl'. rewrite !length_lowers in Hl'.
      destruct u, w; cbn in *; try discriminate Hkind; lia. }
    destruct w'; [done|rewrite !Hex; cbn; done || lia..].
  - destruct (name_is_root (wn_deref w')) eqn:Eroot; [done|].
    apply sm_find_insert_longer. pose proof (base_query_shorter _ Hr Eroot).
    unfold wn_labels. rewrite length_lowers. lia.
Qed.
End Reads.

(** ** The finished tree *)
Section Tree.
Context {Name : Type} `{NameLaws Name}.
Variable hash : Z → list Z → Z.
Variable wm : list Z → list Z → bool.
Variable keys : list (Z * list label).
Hypothesis Hcf : collision_free hash keys.

Abbreviation Node := (TreeNode (DomainRule Name)).
Implicit Types (m : DomainMap Node) (s : SpecMap Node) (w : WildcardName Name).

Lemma zone_of_refines m s w :
  dm_rel hash keys m s → zone_keys w ⊆ keys → zone_of hash wm m w = sm_zone_of wm s w.
Proof.
  intros Hr Hk.
  assert (Hex : ∀ u, wn_labels u = wn_labels w → kind u ∈ [SUFFIX; DEFAULT] →
    dm_get_exact hash m u = sm_get_exact s u).
  { intros u Hl Hu. eapply dm_get_exact_refines; [|exact Hr]. apply Hk. unfold wn_key, zone_keys.
    rewrite Hl. rewrite !elem_of_cons in *. destruct Hu as [->|[->|[]%not_elem_of_nil]]; auto. }
  unfold zone_of, sm_zone_of. f_equal.
  - destruct w; rewrite ?Hex by (done || solve_elem); done.
  - case_match; [done|]. eapply dm_find_refines; [exact Hr|].
    intros k Hin. apply Hk. unfold zone_keys. rewrite !elem_of_cons. auto.
Qed.

(** What the names of an index being built satisfy. *)
Definition item_ok w : Prop :=
  zone_keys w ⊆ keys ∧ valid_labels (wn_labels w) = true ∧ rooted (wn_deref w) = true.

(** One step keeps the zones of what comes no later, and the other rules. *)
Lemma create_step_keeps m s trace w r :
  dm_rel hash keys m s → item_ok w →
  ∃ s', dm_rel hash keys (create_step_ref hash wm (m, trace) (w, r)).1 s' ∧
    (∀ w', rooted (wn_deref w') = true → parents_first_key w' ≤ parents_first_key w →
      sm_zone_of wm s' w' = sm_zone_of wm s w') ∧
    (∀ w', sm_get_exact s' w' =
      if bool_decide (rule_id w = rule_id w')
      then Some (mkNode (ref_rule hash wm m w r) (zone_of hash wm m w)) else sm_get_exact s w').
Proof.
  intros Hr (Hk & Hv & Hroot). eexists. split; [|split].
  - cbn [create_step_ref fst snd]. eapply (dm_insert_refines hash keys m s w); [done| |done].
    apply Hk. by left.
  - intros w' Hr' Hle. by apply sm_zone_insert.
  - intros w'. by apply sm_get_exact_insert.
Qed.

(** The equation between a configured name and the index. *)
Definition solved (m : DomainMap Node) w (r : DomainRule Name) : Prop :=
  dm_get_exact hash m w = Some (mkNode (ref_rule hash wm m w r) (zone_of hash wm m w)).

Lemma create_steps_keep items m s trace w node :
  dm_rel hash keys m s → Forall (fun i => item_ok i.1) items → item_ok w →
  Forall (fun i => parents_first_key w ≤ parents_first_key i.1) items →
  rule_id w ∉ (fun i => rule_id i.1) <$> items → dm_get_exact hash m w = Some node →
  let m' := (fold_left (create_step_ref hash wm) items (m, trace)).1 in
  dm_get_exact hash m' w = Some node ∧ zone_of hash wm m' w = zone_of hash wm m w.
Proof.
  intros Hr Hok Hw Hle Hid Hg. revert m s trace Hr Hg.
  induction items as [|[w1 r1] items IH]; intros m s trace Hr Hg; [done|].
  apply Forall_cons_1 in Hok as [Hok1 Hok]. apply Forall_cons_1 in Hle as [Hle1 Hle].
  cbn [fmap list_fmap] in Hid. apply not_elem_of_cons in Hid as [Hid1 Hid]. cbn [fst] in *.
  destruct (create_step_keeps m s trace w1 r1 Hr Hok1) as (s' & Hr' & Hz & Hx).
  destruct Hw as (Hwk & Hwv & Hwr). assert (Hkey : wn_key w ∈ keys) by (apply Hwk; by left).
  cbn [fold_left]. destruct (create_step_ref hash wm (m, trace) (w1, r1)) as [m1 tr1] eqn:E.
  cbn [fst] in Hr'. destruct (IH Hok Hle Hid m1 s' tr1 Hr') as [IH1 IH2].
  { rewrite (dm_get_exact_refines _ _ _ _ _ Hkey Hr'), Hx, bool_decide_false by congruence.
    by rewrite <- (dm_get_exact_refines _ _ _ _ _ Hkey Hr). }
  split; [done|]. rewrite IH2, (zone_of_refines m1 s'), (zone_of_refines m s) by done. by apply Hz.
Qed.

Lemma create_steps_solved items m s trace :
  dm_rel hash keys m s → Forall (fun i => item_ok i.1) items →
  StronglySorted (fun a b => parents_first_key a.1 ≤ parents_first_key b.1) items →
  NoDup ((fun i => rule_id i.1) <$> items) →
  ∀ w r, (w, r) ∈ items → solved (fold_left (create_step_ref hash wm) items (m, trace)).1 w r.
Proof.
  intros Hr Hok Hs Hnd. revert m s trace Hr.
  induction Hs as [|[w1 r1] items Hs IH Hle]; intros m s trace Hr w r Hin; [by apply not_elem_of_nil in Hin|].
  apply Forall_cons_1 in Hok as [Hok1 Hok]. cbn in Hnd. apply NoDup_cons in Hnd as [Hn Hnd]. cbn [fst] in *.
  destruct (create_step_keeps m s trace w1 r1 Hr Hok1) as (s' & Hr' & Hz & Hx).
  cbn [fold_left]. destruct (create_step_ref hash wm (m, trace) (w1, r1)) as [m1 tr1] eqn:E.
  cbn [fst] in Hr'. apply elem_of_cons in Hin as [[= -> ->]|Hin]; [|by eapply IH].
  pose proof Hok1 as (Hwk & Hwv & Hwr). assert (Hkey : wn_key w1 ∈ keys) by (apply Hwk; by left).
  destruct (create_steps_keep items m1 s' tr1 w1 (mkNode (ref_rule hash wm m w1 r1) (zone_of hash wm m w1))
    Hr' Hok Hok1) as [H1 H2]; [by eapply Forall_impl|done| |].
  { by rewrite (dm_get_exact_refines _ _ _ _ _ Hkey Hr'), Hx, bool_decide_true. }
  unfold solved. rewrite H1. unfold ref_rule.
  assert (Hzz : zone_of hash wm m1 w1 = zone_of hash wm m w1).
  { rewrite (zone_of_refines m1 s'), (zone_of_refines m s) by done. by apply Hz. }
  by rewrite H2, Hzz.
Qed.

Lemma create_ref_solved inp perm w r :
  let items := (fold_left update_rule_ref (rule_updates inp) ([], [])).1 in
  perm ≡ₚ seq 0 (length items) → Forall (fun i => item_ok i.1) items →
  NoDup ((fun i => rule_id i.1) <$> items) → (w, r) ∈ items →
  solved (create_ref hash wm perm inp).1 w r.
Proof.
  intros items Hperm Hok Hnd Hin. unfold create_ref. subst items.
  destruct (fold_left update_rule_ref (rule_updates inp) ([], [])) as [items trace]. cbn [fst] in *.
  assert (Hre : reorder perm items ≡ₚ items).
  { unfold reorder. rewrite Hperm. clear. induction items as [|x items IH]; [done|].
    cbn [length seq omap list_omap]. cbn. f_equiv. rewrite <- IH at 2.
    rewrite <- fmap_S_seq. generalize (seq 0 (length items)). clear. intros l.
    induction l as [|i l IH]; [done|]. cbn in *. by destruct (items !! i); rewrite IH. }
  assert (Hp : sort_items (reorder perm items) ≡ₚ items).
  { unfold sort_items. by rewrite !sort_by_perm. }
  eapply create_steps_solved.
  - apply dm_rel_empty.
  - by rewrite Hp.
  - by apply (sort_by_key_sorted _ (fun a => parents_first_key a.1)).
  - by rewrite Hp.
  - by rewrite Hp.
Qed.
End Tree.
