(* ===== verification/DomainRuleTreeSpec.v ===== *)
(** * Correctness of the rule tree

    Interning and memoisation change no rule; every node hangs below the node
    the finished index gives for its zone, and its rule takes each option from
    the most specific rule of its zones that sets it. *)

From S2P Require Import Prelude Names DomainMap DomainMapSpec Config DomainRule DomainRuleTree DomainRuleZones.

(** ** The index respects relations between values *)
Section Parametric.
Context {Name : Type} `{NameLib Name}.
Variable hash : Z → list Z → Z.
Variable wm : list Z → list Z → bool.
Context {A B : Type} (R : A → B → Prop).

Definition sub_sim : list (Wildcard * A) → list (Wildcard * B) → Prop :=
  Forall2 (fun a b => a.1 = b.1 ∧ R a.2 b.2).

Record dm_sim (m1 : DomainMap A) (m2 : DomainMap B) : Prop := {
  sim_map k : option_Forall2 R (dm_map m1 !! k) (dm_map m2 !! k);
  sim_subs k : option_Forall2 sub_sim (dm_subs m1 !! k) (dm_subs m2 !! k);
}.

Lemma opt_or_sim x1 x2 y1 y2 :
  option_Forall2 R x1 x2 → option_Forall2 R y1 y2 → option_Forall2 R (opt_or x1 y1) (opt_or x2 y2).
Proof. destruct 1; cbn; intros; [by constructor|done]. Qed.

Lemma find_first_sim (p : Wildcard → bool) l1 l2 :
  sub_sim l1 l2 →
  option_Forall2 R (snd <$> find_first (fun s => p s.1) l1) (snd <$> find_first (fun s => p s.1) l2).
Proof.
  induction 1 as [|[w1 v1] [w2 v2] l1 l2 [Hw Hv] _ IH]; cbn in *; [constructor|].
  subst. case_match; [by constructor|done].
Qed.

Lemma find_subs_no_check {T} (m : DomainMap T) wire first :
  (if negb (bool_decide (dm_subs m = ∅)) then find_subs hash wm m wire first else None) =
  find_subs hash wm m wire first.
Proof.
  case_bool_decide as E; [|done]. unfold find_subs. by rewrite E, lookup_empty.
Qed.

Lemma find_levels_sim m1 m2 wire first level fuel :
  dm_sim m1 m2 →
  option_Forall2 R (find_levels hash wm m1 wire first level fuel)
    (find_levels hash wm m2 wire first level fuel).
Proof.
  intros Hs. revert level. induction fuel as [|fuel IH]; intros level; [constructor|].
  cbn [find_levels].
  assert (Hsub : option_Forall2 R
    (if (level =? 1)%nat && negb (bool_decide (dm_subs m1 = ∅)) then find_subs hash wm m1 wire first else None)
    (if (level =? 1)%nat && negb (bool_decide (dm_subs m2 = ∅)) then find_subs hash wm m2 wire first else None)).
  { destruct (level =? 1)%nat; cbn [andb]; [|constructor]. rewrite !find_subs_no_check.
    unfold find_subs. destruct (sim_subs _ _ Hs (key hash SUB (wire_parent wire 1))); [|constructor].
    destruct first; [|constructor]. by apply (find_first_sim (fun w => wildcard_is_match wm w _)). }
  destruct Hsub; [by constructor|].
  assert (Hg := opt_or_sim _ _ _ _ (sim_map _ _ Hs (key hash SUFFIX (wire_parent wire level)))
    (sim_map _ _ Hs (key hash DEFAULT (wire_parent wire level)))).
  destruct Hg; [by constructor|apply IH].
Qed.

Lemma dm_find_sim m1 m2 n :
  dm_sim m1 m2 → option_Forall2 R (dm_find hash wm m1 n) (dm_find hash wm m2 n).
Proof.
  intros Hs. rewrite !dm_find_unfold. case_match; [|constructor].
  repeat apply opt_or_sim; try apply (sim_map _ _ Hs). by apply find_levels_sim.
Qed.

Lemma dm_get_exact_sim m1 m2 (w : WildcardName Name) :
  dm_sim m1 m2 → option_Forall2 R (dm_get_exact hash m1 w) (dm_get_exact hash m2 w).
Proof.
  intros Hs. unfold dm_get_exact. case_match; [|constructor].
  destruct w as [n|n|p n|n]; try apply (sim_map _ _ Hs).
  destruct (sim_subs _ _ Hs (key hash SUB (wire_parent w0 0))); [|constructor]. cbn.
  pose (is_p := fun x : Wildcard => bool_decide (x = p)). by apply (find_first_sim is_p).
Qed.

Lemma zone_of_sim m1 m2 (w : WildcardName Name) :
  dm_sim m1 m2 → option_Forall2 R (zone_of hash wm m1 w) (zone_of hash wm m2 w).
Proof.
  intros Hs. unfold zone_of. apply opt_or_sim.
  - destruct w; repeat apply opt_or_sim; try apply dm_get_exact_sim; done || constructor.
  - case_match; [constructor|by apply dm_find_sim].
Qed.

Lemma subs_replace_sim l1 l2 p v1 v2 :
  sub_sim l1 l2 → R v1 v2 →
  option_Forall2 (fun a b => sub_sim a.1 b.1 ∧ R a.2 b.2) (subs_replace l1 p v1) (subs_replace l2 p v2).
Proof.
  intros Hl Hv. induction Hl as [|[w1 u1] [w2 u2] l1 l2 [Hw Hu] Hl IH]; cbn in *; [constructor|].
  subst. case_bool_decide; [by repeat constructor|].
  destruct IH as [[] [] [??]|]; constructor. split; [by constructor|done].
Qed.

Lemma insert_lookup_sim {X Y} (P : X → Y → Prop) (m1 : gmap Z X) (m2 : gmap Z Y) k x y :
  (∀ k, option_Forall2 P (m1 !! k) (m2 !! k)) → P x y →
  ∀ k', option_Forall2 P (<[k:=x]> m1 !! k') (<[k:=y]> m2 !! k').
Proof. intros Hm Hxy k'. rewrite !lookup_insert. case_decide; [by constructor|done]. Qed.

Lemma dm_insert_sim m1 m2 (w : WildcardName Name) v1 v2 :
  dm_sim m1 m2 → R v1 v2 → dm_sim (dm_insert hash m1 w v1).1 (dm_insert hash m2 w v2).1.
Proof.
  intros Hs Hv. unfold dm_insert. case_match; [|done].
  destruct w as [n|n|p n|n];
    try (split; [apply insert_lookup_sim; [apply (sim_map _ _ Hs)|done]|apply (sim_subs _ _ Hs)]).
  set (k := key hash SUB _).
  assert (Hl : sub_sim (default [] (dm_subs m1 !! k)) (default [] (dm_subs m2 !! k))).
  { destruct (sim_subs _ _ Hs k); [done|constructor]. }
  destruct (subs_replace_sim _ _ p _ _ Hl Hv) as [[] [] [??]|];
    (split; [apply (sim_map _ _ Hs)|apply insert_lookup_sim; [apply (sim_subs _ _ Hs)|]]); [done|].
  apply Forall2_app; [done|]. by repeat constructor.
Qed.

Lemma dm_sim_empty : dm_sim dm_empty dm_empty.
Proof. split; intros; cbn; rewrite !lookup_empty; constructor. Qed.
End Parametric.

(** ** Sharing *)
Section Sharing.
Context {Name : Type} `{NameLib Name}.
Variable hash : Z → list Z → Z.
Variable wm : list Z → list Z → bool.
Variable hash_code : DomainRule Name → Z.
Implicit Types (r : DomainRule Name) (st : Arcs (Name := Name)) (store : list (DomainRule Name)).

(** What a node over shared rules stands for. *)
Fixpoint node_sim store (n : TreeNode nat) (m : TreeNode (DomainRule Name)) : Prop :=
  match n, m with
  | mkNode p z, mkNode r z' =>
      store !! p = Some r ∧
      match z, z' with
      | Some z, Some z' => node_sim store z z'
      | None, None => True
      | _, _ => False
      end
  end.

Lemma node_sim_mono store store' n m :
  store `prefix_of` store' → node_sim store n m → node_sim store' n m.
Proof.
  intros Hp. revert n m. fix IH 1. intros [p z] [r z']. cbn. intros [Hr Hz].
  split; [by eapply prefix_lookup_Some|]. destruct z, z'; [by apply IH|done..].
Qed.

Lemma node_sim_rule store n m :
  node_sim store n m → store !! node_rule n = Some (node_rule m).
Proof. destruct n, m. by intros []. Qed.

(** The index by hash points at stored rules with that hash. *)
Definition arcs_wf st : Prop :=
  ∀ h p, arc_map st !! h = Some p → ∃ r, arc_store st !! p = Some r ∧ hash_code r = h.

(** The hash separates the rules in play. *)
Definition rules_separated (rules : list (DomainRule Name)) : Prop :=
  ∀ r1 r2, r1 ∈ rules → r2 ∈ rules → hash_code r1 = hash_code r2 → r1 = r2.

#[global] Instance rules_separated_dec `{EqDecision Name} rules : Decision (rules_separated rules).
Proof.
  refine (cast_if (decide (Forall (fun r1 => Forall (fun r2 => hash_code r1 = hash_code r2 → r1 = r2) rules) rules)));
    unfold rules_separated.
  - intros r1 r2 H1 H2. rewrite Forall_forall in f. specialize (f r1 H1).
    rewrite Forall_forall in f. by apply f.
  - intros Hr. apply n, Forall_forall. intros r1 H1. apply Forall_forall. intros r2 H2. by apply Hr.
Defined.

Variable all : list (DomainRule Name).
Hypothesis Hsep : rules_separated all.

Definition arcs_ok st : Prop := arcs_wf st ∧ ∀ r, r ∈ arc_store st → r ∈ all.

Lemma intern_ok st r :
  arcs_ok st → r ∈ all →
  arcs_ok (intern hash_code st r).1 ∧
  arc_store st `prefix_of` arc_store (intern hash_code st r).1 ∧
  arc_store (intern hash_code st r).1 !! (intern hash_code st r).2 = Some r.
Proof.
  intros [Hwf Hall] Hr. unfold intern. destruct (arc_map st !! hash_code r) as [p|] eqn:E; cbn.
  - split; [done|]. split; [done|]. destruct (Hwf _ _ E) as (r' & Hp & Hh). rewrite Hp. f_equal.
    apply Hsep; [|done..]. apply Hall. apply list_elem_of_lookup. eauto.
  - assert (Hpre : arc_store st `prefix_of` arc_store st ++ [r]) by (by apply prefix_app_r).
    split; [split|split; [done|]].
    + intros h p. cbn. rewrite lookup_insert. case_decide as Eh.
      * intros [= <-]. exists r. subst. by rewrite lookup_app_r, Nat.sub_diag by lia.
      * intros (r' & Hp & Hh)%Hwf. exists r'. split; [by eapply prefix_lookup_Some|done].
    + cbn. intros r'. rewrite elem_of_app, list_elem_of_singleton. intros [?| ->]; auto.
    + by rewrite lookup_app_r, Nat.sub_diag by lia.
Qed.

(** *** Collecting the rules *)
Definition rules_sim store (l1 : list (WildcardName Name * nat))
    (l2 : list (WildcardName Name * DomainRule Name)) : Prop :=
  Forall2 (fun a b => a.1 = b.1 ∧ store !! a.2 = Some b.2) l1 l2.

Lemma rules_sim_mono store store' l1 l2 :
  store `prefix_of` store' → rules_sim store l1 l2 → rules_sim store' l1 l2.
Proof.
  intros Hp Hl. eapply Forall2_impl; [exact Hl|]. intros a b [? ?]. split; [done|by eapply prefix_lookup_Some].
Qed.

Lemma assoc_get_sim store l1 l2 w :
  rules_sim store l1 l2 →
  match assoc_get l1 w, assoc_get l2 w with
  | Some p, Some r => store !! p = Some r
  | None, None => True
  | _, _ => False
  end.
Proof.
  induction 1 as [|[w1 p] [w2 r] l1 l2 [Hw Hp] _ IH]; cbn in *; [done|]. subst.
  by destruct (wn_eqb w2 w).
Qed.

Lemma assoc_set_sim store l1 l2 w p r :
  rules_sim store l1 l2 → store !! p = Some r → rules_sim store (assoc_set l1 w p) (assoc_set l2 w r).
Proof.
  intros Hl Hp. induction Hl as [|[w1 p1] [w2 r2] l1 l2 [Hw Hp1] Hl IH]; cbn in *;
    [by repeat constructor|]. subst. case_match; by constructor.
Qed.

Lemma trace_grows_updates us acc r :
  r ∈ acc.2 → r ∈ (fold_left update_rule_ref us acc).2.
Proof.
  revert acc. induction us as [|u us IH]; intros [rules trace] Hr; [done|]. cbn. apply IH.
  cbn. apply elem_of_app. by left.
Qed.

Lemma collect_sim us l1 st l2 trace :
  arcs_ok st → rules_sim (arc_store st) l1 l2 →
  (∀ r, r ∈ (fold_left update_rule_ref us (l2, trace)).2 → r ∈ all) →
  let out := fold_left (update_rule hash_code) us (l1, st) in
  let ref := fold_left update_rule_ref us (l2, trace) in
  arcs_ok out.2 ∧ rules_sim (arc_store out.2) out.1 ref.1.
Proof.
  revert l1 st l2 trace. induction us as [|[w u] us IH]; intros l1 st l2 trace Hok Hl Hall; [done|].
  cbn [fold_left update_rule update_rule_ref fst snd] in *.
  pose proof (assoc_get_sim _ _ _ w Hl) as Hg.
  assert (Hu : u (match assoc_get l1 w with Some p => arc_get st p | None => rule_default end)
    = u (opt_unwrap_or rule_default (assoc_get l2 w))).
  { f_equal. unfold arc_get. destruct (assoc_get l1 w), (assoc_get l2 w); [by rewrite Hg|done..]. }
  rewrite Hu. set (r := u _) in *.
  destruct (intern_ok st r Hok) as (Hok' & Hpre & Hp).
  { apply Hall. apply trace_grows_updates. cbn. apply elem_of_app. right. by left. }
  destruct (intern hash_code st r) as [st' p]. cbn [fst snd] in *.
  apply IH; [done| |done]. apply assoc_set_sim; [|done]. by eapply rules_sim_mono.
Qed.

(** *** Sorting and iteration orders commute with sharing *)
Lemma sort_by_sim {V W} (P : WildcardName Name * V → WildcardName Name * W → Prop)
    (le1 : WildcardName Name * V → WildcardName Name * V → bool) le2 l1 l2 :
  (∀ a1 a2 b1 b2, P a1 a2 → P b1 b2 → le1 a1 b1 = le2 a2 b2) →
  Forall2 P l1 l2 → Forall2 P (sort_by le1 l1) (sort_by le2 l2).
Proof.
  intros Hle Hl. induction Hl as [|x1 x2 l1 l2 Hx Hl IH]; [constructor|].
  cbn. clear Hl. fold (sort_by le1 l1) (sort_by le2 l2).
  induction IH as [|y1 y2 k1 k2 Hy Hk IHk]; cbn; [by repeat constructor|].
  rewrite (Hle _ _ _ _ Hx Hy). case_match; repeat (constructor || done).
Qed.

Lemma sort_items_sim store l1 l2 :
  rules_sim store l1 l2 → rules_sim store (sort_items l1) (sort_items l2).
Proof.
  intros Hl. unfold sort_items, rules_sim.
  do 2 (apply sort_by_sim; [intros a1 a2 b1 b2 [Ha _] [Hb _]; by rewrite Ha, Hb|]). done.
Qed.

Lemma reorder_sim {V W} (P : V → W → Prop) perm l1 l2 :
  Forall2 P l1 l2 → Forall2 P (reorder perm l1) (reorder perm l2).
Proof.
  intros Hl. unfold reorder. induction perm as [|i perm IH]; cbn; [constructor|].
  destruct (l1 !! i) as [x|] eqn:E1.
  - destruct (Forall2_lookup_l _ _ _ _ _ Hl E1) as (y & -> & Hxy). by constructor.
  - apply lookup_ge_None in E1. rewrite (Forall2_length _ _ _ Hl) in E1.
    apply lookup_ge_None in E1. by rewrite E1.
Qed.

(** *** Building the index *)
Record create_sim (cs : CreateState (Name := Name)) (m : DomainMap (TreeNode (DomainRule Name)))
    : Prop := {
  csim_arcs : arcs_ok (cs_arcs cs);
  csim_rules : dm_sim (node_sim (arc_store (cs_arcs cs))) (cs_rules cs) m;
  csim_memo z p q : cs_inherited cs !! (z, p) = Some q →
    ∃ rz rp, arc_store (cs_arcs cs) !! z = Some rz ∧ arc_store (cs_arcs cs) !! p = Some rp ∧
      arc_store (cs_arcs cs) !! q = Some (inherit rp rz);
}.

Lemma dm_sim_mono store store' m1 m2 :
  store `prefix_of` store' → dm_sim (node_sim store) m1 m2 → dm_sim (node_sim store') m1 m2.
Proof.
  intros Hp [Hm Hs]. split; intros k.
  - destruct (Hm k); constructor. by eapply node_sim_mono.
  - destruct (Hs k) as [l1 l2 Hl|]; constructor. eapply Forall2_impl; [exact Hl|].
    intros a b [??]. split; [done|by eapply node_sim_mono].
Qed.

Lemma create_step_sim cs m w p r trace :
  create_sim cs m → arc_store (cs_arcs cs) !! p = Some r →
  ref_rule hash wm m w r ∈ all →
  create_sim (create_step hash wm hash_code cs (w, p))
    (create_step_ref hash wm (m, trace) (w, r)).1 ∧
  arc_store (cs_arcs cs) `prefix_of` arc_store (cs_arcs (create_step hash wm hash_code cs (w, p))).
Proof.
  intros [Hok Hsim Hmemo] Hp Hall. unfold create_step, create_step_ref, ref_rule in *. cbn [fst snd].
  pose proof (zone_of_sim hash wm _ _ _ w Hsim) as Hz.
  destruct Hz as [z zr Hzr|]; cbn [fst snd].
  2: { split; [|done]. split; cbn; [done| |done]. by apply dm_insert_sim. }
  pose proof (node_sim_rule _ _ _ Hzr) as Hzp.
  destruct (cs_inherited cs !! (node_rule z, p)) as [q|] eqn:Em; cbn [fst snd].
  - destruct (Hmemo _ _ _ Em) as (rz & rp & Ez & Ep & Eq). simplify_eq.
    split; [|done]. split; cbn; [done| |done]. apply dm_insert_sim; [done|]. split; done.
  - unfold arc_get. rewrite Hp, Hzp. cbn [default].
    destruct (intern_ok _ _ Hok Hall) as (Hok' & Hpre & Hq).
    destruct (intern hash_code _ _) as [st' q]. cbn [fst snd cs_arcs] in *.
    split; [|done]. split; cbn; [done|..].
    + apply dm_insert_sim; [by eapply dm_sim_mono|]. split; [done|]. by eapply node_sim_mono.
    + intros z' p' q'. rewrite lookup_insert. case_decide as E.
      * simplify_eq. intros [= <-]. exists (node_rule zr), r.
        split; [by eapply prefix_lookup_Some|]. split; [by eapply prefix_lookup_Some|done].
      * intros (rz & rp & ? & ? & ?)%Hmemo. exists rz, rp.
        repeat split; by eapply prefix_lookup_Some.
Qed.

Lemma trace_grows_steps items acc r :
  r ∈ acc.2 → r ∈ (fold_left (create_step_ref hash wm) items acc).2.
Proof.
  revert acc. induction items as [|i items IH]; intros [m trace] Hr; [done|]. cbn. apply IH.
  cbn. apply elem_of_app. by left.
Qed.

Lemma create_steps_sim items1 items2 cs m trace :
  create_sim cs m → rules_sim (arc_store (cs_arcs cs)) items1 items2 →
  (∀ r, r ∈ (fold_left (create_step_ref hash wm) items2 (m, trace)).2 → r ∈ all) →
  create_sim (fold_left (create_step hash wm hash_code) items1 cs)
    (fold_left (create_step_ref hash wm) items2 (m, trace)).1.
Proof.
  revert items2 cs m trace. induction items1 as [|[w1 p] items1 IH];
    intros items2 cs m trace Hsim Hl Hall; inversion Hl as [|? [w2 r] ? items2' [Hw Hp] Hl']; subst;
    cbn [fst snd] in *; [done|]. subst.
  assert (Hr : ref_rule hash wm m w2 r ∈ all).
  { apply Hall. cbn. apply trace_grows_steps. cbn. apply elem_of_app. right. by left. }
  destruct (create_step_sim _ _ _ _ _ trace Hsim Hp Hr) as [Hsim' Hpre].
  cbn [fold_left]. apply IH; [done| |done]. by eapply rules_sim_mono.
Qed.
End Sharing.

Section SharingTheorem.
Context {Name : Type} `{NameLaws Name}.
Variable hash : Z → list Z → Z.
Variable wm : list Z → list Z → bool.
Variable hash_code : DomainRule Name → Z.

Lemma create_simulates (st : Arcs (Name := Name)) (perm : list nat) (inp : RuleInputs Name) :
  arcs_wf hash_code st →
  rules_separated hash_code (arc_store st ++ (create_ref hash wm perm inp).2) →
  create_sim hash_code (arc_store st ++ (create_ref hash wm perm inp).2)
    (create hash wm hash_code st perm inp) (create_ref hash wm perm inp).1.
Proof.
  intros Hwf Hsep. unfold create, create_ref in *.
  set (all := arc_store st ++ _) in Hsep.
  assert (Hst : arcs_ok hash_code all st).
  { split; [done|]. intros r Hr. apply elem_of_app. by left. }
  pose proof (collect_sim hash_code all Hsep (rule_updates inp) [] st [] [] Hst
    (List.Forall2_nil _)) as Hcol.
  destruct (fold_left update_rule_ref (rule_updates inp) ([], [])) as [rules trace].
  destruct (fold_left (update_rule hash_code) (rule_updates inp) ([], st)) as [rules1 st1].
  cbn [fst snd] in Hcol. destruct Hcol as [Hok Hrules].
  { intros r Hr. apply elem_of_app. right. by apply trace_grows_steps. }
  apply create_steps_sim; [done|..].
  - split; cbn; [done|apply dm_sim_empty|]. intros z p q. by rewrite lookup_empty.
  - cbn. by apply sort_items_sim, reorder_sim.
  - intros r Hr. apply elem_of_app. by right.
Qed.

(** C3: interning equal rules by hash and memoising merges by address change
    nothing: whatever the iteration order of the hash map, every lookup in the
    tree built over shared rules finds a node that stands for the node of the
    tree built without sharing, as long as the hash separates the rules made
    while building; and the store of shared rules stays consistent for the
    next group. *)
Theorem create_sharing_correct (st : Arcs (Name := Name)) (perm : list nat) (inp : RuleInputs Name)
    (n : Name) :
  arcs_wf hash_code st →
  rules_separated hash_code (arc_store st ++ (create_ref hash wm perm inp).2) →
  let cs := create hash wm hash_code st perm inp in
  option_Forall2 (node_sim (arc_store (cs_arcs cs)))
    (dm_find hash wm (cs_rules cs) n) (dm_find hash wm (create_ref hash wm perm inp).1 n) ∧
  arcs_wf hash_code (cs_arcs cs).
Proof.
  intros Hwf Hsep. pose proof (create_simulates st perm inp Hwf Hsep) as Hsim. cbn zeta.
  split; [apply dm_find_sim; apply Hsim|apply Hsim].
Qed.

(** C4: the finished tree solves the inheritance equation. Whatever the order
    in which the hash map of collected rules is iterated, every configured name
    is stored with the rule that results from its own rule and the rule of its
    zone, where the zone is the one [zone_of] computes in the finished tree:
    no name was inserted before something its zone depends on. *)
Theorem tree_solves_inheritance (st : Arcs (Name := Name)) (perm : list nat)
    (inp : RuleInputs Name) (w : WildcardName Name) (r : DomainRule Name) :
  let items := (fold_left update_rule_ref (rule_updates inp) ([], [])).1 in
  let tree := (create_ref hash wm perm inp).1 in
  arcs_wf hash_code st →
  rules_separated hash_code (arc_store st ++ (create_ref hash wm perm inp).2) →
  perm ≡ₚ seq 0 (length items) →
  collision_free hash (i ← items; zone_keys i.1) →
  Forall (fun i => valid_labels (wn_labels i.1) = true ∧ rooted (wn_deref i.1) = true) items →
  NoDup ((fun i => rule_id i.1) <$> items) → (w, r) ∈ items →
  let cs := create hash wm hash_code st perm inp in
  option_Forall2 (node_sim (arc_store (cs_arcs cs))) (dm_get_exact hash (cs_rules cs) w)
    (Some (mkNode (ref_rule hash wm tree w r) (zone_of hash wm tree w))).
Proof.
  intros items tree Hwf Hsep Hperm Hcf Hok Hnd Hin cs. subst tree.
  pose proof (create_simulates st perm inp Hwf Hsep) as Hsim.
  rewrite <- (create_ref_solved hash wm _ Hcf inp perm w r); [|done| |done..].
  - apply dm_get_exact_sim, Hsim.
  - apply Forall_forall. intros i Hi. rewrite Forall_forall in Hok. destruct (Hok i Hi).
    split; [|done]. intros k Hk. apply list_elem_of_bind. eauto.
Qed.
End SharingTheorem.

(** ** Witnesses *)
Definition ex_inputs : RuleInputs PlainName :=
  mkInputs
    [ (DName (WDefault (plain_name "example.com")), set_nameserver rule_default "remote");
      (DSet "ads", set_nameserver rule_default "block") ]
    [ (DName (WDefault (plain_name "a.example.com")), ASOAv6) ] [] [] [] [] []
    {[ "ads" := [WSuffix (plain_name "ads.org"); WDefault (plain_name "b.example.com")] ]}.

(** A hash of the options the example sets. *)
Definition ex_hash_code (r : DomainRule PlainName) : Z :=
  fnv64 (if is_some (address r) then 1 else 0) (opt_map_or [] bytes_of_string (nameserver r)).

Definition ex_arcs : Arcs (Name := PlainName) := mkArcs [] ∅.

Lemma ex_rules_separated :
  rules_separated ex_hash_code
    (arc_store ex_arcs ++ (create_ref fnv64 glob_match [2; 0; 3; 1]%nat ex_inputs).2).
Proof.
  apply (bool_decide_unpack _). vm_compute. exact I.
Qed.

Lemma create_sharing_correct_witness :
  let cs := create fnv64 glob_match ex_hash_code ex_arcs [2; 0; 3; 1]%nat ex_inputs in
  option_Forall2 (node_sim (arc_store (cs_arcs cs)))
    (dm_find fnv64 glob_match (cs_rules cs) (plain_name "www.a.example.com"))
    (dm_find fnv64 glob_match (create_ref fnv64 glob_match [2; 0; 3; 1]%nat ex_inputs).1
       (plain_name "www.a.example.com")).
Proof.
  destruct (create_sharing_correct fnv64 glob_match ex_hash_code ex_arcs [2; 0; 3; 1]%nat ex_inputs
    (plain_name "www.a.example.com")) as [Hf _]; [|exact ex_rules_separated|exact Hf].
  intros h p Hp. cbn in Hp. by rewrite lookup_empty in Hp.
Defined.

Definition ex_own : DomainRule PlainName := set_address rule_default ASOAv6.

(** [a.example.com] sets only its address and takes its servers from
    [example.com]. *)
Lemma tree_solves_inheritance_witness :
  let cs := create fnv64 glob_match ex_hash_code ex_arcs [2; 0; 3; 1]%nat ex_inputs in
  let tree := (create_ref fnv64 glob_match [2; 0; 3; 1]%nat ex_inputs).1 in
  let w := WDefault (plain_name "a.example.com") in
  nameserver (ref_rule fnv64 glob_match tree w ex_own) = Some "remote" ∧
  option_Forall2 (node_sim (arc_store (cs_arcs cs))) (dm_get_exact fnv64 (cs_rules cs) w)
    (Some (mkNode (ref_rule fnv64 glob_match tree w ex_own) (zone_of fnv64 glob_match tree w))).
Proof.
  split; [vm_compute; reflexivity|].
  apply (tree_solves_inheritance fnv64 glob_match ex_hash_code ex_arcs [2; 0; 3; 1]%nat ex_inputs
    (WDefault (plain_name "a.example.com")) ex_own).
  - intros h p Hp. cbn in Hp. by rewrite lookup_empty in Hp.
  - exact ex_rules_separated.
  - apply (bool_decide_unpack _). vm_compute. exact I.
  - apply (bool_decide_unpack _). vm_compute. exact I.
  - apply (bool_decide_unpack _). vm_compute. exact I.
  - apply (bool_decide_unpack _). vm_compute. exact I.
  - set (l := (fold_left _ _ _).1). vm_compute in l. solve_elem.
Defined.
