(* ===== verification/IpSet.v ===== *)
(** * Address sets and maps ([infra/ipset.rs])

    [IpMap] stores values for address ranges of both families in two
    range maps. The range map is a library: a class with its documented
    behaviour as laws, seen through the function from keys to values it
    represents. *)

From S2P Require Import Prelude Names Config.

(** ** The [rangemap] library's [RangeInclusiveMap] *)
Class RangeMapLib (RM : Type → Type) := {
  rm_empty {T} : RM T;
  rm_is_empty {T} : RM T → bool;
  rm_get {T} : RM T → Z → option T;
  rm_insert {T} : RM T → Z → Z → T → RM T;
  (** [gaps(lo..=hi).next().is_none()] *)
  rm_no_gaps {T} : RM T → Z → Z → bool;
  rm_overlaps {T} : RM T → Z → Z → bool;
}.

Class RangeMapLaws (RM : Type → Type) `{RangeMapLib RM} : Prop := {
  rm_get_empty {T} k : rm_get (rm_empty (T := T)) k = None;
  rm_is_empty_spec {T} (m : RM T) : rm_is_empty m = true ↔ ∀ k, rm_get m k = None;
  rm_get_insert {T} (m : RM T) lo hi v k :
    lo ≤ hi → rm_get (rm_insert m lo hi v) k = if (lo <=? k) && (k <=? hi) then Some v else rm_get m k;
  rm_no_gaps_spec {T} (m : RM T) lo hi :
    lo ≤ hi → rm_no_gaps m lo hi = true ↔ ∀ k, lo ≤ k ≤ hi → is_Some (rm_get m k);
  rm_overlaps_spec {T} (m : RM T) lo hi :
    lo ≤ hi → rm_overlaps m lo hi = true ↔ ∃ k, lo ≤ k ≤ hi ∧ is_Some (rm_get m k);
}.

(** ** [IpMap] *)
Record IpMap (RM : Type → Type) (T : Type) := mkIpMap { im_v4 : RM T; im_v6 : RM T }.
Arguments mkIpMap {RM T} _ _.
Arguments im_v4 {RM T} _.
Arguments im_v6 {RM T} _.

Section IpMap.
Context {RM : Type → Type} `{RangeMapLaws RM} `{NL : NetLib} {NLaws : @NetLaws NL} {T : Type}.
Implicit Types (m : IpMap RM T) (n : IpNet) (i : IpAddr).

Definition im_default : IpMap RM T := mkIpMap rm_empty rm_empty.

Definition im_is_empty m : bool := rm_is_empty (im_v4 m) && rm_is_empty (im_v6 m).

(** The family's map. *)
Definition im_side (i : IpAddr) m : RM T := if is_ipv4 i then im_v4 m else im_v6 m.

Definition im_get m i : option T :=
  match i with V4 a => rm_get (im_v4 m) a | V6 a => rm_get (im_v6 m) a end.

(** [IpIndex::contains] on an address: the default, [get(..).is_some()]. *)
Definition im_contains m i : bool := is_some (im_get m i).

Definition im_contains_net m n : bool :=
  if is_ipv4 (net_addr n) then rm_no_gaps (im_v4 m) (net_network n) (net_broadcast n)
  else rm_no_gaps (im_v6 m) (net_network n) (net_broadcast n).

Definition im_overlap_net m n : bool :=
  if is_ipv4 (net_addr n) then rm_overlaps (im_v4 m) (net_network n) (net_broadcast n)
  else rm_overlaps (im_v6 m) (net_network n) (net_broadcast n).

Definition im_insert m i (v : T) : IpMap RM T :=
  match i with
  | V4 a => mkIpMap (rm_insert (im_v4 m) a a v) (im_v6 m)
  | V6 a => mkIpMap (im_v4 m) (rm_insert (im_v6 m) a a v)
  end.

Definition im_insert_net m n (v : T) : IpMap RM T :=
  if is_ipv4 (net_addr n)
  then mkIpMap (rm_insert (im_v4 m) (net_network n) (net_broadcast n) v) (im_v6 m)
  else mkIpMap (im_v4 m) (rm_insert (im_v6 m) (net_network n) (net_broadcast n) v).

(** [Extend] and [FromIterator] over networks. *)
Definition im_extend m (l : list (IpNet * T)) : IpMap RM T :=
  fold_left (fun m e => im_insert_net m e.1 e.2) l m.
Definition im_from_iter (l : list (IpNet * T)) : IpMap RM T := im_extend im_default l.

(** ** Correctness *)
Definition net_ok n : Prop := 0 ≤ ip_bits (net_addr n) < 2 ^ family_width (net_addr n).

Lemma net_bounds n : net_ok n → net_network n ≤ net_broadcast n.
Proof. intros Hn. pose proof (net_range n Hn). lia. Qed.

Lemma im_get_insert_net m n v i :
  net_ok n → im_get (im_insert_net m n v) i = if net_contains n i then Some v else im_get m i.
Proof.
  intros Hn%net_bounds. unfold im_insert_net, net_contains.
  destruct (is_ipv4 (net_addr n)), i; cbn; try done; by rewrite rm_get_insert.
Qed.

Lemma im_get_from_iter l i :
  Forall (fun e => net_ok e.1) l →
  im_get (im_from_iter l) i = snd <$> find_first (fun e => net_contains e.1 i) (reverse l).
Proof.
  intros Hl. unfold im_from_iter, im_extend. induction l as [|[n v] l IH] using rev_ind.
  - destruct i; apply rm_get_empty.
  - apply Forall_app in Hl as [Hl [Hn _]%Forall_cons_1].
    rewrite fold_left_app, reverse_snoc. cbn. rewrite im_get_insert_net by done. cbn.
    rewrite IH by done. by destruct (net_contains n i).
Qed.

(** A map built from networks gives an address the value of the last
    network that contains it; it contains a network exactly when it has a value
    for each of its addresses, and overlaps it exactly when for one of them. *)
Theorem im_from_iter_correct (l : list (IpNet * T)) :
  Forall (fun e => net_ok e.1) l →
  let m := im_from_iter l in
  (∀ i, im_get m i = snd <$> find_first (fun e => net_contains e.1 i) (reverse l)) ∧
  (∀ n, net_ok n →
    (im_contains_net m n = true ↔ ∀ i, net_contains n i = true → im_contains m i = true) ∧
    (im_overlap_net m n = true ↔ ∃ i, net_contains n i = true ∧ im_contains m i = true)).
Proof.
  intros Hl m. split; [intros i; by apply im_get_from_iter|]. intros n Hn%net_bounds.
  assert (Hin : ∀ k, net_network n ≤ k ≤ net_broadcast n ↔
    net_contains n (if is_ipv4 (net_addr n) then V4 k else V6 k) = true).
  { intros k. unfold net_contains. destruct (is_ipv4 (net_addr n)); cbn; lia. }
  assert (Hfam : ∀ i, net_contains n i = true →
    i = (if is_ipv4 (net_addr n) then V4 (ip_bits i) else V6 (ip_bits i))).
  { intros i. unfold net_contains. by destruct (is_ipv4 (net_addr n)), i. }
  assert (Hget : ∀ k, is_Some (rm_get (if is_ipv4 (net_addr n) then im_v4 m else im_v6 m) k) ↔
    im_contains m (if is_ipv4 (net_addr n) then V4 k else V6 k) = true).
  { intros k. unfold im_contains. destruct (is_ipv4 (net_addr n)); cbn; destruct (rm_get _ k); cbn;
      split; try done; by intros []. }
  unfold im_contains_net, im_overlap_net. split.
  - transitivity (rm_no_gaps (if is_ipv4 (net_addr n) then im_v4 m else im_v6 m)
      (net_network n) (net_broadcast n) = true); [by destruct (is_ipv4 _)|].
    rewrite rm_no_gaps_spec by done. setoid_rewrite Hin. setoid_rewrite Hget. split; intros Hk.
    + intros i Hi. rewrite (Hfam i Hi). apply Hk. by rewrite <- Hfam.
    + intros k Hc. by apply Hk.
  - transitivity (rm_overlaps (if is_ipv4 (net_addr n) then im_v4 m else im_v6 m)
      (net_network n) (net_broadcast n) = true); [by destruct (is_ipv4 _)|].
    rewrite rm_overlaps_spec by done. setoid_rewrite Hin. setoid_rewrite Hget. split.
    + intros (k & ? & ?). eauto.
    + intros (i & Hi & Hc). exists (ip_bits i). by rewrite <- Hfam.
Qed.
End IpMap.

(** ** A range map as a list of ranges, the latest first

    A range is its first key, how many more keys it has, and its value. *)
Definition list_rm (T : Type) := list (Z * N * T).

Definition range_has {T} (k : Z) (e : Z * N * T) : bool :=
  (e.1.1 <=? k) && (k <=? e.1.1 + Z.of_N e.1.2).

Definition list_rm_get {T} (m : list_rm T) (k : Z) : option T :=
  snd <$> find_first (range_has k) m.

(** What is left of the ranges [holes] without the keys of a map. *)
Definition cut_range {T} (e : Z * N * T) (h : Z * Z) : list (Z * Z) :=
  filter (fun r => r.1 ≤ r.2)
    [(h.1, Z.min h.2 (e.1.1 - 1)); (Z.max h.1 (e.1.1 + Z.of_N e.1.2 + 1), h.2)].
Definition uncovered {T} (m : list_rm T) (holes : list (Z * Z)) : list (Z * Z) :=
  fold_left (fun holes e => holes ≫= cut_range e) m holes.

#[global] Instance list_rm_lib : RangeMapLib list_rm := {
  rm_empty T := [];
  rm_is_empty T m := match m with [] => true | _ => false end;
  rm_get T := list_rm_get;
  rm_insert T m lo hi v := (lo, Z.to_N (hi - lo), v) :: m;
  rm_no_gaps T m lo hi := bool_decide (uncovered m [(lo, hi)] = []);
  rm_overlaps T m lo hi := existsb (fun e => (e.1.1 <=? hi) && (lo <=? e.1.1 + Z.of_N e.1.2)) m;
}.

Definition in_ranges (k : Z) (holes : list (Z * Z)) : Prop := ∃ h, h ∈ holes ∧ h.1 ≤ k ≤ h.2.

Lemma cut_range_in {T} (e : Z * N * T) h k :
  in_ranges k (cut_range e h) ↔ h.1 ≤ k ≤ h.2 ∧ range_has k e = false.
Proof.
  unfold in_ranges, cut_range, range_has. setoid_rewrite list_elem_of_filter.
  setoid_rewrite elem_of_cons. setoid_rewrite list_elem_of_singleton. split.
  - intros (r & [Hr [->| ->]] & Hk); cbn in *; lia.
  - intros [Hk He]. destruct (decide (k < e.1.1)).
    + exists (h.1, Z.min h.2 (e.1.1 - 1)). cbn. split; [split; [lia|by left]|lia].
    + exists (Z.max h.1 (e.1.1 + Z.of_N e.1.2 + 1), h.2). cbn. split; [split; [lia|by right]|lia].
Qed.

Lemma uncovered_in {T} (m : list_rm T) holes k :
  in_ranges k (uncovered m holes) ↔ in_ranges k holes ∧ list_rm_get m k = None.
Proof.
  revert holes. induction m as [|e m IH]; intros holes; [cbn; naive_solver|].
  cbn [uncovered fold_left]. fold (uncovered m (holes ≫= cut_range e)). rewrite IH.
  unfold list_rm_get. cbn [find_first].
  assert (Hb : in_ranges k (holes ≫= cut_range e) ↔ in_ranges k holes ∧ range_has k e = false).
  { unfold in_ranges at 1. setoid_rewrite list_elem_of_bind. split.
    - intros (r & (h & Hr & Hh) & Hk).
      assert (in_ranges k (cut_range e h)) as [Hkh He]%cut_range_in by (by exists r).
      split; [by exists h|done].
    - intros [(h & Hh & Hk) He].
      assert (in_ranges k (cut_range e h)) as (r & Hr & Hkr) by (by apply cut_range_in).
      exists r. split; [by exists h|done]. }
  rewrite Hb. destruct (range_has k e); cbn; intuition done.
Qed.

Lemma uncovered_nonempty {T} (m : list_rm T) holes h :
  (∀ h, h ∈ holes → h.1 ≤ h.2) → h ∈ uncovered m holes → h.1 ≤ h.2.
Proof.
  revert holes. induction m as [|e m IH]; intros holes Hh; [apply Hh|]. apply IH.
  intros r (h' & Hr & _)%list_elem_of_bind. by apply list_elem_of_filter in Hr as [? _].
Qed.

#[global] Instance list_rm_laws : RangeMapLaws list_rm.
Proof.
  split; cbn; intros T.
  - done.
  - intros [|e m]; [done|]. split; [done|]. intros Hk. specialize (Hk e.1.1).
    unfold list_rm_get in Hk. cbn in Hk. unfold range_has in Hk at 1.
    assert ((e.1.1 <=? e.1.1) && (e.1.1 <=? e.1.1 + Z.of_N e.1.2) = true) as E by lia. by rewrite E in Hk.
  - intros m lo hi v k Hle. unfold list_rm_get. cbn [find_first]. unfold range_has at 1. cbn [fst snd].
    replace (lo + Z.of_N (Z.to_N (hi - lo))) with hi by lia. by case_match.
  - intros m lo hi Hle. rewrite bool_decide_eq_true. split.
    + intros Hu k Hk. destruct (list_rm_get m k) eqn:E; [done|].
      assert (in_ranges k (uncovered m [(lo, hi)])) as (h & Hh & _).
      { apply uncovered_in. split; [|done]. exists (lo, hi). split; [by left|done]. }
      rewrite Hu in Hh. by apply not_elem_of_nil in Hh.
    + intros Hk. destruct (uncovered m [(lo, hi)]) as [|h hs] eqn:E; [done|]. exfalso.
      assert (Hh : h ∈ uncovered m [(lo, hi)]) by (rewrite E; by left).
      assert (Hne : h.1 ≤ h.2).
      { eapply uncovered_nonempty; [|exact Hh]. intros h' ->%list_elem_of_singleton. done. }
      assert (in_ranges h.1 (uncovered m [(lo, hi)])) as [(r & ->%list_elem_of_singleton & Hr) Hn]%uncovered_in.
      { exists h. split; [done|lia]. }
      destruct (Hk h.1 Hr) as [v Hv]. by rewrite Hn in Hv.
  - intros m lo hi Hle. unfold list_rm_get. induction m as [|e m IH]; cbn.
    { split; [done|]. intros (k & _ & [v Hv]). done. }
    rewrite orb_true_iff, IH. split.
    + intros [Ho|(k & Hk & Hv)].
      * exists (Z.max lo e.1.1). split; [lia|]. unfold range_has at 1.
        assert ((e.1.1 <=? Z.max lo e.1.1) && (Z.max lo e.1.1 <=? e.1.1 + Z.of_N e.1.2) = true) as -> by lia.
        done.
      * exists k. split; [done|]. by case_match.
    + intros (k & Hk & Hv). destruct (range_has k e) eqn:E; [left; unfold range_has in E; lia|].
      right. by exists k.
Qed.

(** ** Witness *)
Definition ex_nets : list (IpNet * string) :=
  [(mkNet (V4 (10 * 2 ^ 24)) 8, "a"); (mkNet (V4 (10 * 2 ^ 24 + 5)) 32, "b"); (mkNet (V6 1) 64, "c")].

Lemma im_from_iter_correct_witness :
  im_get (RM := list_rm) (im_from_iter (NL := mask_net) ex_nets) (V4 (10 * 2 ^ 24 + 5)) = Some "b" ∧
  (im_contains_net (NL := mask_net) (RM := list_rm) (im_from_iter (NL := mask_net) ex_nets)
     (mkNet (V4 (10 * 2 ^ 24 + 7)) 16) = true ↔
   ∀ i, net_contains (H := mask_net) (mkNet (V4 (10 * 2 ^ 24 + 7)) 16) i = true →
     im_contains (RM := list_rm) (im_from_iter (NL := mask_net) ex_nets) i = true).
Proof.
  destruct (im_from_iter_correct (NL := mask_net) (NLaws := mask_net_laws) (RM := list_rm) ex_nets)
    as [Hg Hn].
  { repeat constructor; vm_compute; done. }
  split; [rewrite Hg; reflexivity|].
  destruct (Hn (mkNet (V4 (10 * 2 ^ 24 + 7)) 16)) as [Hc _]; [vm_compute; done|exact Hc].
Defined.
