(* ===== verification/Message.v ===== *)
(** * Messages and responses ([dns.rs], [libdns/mod.rs], [dns_error.rs])

    The DNS library's message data as the program reads it, the program's
    [DnsResponse] (a message with its cached encoding, deadline and origin) and
    its error type. *)

From S2P Require Import Prelude Names Config.

(** ** The DNS library's data

    Record types and response codes are their numbers. *)
Definition RecordType := Z.
Definition TYPE_A : RecordType := 1.
Definition TYPE_CNAME : RecordType := 5.
Definition TYPE_SOA : RecordType := 6.
Definition TYPE_PTR : RecordType := 12.
Definition TYPE_TXT : RecordType := 16.
Definition TYPE_AAAA : RecordType := 28.
Definition TYPE_SRV : RecordType := 33.
Definition TYPE_SVCB : RecordType := 64.
Definition TYPE_HTTPS : RecordType := 65.

(** [RecordType::is_ip_addr]: an A or an AAAA record. *)
Definition is_ip_addr (t : RecordType) : bool := (t =? TYPE_A) || (t =? TYPE_AAAA).

Definition ResponseCode := Z.
Definition NoError : ResponseCode := 0.
Definition ServFail : ResponseCode := 2.
Definition NXDomain : ResponseCode := 3.
Definition Refused : ResponseCode := 5.

Record SOA (Name : Type) := mkSOA {
  soa_mname : Name; soa_rname : Name; soa_serial : Z; soa_refresh : Z; soa_retry : Z;
  soa_expire : Z; soa_minimum : Z }.
Arguments mkSOA {Name} _ _ _ _ _ _ _.
Arguments soa_minimum {Name} _.

Inductive RData (Name : Type) :=
| RA (a : Z)
| RAAAA (a : Z)
| RCNAME (n : Name)
| RSOA (s : SOA Name)
| RPTR (n : Name)
| RTXT (t : TXT)
| RSRV (s : SRV Name)
| RHTTPS (h : HTTPS Name)
| RSVCB (s : HTTPS Name)
| ROther (t : RecordType) (bytes : list Z).
Arguments RA {Name} _.
Arguments RAAAA {Name} _.
Arguments RCNAME {Name} _.
Arguments RSOA {Name} _.
Arguments RPTR {Name} _.
Arguments RTXT {Name} _.
Arguments RSRV {Name} _.
Arguments RHTTPS {Name} _.
Arguments RSVCB {Name} _.
Arguments ROther {Name} _ _.

Definition rdata_type {Name} (d : RData Name) : RecordType :=
  match d with
  | RA _ => TYPE_A | RAAAA _ => TYPE_AAAA | RCNAME _ => TYPE_CNAME | RSOA _ => TYPE_SOA
  | RPTR _ => TYPE_PTR | RTXT _ => TYPE_TXT | RSRV _ => TYPE_SRV | RHTTPS _ => TYPE_HTTPS
  | RSVCB _ => TYPE_SVCB
  | ROther t _ => t
  end.

(** [RData::ip_addr] *)
Definition rdata_ip_addr {Name} (d : RData Name) : option IpAddr :=
  match d with RA a => Some (V4 a) | RAAAA a => Some (V6 a) | _ => None end.

(** [From<IpAddr> for RData] *)
Definition rdata_of_ip {Name} (i : IpAddr) : RData Name :=
  match i with V4 a => RA a | V6 a => RAAAA a end.

Record Rr (Name : Type) := mkRrIn { rr_name : Name; rr_class : Z; rr_ttl_secs : Z; rr_data : RData Name }.
Arguments mkRrIn {Name} _ _ _ _.
Arguments rr_name {Name} _.
Arguments rr_class {Name} _.
Arguments rr_ttl_secs {Name} _.
Arguments rr_data {Name} _.

(** [Record::from_rdata]: class IN. *)
Definition CLASS_IN : Z := 1.
Definition CLASS_CH : Z := 3.
Definition mkRr {Name} (n : Name) (ttl : Z) (d : RData Name) : Rr Name := mkRrIn n CLASS_IN ttl d.

Definition rr_type {Name} (r : Rr Name) : RecordType := rdata_type (rr_data r).
Definition rr_set_ttl {Name} (ttl : Z) (r : Rr Name) : Rr Name := mkRrIn (rr_name r) (rr_class r) ttl (rr_data r).
Definition rr_set_class {Name} (c : Z) (r : Rr Name) : Rr Name := mkRrIn (rr_name r) c (rr_ttl_secs r) (rr_data r).
Definition rr_set_name {Name} (n : Name) (r : Rr Name) : Rr Name :=
  mkRrIn n (rr_class r) (rr_ttl_secs r) (rr_data r).

Record Query (Name : Type) := mkQuery { q_name : Name; q_type : RecordType; q_class : Z }.
Arguments mkQuery {Name} _ _ _.
Arguments q_name {Name} _.
Arguments q_type {Name} _.
Arguments q_class {Name} _.

(** [Query::query]: class IN. *)
Definition query_of {Name} (n : Name) (t : RecordType) : Query Name := mkQuery n t 1.

Definition query_eqb {Name} `{NameLib Name} (p q : Query Name) : bool :=
  name_eqb (q_name p) (q_name q) && (q_type p =? q_type q) && (q_class p =? q_class q).

(** The header: kind, operation, flags and response code. The counts of the
    sections are those of the message. *)
Inductive MessageType := MsgQuery | MsgResponse.
Definition OP_QUERY : Z := 0.

Record Header := mkHeaderOf {
  h_id : Z;
  h_message_type : MessageType;
  h_op_code : Z;
  h_authoritative : bool;
  h_truncated : bool;
  h_recursion_desired : bool;
  h_recursion_available : bool;
  h_authentic_data : bool;
  h_checking_disabled : bool;
  h_response_code : ResponseCode;
}.
#[global] Instance MessageType_eq_dec : EqDecision MessageType.
Proof. solve_decision. Defined.
#[global] Instance Header_eq_dec : EqDecision Header.
Proof. solve_decision. Defined.

(** The header of a plain query. *)
Definition mkHeader (id : Z) (truncated : bool) (code : ResponseCode) : Header :=
  mkHeaderOf id MsgQuery OP_QUERY false truncated false false false false code.

Definition h_set_truncated (b : bool) (h : Header) : Header :=
  mkHeaderOf (h_id h) (h_message_type h) (h_op_code h) (h_authoritative h) b (h_recursion_desired h)
    (h_recursion_available h) (h_authentic_data h) (h_checking_disabled h) (h_response_code h).
Definition h_set_response_code (c : ResponseCode) (h : Header) : Header :=
  mkHeaderOf (h_id h) (h_message_type h) (h_op_code h) (h_authoritative h) (h_truncated h) (h_recursion_desired h)
    (h_recursion_available h) (h_authentic_data h) (h_checking_disabled h) c.
Definition h_set_recursion_available (b : bool) (h : Header) : Header :=
  mkHeaderOf (h_id h) (h_message_type h) (h_op_code h) (h_authoritative h) (h_truncated h) (h_recursion_desired h)
    b (h_authentic_data h) (h_checking_disabled h) (h_response_code h).
Definition h_set_authoritative (b : bool) (h : Header) : Header :=
  mkHeaderOf (h_id h) (h_message_type h) (h_op_code h) b (h_truncated h) (h_recursion_desired h)
    (h_recursion_available h) (h_authentic_data h) (h_checking_disabled h) (h_response_code h).

(** The EDNS extension: the "DNSSEC OK" flag and the client subnet option. *)
Record Edns := mkEdns { edns_dnssec_ok : bool; edns_subnet : option ClientSubnet }.

Record Message (Name : Type) := mkMsg {
  msg_header : Header;
  msg_queries : list (Query Name);
  msg_answers : list (Rr Name);
  msg_authorities : list (Rr Name);
  msg_additionals : list (Rr Name);
  msg_edns : option Edns;
}.
Arguments mkMsg {Name} _ _ _ _ _ _.
Arguments msg_header {Name} _.
Arguments msg_queries {Name} _.
Arguments msg_answers {Name} _.
Arguments msg_authorities {Name} _.
Arguments msg_additionals {Name} _.
Arguments msg_edns {Name} _.

Section Fields.
Context {Name : Type}.
Implicit Types (m : Message Name).

Definition msg_set_answers (l : list (Rr Name)) m : Message Name :=
  mkMsg (msg_header m) (msg_queries m) l (msg_authorities m) (msg_additionals m) (msg_edns m).
Definition msg_set_authorities (l : list (Rr Name)) m : Message Name :=
  mkMsg (msg_header m) (msg_queries m) (msg_answers m) l (msg_additionals m) (msg_edns m).
Definition msg_set_additionals (l : list (Rr Name)) m : Message Name :=
  mkMsg (msg_header m) (msg_queries m) (msg_answers m) (msg_authorities m) l (msg_edns m).
Definition msg_set_header (h : Header) m : Message Name :=
  mkMsg h (msg_queries m) (msg_answers m) (msg_authorities m) (msg_additionals m) (msg_edns m).
Definition msg_set_response_code (c : ResponseCode) m : Message Name :=
  msg_set_header (h_set_response_code c (msg_header m)) m.
Definition msg_response_code m : ResponseCode := h_response_code (msg_header m).
Definition msg_add_authority (r : Rr Name) m : Message Name :=
  msg_set_authorities (msg_authorities m ++ [r]) m.
End Fields.

(** ** TTLs of records ([TtlClip]) *)
Definition set_max_ttl_rr {Name} (max_ttl : Z) (r : Rr Name) : Rr Name :=
  if max_ttl <? rr_ttl_secs r then rr_set_ttl max_ttl r else r.
Definition set_min_ttl_rr {Name} (min_ttl : Z) (r : Rr Name) : Rr Name :=
  if rr_ttl_secs r <? min_ttl then rr_set_ttl min_ttl r else r.

(** ** Time: instants and durations in nanoseconds *)
Definition Instant := Z.
Definition secs (n : Z) : Z := n * 1000000000.
Definition as_secs (d : Z) : Z := d / 1000000000.

(** [dns_client::MAX_TTL] *)
Definition MAX_TTL : Z := 86400.

(** ** Responses *)
Inductive ProbeResult := Unchecked | Failed | Measured (d : Z).
#[global] Instance ProbeResult_eq_dec : EqDecision ProbeResult.
Proof. solve_decision. Defined.

Record DnsResponse (Name : Type) := mkResp {
  resp_message : Message Name;
  prepared_wire : option (list Z);
  resp_wire_len : option Z;
  valid_until : Instant;
  name_server_group : option string;
  probe_result : ProbeResult;
}.
Arguments mkResp {Name} _ _ _ _ _ _.
Arguments resp_message {Name} _.
Arguments prepared_wire {Name} _.
Arguments resp_wire_len {Name} _.
Arguments valid_until {Name} _.
Arguments name_server_group {Name} _.
Arguments probe_result {Name} _.

(** The message codec of the DNS library, and its fresh query message. *)
Class MsgLib (Name : Type) := {
  msg_to_vec : Message Name → option (list Z);
  (** [Message::query()]: an empty query with a fresh id. *)
  msg_fresh : Message Name;
  default_query : Query Name;
  (** [RecordType::is_dnssec] *)
  is_dnssec_type : RecordType → bool;
  (** [LowerName::from]: the name in lower case. *)
  lower_name : Name → Name;
  (** The parsed names [a.gtld-servers.net] and [nstld.verisign-grs.com]. *)
  default_mname : Name;
  default_rname : Name;
  (** [domain::usage::LOCAL]: the zone [local.]. *)
  local_name : Name;
}.

Section Response.
Context {Name : Type} `{MsgLib Name}.
Implicit Types (r : DnsResponse Name) (m : Message Name) (q : Query Name).

Definition answers r := msg_answers (resp_message r).
Definition authorities r := msg_authorities (resp_message r).
Definition additionals r := msg_additionals (resp_message r).
Definition resp_code r : ResponseCode := msg_response_code (resp_message r).

(** A response around a message: [DnsResponse { message, prepared_wire: None, .. }]. *)
Definition resp_plain m (until : Instant) : DnsResponse Name :=
  mkResp m None None until None Unchecked.

(** [DerefMut]: any change of the message drops its encoding and its size. *)
Definition resp_mut (f : Message Name → Message Name) r : DnsResponse Name :=
  mkResp (f (resp_message r)) None None (valid_until r) (name_server_group r) (probe_result r).

(** [Arc::make_mut(&mut self.message)] after clearing only the encoding. *)
Definition resp_edit (f : Message Name → Message Name) r : DnsResponse Name :=
  mkResp (f (resp_message r)) None (resp_wire_len r) (valid_until r) (name_server_group r)
    (probe_result r).

Definition new_with_deadline q (records : list (Rr Name)) (until : Instant) : DnsResponse Name :=
  let m := msg_fresh in
  resp_plain (mkMsg (msg_header m) (msg_queries m ++ [q]) (msg_answers m ++ records)
    (msg_authorities m) (msg_additionals m) (msg_edns m)) until.

Definition new_with_max_ttl (now : Instant) q (records : list (Rr Name)) : DnsResponse Name :=
  new_with_deadline q records (now + secs MAX_TTL).

Definition resp_empty (now : Instant) : DnsResponse Name := resp_plain msg_fresh now.

Definition from_rdata (now : Instant) q (d : RData Name) : DnsResponse Name :=
  new_with_max_ttl now q [mkRr (q_name q) MAX_TTL d].

Definition resp_query r : Query Name :=
  opt_unwrap_or default_query (head (msg_queries (resp_message r))).

Definition prepare_wire r : DnsResponse Name :=
  match prepared_wire r with
  | Some _ => r
  | None => mkResp (resp_message r) (msg_to_vec (resp_message r)) (resp_wire_len r) (valid_until r)
              (name_server_group r) (probe_result r)
  end.

Definition prepared_wire_memory (size_usize : Z) r : Z :=
  opt_map_or 0 (fun w => Z.of_nat (length w) + 2 * size_usize) (prepared_wire r).

Definition resp_to_vec r : option (list Z) :=
  match prepared_wire r with
  | Some wire => Some wire
  | None => msg_to_vec (resp_message r)
  end.

Definition with_valid_until r (until : Instant) : DnsResponse Name :=
  mkResp (resp_message r) (prepared_wire r) (resp_wire_len r) until (name_server_group r)
    (probe_result r).
Definition with_name_server_group r (g : string) : DnsResponse Name :=
  mkResp (resp_message r) (prepared_wire r) (resp_wire_len r) (valid_until r) (Some g)
    (probe_result r).
Definition with_probe_result r (p : ProbeResult) : DnsResponse Name :=
  mkResp (resp_message r) (prepared_wire r) (resp_wire_len r) (valid_until r)
    (name_server_group r) p.

Definition ip_addrs r : list IpAddr := omap (fun x => rdata_ip_addr (rr_data x)) (answers r).

Definition max_ttl r : option Z :=
  foldr (fun x acc => Some (opt_map_or (rr_ttl_secs x) (Z.max (rr_ttl_secs x)) acc)) None (answers r).
Definition min_ttl r : option Z := list_min (rr_ttl_secs <$> answers r).

(** [From<Message>] *)
Definition resp_of_message (now : Instant) m : DnsResponse Name :=
  resp_plain m (now + secs (opt_unwrap_or MAX_TTL (list_min (rr_ttl_secs <$> msg_answers m)))).

(** [From<xfer::DnsResponse>]: a received message and its bytes. *)
Definition resp_of_packet (now : Instant) m (len : Z) : DnsResponse Name :=
  let r := resp_of_message now m in
  mkResp (resp_message r) (prepared_wire r) (if len =? 0 then None else Some len) (valid_until r)
    (name_server_group r) (probe_result r).

Definition set_new_ttl r (ttl : Z) : DnsResponse Name :=
  if existsb (fun x => negb (rr_ttl_secs x =? ttl)) (answers r)
  then resp_edit (fun m => msg_set_answers (rr_set_ttl ttl <$> msg_answers m) m) r
  else r.

Definition set_max_ttl r (ttl : Z) : DnsResponse Name :=
  if negb (existsb (fun x => ttl <? rr_ttl_secs x) (answers r ++ authorities r ++ additionals r))
  then r
  else resp_edit (fun m =>
    mkMsg (msg_header m) (msg_queries m) (set_max_ttl_rr ttl <$> msg_answers m)
      (set_max_ttl_rr ttl <$> msg_authorities m) (set_max_ttl_rr ttl <$> msg_additionals m)
      (msg_edns m)) r.

Definition set_min_ttl r (ttl : Z) : DnsResponse Name :=
  if existsb (fun x => rr_ttl_secs x <? ttl) (answers r)
  then resp_edit (fun m => msg_set_answers (set_min_ttl_rr ttl <$> msg_answers m) m) r
  else r.

(** ** The cached encoding *)

(** The encoding a response carries is that of its current message. *)
Definition wire_ok r : Prop :=
  ∀ w, prepared_wire r = Some w → msg_to_vec (resp_message r) = Some w.

(** The operations of a response. *)
Inductive resp_op :=
| RMut (f : Message Name → Message Name)
| RPrepare
| RUntil (t : Instant)
| RGroup (g : string)
| RProbe (p : ProbeResult)
| RNewTtl (ttl : Z)
| RMaxTtl (ttl : Z)
| RMinTtl (ttl : Z).

Definition resp_apply r (o : resp_op) : DnsResponse Name :=
  match o with
  | RMut f => resp_mut f r
  | RPrepare => prepare_wire r
  | RUntil t => with_valid_until r t
  | RGroup g => with_name_server_group r g
  | RProbe p => with_probe_result r p
  | RNewTtl t => set_new_ttl r t
  | RMaxTtl t => set_max_ttl r t
  | RMinTtl t => set_min_ttl r t
  end.

Lemma wire_ok_apply r o : wire_ok r → wire_ok (resp_apply r o).
Proof.
  intros Hr. destruct o; cbn; try done;
    unfold prepare_wire, set_new_ttl, set_max_ttl, set_min_ttl; case_match;
    done || (intros w Hw; exact Hw).
Qed.

Lemma wire_ok_to_vec r : wire_ok r → resp_to_vec r = msg_to_vec (resp_message r).
Proof. intros Hr. unfold resp_to_vec. destruct (prepared_wire r) eqn:E; [|done]. by rewrite (Hr _ E). Qed.

(** Whatever operations a response made from a message goes through, in any
    order, encoding it gives the encoding of its current message: a retained
    encoding is never stale. *)
Theorem resp_encoding_current m (until : Instant) (ops : list resp_op) :
  let r := fold_left resp_apply ops (resp_plain m until) in
  resp_to_vec r = msg_to_vec (resp_message r).
Proof.
  apply wire_ok_to_vec. assert (Hok : wire_ok (resp_plain m until)) by done.
  revert Hok. generalize (resp_plain m until). induction ops as [|o ops IH]; [done|].
  intros r Hr. apply IH. by apply wire_ok_apply.
Qed.

(** ** Clipping TTLs *)
Definition all_records r : list (Rr Name) := answers r ++ authorities r ++ additionals r.

Lemma set_max_ttl_rr_spec ttl (x : Rr Name) :
  set_max_ttl_rr ttl x = rr_set_ttl (Z.min ttl (rr_ttl_secs x)) x.
Proof.
  destruct x as [n k t d]. unfold set_max_ttl_rr, rr_set_ttl. cbn.
  destruct (Z.ltb_spec ttl t); f_equal; lia.
Qed.

Lemma set_min_ttl_rr_spec ttl (x : Rr Name) :
  set_min_ttl_rr ttl x = rr_set_ttl (Z.max ttl (rr_ttl_secs x)) x.
Proof.
  destruct x as [n k t d]. unfold set_min_ttl_rr, rr_set_ttl. cbn.
  destruct (Z.ltb_spec t ttl); f_equal; lia.
Qed.

Lemma set_max_ttl_rr_id ttl (l : list (Rr Name)) :
  existsb (fun x => ttl <? rr_ttl_secs x) l = false → set_max_ttl_rr ttl <$> l = l.
Proof.
  induction l as [|x l IH]; [done|]. cbn. rewrite orb_false_iff. intros [Hx Hl].
  unfold set_max_ttl_rr at 1. rewrite Hx. f_equal. by apply IH.
Qed.

(** The early return is the clip. *)
Lemma set_max_ttl_message r ttl :
  resp_message (set_max_ttl r ttl) =
  mkMsg (msg_header (resp_message r)) (msg_queries (resp_message r))
    (set_max_ttl_rr ttl <$> answers r) (set_max_ttl_rr ttl <$> authorities r)
    (set_max_ttl_rr ttl <$> additionals r) (msg_edns (resp_message r)).
Proof.
  unfold set_max_ttl. destruct (existsb _ _) eqn:E; [done|].
  rewrite !existsb_app, !orb_false_iff in E. destruct E as (E1 & E2 & E3).
  rewrite !set_max_ttl_rr_id by done. by destruct r as [[] ? ? ? ? ?].
Qed.

Lemma set_max_ttl_records r ttl :
  all_records (set_max_ttl r ttl) = set_max_ttl_rr ttl <$> all_records r.
Proof.
  unfold all_records, answers, authorities, additionals. rewrite set_max_ttl_message. cbn.
  by rewrite !fmap_app.
Qed.

Lemma set_max_ttl_bound r ttl x : x ∈ all_records (set_max_ttl r ttl) → rr_ttl_secs x ≤ ttl.
Proof.
  rewrite set_max_ttl_records. intros (y & -> & _)%list_elem_of_fmap.
  rewrite set_max_ttl_rr_spec. cbn. lia.
Qed.
End Response.

(** ** Errors ([dns_error.rs]) *)
Inductive LookupError (Name : Type) :=
| ENameExists
| EResponseCode (c : ResponseCode)
  (** [ProtoErrorKind::NoRecordsFound]: the SOA record, when there is one. *)
| ENoRecords (soa : option (Name * Z * SOA Name)) (c : ResponseCode)
  (** any other protocol error *)
| EProto (kind : Z)
| EIo.
Arguments ENameExists {Name}.
Arguments EResponseCode {Name} _.
Arguments ENoRecords {Name} _ _.
Arguments EProto {Name} _.
Arguments EIo {Name}.

Section Errors.
Context {Name : Type} `{MsgLib Name}.
Implicit Types (e : LookupError Name) (q : Query Name).

Definition is_nx_domain e : bool :=
  match e with
  | EResponseCode c => c =? NXDomain
  | ENoRecords _ c => c =? NXDomain
  | _ => false
  end.

Definition is_negative_response e : bool :=
  is_nx_domain e || match e with ENoRecords _ c => c =? NoError | _ => false end.

Definition is_soa e : bool :=
  match e with ENoRecords (Some _) _ => true | _ => false end.

Definition soa_record (s : Name * Z * SOA Name) : Rr Name :=
  mkRr s.1.1 s.1.2 (RSOA s.2).

Definition as_soa (now : Instant) e q : option (DnsResponse Name) :=
  match e with
  | ENoRecords (Some s) _ =>
      Some (resp_mut (msg_add_authority (soa_record s)) (new_with_max_ttl now q []))
  | _ => None
  end.

Definition as_no_records_response (now : Instant) e q : option (DnsResponse Name) :=
  match e with
  | EResponseCode c =>
      Some (resp_mut (msg_set_response_code c) (new_with_max_ttl now q []))
  | ENoRecords soa c =>
      let r := resp_mut (msg_set_response_code c) (new_with_max_ttl now q []) in
      Some (match soa with
            | Some s => resp_mut (msg_add_authority (soa_record s)) r
            | None => r
            end)
  | _ => None
  end.

Definition default_soa : SOA Name := mkSOA default_mname default_rname 1800 1800 900 604800 86400.

Definition no_records_found q (ttl : Z) : LookupError Name :=
  ENoRecords (Some (q_name q, ttl, default_soa)) ServFail.
End Errors.

(** ** Queries as keys: [PartialEq] is an equivalence *)
Section Keys.
Context {Name : Type} `{NameLaws Name}.
Implicit Types (p q r : Query Name).

Lemma query_eqb_spec p q :
  query_eqb p q = true ↔
  lowers (name_iter (q_name p)) = lowers (name_iter (q_name q)) ∧
  name_is_fqdn (q_name p) = name_is_fqdn (q_name q) ∧ q_type p = q_type q ∧ q_class p = q_class q.
Proof. unfold query_eqb. rewrite !andb_true_iff, name_eqb_spec, !Z.eqb_eq. tauto. Qed.

Lemma query_eqb_refl q : query_eqb q q = true.
Proof. by apply query_eqb_spec. Qed.

Lemma query_eqb_sym p q : query_eqb p q = query_eqb q p.
Proof.
  apply eq_true_iff_eq. rewrite !query_eqb_spec.
  split; intros (? & ? & ? & ?); by repeat split.
Qed.

Lemma query_eqb_trans p q r : query_eqb p q = true → query_eqb q r = true → query_eqb p r = true.
Proof.
  rewrite !query_eqb_spec. intros (? & ? & ? & ?) (? & ? & ? & ?). repeat split; congruence.
Qed.
End Keys.

(** Discharges the equivalence laws of the keys. *)
Ltac key_laws := first [apply query_eqb_refl|apply query_eqb_sym|apply query_eqb_trans].

(** ** A concrete library for evaluation

    Messages are encoded as the sizes of their sections and the TTLs. *)
#[global] Instance PlainMsg : MsgLib PlainName := {
  msg_to_vec m := Some (Z.of_nat (length (msg_queries m)) :: (rr_ttl_secs <$> msg_answers m));
  msg_fresh := mkMsg (mkHeader 0 false NoError) [] [] [] [] None;
  default_query := mkQuery (mkName [] true) 1 1;
  is_dnssec_type t := (t =? 43) || ((46 <=? t) && (t <=? 51));
  lower_name n := mkName (lowers (pn_labels n)) (pn_fqdn n);
  default_mname := plain_name "a.gtld-servers.net";
  default_rname := plain_name "nstld.verisign-grs.com";
  local_name := plain_name "local";
}.
