(* ===== verification/FileWatch.v ===== *)
(** * Files that are read again when they change

    Lease files and host files are kept parsed in memory. A query looks at the
    time since the last check, then at the stamp of the file, and reads the file
    only when the stamp has changed. The caches that do so ([dnsmasq.rs],
    [dns_mw_odhcpd.rs], [dns_mw_hosts.rs]) share the interface of this file: the
    three steps between which other queries may run, and what each does to what
    is held. *)

From S2P Require Import Prelude Config Message.

Definition STAT_INTERVAL : Z := secs 2.

(** The steps: the quick answer, the check against a stamp, and the store of what
    was read. [fc_true] holds of a value and a stamp that belong together
    whatever the file has been (the content of a missing file). *)
Class FileCache (C Stamp R V : Type) := {
  fc_view : C → option (V * Stamp);
  fc_checked : C → option Instant;
  fc_parse : R → option V;
  fc_true : V → Stamp → Prop;
  fc_quick : Instant → C → option V;
  fc_check : Instant → Stamp → C → C * option V;
  fc_store : Instant → Stamp → R → C → C * option V;
}.

Section Poll.
Context {C Stamp R V : Type} `{FC : FileCache C Stamp R V} `{EqDecision Stamp}.

Definition fc_recent (now : Instant) (c : C) : bool :=
  match fc_checked c with Some t => now - t <? STAT_INTERVAL | None => false end.

(** One query alone. *)
Definition poll (now : Instant) (s : Stamp) (r : R) (c : C) : C * option V :=
  match fc_quick now c with
  | Some v => (c, Some v)
  | None =>
      match fc_check now s c with
      | (c, Some v) => (c, Some v)
      | (c, None) => fc_store now s r c
      end
  end.
End Poll.

Class FileCacheLaws (C Stamp R V : Type) `{FC : FileCache C Stamp R V} `{EqDecision Stamp} : Prop := {
  fc_quick_eq now c : fc_quick now c = if fc_recent now c then fst <$> fc_view c else None;
  fc_check_view now s c : fc_view (fc_check now s c).1 = fc_view c;
  fc_check_eq now s c :
    (fc_check now s c).2 =
      if fc_recent now c then fst <$> fc_view c
      else x ← fc_view c; if bool_decide (x.2 = s) then Some x.1 else None;
  fc_store_read now s r v c :
    fc_parse r = Some v →
    (fc_store now s r c).2 = Some v ∧
    ∃ s', fc_view (fc_store now s r c).1 = Some (v, s') ∧ (s' = s ∨ fc_true v s');
  fc_store_failed now s r c :
    fc_parse r = None →
    (fc_store now s r c).2 = fst <$> fc_view c ∧ fc_view (fc_store now s r c).1 = fc_view c;
}.

Section Facts.
Context {C Stamp R V : Type} `{FL : FileCacheLaws C Stamp R V}.

(** What a query alone gets: what is held if it was checked within the interval
    or the stamp is the same, and otherwise what the file has, if it can be
    read. *)
Lemma poll_answers now s r c :
  (poll now s r c).2 =
    match fc_view c with
    | Some (v, s0) =>
        if fc_recent now c || bool_decide (s0 = s) then Some v else opt_or (fc_parse r) (Some v)
    | None => fc_parse r
    end.
Proof.
  unfold poll. rewrite fc_quick_eq.
  destruct (fc_recent now c) eqn:Er; destruct (fc_view c) as [[v s0]|] eqn:Ev; cbn [fmap option_fmap option_map fst orb];
    try done;
    pose proof (fc_check_eq now s c) as Hc; pose proof (fc_check_view now s c) as Hv; rewrite Er, Ev in *;
    destruct (fc_check now s c) as [c' o]; cbn [fst snd mbind option_bind fmap option_fmap option_map] in *; subst o.
  - destruct (fc_parse r) as [v|] eqn:Ep; [by destruct (fc_store_read now s r v c' Ep)|].
    destruct (fc_store_failed now s r c' Ep) as [-> _]. by rewrite Hv.
  - case_bool_decide; [done|]. destruct (fc_parse r) as [v'|] eqn:Ep; [by destruct (fc_store_read now s r v' c' Ep)|].
    destruct (fc_store_failed now s r c' Ep) as [-> _]. by rewrite Hv.
  - destruct (fc_parse r) as [v|] eqn:Ep; [by destruct (fc_store_read now s r v c' Ep)|].
    destruct (fc_store_failed now s r c' Ep) as [-> _]. by rewrite Hv.
Qed.
End Facts.

(** ** Queries that interleave

    The file has a stamp and, with each stamp, a content; a change gives it a
    stamp it has not had. A query in progress has taken the steps up to the
    stamp, the decision to read, or the reading. *)
Section Interleaving.
Context {C Stamp R V : Type} `{FL : FileCacheLaws C Stamp R V}.
Variable disk : Stamp → R.

Inductive phase :=
| Asked (now : Instant)
| Statted (now : Instant) (s : Stamp)
| Reading (now : Instant) (s : Stamp)
| ReadDone (now : Instant) (s : Stamp) (r : R).

Record world := mkWorld {
  w_current : Stamp;
  w_past : list Stamp;
  w_cache : C;
  w_queries : gmap nat phase;
}.

Definition set_query (i : nat) (p : phase) (w : world) : world :=
  mkWorld (w_current w) (w_past w) (w_cache w) (<[i:=p]> (w_queries w)).
Definition end_query (i : nat) (c : C) (w : world) : world :=
  mkWorld (w_current w) (w_past w) c (delete i (w_queries w)).

(** A step and the answer given in it. *)
Inductive step : world → option V → world → Prop :=
| step_change w s :
    s ∉ w_past w → step w None (mkWorld s (s :: w_past w) (w_cache w) (w_queries w))
| step_quick w now v : fc_quick now (w_cache w) = Some v → step w (Some v) w
| step_ask w i now : fc_quick now (w_cache w) = None → w_queries w !! i = None → step w None (set_query i (Asked now) w)
| step_stat w i now :
    w_queries w !! i = Some (Asked now) → step w None (set_query i (Statted now (w_current w)) w)
| step_checked w i now s c v :
    w_queries w !! i = Some (Statted now s) → fc_check now s (w_cache w) = (c, Some v) →
    step w (Some v) (end_query i c w)
| step_unchecked w i now s c :
    w_queries w !! i = Some (Statted now s) → fc_check now s (w_cache w) = (c, None) →
    step w None (set_query i (Reading now s) (mkWorld (w_current w) (w_past w) c (w_queries w)))
| step_read w i now s :
    w_queries w !! i = Some (Reading now s) → step w None (set_query i (ReadDone now s (disk (w_current w))) w)
| step_store w i now s r c o :
    w_queries w !! i = Some (ReadDone now s r) → fc_store now s r (w_cache w) = (c, o) →
    step w o (end_query i c w).

Inductive reachable (w0 : world) : world → Prop :=
| reach_start : reachable w0 w0
| reach_step w o w' : reachable w0 w → step w o w' → reachable w0 w'.

(** A value and its stamp: right for ever, or what some version had, and what the
    current one has if it is stamped with it. *)
Definition held_ok (w : world) (v : V) (s : Stamp) : Prop :=
  fc_parse (disk s) = Some v ∨
  (s ∈ w_past w ∧ (∃ s', s' ∈ w_past w ∧ fc_parse (disk s') = Some v) ∧ s ≠ w_current w).

Definition phase_ok (w : world) (p : phase) : Prop :=
  match p with
  | Asked _ => True
  | Statted _ s | Reading _ s => s ∈ w_past w
  | ReadDone _ s r => s ∈ w_past w ∧ ∃ s', s' ∈ w_past w ∧ r = disk s' ∧ (s = w_current w → s' = s)
  end.

Record world_ok (w : world) : Prop := {
  wo_current : w_current w ∈ w_past w;
  wo_view : ∀ v s, fc_view (w_cache w) = Some (v, s) → held_ok w v s;
  wo_queries : ∀ i p, w_queries w !! i = Some p → phase_ok w p;
}.

Hypothesis true_disk : ∀ v s, fc_true v s → fc_parse (disk s) = Some v.

Lemma world_ok_set w i p : world_ok w → phase_ok w p → world_ok (set_query i p w).
Proof.
  intros [Hc Hv Hq] Hp. split; [done|done|]. intros j q. cbn. rewrite lookup_insert.
  case_decide; [by intros [= <-]|]. apply Hq.
Qed.

Lemma world_ok_end w i c :
  world_ok w → (∀ v s, fc_view c = Some (v, s) → held_ok w v s) → world_ok (end_query i c w).
Proof.
  intros [Hc _ Hq] Hv. split; [done|done|]. intros j q Hj. cbn in Hj. apply lookup_delete_Some in Hj as [_ Hj].
  exact (Hq j q Hj).
Qed.

Lemma world_ok_cache w c :
  world_ok w → fc_view c = fc_view (w_cache w) →
  world_ok (mkWorld (w_current w) (w_past w) c (w_queries w)).
Proof. intros [Hc Hv Hq] He. split; [done| |done]. cbn. rewrite He. apply Hv. Qed.

Lemma world_ok_change w s :
  world_ok w → s ∉ w_past w → world_ok (mkWorld s (s :: w_past w) (w_cache w) (w_queries w)).
Proof.
  intros [Hc Hv Hq] Hs. split; [by left| |].
  - intros v s0 Hs0. destruct (Hv v s0 Hs0) as [?|(Hin & (s' & ? & ?) & _)]; [by left|]. right.
    split; [by right|]. split; [exists s'; split; [by right|done]|]. cbn. intros ->. by apply Hs.
  - intros i p Hp. specialize (Hq i p Hp). destruct p as [now|now s0|now s0|now s0 r]; cbn in *; [done|by right|by right|].
    destruct Hq as (Hin & s' & Hs' & -> & _). split; [by right|]. exists s'. split; [by right|]. split; [done|].
    intros ->. by destruct Hs.
Qed.

Lemma world_ok_step w o w' : world_ok w → step w o w' → world_ok w'.
Proof.
  intros Hw Hs. destruct Hs as [w s Hs|w now v Hv|w i now Hn Hi|w i now Hi|w i now s c v Hi Hc|w i now s c Hi Hc
                               |w i now s Hi|w i now s r c o Hi Hc].
  - by apply world_ok_change.
  - done.
  - by apply world_ok_set.
  - apply world_ok_set; [done|]. cbn. apply Hw.
  - apply world_ok_end; [done|]. pose proof (fc_check_view now s (w_cache w)) as Hv. rewrite Hc in Hv. cbn in Hv.
    rewrite Hv. apply Hw.
  - apply world_ok_set.
    + apply world_ok_cache; [done|]. pose proof (fc_check_view now s (w_cache w)) as Hv. by rewrite Hc in Hv.
    + cbn. apply (wo_queries _ Hw i _ Hi).
  - apply world_ok_set; [done|]. cbn. split; [apply (wo_queries _ Hw i _ Hi)|]. exists (w_current w).
    split; [apply Hw|]. done.
  - apply world_ok_end; [done|]. destruct (wo_queries _ Hw i _ Hi) as (Hin & s' & Hs' & -> & Hcur).
    destruct (fc_parse (disk s')) as [v|] eqn:Ep.
    + destruct (fc_store_read now s _ v (w_cache w) Ep) as (_ & s2 & Hv & Hs2). rewrite Hc in Hv. cbn in Hv.
      rewrite Hv. intros v' s3 [= <- <-]. destruct Hs2 as [->|Ht]; [|left; by apply true_disk].
      destruct (decide (s = w_current w)) as [Heq|Hne]; [left; by rewrite <- (Hcur Heq)|].
      right. split; [done|]. split; [by exists s'|done].
    + destruct (fc_store_failed now s _ (w_cache w) Ep) as (_ & Hv). rewrite Hc in Hv. cbn in Hv. rewrite Hv. apply Hw.
Qed.

Lemma reachable_ok w0 w : world_ok w0 → reachable w0 w → world_ok w.
Proof. intros H0 Hr. induction Hr; [done|]. by eapply world_ok_step. Qed.

(** What a step answers is what some version of the file had, or the content of a
    missing file. *)
Lemma step_answer w v w' :
  world_ok w → step w (Some v) w' → ∃ s, fc_parse (disk s) = Some v ∧ (s ∈ w_past w ∨ fc_view (w_cache w) = Some (v, s)).
Proof.
  intros Hw Hs.
  assert (Hheld : fst <$> fc_view (w_cache w) = Some v →
            ∃ s, fc_parse (disk s) = Some v ∧ (s ∈ w_past w ∨ fc_view (w_cache w) = Some (v, s))).
  { destruct (fc_view (w_cache w)) as [[v' s]|] eqn:Ev; [|done]. intros [= ->].
    destruct (wo_view _ Hw _ _ Ev) as [?|(_ & (s' & ? & ?) & _)]; [exists s; auto|exists s'; auto]. }
  inversion Hs as [|? now ? Hq| | |? i now s c ? Hi Hc| | |? i now s r c ? Hi Hc]; subst.
  - apply Hheld. rewrite fc_quick_eq in Hq. by destruct (fc_recent _ _).
  - apply Hheld. pose proof (fc_check_eq now s (w_cache w)) as He. rewrite Hc in He. cbn in He.
    destruct (fc_recent now (w_cache w)); [done|]. destruct (fc_view (w_cache w)) as [[v' s0]|]; [|done].
    cbn in *. by case_bool_decide.
  - destruct (wo_queries _ Hw i _ Hi) as (_ & s' & Hs' & -> & _).
    destruct (fc_parse (disk s')) as [v'|] eqn:Ep.
    + destruct (fc_store_read now s _ v' (w_cache w) Ep) as (Ho & _). rewrite Hc in Ho. cbn in Ho.
      exists s'. split; [congruence|by left].
    + apply Hheld. destruct (fc_store_failed now s _ (w_cache w) Ep) as (Ho & _). rewrite Hc in Ho. by cbn in Ho.
Qed.

(** However queries and changes interleave, what is held under the stamp of the
    current file is its content; so a query that finds the interval over and the
    file readable, with no other step in between, gets the current content. *)
Lemma watched_file_current w0 w :
  world_ok w0 → reachable w0 w →
  (∀ v, fc_view (w_cache w) = Some (v, w_current w) → fc_parse (disk (w_current w)) = Some v) ∧
  (∀ now v, fc_recent now (w_cache w) = false → fc_parse (disk (w_current w)) = Some v →
     (poll now (w_current w) (disk (w_current w)) (w_cache w)).2 = Some v).
Proof.
  intros H0 Hr. pose proof (reachable_ok _ _ H0 Hr) as Hw.
  assert (Hcur : ∀ v, fc_view (w_cache w) = Some (v, w_current w) → fc_parse (disk (w_current w)) = Some v).
  { intros v Hv. destruct (wo_view _ Hw _ _ Hv) as [?|(_ & _ & ?)]; done. }
  split; [done|]. intros now v Hrec Hp. rewrite poll_answers, Hrec, Hp.
  destruct (fc_view (w_cache w)) as [[v' s0]|] eqn:Ev; [|done]. cbn [orb].
  case_bool_decide as E; [|done]. subst s0. specialize (Hcur v' eq_refl). congruence.
Qed.
End Interleaving.

Arguments world : clear implicits.
Arguments phase : clear implicits.
