(* ===== verification/Runtime.v ===== *)
(** * The configuration at run time ([dns_conf.rs], [config/])

    The options the query path reads, with their defaults, the rule groups and
    the lookup of a domain's rule, and the parts of [RuntimeConfigBuilder::build]
    that compute them: cache size, address sets, rule trees of the groups and
    the removal of duplicate listeners. *)

From S2P Require Import Prelude Names DomainMap Config DomainRule DomainRuleTree IpSet Message.

(** ** Options *)
Record CacheConfig := mkCacheConfig {
  cc_size : option Z;
  cc_memory_size : option Z;
  cc_expired_prefetch_time : option Z;
  cc_persist : option bool;
  cc_prefetch_domain : option bool;
  cc_serve_expired : option bool;
  cc_serve_expired_ttl : option Z;
  cc_serve_expired_reply_ttl : option Z;
  cc_checkpoint_time : option Z;
}.

Definition cache_default : CacheConfig :=
  mkCacheConfig None None None None None None None None None.

Inductive IpOrSet := IpNetItem (n : IpNet) | IpSetItem (name : string).

(** [Arc<T>]: a shared value and the address it lives at. *)
Record Arc (T : Type) := mkArc { arc_ptr : Z; arc_val : T }.
Arguments mkArc {T} _ _.
Arguments arc_ptr {T} _.
Arguments arc_val {T} _.

Record IpAlias := mkAlias { alias_ip : IpOrSet; alias_to : Arc (list IpAddr) }.

(** The fields of [Config] the query path reads. *)
Record ConfigInner := mkConfig {
  c_max_query_limit : option Z;
  c_cache : CacheConfig;
  c_bogus_nxdomain : list IpOrSet;
  c_blacklist_ip : list IpOrSet;
  c_whitelist_ip : list IpOrSet;
  c_ignore_ip : list IpOrSet;
  c_speed_check_mode : option SpeedCheckModeList;
  c_force_aaaa_soa : option bool;
  c_force_https_soa : option bool;
  c_force_qtype_soa : list RecordType;
  c_dualstack_ip_selection : option bool;
  c_dualstack_ip_prefer_ipv4 : option bool;
  c_dualstack_ip_selection_threshold : option Z;
  c_dualstack_ip_allow_force_aaaa : option bool;
  c_dns64_prefix : option (Z * Z);
  c_edns_client_subnet : option IpNet;
  c_rr_ttl : option Z;
  c_rr_ttl_min : option Z;
  c_rr_ttl_max : option Z;
  c_rr_ttl_reply_max : option Z;
  c_local_ttl : option Z;
  c_max_reply_ip_num : option Z;
  c_response_mode : option ResponseMode;
  c_ip_sets : gmap string (list IpNet);
  c_ip_alias : list IpAlias;
  c_client_rules : list ClientRule;
  c_mdns_lookup : option bool;
}.

Definition config_default : ConfigInner :=
  mkConfig None cache_default [] [] [] [] None None None [] None None None None None None None None
    None None None None None ∅ [] [] None.

Section Runtime.
Context {Name : Type} `{NameLib Name}.
Context {RM : Type → Type} `{RangeMapLib RM} `{NL : NetLib}.
Variable hash : Z → list Z → Z.
Variable wm : list Z → list Z → bool.

Abbreviation Node := (TreeNode (DomainRule Name)).

Record RuntimeConfig := mkRuntime {
  rc_inner : ConfigInner;
  rc_domain_rule_group_map : gmap string (DomainMap Node);
  rc_bogus_nxdomain : IpMap RM unit;
  rc_blacklist_ip : IpMap RM unit;
  rc_whitelist_ip : IpMap RM unit;
  rc_ignore_ip : IpMap RM unit;
  rc_recheck_ip_sets : gmap string (IpMap RM unit);
  rc_ip_alias : IpMap RM (Arc (list IpAddr));
}.
Implicit Types (cfg : RuntimeConfig).

(** [isize::max(0) as usize]. *)
Definition cache_size cfg : Z := Z.max 0 (opt_unwrap_or 512 (cc_size (c_cache (rc_inner cfg)))).
Definition cache_persist cfg : bool := opt_unwrap_or false (cc_persist (c_cache (rc_inner cfg))).
Definition cache_checkpoint_time cfg : Z :=
  opt_unwrap_or (24 * 60 * 60) (cc_checkpoint_time (c_cache (rc_inner cfg))).
Definition prefetch_domain cfg : bool :=
  opt_unwrap_or false (cc_prefetch_domain (c_cache (rc_inner cfg))).
Definition cfg_serve_expired cfg : bool :=
  opt_unwrap_or true (cc_serve_expired (c_cache (rc_inner cfg))).
Definition serve_expired_ttl cfg : Z :=
  opt_unwrap_or 0 (cc_serve_expired_ttl (c_cache (rc_inner cfg))).
Definition serve_expired_reply_ttl cfg : Z :=
  opt_unwrap_or 5 (cc_serve_expired_reply_ttl (c_cache (rc_inner cfg))).
Definition recheck_ip_set_of cfg (name : string) : option (IpMap RM unit) :=
  rc_recheck_ip_sets cfg !! name.
Definition cfg_force_aaaa_soa cfg : bool := opt_unwrap_or false (c_force_aaaa_soa (rc_inner cfg)).
Definition cfg_force_https_soa cfg : bool := opt_unwrap_or false (c_force_https_soa (rc_inner cfg)).
Definition cfg_dualstack_ip_selection cfg : bool :=
  opt_unwrap_or true (c_dualstack_ip_selection (rc_inner cfg)).
Definition dualstack_ip_prefer_ipv4 cfg : bool :=
  opt_unwrap_or false (c_dualstack_ip_prefer_ipv4 (rc_inner cfg)).
Definition dualstack_ip_selection_threshold cfg : Z :=
  opt_unwrap_or 10 (c_dualstack_ip_selection_threshold (rc_inner cfg)).
Definition dualstack_ip_allow_force_aaaa cfg : bool :=
  opt_unwrap_or false (c_dualstack_ip_allow_force_aaaa (rc_inner cfg)).
Definition mdns_lookup cfg : bool := opt_unwrap_or false (c_mdns_lookup (rc_inner cfg)).
Definition cfg_speed_check_mode cfg : option SpeedCheckModeList := c_speed_check_mode (rc_inner cfg).
Definition cfg_rr_ttl cfg : option Z := c_rr_ttl (rc_inner cfg).
Definition cfg_rr_ttl_min cfg : option Z := opt_or (c_rr_ttl_min (rc_inner cfg)) (cfg_rr_ttl cfg).
Definition cfg_rr_ttl_max cfg : option Z := opt_or (c_rr_ttl_max (rc_inner cfg)) (cfg_rr_ttl cfg).
Definition rr_ttl_reply_max cfg : option Z := c_rr_ttl_reply_max (rc_inner cfg).
Definition local_ttl cfg : Z :=
  opt_unwrap_or 10 (opt_or (c_local_ttl (rc_inner cfg)) (cfg_rr_ttl_min cfg)).
Definition max_reply_ip_num cfg : option Z := c_max_reply_ip_num (rc_inner cfg).
Definition cfg_response_mode cfg : ResponseMode :=
  opt_unwrap_or FirstPing (c_response_mode (rc_inner cfg)).

Definition DEFAULT_GROUP : string := "default".

Definition domain_rule_group cfg (name : string) : DomainMap Node :=
  let name := if bool_decide (name = "") then DEFAULT_GROUP else name in
  opt_unwrap_or dm_empty (rc_domain_rule_group_map cfg !! name).

Definition find_domain_rule cfg (domain : Name) (group : string) : option Node :=
  opt_or (dm_find hash wm (domain_rule_group cfg group) domain)
    (dm_find hash wm (domain_rule_group cfg DEFAULT_GROUP) domain).

(** ** Server groups *)
Record NameServerInfo := mkServer { ns_group : list string; ns_exclude_default_group : bool }.

Definition get_server_group (servers : list NameServerInfo) (group : string) : list NameServerInfo :=
  if bool_decide (group = DEFAULT_GROUP)
  then List.filter (fun s => existsb (fun g => bool_decide (g = DEFAULT_GROUP)) (ns_group s)
                             || negb (ns_exclude_default_group s)) servers
  else List.filter (fun s => existsb (fun g => bool_decide (g = group)) (ns_group s)) servers.

(** ** Building *)

(** [-1] sizes the cache by the physical memory. *)
Definition auto_cache_size (total_memory : Z) (size : option Z) : result (option Z) string :=
  if -1 <=? opt_unwrap_or 0 size
  then Ok (if bool_decide (size = Some (-1))
           then Some (Z.max 512 (Z.min 1048576 (total_memory / 100 / 1024))) else size)
  else Err "cache-size must be -1 or non-negative".

Definition get_ip_set (sets : gmap string (list IpNet)) (ip : IpOrSet) : list IpNet :=
  match ip with
  | IpNetItem n => [n]
  | IpSetItem name => opt_unwrap_or [] (sets !! name)
  end.

(** [IpSet::new] *)
Definition ipset_new (nets : list IpNet) : IpMap RM unit :=
  im_from_iter ((fun n => (n, tt)) <$> nets).

Definition make_ip_set (sets : gmap string (list IpNet)) (set : list IpOrSet) : IpMap RM unit :=
  ipset_new (set ≫= get_ip_set sets).

(** [collect::<HashSet<_>>] then a map by name: one set per name. *)
Definition recheck_ip_sets (sets : gmap string (list IpNet)) (names : list string)
    : gmap string (IpMap RM unit) :=
  list_to_map ((fun name => (name, ipset_new (opt_unwrap_or [] (sets !! name)))) <$> names).

Definition build_ip_alias (sets : gmap string (list IpNet)) (aliases : list IpAlias)
    : IpMap RM (Arc (list IpAddr)) :=
  im_from_iter (a ← aliases; (fun n => (n, alias_to a)) <$> get_ip_set sets (alias_ip a)).

(** The rule trees of the groups, one after another over the same store of
    shared rules; each group with the iteration order of its hash map. *)
Definition build_rule_groups (hash_code : DomainRule Name → Z)
    (groups : list (string * list nat * RuleInputs Name))
    : gmap string (DomainMap (TreeNode nat)) * Arcs :=
  fold_left (fun acc g =>
    let cs := create hash wm hash_code acc.2 g.1.2 g.2 in
    (<[g.1.1 := cs_rules cs]> acc.1, cs_arcs cs)) groups (∅, mkArcs [] ∅).
End Runtime.

Arguments RuntimeConfig Name RM : clear implicits.

(** ** Duplicate listeners

    A listener as far as this step sees it: whether it is a datagram listener
    (UDP, QUIC, HTTP/3), and its socket address. *)
Section Dedup.
Context {L : Type} (datagram : L → bool) (sock_addr : L → SocketAddr).

(** The indices to remove, found from the last listener to the first. *)
Fixpoint dup_indices (l : list (nat * L)) (udp tcp : list SocketAddr) : list nat :=
  match l with
  | [] => []
  | (idx, x) :: l =>
      let a := sock_addr x in
      if datagram x
      then if bool_decide (a ∈ udp) then idx :: dup_indices l udp tcp
           else dup_indices l (a :: udp) tcp
      else if bool_decide (a ∈ tcp) then idx :: dup_indices l udp tcp
           else dup_indices l udp (a :: tcp)
  end.

Definition dedup_binds (binds : list L) : list L :=
  fold_left (fun b idx => delete idx b)
    (dup_indices (reverse (imap (fun i x => (i, x)) binds)) [] []) binds.

(** What a listener occupies. *)
Definition bind_key (x : L) : bool * SocketAddr := (datagram x, sock_addr x).

(** The last listener of each key, in order. *)
Fixpoint last_of_key (binds : list L) : list L :=
  match binds with
  | [] => []
  | x :: binds =>
      if bool_decide (bind_key x ∈ bind_key <$> binds) then last_of_key binds
      else x :: last_of_key binds
  end.

Definition seen_key (udp tcp : list SocketAddr) (x : L) : bool :=
  if datagram x then bool_decide (sock_addr x ∈ udp) else bool_decide (sock_addr x ∈ tcp).

(** One run of the loop, from the end of a prefix: which elements stay. *)
Fixpoint kept (seen : L → bool) (l : list L) : list L :=
  match l with
  | [] => []
  | x :: l =>
      let rest := kept seen l in
      if seen x || bool_decide (bind_key x ∈ bind_key <$> l) then rest else x :: rest
  end.

Lemma delete_app_l {A} (l k : list A) i :
  (i < length l)%nat → delete i (l ++ k) = delete i l ++ k.
Proof.
  revert i. induction l as [|x l IH]; intros [|i] Hi; cbn in *; try done; try lia. f_equal. apply IH. lia.
Qed.

Lemma dup_indices_lt l udp tcp n :
  (∀ i x, (i, x) ∈ l → (i < n)%nat) → ∀ i, i ∈ dup_indices l udp tcp → (i < n)%nat.
Proof.
  revert udp tcp. induction l as [|[j x] l IH]; intros udp tcp Hl i; [by intros ?%not_elem_of_nil|].
  assert (Hl' : ∀ i x, (i, x) ∈ l → (i < n)%nat) by (intros; eapply Hl; by right).
  cbn. repeat case_match; try (by apply IH); intros [->|?]%elem_of_cons;
    try (by eapply IH); eapply Hl; by left.
Qed.

Lemma fold_delete_app (is_ : list nat) (l k : list L) :
  (∀ i, i ∈ is_ → (i < length l)%nat) → StronglySorted gt is_ →
  fold_left (fun b idx => delete idx b) is_ (l ++ k) =
  fold_left (fun b idx => delete idx b) is_ l ++ k.
Proof.
  intros Hi Hs. revert l Hi. induction Hs as [|i is_ Hs IH Hlt]; intros l Hi; [done|]. cbn.
  rewrite delete_app_l by (apply Hi; by left). apply IH. intros j Hj.
  rewrite Forall_forall in Hlt. specialize (Hlt j Hj).
  rewrite length_delete by (apply lookup_lt_is_Some, Hi; by left).
  assert (i < length l)%nat by (apply Hi; by left). lia.
Qed.

Lemma imap_snoc {A B} (f : nat → A → B) l x : imap f (l ++ [x]) = imap f l ++ [f (length l) x].
Proof. rewrite imap_app. cbn. by rewrite Nat.add_0_r. Qed.

Lemma elem_of_imap_idx (l : list L) i x : (i, x) ∈ imap (fun i x => (i, x)) l → (i < length l)%nat.
Proof. intros (j & y & [= -> ->] & Hl)%elem_of_lookup_imap_1. by eapply lookup_lt_Some. Qed.

Lemma dup_indices_sorted l udp tcp :
  StronglySorted gt (dup_indices (reverse (imap (fun i x => (i, x)) l)) udp tcp).
Proof.
  revert udp tcp. induction l as [|x l IH] using rev_ind; intros udp tcp; [constructor|].
  rewrite imap_snoc, reverse_snoc. cbn.
  assert (Hlt : ∀ u t, Forall (gt (length l)) (dup_indices (reverse (imap (fun i x => (i, x)) l)) u t)).
  { intros u t. apply Forall_forall. intros i Hi.
    eapply dup_indices_lt in Hi; [exact Hi|]. intros j y. rewrite elem_of_reverse. apply elem_of_imap_idx. }
  repeat case_match; try apply IH; by constructor.
Qed.

Lemma dedup_run (l : list L) udp tcp :
  fold_left (fun b idx => delete idx b)
    (dup_indices (reverse (imap (fun i x => (i, x)) l)) udp tcp) l = kept (seen_key udp tcp) l.
Proof.
  revert udp tcp. induction l as [|x l IH] using rev_ind; intros udp tcp; [done|].
  rewrite imap_snoc, reverse_snoc. cbn [dup_indices].
  assert (Happ : ∀ u t k, fold_left (fun b idx => delete idx b)
    (dup_indices (reverse (imap (fun i x => (i, x)) l)) u t) (l ++ k) = kept (seen_key u t) l ++ k).
  { intros u t k. rewrite fold_delete_app, IH; [done| |apply dup_indices_sorted].
    apply dup_indices_lt. intros j y. rewrite elem_of_reverse. apply elem_of_imap_idx. }
  assert (Hk : kept (seen_key udp tcp) (l ++ [x]) =
    if seen_key udp tcp x then kept (seen_key udp tcp) l
    else kept (fun y => seen_key udp tcp y || bool_decide (bind_key y = bind_key x)) l ++ [x]).
  { clear IH Happ. induction l as [|y l IH].
    - cbn. rewrite (bool_decide_false (bind_key x ∈ [])) by apply not_elem_of_nil.
      by destruct (seen_key udp tcp x).
    - cbn [kept app]. rewrite IH, fmap_app. cbn [fmap list_fmap].
      rewrite (bool_decide_ext (bind_key y ∈ (bind_key <$> l) ++ [bind_key x])
        (bind_key y ∈ bind_key <$> l ∨ bind_key y = bind_key x))
        by (by rewrite elem_of_app, list_elem_of_singleton).
      rewrite bool_decide_or. destruct (seen_key udp tcp x) eqn:Ex.
      + destruct (decide (bind_key y = bind_key x)) as [Ek|Ek].
        * assert (seen_key udp tcp y = true) as ->; [|done].
          unfold bind_key in Ek. injection Ek as Ed Ea. unfold seen_key in *. by rewrite Ed, Ea.
        * by rewrite (bool_decide_false (bind_key y = bind_key x)), orb_false_r by done.
      + by destruct (seen_key udp tcp y), (bool_decide (bind_key y ∈ _)),
          (bool_decide (bind_key y = bind_key x)). }
  rewrite Hk. unfold seen_key at 1.
  assert (Hext : ∀ u t, (∀ y, seen_key u t y =
      seen_key udp tcp y || bool_decide (bind_key y = bind_key x)) →
    kept (seen_key u t) l = kept (fun y => seen_key udp tcp y || bool_decide (bind_key y = bind_key x)) l).
  { intros u t He. clear -He. induction l as [|y l IH]; [done|]. cbn. by rewrite IH, He. }
  assert (Hdel : ∀ (k : list L), delete (length k) (k ++ [x]) = k).
  { clear. intros k. induction k as [|y k IH]; [done|]. cbn. by f_equal. }
  destruct (datagram x) eqn:Ed; case_bool_decide as Ea; cbn [fold_left].
  - by rewrite Hdel, IH.
  - rewrite Happ. f_equal. apply Hext. intros y. unfold seen_key, bind_key. rewrite Ed.
    destruct (datagram y); cbn; [|by rewrite (bool_decide_false ((false, _) = (true, _))), orb_false_r].
    rewrite (bool_decide_ext (sock_addr y ∈ sock_addr x :: udp) (sock_addr y = sock_addr x ∨ sock_addr y ∈ udp))
      by apply elem_of_cons.
    rewrite bool_decide_or, orb_comm. f_equal. apply bool_decide_ext. split; congruence.
  - by rewrite Hdel, IH.
  - rewrite Happ. f_equal. apply Hext. intros y. unfold seen_key, bind_key. rewrite Ed.
    destruct (datagram y); cbn; [by rewrite (bool_decide_false ((true, _) = (false, _))), orb_false_r|].
    rewrite (bool_decide_ext (sock_addr y ∈ sock_addr x :: tcp) (sock_addr y = sock_addr x ∨ sock_addr y ∈ tcp))
      by apply elem_of_cons.
    rewrite bool_decide_or, orb_comm. f_equal. apply bool_decide_ext. split; congruence.
Qed.

(** Removing duplicate listeners by index, from the end, leaves exactly the
    last listener of each address and kind of transport, in the original
    order; no two of them share an address and kind, and no address is lost. *)
Theorem dedup_binds_last (binds : list L) :
  dedup_binds binds = last_of_key binds ∧
  NoDup (bind_key <$> dedup_binds binds) ∧
  ∀ k, k ∈ bind_key <$> binds → k ∈ bind_key <$> dedup_binds binds.
Proof.
  assert (Heq : dedup_binds binds = last_of_key binds).
  { unfold dedup_binds. rewrite dedup_run. induction binds as [|x l IH]; [done|]. cbn [kept last_of_key].
    rewrite IH. assert (seen_key [] [] x = false) as ->; [|done].
    unfold seen_key. case_match; by rewrite bool_decide_false by apply not_elem_of_nil. }
  assert (Hsub : ∀ l k, k ∈ bind_key <$> last_of_key l ↔ k ∈ bind_key <$> l).
  { intros l k. induction l as [|x l IH]; [done|]. cbn [last_of_key]. case_bool_decide as E.
    - rewrite IH. cbn [fmap list_fmap]. rewrite elem_of_cons. split; [auto|]. by intros [->|?].
    - cbn [fmap list_fmap]. by rewrite !elem_of_cons, IH. }
  rewrite Heq. split; [done|]. split; [|intros k; by rewrite Hsub].
  clear Heq. induction binds as [|x l IH]; [constructor|]. cbn [last_of_key].
  case_bool_decide as E; [done|]. cbn [fmap list_fmap]. constructor; [|done]. by rewrite Hsub.
Qed.
End Dedup.
