(* ===== verification/Context.v ===== *)
(** * Requests, contexts and the middleware chain
      ([dns.rs], [infra/middleware.rs], [dns_mw.rs])

    What a query carries through the chain of middlewares, the TTL limits that
    apply to it, how the options of its listener and of the client's rule
    combine, and the chain itself. *)

From S2P Require Import Prelude Names DomainMap Config DomainRule DomainRuleTree IpSet Message Runtime.

(** ** Requests *)
Inductive Protocol := PUdp | PTcp | PTls | PHttpsP | PH3 | PQuic.

Record DnsRequest (Name : Type) := mkReq {
  req_id : Z;
  req_query : Query Name;
  req_message : Message Name;
  req_src : SocketAddr;
  req_protocol : Protocol;
}.
Arguments mkReq {Name} _ _ _ _ _.
Arguments req_id {Name} _.
Arguments req_query {Name} _.
Arguments req_message {Name} _.
Arguments req_src {Name} _.
Arguments req_protocol {Name} _.

(** ** TTL limits *)
Record TtlLimits := mkLimits { lim_min : option Z; lim_max : option Z }.

Definition limits_apply (l : TtlLimits) (ttl : Z) : Z :=
  let ttl := opt_map_or ttl (Z.min ttl) (lim_max l) in
  opt_map_or ttl (Z.max ttl) (lim_min l).

(** A configured TTL: zero is unset, and it saturates at 32 bits. *)
Definition ttl_set (ttl : option Z) : option Z :=
  try_u32_or_max <$> opt_filter (fun t => 0 <? t) ttl.

(** The limits from the options of the rule and of the configuration. *)
Definition combine_limits (rule_ttl cfg_ttl rule_min rule_max cfg_min cfg_max : option Z) : TtlLimits :=
  match opt_or (ttl_set rule_ttl) (ttl_set cfg_ttl) with
  | Some ttl => mkLimits (Some ttl) (Some ttl)
  | None =>
      let rule_min := ttl_set rule_min in
      let rule_max := ttl_set rule_max in
      let global_min := ttl_set cfg_min in
      let global_max := ttl_set cfg_max in
      let l := mkLimits global_min global_max in
      let l := match rule_min with
               | Some min =>
                   mkLimits (Some min)
                     (if opt_map_or false (fun max => max <=? min) global_max then Some min else lim_max l)
               | None => l
               end in
      let l := match rule_max with
               | Some max =>
                   mkLimits
                     (if is_none rule_min && opt_map_or false (fun min => max <=? min) global_min
                      then Some max else lim_min l)
                     (Some max)
               | None => l
               end in
      match lim_min l, lim_max l with
      | Some min, Some max => if max <? min then mkLimits (Some min) (Some min) else l
      | _, _ => l
      end
  end.

Lemma ttl_set_range t x : ttl_set t = Some x → 0 < x ≤ u32_max.
Proof.
  unfold ttl_set, opt_filter, try_u32_or_max, u32_max. destruct t as [t|]; [|done].
  destruct (Z.ltb_spec 0 t); [|done]. cbn. intros [= <-]. case_match; lia.
Qed.

(** The limits never cross and stay in 32 bits, whatever is configured: a
    TTL comes out between them; a domain rule's fixed TTL decides alone; and
    without a fixed TTL a rule's minimum is the minimum, and a rule's maximum
    the maximum unless the rule's own minimum is above it. *)
Theorem combine_limits_correct (rule_ttl cfg_ttl rule_min rule_max cfg_min cfg_max : option Z) :
  let l := combine_limits rule_ttl cfg_ttl rule_min rule_max cfg_min cfg_max in
  (∀ a b, lim_min l = Some a → lim_max l = Some b → a ≤ b) ∧
  (∀ ttl, opt_map_or True (fun a => a ≤ limits_apply l ttl) (lim_min l) ∧
          opt_map_or True (fun b => limits_apply l ttl ≤ b) (lim_max l)) ∧
  (∀ ttl, in_u32 ttl → in_u32 (limits_apply l ttl)) ∧
  (∀ t, ttl_set rule_ttl = Some t → ∀ ttl, limits_apply l ttl = t) ∧
  (ttl_set rule_ttl = None → ttl_set cfg_ttl = None →
    (∀ a, ttl_set rule_min = Some a → lim_min l = Some a) ∧
    (∀ b, ttl_set rule_max = Some b →
      lim_max l = Some (opt_map_or b (Z.max b) (ttl_set rule_min)))).
Proof.
  intros l. subst l. unfold combine_limits.
  pose proof (ttl_set_range rule_ttl) as R1. pose proof (ttl_set_range cfg_ttl) as R2.
  pose proof (ttl_set_range rule_min) as R3. pose proof (ttl_set_range rule_max) as R4.
  pose proof (ttl_set_range cfg_min) as R5. pose proof (ttl_set_range cfg_max) as R6.
  unfold in_u32, limits_apply.
  destruct (ttl_set rule_ttl) as [t1|], (ttl_set cfg_ttl) as [t2|];
    [specialize (R1 _ eq_refl)|specialize (R1 _ eq_refl)|specialize (R2 _ eq_refl)|];
    cbn [opt_or opt_map_or lim_min lim_max].
  4: destruct (ttl_set rule_min) as [a|], (ttl_set rule_max) as [b|], (ttl_set cfg_min) as [c|],
       (ttl_set cfg_max) as [d|];
     try specialize (R3 _ eq_refl); try specialize (R4 _ eq_refl); try specialize (R5 _ eq_refl);
     try specialize (R6 _ eq_refl); cbn [opt_or opt_map_or is_none is_some negb andb lim_min lim_max];
     repeat (case_match; cbn [lim_min lim_max opt_map_or] in *).
  all: split_and!; intros; simplify_eq; cbn in *; try done; try lia; split_and?; intros;
    simplify_eq; repeat f_equal; lia || done.
Qed.

(** ** Contexts *)
Inductive LookupFrom := FromNone | FromCache | FromStatic | FromZone (s : string) | FromServer (s : string).
#[global] Instance LookupFrom_eq_dec : EqDecision LookupFrom.
Proof. solve_decision. Defined.

Section Context_.
Context {Name : Type} `{NameLib Name} `{MsgLib Name}.
Context {RM : Type → Type} `{RangeMapLib RM} `{NL : NetLib}.
Variable hash : Z → list Z → Z.
Variable wm : list Z → list Z → bool.
(** A pending lookup: a future. *)
Context {Fut : Type}.

Abbreviation Node := (TreeNode (DomainRule Name)).
Abbreviation Cfg := (RuntimeConfig Name RM).

Record DnsContext := mkCtx {
  ctx_cfg : Cfg;
  ctx_server_opts : ServerOpts;
  ctx_domain_rule : option Node;
  ctx_fastest_speed : Z;
  ctx_source : LookupFrom;
  ctx_no_cache : bool;
  ctx_is_dualstack : bool;
  ctx_pending_speed_check : option Fut;
}.
Implicit Types (ctx : DnsContext).

(** An option of the context's rule, as [DomainRuleGetter] on the context's
    optional node gives it. *)
Definition ctx_rule_get {A} (f : DomainRule Name → option A) ctx : option A :=
  opt_node_get (fun n => f (node_rule n)) (ctx_domain_rule ctx).

Definition ctx_new (name : Name) (cfg : Cfg) (opts : ServerOpts) : DnsContext :=
  let group_name := opt_unwrap_or "" (so_rule_group opts) in
  let rule := find_domain_rule hash wm cfg name group_name in
  let no_cache := opt_unwrap_or false (opt_node_get (fun n => rule_no_cache (node_rule n)) rule) in
  mkCtx cfg opts rule 0 FromNone no_cache false None.

(** A clone runs a lookup of its own: the pending check is not copied. *)
Definition ctx_clone ctx : DnsContext :=
  mkCtx (ctx_cfg ctx) (ctx_server_opts ctx) (ctx_domain_rule ctx) (ctx_fastest_speed ctx)
    (ctx_source ctx) (ctx_no_cache ctx) (ctx_is_dualstack ctx) None.

Definition ctx_set_source (s : LookupFrom) ctx : DnsContext :=
  mkCtx (ctx_cfg ctx) (ctx_server_opts ctx) (ctx_domain_rule ctx) (ctx_fastest_speed ctx)
    s (ctx_no_cache ctx) (ctx_is_dualstack ctx) (ctx_pending_speed_check ctx).
Definition ctx_set_no_cache (b : bool) ctx : DnsContext :=
  mkCtx (ctx_cfg ctx) (ctx_server_opts ctx) (ctx_domain_rule ctx) (ctx_fastest_speed ctx)
    (ctx_source ctx) b (ctx_is_dualstack ctx) (ctx_pending_speed_check ctx).
Definition ctx_set_pending (p : option Fut) ctx : DnsContext :=
  mkCtx (ctx_cfg ctx) (ctx_server_opts ctx) (ctx_domain_rule ctx) (ctx_fastest_speed ctx)
    (ctx_source ctx) (ctx_no_cache ctx) (ctx_is_dualstack ctx) p.
Definition ctx_set_speed (d : Z) ctx : DnsContext :=
  mkCtx (ctx_cfg ctx) (ctx_server_opts ctx) (ctx_domain_rule ctx) d
    (ctx_source ctx) (ctx_no_cache ctx) (ctx_is_dualstack ctx) (ctx_pending_speed_check ctx).
Definition ctx_set_rule (r : option Node) ctx : DnsContext :=
  mkCtx (ctx_cfg ctx) (ctx_server_opts ctx) r (ctx_fastest_speed ctx)
    (ctx_source ctx) (ctx_no_cache ctx) (ctx_is_dualstack ctx) (ctx_pending_speed_check ctx).
Definition ctx_set_dualstack (b : bool) ctx : DnsContext :=
  mkCtx (ctx_cfg ctx) (ctx_server_opts ctx) (ctx_domain_rule ctx) (ctx_fastest_speed ctx)
    (ctx_source ctx) (ctx_no_cache ctx) b (ctx_pending_speed_check ctx).

(** The first rule with a name server, from a node up through its zones. *)
Fixpoint node_nameserver (n : Node) : option string :=
  match n with
  | mkNode r z =>
      match nameserver r with
      | Some g => Some g
      | None => match z with Some z => node_nameserver z | None => None end
      end
  end.

Definition server_group_name ctx : string :=
  match so_group (ctx_server_opts ctx) with
  | Some n => n
  | None => opt_unwrap_or "default" (n ← ctx_domain_rule ctx; node_nameserver n)
  end.

Definition rr_ttl_limits ctx : TtlLimits :=
  let cfg := ctx_cfg ctx in
  combine_limits (ctx_rule_get rr_ttl ctx) (cfg_rr_ttl cfg) (ctx_rule_get rr_ttl_min ctx)
    (ctx_rule_get rr_ttl_max ctx) (cfg_rr_ttl_min cfg) (cfg_rr_ttl_max cfg).

(** ** Building requests *)
Definition req_new (m : Message Name) (src : SocketAddr) (p : Protocol) : DnsRequest Name :=
  mkReq (h_id (msg_header m)) (opt_unwrap_or default_query (head (msg_queries m))) m src p.

Definition with_cname (r : DnsRequest Name) (name : Name) : DnsRequest Name :=
  mkReq (req_id r) (query_of name (q_type (req_query r))) (req_message r) (req_src r) (req_protocol r).

Definition set_query_type (r : DnsRequest Name) (t : RecordType) : DnsRequest Name :=
  mkReq (req_id r) (mkQuery (q_name (req_query r)) t (q_class (req_query r))) (req_message r)
    (req_src r) (req_protocol r).

Definition is_dnssec (r : DnsRequest Name) : bool :=
  opt_unwrap_or (is_dnssec_type (q_type (req_query r)))
    (edns_dnssec_ok <$> msg_edns (req_message r)).

(** [From<Query> for DnsRequest] *)
Definition req_of_query (q : Query Name) : DnsRequest Name :=
  let m := msg_fresh in
  mkReq (h_id (msg_header m)) q
    (mkMsg (msg_header m) (msg_queries m ++ [q]) (msg_answers m) (msg_authorities m)
       (msg_additionals m) (msg_edns m))
    (mkSocket (V4 2130706433) 53) PUdp.

(** ** The middleware chain *)
Section Chain.
Context {TCtx TReq TRes TErr : Type}.

Definition Handler := TCtx → TReq → TCtx * result TRes TErr.
Definition Middleware := TCtx → TReq → Handler → TCtx * result TRes TErr.

(** [Next::run]: the first middleware gets the rest as its continuation. *)
Fixpoint next_run (default : Handler) (mws : list Middleware) : Handler :=
  fun c req =>
    match mws with
    | current :: rest => current c req (next_run default rest)
    | [] => default c req
    end.

Definition host_execute (default : Handler) (mws : list Middleware) : Handler := next_run default mws.
End Chain.

(** [DnsDefaultHandler] *)
Definition default_handler ctx (req : DnsRequest Name)
    : DnsContext * result (DnsResponse Name) (LookupError Name) :=
  (ctx, Err (no_records_found (req_query req)
               (as_u32 (opt_unwrap_or 0 (cfg_rr_ttl (ctx_cfg ctx)))))).

(** ** The client's subnet *)

(** [Ipv6Addr::to_ipv4_mapped]: the address in [::ffff:0:0/96]. *)
Definition to_ipv4_mapped (a : Z) : option Z :=
  if a / 2 ^ 32 =? 65535 then Some (a mod 2 ^ 32) else None.

(** [Ipv4Net::new] and [Ipv6Net::new] refuse a prefix longer than the address. *)
Definition ipv4net_new (a prefix : Z) : option IpNet :=
  if prefix <=? 32 then Some (mkNet (V4 a) prefix) else None.
Definition ipv6net_new (a prefix : Z) : option IpNet :=
  if prefix <=? 128 then Some (mkNet (V6 a) prefix) else None.

Inductive Panic := UnwrapNone.

Definition unwrap {A} (x : option A) : result A Panic :=
  match x with Some a => Ok a | None => Err UnwrapNone end.

Definition subnet_net (s : ClientSubnet) : result IpNet Panic :=
  match subnet_addr s with
  | V4 a => unwrap (ipv4net_new a (subnet_source_prefix s))
  | V6 a =>
      match to_ipv4_mapped a with
      | Some a => unwrap (ipv4net_new a (subnet_source_prefix s))
      | None => unwrap (ipv6net_new a (subnet_source_prefix s))
      end
  end.

Definition req_client_subnet (req : DnsRequest Name) : result (option IpNet) Panic :=
  match e ← msg_edns (req_message req); edns_subnet e with
  | Some s => result_map Some (subnet_net s)
  | None => Ok None
  end.

(** ** The options of a query *)
Definition is_mac_rule (r : ClientRule) : bool :=
  match cr_client r with CMacAddr _ => true | CIpAddr _ => false end.

Definition client_ip (req : DnsRequest Name) : IpAddr :=
  match sa_ip (req_src req) with
  | V6 a => match to_ipv4_mapped a with Some a => V4 a | None => V6 a end
  | i => i
  end.

Definition mac_rule (rules : list ClientRule) (mac : option string) : option ClientRule :=
  mac ← mac; find_first (fun r => match_mac r mac) rules.

Definition client_rule (rules : list ClientRule) (mac : option string) (subnet : option IpNet)
    (ip : IpAddr) : option ClientRule :=
  opt_or (mac_rule rules mac)
    match subnet with
    | Some n => find_first (fun r => match_net r n) rules
    | None => find_first (fun r => match_ip r ip) rules
    end.

Definition opts_set_background (o : ServerOpts) (b : bool) : ServerOpts :=
  mkOpts (so_ddr o) (so_local_addr o) (so_ipset o) (so_nftset o) (so_group o) (so_rule_group o)
    (so_no_rule_addr o) (so_no_rule_nameserver o) (so_no_rule_ipset o) (so_no_speed_check o)
    (so_no_cache o) (so_no_rule_soa o) (so_no_dualstack_selection o) (so_force_aaaa_soa o)
    (so_force_https_soa o) (so_no_serve_expired o) b.
Definition opts_set_rule_group (o : ServerOpts) (g : option string) : ServerOpts :=
  mkOpts (so_ddr o) (so_local_addr o) (so_ipset o) (so_nftset o) (so_group o) g
    (so_no_rule_addr o) (so_no_rule_nameserver o) (so_no_rule_ipset o) (so_no_speed_check o)
    (so_no_cache o) (so_no_rule_soa o) (so_no_dualstack_selection o) (so_force_aaaa_soa o)
    (so_force_https_soa o) (so_no_serve_expired o) (so_is_background o).

Definition client_opts (rule : option ClientRule) (server_opts : ServerOpts) : ServerOpts :=
  match rule with
  | Some r =>
      let o := opts_set_background (cr_options r) (so_is_background server_opts) in
      let o := opts_apply o server_opts in
      if bool_decide (cr_group r = "") then o else opts_set_rule_group o (Some (cr_group r))
  | None => server_opts
  end.

(** The permits left for foreground queries; [None] without a limit. *)
Definition Permits := option Z.

Definition acquire (permits : Permits) (background : bool) : result Permits (LookupError Name) :=
  if background then Ok permits
  else match permits with
       | None => Ok None
       | Some n => if 0 <? n then Ok (Some (n - 1)) else Err (EResponseCode Refused)
       end.
Definition release (permits : Permits) (background : bool) : Permits :=
  if background then permits else (Z.add 1) <$> permits.

Definition query_limit (cfg : Cfg) : Permits :=
  opt_filter (fun n => 0 <? n) (c_max_query_limit (rc_inner cfg)).

(** The part of [search] before the chain runs: the context of the query, or
    what it fails with. [lookup_mac] finds the MAC of an address; [wants_mac]
    is whether a plugin asks for it. *)
Inductive SearchStart :=
| SPanic
| SRefused (e : LookupError Name)
| SRun (permits : Permits) (ctx : DnsContext).

Definition search_start (lookup_mac : IpAddr → option string) (wants_mac : bool) (cfg : Cfg)
    (permits : Permits) (req : DnsRequest Name) (server_opts : ServerOpts) : SearchStart :=
  match acquire permits (so_is_background server_opts) with
  | Err e => SRefused e
  | Ok permits =>
      match req_client_subnet req with
      | Err _ => SPanic
      | Ok subnet =>
          let rules := c_client_rules (rc_inner cfg) in
          let mac := if existsb is_mac_rule rules || wants_mac
                     then lookup_mac (sa_ip (req_src req)) else None in
          let rule := client_rule rules mac subnet (client_ip req) in
          SRun permits (ctx_new (lower_name (q_name (req_query req))) cfg (client_opts rule server_opts))
      end
  end.

(** [DnsMiddlewareHandler::search]: the result, and the permits after. *)
Definition search (mws : list (Middleware (TCtx := DnsContext)))
    (lookup_mac : IpAddr → option string) (wants_mac : bool) (cfg : Cfg) (permits : Permits)
    (req : DnsRequest Name) (server_opts : ServerOpts)
    : Permits * result (result (DnsResponse Name) (LookupError Name)) Panic :=
  match search_start lookup_mac wants_mac cfg permits req server_opts with
  | SPanic => (permits, Err UnwrapNone)
  | SRefused e => (permits, Ok (Err e))
  | SRun permits ctx =>
      (release permits (so_is_background server_opts),
       Ok (host_execute default_handler mws ctx req).2)
  end.

(** *** Facts *)

(** Which subnets make the query's task panic: the prefix is checked
    against the family of the address after an IPv4-mapped address has become an
    IPv4 one, so a mapped address with a prefix over 32, though valid for its
    own family, does. *)
Theorem client_subnet_panics (s : ClientSubnet) :
  is_ok (subnet_net s) =
  match subnet_addr s with
  | V4 _ => subnet_source_prefix s <=? 32
  | V6 a => if a / 2 ^ 32 =? 65535 then subnet_source_prefix s <=? 32
            else subnet_source_prefix s <=? 128
  end.
Proof.
  unfold subnet_net, to_ipv4_mapped, ipv4net_new, ipv6net_new.
  destruct (subnet_addr s); repeat case_match; simplify_eq; done.
Qed.

(** A client rule and the listener: every option of the rule wins and the
    listener's is taken where the rule has none, whether the query runs in the
    background is the listener's, and the rule's own group, when named, is the
    group of rules the query is looked up in. *)
Theorem client_opts_precedence (r : ClientRule) (o : ServerOpts) :
  let out := client_opts (Some r) o in
  so_is_background out = so_is_background o ∧
  so_group out = opt_or (so_group (cr_options r)) (so_group o) ∧
  so_no_cache out = opt_or (so_no_cache (cr_options r)) (so_no_cache o) ∧
  so_no_speed_check out = opt_or (so_no_speed_check (cr_options r)) (so_no_speed_check o) ∧
  so_no_rule_addr out = opt_or (so_no_rule_addr (cr_options r)) (so_no_rule_addr o) ∧
  so_no_rule_soa out = opt_or (so_no_rule_soa (cr_options r)) (so_no_rule_soa o) ∧
  so_no_rule_ipset out = opt_or (so_no_rule_ipset (cr_options r)) (so_no_rule_ipset o) ∧
  so_no_rule_nameserver out = opt_or (so_no_rule_nameserver (cr_options r)) (so_no_rule_nameserver o) ∧
  so_no_dualstack_selection out =
    opt_or (so_no_dualstack_selection (cr_options r)) (so_no_dualstack_selection o) ∧
  so_force_aaaa_soa out = opt_or (so_force_aaaa_soa (cr_options r)) (so_force_aaaa_soa o) ∧
  so_force_https_soa out = opt_or (so_force_https_soa (cr_options r)) (so_force_https_soa o) ∧
  so_no_serve_expired out = opt_or (so_no_serve_expired (cr_options r)) (so_no_serve_expired o) ∧
  so_rule_group out =
    if bool_decide (cr_group r = "") then opt_or (so_rule_group (cr_options r)) (so_rule_group o)
    else Some (cr_group r).
Proof.
  unfold client_opts. assert (Hor : ∀ A (a b : option A), (if is_none a then b else a) = opt_or a b).
  { by intros A [a|] b. }
  case_bool_decide; cbn; rewrite ?Hor; repeat split.
Qed.

(** *** The limit on foreground queries *)
Inductive search_event := EvBegin (background : bool) | EvEnd (background : bool).

(** The permits, and the foreground and background queries running. *)
Record SearchState := mkSearch { ss_permits : Permits; ss_fg : Z; ss_bg : Z; ss_refused : Z }.

Inductive search_step : SearchState → search_event → SearchState → Prop :=
| step_begin s bg p :
    acquire (ss_permits s) bg = Ok p →
    search_step s (EvBegin bg)
      (mkSearch p (ss_fg s + if bg then 0 else 1) (ss_bg s + if bg then 1 else 0) (ss_refused s))
| step_refuse s bg e :
    acquire (ss_permits s) bg = Err e →
    search_step s (EvBegin bg) (mkSearch (ss_permits s) (ss_fg s) (ss_bg s) (ss_refused s + 1))
| step_end_fg s :
    0 < ss_fg s →
    search_step s (EvEnd false)
      (mkSearch (release (ss_permits s) false) (ss_fg s - 1) (ss_bg s) (ss_refused s))
| step_end_bg s :
    0 < ss_bg s →
    search_step s (EvEnd true)
      (mkSearch (release (ss_permits s) true) (ss_fg s) (ss_bg s - 1) (ss_refused s)).

Inductive search_reach (limit : Permits) : SearchState → Prop :=
| reach_init : search_reach limit (mkSearch limit 0 0 0)
| reach_step s e s' : search_reach limit s → search_step s e s' → search_reach limit s'.

(** Under any interleaving of queries, at most the configured number run in
    the foreground; permits and running queries always add up to the limit, so
    one is refused exactly when the limit is reached; and background queries
    are never refused. *)
Theorem query_limit_respected (n : Z) (s : SearchState) :
  0 < n → search_reach (Some n) s →
  0 ≤ ss_fg s ≤ n ∧ ss_permits s = Some (n - ss_fg s) ∧
  (∀ bg, is_ok (acquire (ss_permits s) bg) = bg || (ss_fg s <? n)).
Proof.
  intros Hn Hr. assert (Hinv : 0 ≤ ss_fg s ≤ n ∧ ss_permits s = Some (n - ss_fg s)).
  { induction Hr as [|s e s' _ [Hf Hp] Hs]; [cbn; split; [lia|f_equal; lia]|].
    destruct Hs as [s bg p Ha|s bg e' Ha|s Hfg|s Hbg]; cbn [ss_fg ss_permits] in *;
      try rewrite Hp in *; unfold acquire, release in *.
    - destruct bg; [injection Ha as <-; split; [lia|f_equal; lia]|].
      destruct (Z.ltb_spec 0 (n - ss_fg s)); [|done]. injection Ha as <-. split; [lia|f_equal; lia].
    - done.
    - split; [lia|]. cbn. f_equal. lia.
    - done. }
  destruct Hinv as [Hf Hp]. split; [done|]. split; [done|]. intros bg. rewrite Hp. unfold acquire.
  destruct bg; [done|]. cbn. destruct (Z.ltb_spec 0 (n - ss_fg s)), (Z.ltb_spec (ss_fg s) n); cbn; lia.
Qed.
End Context_.

Arguments DnsContext Name RM Fut : clear implicits.

(** ** Witness *)
Lemma query_limit_respected_witness :
  ∃ s, search_reach (Name := PlainName) (Some 2) s ∧ ss_fg s = 1 ∧
    is_ok (acquire (Name := PlainName) (ss_permits s) false) = true.
Proof.
  exists (mkSearch (Some 1) 1 0 0).
  assert (Hr : search_reach (Name := PlainName) (Some 2) (mkSearch (Some 1) 1 0 0)).
  { eapply reach_step; [apply reach_init|]. apply (step_begin (mkSearch (Some 2) 0 0 0) false (Some 1)).
    reflexivity. }
  split; [exact Hr|]. split; [reflexivity|].
  destruct (query_limit_respected (Name := PlainName) 2 (mkSearch (Some 1) 1 0 0)) as (_ & _ & Ha); [lia|exact Hr|].
  rewrite (Ha false). reflexivity.
Defined.
