(* ===== verification/Calls.v ===== *)
(** * Calls of the rest of the chain ([infra/middleware.rs])

    A middleware is written once, as the calls of [next.run] it makes and what it
    does with each answer ([Handling]). Its calls are answered by a function of its own
    state ([answered]: the handler with any continuation, of which the theorems of
    the middleware speak), or by the rest of the chain over the state of all the
    middlewares ([run_over], of which the chain is made). *)

From S2P Require Import Prelude Names Message Context.

(** ** A handler as its calls *)
Section Calls.
Context {Name W : Type}.
Abbreviation Req := (DnsRequest Name).
Abbreviation Res := (result (DnsResponse Name) (LookupError Name)).

(** [NextRun w req k]: the rest is run with the request in the state [w], and its
    state and answer go to [k]. *)
Inductive Handling (A : Type) :=
| Return (a : A)
| NextRun (w : W) (req : Req) (k : W → Res → Handling A).
Arguments Return {A} _.
Arguments NextRun {A} _ _ _.

Fixpoint run_then {A B} (r : Handling A) (f : A → Handling B) : Handling B :=
  match r with
  | Return a => f a
  | NextRun w req k => NextRun w req (fun w res => run_then (k w res) f)
  end.

(** Every call answered by a function. *)
Fixpoint answered {A} (next : W → Req → W * Res) (r : Handling A) : A :=
  match r with
  | Return a => a
  | NextRun w req k => let '(w, res) := next w req in answered next (k w res)
  end.

Lemma answered_then {A B} next (r : Handling A) (f : A → Handling B) :
  answered next (run_then r f) = answered next (f (answered next r)).
Proof. induction r as [a|w req k IH]; [done|]. cbn. destruct (next w req) as [w' res]. apply IH. Qed.

(** The request of the first call, with the state it is made in. *)
Definition first_call {A} (r : Handling A) : option (W * Req) :=
  match r with Return _ => None | NextRun w req _ => Some (w, req) end.
End Calls.
Arguments Handling : clear implicits.
Arguments Return {Name W A} _.
Arguments NextRun {Name W A} _ _ _.

(** [next.run(ctx, req).await], and nothing else. *)
Definition pass_on {Name W} (w : W) (req : DnsRequest Name) : Handling Name W (W * result (DnsResponse Name) (LookupError Name)) :=
  NextRun w req (fun w res => Return (w, res)).

Lemma answered_pass_on {Name W} next (w : W) (req : DnsRequest Name) : answered next (pass_on w req) = next w req.
Proof. cbn. by destruct (next w req). Qed.

(** ** The calls over a larger state *)
(** A query fails, or its task ends in a panic. *)
Inductive PipeError (Name : Type) := FailedE (e : LookupError Name) | PanicE.
Arguments FailedE {Name} _.
Arguments PanicE {Name}.

Section Over.
Context {Name W P : Type} (get : P → W) (put : W → P → P).
Abbreviation Req := (DnsRequest Name).
Abbreviation Res := (result (DnsResponse Name) (LookupError Name)).
Abbreviation Reply := (result (DnsResponse Name) (PipeError Name)).

Definition reply_of (r : Res) : Reply := match r with Ok x => Ok x | Err e => Err (FailedE e) end.
Definition of_reply (r : Reply) : option Res :=
  match r with Ok x => Some (Ok x) | Err (FailedE e) => Some (Err e) | Err PanicE => None end.

Lemma reply_of_ok r : of_reply (reply_of r) = Some r.
Proof. by destruct r. Qed.

(** A call is [Next::run] over the whole state, in which the middleware has put its
    own part; a panic of the rest ends the task of the query. *)
Fixpoint run_over {A} (ends : A → P → P * Reply) (next : P → Req → P * Reply) (p : P) (r : Handling Name W A) : P * Reply :=
  match r with
  | Return a => ends a p
  | NextRun w req k =>
      let '(p1, r1) := next (put w p) req in
      match of_reply r1 with
      | Some res => run_over ends next p1 (k (get p1) res)
      | None => (p1, Err PanicE)
      end
  end.

(** What holds of each call and of the end holds of the whole. *)
Lemma run_over_inv {A} (R : relation P) ends next (r : Handling Name W A) :
  Reflexive R → Transitive R → (∀ w p, R p (put w p)) → (∀ a p, R p (ends a p).1) → (∀ p req, R p (next p req).1) →
  ∀ p, R p (run_over ends next p r).1.
Proof.
  intros Hr Ht Hput Hends Hnext. induction r as [a|w req k IH]; intros p; [apply Hends|]. cbn [run_over].
  specialize (Hnext (put w p) req). destruct (next (put w p) req) as [p1 r1]. cbn [fst] in Hnext.
  assert (R p p1) as Hp by (by etrans; [apply (Hput w)|]).
  destruct (of_reply r1) as [res|]; [|done]. etrans; [exact Hp|apply IH].
Qed.

(** Without a panic of the rest there is none of the whole. *)
Lemma run_over_ends {A} ends next (r : Handling Name W A) :
  (∀ a p, ∃ x, (ends a p).2 = reply_of x) → (∀ p req, ∃ x, (next p req).2 = reply_of x) →
  ∀ p, ∃ x, (run_over ends next p r).2 = reply_of x.
Proof.
  intros Hends Hnext. induction r as [a|w req k IH]; intros p; [apply Hends|]. cbn [run_over].
  destruct (Hnext (put w p) req) as [x Hx]. destruct (next (put w p) req) as [p1 r1]. cbn in Hx. subst r1.
  rewrite reply_of_ok. apply IH.
Qed.
End Over.
