(* ===== verification/Dnsmasq.v ===== *)
(** * Leases of dnsmasq ([dnsmasq.rs], [dns_mw_dnsmasq.rs])

    The lease file gives names and hardware addresses to the clients of the
    network; the neighbour table of the kernel gives hardware addresses to IPv6
    addresses that are in no lease. *)

From S2P Require Import Prelude Names DomainMap DomainMapSpec Config DomainRule DomainRuleTree IpSet Message Runtime Context Calls Text FileWatch.

(** ** Leases *)
Record ClientInfo (Name : Type) := mkClient {
  ci_id : text;
  ci_ip : IpAddr;
  ci_host : Name;
  ci_mac : text;
  ci_expires_at : Z;
}.
Arguments mkClient {Name} _ _ _ _ _.
Arguments ci_id {Name} _.
Arguments ci_ip {Name} _.
Arguments ci_host {Name} _.
Arguments ci_mac {Name} _.
Arguments ci_expires_at {Name} _.

Record LeaseCache (Name : Type) := mkLeases {
  lc_clients : DomainMap (ClientInfo Name);
  lc_ip_clients : gmap IpAddr (ClientInfo Name);
  lc_mac_clients : gmap text (ClientInfo Name);
  lc_modified_at : option Z;
  lc_checked_at : Instant;
}.
Arguments mkLeases {Name} _ _ _ _ _.
Arguments lc_clients {Name} _.
Arguments lc_ip_clients {Name} _.
Arguments lc_mac_clients {Name} _.
Arguments lc_modified_at {Name} _.
Arguments lc_checked_at {Name} _.

Definition CHAR_SPACE : Z := 32.
Definition CHAR_HASH : Z := 35.

Section Leases.
Context {Name : Type} `{NameLib Name} `{NameText Name}.
(** The date library's conversion of a count of seconds to a date. *)
Variable from_timestamp : Z → option Z.
Variable hash : Z → list Z → Z.
Variable wm : list Z → list Z → bool.

(** [FromStr for ClientInfo]; [local_now] is read when the first field is not a
    date. *)
Definition client_info (local_now : Z) (s : text) : option (ClientInfo Name) :=
  let s := trim s in
  match s with
  | [] => None
  | c :: _ =>
      if c =? CHAR_HASH then None
      else
        let parts := words_at (Z.eqb CHAR_SPACE) s in
        let timestamp := opt_unwrap_or local_now (t ← head parts; n ← i64_parse t; from_timestamp n) in
        mac ← parts !! 1%nat;
        ip ← parts !! 2%nat ≫= ip_of_bytes;
        host ← parts !! 3%nat ≫= name_parse;
        if bool_decide (name_show host = []) then None
        else id ← parts !! 4%nat; Some (mkClient id ip host mac timestamp)
  end.

(** A line of the file, with the zone appended to its host. *)
Definition lease_line (local_now : Z) (zone : option Name) (line : text) : option (ClientInfo Name) :=
  let line := trim_start line in
  match line with
  | [] => None
  | c :: _ =>
      if c =? CHAR_HASH then None
      else
        client ← client_info local_now line;
        let host := match zone with
                    | Some z => opt_unwrap_or (ci_host client) (name_append_name (ci_host client) z)
                    | None => ci_host client
                    end in
        Some (mkClient (ci_id client) (ci_ip client) (name_set_fqdn true host) (ci_mac client) (ci_expires_at client))
  end.

(** The map of names while the file is read is a hash map ([assoc_set]). *)
Record LeaseData := mkData {
  ld_names : list (WildcardName Name * ClientInfo Name);
  ld_ips : gmap IpAddr (ClientInfo Name);
  ld_macs : gmap text (ClientInfo Name);
}.

Definition lease_insert (d : LeaseData) (c : ClientInfo Name) : LeaseData :=
  mkData (assoc_set (ld_names d) (wn_from_name (ci_host c)) c)
    (<[ci_ip c:=c]> (ld_ips d)) (<[text_lower (ci_mac c):=c]> (ld_macs d)).

(** A line that is not text is left out. *)
Definition read_lease_file (local_now : Z) (zone : option Name) (lines : list (option text)) : LeaseData :=
  fold_left lease_insert (omap (fun line => line ≫= lease_line local_now zone) lines) (mkData [] ∅ ∅).

(** ** The neighbour table *)
Record NeighborStore := mkNeighbors { nb_cache : gmap IpAddr text; nb_checked_at : Instant }.

(** [`ip -6 neigh`]: not run, or whether it succeeded and what it printed. *)
Definition NeighOutput := option (bool * text).

Definition is_valid_mac (mac : text) : bool :=
  let parts := split_at (Z.eqb 58) mac in
  (length parts =? 6)%nat && forallb (fun p => (length p =? 2)%nat && forallb is_ascii_hexdigit p) parts.

Definition parse_neigh_line (line : text) : option (IpAddr * text) :=
  let parts := split_whitespace line in
  if (length parts <? 3)%nat then None
  else
    i ← position (fun p => bool_decide (p = text_of "lladdr")) parts;
    mac ← parts !! S i;
    if negb (is_valid_mac mac) then None
    else
      raw ← parts !! 0%nat;
      ipv6_str ← head (split_at (Z.eqb 37) raw);
      ipv6 ← ip_of_bytes ipv6_str;
      if negb (is_ipv6 ipv6) then None else Some (ipv6, text_lower mac).

Definition neighbors_refresh (now : Instant) (out : NeighOutput) (n : NeighborStore) : NeighborStore :=
  match out with
  | Some (true, stdout) =>
      mkNeighbors (fold_left (fun m e => <[e.1:=e.2]> m) (omap parse_neigh_line (str_lines stdout)) ∅) now
  | _ => n
  end.

Definition neighbors_lookup (now : Instant) (out : NeighOutput) (ip : IpAddr) (n : NeighborStore)
    : NeighborStore * option text :=
  if negb (is_ipv6 ip) then (n, None)
  else
    let n := if secs 2 <? now - nb_checked_at n then neighbors_refresh now out n else n in
    (n, nb_cache n !! ip).

(** ** The store *)
Record LanClientStore := mkStore {
  ls_zone : option Name;
  ls_cache : option (LeaseCache Name);
  ls_neighbors : NeighborStore;
}.

Definition store_new (now : Instant) (zone : option Name) : LanClientStore := mkStore zone None (mkNeighbors ∅ now).

(** What the system answers in one query: the clocks, the time of the last
    change of the file, its lines, and the neighbour table. *)
Record LeaseEnv := mkEnv {
  le_now : Instant;
  le_local_now : Z;
  le_modified : option Z;
  le_lines : option (list (option text));
  le_neigh : NeighOutput;
}.

(** The order in which the hash map of names is gone through. *)
Variable names_order : list (WildcardName Name * ClientInfo Name) → list (WildcardName Name * ClientInfo Name).

Abbreviation Index := (DomainMap (ClientInfo Name)).

(** *** The steps of [get_cached_clients], between its locks *)
Definition cached_recent (now : Instant) (cache : LeaseCache Name) : bool := now - lc_checked_at cache <? STAT_INTERVAL.

Definition set_checked_at (now : Instant) (c : LeaseCache Name) : LeaseCache Name :=
  mkLeases (lc_clients c) (lc_ip_clients c) (lc_mac_clients c) (lc_modified_at c) now.

Definition leases_quick (now : Instant) (cache : option (LeaseCache Name)) : option (LeaseCache Name) :=
  c ← cache; if cached_recent now c then Some c else None.

Definition leases_check (now : Instant) (modified_at : option Z) (cache : option (LeaseCache Name))
    : option (LeaseCache Name) * option (LeaseCache Name) :=
  match cache with
  | None => (None, None)
  | Some c =>
      if cached_recent now c then (Some c, Some c)
      else if bool_decide (lc_modified_at c = modified_at) then
        (Some (set_checked_at now c), Some (set_checked_at now c))
      else (Some c, None)
  end.

Definition new_cache (now : Instant) (modified_at : option Z) (d : LeaseData) : LeaseCache Name :=
  mkLeases (dm_from_iter hash (names_order (ld_names d))) (ld_ips d) (ld_macs d) modified_at now.

Definition leases_store (now : Instant) (modified_at : option Z) (refreshed : option LeaseData)
    (cache : option (LeaseCache Name)) : option (LeaseCache Name) * option (LeaseCache Name) :=
  match refreshed, cache with
  | Some d, _ => (Some (new_cache now modified_at d), Some (new_cache now modified_at d))
  | None, Some c => (Some (set_checked_at now c), Some (set_checked_at now c))
  | None, None => (None, None)
  end.

(** [get_cached_clients] of one query alone. The neighbours are read again with
    the file. *)
Definition get_cached_clients (env : LeaseEnv) (s : LanClientStore) : LanClientStore * option Index :=
  let now := le_now env in
  match leases_quick now (ls_cache s) with
  | Some c => (s, Some (lc_clients c))
  | None =>
      match leases_check now (le_modified env) (ls_cache s) with
      | (cache, Some c) => (mkStore (ls_zone s) cache (ls_neighbors s), Some (lc_clients c))
      | (cache, None) =>
          let refreshed := read_lease_file (le_local_now env) (ls_zone s) <$> le_lines env in
          let '(cache, o) := leases_store now (le_modified env) refreshed cache in
          let neighbors := if is_some refreshed then neighbors_refresh now (le_neigh env) (ls_neighbors s)
                           else ls_neighbors s in
          (mkStore (ls_zone s) cache neighbors, lc_clients <$> o)
      end
  end.

(** ** Lookups *)
Definition with_zone (zone : option Name) (name : Name) : Name :=
  if name_is_fqdn name then name
  else name_set_fqdn true (match zone with
                           | Some z => opt_unwrap_or name (name_append_name name z)
                           | None => name
                           end).

Definition find_client (zone : option Name) (index : Index) (name : Name) : option (ClientInfo Name) :=
  let name := with_zone zone name in
  match dm_find hash wm index name with
  | Some c => Some c
  | None =>
      z ← zone;
      if name_zone_of z name then None else n ← name_append_domain name z; dm_find hash wm index n
  end.

Definition client_data (t : RecordType) (c : ClientInfo Name) : option (RData Name) :=
  match ci_ip c with
  | V4 a => if t =? TYPE_A then Some (RA a) else None
  | V6 a => if t =? TYPE_AAAA then Some (RAAAA a) else None
  end.

Definition lease_lookup (env : LeaseEnv) (name : Name) (t : RecordType) (s : LanClientStore)
    : LanClientStore * option (RData Name) :=
  let '(s, index) := get_cached_clients env s in
  (s, i ← index; c ← find_client (ls_zone s) i name; client_data t c).

(** A host that prints as [*] is a placeholder. *)
Definition ptr_of_client (c : ClientInfo Name) : option (RData Name) :=
  if bool_decide (name_show (ci_host c) = text_of "*") then None else Some (RPTR (ci_host c)).

Definition reverse_lookup (env : LeaseEnv) (ip : IpAddr) (s : LanClientStore) : LanClientStore * option (RData Name) :=
  match ls_cache s with
  | None => (s, None)
  | Some c =>
      match lc_ip_clients c !! ip ≫= ptr_of_client with
      | Some d => (s, Some d)
      | None =>
          let '(n, mac) := neighbors_lookup (le_now env) (le_neigh env) ip (ls_neighbors s) in
          (mkStore (ls_zone s) (ls_cache s) n, m ← mac; client ← lc_mac_clients c !! m; ptr_of_client client)
      end
  end.

Definition reverse_lookup_by_mac (mac : text) (s : LanClientStore) : option (RData Name) :=
  c ← ls_cache s; lc_mac_clients c !! text_lower mac ≫= ptr_of_client.

Definition ptr_to_ip (name : Name) : option IpAddr := net_addr <$> name_parse_arpa name.

(** ** The middleware *)
Section Handler.
Context `{MsgLib Name} {RM : Type → Type} `{RangeMapLib RM} `{NL : NetLib} {Fut : Type}.
Abbreviation Ctx := (DnsContext Name RM Fut).
Abbreviation Res := (result (DnsResponse Name) (LookupError Name)).

Definition LeaseWorld : Type := Ctx * LanClientStore.

Definition lease_answer (now : Instant) (ctx : Ctx) (req : DnsRequest Name) (d : RData Name) : DnsResponse Name :=
  let ttl := local_ttl (ctx_cfg ctx) in
  let q := req_query req in
  new_with_deadline q [mkRr (q_name q) (as_u32 ttl) d] (now + secs ttl).

Definition dnsmasq_run (env : LeaseEnv) (w : LeaseWorld) (req : DnsRequest Name) : Handling Name LeaseWorld (LeaseWorld * Res) :=
  let '(ctx, s) := w in
  let q := req_query req in
  let '(s, ptr) := if q_type q =? TYPE_PTR then
                     match ptr_to_ip (q_name q) with
                     | Some ip => reverse_lookup env ip s
                     | None => (s, None)
                     end
                   else (s, None) in
  match ptr with
  | Some d => Return ((ctx_set_source FromStatic ctx, s), Ok (lease_answer (le_now env) ctx req d))
  | None =>
      let '(s, data) := lease_lookup env (q_name q) (q_type q) s in
      match data with
      | Some d => Return ((ctx_set_source FromStatic ctx, s), Ok (lease_answer (le_now env) ctx req d))
      | None => pass_on (ctx, s) req
      end
  end.
Definition dnsmasq_handle (env : LeaseEnv) (w : LeaseWorld) (req : DnsRequest Name)
    (next : LeaseWorld → DnsRequest Name → LeaseWorld * Res) : LeaseWorld * Res :=
  answered next (dnsmasq_run env w req).
End Handler.
End Leases.
