(* ===== verification/DnsUrl.v ===== *)
(** * Listeners and upstream URLs ([config/bind_addr.rs], [dns_url.rs], [own_listeners.rs])

    The kinds of listeners, what they have in common ([IBindConfig]), and the
    default ports of the protocols ([libdns/mod.rs]). *)

From S2P Require Import Prelude Names Config Text Context.

Inductive BindAddr := BaLocalhost | BaAll | BaV4 (a : Z) | BaV6 (a : Z).

(** The fields every listener has. *)
Record Bind := mkBind {
  bi_addr : BindAddr;
  bi_port : Z;
  bi_device : option string;
  bi_opts : ServerOpts;
  bi_enabled : option bool;
}.

Record SslConfig := mkSsl {
  ssl_server_name : option string;
  ssl_certificate : option string;
  ssl_certificate_key : option string;
  ssl_certificate_key_pass : option string;
}.
Definition ssl_default : SslConfig := mkSsl None None None None.

Inductive BindAddrConfig :=
| BindUdp (b : Bind) | BindTcp (b : Bind) | BindTls (b : Bind) (ssl : SslConfig)
| BindHttp (b : Bind) | BindHttps (b : Bind) (ssl : SslConfig) | BindH3 (b : Bind) (ssl : SslConfig)
| BindQuic (b : Bind) (ssl : SslConfig).

Definition bind_of (c : BindAddrConfig) : Bind :=
  match c with
  | BindUdp b | BindTcp b | BindTls b _ | BindHttp b | BindHttps b _ | BindH3 b _ | BindQuic b _ => b
  end.

Definition bind_addr (c : BindAddrConfig) : BindAddr := bi_addr (bind_of c).
Definition bind_port (c : BindAddrConfig) : Z := bi_port (bind_of c).
Definition bind_device (c : BindAddrConfig) : option string := bi_device (bind_of c).
Definition bind_enabled (c : BindAddrConfig) : bool := opt_unwrap_or true (bi_enabled (bind_of c)).
Definition bind_server_opts (c : BindAddrConfig) : ServerOpts := bi_opts (bind_of c).

Definition LOCALHOST_V4 : Z := 2130706433.

Definition bind_sock_addr (c : BindAddrConfig) : SocketAddr :=
  match bind_addr c with
  | BaLocalhost => mkSocket (V4 LOCALHOST_V4) (bind_port c)
  | BaAll => mkSocket (V4 0) (bind_port c)
  | BaV4 ip => mkSocket (V4 ip) (bind_port c)
  | BaV6 ip => mkSocket (V6 ip) (bind_port c)
  end.

(** [ProtocolDefaultPort for Protocol] *)
Definition default_port (p : Protocol) : Z :=
  match p with
  | PUdp | PTcp => 53
  | PTls | PQuic => 853
  | PHttpsP | PH3 => 443
  end.

(** [UdpBindAddrConfig::default]: every address, dual stack. *)
Definition bind_default_udp : BindAddrConfig :=
  BindUdp (mkBind (BaV6 0) (default_port PUdp) None opts_default None).

(** UDP, QUIC and HTTP/3 listen on datagrams. *)
Definition bind_is_datagram (c : BindAddrConfig) : bool :=
  match c with BindUdp _ | BindQuic _ _ | BindH3 _ _ => true | _ => false end.

(** * Upstream URLs, and the addresses of this server ([dns_url.rs], [own_listeners.rs])

    What the program reads of the URL of an upstream: its protocol, its host and
    the parameters of its query. The text itself is read by the URL library. *)

Inductive HttpsPrefer := PreferAuto | PreferH2 | PreferH3.

Inductive ProtocolConfig :=
| ProtoUdp | ProtoTcp | ProtoTls
| ProtoHttps (path : string) (prefer : HttpsPrefer)
| ProtoQuic
| ProtoH3 (path : string) (disable_grease : bool)
| ProtoSystem
| ProtoDhcp (interface : option string).

Inductive Host := HostDomain (d : string) | HostIpv4 (a : Z) | HostIpv6 (a : Z).

(** The parameters: a map from names to texts. *)
Definition Params : Type := gmap string string.

Record DnsUrl := mkUrl {
  url_name : string;
  url_proto : ProtocolConfig;
  url_host : Host;
  url_port_opt : option Z;
  url_params : Params;
  url_options : Params;
}.

#[global] Instance HttpsPrefer_eq_dec : EqDecision HttpsPrefer.
Proof. solve_decision. Defined.
#[global] Instance ProtocolConfig_eq_dec : EqDecision ProtocolConfig.
Proof. solve_decision. Defined.
#[global] Instance Host_eq_dec : EqDecision Host.
Proof. solve_decision. Defined.
#[global] Instance DnsUrl_eq_dec : EqDecision DnsUrl.
Proof. solve_decision. Defined.

Definition to_protocol (p : ProtocolConfig) : option Protocol :=
  match p with
  | ProtoUdp => Some PUdp
  | ProtoTcp => Some PTcp
  | ProtoTls => Some PTls
  | ProtoHttps _ _ => Some PHttpsP
  | ProtoQuic => Some PQuic
  | ProtoH3 _ _ => Some PH3
  | ProtoSystem | ProtoDhcp _ => None
  end.

Definition proto_default_port (p : ProtocolConfig) : Z := opt_map_or 0 default_port (to_protocol p).

Definition to_h3 (p : ProtocolConfig) : option ProtocolConfig :=
  match p with ProtoHttps path _ => Some (ProtoH3 path false) | _ => None end.

Definition url_port (u : DnsUrl) : Z := opt_unwrap_or (proto_default_port (url_proto u)) (url_port_opt u).

Definition url_path (u : DnsUrl) : option string :=
  match url_proto u with ProtoHttps path _ | ProtoH3 path _ => Some path | _ => None end.

(** *** Parameters *)
Definition get_param {T} (parse : string → option T) (p : Params) (name : string) : option T :=
  v ← p !! name; parse v.
Definition set_param (p : Params) (name value : string) : Params := <[name:=value]> p.
Definition is_set (p : Params) (name : string) : bool := is_some (p !! name).

Definition bool_parse (s : string) : option bool :=
  if bool_decide (s = "true") then Some true else if bool_decide (s = "false") then Some false else None.

Definition sni_off (p : Params) : bool :=
  opt_unwrap_or false (opt_or (negb <$> get_param bool_parse p "sni") (negb <$> get_param bool_parse p "enable_sni")).
Definition sni_on (p : Params) : bool := negb (sni_off p).
Definition ssl_verify (p : Params) : bool := opt_unwrap_or true (get_param bool_parse p "ssl_verify").

(** *** Addresses *)
Definition url_ip (u : DnsUrl) : option IpAddr :=
  opt_or
    match url_host u with
    | HostDomain _ => None
    | HostIpv4 a => Some (V4 a)
    | HostIpv6 a => Some (V6 a)
    end (get_param ip_parse (url_params u) "ip").

Definition has_ip (u : DnsUrl) : bool :=
  match url_proto u with ProtoSystem | ProtoDhcp _ => true | _ => is_some (url_ip u) end.

Definition set_params (p : Params) (u : DnsUrl) : DnsUrl :=
  mkUrl (url_name u) (url_proto u) (url_host u) (url_port_opt u) p (url_options u).

Definition set_ip (ip : IpAddr) (u : DnsUrl) : DnsUrl := set_params (set_param (url_params u) "ip" (ip_show ip)) u.

(** [set_host]: the address the URL had stays, as a parameter. *)
Definition set_host (host : string) (u : DnsUrl) : DnsUrl :=
  let u := match url_host u with
           | HostIpv4 a => set_ip (V4 a) u
           | HostIpv6 a => set_ip (V6 a) u
           | HostDomain _ => u
           end in
  mkUrl host (url_proto u) (HostDomain host) (url_port_opt u) (url_params u) (url_options u).

(** * The server's own listeners ([own_listeners.rs])

    No upstream may be this server: a query sent to it would come back as a new
    query without end. *)

Inductive Transport := TrPlain | TrTls | TrHttps | TrQuic | TrH3.
#[global] Instance Transport_eq_dec : EqDecision Transport.
Proof. solve_decision. Defined.

Record Listener := mkListener { li_transport : Transport; li_addr : SocketAddr }.

Definition from_binds (binds : list BindAddrConfig) : list Listener :=
  (fun bind => mkListener
     match bind with
     | BindUdp _ | BindTcp _ => TrPlain
     | BindTls _ _ => TrTls
     | BindHttp _ | BindHttps _ _ => TrHttps
     | BindQuic _ _ => TrQuic
     | BindH3 _ _ => TrH3
     end (bind_sock_addr bind)) <$> List.filter bind_enabled binds.

Definition transport (u : DnsUrl) : Transport :=
  match url_proto u with
  | ProtoUdp | ProtoTcp | ProtoSystem | ProtoDhcp _ => TrPlain
  | ProtoTls => TrTls
  | ProtoHttps _ _ => TrHttps
  | ProtoQuic => TrQuic
  | ProtoH3 _ _ => TrH3
  end.

(** [IpAddr::to_canonical]: an IPv4-mapped address as an IPv4 one. *)
Definition to_canonical (i : IpAddr) : IpAddr :=
  match i with
  | V6 a => match to_ipv4_mapped a with Some a => V4 a | None => V6 a end
  | i => i
  end.

Definition is_unspecified (i : IpAddr) : bool := match i with V4 a | V6 a => a =? 0 end.
Definition is_loopback (i : IpAddr) : bool :=
  match i with V4 a => a / 16777216 =? 127 | V6 a => a =? 1 end.

Definition is_own (listeners : list Listener) (u : DnsUrl) (local_ips : list IpAddr) : bool :=
  match url_ip u with
  | None => false
  | Some ip =>
      let ip := to_canonical ip in
      existsb (fun l =>
        let bound := to_canonical (sa_ip (li_addr l)) in
        bool_decide (li_transport l = transport u) && (sa_port (li_addr l) =? url_port u)
        && (if is_unspecified bound
            then (is_ipv6 bound || is_ipv4 ip)
                 && (is_loopback ip || is_unspecified ip || bool_decide (ip ∈ local_ips))
            else bool_decide (bound = ip))) listeners
  end.

Definition without_own (listeners : list Listener) (interfaces : list IpAddr) (urls : list DnsUrl)
    : list DnsUrl * nat :=
  let local_ips := match listeners with [] => [] | _ => interfaces end in
  let kept := List.filter (fun u => negb (is_own listeners u local_ips)) urls in
  (kept, (length urls - length kept)%nat).

(** ** What is kept out

    Where a listener is reached: the address it is bound to; a wildcard at every
    address of this host of its family, an IPv6 wildcard at IPv4 ones too. *)
Definition host_address (interfaces : list IpAddr) (ip : IpAddr) : Prop :=
  is_loopback ip = true ∨ is_unspecified ip = true ∨ ip ∈ interfaces.

Definition reached_at (interfaces : list IpAddr) (l : Listener) (ip : IpAddr) (port : Z) (t : Transport) : Prop :=
  li_transport l = t ∧ sa_port (li_addr l) = port ∧
  let bound := to_canonical (sa_ip (li_addr l)) in
  if is_unspecified bound
  then (is_ipv6 bound = true ∨ is_ipv4 ip = true) ∧ host_address interfaces ip
  else bound = ip.

Lemma is_own_spec listeners u local_ips :
  is_own listeners u local_ips = true ↔
  ∃ ip l, url_ip u = Some ip ∧ l ∈ listeners ∧ reached_at local_ips l (to_canonical ip) (url_port u) (transport u).
Proof.
  unfold is_own, reached_at, host_address. destruct (url_ip u) as [ip|].
  - rewrite existsb_exists. split.
    + intros (l & Hl & Hp). exists ip, l. apply list_elem_of_In in Hl. split_and!; [done..| | |];
        destruct (is_unspecified (to_canonical (sa_ip (li_addr l))));
        rewrite ?andb_true_iff, ?orb_true_iff, ?bool_decide_eq_true, ?Z.eqb_eq in Hp; naive_solver.
    + intros (? & l & [= <-] & Hl & Ht & Hp & Hr). exists l. apply list_elem_of_In in Hl. split; [done|].
      destruct (is_unspecified (to_canonical (sa_ip (li_addr l))));
        rewrite ?andb_true_iff, ?orb_true_iff, ?bool_decide_eq_true, ?Z.eqb_eq; naive_solver.
  - split; [done|]. by intros (? & ? & ? & _).
Qed.

(** The upstreams kept are exactly those that no listener is reached at, in
    their order, and the number left out is counted. *)
Theorem without_own_correct (listeners : list Listener) (interfaces : list IpAddr) (urls : list DnsUrl) :
  let '(kept, skipped) := without_own listeners interfaces urls in
  sublist kept urls ∧ (length kept + skipped = length urls)%nat ∧
  ∀ u, u ∈ kept ↔ u ∈ urls ∧
    ∀ ip l, url_ip u = Some ip → l ∈ listeners →
      ¬ reached_at interfaces l (to_canonical ip) (url_port u) (transport u).
Proof.
  unfold without_own. set (local_ips := match listeners with [] => [] | _ => interfaces end).
  set (kept := List.filter _ urls).
  assert (Hsub : sublist kept urls).
  { subst kept. induction urls as [|u urls IH]; [constructor|]. cbn. case_match; by constructor. }
  assert (Hown : ∀ u, is_own listeners u local_ips = is_own listeners u interfaces)
    by (intros u; subst local_ips; destruct listeners; [unfold is_own; by destruct (url_ip u)|done]).
  split; [done|]. split; [apply sublist_length in Hsub; lia|]. intros u. subst kept.
  rewrite list_elem_of_In, filter_In, <- list_elem_of_In, Hown, negb_true_iff, <- not_true_iff_false, is_own_spec.
  naive_solver.
Qed.

Lemma url_ip_set_host u host ip :
  url_ip u = Some ip → ip_parse (ip_show ip) = Some ip → url_ip (set_host host u) = Some ip.
Proof.
  unfold url_ip, set_host, set_ip, set_params, set_param, get_param. intros Hu Hr.
  destruct (url_host u); [done|..]; injection Hu as <-; cbn [url_host url_params opt_or];
    by rewrite (lookup_insert_eq (url_params u : gmap string string)).
Qed.
