(* ===== verification/ClientMac.v ===== *)
(** * MAC addresses of clients ([infra/client_mac.rs], [infra/arp.rs])

    The neighbour tables of the system, as text, and the cache in front of them,
    which many queries use at the same time. The parser of MAC addresses is a
    library's. *)

From S2P Require Import Prelude Names Config Text DnsUrl.

Definition MacAddr := list Z.
Definition mac_zero : MacAddr := [0; 0; 0; 0; 0; 0].

Class MacLib := {
  (** [MacAddr::from_str] and its [Display] *)
  mac_parse : text → option MacAddr;
  mac_show : MacAddr → text;
}.

(** The first result of a function over a list. *)
Definition find_map {A B} (f : A → option B) (l : list A) : option B := first_some (f <$> l).

Lemma find_map_omap {A B} (f : A → option B) l : find_map f l = head (omap f l).
Proof. unfold find_map. induction l as [|x l IH]; [done|]. cbn. destruct (f x); [done|exact IH]. Qed.

Section Tables.
Context `{MacLib}.

(** ** The table of IPv4 neighbours (Linux: a file) *)
Record ParsedArpEntry := mkArp { arp_ip : Z; arp_mac : MacAddr }.

Definition v4_parse (t : text) : option Z := match ip_of_bytes t with Some (V4 a) => Some a | _ => None end.

Definition client_ipv4_for_arp (ip : IpAddr) : option Z :=
  match ip with V4 a => if is_loopback ip then None else Some a | V6 _ => None end.

Definition is_arp_trimmed (c : Z) : bool := existsb (Z.eqb c) [40; 41; 91; 93; 44; 59; 58].
Fixpoint trim_left (p : Z → bool) (l : text) : text :=
  match l with c :: l' => if p c then trim_left p l' else l | [] => [] end.
Definition trim_arp_token (t : text) : text := reverse (trim_left is_arp_trimmed (reverse (trim_left is_arp_trimmed t))).

Definition normalize_ip_token (t : text) : option Z := v4_parse (trim_arp_token t).

Definition dashes_to_colons (t : text) : text := (fun c => if c =? 45 then 58 else c) <$> t.

Definition mac_of_token (t : text) : option MacAddr :=
  mac ← opt_or (mac_parse t) (if existsb (Z.eqb 45) t then mac_parse (dashes_to_colons t) else None);
  if bool_decide (mac = mac_zero) then None else Some mac.

(** The loop over the tokens of a line. *)
Fixpoint arp_tokens (ip : option Z) (mac : option MacAddr) (tokens : list text) : option Z * option MacAddr :=
  match tokens with
  | [] => (ip, mac)
  | token :: tokens =>
      let token := trim_arp_token token in
      let ip := match ip with None => normalize_ip_token token | _ => ip end in
      let mac := match mac with None => mac_of_token token | _ => mac end in
      if is_some ip && is_some mac then (ip, mac) else arp_tokens ip mac tokens
  end.

Definition parse_arp_line_entry (line : text) : option ParsedArpEntry :=
  let '(ip, mac) := arp_tokens None None (split_whitespace line) in
  ip ← ip; mac ← mac; Some (mkArp ip mac).

Definition parse_arp_entries (output : text) : list ParsedArpEntry := omap parse_arp_line_entry (str_lines output).

Definition parse_arp_table_mac (table : text) (target : Z) : option text :=
  (fun e => mac_show (arp_mac e)) <$> find_first (fun e => arp_ip e =? target) (parse_arp_entries table).

(** The file [/proc/net/arp], when it can be read. *)
Definition lookup_client_mac_from_arp (file : option text) (ip : IpAddr) : option text :=
  a ← client_ipv4_for_arp ip; table ← file; parse_arp_table_mac table a.

(** ** The table of IPv6 neighbours: the output of a command *)
Definition line_has_ip (parts : list text) (ip : IpAddr) : bool :=
  existsb (fun token => bool_decide ((head (split_at (Z.eqb 37) token) ≫= ip_of_bytes) = Some ip)) parts.

Definition neighbor_mac (token : text) : option text :=
  mac ← mac_parse (dashes_to_colons token);
  if bool_decide (mac = mac_zero) then None else Some (mac_show mac).

Definition parse_neighbor (t : text) (ip : IpAddr) : option text :=
  find_map (fun line =>
    let parts := split_whitespace line in
    if line_has_ip parts ip then find_map neighbor_mac parts else None) (str_lines t).

(** ** What is found in a line *)
Lemma arp_tokens_spec ip mac tokens :
  arp_tokens ip mac tokens =
    (opt_or ip (find_map normalize_ip_token (trim_arp_token <$> tokens)),
     opt_or mac (find_map mac_of_token (trim_arp_token <$> tokens))).
Proof.
  revert ip mac. induction tokens as [|token tokens IH]; intros ip mac; [by destruct ip, mac|].
  cbn [arp_tokens]. rewrite IH. unfold find_map. cbn [fmap list_fmap first_some].
  destruct ip, mac; cbn [is_some andb opt_or]; try done;
    repeat (destruct (normalize_ip_token _) || destruct (mac_of_token _)); done.
Qed.
End Tables.

(** ** The cache *)
Section MacCache.
Definition REFRESH : Z := 2000000000.
Abbreviation MacEntries := (gmap IpAddr (Z * option text)).

(** [lookup], before the task that asks the system: none when there is no fresh
    value. *)
Definition mac_cached (now : Z) (ip : IpAddr) (cache : MacEntries) : option (option text) :=
  '(at_, value) ← cache !! ip;
  if now - at_ <? REFRESH then Some value else None.

Definition mac_local (ip : IpAddr) : bool := is_loopback ip || is_unspecified ip.

(** The task, under the mutex: the system is asked at [now] and has answered at
    [done_at]. *)
Definition mac_task (now done_at : Z) (ip : IpAddr) (system : option text) (cache : MacEntries)
    : option text * MacEntries * bool :=
  match mac_cached now ip cache with
  | Some value => (value, cache, false)
  | None => (system, <[ip := (done_at, system)]> cache, true)
  end.

(** The cache, the time, and what the system was asked: the address, when, when it
    had answered and what; the last first. *)
Record MacAsk := mkAsk { ask_ip : IpAddr; ask_start : Z; ask_end : Z; ask_answer : option text }.
Record MacState := mkMacState { ms_cache : MacEntries; ms_now : Z; ms_asks : list MacAsk }.

(** A lookup, with what it returns: from the cache, or by the task. *)
Inductive mac_step : MacState → IpAddr → option text → MacState → Prop :=
| MacHit s now src value :
    let ip := to_canonical src in
    ms_now s ≤ now → mac_local ip = false → mac_cached now ip (ms_cache s) = Some value →
    mac_step s src value (mkMacState (ms_cache s) now (ms_asks s))
| MacTask s now done_at src system value cache asked :
    let ip := to_canonical src in
    ms_now s ≤ now → now ≤ done_at → mac_local ip = false →
    mac_task now done_at ip system (ms_cache s) = (value, cache, asked) →
    mac_step s src value
      (mkMacState cache (if asked : bool then done_at else now)
         (if asked then mkAsk ip now done_at system :: ms_asks s else ms_asks s))
| MacLocal s now src :
    ms_now s ≤ now → mac_local (to_canonical src) = true →
    mac_step s src None (mkMacState (ms_cache s) now (ms_asks s)).

Inductive mac_reach : MacState → Prop :=
| MacInit now : mac_reach (mkMacState ∅ now [])
| MacStep s src value s' : mac_reach s → mac_step s src value s' → mac_reach s'.

(** Two questions for the same address, one after the other. *)
Fixpoint spaced (asks : list MacAsk) : Prop :=
  match asks with
  | [] => True
  | a :: asks => Forall (fun b => ask_ip b = ask_ip a → ask_end b + REFRESH ≤ ask_start a) asks ∧ spaced asks
  end.

Definition newest (ip : IpAddr) (asks : list MacAsk) : option MacAsk :=
  find_first (fun a => bool_decide (ask_ip a = ip)) asks.

Definition mac_inv (s : MacState) : Prop :=
  Forall (fun a => ask_start a ≤ ask_end a ≤ ms_now s) (ms_asks s) ∧
  (∀ ip, ms_cache s !! ip = (fun a => (ask_end a, ask_answer a)) <$> newest ip (ms_asks s)) ∧
  spaced (ms_asks s).

Lemma newest_last ip asks a b :
  spaced asks → Forall (fun a => ask_start a ≤ ask_end a) asks →
  newest ip asks = Some a → b ∈ asks → ask_ip b = ip → ask_end b ≤ ask_end a.
Proof.
  induction asks as [|c asks IH]; intros Hs Hf; [done|]. cbn in Hs. destruct Hs as [Hc Hs].
  apply Forall_cons_1 in Hf as [Hf0 Hf]. unfold newest. cbn [find_first]. case_bool_decide as E.
  - intros [= <-] [->|Hb]%elem_of_cons Hip; [lia|]. rewrite Forall_forall in Hc. specialize (Hc b Hb). unfold REFRESH in Hc. rewrite E, Hip in Hc. specialize (Hc eq_refl). lia.
  - intros Ha [->|Hb]%elem_of_cons Hip; [congruence|]. by apply IH.
Qed.

Lemma mac_cached_spec now ip s :
  mac_inv s →
  mac_cached now ip (ms_cache s) =
    (a ← newest ip (ms_asks s); if now - ask_end a <? REFRESH then Some (ask_answer a) else None).
Proof. intros (_ & Hc & _). unfold mac_cached. rewrite Hc. by destruct (newest ip (ms_asks s)). Qed.

Lemma mac_inv_later s now : mac_inv s → ms_now s ≤ now → mac_inv (mkMacState (ms_cache s) now (ms_asks s)).
Proof. intros (Hf & Hc & Hs) Hn. split_and!; [|done|done]. eapply Forall_impl; [exact Hf|]. cbn. intros; lia. Qed.

Lemma mac_inv_ask s now done_at ip system :
  mac_inv s → ms_now s ≤ now → now ≤ done_at → mac_cached now ip (ms_cache s) = None →
  mac_inv (mkMacState (<[ip := (done_at, system)]> (ms_cache s)) done_at (mkAsk ip now done_at system :: ms_asks s)).
Proof.
  intros Hi Hn Hd Hm. rewrite mac_cached_spec in Hm by done. destruct Hi as (Hf & Hc & Hs). split_and!.
  - constructor; cbn; [lia|]. eapply Forall_impl; [exact Hf|]. cbn. intros; lia.
  - intros ip'. unfold newest. cbn [ms_cache ms_asks find_first ask_ip]. case_bool_decide as E.
    + subst ip'. by rewrite lookup_insert_eq.
    + rewrite lookup_insert_ne by done. apply Hc.
  - cbn. split; [|done]. rewrite Forall_forall. intros b Hb Hip.
    destruct (newest ip (ms_asks s)) as [a|] eqn:Ha.
    + cbn in Hm. destruct (Z.ltb_spec (now - ask_end a) REFRESH); [done|].
      enough (ask_end b ≤ ask_end a) by lia. eapply newest_last; try done. eapply Forall_impl; [exact Hf|]. cbn. intros; lia.
    + unfold newest in Ha. rewrite find_first_None in Ha. specialize (Ha b Hb). by apply bool_decide_eq_false in Ha.
Qed.

Lemma mac_step_inv s src value s' : mac_inv s → mac_step s src value s' → mac_inv s'.
Proof.
  intros Hi. destruct 1 as [s now src value ip Hn _ _|s now done_at src system value cache asked ip Hn Hd _ Ht|s now src Hn _];
    [by apply mac_inv_later| |by apply mac_inv_later].
  unfold mac_task in Ht. destruct (mac_cached now ip (ms_cache s)) as [v|] eqn:E; injection Ht as <- <- <-.
  - by apply mac_inv_later.
  - by apply mac_inv_ask.
Qed.

Lemma mac_reach_inv s : mac_reach s → mac_inv s.
Proof.
  induction 1 as [now|s src value s' _ IH Hs]; [|by eapply mac_step_inv].
  split_and!; [constructor| |done]. intros ip. exact (lookup_empty (M := gmap IpAddr) ip).
Qed.

(** However the lookups of clients interleave, what a lookup returns is what the
    system last said of the address, less than two seconds ago; the system is asked of
    an address again only when its last answer is two seconds old; and nothing is said
    of local addresses. *)
Theorem mac_lookup_fresh s src value s' :
  mac_reach s → mac_step s src value s' →
  spaced (ms_asks s') ∧
  (mac_local (to_canonical src) = true → value = None ∧ ms_asks s' = ms_asks s) ∧
  (mac_local (to_canonical src) = false →
    ∃ a, newest (to_canonical src) (ms_asks s') = Some a ∧ ask_answer a = value ∧ ms_now s' - ask_end a < REFRESH).
Proof.
  intros Hr%mac_reach_inv Hstep. split; [by apply (mac_step_inv _ _ _ _ Hr Hstep)|].
  assert (Hhit : ∀ s now ip v, mac_inv s → mac_cached now ip (ms_cache s) = Some v →
            ∃ a, newest ip (ms_asks s) = Some a ∧ ask_answer a = v ∧ now - ask_end a < REFRESH).
  { intros s1 now ip v Hi Hm. rewrite mac_cached_spec in Hm by done. destruct (newest ip (ms_asks s1)) as [a|]; [|done].
    cbn in Hm. destruct (Z.ltb_spec (now - ask_end a) REFRESH); [|done]. injection Hm as <-. by exists a. }
  destruct Hstep as [s now src value ip Hn Hl Hm|s now done_at src system value cache asked ip Hn Hd Hl Ht|s now src Hn Hl];
    try subst ip; cbn [ms_cache ms_asks ms_now] in *.
  - split; [congruence|]. intros _. by apply Hhit.
  - split; [congruence|]. intros _. unfold mac_task in Ht. set (ip := to_canonical src) in *.
    destruct (mac_cached now ip (ms_cache s)) as [v|] eqn:E; injection Ht as <- <- <-; [by apply Hhit|].
    exists (mkAsk ip now done_at system). cbn. unfold newest. cbn. rewrite bool_decide_true by done.
    split_and!; [done|done|]. unfold REFRESH. lia.
  - split; [done|congruence].
Qed.
End MacCache.

(** ** Concrete tables *)
(** MAC addresses as pairs of hexadecimal digits between colons. *)
Definition plain_mac_parse (t : text) : option MacAddr :=
  let parts := split_at (Z.eqb 58) t in
  if (length parts =? 6)%nat
  then mapM (fun p => match digits 16 0 0 p with (v, 2%nat, []) => Some v | _ => None end) parts
  else None.
Definition plain_mac_show (m : MacAddr) : text :=
  join_at 58 ((fun b => [digit_char (b / 16); digit_char (b mod 16)]) <$> m).
#[local] Instance plain_mac : MacLib := { mac_parse := plain_mac_parse; mac_show := plain_mac_show }.

Definition arp_table : text :=
  text_of "IP address       HW type     Flags       HW address            Mask     Device" ++ [10]
  ++ text_of "192.168.1.10     0x1         0x2         aa:bb:cc:dd:ee:ff     *        eth0" ++ [10]
  ++ text_of "192.168.1.11     0x1         0x2         00:00:00:00:00:00     *        eth0".

Example arp_table_test :
  parse_arp_table_mac arp_table 3232235786 = Some (text_of "aa:bb:cc:dd:ee:ff") ∧
  parse_arp_table_mac arp_table 3232235787 = None ∧ parse_arp_table_mac arp_table 3232235788 = None ∧
  parse_arp_table_mac (text_of "? (192.168.1.10) at aa:bb:cc:dd:ee:ff on en0 ifscope [ethernet]") 3232235786
    = Some (text_of "aa:bb:cc:dd:ee:ff") ∧
  parse_arp_table_mac (text_of "192.168.1.10          aa-bb-cc-dd-ee-ff     dynamic") 3232235786
    = Some (text_of "aa:bb:cc:dd:ee:ff").
Proof. vm_compute. repeat split. Qed.

Example neighbor_test :
  let t := text_of "fe80::10 dev br-lan lladdr aa:bb:cc:dd:ee:ff REACHABLE" ++ [10] ++ text_of "fe80::1%4 aa-bb-cc-dd-ee-01 Stale" in
  (ip ← ip_parse "fe80::1"; parse_neighbor t ip) = Some (text_of "aa:bb:cc:dd:ee:01") ∧
  (ip ← ip_parse "fe80::10"; parse_neighbor t ip) = Some (text_of "aa:bb:cc:dd:ee:ff") ∧
  (ip ← ip_parse "fe80::2"; parse_neighbor t ip) = None.
Proof. vm_compute. repeat split. Qed.

Lemma mac_lookup_fresh_witness :
  ∃ s', mac_step (mkMacState ∅ 0 []) (V4 3232235786) (Some (text_of "m")) s' ∧ spaced (ms_asks s') ∧
    ∃ a, newest (V4 3232235786) (ms_asks s') = Some a ∧ ask_answer a = Some (text_of "m").
Proof.
  eexists. assert (Hs : mac_step (mkMacState ∅ 0 []) (V4 3232235786) (Some (text_of "m"))
    (mkMacState (<[V4 3232235786 := (9, Some (text_of "m"))]> ∅) 9 [mkAsk (V4 3232235786) 5 9 (Some (text_of "m"))])).
  { apply (MacTask (mkMacState ∅ 0 []) 5 9 (V4 3232235786) (Some (text_of "m")) (Some (text_of "m"))
             (<[V4 3232235786 := (9, Some (text_of "m"))]> ∅) true); try reflexivity; cbn; lia. }
  split; [exact Hs|]. destruct (mac_lookup_fresh _ _ _ _ (MacInit 0) Hs) as (Hsp & _ & Hv). split; [exact Hsp|].
  destruct (Hv eq_refl) as (a & Ha & Hans & _). exists a. split; [exact Ha|exact Hans].
Defined.
