(* ===== verification/Zones.v ===== *)
(** * Local zones ([dns_mw_zone.rs], [zone/])

    Names this server answers for itself: the discovery of its encrypted
    listeners, the reverse names of its own and of private addresses, its
    identity in class CHAOS, and the records of the rules. *)

From S2P Require Import Prelude Bytes Names DomainMap Config DomainRule DomainRuleTree IpSet Message Runtime Context Calls DnsUrl Text Dnsmasq.

Section Zones.
Context {Name : Type} `{NameLib Name} `{NameText Name} `{MsgLib Name}.
Context {RM : Type → Type} `{RangeMapLib RM} `{NL : NetLib} {Fut : Type}.
Abbreviation Ctx := (DnsContext Name RM Fut).
Abbreviation Res := (result (DnsResponse Name) (LookupError Name)).
Implicit Types (ctx : Ctx) (req : DnsRequest Name).

(** The options of the configuration that are read here. *)
Context (server_name : Name) (cfg_binds : list BindAddrConfig).

(** A name of the source text. *)
Definition name_lit (s : string) : Name := opt_unwrap_or name_root (name_parse (text_of s)).

(** ** Providers and their manager *)
Definition ZoneProvider : Type := Ctx → DnsRequest Name → result (option (DnsResponse Name)) (LookupError Name).

Fixpoint manager_lookup (providers : list ZoneProvider) ctx req : result (option (DnsResponse Name)) (LookupError Name) :=
  match providers with
  | [] => Ok None
  | provider :: providers =>
      match provider ctx req with
      | Err e => Err e
      | Ok (Some response) => Ok (Some response)
      | Ok None => manager_lookup providers ctx req
      end
  end.

(** ** Reverse names ([local_ptr.rs]) *)
Record LocalPtr := mkLocalPtr { lp_server_net : IpMap RM unit; lp_server_names : list Name }.

Definition host_net (ip : IpAddr) : IpNet := mkNet ip (family_width ip).

Definition local_ptr_new (interfaces : list IpAddr) : LocalPtr :=
  mkLocalPtr (ipset_new (host_net <$> interfaces)) [name_lit "smartdns."; name_lit "whoami."].

(** [Ipv4Addr::is_private], and the unique local addresses of IPv6. *)
Definition is_private_ip (ip : IpAddr) : bool :=
  match ip with
  | V4 a => (a / 2 ^ 24 =? 10) || (a / 2 ^ 20 =? 172 * 16 + 1) || (a / 2 ^ 16 =? 192 * 256 + 168)
  | V6 a => Z.land (a / 2 ^ 112) 0xfe00 =? 0xfc00
  end.

Definition local_ptr_lookup (now : Instant) (p : LocalPtr) : ZoneProvider := fun ctx req =>
  let query := req_query req in
  if negb (q_type query =? TYPE_PTR) then Ok None
  else
    let answer := Ok (Some (from_rdata now query (RPTR server_name))) in
    if existsb (fun n => match name_cmp n (q_name query) with Eq => true | _ => false end) (lp_server_names p) then answer
    else
      match name_parse_arpa (q_name query) with
      | None => Ok None
      | Some net =>
          if im_overlap_net (lp_server_net p) net then answer
          else if is_private_ip (net_addr net) then
            Ok (Some (resp_mut (fun m => mkMsg (msg_header m) (msg_queries m ++ [query]) (msg_answers m)
                                           (msg_authorities m) (msg_additionals m) (msg_edns m)) (resp_empty now)))
          else Ok None
      end.

(** ** Identity ([identity.rs]) *)
Inductive CanonicalIdentityQuery :=
| ServerName | ServerVersion | ClientIp | ClientMac | WhoAmIRecords | WhoAmIJson | ServerRecords | ServerJson.

Definition identity_names : list (string * CanonicalIdentityQuery) :=
  [("server-name.", ServerName); ("hostname.bind.", ServerName); ("version.", ServerVersion);
   ("version.bind.", ServerVersion); ("client_ip.", ClientIp); ("client-ip.", ClientIp);
   ("client_mac.", ClientMac); ("client-mac.", ClientMac); ("whoami.", WhoAmIRecords);
   ("whoami.json.", WhoAmIJson); ("smartdns.", ServerRecords); ("id.server.", ServerRecords);
   ("smartdns.json.", ServerJson)].

Definition translate_query_name (name : text) : option CanonicalIdentityQuery :=
  snd <$> find_first (fun x => bool_decide (text_of x.1 = name)) identity_names.

Definition normalize_query_name (name : Name) : text := text_lower (name_show (name_set_fqdn true name)).

Fixpoint trim_dots (l : text) : text :=
  match l with c :: l' => if c =? 46 then trim_dots l' else l | [] => [] end.
Definition trim_fqdn_dot (l : text) : text := reverse (trim_dots (reverse l)).

Definition normalize_client_ip (ip : IpAddr) : IpAddr :=
  match ip with V6 a => opt_map_or (V6 a) V4 (to_ipv4_mapped a) | V4 a => V4 a end.

(** A record holds one character string for each text. *)
Definition txt_records_response (now : Instant) (query : Query Name) (values : list text) : DnsResponse Name :=
  new_with_max_ttl now query
    ((fun value => rr_set_class (q_class query) (mkRr (q_name query) MAX_TTL (RTXT [value]))) <$> values).
Definition txt_response (now : Instant) (query : Query Name) (value : text) : DnsResponse Name :=
  txt_records_response now query [value].

(** The version of the build, the JSON library's text of an object, and the
    hardware address of a client from the system's tables. *)
Context (BUILD_VERSION : text) (json_text : list (string * text) → text) (lookup_mac : IpAddr → option text).

Definition server_fields (name : text) : list (string * text) :=
  [("server_name", name); ("server_version", BUILD_VERSION)].
Definition info_fields (name : text) (ip : IpAddr) (mac : text) : list (string * text) :=
  server_fields name ++ [("client_ip", text_of (ip_show ip)); ("client_mac", mac)].
Definition records_text (fields : list (string * text)) : list text :=
  (fun f => text_of f.1 ++ text_of "=" ++ f.2) <$> fields.

Definition identity_lookup (now : Instant) : ZoneProvider := fun ctx req =>
  let query := req_query req in
  if negb (q_type query =? TYPE_TXT) || negb (q_class query =? CLASS_CH) then Ok None
  else
    match translate_query_name (normalize_query_name (q_name query)) with
    | None => Ok None
    | Some canonical =>
        let client_ip := normalize_client_ip (sa_ip (req_src req)) in
        let name := trim_fqdn_dot (name_show server_name) in
        let client_mac := opt_unwrap_or (text_of "N/A") (lookup_mac client_ip) in
        Ok (Some match canonical with
                 | ServerName => txt_response now query name
                 | ServerVersion => txt_response now query BUILD_VERSION
                 | ClientIp => txt_response now query (text_of (ip_show client_ip))
                 | ClientMac => txt_response now query client_mac
                 | WhoAmIJson => txt_response now query (json_text (info_fields name client_ip client_mac))
                 | WhoAmIRecords => txt_records_response now query (records_text (info_fields name client_ip client_mac))
                 | ServerRecords => txt_records_response now query (records_text (server_fields name))
                 | ServerJson => txt_response now query (json_text (server_fields name))
                 end)
    end.

(** ** Records of the rules ([rule.rs]) *)
Definition KEY_ALPN : Z := 1.
Definition KEY_PORT : Z := 3.
Definition KEY_IPV4HINT : Z := 4.
Definition KEY_IPV6HINT : Z := 6.
Definition KEY_DOHPATH : Z := 7.

Definition keep_hint (no_ipv4 no_ipv6 : bool) (p : Z * list Z) : bool :=
  if p.1 =? KEY_IPV4HINT then negb no_ipv4 else if p.1 =? KEY_IPV6HINT then negb no_ipv6 else true.

Definition filter_hints (no_ipv4 no_ipv6 : bool) (r : Rr Name) : Rr Name :=
  match rr_data r with
  | RHTTPS h =>
      mkRrIn (rr_name r) (rr_class r) (rr_ttl_secs r)
        (RHTTPS (mkHTTPS _ (https_priority _ h) (https_target _ h)
                   (List.filter (keep_hint no_ipv4 no_ipv6) (https_params _ h))))
  | _ => r
  end.

(** What a rule answers: nothing, a response, or the answer of the rest of the
    chain with its hints filtered. *)
Definition rule_lookup (now : Instant) ctx req : Handling Name Ctx (Ctx * result (option (DnsResponse Name)) (LookupError Name)) :=
  let query := req_query req in
  let t := q_type query in
  if t =? TYPE_TXT then
    match ctx_rule_get txt ctx with
    | Some records =>
        let ttl := as_u32 (local_ttl (ctx_cfg ctx)) in
        Return (ctx, Ok (Some (new_with_max_ttl now query ((fun x => mkRr (q_name query) ttl (RTXT x)) <$> records))))
    | None => Return (ctx, Ok None)
    end
  else if t =? TYPE_SRV then
    match ctx_rule_get srv ctx with
    | Some s => Return (ctx, Ok (Some (from_rdata now query (RSRV s))))
    | None => Return (ctx, Ok None)
    end
  else if t =? TYPE_HTTPS then
    match ctx_rule_get https ctx with
    | None | Some (HIgnore _) => Return (ctx, Ok None)
    | Some (HSOA _) => Return (ctx, Ok (Some (from_rdata now query (RSOA default_soa))))
    | Some (HFilter _ no_ipv4 no_ipv6) =>
        NextRun ctx req (fun ctx res =>
          match res with
          | Err e => Return (ctx, Err e)
          | Ok r => Return (ctx, Ok (Some (resp_mut (fun m => msg_set_answers (filter_hints no_ipv4 no_ipv6 <$> msg_answers m) m) r)))
          end)
    | Some (HRecordData _ h) => Return (ctx, Ok (Some (from_rdata now query (RHTTPS h))))
    end
  else Return (ctx, Ok None).

(** ** Discovery of the encrypted listeners ([ddr.rs]) *)
Definition RESERVED : Name := name_lit "resolver.arpa.".
Definition DISCOVERY : Name := name_lit "_dns.resolver.arpa.".

(** [local_route]: the local address of a socket connected to an address. *)
Context (local_route : IpAddr → option IpAddr).

Definition local_ip ctx req : option IpAddr :=
  match so_local_addr (ctx_server_opts ctx) with
  | Some address => if negb (is_unspecified (sa_ip address)) then Some (sa_ip address)
                    else if is_unspecified (sa_ip (req_src req)) then None else local_route (sa_ip (req_src req))
  | None => if is_unspecified (sa_ip (req_src req)) then None else local_route (sa_ip (req_src req))
  end.

Definition is_ddr (bind : BindAddrConfig) : bool :=
  bind_enabled bind && bool_decide (so_ddr (bind_server_opts bind) = Some true).

(** The protocol a listener is advertised with, whether over HTTPS, and its
    certificate; none for a listener that is not encrypted. *)
Definition ddr_kind (bind : BindAddrConfig) : option (string * bool * SslConfig) :=
  match bind with
  | BindTls _ ssl => Some ("dot", false, ssl)
  | BindHttps _ ssl => Some ("h2", true, ssl)
  | BindQuic _ ssl => Some ("doq", false, ssl)
  | BindH3 _ ssl => Some ("h3", true, ssl)
  | _ => None
  end.

Definition ddr_target (ssl : SslConfig) : Name :=
  name_set_fqdn true (opt_unwrap_or server_name (s ← ssl_server_name ssl; name_parse (text_of s))).

Definition ddr_address ctx req (bind : BindAddrConfig) : option IpAddr :=
  if is_unspecified (sa_ip (bind_sock_addr bind)) then local_ip ctx req else Some (sa_ip (bind_sock_addr bind)).

Definition hint_param (ip : IpAddr) : Z * list Z :=
  match ip with
  | V4 a => (KEY_IPV4HINT, be_bytes 4 a)
  | V6 a => (KEY_IPV6HINT, be_bytes 16 a)
  end.

Definition alpn_param (alpn : string) : Z * list Z :=
  (KEY_ALPN, Z.of_nat (length (text_of alpn)) :: text_of alpn).

Definition ddr_params (alpn : string) (over_https : bool) (port : Z) (address : option IpAddr) : list (Z * list Z) :=
  [alpn_param alpn; (KEY_PORT, be_bytes 2 port)]
  ++ option_list (hint_param <$> address)
  ++ if over_https then [(KEY_DOHPATH, text_of "/dns-query{?dns}")] else [].

Definition same_address (a b : Rr Name) : bool :=
  name_eqb (rr_name a) (rr_name b) && (rr_class a =? rr_class b) &&
  bool_decide (rdata_ip_addr (rr_data a) = rdata_ip_addr (rr_data b)).

Definition add_answer (r : Rr Name) : DnsResponse Name → DnsResponse Name :=
  resp_mut (fun m => msg_set_answers (msg_answers m ++ [r]) m).
Definition add_additional (r : Rr Name) : DnsResponse Name → DnsResponse Name :=
  resp_mut (fun m => msg_set_additionals (msg_additionals m ++ [r]) m).

Record DdrState := mkDdr { dd_result : DnsResponse Name; dd_priority : Z; dd_target_match : bool }.

(** A listener's turn in the loop. *)
Definition ddr_step ctx req (st : DdrState) (bind : BindAddrConfig) : DdrState :=
  let query := req_query req in
  let ttl := as_u32 (local_ttl (ctx_cfg ctx)) in
  match ddr_kind bind with
  | None => st
  | Some (alpn, over_https, ssl) =>
      let target := ddr_target ssl in
      if name_is_root target || name_zone_of RESERVED target then st
      else
        let requested_svcb :=
          (q_type query =? TYPE_SVCB) &&
          (name_eqb (q_name query) DISCOVERY ||
           opt_map_or false (fun n => name_eqb n (q_name query)) (name_prepend_label (text_of "_dns") target)) in
        let requested_address := name_eqb (q_name query) target && is_ip_addr (q_type query) in
        if negb requested_svcb && negb requested_address then st
        else
          let address := ddr_address ctx req bind in
          if requested_address then
            let result :=
              match address with
              | Some ip =>
                  if ((is_ipv4 ip && (q_type query =? TYPE_A)) || (is_ipv6 ip && (q_type query =? TYPE_AAAA))) then
                    let record := mkRr target ttl (rdata_of_ip ip) in
                    if existsb (fun r => same_address r record) (answers (dd_result st)) then dd_result st
                    else add_answer record (dd_result st)
                  else dd_result st
              | None => dd_result st
              end in
            mkDdr result (dd_priority st) true
          else
            let result := match address with
                          | Some ip => add_additional (mkRr target ttl (rdata_of_ip ip)) (dd_result st)
                          | None => dd_result st
                          end in
            let record := mkRr (q_name query) ttl
              (RSVCB (mkHTTPS _ (dd_priority st) target (ddr_params alpn over_https (bind_port bind) address))) in
            mkDdr (add_answer record result) (dd_priority st + 1) true
  end.

Definition ddr_lookup (now : Instant) ctx req : option (DnsResponse Name) :=
  let query := req_query req in
  let in_reserved_zone := name_zone_of RESERVED (q_name query) in
  if negb in_reserved_zone && negb (existsb is_ddr cfg_binds) then None
  else
    let st := fold_left (ddr_step ctx req) (List.filter is_ddr cfg_binds)
                (mkDdr (new_with_max_ttl now query []) 1 false) in
    if negb in_reserved_zone && negb (dd_target_match st) then None
    else if bool_decide (answers (dd_result st) = []) then
      Some (resp_mut (msg_add_authority (mkRr (q_name query) (as_u32 (local_ttl (ctx_cfg ctx))) (RSOA default_soa)))
              (dd_result st))
    else Some (dd_result st).

(** ** The middleware *)
Definition zone_run (now : Instant) (interfaces : list IpAddr) ctx req : Handling Name Ctx (Ctx * Res) :=
  match ddr_lookup now ctx req with
  | Some response => Return (ctx, Ok response)
  | None =>
      match manager_lookup [local_ptr_lookup now (local_ptr_new interfaces); identity_lookup now] ctx req with
      | Err e => Return (ctx, Err e)
      | Ok (Some response) => Return (ctx, Ok response)
      | Ok None =>
          run_then (rule_lookup now ctx req) (fun '(ctx, res) =>
            match res with
            | Err e => Return (ctx, Err e)
            | Ok (Some response) => Return (ctx, Ok response)
            | Ok None => pass_on ctx req
            end)
      end
  end.
Definition zone_handle (now : Instant) (interfaces : list IpAddr) ctx req (next : Ctx → DnsRequest Name → Ctx * Res)
    : Ctx * Res :=
  answered next (zone_run now interfaces ctx req).
End Zones.
