(* ===== verification/Samples.v ===== *)
(** * Sample values

    A configuration, contexts, requests and responses over the concrete
    libraries, at which the theorems of the components are instantiated. *)

From S2P Require Import Prelude Names DomainMap Config DomainRule DomainRuleTree IpSet Message Runtime Context.

Definition sample_config (inner : ConfigInner) : RuntimeConfig PlainName list_rm :=
  mkRuntime inner ∅ im_default im_default im_default im_default ∅ im_default.

Definition sample_ctx (inner : ConfigInner) (rule : option (TreeNode (DomainRule PlainName)))
    : DnsContext PlainName list_rm unit :=
  mkCtx (sample_config inner) opts_default rule 0 FromNone false false None.

Definition sample_name : PlainName := plain_name "www.example.com".

Definition sample_query (t : RecordType) : Query PlainName := query_of sample_name t.

Definition sample_req (t : RecordType) : DnsRequest PlainName := req_of_query (sample_query t).

(** An answer with IPv4 addresses at a TTL. *)
Definition sample_resp (ips : list Z) (ttl : Z) : DnsResponse PlainName :=
  new_with_deadline (sample_query TYPE_A) ((fun a => mkRr sample_name ttl (RA a)) <$> ips) 0.

(** A configuration with TTL limits and a limit on addresses. *)
Definition sample_inner : ConfigInner :=
  mkConfig None cache_default [] [] [] [] None None None [] None None None None None None None
    (Some 60) (Some 300) None None (Some 1) None ∅ [] [] None.

(** A rule that sets only an address. *)
Definition sample_rule (a : AddressRuleValue) : DomainRule PlainName := set_address rule_default a.
