(* ===== verification/Reply.v ===== *)
(** * From a packet to its reply ([dns.rs], [app.rs], [server/mod.rs])

    A packet is decoded, a query is searched, and the reply is made of the
    response, which other queries may share, and of a header of its own. *)

From S2P Require Import Prelude Names Config DomainRule Message Context Samples.

(** What decoding a packet gives: a message, an error behind a header that could
    be read, or another error. *)
Inductive Decoded (Name : Type) :=
| DecodedMessage (m : Message Name)
| DecodedFormError (h : Header)
| DecodedError.
Arguments DecodedMessage {Name} _.
Arguments DecodedFormError {Name} _.
Arguments DecodedError {Name}.

(** The DNS library's headers: the header of a reply, its encoding in twelve
    bytes, the last eight of which count the sections, and messages from bytes. *)
Class HeaderLib (Name : Type) := {
  response_from_request : Header → Header;
  header_emit : Header → list Z;
  to_response : Message Name → Message Name;
  msg_decode : list Z → Decoded Name;
}.

Class HeaderLaws (Name : Type) `{HeaderLib Name} : Prop := {
  response_header h :
    let r := response_from_request h in
    h_id r = h_id h ∧ h_message_type r = MsgResponse ∧ h_op_code r = h_op_code h ∧
    h_recursion_desired r = h_recursion_desired h ∧ h_response_code r = NoError ∧ h_truncated r = false;
  header_emit_length h : length (header_emit h) = 12%nat;
  to_response_header m :
    h_id (msg_header (to_response m)) = h_id (msg_header m) ∧
    h_message_type (msg_header (to_response m)) = MsgResponse;
}.

Definition NotImp : ResponseCode := 4.
Definition FormErr : ResponseCode := 1.

Section Reply.
Context {Name : Type} `{ML : MsgLib Name} `{HL : HeaderLib Name}.

(** ** Serial messages *)
Inductive SerialMessage :=
| SRaw (m : Message Name) (addr : SocketAddr) (p : Protocol)
| SBytes (bytes : list Z) (addr : SocketAddr) (p : Protocol)
| SReply (m : Message Name) (h : Header) (wire : option (list Z)) (addr : SocketAddr) (p : Protocol).

Definition serial_addr (s : SerialMessage) : SocketAddr :=
  match s with SRaw _ a _ | SBytes _ a _ | SReply _ _ _ a _ => a end.
Definition serial_protocol (s : SerialMessage) : Protocol :=
  match s with SRaw _ _ p | SBytes _ _ p | SReply _ _ _ _ p => p end.

(** [SerialMessage::reply] *)
Definition serial_reply (r : DnsResponse Name) (h : Header) (addr : SocketAddr) (p : Protocol) : SerialMessage :=
  let h := h_set_truncated (h_truncated h || h_truncated (msg_header (resp_message r))) h in
  let '(r, h) :=
    if h_response_code h =? NoError then (r, h_set_response_code (resp_code r) h)
    else if negb (h_response_code h =? resp_code r) then
      (resp_mut (msg_set_response_code (h_response_code h)) r, h)
    else (r, h) in
  SReply (resp_message r) h (prepared_wire r) addr p.

(** The bytes to send: an error of the encoder, or a panic when the encoding is
    shorter than a header. *)
Inductive Wire := WireBytes (l : list Z) | WireError | WirePanics.

Definition wire_of_option (o : option (list Z)) : Wire := match o with Some l => WireBytes l | None => WireError end.

(** [bytes[2] & 0x02] *)
Definition wire_truncated (bytes : list Z) : bool := negb (Z.land (nth 2 bytes 0) 2 =? 0).

(** The header is written over the encoding, and the counts of the sections are
    put back. *)
Definition set_wire_header (h : Header) (bytes : list Z) : Wire :=
  if (length bytes <? 12)%nat then WirePanics
  else
    let counts := take 8 (drop 4 bytes) in
    let h := h_set_truncated (h_truncated h || wire_truncated bytes) h in
    let bytes := header_emit h ++ drop (length (header_emit h)) bytes in
    WireBytes (take 4 bytes ++ counts ++ drop 12 bytes).

Definition serial_to_wire (s : SerialMessage) : Wire :=
  match s with
  | SBytes bytes _ _ => WireBytes bytes
  | SRaw m _ _ => wire_of_option (msg_to_vec m)
  | SReply m h wire _ _ =>
      match opt_or wire (msg_to_vec m) with
      | Some bytes => set_wire_header h bytes
      | None => WireError
      end
  end.

Definition serial_to_message (s : SerialMessage) : option (Message Name) :=
  match s with
  | SRaw m _ _ => Some m
  | SBytes bytes _ _ => match msg_decode bytes with DecodedMessage m => Some m | _ => None end
  | SReply m h _ _ _ => Some (msg_set_header h m)
  end.

(** [DnsRequest::try_from] *)
Definition request_of_serial (s : SerialMessage) : result (DnsRequest Name) (option Header) :=
  match s with
  | SRaw m addr p => Ok (req_new m addr p)
  | SReply m h _ addr p => Ok (req_new (msg_set_header h m) addr p)
  | SBytes bytes addr p =>
      match msg_decode bytes with
      | DecodedMessage m => Ok (req_new m addr p)
      | DecodedFormError h => Err (Some h)
      | DecodedError => Err None
      end
  end.

(** ** Processing *)
Section Process.
(** The time in a state, and a search, which has no result when it panics. *)
Context {W : Type} (clock : W → Instant).
Context (search : W → DnsRequest Name → ServerOpts → W * option (result (DnsResponse Name) (LookupError Name))).

Definition raw_with_code (c : ResponseCode) (req : DnsRequest Name) (addr : SocketAddr) (p : Protocol) : SerialMessage :=
  SRaw (msg_set_response_code c (to_response (req_message req))) addr p.

(** The reply to the result of a search. *)
Definition search_reply (now : Instant) (req : DnsRequest Name) (res : result (DnsResponse Name) (LookupError Name))
    (addr : SocketAddr) (p : Protocol) : SerialMessage :=
  let h := h_set_authoritative false
             (h_set_recursion_available true (response_from_request (msg_header (req_message req)))) in
  match res with
  | Ok r => serial_reply r h addr p
  | Err e =>
      let h := if is_nx_domain e then h_set_response_code NXDomain h else h in
      let original := req_query req in
      match as_no_records_response now e original with
      | Some r => serial_reply r h addr p
      | None =>
          let h := h_set_response_code (if is_nx_domain e then NXDomain else ServFail) h in
          let r := resp_mut (fun m => mkMsg (msg_header m) (msg_queries m ++ [original]) (msg_answers m)
                                        (msg_authorities m) (msg_additionals m) (msg_edns m)) (resp_empty now) in
          serial_reply r h addr p
      end
  end.

(** A packet whose search panics has no reply. *)
Definition process (w : W) (message : SerialMessage) (opts : ServerOpts) : W * option SerialMessage :=
  let addr := serial_addr message in
  let p := serial_protocol message in
  match request_of_serial message with
  | Ok req =>
      match h_message_type (msg_header (req_message req)) with
      | MsgQuery =>
          if h_op_code (msg_header (req_message req)) =? OP_QUERY then
            let '(w, res) := search w req opts in
            (w, (fun res => search_reply (clock w) req res addr p) <$> res)
          else (w, Some (raw_with_code NotImp req addr p))
      | MsgResponse => (w, Some (raw_with_code FormErr req addr p))
      end
  | Err (Some h) =>
      (w, Some (SRaw (msg_set_header (h_set_response_code FormErr (response_from_request h)) (to_response msg_fresh)) addr p))
  | Err None => (w, Some (SRaw msg_fresh addr p))
  end.
End Process.

(** [refused_response] *)
Definition refused_response (message : SerialMessage) : SerialMessage :=
  let m := match request_of_serial message with
           | Ok req => to_response (req_message req)
           | Err _ => to_response msg_fresh
           end in
  SRaw (msg_set_response_code Refused m) (serial_addr message) (serial_protocol message).

(** ** Correctness *)

(** The counts and the records of the encoding are kept, and its first four
    bytes are those of the header. *)
Lemma set_wire_header_spec `{HLaws : !HeaderLaws Name} h bytes :
  (12 ≤ length bytes)%nat →
  set_wire_header h bytes =
    WireBytes (take 4 (header_emit (h_set_truncated (h_truncated h || wire_truncated bytes) h)) ++ drop 4 bytes).
Proof.
  intros Hl. unfold set_wire_header. destruct (Nat.ltb_spec (length bytes) 12); [lia|]. f_equal.
  rewrite header_emit_length, take_app_le by (rewrite header_emit_length; lia). f_equal.
  rewrite drop_app_length' by (by rewrite header_emit_length).
  pose proof (take_drop 8 (drop 4 bytes)) as E. rewrite drop_drop in E. exact E.
Qed.

(** C19: whether a reply is sent over the encoding that is kept with a shared
    response or over a new one makes no difference: its first four bytes are the
    header of this query, with the truncation of the response and of the
    encoding, and the rest is the encoding of the message the reply is made of,
    which has the response code of the header. *)
Theorem reply_over_shared_encoding `{HLaws : !HeaderLaws Name} (r : DnsResponse Name) h addr p bytes :
  wire_ok r →
  let m := if (h_response_code h =? NoError) || (h_response_code h =? resp_code r) then resp_message r
           else msg_set_response_code (h_response_code h) (resp_message r) in
  msg_to_vec m = Some bytes → (12 ≤ length bytes)%nat →
  let truncated := h_truncated h || h_truncated (msg_header (resp_message r)) || wire_truncated bytes in
  serial_to_wire (serial_reply r h addr p) =
    WireBytes (take 4 (header_emit (h_set_response_code (msg_response_code m) (h_set_truncated truncated h))) ++ drop 4 bytes).
Proof.
  intros Hw m Hm Hl truncated. unfold serial_reply. cbn zeta. cbn [h_response_code h_set_truncated].
  set (h1 := h_set_truncated (h_truncated h || h_truncated (msg_header (resp_message r))) h).
  assert (Hgo : ∀ h2 w, (∀ b, w = Some b → b = bytes) → h2 = h_set_response_code (msg_response_code m) h1 →
    serial_to_wire (SReply m h2 w addr p) =
      WireBytes (take 4 (header_emit (h_set_response_code (msg_response_code m) (h_set_truncated truncated h))) ++ drop 4 bytes)).
  { intros h2 w Hb ->. cbn [serial_to_wire].
    assert (opt_or w (msg_to_vec m) = Some bytes) as ->.
    { destruct w as [b|]; cbn; [by rewrite (Hb b eq_refl)|done]. }
    by rewrite set_wire_header_spec. }
  assert (Hcode : h1 = h_set_response_code (h_response_code h) h1) by done.
  subst m. destruct (Z.eqb_spec (h_response_code h) NoError) as [E|E]; cbn [orb] in *.
  - apply Hgo; [|done]. intros b Hb. apply Hw in Hb. congruence.
  - destruct (Z.eqb_spec (h_response_code h) (resp_code r)) as [E'|E']; cbn [negb] in *.
    + apply Hgo; [|by rewrite Hcode, E']. intros b Hb. apply Hw in Hb. congruence.
    + by apply Hgo.
Qed.

(** The response code of a failed search. *)
Definition error_code (now : Instant) (e : LookupError Name) (q : Query Name) : ResponseCode :=
  if is_nx_domain e then NXDomain
  else match as_no_records_response now e q with Some r => resp_code r | None => ServFail end.

(** A packet is replied to at its address with such a message. *)
Definition replied_with (message : SerialMessage) (out : option SerialMessage) (P : Message Name → Prop) : Prop :=
  ∃ reply m, out = Some reply ∧ serial_addr reply = serial_addr message ∧ serial_protocol reply = serial_protocol message ∧
    serial_to_message reply = Some m ∧ P m.

(** The message is a response under this header's id. *)
Definition responds_to (h : Header) (code : ResponseCode) (m : Message Name) : Prop :=
  h_id (msg_header m) = h_id h ∧ h_message_type (msg_header m) = MsgResponse ∧ msg_response_code m = code.

(** The message is the reply to a query that has this result. *)
Definition answers_query (now : Instant) (req : DnsRequest Name) (res : result (DnsResponse Name) (LookupError Name))
    (m : Message Name) : Prop :=
  let h := msg_header (req_message req) in
  responds_to h match res with Ok r => resp_code r | Err e => error_code now e (req_query req) end m ∧
  h_op_code (msg_header m) = h_op_code h ∧ h_recursion_desired (msg_header m) = h_recursion_desired h ∧
  h_recursion_available (msg_header m) = true ∧ h_authoritative (msg_header m) = false ∧
  match res with Ok r => msg_answers m = answers r | Err _ => True end.

Definition is_query (req : DnsRequest Name) : bool :=
  match h_message_type (msg_header (req_message req)) with
  | MsgQuery => h_op_code (msg_header (req_message req)) =? OP_QUERY
  | MsgResponse => false
  end.
Definition unserved_code (req : DnsRequest Name) : ResponseCode :=
  match h_message_type (msg_header (req_message req)) with MsgQuery => NotImp | MsgResponse => FormErr end.

Lemma serial_reply_message (r : DnsResponse Name) h addr p :
  let reply := serial_reply r h addr p in
  serial_addr reply = addr ∧ serial_protocol reply = p ∧
  ∃ m, serial_to_message reply = Some m ∧ h_id (msg_header m) = h_id h ∧ h_message_type (msg_header m) = h_message_type h ∧
    h_op_code (msg_header m) = h_op_code h ∧ h_recursion_desired (msg_header m) = h_recursion_desired h ∧
    h_recursion_available (msg_header m) = h_recursion_available h ∧ h_authoritative (msg_header m) = h_authoritative h ∧
    msg_response_code m = (if h_response_code h =? NoError then resp_code r else h_response_code h) ∧ msg_answers m = answers r.
Proof.
  unfold serial_reply. cbn zeta. cbn [h_response_code h_set_truncated].
  destruct (h_response_code h =? NoError); [|destruct (h_response_code h =? resp_code r)]; cbn [negb];
    (split; [done|]); (split; [done|]); eexists; (split; [done|]); by repeat (split; [done|]).
Qed.

(** The reply to a search. *)
Lemma search_replied `{HLaws : !HeaderLaws Name} now message req res :
  replied_with message (Some (search_reply now req res (serial_addr message) (serial_protocol message))) (answers_query now req res).
Proof.
  unfold search_reply. set (h := msg_header (req_message req)).
  destruct (response_header h) as (Hid & Hty & Hop & Hrd & Hcode & Htr). set (h0 := h_set_authoritative false _).
  assert (Hgo : ∀ r h1 a p, h_id h1 = h_id h → h_message_type h1 = MsgResponse → h_op_code h1 = h_op_code h →
      h_recursion_desired h1 = h_recursion_desired h → h_recursion_available h1 = true → h_authoritative h1 = false →
      (if h_response_code h1 =? NoError then resp_code r else h_response_code h1) =
        match res with Ok r => resp_code r | Err e => error_code now e (req_query req) end →
      match res with Ok r' => answers r = answers r' | Err _ => True end →
      a = serial_addr message → p = serial_protocol message →
      replied_with message (Some (serial_reply r h1 a p)) (answers_query now req res)).
  { intros r h1 a p E1 E2 E3 E4 E5 E6 E7 E8 -> ->.
    destruct (serial_reply_message r h1 (serial_addr message) (serial_protocol message)) as (Ea & Ep & m & Em & F1 & F2 & F3 & F4 & F5 & F6 & F7 & F8).
    exists (serial_reply r h1 (serial_addr message) (serial_protocol message)), m. split; [done|]. split; [done|]. split; [done|]. split; [done|].
    unfold answers_query, responds_to. fold h. rewrite F1, F2, F3, F4, F5, F6, F7, F8, E1, E2, E3, E4, E5, E6, E7. by destruct res. }
  assert (Hh0 : h_response_code h0 = NoError) by done.
  destruct res as [r|e]; [by apply Hgo; rewrite ?Hh0|].
  unfold error_code in Hgo. destruct (as_no_records_response now e (req_query req)) as [r|].
  - by apply Hgo; destruct (is_nx_domain e); rewrite ?Hh0.
  - by apply Hgo; destruct (is_nx_domain e); rewrite ?Hh0.
Qed.

Context {W : Type} (clock : W → Instant).
Context (search : W → DnsRequest Name → ServerOpts → W * option (result (DnsResponse Name) (LookupError Name))).

(** Every packet is replied to, at the address it came from, unless its search
    panics. A reply to a query has its id, says that recursion is available and that
    the server is not an authority, and has the response code of what the search
    gave; other operations are not implemented, a response and a packet that is
    malformed behind a readable header are format errors, with the id of the packet. *)
Lemma process_replies `{HLaws : !HeaderLaws Name} w message opts :
  let '(w', out) := process clock search w message opts in
  match request_of_serial message with
  | Err None => w' = w ∧ replied_with message out (eq msg_fresh)
  | Err (Some h) => w' = w ∧ replied_with message out (responds_to h FormErr)
  | Ok req =>
      if is_query req then
        let '(w1, res) := search w req opts in
        w' = w1 ∧ match res with Some res => replied_with message out (answers_query (clock w1) req res) | None => out = None end
      else w' = w ∧ replied_with message out (responds_to (msg_header (req_message req)) (unserved_code req))
  end.
Proof.
  unfold process, is_query, unserved_code. destruct (request_of_serial message) as [req|[h|]].
  - destruct (to_response_header (req_message req)) as (Hid & Hty).
    destruct (h_message_type (msg_header (req_message req))) eqn:Et; [destruct (_ =? OP_QUERY)|].
    + destruct (search w req opts) as [w1 [res|]]; (split; [done|]); [apply search_replied|done].
    + split; [done|]. by do 2 eexists.
    + split; [done|]. by do 2 eexists.
  - split; [done|]. destruct (response_header h) as (? & ? & _). by do 2 eexists.
  - split; [done|]. by do 2 eexists.
Qed.
End Reply.

(** ** Concrete headers *)
Definition flag_bits (h : Header) : Z * Z :=
  let b (x : bool) n := if x then n else 0 in
  (b (match h_message_type h with MsgResponse => true | MsgQuery => false end) 128 + h_op_code h * 8
   + b (h_authoritative h) 4 + b (h_truncated h) 2 + b (h_recursion_desired h) 1,
   b (h_recursion_available h) 128 + b (h_authentic_data h) 32 + b (h_checking_disabled h) 16 + h_response_code h).

#[global] Instance plain_header : HeaderLib PlainName := {
  response_from_request h :=
    mkHeaderOf (h_id h) MsgResponse (h_op_code h) false false (h_recursion_desired h) false false
      (h_checking_disabled h) NoError;
  header_emit h := [h_id h / 256; h_id h mod 256; (flag_bits h).1; (flag_bits h).2; 0; 0; 0; 0; 0; 0; 0; 0];
  to_response m :=
    msg_set_header (mkHeaderOf (h_id (msg_header m)) MsgResponse (h_op_code (msg_header m)) false false
                      (h_recursion_desired (msg_header m)) false false (h_checking_disabled (msg_header m)) NoError) msg_fresh;
  msg_decode l :=
    match l with
    | [id; t] => DecodedMessage (mkMsg (mkHeader id false NoError) [sample_query t] [] [] [] None)
    | [id] => DecodedFormError (mkHeader id false NoError)
    | _ => DecodedError
    end;
}.

#[global] Instance plain_header_laws : HeaderLaws PlainName.
Proof. by split. Qed.

Definition twelve : DnsResponse PlainName := prepare_wire (sample_resp [1; 2; 3; 4; 5; 6; 7; 8; 9; 10; 11; 12] 60).

Lemma reply_over_shared_encoding_witness :
  serial_to_wire (serial_reply twelve (mkHeader 258 false NoError) (mkSocket (V4 1) 53) PUdp) =
    WireBytes ([1; 2; 0; 0] ++ replicate 9 60).
Proof.
  rewrite (reply_over_shared_encoding twelve (mkHeader 258 false NoError) (mkSocket (V4 1) 53) PUdp (1 :: replicate 12 60));
    [reflexivity| |reflexivity|cbn; lia]. by intros w [= <-].
Defined.

(** A search that finds no name. *)
Definition no_search (w : nat) (_ : DnsRequest PlainName) (_ : ServerOpts) : nat * option (result (DnsResponse PlainName) (LookupError PlainName)) :=
  (S w, Some (Err (EResponseCode NXDomain))).

Example no_name_reply :
  let out := process (fun _ => 0) no_search 7%nat (SBytes [9; TYPE_A] (mkSocket (V4 1) 53) PUdp) opts_default in
  out.1 = 8%nat ∧
  match out.2 with
  | Some reply => (fun m => (h_id (msg_header m), msg_response_code m)) <$> serial_to_message reply = Some (9, NXDomain)
  | None => False
  end.
Proof. vm_compute. done. Qed.
