(* ===== verification/DnsmasqSpec.v ===== *)
(** * What the leases of dnsmasq answer *)

From S2P Require Import Prelude Names DomainMap DomainMapSpec Config DomainRule DomainRuleTree IpSet Message Runtime Context Calls Text FileWatch Samples Dnsmasq.

(** ** The index of names *)
Section Index.
Context {Name : Type} `{NameLaws Name}.

(** The identity of the rule a host is stored under, when it is no wildcard. *)
Definition host_id (ls : list label) : Z * list label * option Wildcard := (DEFAULT, ls, None).

Definition at_id {A} (ls : list label) (l : list (WildcardName Name * A)) : list A :=
  snd <$> filter (fun e => rule_id e.1 = host_id ls) l.

Definition plain_fqdn {A} (l : list (WildcardName Name * A)) : Prop :=
  ∀ n v, (WDefault n, v) ∈ l → name_is_fqdn n = true.

Lemma rule_id_host (k : WildcardName Name) ls :
  rule_id k = host_id ls ↔ ∃ n, k = WDefault n ∧ lowers (name_iter n) = ls.
Proof.
  split; [|by intros (n & -> & <-)].
  destruct k as [n|n|p n|n]; unfold rule_id, wn_key, host_id; cbn; [|discriminate..].
  intros [= <-]. by exists n.
Qed.

Lemma wn_eqb_host (n : Name) k ls :
  lowers (name_iter n) = ls → name_is_fqdn n = true → (∀ m, k = WDefault m → name_is_fqdn m = true) →
  wn_eqb (WDefault n) k = true ↔ rule_id k = host_id ls.
Proof.
  intros Hn Hf Hk. rewrite rule_id_host. destruct k as [m|m|p m|m]; cbn; [|split; [done|]; intros (? & ? & ?); done..].
  rewrite name_eqb_spec, Hf, (Hk m eq_refl), Hn. split; [intros [He _]; by exists m|].
  intros (? & [= <-] & ?). done.
Qed.

Lemma assoc_set_at {A} ls k (v : A) l :
  (∀ m, k = WDefault m → name_is_fqdn m = true) → plain_fqdn l → (length (at_id ls l) ≤ 1)%nat →
  at_id ls (assoc_set l k v) = if bool_decide (rule_id k = host_id ls) then [v] else at_id ls l.
Proof.
  intros Hk. induction l as [|[k' v'] l IH]; intros Hl Hlen.
  { cbn [assoc_set]. unfold at_id. rewrite filter_cons, filter_nil. cbn [fst]. by case_bool_decide; case_decide. }
  assert (Hl' : plain_fqdn l) by (intros n x Hin; apply (Hl n x); by right).
  cbn [assoc_set]. unfold at_id in Hlen |- *. rewrite !filter_cons in *. cbn [fst] in *.
  fold (at_id ls l) in *. destruct (decide (rule_id k' = host_id ls)) as [Hid|Hid].
  - cbn [fmap list_fmap length] in Hlen. fold (at_id ls l) in Hlen.
    apply rule_id_host in Hid as (n & -> & Hn).
    assert (Hf : name_is_fqdn n = true) by (apply (Hl n v'); by left).
    pose proof (wn_eqb_host n k ls Hn Hf Hk) as He.
    assert (Hnil : at_id ls l = []) by (destruct (at_id ls l); [done|cbn in Hlen; lia]).
    destruct (wn_eqb (WDefault n) k) eqn:Eb.
    + rewrite bool_decide_true by (by apply He). rewrite filter_cons. cbn [fst].
      rewrite decide_True by (apply rule_id_host; eauto). cbn [fmap list_fmap snd]. fold (at_id ls l). by rewrite Hnil.
    + rewrite bool_decide_false by (intros E; apply He in E; congruence). rewrite filter_cons. cbn [fst].
      rewrite decide_True by (apply rule_id_host; eauto). cbn [fmap list_fmap snd].
      fold (at_id ls (assoc_set l k v)) (at_id ls l). rewrite IH by (done || (rewrite Hnil; cbn; lia)).
      rewrite bool_decide_false; [done|]. intros E. apply He in E. congruence.
  - assert (Hlen' : (length (at_id ls l) ≤ 1)%nat) by done. clear Hlen.
    destruct (wn_eqb k' k) eqn:Eb.
    + assert (Hk' : rule_id k ≠ host_id ls).
      { intros (m & -> & Hm)%rule_id_host. destruct k' as [n|n|p n|n]; try done. cbn in Eb.
        apply name_eqb_spec in Eb as [Eb _]. apply Hid, rule_id_host. exists n. split; [done|congruence]. }
      rewrite bool_decide_false by done. rewrite filter_cons. cbn [fst]. by rewrite decide_False.
    + rewrite filter_cons. cbn [fst]. rewrite decide_False by done. fold (at_id ls (assoc_set l k v)). by apply IH.
Qed.

Lemma assoc_set_fqdn {A} k (v : A) l :
  (∀ m, k = WDefault m → name_is_fqdn m = true) → plain_fqdn l → plain_fqdn (assoc_set l k v).
Proof.
  intros Hk Hl. induction l as [|[k' v'] l IH].
  { cbn. intros n x [= <- <-]%list_elem_of_singleton. by apply Hk. }
  cbn. destruct (wn_eqb k' k); intros n x [E|Hin]%elem_of_cons; try (injection E as <- <-).
  - apply (Hl n v'). by left.
  - apply (Hl n x). by right.
  - apply (Hl n x). by left.
  - revert n x Hin. apply IH. intros n x Hin. apply (Hl n x). by right.
Qed.

Lemma last_value_at {A} ls (l : list (WildcardName Name * A)) : last_value l (host_id ls) = last (at_id ls l).
Proof.
  induction l as [|[k v] l IH] using rev_ind; [done|]. rewrite last_value_snoc.
  unfold at_id. rewrite filter_app, fmap_app, filter_cons, filter_nil. cbn [fst]. fold (at_id ls l).
  case_bool_decide as E; [rewrite decide_True by done|rewrite decide_False by done].
  - cbn. by rewrite last_snoc.
  - cbn. by rewrite app_nil_r.
Qed.

Lemma at_id_perm {A} ls (l l' : list (WildcardName Name * A)) : l ≡ₚ l' → at_id ls l ≡ₚ at_id ls l'.
Proof. intros Hp. unfold at_id. by rewrite Hp. Qed.
End Index.

Section Leases.
Context {Name : Type} `{NL0 : NameLaws Name} `{NT : NameText Name}.
Variable from_timestamp : Z → option Z.
Variable hash : Z → list Z → Z.
Variable wm : list Z → list Z → bool.
Variable names_order : list (WildcardName Name * ClientInfo Name) → list (WildcardName Name * ClientInfo Name).
Hypothesis names_order_perm : ∀ l, names_order l ≡ₚ l.

Abbreviation read_file := (read_lease_file from_timestamp).
Abbreviation get_clients := (get_cached_clients from_timestamp hash names_order).

(** The leases of a file, in the order of its lines. *)
Definition leases (local_now : Z) (zone : option Name) (lines : list (option text)) : list (ClientInfo Name) :=
  omap (fun line => line ≫= lease_line from_timestamp local_now zone) lines.

Definition host_labels c : list label := lowers (name_iter (ci_host c)).
Definition plain_host c : bool := negb (name_is_wildcard (ci_host c)).

(** The last lease of a host. *)
Definition lease_of (clients : list (ClientInfo Name)) (ls : list label) : option (ClientInfo Name) :=
  find_first (fun c => plain_host c && bool_decide (host_labels c = ls)) (reverse clients).

Definition last_with {K} `{EqDecision K} (key : ClientInfo Name → K) (k : K) (clients : list (ClientInfo Name))
    : option (ClientInfo Name) := find_first (fun c => bool_decide (key c = k)) (reverse clients).

Lemma lease_line_fqdn local_now zone line c :
  lease_line from_timestamp local_now zone line = Some c → name_is_fqdn (ci_host c) = true.
Proof.
  unfold lease_line. destruct (trim_start line) as [|ch l]; [done|]. destruct (_ =? _); [done|].
  destruct (client_info _ _ _) as [c0|]; [|done]. intros [= <-]. apply name_set_fqdn_fqdn.
Qed.

Lemma leases_fqdn local_now zone lines c : c ∈ leases local_now zone lines → name_is_fqdn (ci_host c) = true.
Proof. intros ([line|] & _ & Hl)%list_elem_of_omap; [by eapply lease_line_fqdn|done]. Qed.

Lemma wn_from_name_host c ls :
  rule_id (wn_from_name (ci_host c)) = host_id ls ↔ plain_host c = true ∧ host_labels c = ls.
Proof.
  rewrite rule_id_host. unfold wn_from_name, plain_host, host_labels. destruct (name_is_wildcard _); cbn.
  - split; [by intros (? & ? & _)|by intros []].
  - split; [intros (n & [= ->] & ?); done|]. intros [_ <-]. by eexists.
Qed.

(** The three indexes after reading leases. *)
Lemma read_leases (clients : list (ClientInfo Name)) :
  Forall (fun c => name_is_fqdn (ci_host c) = true) clients →
  let d := fold_left lease_insert clients (mkData [] ∅ ∅) in
  plain_fqdn (ld_names d) ∧
  (∀ ls, at_id ls (ld_names d) = option_list (lease_of clients ls)) ∧
  (∀ ip, ld_ips d !! ip = last_with ci_ip ip clients) ∧
  (∀ mac, ld_macs d !! mac = last_with (fun c => text_lower (ci_mac c)) mac clients).
Proof.
  induction clients as [|c clients IH] using rev_ind; [by intros _; split; [intros n v ?%elem_of_nil|]|].
  intros [Hc Hf]%Forall_app. apply Forall_cons_1 in Hf as [Hf _]. cbn zeta. rewrite fold_left_app. cbn [fold_left].
  destruct (IH Hc) as (Hfq & Hn & Hi & Hm). clear IH.
  set (d := fold_left lease_insert clients (mkData [] ∅ ∅)) in *.
  assert (Hk : ∀ m, wn_from_name (ci_host c) = WDefault m → name_is_fqdn m = true).
  { intros m. unfold wn_from_name. destruct (name_is_wildcard _); [done|]. intros E. injection E as <-. exact Hf. }
  unfold lease_insert. cbn [ld_names ld_ips ld_macs]. split; [by apply assoc_set_fqdn|].
  unfold lease_of, last_with. rewrite reverse_snoc. cbn [find_first]. split; [|split].
  - intros ls. rewrite assoc_set_at; [|done|done|rewrite Hn; by destruct (lease_of _ _); cbn; lia].
    pose proof (wn_from_name_host c ls) as Hw. case_bool_decide as E.
    + apply Hw in E as [-> <-]. by rewrite bool_decide_true.
    + destruct (plain_host c && bool_decide (host_labels c = ls)) eqn:Eb; [|apply Hn].
      apply andb_true_iff in Eb as [? ?%bool_decide_eq_true]. by destruct E; apply Hw.
  - intros ip. rewrite lookup_insert. destruct (decide (ci_ip c = ip)) as [E|E].
    + by rewrite bool_decide_true.
    + rewrite bool_decide_false by done. apply Hi.
  - intros mac. rewrite lookup_insert. destruct (decide (text_lower (ci_mac c) = mac)) as [E|E].
    + by rewrite bool_decide_true.
    + rewrite bool_decide_false by done. apply Hm.
Qed.

Lemma read_file_leases local_now zone lines :
  let d := read_file local_now zone lines in
  plain_fqdn (ld_names d) ∧
  (∀ ls, at_id ls (ld_names d) = option_list (lease_of (leases local_now zone lines) ls)) ∧
  (∀ ip, ld_ips d !! ip = last_with ci_ip ip (leases local_now zone lines)) ∧
  (∀ mac, ld_macs d !! mac = last_with (fun c => text_lower (ci_mac c)) mac (leases local_now zone lines)).
Proof. apply read_leases. apply Forall_forall. intros c Hc. by eapply leases_fqdn. Qed.

(** ** Lines *)

(** A line of five words is a lease with those fields. *)
Lemma client_info_line local_now ts mac ipt ht id host ip :
  let line := [ts; mac; ipt; ht; id] in
  Forall (fun piece => piece ≠ []) line →
  Forall (fun piece => forallb (fun c => negb (CHAR_SPACE =? c)) piece = true) line →
  (∀ c, head ts = Some c → is_whitespace c = false ∧ c ≠ CHAR_HASH) →
  (∀ c, last id = Some c → is_whitespace c = false) →
  ip_of_bytes ipt = Some ip → name_parse ht = Some host → name_show host ≠ [] →
  client_info from_timestamp local_now (join_at CHAR_SPACE line) =
    Some (mkClient id ip host mac (opt_unwrap_or local_now (n ← i64_parse ts; from_timestamp n))).
Proof.
  intros line He Hp Hh Hl Hip Hhost Hshow.
  destruct (words_line CHAR_SPACE line ts id) as (Ht & Hhd & Hw); try done; [by intros c Hc; apply Hh|].
  unfold client_info. cbn zeta in Ht, Hhd, Hw. rewrite Ht, Hw.
  assert (Hts : ts ≠ []) by (by apply Forall_cons_1 in He as [? _]).
  destruct ts as [|c ts]; [done|]. destruct (join_at CHAR_SPACE line) as [|c' l]; [done|]. injection Hhd as ->.
  destruct (Hh c eq_refl) as [_ Hc]. destruct (Z.eqb_spec c CHAR_HASH); [done|].
  cbn [lookup list_lookup head mbind option_bind line]. rewrite Hip. cbn [mbind option_bind]. rewrite Hhost.
  cbn [mbind option_bind]. by rewrite bool_decide_false.
Qed.

(** ** Forward lookups *)

(** No host is stored under a rule for the name only. *)
Definition no_full {A} (l : list (WildcardName Name * A)) : Prop := ∀ n v, (WFull n, v) ∉ l.

Lemma assoc_set_full {A} k (v : A) l : (∀ n, k ≠ WFull n) → no_full l → no_full (assoc_set l k v).
Proof.
  intros Hk Hl. induction l as [|[k' v'] l IH]; cbn.
  { intros n x E%list_elem_of_singleton. injection E as E _. by apply (Hk n). }
  assert (Hl' : no_full l) by (intros n x Hin; apply (Hl n x); by right).
  destruct (wn_eqb k' k); intros n x [E|Hin]%elem_of_cons.
  - injection E as <- _. apply (Hl n v'). by left.
  - by apply (Hl' n x).
  - rewrite <- E in Hl. apply (Hl n x). by left.
  - by apply (IH Hl' n x).
Qed.

Lemma read_leases_full (clients : list (ClientInfo Name)) :
  no_full (ld_names (fold_left lease_insert clients (mkData [] ∅ ∅))).
Proof.
  induction clients as [|c clients IH] using rev_ind; [by intros n v ?%elem_of_nil|].
  rewrite fold_left_app. cbn [fold_left]. unfold lease_insert. cbn [ld_names]. apply assoc_set_full; [|done].
  intros n. unfold wn_from_name. by destruct (name_is_wildcard _).
Qed.

(** What is needed of the index: names the buffers hold, and a hash that
    separates the names in play. *)
Definition index_ok (d : LeaseData (Name := Name)) (q : Name) : Prop :=
  Forall (fun e => valid_labels (wn_labels e.1) = true) (names_order (ld_names d)) ∧
  valid_labels (name_iter q) = true ∧
  collision_free hash (((fun e => wn_key e.1) <$> names_order (ld_names d)) ++ query_keys q).

Lemma index_lease local_now zone lines q c :
  let d := read_file local_now zone lines in
  index_ok d q → name_is_wildcard q = false →
  lease_of (leases local_now zone lines) (lowers (name_iter q)) = Some c →
  dm_find hash wm (dm_from_iter hash (names_order (ld_names d))) q = Some c.
Proof.
  intros d (Hv & Hq & Hc) Hw Hl. destruct (read_file_leases local_now zone lines) as (_ & Hat & _). fold d in Hat.
  set (entries := names_order (ld_names d)) in *. rewrite dm_from_iter_run.
  set (keys := _ ++ _) in Hc.
  destruct (dm_run_refines hash keys (inserts entries) dm_empty sm_empty Hc (dm_rel_empty _ _)) as [Hrel _].
  { apply Forall_forall. intros o (e & -> & Hin)%list_elem_of_fmap. apply elem_of_app. left.
    apply list_elem_of_fmap. by exists e. }
  rewrite (dm_find_refines wm _ _ _ _ q Hrel) by (intros k Hk; apply elem_of_app; by right).
  pose proof (sm_inv_run entries Hv) as Hinv. unfold sm_find, query_labels, query_skip. rewrite Hw, drop_0.
  rewrite valid_labels_lowers, Hq. cbn [negb]. unfold cands. rewrite !fmap_cons. cbn [first_some snd].
  rewrite (inv_map _ _ Hinv) by done.
  assert (last_value entries (FULL, lowers (name_iter q), None) = None) as ->.
  { apply eq_None_not_Some. intros [v (w & Hin & Hid)%last_value_Some].
    destruct w as [n|n|p n|n]; unfold rule_id, wn_key in Hid; cbn in Hid; try discriminate Hid.
    apply (read_leases_full (leases local_now zone lines) n v).
    change ((WFull n, v) ∈ ld_names d). by rewrite <- (names_order_perm (ld_names d)). }
  rewrite (inv_map _ _ Hinv) by done. fold (host_id (lowers (name_iter q))). rewrite last_value_at.
  pose proof (at_id_perm (lowers (name_iter q)) _ _ (names_order_perm (ld_names d))) as Hp. fold entries in Hp.
  rewrite Hat, Hl in Hp. cbn in Hp. apply Permutation_singleton_r in Hp. by rewrite Hp.
Qed.

Lemma find_client_lease local_now zone lines q c :
  let d := read_file local_now zone lines in
  index_ok d q → name_is_wildcard q = false → name_is_fqdn q = true →
  lease_of (leases local_now zone lines) (lowers (name_iter q)) = Some c →
  find_client hash wm zone (dm_from_iter hash (names_order (ld_names d))) q = Some c.
Proof.
  intros d Hd Hw Hf Hl. unfold find_client, with_zone. rewrite Hf.
  pose proof (index_lease _ _ _ _ _ Hd Hw Hl) as E. cbn zeta in E. fold d in E. by rewrite E.
Qed.

(** ** The middleware *)

(** The store holds what was read of some lines. *)
Definition holds (local_now : Z) (lines : list (option text)) (s : LanClientStore (Name := Name)) : Prop :=
  ∃ c, ls_cache s = Some c ∧
       let d := read_file local_now (ls_zone s) lines in
       lc_clients c = dm_from_iter hash (names_order (ld_names d)) ∧
       lc_ip_clients c = ld_ips d ∧ lc_mac_clients c = ld_macs d.

Lemma get_clients_zone env s : ls_zone (get_clients env s).1 = ls_zone s.
Proof.
  unfold get_cached_clients. destruct (leases_quick _ _); [done|].
  destruct (leases_check _ _ _) as [cache [c|]]; [done|]. by destruct (leases_store _ _ _ _ _ _).
Qed.

(** After a refresh the index given out is the one held. *)
Lemma get_clients_index env s c :
  ls_cache (get_clients env s).1 = Some c → (get_clients env s).2 = Some (lc_clients c).
Proof.
  unfold get_cached_clients, leases_quick, leases_check. destruct (ls_cache s) as [c0|] eqn:Ec; cbn [mbind option_bind].
  - destruct (cached_recent (le_now env) c0) eqn:Er; cbn [fst snd ls_cache].
    + by rewrite Ec; intros [= ->].
    + case_bool_decide; cbn [fst snd ls_cache]; [by intros [= <-]|].
      unfold leases_store. destruct (read_file _ _ <$> le_lines env); cbn; by intros [= <-].
  - unfold leases_store. destruct (read_file _ _ <$> le_lines env); cbn; [by intros [= <-]|done].
Qed.

Context `{ML : MsgLib Name} {RM : Type → Type} `{RML : RangeMapLib RM} `{NL : NetLib} {Fut : Type}.
Implicit Types (ctx : DnsContext Name RM Fut) (req : DnsRequest Name).

(** C17: with the leases of a file held, a query for the addresses of a host, in
    any spelling, is answered from the last lease of the host with the local
    TTL, or passed on when the lease has an address of the other family; a query
    for the name of an address is answered with the host of the last lease of
    the address. The code means to pass over a lease whose host is the placeholder
    [*] here (its comments say so), and does not: the test looks for the text [*],
    and the host of no lease that is read prints as that, as the last part says, so
    the placeholder is answered like any host. *)
Theorem dnsmasq_answers env ctx s req next local_now lines c :
  let q := req_query req in
  let '(s1, _) := get_clients env s in
  let found := leases local_now (ls_zone s) lines in
  (holds local_now lines s1 → index_ok (read_file local_now (ls_zone s) lines) (q_name q) →
   name_is_wildcard (q_name q) = false → name_is_fqdn (q_name q) = true →
   lease_of found (lowers (name_iter (q_name q))) = Some c →
   (q_type q = TYPE_A ∨ q_type q = TYPE_AAAA) →
   dnsmasq_handle from_timestamp hash wm names_order env (ctx, s) req next =
     if q_type q =? (if is_ipv4 (ci_ip c) then TYPE_A else TYPE_AAAA) then
       ((ctx_set_source FromStatic ctx, s1), Ok (lease_answer (le_now env) ctx req (rdata_of_ip (ci_ip c))))
     else next (ctx, s1) req) ∧
  (holds local_now lines s → NameTextLaws Name →
   q_type q = TYPE_PTR → last_with ci_ip (ci_ip c) found = Some c → ptr_to_ip (q_name q) = Some (ci_ip c) →
   dnsmasq_handle from_timestamp hash wm names_order env (ctx, s) req next =
     ((ctx_set_source FromStatic ctx, s), Ok (lease_answer (le_now env) ctx req (RPTR (ci_host c))))) ∧
  (NameTextLaws Name → ∀ c', c' ∈ found → ptr_of_client c' = Some (RPTR (ci_host c'))).
Proof.
  intros q. pose proof (get_clients_zone env s) as Hz. pose proof (get_clients_index env s) as Hi.
  destruct (get_clients env s) as [s1 o] eqn:Eg. cbn [fst snd] in Hz, Hi. intros found.
  assert (Hptr : NameTextLaws Name → ∀ c', c' ∈ found → ptr_of_client c' = Some (RPTR (ci_host c'))).
  { intros HT c' Hin. unfold ptr_of_client. rewrite bool_decide_false; [done|]. intros E.
    assert (Hf : name_is_fqdn (ci_host c') = true) by (eapply leases_fqdn; exact Hin).
    apply name_show_dot in Hf. rewrite E in Hf. by vm_compute in Hf. }
  split; [|split; [|exact Hptr]].
  - intros (c1 & Hc1 & Hd) Hok Hw Hf Hl Ht. specialize (Hi c1 Hc1). subst o. rewrite Hz in Hd.
    destruct Hd as (Hn & _). unfold dnsmasq_handle, dnsmasq_run. fold q.
    assert ((q_type q =? TYPE_PTR) = false) as -> by (destruct Ht as [-> | ->]; done).
    unfold lease_lookup. rewrite Eg. cbn [fst snd mbind option_bind]. rewrite Hz, Hn.
    rewrite (find_client_lease _ _ _ _ _ Hok Hw Hf Hl). cbn [mbind option_bind]. unfold client_data.
    destruct (ci_ip c); cbn [is_ipv4 rdata_of_ip]; destruct (_ =? _); by rewrite ?answered_pass_on.
  - intros (c1 & Hc1 & _ & Hip & _) HT Ht Hl Hp. unfold dnsmasq_handle, dnsmasq_run. fold q. rewrite Ht. cbn [Z.eqb].
    change (TYPE_PTR =? TYPE_PTR) with true. cbv iota. rewrite Hp. unfold reverse_lookup. rewrite Hc1, Hip.
    destruct (read_file_leases local_now (ls_zone s) lines) as (_ & _ & Hips & _). rewrite Hips. fold found. rewrite Hl.
    cbn [mbind option_bind]. rewrite Hptr; [done..|]. apply find_first_Some in Hl as [Hin _]. by rewrite elem_of_reverse in Hin.
Qed.

(** ** The file read again *)

(** What the cache holds of the file. *)
Definition Contents : Type :=
  DomainMap (ClientInfo Name) * gmap IpAddr (ClientInfo Name) * gmap text (ClientInfo Name).
Definition contents (c : LeaseCache Name) : Contents := (lc_clients c, lc_ip_clients c, lc_mac_clients c).
Definition contents_of (d : LeaseData (Name := Name)) : Contents :=
  (dm_from_iter hash (names_order (ld_names d)), ld_ips d, ld_macs d).

#[global] Instance leases_file_cache : FileCache (option (LeaseCache Name)) (option Z) (option (LeaseData (Name := Name))) Contents := {
  fc_view c := (fun c => (contents c, lc_modified_at c)) <$> c;
  fc_checked c := lc_checked_at <$> c;
  fc_parse r := contents_of <$> r;
  fc_true _ _ := False;
  fc_quick now c := contents <$> leases_quick now c;
  fc_check now s c := let '(c, o) := leases_check now s c in (c, contents <$> o);
  fc_store now s r c := let '(c, o) := leases_store hash names_order now s r c in (c, contents <$> o);
}.

#[global] Instance leases_file_cache_laws :
  FileCacheLaws (option (LeaseCache Name)) (option Z) (option (LeaseData (Name := Name))) Contents.
Proof.
  split.
  - intros now [c|]; [|done]. cbn. unfold fc_recent, cached_recent. cbn. by destruct (_ <? _).
  - intros now s [c|]; [|done]. cbn. destruct (cached_recent now c); [done|]. by case_bool_decide.
  - intros now s [c|]; [|done]. cbn. unfold fc_recent. cbn. unfold cached_recent. destruct (_ <? _); [done|].
    cbn. by case_bool_decide.
  - intros now s [d|] v c [= <-]. cbn. split; [done|]. exists s. split; [done|by left].
  - intros now s [d|] c Hp; [done|]. by destruct c.
Qed.

(** [get_cached_clients] of one query alone is those steps in a row. *)
Lemma get_clients_poll env s :
  let refreshed := read_file (le_local_now env) (ls_zone s) <$> le_lines env in
  let '(cache, o) := poll (le_now env) (le_modified env) refreshed (ls_cache s) in
  ls_cache (get_clients env s).1 = cache ∧ (get_clients env s).2 = fst ∘ fst <$> o.
Proof.
  unfold poll, get_cached_clients. cbn. destruct (ls_cache s) as [c|] eqn:Ec; cbn.
  - destruct (cached_recent (le_now env) c); cbn; [by rewrite Ec|]. case_bool_decide; [done|]. cbn.
    by destruct (le_lines env).
  - by destruct (le_lines env).
Qed.

(** C18: however queries and changes of the lease file interleave, leases held
    under the time of the last change of the file are those of the file; a query
    that finds the interval over and the file readable answers from the file. *)
Theorem lease_cache_current disk current w :
  reachable (FC := leases_file_cache) disk (mkWorld current [current] None ∅) w →
  (∀ c, w_cache w = Some c → lc_modified_at c = w_current w →
     contents_of <$> disk (w_current w) = Some (contents c)) ∧
  (∀ env s d, ls_cache s = w_cache w → le_modified env = w_current w →
     read_file (le_local_now env) (ls_zone s) <$> le_lines env = Some d → disk (w_current w) = Some d →
     match w_cache w with Some c => cached_recent (le_now env) c = false | None => True end →
     (get_clients env s).2 = Some (dm_from_iter hash (names_order (ld_names d)))).
Proof.
  intros Hr.
  assert (H0 : world_ok disk (mkWorld current [current] (None : option (LeaseCache Name)) ∅)).
  { split; [by left|done|]. intros i p Hp. cbn in Hp. by rewrite lookup_empty in Hp. }
  assert (Ht : ∀ v s, fc_true (FileCache := leases_file_cache) v s → fc_parse (disk s) = Some v) by (by intros v s []).
  destruct (watched_file_current disk Ht _ _ H0 Hr) as [H1 H2].
  split.
  - intros c Hc Hm. apply H1. cbn. rewrite Hc. cbn. by rewrite Hm.
  - intros env s d Hs Hm Hd Hdisk Hrec. pose proof (get_clients_poll env s) as Hp. cbn zeta in Hp.
    rewrite Hd, Hm, Hs in Hp. specialize (H2 (le_now env) (contents_of d)).
    rewrite Hdisk in H2. destruct (poll _ _ _ _) as [cache o]. destruct Hp as [_ ->].
    cbn [snd] in H2. rewrite H2; [done| |done]. unfold fc_recent. cbn. by destruct (w_cache w).
Qed.
End Leases.

(** ** A lease file *)
Definition lease_file : list (option text) :=
  [Some (text_of "# leases");
   Some (text_of "1702763919 c5:65:92:0b:b5:72 192.168.100.16 Andy-PC 01:c5:65:92:0b:b5:72");
   None;
   Some (text_of "1702756846 ef:50:f4:6d:be:48 2402:4e00::4947 iphone-abc *");
   Some (text_of "1702792061 7e:79:3d:a3:71:4d 192.168.100.156 * *")].

Definition neigh_table : NeighOutput :=
  Some (true, text_of "2402:4e00::5555  dev eth0  lladdr C5:65:92:0b:b5:72  REACHABLE").

Definition lease_env (modified : Z) : LeaseEnv := mkEnv (secs 100) 0 (Some modified) (Some lease_file) neigh_table.

Abbreviation read_leases_of := (get_cached_clients (Name := PlainName) Some fnv64 id).

Definition lease_store : LanClientStore (Name := PlainName) := (read_leases_of (lease_env 7) (store_new 0 None)).1.

Definition lease_req (name : string) (t : RecordType) : DnsRequest PlainName := req_of_query (query_of (plain_name name) t).

Definition lease_handle (name : string) (t : RecordType) (s : LanClientStore (Name := PlainName)) :=
  dnsmasq_handle Some fnv64 glob_match id (lease_env 7) (sample_ctx sample_inner None, s) (lease_req name t)
    (fun w _ => (w, Err ENameExists)).

Definition lease_answers (name : string) (t : RecordType) : option (list (RData PlainName)) :=
  match (lease_handle name t lease_store).2 with
  | Ok r => Some (rr_data <$> answers r)
  | Err _ => None
  end.

Example leases_looked_up :
  lease_answers "ANDY-pc" TYPE_A = Some [RA 3232261136] ∧ lease_answers "andy-pc" TYPE_AAAA = None ∧
  lease_answers "16.100.168.192.in-addr.arpa" TYPE_PTR = Some [RPTR (mkName [bytes_of_string "Andy-PC"] true)].
Proof. by vm_compute. Qed.

(** An address of no lease is looked up by the hardware address of its
    neighbour. *)
Example neighbors_looked_up :
  (reverse_lookup (lease_env 7) (V6 0x24024e00000000000000000000005555) lease_store).2 =
    Some (RPTR (mkName [bytes_of_string "Andy-PC"] true)).
Proof. by vm_compute. Qed.

(** A client without a name has the placeholder [*] as its host. The index takes
    it for a wildcard, so every name of one label that has no lease of its own
    gets the address of that client; and its address is given the name [*]. *)
Lemma placeholder_answers_every_name :
  lease_answers "printer" TYPE_A = Some [RA 3232261276] ∧ lease_answers "com" TYPE_A = Some [RA 3232261276] ∧
  lease_answers "156.100.168.192.in-addr.arpa" TYPE_PTR = Some [RPTR (mkName [star] true)].
Proof. by vm_compute. Qed.

(** A lookup by address that succeeds does not look at the file. *)
Lemma reverse_lookup_stale :
  reverse_lookup (mkEnv (secs 100000) 0 (Some 9) (Some []) neigh_table) (V4 3232261136) lease_store =
    (lease_store, Some (RPTR (mkName [bytes_of_string "Andy-PC"] true))).
Proof. by vm_compute. Qed.

Definition andy : ClientInfo PlainName :=
  mkClient (text_of "01:c5:65:92:0b:b5:72") (V4 3232261136) (mkName [bytes_of_string "Andy-PC"] true)
    (text_of "c5:65:92:0b:b5:72") 1702763919.

Lemma dnsmasq_answers_witness :
  lease_handle "ANDY-pc" TYPE_A lease_store =
    ((ctx_set_source FromStatic (sample_ctx sample_inner None), lease_store),
     Ok (lease_answer (secs 100) (sample_ctx sample_inner None) (lease_req "ANDY-pc" TYPE_A) (RA 3232261136))) ∧
  lease_handle "16.100.168.192.in-addr.arpa" TYPE_PTR lease_store =
    ((ctx_set_source FromStatic (sample_ctx sample_inner None), lease_store),
     Ok (lease_answer (secs 100) (sample_ctx sample_inner None) (lease_req "16.100.168.192.in-addr.arpa" TYPE_PTR)
           (RPTR (ci_host andy)))).
Proof.
  assert (Hholds : holds Some fnv64 id 0 lease_file lease_store).
  { eexists. split; [reflexivity|]. by repeat split. }
  assert (Hs : (read_leases_of (lease_env 7) lease_store).1 = lease_store) by reflexivity.
  split.
  - pose proof (dnsmasq_answers Some fnv64 glob_match id (fun l => reflexivity l) (lease_env 7)
      (sample_ctx sample_inner None) lease_store (lease_req "ANDY-pc" TYPE_A)
      (fun w _ => (w, Err ENameExists)) 0 lease_file andy) as H.
    cbv zeta in H. destruct (read_leases_of (lease_env 7) lease_store) as [s1 o] eqn:E. cbn [fst] in Hs. subst s1.
    destruct H as [H _]. specialize (H Hholds). unfold lease_handle. rewrite H; [reflexivity| | | | |by left].
    + split; [by repeat constructor|]. split; [reflexivity|]. apply (bool_decide_unpack _). by vm_compute.
    + reflexivity.
    + reflexivity.
    + by vm_compute.
  - pose proof (dnsmasq_answers Some fnv64 glob_match id (fun l => reflexivity l) (lease_env 7)
      (sample_ctx sample_inner None) lease_store (lease_req "16.100.168.192.in-addr.arpa" TYPE_PTR)
      (fun w _ => (w, Err ENameExists)) 0 lease_file andy) as H.
    cbv zeta in H. destruct (read_leases_of (lease_env 7) lease_store) as [s1 o] eqn:E. cbn [fst] in Hs. subst s1.
    destruct H as (_ & H & _). apply (H Hholds); [apply _|reflexivity|by vm_compute|by vm_compute].
Defined.

(** A change of the file while a query reads it: the cache keeps the older time,
    so the next check reads again. *)
Definition leases_on_disk (s : option Z) : option (LeaseData (Name := PlainName)) :=
  match s with
  | Some 7 => Some (read_lease_file Some 0 None lease_file)
  | Some 8 => Some (read_lease_file Some 0 None [])
  | _ => None
  end.

Definition lease_env_late : LeaseEnv := mkEnv (secs 200) 0 (Some 8) (Some []) None.

Abbreviation late := (world (option (LeaseCache PlainName)) (option Z) (option (LeaseData (Name := PlainName)))).
Definition late_start : late := mkWorld (Some 7) [Some 7] None ∅.
Definition late_asked : late := set_query 0 (Asked (secs 100)) late_start.
Definition late_statted : late := set_query 0 (Statted (secs 100) (Some 7)) late_asked.
Definition late_reading : late := set_query 0 (Reading (secs 100) (Some 7)) late_statted.
Definition late_changed : late := mkWorld (Some 8) [Some 8; Some 7] None (w_queries late_reading).
Definition late_read : late := set_query 0 (ReadDone (secs 100) (Some 7) (leases_on_disk (Some 8))) late_changed.
Definition late_world : late :=
  end_query 0 (leases_store fnv64 id (secs 100) (Some 7) (leases_on_disk (Some 8)) None).1 late_read.

Lemma late_reachable : reachable (FC := leases_file_cache fnv64 id) leases_on_disk late_start late_world.
Proof.
  eapply reach_step; [|apply (step_store leases_on_disk late_read 0%nat (secs 100) (Some 7) (leases_on_disk (Some 8)) _
    (contents <$> (leases_store fnv64 id (secs 100) (Some 7) (leases_on_disk (Some 8)) None).2));
    [by apply lookup_insert_eq|reflexivity]].
  eapply reach_step; [|by apply (step_read leases_on_disk late_changed 0%nat)].
  eapply reach_step; [|apply (step_change _ late_reading (Some 8)); by apply (bool_decide_unpack _)].
  eapply reach_step; [|by apply (step_unchecked _ late_statted 0%nat (secs 100) (Some 7) None)].
  eapply reach_step; [|by apply (step_stat _ late_asked 0%nat)].
  eapply reach_step; [apply reach_start|]. by apply (step_ask _ late_start 0%nat).
Qed.

Lemma lease_cache_current_witness :
  (get_cached_clients Some fnv64 id lease_env_late (mkStore None (w_cache late_world) (mkNeighbors ∅ 0))).2 =
    Some (dm_from_iter fnv64 (ld_names (read_lease_file (Name := PlainName) Some 0 None []))).
Proof.
  destruct (lease_cache_current Some fnv64 id leases_on_disk (Some 7) late_world late_reachable) as [_ H].
  apply (H lease_env_late (mkStore None (w_cache late_world) (mkNeighbors ∅ 0)) (read_lease_file Some 0 None []));
    by vm_compute.
Defined.
