(* ===== verification/Odhcpd.v ===== *)
(** * Leases of odhcpd ([dns_mw_odhcpd.rs])

    The lease file of OpenWrt's DHCP server: lines of a host file, and comments
    that describe leases, with the addresses in their last fields. *)

From S2P Require Import Prelude Names DomainMap Config DomainRule DomainRuleTree IpSet Message Runtime Context Calls Text FileWatch Samples Dnsmasq.

Section Odhcpd.
Context {Name : Type} `{NameLib Name} `{NameText Name}.

(** [forward] is a hash map by names, [reverse] by addresses. *)
Record LeaseRecords := mkRecords {
  lr_forward : list (Name * list IpAddr);
  lr_reverse : gmap IpAddr Name;
}.
Definition records_empty : LeaseRecords := mkRecords [] ∅.

(** ** Reading *)

(** What a line names: its calls of [add]. *)
Definition line_leases (line : text) : list (text * IpAddr) :=
  let line := trim line in
  let rest := match line with
              | c :: rest =>
                  if c =? CHAR_HASH then
                    match rest with
                    | d :: _ => if is_whitespace d then Some (true, trim_start rest) else None
                    | [] => None
                    end
                  else Some (false, line)
              | [] => Some (false, line)
              end in
  match rest with
  | None => []
  | Some (metadata, line) =>
      let parts := split_whitespace line in
      match parts with
      | [] => []
      | first :: hosts =>
          let leases :=
            if (8 <=? length parts)%nat then
              omap (fun token =>
                      ip ← head (split_at (Z.eqb 47) token) ≫= ip_of_bytes;
                      host ← parts !! 3%nat; Some (host, ip)) (drop 7 parts)
            else [] in
          match (if metadata then None else ip_of_bytes first) with
          | Some ip =>
              (fun host => (host, ip)) <$>
                take (opt_unwrap_or (length hosts) (position (fun h => bool_decide (head h = Some CHAR_HASH)) hosts)) hosts
          | None => leases
          end
      end
  end.

(** The name of a host and its name in the zone; none for a placeholder. *)
Definition host_names (zone : option Name) (host : text) : option (Name * Name) :=
  if bool_decide (host ∈ [text_of "*"; text_of "-"; text_of "0"]) then None
  else
    name ← name_parse host;
    let name := name_set_fqdn true name in
    let canonical := if (name_num_labels name =? 1)%nat then
                       opt_unwrap_or name (z ← zone; name_append_domain name z)
                     else name in
    Some (name, canonical).

Definition push_new (ip : IpAddr) (ips : list IpAddr) : list IpAddr :=
  if bool_decide (ip ∈ ips) then ips else ips ++ [ip].

Fixpoint forward_push (alias : Name) (ip : IpAddr) (l : list (Name * list IpAddr)) : list (Name * list IpAddr) :=
  match l with
  | [] => [(alias, [ip])]
  | (n, ips) :: l => if name_eqb n alias then (n, push_new ip ips) :: l else (n, ips) :: forward_push alias ip l
  end.

Definition forward_get (name : Name) (l : list (Name * list IpAddr)) : list IpAddr :=
  opt_map_or [] snd (find_first (fun x => name_eqb x.1 name) l).

Definition records_add (zone : option Name) (r : LeaseRecords) (x : text * IpAddr) : LeaseRecords :=
  match host_names zone x.1 with
  | None => r
  | Some (name, canonical) =>
      mkRecords (forward_push canonical x.2 (forward_push name x.2 (lr_forward r)))
        (match lr_reverse r !! x.2 with Some _ => lr_reverse r | None => <[x.2:=canonical]> (lr_reverse r) end)
  end.

Definition records_parse (zone : option Name) (s : text) : LeaseRecords :=
  fold_left (records_add zone) (str_lines s ≫= line_leases) records_empty.

(** ** The file *)
Inductive FileRead := ReadText (s : text) | ReadNotFound | ReadFailed.

Record OdhcpdCache := mkOdhcpd {
  oc_checked : Instant;
  oc_modified : option Z;
  oc_records : LeaseRecords;
}.

Definition odhcpd_new (now : Instant) : OdhcpdCache := mkOdhcpd (now - secs 3) None records_empty.

(** The refresh of [lookup], which holds the lock throughout. *)
Definition odhcpd_read (zone : option Name) (now : Instant) (modified : option Z) (read : FileRead) (c : OdhcpdCache)
    : OdhcpdCache :=
  match read with
  | ReadText s => mkOdhcpd now modified (records_parse zone s)
  | ReadNotFound => mkOdhcpd now None records_empty
  | ReadFailed => mkOdhcpd now (oc_modified c) (oc_records c)
  end.

Definition odhcpd_refresh (zone : option Name) (now : Instant) (modified : option Z) (read : FileRead) (c : OdhcpdCache)
    : OdhcpdCache :=
  if now - oc_checked c <? secs 2 then c
  else if bool_decide (modified = oc_modified c) then mkOdhcpd now (oc_modified c) (oc_records c)
  else odhcpd_read zone now modified read c.

(** ** Lookups *)
Definition of_family (t : RecordType) (ip : IpAddr) : bool :=
  match ip with V4 _ => t =? TYPE_A | V6 _ => t =? TYPE_AAAA end.

Definition records_lookup (r : LeaseRecords) (name : Name) (t : RecordType) : list (RData Name) :=
  if t =? TYPE_PTR then
    match ip ← ptr_to_ip name; lr_reverse r !! ip with Some host => [RPTR host] | None => [] end
  else rdata_of_ip <$> List.filter (of_family t) (forward_get name (lr_forward r)).

Context `{MsgLib Name} {RM : Type → Type} `{RangeMapLib RM} `{NL : NetLib} {Fut : Type}.
Abbreviation Ctx := (DnsContext Name RM Fut).
Abbreviation Res := (result (DnsResponse Name) (LookupError Name)).

Definition OdhcpdWorld : Type := Ctx * OdhcpdCache.

Definition odhcpd_run (zone : option Name) (now : Instant) (modified : option Z) (read : FileRead)
    (w : OdhcpdWorld) (req : DnsRequest Name) : Handling Name OdhcpdWorld (OdhcpdWorld * Res) :=
  let '(ctx, c) := w in
  let q := req_query req in
  let c := odhcpd_refresh zone now modified read c in
  match records_lookup (oc_records c) (q_name q) (q_type q) with
  | [] => pass_on (ctx, c) req
  | data =>
      let ttl := as_u32 (local_ttl (ctx_cfg ctx)) in
      Return ((ctx_set_source FromStatic ctx, c), Ok (new_with_max_ttl now q (mkRr (q_name q) ttl <$> data)))
  end.
Definition odhcpd_handle (zone : option Name) (now : Instant) (modified : option Z) (read : FileRead)
    (w : OdhcpdWorld) (req : DnsRequest Name) (next : OdhcpdWorld → DnsRequest Name → OdhcpdWorld * Res)
    : OdhcpdWorld * Res :=
  answered next (odhcpd_run zone now modified read w req).

(** ** What the records hold *)

(** The addresses in the order of their first occurrence. *)
Definition distinct (ips : list IpAddr) : list IpAddr := reverse (remove_dups (reverse ips)).

Lemma distinct_snoc ips ip : distinct (ips ++ [ip]) = push_new ip (distinct ips).
Proof.
  unfold distinct, push_new. rewrite reverse_snoc. cbn [remove_dups].
  rewrite (bool_decide_ext (ip ∈ reverse (remove_dups (reverse ips))) (ip ∈ reverse ips))
    by (by rewrite !elem_of_reverse, elem_of_remove_dups, elem_of_reverse).
  unfold decide_rel. destruct (list_elem_of_dec ip (reverse ips)) as [E|E].
  - by rewrite bool_decide_true.
  - rewrite bool_decide_false by done. by rewrite reverse_cons.
Qed.

(** A host and its address, with both names. *)
Definition named (zone : option Name) (x : text * IpAddr) : option (Name * Name * IpAddr) :=
  '(name, canonical) ← host_names zone x.1; Some (name, canonical, x.2).

Definition lease_named (n : Name) (l : Name * Name * IpAddr) : bool := name_eqb l.1.1 n || name_eqb l.1.2 n.

Definition leased (zone : option Name) (s : text) : list (Name * Name * IpAddr) :=
  omap (named zone) (str_lines s ≫= line_leases).

Context `{NLaws : !NameLaws Name}.

Lemma name_eqb_refl (n : Name) : name_eqb n n = true.
Proof. by apply name_eqb_spec. Qed.
Lemma name_eqb_euclid (a b n : Name) : name_eqb a b = true → name_eqb a n = name_eqb b n.
Proof.
  rewrite name_eqb_spec. intros [Hl Hf]. apply eq_iff_eq_true. rewrite !name_eqb_spec. by rewrite Hl, Hf.
Qed.

Lemma forward_get_push alias ip n l :
  forward_get n (forward_push alias ip l) =
    if name_eqb alias n then push_new ip (forward_get n l) else forward_get n l.
Proof.
  unfold forward_get. induction l as [|[m ips] l IH]; cbn [forward_push find_first fst].
  - by destruct (name_eqb alias n).
  - destruct (name_eqb m alias) eqn:Em; cbn [find_first fst].
    + rewrite (name_eqb_euclid _ _ n Em). by destruct (name_eqb alias n).
    + destruct (name_eqb m n) eqn:En; [|done]. cbn. destruct (name_eqb alias n) eqn:Ea; [|done].
      assert (name_eqb n alias = true) as E by (apply name_eqb_spec in Ea as [? ?]; by apply name_eqb_spec).
      rewrite <- (name_eqb_euclid m n alias En) in E. congruence.
Qed.

Lemma push_new_again ip ips : push_new ip (push_new ip ips) = push_new ip ips.
Proof.
  unfold push_new at 1. rewrite bool_decide_true; [done|]. unfold push_new.
  case_bool_decide; [done|]. apply elem_of_app. right. by left.
Qed.

Lemma records_added zone l :
  let r := fold_left (records_add zone) l records_empty in
  (∀ n, forward_get n (lr_forward r) = distinct (snd <$> List.filter (lease_named n) (omap (named zone) l))) ∧
  (∀ ip, lr_reverse r !! ip =
     (fun x => x.1.2) <$> find_first (fun x : Name * Name * IpAddr => bool_decide (x.2 = ip)) (omap (named zone) l)).
Proof.
  induction l as [|x l IH] using rev_ind; [done|]. cbn zeta. rewrite fold_left_app, omap_app. cbn [fold_left].
  destruct IH as [IHf IHr]. set (r := fold_left (records_add zone) l records_empty) in *.
  unfold records_add. cbn [omap list_omap]. unfold named at 2 4. destruct (host_names zone x.1) as [[name canonical]|];
    cbn [mbind option_bind]; [|rewrite app_nil_r; by split].
  split.
  - intros n. cbn [lr_forward]. rewrite !forward_get_push, IHf, List.filter_app, fmap_app. cbn [List.filter].
    change (lease_named n (name, canonical, x.2)) with (name_eqb name n || name_eqb canonical n). destruct (name_eqb name n), (name_eqb canonical n); cbn [orb].
    + by rewrite push_new_again, <- distinct_snoc.
    + by rewrite <- distinct_snoc.
    + by rewrite <- distinct_snoc.
    + by rewrite app_nil_r.
  - intros ip. cbn [lr_reverse]. rewrite find_first_app. cbn [find_first snd].
    destruct (decide (x.2 = ip)) as [<-|Hne].
    + rewrite IHr. destruct (find_first _ (omap (named zone) l)) eqn:Ef; cbn [fmap option_fmap option_map].
      * by rewrite IHr, Ef.
      * by rewrite bool_decide_true, lookup_insert_eq.
    + assert ((match lr_reverse r !! x.2 with
               | Some _ => lr_reverse r | None => <[x.2:=canonical]> (lr_reverse r) end) !! ip = lr_reverse r !! ip) as ->.
      { destruct (lr_reverse r !! x.2); [done|]. by rewrite lookup_insert_ne. }
      rewrite IHr, bool_decide_false by done. by destruct (find_first _ _).
Qed.

(** A query for a host is answered with the distinct addresses of its family
    that the file gives the host, under its own name or its name in the zone, in
    the order of the file; a query for the name of an address with the name in
    the zone of the first host that has it; other queries are passed on. *)
Theorem odhcpd_answers zone now modified read ctx c req next :
  let q := req_query req in
  let c1 := odhcpd_refresh zone now modified read c in
  let answer data :=
    ((ctx_set_source (Name := Name) (RM := RM) (Fut := Fut) FromStatic ctx, c1),
     Ok (new_with_max_ttl now q (mkRr (q_name q) (as_u32 (local_ttl (ctx_cfg ctx))) <$> data))) in
  ∀ s, oc_records c1 = records_parse zone s →
  odhcpd_handle zone now modified read (ctx, c) req next =
    if q_type q =? TYPE_PTR then
      match ip ← ptr_to_ip (q_name q);
            find_first (fun x : Name * Name * IpAddr => bool_decide (x.2 = ip)) (leased zone s) with
      | Some x => answer [RPTR x.1.2]
      | None => next (ctx, c1) req
      end
    else
      match List.filter (of_family (q_type q))
              (distinct (snd <$> List.filter (lease_named (q_name q)) (leased zone s))) with
      | [] => next (ctx, c1) req
      | ips => answer (rdata_of_ip <$> ips)
      end.
Proof.
  intros q c1 answer s Hs. unfold odhcpd_handle, odhcpd_run. fold q c1. rewrite Hs. unfold records_parse, records_lookup, leased.
  destruct (records_added zone (str_lines s ≫= line_leases)) as [Hf Hr]. destruct (q_type q =? TYPE_PTR).
  - destruct (ptr_to_ip (q_name q)) as [ip|]; cbn [mbind option_bind]; [|by rewrite answered_pass_on]. rewrite Hr.
    destruct (find_first _ _) as [[[? ?] ?]|]; cbn [fmap option_fmap option_map]; [done|by rewrite answered_pass_on].
  - rewrite Hf. destruct (List.filter _ _); cbn [fmap list_fmap]; [by rewrite answered_pass_on|done].
Qed.

(** ** The file read again *)
#[global] Instance odhcpd_file_cache (zone : option Name) : FileCache OdhcpdCache (option Z) FileRead LeaseRecords := {
  fc_view c := Some (oc_records c, oc_modified c);
  fc_checked c := Some (oc_checked c);
  fc_parse r := match r with
                | ReadText s => Some (records_parse zone s)
                | ReadNotFound => Some records_empty
                | ReadFailed => None
                end;
  fc_true v s := v = records_empty ∧ s = None;
  fc_quick now c := if now - oc_checked c <? secs 2 then Some (oc_records c) else None;
  fc_check now s c :=
    if now - oc_checked c <? secs 2 then (c, Some (oc_records c))
    else if bool_decide (s = oc_modified c) then (mkOdhcpd now (oc_modified c) (oc_records c), Some (oc_records c))
    else (c, None);
  fc_store now s r c := let c := odhcpd_read zone now s r c in (c, Some (oc_records c));
}.

#[global] Instance odhcpd_file_cache_laws zone :
  FileCacheLaws (FC := odhcpd_file_cache zone) OdhcpdCache (option Z) FileRead LeaseRecords.
Proof.
  split.
  - intros now c. unfold fc_recent. cbn. unfold STAT_INTERVAL. by destruct (_ <? _).
  - intros now s c. cbn. destruct (_ <? _); [done|]. by case_bool_decide.
  - intros now s c. cbn. unfold fc_recent. cbn. unfold STAT_INTERVAL. destruct (_ <? _); [done|]. cbn.
    rewrite (bool_decide_ext (s = oc_modified c) (oc_modified c = s)) by done. by case_bool_decide.
  - intros now s [t| |] v c [= <-]; cbn; (split; [done|]); eexists; (split; [done|]); [by left|by right].
  - by intros now s [t| |] c.
Qed.

Lemma odhcpd_refresh_poll zone now modified read c :
  poll (FC := odhcpd_file_cache zone) now modified read c =
    (odhcpd_refresh zone now modified read c, Some (oc_records (odhcpd_refresh zone now modified read c))).
Proof.
  unfold poll, odhcpd_refresh. cbn. destruct (_ <? _); [done|]. by case_bool_decide.
Qed.
End Odhcpd.

(** ** A lease file *)
Definition odhcpd_file : text :=
  text_of "# br-lan 0001 abc phone 1700000000 1 64 fd00::5/128 192.168.1.5/32" ++ [10]
  ++ text_of "192.168.1.5	phone.lan	phone" ++ [10] ++ text_of "192.168.1.6 phone # spare" ++ [10]
  ++ text_of "# br-lan 0001 abc - 1700000000 1 64 192.168.1.9/32" ++ [10] ++ text_of "#192.168.1.7 off".

Definition odhcpd_zone : option PlainName := Some (plain_name "lan").

Definition odhcpd_sample (name : string) (t : RecordType) :=
  odhcpd_handle odhcpd_zone (secs 10) (Some 1) (ReadText odhcpd_file)
    (sample_ctx sample_inner None, odhcpd_new 0) (req_of_query (query_of (plain_name name) t))
    (fun w _ => (w, Err ENameExists)).

Definition odhcpd_sample_answers (name : string) (t : RecordType) : option (list (RData PlainName)) :=
  match (odhcpd_sample name t).2 with Ok r => Some (rr_data <$> answers r) | Err _ => None end.

Example odhcpd_looked_up :
  odhcpd_sample_answers "PHONE" TYPE_A = Some [RA 3232235781; RA 3232235782] ∧
  odhcpd_sample_answers "phone.lan" TYPE_AAAA = Some [RAAAA 0xfd000000000000000000000000000005] ∧
  odhcpd_sample_answers "5.1.168.192.in-addr.arpa" TYPE_PTR = Some [RPTR (plain_name "phone.lan")] ∧
  odhcpd_sample_answers "off" TYPE_A = None ∧ odhcpd_sample_answers "9.1.168.192.in-addr.arpa" TYPE_PTR = None.
Proof. by vm_compute. Qed.

Lemma odhcpd_answers_witness :
  match (odhcpd_sample "phone" TYPE_A).2 with
  | Ok r => rr_data <$> answers r = [RA 3232235781; RA 3232235782]
  | Err _ => False
  end.
Proof.
  unfold odhcpd_sample.
  rewrite (odhcpd_answers odhcpd_zone (secs 10) (Some 1) (ReadText odhcpd_file) (sample_ctx sample_inner None)
    (odhcpd_new 0) (req_of_query (query_of (plain_name "phone") TYPE_A)) _ odhcpd_file)
    by (vm_compute; reflexivity).
  by vm_compute.
Defined.
