(* ===== verification/HostsMw.v ===== *)
(** * Host files ([dns_mw_hosts.rs])

    Queries for addresses are answered from host files, which are read again when
    one of them changes. Reading a host file and looking a name up in it are the
    DNS library's. *)

From S2P Require Import Prelude Names DomainMap Config DomainRule DomainRuleTree IpSet Message Runtime Context Calls FileWatch Samples.

(** The DNS library's [Hosts]: an empty one, reading a file into one, and the
    records and deadline it has for a query. *)
Class HostsLib (Name Hosts : Type) := {
  hosts_default : Hosts;
  read_hosts_conf : string → Hosts → Hosts;
  lookup_static_host : Query Name → Hosts → option (list (Rr Name) * Instant);
}.

Record HostsFileMeta := mkMeta { hm_path : string; hm_modified_at : option Z }.
#[global] Instance HostsFileMeta_eq_dec : EqDecision HostsFileMeta.
Proof. solve_decision. Defined.

Definition HostsFileSignature := list HostsFileMeta.

(** What the file system says of a path: whether it is a file, the time of its
    last change, and its content if it can be opened. *)
Record PathInfo := mkPath { pi_path : string; pi_is_file : bool; pi_modified : option Z; pi_content : option string }.

Section Hosts.
Context {Name : Type} `{NameLib Name} {Hosts : Type} `{HL : HostsLib Name Hosts}.

Record HostsCache := mkHosts { hc_hosts : Hosts; hc_signature : HostsFileSignature; hc_checked_at : Instant }.

(** ** The signature of the files *)
Definition append_hosts_file_meta (p : PathInfo) (files : list HostsFileMeta) : list HostsFileMeta :=
  if pi_is_file p then files ++ [mkMeta (pi_path p) (pi_modified p)] else files.

Definition meta_leb (a b : HostsFileMeta) : bool :=
  match String.compare (hm_path a) (hm_path b) with Gt => false | _ => true end.

(** [dedup_by]: the first of each run of equal paths. *)
Fixpoint dedup_paths (files : list HostsFileMeta) : list HostsFileMeta :=
  match files with
  | a :: rest =>
      a :: match dedup_paths rest with
           | b :: rest' => if String.eqb (hm_path a) (hm_path b) then rest' else b :: rest'
           | [] => []
           end
  | [] => []
  end.

(** [matched]: the paths the pattern matches, when there is one and it is valid;
    those that cannot be read are only logged. *)
Definition collect_hosts_signature (matched : option (list PathInfo)) (system : list PathInfo) : HostsFileSignature :=
  dedup_paths (sort_by meta_leb (foldl (fun files p => append_hosts_file_meta p files) [] (default [] matched ++ system))).

Definition read_hosts (matched : list PathInfo) : Hosts :=
  fold_left (fun hosts p => match (if pi_is_file p then pi_content p else None) with
                            | Some text => read_hosts_conf text hosts
                            | None => hosts
                            end) matched hosts_default.

(** ** The cache, between its locks *)
Definition hosts_recent (now : Instant) (c : HostsCache) : bool := now - hc_checked_at c <? STAT_INTERVAL.

Definition hosts_quick (now : Instant) (cache : option HostsCache) : option Hosts :=
  c ← cache; if hosts_recent now c then Some (hc_hosts c) else None.

Definition hosts_check (now : Instant) (signature : HostsFileSignature) (cache : option HostsCache)
    : option HostsCache * option Hosts :=
  match cache with
  | None => (None, None)
  | Some c =>
      if hosts_recent now c then (cache, Some (hc_hosts c))
      else if bool_decide (hc_signature c = signature) then
        (Some (mkHosts (hc_hosts c) (hc_signature c) now), Some (hc_hosts c))
      else (cache, None)
  end.

Definition hosts_store (now : Instant) (signature : HostsFileSignature) (refreshed : Hosts)
    : option HostsCache * Hosts := (Some (mkHosts refreshed signature now), refreshed).

(** [cached_hosts] of one query alone. *)
Definition cached_hosts (now : Instant) (matched : option (list PathInfo)) (system : list PathInfo)
    (cache : option HostsCache) : option HostsCache * Hosts :=
  match hosts_quick now cache with
  | Some h => (cache, h)
  | None =>
      let signature := collect_hosts_signature matched system in
      match hosts_check now signature cache with
      | (cache, Some h) => (cache, h)
      | (cache, None) =>
          let refreshed := match matched with Some l => read_hosts l | None => hosts_default end in
          hosts_store now signature refreshed
      end
  end.

(** ** The middleware *)
Context `{MsgLib Name} {RM : Type → Type} `{RangeMapLib RM} `{NL : NetLib} {Fut : Type}.
Abbreviation Ctx := (DnsContext Name RM Fut).
Abbreviation Res := (result (DnsResponse Name) (LookupError Name)).
Definition HostsWorld : Type := Ctx * option HostsCache.

(** [expand_ptr]: the option [expand-ptr-from-address]. *)
Definition hosts_run (expand_ptr : bool) (now : Instant) (matched : option (list PathInfo)) (system : list PathInfo)
    (w : HostsWorld) (req : DnsRequest Name) : Handling Name HostsWorld (HostsWorld * Res) :=
  let '(ctx, cache) := w in
  let query := req_query req in
  let is_ptr := (q_type query =? TYPE_PTR) && expand_ptr in
  if is_ip_addr (q_type query) || is_ptr then
    let '(cache, hosts) := cached_hosts now matched system cache in
    let name := name_set_fqdn (negb (name_is_fqdn (q_name query))) (q_name query) in
    match opt_or (lookup_static_host query hosts) (lookup_static_host (query_of name (q_type query)) hosts) with
    | Some (records, valid_until) => Return ((ctx, cache), Ok (new_with_deadline query records valid_until))
    | None => pass_on (ctx, cache) req
    end
  else pass_on w req.
Definition hosts_handle (expand_ptr : bool) (now : Instant) (matched : option (list PathInfo)) (system : list PathInfo)
    (w : HostsWorld) (req : DnsRequest Name) (next : HostsWorld → DnsRequest Name → HostsWorld * Res) : HostsWorld * Res :=
  answered next (hosts_run expand_ptr now matched system w req).

(** ** The files read again *)
#[global] Instance hosts_file_cache : FileCache (option HostsCache) HostsFileSignature Hosts Hosts := {
  fc_view c := (fun c => (hc_hosts c, hc_signature c)) <$> c;
  fc_checked c := hc_checked_at <$> c;
  fc_parse := Some;
  fc_true _ _ := False;
  fc_quick := hosts_quick;
  fc_check := hosts_check;
  fc_store now s r _ := let '(c, h) := hosts_store now s r in (c, Some h);
}.

#[global] Instance hosts_file_cache_laws : FileCacheLaws (option HostsCache) HostsFileSignature Hosts Hosts.
Proof.
  split.
  - intros now [c|]; [|done]. cbn. unfold fc_recent, hosts_recent. cbn. by destruct (_ <? _).
  - intros now s [c|]; [|done]. cbn. destruct (hosts_recent now c); [done|]. by case_bool_decide.
  - intros now s [c|]; [|done]. cbn. unfold fc_recent. cbn. unfold hosts_recent. destruct (_ <? _); [done|].
    cbn. by case_bool_decide.
  - intros now s r v c [= <-]. cbn. split; [done|]. exists s. split; [done|by left].
  - by intros now s r c.
Qed.

Lemma cached_hosts_poll now matched system cache :
  let refreshed := match matched with Some l => read_hosts l | None => hosts_default end in
  let '(c, o) := poll now (collect_hosts_signature matched system) refreshed cache in
  cached_hosts now matched system cache = (c, default hosts_default o).
Proof.
  unfold poll, cached_hosts. cbn. destruct cache as [c|]; cbn; [|done].
  destruct (hosts_recent now c); [done|]. by case_bool_decide.
Qed.

(** A query gets what the files hold when one of them has changed since they were
    read, and otherwise what was read; it is answered from it under the name as
    given or with the other kind of root. *)
Lemma hosts_answers expand_ptr now matched system ctx cache req next :
  let q := req_query req in
  let signature := collect_hosts_signature matched system in
  let files := match matched with Some l => read_hosts l | None => hosts_default end in
  let '(cache1, hosts) := cached_hosts now matched system cache in
  hosts = match cache with
          | Some c => if hosts_recent now c || bool_decide (hc_signature c = signature) then hc_hosts c else files
          | None => files
          end ∧
  hosts_handle expand_ptr now matched system (ctx, cache) req next =
    if is_ip_addr (q_type q) || ((q_type q =? TYPE_PTR) && expand_ptr) then
      match lookup_static_host q hosts with
      | Some (records, until) => ((ctx, cache1), Ok (new_with_deadline q records until))
      | None =>
          match lookup_static_host (query_of (name_set_fqdn (negb (name_is_fqdn (q_name q))) (q_name q)) (q_type q)) hosts with
          | Some (records, until) => ((ctx, cache1), Ok (new_with_deadline q records until))
          | None => next (ctx, cache1) req
          end
      end
    else next (ctx, cache) req.
Proof.
  intros q signature files. unfold hosts_handle, hosts_run. fold q.
  pose proof (cached_hosts_poll now matched system cache) as Hp. cbn zeta in Hp. fold signature files in Hp.
  pose proof (poll_answers now signature files cache) as Ha.
  destruct (poll now signature files cache) as [c o]. rewrite Hp. cbn [snd] in Ha. split.
  - subst o. cbn. destruct cache as [c0|]; [|done]. cbn. unfold fc_recent. cbn. unfold hosts_recent.
    by destruct ((_ <? _) || _).
  - destruct (_ || _); [|by rewrite answered_pass_on]. destruct (lookup_static_host q _) as [[? ?]|]; [done|]. cbn [opt_or].
    destruct (lookup_static_host _ _) as [[? ?]|]; [done|by rewrite answered_pass_on].
Qed.
End Hosts.

(** ** Host files for evaluation: a name per file *)
#[local] Instance one_name_hosts : HostsLib PlainName (list PlainName) := {
  hosts_default := [];
  read_hosts_conf text hosts := hosts ++ [plain_name text];
  lookup_static_host q hosts :=
    n ← find_first (name_eqb (q_name q)) hosts; Some ([mkRr n 60 (RA 2130706433)], secs 60);
}.

Example hosts_sample :
  match (hosts_handle false (secs 5) (Some [mkPath "/etc/lan" true (Some 1) (Some "www.example.com")])
           [mkPath "/etc/hosts" true (Some 0) None] (sample_ctx sample_inner None, None) (sample_req TYPE_A)
           (fun w _ => (w, Err ENameExists))) with
  | ((_, Some c), Ok r) =>
      length (answers r) = 1%nat ∧ hc_signature c = [mkMeta "/etc/hosts" (Some 0); mkMeta "/etc/lan" (Some 1)]
  | _ => False
  end.
Proof. by vm_compute. Qed.
