(* ===== verification/ZonesSpec.v ===== *)
(** * What the local zones answer *)

From S2P Require Import Prelude Bytes Names DomainMap Config DomainRule DomainRuleTree IpSet Message Runtime Context Calls DnsUrl Text Samples Dnsmasq Zones.

Section Zones.
Context {Name : Type} `{NL0 : NameLib Name} `{NT : NameText Name} `{ML : MsgLib Name}.
Context {RM : Type → Type} `{RML : RangeMapLib RM} `{NL : NetLib} {Fut : Type}.
Context (server_name : Name) (cfg_binds : list BindAddrConfig).
Context (BUILD_VERSION : text) (json_text : list (string * text) → text) (lookup_mac : IpAddr → option text).
Context (local_route : IpAddr → option IpAddr).
Implicit Types (ctx : DnsContext Name RM Fut) (req : DnsRequest Name).

Abbreviation step := (ddr_step server_name local_route).
Abbreviation discover := (ddr_lookup server_name cfg_binds local_route).
Abbreviation handle := (zone_handle server_name cfg_binds BUILD_VERSION json_text lookup_mac local_route).

(** ** Discovery *)

(** A listener whose designation a query asks for, with its target. *)
Definition designated req (bind : BindAddrConfig) : option (BindAddrConfig * string * bool * Name) :=
  '(alpn, over_https, ssl) ← ddr_kind bind;
  let target := ddr_target server_name ssl in
  let q := req_query req in
  if name_is_root target || name_zone_of RESERVED target then None
  else if name_eqb (q_name q) DISCOVERY ||
          opt_map_or false (fun n => name_eqb n (q_name q)) (name_prepend_label (text_of "_dns") target)
       then Some (bind, alpn, over_https, target) else None.

Definition designations req : list (BindAddrConfig * string * bool * Name) :=
  omap (designated req) (List.filter is_ddr cfg_binds).

Definition svcb_record ctx req (priority : Z) (x : BindAddrConfig * string * bool * Name) : Rr Name :=
  let '(bind, alpn, over_https, target) := x in
  mkRr (q_name (req_query req)) (as_u32 (local_ttl (ctx_cfg ctx)))
    (RSVCB (mkHTTPS _ priority target
       (ddr_params alpn over_https (bind_port bind) (ddr_address local_route ctx req bind)))).

Definition address_record ctx req (x : BindAddrConfig * string * bool * Name) : option (Rr Name) :=
  (fun ip => mkRr x.2 (as_u32 (local_ttl (ctx_cfg ctx))) (rdata_of_ip ip)) <$> ddr_address local_route ctx req x.1.1.1.

Fixpoint svcb_records ctx req (priority : Z) (l : list (BindAddrConfig * string * bool * Name)) : list (Rr Name) :=
  match l with
  | [] => []
  | x :: l => svcb_record ctx req priority x :: svcb_records ctx req (priority + 1) l
  end.

Lemma answers_add (r : Rr Name) resp : answers (add_answer r resp) = answers resp ++ [r].
Proof. done. Qed.
Lemma additionals_add (r : Rr Name) resp :
  answers (add_additional r resp) = answers resp ∧ additionals (add_additional r resp) = additionals resp ++ [r] ∧
  authorities (add_additional r resp) = authorities resp ∧ msg_queries (resp_message (add_additional r resp)) = msg_queries (resp_message resp).
Proof. done. Qed.

Lemma svcb_no_address t : t = TYPE_SVCB → is_ip_addr t = false.
Proof. by intros ->. Qed.

(** One turn, for a query of the type of the designations. *)
Lemma ddr_step_svcb ctx req st bind :
  q_type (req_query req) = TYPE_SVCB →
  let st' := step ctx req st bind in
  match designated req bind with
  | None => st' = st
  | Some x =>
      answers (dd_result st') = answers (dd_result st) ++ [svcb_record ctx req (dd_priority st) x] ∧
      additionals (dd_result st') = additionals (dd_result st) ++ option_list (address_record ctx req x) ∧
      authorities (dd_result st') = authorities (dd_result st) ∧
      dd_priority st' = dd_priority st + 1 ∧ dd_target_match st' = true
  end.
Proof.
  intros Ht. unfold ddr_step, designated. destruct (ddr_kind bind) as [[[alpn h] ssl]|]; [|done].
  cbn [mbind option_bind]. cbv zeta. rewrite Ht. change (TYPE_SVCB =? TYPE_SVCB) with true.
  rewrite (svcb_no_address TYPE_SVCB) by done. rewrite andb_true_l, andb_false_r, andb_true_r.
  destruct (name_is_root _ || name_zone_of _ _); [done|]. destruct (_ || opt_map_or _ _ _); [|done]. cbn [negb].
  unfold address_record, svcb_record. cbn [fst snd]. destruct (ddr_address local_route ctx req bind); cbn; rewrite ?app_nil_r; done.
Qed.

Lemma ddr_fold_svcb ctx req l st :
  q_type (req_query req) = TYPE_SVCB →
  let st' := fold_left (step ctx req) l st in
  let found := omap (designated req) l in
  answers (dd_result st') = answers (dd_result st) ++ svcb_records ctx req (dd_priority st) found ∧
  additionals (dd_result st') = additionals (dd_result st) ++ omap (address_record ctx req) found ∧
  authorities (dd_result st') = authorities (dd_result st) ∧
  dd_target_match st' = dd_target_match st || negb (bool_decide (length found = 0%nat)).
Proof.
  intros Ht. revert st. induction l as [|bind l IH]; intros st; cbn zeta.
  { cbn. by rewrite !app_nil_r, orb_false_r. }
  pose proof (ddr_step_svcb ctx req st bind Ht) as Hs. cbn [fold_left omap list_omap]. cbn zeta in Hs.
  destruct (IH (step ctx req st bind)) as (IH1 & IH2 & IH3 & IH4). rewrite IH1, IH2, IH3, IH4. clear IH IH1 IH2 IH3 IH4.
  destruct (designated req bind) as [x|]; [|by rewrite Hs].
  destruct Hs as (-> & -> & -> & -> & ->). cbn [svcb_records omap list_omap length orb]. rewrite <- !app_assoc.
  split; [done|]. split; [by destruct (address_record ctx req x)|]. split; [done|].
  by destruct (dd_target_match st).
Qed.

Lemma resp_fresh_sections now q :
  answers (new_with_max_ttl now q []) = msg_answers msg_fresh ∧
  additionals (new_with_max_ttl now q []) = msg_additionals msg_fresh ∧
  authorities (new_with_max_ttl now q []) = msg_authorities msg_fresh.
Proof. unfold new_with_max_ttl, new_with_deadline, answers, additionals, authorities. cbn. by rewrite app_nil_r. Qed.

Definition fresh_empty : Prop :=
  msg_answers (Name := Name) msg_fresh = [] ∧ msg_additionals (Name := Name) msg_fresh = [] ∧
  msg_authorities (Name := Name) msg_fresh = [].

(** A query for designations is answered with the enabled encrypted listeners
    that are to be discovered and whose target it asks for, in the order of the
    configuration and with priorities from one; their addresses are added; an
    SOA record stands in for no answer. Only a name outside [resolver.arpa] that
    is the target of none is left to others. *)
Theorem ddr_answers now ctx req :
  fresh_empty → q_type (req_query req) = TYPE_SVCB →
  let found := designations req in
  match discover now ctx req with
  | None => name_zone_of RESERVED (q_name (req_query req)) = false ∧ found = []
  | Some r =>
      (name_zone_of RESERVED (q_name (req_query req)) = true ∨ found ≠ []) ∧
      answers r = svcb_records ctx req 1 found ∧
      additionals r = omap (address_record ctx req) found ∧
      (rr_data <$> authorities r) = (if bool_decide (found = []) then [RSOA default_soa] else [])
  end.
Proof.
  intros (F1 & F2 & F3) Ht found. unfold ddr_lookup.
  pose proof (ddr_fold_svcb ctx req (List.filter is_ddr cfg_binds)
                (mkDdr (new_with_max_ttl now (req_query req) []) 1 false) Ht) as Hfold.
  fold (designations req) in Hfold. cbn zeta in Hfold. cbn [dd_result dd_priority dd_target_match] in Hfold.
  destruct (resp_fresh_sections now (req_query req)) as (R1 & R2 & R3). rewrite R1, R2, R3, F1, F2, F3 in Hfold.
  fold found in Hfold |- *. destruct (fold_left _ _ _) as [r pr m]. cbn [dd_result dd_priority dd_target_match app orb] in Hfold.
  destruct Hfold as (H1 & H2 & H3 & ->).
  assert (Hex : existsb is_ddr cfg_binds = false → found = []).
  { intros He. unfold found, designations. replace (List.filter is_ddr cfg_binds) with (@nil BindAddrConfig); [done|].
    clear -He. induction cfg_binds as [|b l IH]; [done|]. cbn in *. apply orb_false_iff in He as [-> He]. by apply IH. }
  assert (Hnil : found = [] ↔ answers r = []) by (rewrite H1; by destruct found).
  cbn [dd_result dd_target_match].
  destruct (name_zone_of RESERVED (q_name (req_query req))) eqn:Ez; cbn [negb andb].
  - destruct (decide (found = [])) as [E|E].
    + rewrite bool_decide_true by (by apply Hnil). split; [by left|]. rewrite bool_decide_true by done.
      change (answers (resp_mut (msg_add_authority ?x) r)) with (answers r).
      split; [done|]. split; [done|]. unfold authorities in *. cbn. by rewrite H3.
    + rewrite bool_decide_false by (by rewrite <- Hnil). split; [by left|]. rewrite bool_decide_false by done.
      split; [done|]. split; [done|]. by rewrite H3.
  - destruct (existsb is_ddr cfg_binds); cbn [negb]; [|split; [done|by apply Hex]].
    destruct (decide (found = [])) as [E|E].
    + rewrite E. cbn. done.
    + rewrite (bool_decide_false (length found = 0%nat)) by (by destruct found). cbn [negb].
      rewrite bool_decide_false by (by rewrite <- Hnil). split; [by right|]. rewrite bool_decide_false by done.
      split; [done|]. split; [done|]. by rewrite H3.
Qed.

(** Other types than addresses and designations are not discovered. *)
Lemma ddr_other_types now ctx req :
  q_type (req_query req) ≠ TYPE_SVCB → is_ip_addr (q_type (req_query req)) = false →
  name_zone_of RESERVED (q_name (req_query req)) = false → discover now ctx req = None.
Proof.
  intros Hs Ha Hz. unfold ddr_lookup. rewrite Hz. cbn [negb andb]. destruct (existsb is_ddr cfg_binds); [|done]. cbn [negb].
  assert (∀ l st, fold_left (step ctx req) l st = st) as ->; [|done].
  intros l. induction l as [|b l IH]; intros st; [done|]. cbn [fold_left]. rewrite IH. unfold ddr_step.
  destruct (ddr_kind b) as [[[? ?] ?]|]; [|done]. apply Z.eqb_neq in Hs. rewrite Hs, Ha, andb_false_r, andb_false_l. cbn.
  by destruct (_ || _).
Qed.

(** ** Reverse names *)
Definition is_own_name (n : Name) : bool :=
  existsb (fun m => match name_cmp m n with Eq => true | _ => false end) [name_lit "smartdns."; name_lit "whoami."].

(** The reverse name of an address is answered here when the name is the
    server's, when one of the server's own addresses is in the network it names,
    or when its address is private: then without records, so the names of
    private addresses never leave this server. Only other reverse names are
    left to the rules and the rest of the chain. *)
Theorem private_names_stay now interfaces ctx req next :
  let q := req_query req in
  q_type q = TYPE_PTR → name_zone_of RESERVED (q_name q) = false →
  let own := is_own_name (q_name q) ||
             opt_map_or false (im_overlap_net (ipset_new (host_net <$> interfaces))) (name_parse_arpa (q_name q)) in
  let private := opt_map_or false (fun net => is_private_ip (net_addr net)) (name_parse_arpa (q_name q)) in
  handle now interfaces ctx req next =
    if own then (ctx, Ok (from_rdata now q (RPTR server_name)))
    else if private then
      (ctx, Ok (resp_mut (fun m => mkMsg (msg_header m) (msg_queries m ++ [q]) (msg_answers m)
                                     (msg_authorities m) (msg_additionals m) (msg_edns m)) (resp_empty now)))
    else next ctx req.
Proof.
  intros q Ht Hz own private. unfold zone_handle, zone_run. rewrite ddr_other_types by (fold q; by rewrite ?Ht).
  cbn [manager_lookup]. unfold local_ptr_lookup. fold q. rewrite Ht. change (TYPE_PTR =? TYPE_PTR) with true. cbn [negb].
  change (existsb _ (lp_server_names (local_ptr_new interfaces))) with (is_own_name (q_name q)).
  subst own private. destruct (is_own_name (q_name q)); [done|]. cbn [orb].
  assert (Hid : identity_lookup server_name BUILD_VERSION json_text lookup_mac now ctx req = Ok None)
    by (unfold identity_lookup; fold q; by rewrite Ht).
  assert (Hrule : rule_lookup now ctx req = Return (ctx, Ok None)) by (unfold rule_lookup; fold q; by rewrite Ht).
  rewrite Hid, Hrule. cbn [run_then].
  destruct (name_parse_arpa (q_name q)) as [net|]; cbn [opt_map_or].
  - change (lp_server_net (local_ptr_new interfaces)) with (ipset_new (RM := RM) (host_net <$> interfaces)).
    destruct (im_overlap_net _ net); [done|]. destruct (is_private_ip (net_addr net)); [done|]. apply answered_pass_on.
  - apply answered_pass_on.
Qed.
End Zones.

(** ** A server with encrypted listeners *)
#[local] Existing Instance mask_net.
Definition ddr_opts : ServerOpts :=
  mkOpts (Some true) None None None None None None None None None None None None None None None false.

Definition ddr_bind (a port : Z) : Bind := mkBind (BaV4 a) port None ddr_opts None.
Definition sample_binds : list BindAddrConfig :=
  [BindUdp (ddr_bind 3232235777 53); BindTls (ddr_bind 3232235777 853) ssl_default;
   BindTls (ddr_bind 3232235778 853) (mkSsl (Some "other.home.") None None None);
   BindH3 (ddr_bind 3232235777 443) ssl_default].

Definition zone_sample (name : string) (t c : Z) :=
  zone_handle (plain_name "dns.home") sample_binds (text_of "1.0") (fun _ => []) (fun _ => None) Some
    (secs 1) [V4 3232235777] (sample_ctx sample_inner None) (req_of_query (mkQuery (plain_name name) t c))
    (fun ctx _ => (ctx, Err ENameExists)).

Definition zone_sample_answers (name : string) (t c : Z) : option (list (RData PlainName)) :=
  match (zone_sample name t c).2 with Ok r => Some (rr_data <$> answers r) | Err _ => None end.

Example zones_looked_up :
  zone_sample_answers "1.1.168.192.in-addr.arpa" TYPE_PTR 1 = Some [RPTR (plain_name "dns.home")] ∧
  zone_sample_answers "9.1.168.192.in-addr.arpa" TYPE_PTR 1 = Some [] ∧
  zone_sample_answers "8.8.8.8.in-addr.arpa" TYPE_PTR 1 = None ∧
  zone_sample_answers "Smartdns" TYPE_TXT 3 =
    Some [RTXT [text_of "server_name=dns.home"]; RTXT [text_of "server_version=1.0"]] ∧
  zone_sample_answers "dns.home" TYPE_A 1 = Some [RA 3232235777] ∧
  zone_sample_answers "resolver.arpa" TYPE_A 1 = Some [].
Proof. by vm_compute. Qed.

(** The keys of the parameters ascend, as the encoding of a service record
    requires. *)
Lemma ddr_params_sorted alpn over_https port address :
  Sorted Z.lt (ddr_params alpn over_https port address).*1.
Proof. unfold ddr_params. destruct over_https, address as [[a|a]|]; cbn; repeat constructor. Qed.

Lemma ddr_answers_witness :
  match ddr_lookup (Fut := unit) (plain_name "dns.home") sample_binds Some (secs 1) (sample_ctx sample_inner None)
          (req_of_query (query_of (plain_name "_dns.resolver.arpa") TYPE_SVCB)) with
  | None => False
  | Some r => length (answers r) = 3%nat ∧ authorities r = []
  end.
Proof.
  pose proof (ddr_answers (Fut := unit) (plain_name "dns.home") sample_binds Some (secs 1) (sample_ctx sample_inner None)
    (req_of_query (query_of (plain_name "_dns.resolver.arpa") TYPE_SVCB)) (conj eq_refl (conj eq_refl eq_refl)) eq_refl) as Hd.
  cbv zeta in Hd. destruct (ddr_lookup _ _ _ _ _ _) as [r|]; [|destruct Hd as [Hd _]; by vm_compute in Hd].
  destruct Hd as (_ & -> & _ & Ha). split; [by vm_compute|].
  assert (Hl : rr_data <$> authorities r = []) by (rewrite Ha; by vm_compute). by destruct (authorities r).
Defined.

Lemma private_names_stay_witness :
  zone_sample "9.1.168.192.in-addr.arpa" TYPE_PTR 1 =
    (sample_ctx sample_inner None,
     Ok (resp_mut (fun m => mkMsg (msg_header m)
           (msg_queries m ++ [query_of (plain_name "9.1.168.192.in-addr.arpa") TYPE_PTR]) (msg_answers m)
           (msg_authorities m) (msg_additionals m) (msg_edns m)) (resp_empty (secs 1)))).
Proof.
  unfold zone_sample. rewrite private_names_stay; [by vm_compute|done|by vm_compute].
Defined.
