(* ===== verification/FirewallMw.v ===== *)
(** * Firewall sets ([dns_mw_nftset.rs])

    The addresses of an answer are added to the kernel's IPSets and nftables sets
    that the rules of the name, the options of the listener or client, or the
    options for unreachable addresses name. *)

From S2P Require Import Prelude Names DomainMap Config DomainRule DomainRuleTree IpSet Message Runtime Context Calls Samples.

Inductive SetUpdate :=
| UpdateIpSet (set : KernelIpSet) (ip : IpAddr) (timeout : Z)
| UpdateNftSet (set : NFTsetConfig) (ip : IpAddr) (timeout : Z).
#[global] Instance SetUpdate_eq_dec : EqDecision SetUpdate.
Proof. solve_decision. Defined.

(** ** Choosing sets *)
Section Choice.
Context {T R : Type}.

Definition applies (rule : ConfigForIP T) (ip : IpAddr) : bool :=
  match rule with
  | ForAll _ | ForNone => true
  | ForV4 _ | ForNoneV4 => is_ipv4 ip
  | ForV6 _ | ForNoneV6 => is_ipv6 ip
  end.

(** [domain_sets]: from a node up through its zones. *)
Fixpoint node_sets (ip : IpAddr) (get : TreeNode R → option (list (ConfigForIP T))) (node : TreeNode R)
    : option (list (ConfigForIP T)) :=
  let up := match node with
            | mkNode _ (Some z) => node_sets ip get z
            | mkNode _ None => None
            end in
  match get node with
  | Some sets => if existsb (fun rule => applies rule ip) sets then Some sets else up
  | None => up
  end.
Definition domain_sets (node : option (TreeNode R)) (ip : IpAddr) (get : TreeNode R → option (list (ConfigForIP T)))
    : option (list (ConfigForIP T)) := n ← node; node_sets ip get n.

(** One layer: [None] is the return of no sets. *)
Fixpoint layer_sets (ip : IpAddr) (sets : list T) (layer : list (ConfigForIP T)) : option (list T) :=
  match layer with
  | [] => Some sets
  | rule :: layer =>
      match rule with
      | ForNone => None
      | ForNoneV4 => if is_ipv4 ip then None else layer_sets ip sets layer
      | ForNoneV6 => if is_ipv6 ip then None else layer_sets ip sets layer
      | ForAll s => layer_sets ip (sets ++ [s]) layer
      | ForV4 s => layer_sets ip (if is_ipv4 ip then sets ++ [s] else sets) layer
      | ForV6 s => layer_sets ip (if is_ipv6 ip then sets ++ [s] else sets) layer
      end
  end.

Fixpoint select_sets (ip : IpAddr) (layers : list (option (list (ConfigForIP T)))) : list T :=
  match layers with
  | [] => []
  | None :: layers => select_sets ip layers
  | Some layer :: layers =>
      match layer_sets ip [] layer with
      | None => []
      | Some [] => select_sets ip layers
      | Some sets => sets
      end
  end.

(** What is meant: the first layer with a rule for the address decides alone; a
    rule to ignore it leaves no set, whatever else the layer says. *)
Definition rule_ignores (ip : IpAddr) (rule : ConfigForIP T) : bool :=
  applies rule ip && match rule with ForNone | ForNoneV4 | ForNoneV6 => true | _ => false end.

Definition rule_set (ip : IpAddr) (rule : ConfigForIP T) : option T :=
  match rule with
  | ForAll s => Some s
  | ForV4 s => if is_ipv4 ip then Some s else None
  | ForV6 s => if is_ipv6 ip then Some s else None
  | _ => None
  end.

Definition deciding_layer (ip : IpAddr) (layers : list (option (list (ConfigForIP T))))
    : option (list (ConfigForIP T)) :=
  find_first (existsb (fun rule => applies rule ip)) (omap id layers).

Definition decided_sets (ip : IpAddr) (layers : list (option (list (ConfigForIP T)))) : list T :=
  match deciding_layer ip layers with
  | Some layer => if existsb (rule_ignores ip) layer then [] else omap (rule_set ip) layer
  | None => []
  end.

Lemma layer_sets_spec ip sets layer :
  layer_sets ip sets layer =
    if existsb (rule_ignores ip) layer then None else Some (sets ++ omap (rule_set ip) layer).
Proof.
  revert sets. induction layer as [|rule layer IH]; intros sets; [by rewrite app_nil_r|].
  destruct rule as [s|s|s| | |]; cbn [layer_sets existsb omap list_omap rule_set];
    unfold rule_ignores at 1; cbn [applies andb orb];
    try (destruct (is_ipv4 ip) eqn:E4); try (destruct (is_ipv6 ip) eqn:E6); cbn [andb orb]; try done;
    rewrite IH; case_match; try done; by rewrite <- ?app_assoc.
Qed.

Lemma applies_cases ip rule :
  applies rule ip = rule_ignores ip rule || is_some (rule_set ip rule).
Proof. by destruct rule, ip. Qed.

Lemma layer_empty ip layer :
  existsb (rule_ignores ip) layer = false →
  omap (rule_set ip) layer = [] ↔ existsb (fun rule => applies rule ip) layer = false.
Proof.
  induction layer as [|rule layer IH]; [done|]. cbn [existsb omap list_omap]. intros [Hi Hl]%orb_false_iff.
  rewrite applies_cases, Hi. destruct (rule_set ip rule); cbn; [done|]. by apply IH.
Qed.

Lemma select_sets_decided ip layers : select_sets ip layers = decided_sets ip layers.
Proof.
  unfold decided_sets, deciding_layer. induction layers as [|[layer|] layers IH]; [done| |done].
  cbn [select_sets omap list_omap id find_first]. rewrite layer_sets_spec, app_nil_l.
  destruct (existsb (rule_ignores ip) layer) eqn:Ei.
  - assert (existsb (fun rule => applies rule ip) layer = true) as ->.
    { rewrite existsb_exists in *. destruct Ei as (rule & Hin & Hr). exists rule. split; [done|].
      unfold rule_ignores in Hr. by apply andb_true_iff in Hr as [? _]. }
    by rewrite Ei.
  - pose proof (layer_empty ip layer Ei) as He. destruct (omap (rule_set ip) layer) as [|s l] eqn:Eo.
    + rewrite (proj1 He eq_refl). apply IH.
    + destruct (existsb (fun rule => applies rule ip) layer) eqn:Ea; [by rewrite Ei, Eo|].
      by discriminate (proj2 He eq_refl).
Qed.
End Choice.

(** ** The updates of an answer *)
Section FirewallMw.
Context {Name : Type} `{NameLib Name} `{MsgLib Name}.
Context {RM : Type → Type} `{RangeMapLib RM} `{NL : NetLib}.
Context {Fut : Type}.
Variable hash : Z → list Z → Z.
Variable wm : list Z → list Z → bool.

Abbreviation Ctx := (DnsContext Name RM Fut).
Abbreviation Node := (TreeNode (DomainRule Name)).
Abbreviation Res := (result (DnsResponse Name) (LookupError Name)).
Implicit Types (ctx : Ctx) (req : DnsRequest Name).

(** The sets of the rule groups, by the name of the group. *)
Variable groups : gmap string NetworkSetOptions.

Definition records (r : DnsResponse Name) : list (Rr Name) := answers r.

Definition set_timeout (enabled : bool) (ttl : Z) : Z :=
  if enabled then Z.max 1 (Z.min u32_max (ttl * 3)) else 0.

(** The options of the context's group and of the default group. *)
Definition default_sets : option NetworkSetOptions := groups !! "default".
Definition group_sets ctx : option NetworkSetOptions :=
  name ← so_rule_group (ctx_server_opts ctx); groups !! name.
Definition set_option {A} (f : NetworkSetOptions → option A) ctx : option A :=
  opt_or (g ← group_sets ctx; f g) (g ← default_sets; f g).

Definition fallback_sets {A} (f : NetworkSetOptions → option A) ctx (response : DnsResponse Name) : option A :=
  match probe_result response with Failed => set_option f ctx | _ => None end.

(** The default group's rule of the name, unless the context already holds it. *)
Definition defaults_rule ctx (query_name : Name) (response : DnsResponse Name) : option Node :=
  let name := q_name (resp_query response) in
  let default_group := match so_rule_group (ctx_server_opts ctx) with
                       | None => true
                       | Some g => bool_decide (g = "") || bool_decide (g = "default")
                       end in
  if default_group && name_eqb name query_name then None
  else find_domain_rule hash wm (ctx_cfg ctx) name "default".

Definition layers {T} (get : Node → option (list (ConfigForIP T))) (opts : option (list (ConfigForIP T)))
    (fallback : option (list (ConfigForIP T))) ctx (defaults : option Node) (ip : IpAddr)
    : list (option (list (ConfigForIP T))) :=
  [opt_or (domain_sets (ctx_domain_rule ctx) ip get) (domain_sets defaults ip get); opts; fallback].

Definition ipset_layers ctx (query_name : Name) (response : DnsResponse Name) (ip : IpAddr) :=
  layers (fun n => ipset (node_rule n)) (so_ipset (ctx_server_opts ctx))
    (fallback_sets net_ipset_no_speed ctx response) ctx (defaults_rule ctx query_name response) ip.
Definition nftset_layers ctx (query_name : Name) (response : DnsResponse Name) (ip : IpAddr) :=
  layers (fun n => nftset (node_rule n)) (so_nftset (ctx_server_opts ctx))
    (fallback_sets net_nftset_no_speed ctx response) ctx (defaults_rule ctx query_name response) ip.

Definition updates ctx (query_name : Name) (response : DnsResponse Name) : list SetUpdate :=
  if so_is_background (ctx_server_opts ctx) || no_rule_ipset (ctx_server_opts ctx) then []
  else
    let ipset_timeout := opt_unwrap_or false (set_option net_ipset_timeout ctx) in
    let nftset_timeout := opt_unwrap_or false (set_option net_nftset_timeout ctx) in
    record ← records response;
    match rdata_ip_addr (rr_data record) with
    | None => []
    | Some ip =>
        ((fun set => UpdateIpSet set ip (set_timeout ipset_timeout (rr_ttl_secs record)))
           <$> select_sets ip (ipset_layers ctx query_name response ip))
        ++ ((fun set => UpdateNftSet set ip (set_timeout nftset_timeout (rr_ttl_secs record)))
           <$> select_sets ip (nftset_layers ctx query_name response ip))
    end.

(** The middleware: the updates sent to the kernel, in order, before the answer
    is returned; an update that fails is only logged. *)
Definition FwWorld : Type := Ctx * list SetUpdate.

Definition firewall_run (w : FwWorld) req : Handling Name FwWorld (FwWorld * Res) :=
  NextRun w req (fun '(ctx, sent) res =>
    match res with
    | Err e => Return ((ctx, sent), Err e)
    | Ok response => Return ((ctx, sent ++ updates ctx (q_name (req_query req)) response), Ok response)
    end).
Definition firewall_handle (w : FwWorld) req (next : FwWorld → DnsRequest Name → FwWorld * Res) : FwWorld * Res :=
  answered next (firewall_run w req).

(** The updates are, for each address of the answer, the sets of the first
    of the rule of the name or its zones, the options of the query and the
    options for unreachable addresses that says anything of the address, or none
    when it ignores it; each with three times the TTL as its timeout, at least
    one second and in 32 bits, when timeouts are enabled; and there are none for
    background queries and queries exempt from set rules. The answer is the one
    given, and sets are updated in the order of its addresses. *)
Theorem firewall_updates_correct (w : FwWorld) req (next : FwWorld → DnsRequest Name → FwWorld * Res) :
  let '((ctx, sent), res) := next w req in
  firewall_handle w req next =
    ((ctx, sent ++ match res with Ok r => updates ctx (q_name (req_query req)) r | Err _ => [] end), res) ∧
  ∀ r, res = Ok r →
    let name := q_name (req_query req) in
    let active := negb (so_is_background (ctx_server_opts ctx)) && negb (no_rule_ipset (ctx_server_opts ctx)) in
    (∀ set ip timeout, UpdateIpSet set ip timeout ∈ updates ctx name r ↔
       active = true ∧ ∃ rr, rr ∈ answers r ∧ rdata_ip_addr (rr_data rr) = Some ip ∧
         set ∈ decided_sets ip (ipset_layers ctx name r ip) ∧
         timeout = set_timeout (opt_unwrap_or false (set_option net_ipset_timeout ctx)) (rr_ttl_secs rr)) ∧
    (∀ set ip timeout, UpdateNftSet set ip timeout ∈ updates ctx name r ↔
       active = true ∧ ∃ rr, rr ∈ answers r ∧ rdata_ip_addr (rr_data rr) = Some ip ∧
         set ∈ decided_sets ip (nftset_layers ctx name r ip) ∧
         timeout = set_timeout (opt_unwrap_or false (set_option net_nftset_timeout ctx)) (rr_ttl_secs rr)) ∧
    (∀ u, u ∈ updates ctx name r → match u with UpdateIpSet _ _ t | UpdateNftSet _ _ t => in_u32 t end).
Proof.
  unfold firewall_handle, firewall_run. cbn [answered]. destruct (next w req) as [[ctx sent] res]. split.
  { destruct res; [done|]. by rewrite app_nil_r. }
  intros r ->. unfold updates. cbv zeta. rewrite <- negb_orb.
  destruct (so_is_background _ || no_rule_ipset _) eqn:Eb; cbn [negb].
  { split_and!; [intros set ip timeout; split; [by intros ?%not_elem_of_nil|by intros [? _]]..|].
    by intros u ?%not_elem_of_nil. }
  set (name := q_name (req_query req)).
  split_and!.
  - intros set ip timeout. rewrite list_elem_of_bind. split.
    + intros (rr & Hu & Hrr). split; [done|]. exists rr. revert Hu.
      destruct (rdata_ip_addr (rr_data rr)) as [ip'|]; [|by intros ?%not_elem_of_nil].
      rewrite elem_of_app, !list_elem_of_fmap. intros [(s & [= -> -> ->] & Hs)|(s & [=] & _)].
      by rewrite <- select_sets_decided.
    + intros (_ & rr & Hrr & Hip & Hs & ->). exists rr. rewrite Hip, elem_of_app, !list_elem_of_fmap.
      split; [|done]. left. exists set. by rewrite select_sets_decided.
  - intros set ip timeout. rewrite list_elem_of_bind. split.
    + intros (rr & Hu & Hrr). split; [done|]. exists rr. revert Hu.
      destruct (rdata_ip_addr (rr_data rr)) as [ip'|]; [|by intros ?%not_elem_of_nil].
      rewrite elem_of_app, !list_elem_of_fmap. intros [(s & [=] & _)|(s & [= -> -> ->] & Hs)].
      by rewrite <- select_sets_decided.
    + intros (_ & rr & Hrr & Hip & Hs & ->). exists rr. rewrite Hip, elem_of_app, !list_elem_of_fmap.
      split; [|done]. right. exists set. by rewrite select_sets_decided.
  - intros u. rewrite list_elem_of_bind. intros (rr & Hu & _).
    destruct (rdata_ip_addr (rr_data rr)); [|by apply not_elem_of_nil in Hu].
    rewrite elem_of_app, !list_elem_of_fmap in Hu.
    destruct Hu as [(s & -> & _)|(s & -> & _)]; unfold set_timeout, in_u32, u32_max; case_match; lia.
Qed.

End FirewallMw.

(** ** At a concrete answer *)
#[local] Instance fw_net : NetLib := mask_net.

Definition route_rule : DomainRule PlainName :=
  rule_add_assign rule_default (set_nftset rule_default [ForV4 (mkNft "inet" "fw4" "route4"); ForNoneV6]).

(** An address of a name with a rule; the options for unreachable addresses do
    not count, as a rule says something of the address. *)
Lemma firewall_updates_example :
  updates (Fut := unit) fnv64 glob_match (<["default":=mkNetSets None (Some true) None (Some [ForNone])]> ∅)
    (sample_ctx config_default (Some (mkNode route_rule None))) sample_name (sample_resp [1; 2] 2000000000)
  = [UpdateNftSet (mkNft "inet" "fw4" "route4") (V4 1) u32_max;
     UpdateNftSet (mkNft "inet" "fw4" "route4") (V4 2) u32_max].
Proof. by vm_compute. Qed.
