(* ===== verification/AddressMw.v ===== *)
(** * Address rules and bogus addresses
      ([dns_mw_addr.rs], [dns_mw_bogus.rs])

    Answers given by address rules in place of the upstreams, the limit on the
    number of addresses and the TTL limits of replies, and the replacement of
    answers with bogus addresses. *)

From S2P Require Import Prelude Names DomainMap Config DomainRule DomainRuleTree IpSet Message Runtime Context Calls Samples.

Section AddressMw.
Context {Name : Type} `{NameLib Name} `{MsgLib Name}.
Context {RM : Type → Type} `{RangeMapLib RM} `{NL : NetLib}.
Context {Fut : Type}.

Abbreviation Ctx := (DnsContext Name RM Fut).
Abbreviation Node := (TreeNode (DomainRule Name)).
Abbreviation Res := (result (DnsResponse Name) (LookupError Name)).
Implicit Types (ctx : Ctx) (req : DnsRequest Name).

(** [Ipv4Addr::to_ipv6_mapped]: [::ffff:a.b.c.d]. *)
Definition to_ipv6_mapped (a : Z) : Z := 65535 * 2 ^ 32 + a.

Definition RuleAnswer : Type := list (RData Name) * ResponseCode.

Definition soa_answer : option RuleAnswer := Some ([RSOA default_soa], NoError).

(** One turn of the loop over the zones: [None] goes on to the parent, and
    [Some] is what the function returns. *)
Definition addr_rule_step (query_type : RecordType) (no_rule_soa : bool) (address : AddressRuleValue)
    : option (option RuleAnswer) :=
  match address with
  | ASOA =>
      if negb no_rule_soa then Some (Some ([RSOA default_soa], NXDomain))
      else if negb (is_ip_addr query_type) then Some None else None
  | AAddr v4 v6 =>
      if negb (is_ip_addr query_type) then Some None
      else
        let answer :=
          if query_type =? TYPE_A
          then match v4 with Some v4 => Some (RA <$> v4) | None => None end
          else match v6 with
               | Some v6 => Some (RAAAA <$> v6)
               | None => match v4 with
                         | Some v4 => Some ((fun ip => RAAAA (to_ipv6_mapped ip)) <$> v4)
                         | None => None
                         end
               end in
        match answer with
        | Some rdatas => Some (Some (rdatas, NoError))
        | None => if negb no_rule_soa then Some soa_answer else None
        end
  | ASOAv4 =>
      if negb (is_ip_addr query_type) then Some None
      else if negb no_rule_soa && (query_type =? TYPE_A) then Some soa_answer else None
  | ASOAv6 =>
      if negb (is_ip_addr query_type) then Some None
      else if negb no_rule_soa && (query_type =? TYPE_AAAA) then Some soa_answer else None
  | AIGN => Some None
  | AIGNv4 =>
      if negb (is_ip_addr query_type) then Some None
      else if query_type =? TYPE_A then Some None else None
  | AIGNv6 =>
      if negb (is_ip_addr query_type) then Some None
      else if query_type =? TYPE_AAAA then Some None else None
  end.

(** The loop from a node up through its zones. *)
Fixpoint addr_rule_walk (query_type : RecordType) (no_rule_soa : bool) (n : Node) : option RuleAnswer :=
  match n with
  | mkNode rule zone =>
      match a ← address rule; addr_rule_step query_type no_rule_soa a with
      | Some r => r
      | None => match zone with Some z => addr_rule_walk query_type no_rule_soa z | None => None end
      end
  end.

Definition handle_rule_addr (query_type : RecordType) ctx : option RuleAnswer :=
  let cfg := ctx_cfg ctx in
  let opts := ctx_server_opts ctx in
  let no_soa := no_rule_soa opts in
  if negb no_soa && (query_type =? TYPE_AAAA) && (force_aaaa_soa opts || cfg_force_aaaa_soa cfg)
  then soa_answer
  else if negb no_soa && (query_type =? TYPE_HTTPS)
          && (force_https_soa opts || cfg_force_https_soa cfg)
  then soa_answer
  else if negb no_soa && bool_decide (query_type ∈ c_force_qtype_soa (rc_inner cfg))
  then soa_answer
  else if no_rule_addr opts then None
  else n ← ctx_domain_rule ctx; addr_rule_walk query_type no_soa n.

(** The reply to a query a rule answers. *)
Definition rule_reply (now : Instant) ctx (q : Query Name) (a : RuleAnswer) : DnsResponse Name :=
  let ttl := local_ttl (ctx_cfg ctx) in
  let lookup := resp_mut (msg_set_response_code a.2) (new_with_deadline q [] (now + secs ttl)) in
  fold_left (fun lookup data =>
    let record := mkRr (q_name q) (as_u32 ttl) data in
    if rr_type record =? TYPE_SOA then resp_mut (msg_add_authority record) lookup
    else resp_mut (fun m => msg_set_answers (msg_answers m ++ [record]) m) lookup) a.1 lookup.

(** How many records stay: up to the one that makes the limit of addresses. *)
Fixpoint truncate_at (left : Z) (i : nat) (records : list (Rr Name)) : option nat :=
  match records with
  | [] => None
  | r :: records =>
      if is_some (rdata_ip_addr (rr_data r)) then
        if left - 1 =? 0 then Some (S i) else truncate_at (left - 1) (S i) records
      else truncate_at left (S i) records
  end.

Definition limit_addresses (query_type : RecordType) ctx (lookup : DnsResponse Name) : DnsResponse Name :=
  match (if is_ip_addr query_type then opt_filter (fun n => 0 <? n) (max_reply_ip_num (ctx_cfg ctx)) else None) with
  | Some most =>
      match truncate_at most 0 (answers lookup) with
      | Some n =>
          if (n <? length (answers lookup))%nat
          then resp_mut (fun m => msg_set_answers (take n (msg_answers m)) m) lookup else lookup
      | None => lookup
      end
  | None => lookup
  end.

(** The TTL of one record of a reply. *)
Definition reply_ttl_rr (limits : TtlLimits) (reply_max : option Z) (r : Rr Name) : Rr Name :=
  let r := opt_map_or r (fun m => set_min_ttl_rr m r) (lim_min limits) in
  match reply_max with
  | Some m => set_max_ttl_rr m r
  | None => opt_map_or r (fun m => set_max_ttl_rr m r) (lim_max limits)
  end.

Definition limit_ttls ctx (lookup : DnsResponse Name) : DnsResponse Name :=
  let limits := rr_ttl_limits ctx in
  let reply_max := as_u32 <$> rr_ttl_reply_max (ctx_cfg ctx) in
  if is_some (lim_min limits) || is_some (lim_max limits) || is_some reply_max
  then resp_mut (fun m => msg_set_answers (reply_ttl_rr limits reply_max <$> msg_answers m) m) lookup
  else lookup.

(** [AddressMiddleware::handle] *)
Definition address_run (now : Instant) ctx req : Handling Name Ctx (Ctx * Res) :=
  let query_type := q_type (req_query req) in
  match handle_rule_addr query_type ctx with
  | Some a => Return (ctx_set_source FromStatic ctx, Ok (rule_reply now ctx (req_query req) a))
  | None =>
      NextRun ctx req (fun ctx res =>
        Return (ctx, result_map (fun lookup => limit_ttls ctx (limit_addresses query_type ctx lookup)) res))
  end.
Definition address_handle (now : Instant) ctx req (next : Ctx → DnsRequest Name → Ctx * Res) : Ctx * Res :=
  answered next (address_run now ctx req).

(** ** Bogus addresses *)
Definition has_bogus_address (cfg : RuntimeConfig Name RM) (lookup : DnsResponse Name) : bool :=
  existsb (fun r => opt_map_or false (im_contains (rc_bogus_nxdomain cfg)) (rdata_ip_addr (rr_data r)))
    (answers lookup).

(** [DnsBogusMiddleware::handle] *)
Definition bogus_run ctx req : Handling Name Ctx (Ctx * Res) :=
  NextRun ctx req (fun ctx res =>
    match res with
    | Ok lookup =>
        if is_ip_addr (q_type (req_query req)) && has_bogus_address (ctx_cfg ctx) lookup
        then Return (ctx, Err (EResponseCode NXDomain)) else Return (ctx, res)
    | Err _ => Return (ctx, res)
    end).
Definition bogus_handle ctx req (next : Ctx → DnsRequest Name → Ctx * Res) : Ctx * Res := answered next (bogus_run ctx req).

(** ** The TTLs and the size of a reply *)
Definition is_address (r : Rr Name) : bool := is_some (rdata_ip_addr (rr_data r)).
Definition count_addresses (l : list (Rr Name)) : nat := length (List.filter is_address l).

Lemma reply_ttl_rr_spec limits reply_max (r : Rr Name) :
  (∀ a b, lim_min limits = Some a → lim_max limits = Some b → a ≤ b) →
  reply_ttl_rr limits reply_max r =
  rr_set_ttl match reply_max with
             | Some m => Z.min m (opt_map_or (rr_ttl_secs r) (Z.max (rr_ttl_secs r)) (lim_min limits))
             | None => limits_apply limits (rr_ttl_secs r)
             end r.
Proof.
  intros Hle. destruct r as [n k t d]. unfold reply_ttl_rr, limits_apply.
  destruct (lim_min limits) as [a|], (lim_max limits) as [b|], reply_max as [m|];
    cbn [opt_map_or]; rewrite ?set_min_ttl_rr_spec, ?set_max_ttl_rr_spec; unfold rr_set_ttl; cbn;
    f_equal; try specialize (Hle a b eq_refl eq_refl); lia.
Qed.

Lemma truncate_at_spec left i (l : list (Rr Name)) :
  0 < left →
  match truncate_at left i l with
  | Some n => ∃ k, n = (i + k)%nat ∧ (k ≤ length l)%nat ∧ Z.of_nat (count_addresses (take k l)) = left
  | None => Z.of_nat (count_addresses l) < left
  end.
Proof.
  revert left i. induction l as [|r l IH]; intros left i Hl; [cbn; lia|]. cbn [truncate_at].
  unfold count_addresses in *. destruct (is_some (rdata_ip_addr (rr_data r))) eqn:E.
  - destruct (Z.eqb_spec (left - 1) 0).
    + exists 1%nat. cbn [take List.filter]. unfold is_address at 1. rewrite E. cbn. split; [lia|].
      rewrite take_0. cbn. lia.
    + specialize (IH (left - 1) (S i) ltac:(lia)). destruct (truncate_at (left - 1) (S i) l) as [n'|].
      * destruct IH as (k & -> & Hk & Hc). exists (S k). cbn [take List.filter]. unfold is_address at 1.
        rewrite E. cbn [length]. lia.
      * cbn [List.filter]. unfold is_address at 1. rewrite E. cbn [length]. lia.
  - specialize (IH left (S i) Hl). destruct (truncate_at left (S i) l) as [n'|].
    + destruct IH as (k & -> & Hk & Hc). exists (S k). cbn [take List.filter]. unfold is_address at 1.
      rewrite E. cbn [length]. lia.
    + cbn [List.filter]. unfold is_address at 1. by rewrite E.
Qed.

Lemma count_addresses_fmap (g : Rr Name → Rr Name) (l : list (Rr Name)) :
  (∀ r, rr_data (g r) = rr_data r) → count_addresses (g <$> l) = count_addresses l.
Proof.
  intros Hg. unfold count_addresses. induction l as [|r l IH]; [done|].
  cbn [fmap list_fmap List.filter].
  assert (is_address (g r) = is_address r) as -> by (unfold is_address; by rewrite Hg).
  destruct (is_address r); cbn [length]; by rewrite IH.
Qed.

(** The answers that stay are a prefix with at most the allowed addresses. *)
Lemma limit_addresses_spec t ctx lookup :
  ∃ k, answers (limit_addresses t ctx lookup) = take k (answers lookup) ∧
    (∀ n, is_ip_addr t = true → max_reply_ip_num (ctx_cfg ctx) = Some n → 0 < n →
      Z.of_nat (count_addresses (answers (limit_addresses t ctx lookup))) ≤ n ∧
      (Z.of_nat (count_addresses (answers lookup)) ≤ n →
       count_addresses (answers (limit_addresses t ctx lookup)) = count_addresses (answers lookup))).
Proof.
  unfold limit_addresses.
  destruct (is_ip_addr t); [|by exists (length (answers lookup)); rewrite firstn_all].
  destruct (max_reply_ip_num (ctx_cfg ctx)) as [left|]; cbn [opt_filter];
    [|by exists (length (answers lookup)); rewrite firstn_all].
  destruct (Z.ltb_spec 0 left) as [Hl|Hl].
  2: { exists (length (answers lookup)). rewrite firstn_all. split; [done|]. intros n _ [= <-]. lia. }
  pose proof (truncate_at_spec left 0 (answers lookup) Hl) as Ht.
  destruct (truncate_at left 0 (answers lookup)) as [n|].
  - destruct Ht as (k & -> & Hk & Hc). rewrite Nat.add_0_l.
    destruct (Nat.ltb_spec k (length (answers lookup))).
    + assert (Ha : answers (resp_mut (fun m => msg_set_answers (take k (msg_answers m)) m) lookup)
        = take k (answers lookup)) by done.
      exists k. rewrite Ha. split; [done|]. intros n _ [= <-] _.
      split; [lia|]. intros Hle. apply Nat2Z.inj. rewrite Hc.
      assert (count_addresses (take k (answers lookup)) ≤ count_addresses (answers lookup))%nat; [|lia].
      clear. unfold count_addresses. rewrite <- (take_drop k (answers lookup)) at 2.
      rewrite List.filter_app, length_app. lia.
    + exists k. rewrite take_ge by lia. split; [done|]. intros n _ [= <-] _.
      rewrite take_ge in Hc by lia. split; [lia|done].
  - exists (length (answers lookup)). rewrite firstn_all. split; [done|]. intros n _ [= <-] _.
    split; [lia|done].
Qed.

(** A reply that passes through: its answers are a prefix of the answer,
    with no more addresses than allowed and none dropped without need; and
    every TTL is the one the limits of the query give, the configured maximum
    for replies taking the place of the maximum when it is set. *)
Theorem reply_limits (now : Instant) ctx req (next : Ctx → DnsRequest Name → Ctx * Res) ctx' lookup res :
  handle_rule_addr (q_type (req_query req)) ctx = None →
  next ctx req = (ctx', Ok lookup) → address_handle now ctx req next = (ctx', Ok res) →
  (∃ k, answers res =
    (fun r => rr_set_ttl
      match rr_ttl_reply_max (ctx_cfg ctx') with
      | Some m => Z.min (as_u32 m)
          (opt_map_or (rr_ttl_secs r) (Z.max (rr_ttl_secs r)) (lim_min (rr_ttl_limits ctx')))
      | None => limits_apply (rr_ttl_limits ctx') (rr_ttl_secs r)
      end r) <$> take k (answers lookup)) ∧
  (∀ n, is_ip_addr (q_type (req_query req)) = true → max_reply_ip_num (ctx_cfg ctx') = Some n → 0 < n →
    Z.of_nat (count_addresses (answers res)) ≤ n ∧
    (Z.of_nat (count_addresses (answers lookup)) ≤ n →
     count_addresses (answers res) = count_addresses (answers lookup))).
Proof.
  intros Hnone Hnext Hres. unfold address_handle, address_run in Hres. rewrite Hnone in Hres. cbn [answered] in Hres. rewrite Hnext in Hres.
  cbn [result_map] in Hres. injection Hres as <-.
  destruct (limit_addresses_spec (q_type (req_query req)) ctx' lookup) as (k & Hk & Hn).
  set (l1 := limit_addresses _ _ lookup) in *.
  assert (Hlim : ∀ a b, lim_min (rr_ttl_limits ctx') = Some a → lim_max (rr_ttl_limits ctx') = Some b → a ≤ b).
  { unfold rr_ttl_limits. apply combine_limits_correct. }
  assert (Hans : answers (limit_ttls ctx' l1) = (fun r => rr_set_ttl
      match rr_ttl_reply_max (ctx_cfg ctx') with
      | Some m => Z.min (as_u32 m)
          (opt_map_or (rr_ttl_secs r) (Z.max (rr_ttl_secs r)) (lim_min (rr_ttl_limits ctx')))
      | None => limits_apply (rr_ttl_limits ctx') (rr_ttl_secs r)
      end r) <$> answers l1).
  { unfold limit_ttls. destruct (_ || _) eqn:E.
    - change (answers (resp_mut ?f l1)) with (msg_answers (f (resp_message l1))). cbn [msg_set_answers msg_answers].
      apply list_fmap_ext. intros _ r _. rewrite reply_ttl_rr_spec by done.
      by destruct (rr_ttl_reply_max (ctx_cfg ctx')).
    - rewrite !orb_false_iff in E. destruct E as [[E1 E2] E3].
      destruct (rr_ttl_reply_max (ctx_cfg ctx')); [done|]. unfold limits_apply.
      destruct (lim_min (rr_ttl_limits ctx')); [done|]. destruct (lim_max (rr_ttl_limits ctx')); [done|].
      cbn [opt_map_or]. rewrite <- (list_fmap_id (answers l1)) at 1. apply list_fmap_ext.
      by intros _ [? ? ?] _. }
  assert (Hcount : count_addresses (answers (limit_ttls ctx' l1)) = count_addresses (answers l1)).
  { rewrite Hans. by apply count_addresses_fmap. }
  split; [exists k; by rewrite Hans, Hk|]. intros n Ht Hmax Hpos. rewrite Hcount. by apply Hn.
Qed.

(** The addresses of the rules from a node up, nearest first. *)
Fixpoint node_addresses (n : Node) : list AddressRuleValue :=
  match n with
  | mkNode rule zone =>
      match address rule with Some a => [a] | None => [] end ++
      match zone with Some z => node_addresses z | None => [] end
  end.

Lemma addr_rule_walk_spec t no_soa (n : Node) :
  addr_rule_walk t no_soa n =
  default None (first_some (addr_rule_step t no_soa <$> node_addresses n)).
Proof.
  revert n. fix IH 1. intros [rule zone]. cbn [addr_rule_walk node_addresses].
  rewrite fmap_app, first_some_app. destruct (address rule) as [a|]; cbn [fmap list_fmap first_some mbind option_bind opt_or].
  - destruct (addr_rule_step t no_soa a) as [r|]; [done|]. cbn. destruct zone as [z|]; [apply IH|done].
  - destruct zone as [z|]; [apply IH|done].
Qed.

(** C14: what address rules answer, when no SOA is forced. Of the rules on the
    name and above, nearest first, the first that has a say decides: [#] refuses
    every type with NXDOMAIN, [-] leaves the query to the upstreams, an address
    answers its own family (an IPv4 address also an AAAA query, mapped) and
    with SOA the other; the [4] and [6] forms and addresses have no say about
    other families or, as the first rule found, stop the search for other
    types; and a query that is answered never reaches the upstreams. *)
Theorem address_rules_decide (now : Instant) ctx req (next : Ctx → DnsRequest Name → Ctx * Res) (n : Node) :
  ctx_domain_rule ctx = Some n → no_rule_addr (ctx_server_opts ctx) = false →
  no_rule_soa (ctx_server_opts ctx) = false →
  force_aaaa_soa (ctx_server_opts ctx) = false → cfg_force_aaaa_soa (ctx_cfg ctx) = false →
  force_https_soa (ctx_server_opts ctx) = false → cfg_force_https_soa (ctx_cfg ctx) = false →
  q_type (req_query req) ∉ c_force_qtype_soa (rc_inner (ctx_cfg ctx)) →
  let t := q_type (req_query req) in
  let say (a : AddressRuleValue) : option (option RuleAnswer) :=
    match a with
    | ASOA => Some (Some ([RSOA default_soa], NXDomain))
    | AIGN => Some None
    | _ =>
      if negb (is_ip_addr t) then Some None
      else match a with
      | ASOAv4 => if t =? TYPE_A then Some soa_answer else None
      | ASOAv6 => if t =? TYPE_A then None else Some soa_answer
      | AIGNv4 => if t =? TYPE_A then Some None else None
      | AIGNv6 => if t =? TYPE_A then None else Some None
      | AAddr (Some v4) None => Some (Some (if t =? TYPE_A then RA <$> v4
                                            else (fun ip => RAAAA (to_ipv6_mapped ip)) <$> v4, NoError))
      | AAddr None (Some v6) => if t =? TYPE_A then Some soa_answer else Some (Some (RAAAA <$> v6, NoError))
      | AAddr (Some v4) (Some v6) => Some (Some (if t =? TYPE_A then RA <$> v4 else RAAAA <$> v6, NoError))
      | _ => Some soa_answer
      end
    end in
  match default None (first_some (say <$> node_addresses n)) with
  | Some a => address_handle now ctx req next =
      (ctx_set_source FromStatic ctx, Ok (rule_reply now ctx (req_query req) a))
  | None => handle_rule_addr t ctx = None
  end.
Proof.
  intros Hn Hna Hns F1 F2 F3 F4 F5 t say.
  assert (Hh : handle_rule_addr t ctx = default None (first_some (say <$> node_addresses n))).
  { unfold handle_rule_addr. rewrite Hna, Hns, F1, F2, F3, F4, !andb_false_r, (bool_decide_false _ F5), Hn.
    cbn [negb andb mbind option_bind]. rewrite addr_rule_walk_spec. do 2 f_equal. apply list_fmap_ext.
    intros _ a _. unfold say, addr_rule_step, is_ip_addr, TYPE_A, TYPE_AAAA.
    destruct (Z.eqb_spec t 1) as [E1|E1], (Z.eqb_spec t 28) as [E2|E2]; [lia|..];
      by destruct a as [| | | | | |[v4|] [v6|]]. }
  rewrite <- Hh. destruct (handle_rule_addr t ctx) as [a|] eqn:E; [|done].
  unfold address_handle, address_run. fold t. by rewrite E.
Qed.

(** An answer to an address query with a bogus address becomes NXDOMAIN, and
    nothing else is changed. *)
Theorem bogus_replaced ctx req (next : Ctx → DnsRequest Name → Ctx * Res) :
  bogus_handle ctx req next =
  ((next ctx req).1,
   match (next ctx req).2 with
   | Ok lookup =>
       if is_ip_addr (q_type (req_query req)) &&
          existsb (fun i => im_contains (rc_bogus_nxdomain (ctx_cfg (next ctx req).1)) i) (ip_addrs lookup)
       then Err (EResponseCode NXDomain) else Ok lookup
   | Err e => Err e
   end).
Proof.
  unfold bogus_handle, bogus_run. cbn [answered]. destruct (next ctx req) as [ctx' [lookup|e]]; [|done]. cbn [fst snd].
  assert (has_bogus_address (ctx_cfg ctx') lookup =
    existsb (fun i => im_contains (rc_bogus_nxdomain (ctx_cfg ctx')) i) (ip_addrs lookup)) as ->.
  { unfold has_bogus_address, ip_addrs. induction (answers lookup) as [|r l IH]; [done|]. cbn.
    destruct (rdata_ip_addr (rr_data r)); cbn; by rewrite IH. }
  by case_match.
Qed.
End AddressMw.

(** ** Witnesses *)
Lemma reply_limits_witness :
  let ctx := sample_ctx sample_inner None in
  let next c (_ : DnsRequest PlainName) := (c, Ok (sample_resp [1; 2] 7)) in
  ∃ res : DnsResponse PlainName,
    address_handle 0 ctx (sample_req TYPE_A) next = (ctx, Ok res) ∧
    Z.of_nat (count_addresses (answers res)) ≤ 1.
Proof.
  intros ctx next. eexists. split; [vm_compute; reflexivity|].
  eapply (reply_limits 0 ctx (sample_req TYPE_A) next ctx (sample_resp [1; 2] 7));
    [vm_compute; reflexivity|reflexivity|vm_compute; reflexivity|reflexivity|reflexivity|lia].
Defined.

Lemma address_rules_decide_witness :
  let n := mkNode (sample_rule AIGNv6) (Some (mkNode (sample_rule (AAddr (Some [1]) None)) None)) in
  let ctx := sample_ctx config_default (Some n) in
  let next c (_ : DnsRequest PlainName) := (c, Err EIo) in
  address_handle 0 ctx (sample_req TYPE_A) next =
  (ctx_set_source FromStatic ctx, Ok (rule_reply 0 ctx (sample_query TYPE_A) ([RA 1], NoError))).
Proof.
  intros n ctx next.
  apply (address_rules_decide 0 ctx (sample_req TYPE_A) next n); try reflexivity.
  by intros ?%not_elem_of_nil.
Defined.
