(* ===== verification/Lru.v ===== *)
(** * The LRU cache library

    The interface of the [lru] library's [LruCache] as the program uses it: a
    class of its operations, whose documented behaviour is stated on the
    entries in the order of [iter], most recently used first. References that
    the program writes through are operations of their own. *)

From S2P Require Import Prelude.

Section Lists.
Context {K V : Type} (keqb : K → K → bool).
Implicit Types (l : list (K * V)).

(** ** The operations on the list of entries *)
Fixpoint al_find l (k : K) : option V :=
  match l with
  | [] => None
  | (k', v) :: l => if keqb k' k then Some v else al_find l k
  end.

(** The stored key of an entry. *)
Fixpoint al_key l (k : K) : option K :=
  match l with
  | [] => None
  | (k', _) :: l => if keqb k' k then Some k' else al_key l k
  end.

Fixpoint al_remove l (k : K) : list (K * V) :=
  match l with
  | [] => []
  | (k', v) :: l => if keqb k' k then l else (k', v) :: al_remove l k
  end.

Fixpoint al_write l (k : K) (v : V) : list (K * V) :=
  match l with
  | [] => []
  | (k', v') :: l => if keqb k' k then (k', v) :: l else (k', v') :: al_write l k v
  end.

(** Moves an entry to the front. *)
Definition al_touch l (k : K) : list (K * V) :=
  match al_key l k, al_find l k with
  | Some k', Some v => (k', v) :: al_remove l k
  | _, _ => l
  end.
End Lists.

(** ** The library *)
Class LruLib (K V L : Type) := {
  lru_new : nat → L;
  lru_items : L → list (K * V);
  lru_cap : L → nat;
  (** [get_mut]: the value, with the entry made the most recent. *)
  lru_get_mut : L → K → option V * L;
  (** [peek_mut]: the value, the order unchanged. *)
  lru_peek_mut : L → K → option V;
  (** A write through the reference of [get_mut], [peek_mut]. *)
  lru_write : L → K → V → L;
  (** A write through the references of [iter_mut]. *)
  lru_iter_write : L → (K → V → V) → L;
  lru_push : L → K → V → L * option (K * V);
  lru_put : L → K → V → L;
  lru_pop : L → K → option V * L;
  lru_pop_lru : L → option (K * V) * L;
  lru_clear : L → L;
}.

Class LruLaws {K V : Type} (keqb : K → K → bool) (L : Type) `{LruLib K V L} : Prop := {
  lru_items_new n : lru_items (lru_new n) = [];
  lru_cap_new n : lru_cap (lru_new n) = n;
  lru_get_mut_spec c k :
    (lru_get_mut c k).1 = al_find keqb (lru_items c) k ∧
    lru_items (lru_get_mut c k).2 = al_touch keqb (lru_items c) k ∧
    lru_cap (lru_get_mut c k).2 = lru_cap c;
  lru_peek_mut_spec c k : lru_peek_mut c k = al_find keqb (lru_items c) k;
  lru_write_spec c k v :
    lru_items (lru_write c k v) = al_write keqb (lru_items c) k v ∧
    lru_cap (lru_write c k v) = lru_cap c;
  lru_iter_write_spec c f :
    lru_items (lru_iter_write c f) = (fun e => (e.1, f e.1 e.2)) <$> lru_items c ∧
    lru_cap (lru_iter_write c f) = lru_cap c;
  (** [push] of a new key evicts the least recent entry of a full cache. *)
  lru_push_spec c k v :
    al_find keqb (lru_items c) k = None →
    lru_cap (lru_push c k v).1 = lru_cap c ∧
    if (length (lru_items c) <? lru_cap c)%nat
    then lru_items (lru_push c k v).1 = (k, v) :: lru_items c ∧ (lru_push c k v).2 = None
    else lru_items (lru_push c k v).1 = (k, v) :: removelast (lru_items c) ∧
         (lru_push c k v).2 = last (lru_items c);
  (** [put] replaces the value of a present key and makes it the most recent. *)
  lru_put_spec c k v :
    lru_cap (lru_put c k v) = lru_cap c ∧
    lru_items (lru_put c k v) =
      match al_key keqb (lru_items c) k with
      | Some k' => (k', v) :: al_remove keqb (lru_items c) k
      | None => (k, v) :: if (length (lru_items c) <? lru_cap c)%nat then lru_items c
                          else removelast (lru_items c)
      end;
  lru_pop_spec c k :
    (lru_pop c k).1 = al_find keqb (lru_items c) k ∧
    lru_items (lru_pop c k).2 = al_remove keqb (lru_items c) k ∧
    lru_cap (lru_pop c k).2 = lru_cap c;
  lru_pop_lru_spec c :
    (lru_pop_lru c).1 = last (lru_items c) ∧
    lru_items (lru_pop_lru c).2 = removelast (lru_items c) ∧
    lru_cap (lru_pop_lru c).2 = lru_cap c;
  lru_clear_spec c : lru_items (lru_clear c) = [] ∧ lru_cap (lru_clear c) = lru_cap c;
}.

(** ** A list of entries implements it *)
Record ListLru (K V : Type) := mkListLru { ll_items : list (K * V); ll_cap : nat }.
Arguments mkListLru {K V} _ _.
Arguments ll_items {K V} _.
Arguments ll_cap {K V} _.

Section ListLru.
Context {K V : Type} (keqb : K → K → bool).
Implicit Types (c : ListLru K V).

Definition ll_with c (l : list (K * V)) : ListLru K V := mkListLru l (ll_cap c).

Definition list_lru : LruLib K V (ListLru K V) := {|
  lru_new n := mkListLru [] n;
  lru_items := ll_items;
  lru_cap := ll_cap;
  lru_get_mut c k := (al_find keqb (ll_items c) k, ll_with c (al_touch keqb (ll_items c) k));
  lru_peek_mut c k := al_find keqb (ll_items c) k;
  lru_write c k v := ll_with c (al_write keqb (ll_items c) k v);
  lru_iter_write c f := ll_with c ((fun e => (e.1, f e.1 e.2)) <$> ll_items c);
  lru_push c k v :=
    if (length (ll_items c) <? ll_cap c)%nat then (ll_with c ((k, v) :: ll_items c), None)
    else (ll_with c ((k, v) :: removelast (ll_items c)), last (ll_items c));
  lru_put c k v :=
    ll_with c match al_key keqb (ll_items c) k with
      | Some k' => (k', v) :: al_remove keqb (ll_items c) k
      | None => (k, v) :: if (length (ll_items c) <? ll_cap c)%nat then ll_items c
                          else removelast (ll_items c)
      end;
  lru_pop c k := (al_find keqb (ll_items c) k, ll_with c (al_remove keqb (ll_items c) k));
  lru_pop_lru c := (last (ll_items c), ll_with c (removelast (ll_items c)));
  lru_clear c := ll_with c [];
|}.

Lemma list_lru_laws : @LruLaws K V keqb (ListLru K V) list_lru.
Proof.
  split; intros; cbn; try done.
  split; [by case_match|]. by case_match.
Qed.
End ListLru.

(** ** Facts about the lists of entries *)
Section ListFacts.
Context {K V : Type} (keqb : K → K → bool).
Hypothesis keqb_refl : ∀ k, keqb k k = true.
Hypothesis keqb_sym : ∀ a b, keqb a b = keqb b a.
Hypothesis keqb_trans : ∀ a b c, keqb a b = true → keqb b c = true → keqb a c = true.
Implicit Types (l : list (K * V)).

(** No two entries for one key. *)
Fixpoint al_nodup l : Prop :=
  match l with
  | [] => True
  | (k, _) :: l => al_find keqb l k = None ∧ al_nodup l
  end.

Lemma keqb_subst a b c : keqb a b = true → keqb a c = keqb b c.
Proof.
  intros Hab. destruct (keqb b c) eqn:E; [by eapply keqb_trans|].
  apply not_true_iff_false. intros Hac. rewrite keqb_sym in Hab.
  by rewrite (keqb_trans _ _ _ Hab Hac) in E.
Qed.

Lemma al_find_eqb l a b : keqb a b = true → al_find keqb l a = al_find keqb l b.
Proof.
  intros Hab. induction l as [|[k v] l IH]; [done|]. cbn.
  rewrite (keqb_sym k a), (keqb_sym k b), (keqb_subst _ _ k Hab). by rewrite IH.
Qed.

Lemma al_find_sum (f : V → Z) l k v :
  al_find keqb l k = Some v →
  sum_list_with_Z (fun e => f e.2) l = f v + sum_list_with_Z (fun e => f e.2) (al_remove keqb l k).
Proof.
  induction l as [|[k' v'] l IH]; [done|]. cbn. case_match; rewrite sum_list_cons; cbn.
  - by intros [= ->].
  - intros Hf. rewrite sum_list_cons, (IH Hf). cbn. lia.
Qed.

Lemma al_write_sum (f : V → Z) l k v v' :
  al_find keqb l k = Some v →
  sum_list_with_Z (fun e => f e.2) (al_write keqb l k v') =
  sum_list_with_Z (fun e => f e.2) l - f v + f v'.
Proof.
  induction l as [|[k' u] l IH]; [done|]. cbn. case_match; rewrite !sum_list_cons; cbn.
  - intros [= ->]. lia.
  - intros Hf. rewrite (IH Hf). lia.
Qed.

Lemma al_key_find l k : is_Some (al_key keqb l k) ↔ is_Some (al_find keqb l k).
Proof.
  induction l as [|[k' v] l IH]; cbn; [split; by intros []|]. case_match; [|done]. split; eauto.
Qed.

Lemma al_key_eqb l k k' : al_key keqb l k = Some k' → keqb k' k = true.
Proof. induction l as [|[a v] l IH]; [done|]. cbn. case_match; [by intros [= <-]|done]. Qed.

Lemma al_find_touch l k k' : al_nodup l → al_find keqb (al_touch keqb l k) k' = al_find keqb l k'.
Proof.
  intros Hl. unfold al_touch. destruct (al_key keqb l k) as [a|] eqn:Ek; [|done].
  destruct (al_find keqb l k) as [v|] eqn:Ef; [|done]. apply al_key_eqb in Ek. cbn.
  rewrite (keqb_subst _ _ k' Ek). destruct (keqb k k') eqn:E.
  { by rewrite <- Ef, (al_find_eqb _ _ _ E). }
  clear Ef Ek. induction l as [|[b w] l IH]; [done|]. destruct Hl as [Hb Hl]. cbn.
  destruct (keqb b k) eqn:Ebk; cbn; [|by rewrite IH].
  by rewrite (keqb_subst _ _ k' Ebk), E.
Qed.

Lemma al_touch_sum (f : V → Z) l k :
  sum_list_with_Z (fun e => f e.2) (al_touch keqb l k) = sum_list_with_Z (fun e => f e.2) l.
Proof.
  unfold al_touch. destruct (al_key keqb l k); [|done].
  destruct (al_find keqb l k) as [v|] eqn:Ef; [|done]. by rewrite (al_find_sum f _ _ _ Ef).
Qed.

Lemma al_find_remove_None l a k :
  al_find keqb l k = None → al_find keqb (al_remove keqb l a) k = None.
Proof.
  induction l as [|[b v] l IH]; [done|]. cbn. destruct (keqb b k) eqn:E1; [done|].
  destruct (keqb b a); [done|]. cbn. by rewrite E1.
Qed.

Lemma al_find_remove_self l k : al_nodup l → al_find keqb (al_remove keqb l k) k = None.
Proof.
  induction l as [|[b v] l IH]; [done|]. intros [Hb Hl]. cbn. destruct (keqb b k) eqn:E; cbn.
  - by rewrite <- (al_find_eqb _ _ _ E).
  - rewrite E. by apply IH.
Qed.

Lemma al_nodup_remove l k : al_nodup l → al_nodup (al_remove keqb l k).
Proof.
  induction l as [|[b v] l IH]; [done|]. intros [Hb Hl]. cbn. case_match; [done|]. cbn.
  split; [by apply al_find_remove_None|by apply IH].
Qed.

Lemma al_nodup_touch l k : al_nodup l → al_nodup (al_touch keqb l k).
Proof.
  intros Hl. unfold al_touch. destruct (al_key keqb l k) as [a|] eqn:Ek; [|done].
  destruct (al_find keqb l k) eqn:Ef; [|done]. apply al_key_eqb in Ek. cbn.
  split; [|by apply al_nodup_remove].
  rewrite (al_find_eqb _ _ _ Ek). by apply al_find_remove_self.
Qed.

Lemma al_find_write l k v k' :
  al_find keqb (al_write keqb l k v) k' =
  if keqb k k' then (fun _ => v) <$> al_find keqb l k else al_find keqb l k'.
Proof.
  induction l as [|[b w] l IH]; cbn; [by case_match|].
  destruct (keqb b k) eqn:Ebk; cbn.
  - rewrite (keqb_subst _ _ k' Ebk). by case_match.
  - rewrite IH. destruct (keqb k k') eqn:E; [|done].
    assert (keqb b k' = false) as ->; [|done].
    by rewrite keqb_sym, <- (keqb_subst _ _ b E), keqb_sym.
Qed.

Lemma al_find_write_None l k v k' :
  al_find keqb (al_write keqb l k v) k' = None ↔ al_find keqb l k' = None.
Proof.
  rewrite al_find_write. destruct (keqb k k') eqn:E; [|done].
  rewrite (al_find_eqb _ _ _ E). by destruct (al_find keqb l k').
Qed.

Lemma al_nodup_write l k v : al_nodup l → al_nodup (al_write keqb l k v).
Proof.
  induction l as [|[b w] l IH]; [done|]. intros [Hb Hl]. cbn. case_match; cbn; [done|].
  split; [by apply al_find_write_None|by apply IH].
Qed.

Lemma length_al_write l k v : length (al_write keqb l k v) = length l.
Proof. induction l as [|[b w] l IH]; [done|]. cbn. case_match; cbn; lia. Qed.

Lemma length_al_remove l k :
  length (al_remove keqb l k) = (length l - if is_some (al_find keqb l k) then 1 else 0)%nat.
Proof.
  induction l as [|[b w] l IH]; [done|]. cbn. destruct (keqb b k); cbn; [lia|]. rewrite IH.
  destruct (al_find keqb l k) eqn:E; cbn; [|lia]. destruct l; [done|cbn; lia].
Qed.

Lemma length_al_touch l k : length (al_touch keqb l k) = length l.
Proof.
  unfold al_touch. destruct (al_key keqb l k); [|done]. destruct (al_find keqb l k) eqn:Ef; [|done].
  cbn. rewrite length_al_remove, Ef. cbn. destruct l; [done|cbn; lia].
Qed.

Lemma removelast_sum {A} (f : A → Z) (l : list A) x :
  last l = Some x → sum_list_with_Z f l = f x + sum_list_with_Z f (removelast l).
Proof.
  induction l as [|a l IH]; [done|]. destruct l as [|b l]; [intros [= ->]; done|].
  intros Hl. change (removelast (a :: b :: l)) with (a :: removelast (b :: l)).
  rewrite !(sum_list_cons f a), (IH Hl). lia.
Qed.

Lemma al_find_removelast l k : al_find keqb l k = None → al_find keqb (removelast l) k = None.
Proof.
  induction l as [|[b v] l IH]; [done|]. destruct l as [|e l]; [done|].
  cbn [removelast]. cbn [al_find]. case_match; [done|]. apply IH.
Qed.

Lemma al_nodup_removelast l : al_nodup l → al_nodup (removelast l).
Proof.
  induction l as [|[b v] l IH]; [done|]. destruct l as [|e l]; [done|]. intros [Hb Hl].
  change (removelast ((b, v) :: e :: l)) with ((b, v) :: removelast (e :: l)). cbn [al_nodup].
  split; [by apply al_find_removelast|by apply IH].
Qed.

Lemma length_removelast {A} (l : list A) : length (removelast l) = pred (length l).
Proof.
  induction l as [|a l IH]; [done|]. destruct l as [|b l]; [done|].
  change (removelast (a :: b :: l)) with (a :: removelast (b :: l)). cbn [length]. rewrite IH. done.
Qed.

Lemma elem_of_removelast {A} (l : list A) x : x ∈ removelast l → x ∈ l.
Proof.
  induction l as [|a l IH]; [done|]. destruct l as [|b l]; [by intros ?%not_elem_of_nil|].
  change (removelast (a :: b :: l)) with (a :: removelast (b :: l)).
  rewrite !(elem_of_cons _ _ a). intros [->|?]; [by left|]. right. by apply IH.
Qed.

Lemma elem_of_al_remove l k e : e ∈ al_remove keqb l k → e ∈ l.
Proof.
  induction l as [|[b v] l IH]; [done|]. cbn. case_match; rewrite !elem_of_cons; [auto|].
  intros [->|?]; auto.
Qed.

Lemma al_find_elem l k v : al_find keqb l k = Some v → ∃ k', (k', v) ∈ l ∧ keqb k' k = true.
Proof.
  induction l as [|[b w] l IH]; [done|]. cbn. case_match.
  - intros [= ->]. exists b. split; [by left|done].
  - intros (k' & ? & ?)%IH. exists k'. split; [by right|done].
Qed.

Lemma elem_of_al_write l k v e : e ∈ al_write keqb l k v → e ∈ l ∨ e.2 = v ∧ keqb e.1 k = true.
Proof.
  induction l as [|[b w] l IH]; [by intros ?%not_elem_of_nil|]. cbn. case_match; rewrite !elem_of_cons.
  - intros [->|?]; [by right|auto].
  - intros [->|?]; [auto|]. apply IH in H0 as [?|?]; auto.
Qed.

Lemma elem_of_al_touch l k e : e ∈ al_touch keqb l k → e ∈ l.
Proof.
  unfold al_touch. destruct (al_key keqb l k) as [a|] eqn:Ek; [|done].
  destruct (al_find keqb l k) as [v|] eqn:Ef; [|done]. rewrite elem_of_cons.
  intros [->|He]; [|by eapply elem_of_al_remove]. clear -Ek Ef.
  induction l as [|[b w] l IH]; [done|]. cbn in *. destruct (keqb b k).
  - simplify_eq. by left.
  - right. by apply IH.
Qed.
End ListFacts.
