(* ===== verification/Cache.v ===== *)
(** * The DNS cache ([dns_mw_cache.rs])

    [DnsCache] and its entries, the middleware in front of it, prefetching and
    the notification of the prefetch loop. Every operation runs under the mutex
    of the entries, so each is one step of the state [DnsCache]. *)

From S2P Require Import Prelude Names DomainMap Config DomainRule DomainRuleTree IpSet Message Runtime Context Lru.

(** ** Machine arithmetic on [usize] *)
Definition usize_modulus : Z := 18446744073709551616.

(** A subtraction that wraps below zero. *)
Definition usize_sub (a b : Z) : Z := if b <=? a then a - b else a - b + usize_modulus.

(** ** Entries *)
Record DnsCacheEntry (Name : Type) := mkEntry {
  e_data : DnsResponse Name;
  e_memory_usage : Z;
  e_valid_until : Instant;
  e_is_in_prefetching : bool;
  e_retry_prefetch_at : option Instant;
  e_hits : Z;
  e_reply_ttl : option Z;
  (** [TtlReply]: the adjusted response and its memory. *)
  e_ttl_reply : option (DnsResponse Name * Z);
}.
Arguments mkEntry {Name} _ _ _ _ _ _ _ _.
Arguments e_data {Name} _.
Arguments e_memory_usage {Name} _.
Arguments e_valid_until {Name} _.
Arguments e_is_in_prefetching {Name} _.
Arguments e_retry_prefetch_at {Name} _.
Arguments e_hits {Name} _.
Arguments e_reply_ttl {Name} _.
Arguments e_ttl_reply {Name} _.

(** The compiler's sizes of the types, and the length of a name. *)
Class Sizes (Name : Type) := {
  size_entry : Z; size_query : Z; size_record : Z; size_message : Z; size_usize : Z;
  size_ttl_reply : Z;
  name_len : Name → Z;
}.
Class SizesLaws (Name : Type) `{Sizes Name} : Prop := {
  sizes_nonneg : 0 ≤ size_entry ∧ 0 ≤ size_query ∧ 0 ≤ size_record ∧ 0 ≤ size_message ∧
    0 ≤ size_usize ∧ 0 ≤ size_ttl_reply;
  name_len_nonneg n : 0 ≤ name_len n;
}.

Inductive CacheStatus := Valid | Expired.
#[global] Instance CacheStatus_eq_dec : EqDecision CacheStatus.
Proof. solve_decision. Defined.

Section Cache.
Context {Name : Type} `{NameLib Name} `{MsgLib Name} `{Sizes Name}.
Context {L : Type} `{LruLib (Query Name) (DnsCacheEntry Name) L}.
Implicit Types (q : Query Name) (e : DnsCacheEntry Name) (r : DnsResponse Name).

Definition response_memory r : Z :=
  let records := Z.of_nat (length (answers r) + length (authorities r) + length (additionals r)) in
  opt_unwrap_or (opt_map_or 0 (fun w => Z.of_nat (length w)) (resp_to_vec r)) (resp_wire_len r)
  + records * size_record
  + size_message
  + 2 * size_usize
  + Z.of_nat (length (msg_queries (resp_message r))) * size_query
  + opt_map_or 0 (fun g => Z.of_nat (String.length g)) (name_server_group r)
  + prepared_wire_memory size_usize r.

Definition measure_memory r : Z :=
  response_memory r + size_entry + size_query + name_len (q_name (resp_query r)).

Definition entry_new r (until : Instant) : DnsCacheEntry Name :=
  mkEntry r (measure_memory r) until false None 0 None None.

Definition entry_is_current e (now : Instant) : bool := now <=? e_valid_until e.

(** [saturating_duration_since]. *)
Definition entry_ttl e (now : Instant) : Z := Z.max 0 (e_valid_until e - now).

Definition entry_set_hits (n : Z) e : DnsCacheEntry Name :=
  mkEntry (e_data e) (e_memory_usage e) (e_valid_until e) (e_is_in_prefetching e)
    (e_retry_prefetch_at e) n (e_reply_ttl e) (e_ttl_reply e).
Definition entry_set_prefetching (b : bool) e : DnsCacheEntry Name :=
  mkEntry (e_data e) (e_memory_usage e) (e_valid_until e) b
    (e_retry_prefetch_at e) (e_hits e) (e_reply_ttl e) (e_ttl_reply e).
Definition entry_set_retry (t : option Instant) e : DnsCacheEntry Name :=
  mkEntry (e_data e) (e_memory_usage e) (e_valid_until e) (e_is_in_prefetching e)
    t (e_hits e) (e_reply_ttl e) (e_ttl_reply e).

(** ** Negative responses *)
Definition negative_response_ttl r : option Z :=
  if negb ((resp_code r =? NoError) || (resp_code r =? NXDomain))
     || ((resp_code r =? NoError)
         && existsb (fun x => rr_type x =? q_type (resp_query r)) (answers r))
  then None
  else
    soa_ttl ← list_min (omap (fun x => match rr_data x with
                                      | RSOA s => Some (Z.min (rr_ttl_secs x) (soa_minimum s))
                                      | _ => None
                                      end) (authorities r));
    Some (fold_left (fun ttl x => Z.min ttl (rr_ttl_secs x))
      (List.filter (fun x => rr_type x =? TYPE_CNAME) (answers r)) soa_ttl).

(** ** The cache *)
Record DnsCache := mkCache {
  dc_cache : L;
  dc_serve_expired : bool;
  dc_expired_ttl : Z;
  dc_expired_reply_ttl : Z;
  dc_memory_limit : Z;
  dc_memory_usage : Z;
  dc_prefetch_time : Z;
}.
Implicit Types (c : DnsCache).

Definition cache_with c (l : L) (usage : Z) : DnsCache :=
  mkCache l (dc_serve_expired c) (dc_expired_ttl c) (dc_expired_reply_ttl c) (dc_memory_limit c)
    usage (dc_prefetch_time c).

(** [DnsCache::new]; a size of zero panics ([NonZeroUsize::new(..).unwrap()]). *)
Definition cache_new (size : Z) (serve_expired : bool) (expired_ttl expired_reply_ttl : Z)
    : option DnsCache :=
  if size =? 0 then None
  else Some (mkCache (lru_new (Z.to_nat size)) serve_expired expired_ttl expired_reply_ttl 0 0 0).

(** The interval between proactive refreshes. *)
Definition prefetch_interval (configured : option Z) (serve_expired_ttl : Z) : Z :=
  let interval := opt_unwrap_or 0 configured in
  if interval =? 0
  then let half := serve_expired_ttl / 2 in
       if half =? 0 then 8 * 3600 else Z.min half (8 * 3600)
  else interval.

(** [while self.memory_limit > 0 && usage > self.memory_limit { pop_lru }] *)
Fixpoint evict_loop (limit : Z) (fuel : nat) (l : L) (usage : Z) : L * Z :=
  match fuel with
  | O => (l, usage)
  | S fuel =>
      if (0 <? limit) && (limit <? usage)
      then match lru_pop_lru l with
           | (Some (_, e), l) => evict_loop limit fuel l (saturating_sub usage (e_memory_usage e))
           | (None, l) => (l, usage)
           end
      else (l, usage)
  end.

(** One round per entry, and the round that finds the cache empty. *)
Definition evict (limit : Z) (l : L) (usage : Z) : L * Z :=
  evict_loop limit (S (length (lru_items l))) l usage.

(** Publishing an entry under its query, and the memory in use after it. *)
Definition insert_entry c q (entry : DnsCacheEntry Name) : L * Z :=
  let usage := dc_memory_usage c in
  match lru_get_mut (dc_cache c) q with
  | (Some previous, l) =>
      let usage := saturating_sub usage (e_memory_usage previous) in
      let entry := entry_set_hits (e_hits previous + 1) entry in
      (lru_write l q entry, usage + e_memory_usage entry)
  | (None, l) =>
      let usage := usage + e_memory_usage entry in
      match lru_push l q entry with
      | (l, Some (_, evicted)) => (l, saturating_sub usage (e_memory_usage evicted))
      | (l, None) => (l, usage)
      end
  end.

(** The response an entry is made of: its deadline and its server group. *)
Definition insert_lookup r (until : Instant) (group : string) : DnsResponse Name :=
  let lookup := with_valid_until r until in
  if bool_decide (name_server_group lookup = Some group) then lookup
  else with_name_server_group lookup group.

Definition insert_response c r (now : Instant) (ttl : Z) (group : string) : DnsCache :=
  let until := now + secs ttl in
  let lookup := insert_lookup r until group in
  let query := resp_query lookup in
  let '(l, usage) := insert_entry c query (entry_new lookup until) in
  let '(l, usage) := evict (dc_memory_limit c) l usage in
  cache_with c l usage.

(** The response a query is answered with: the original with its addresses
    under the query's name when only addresses are left of an alias chain, and
    its TTLs clipped. *)
Definition adjust_response r q (ttl : Z) : DnsResponse Name :=
  let has_cname := existsb (fun x => rr_type x =? TYPE_CNAME) (answers r) in
  let all_ip_records := negb (bool_decide (answers r = [] :> list (Rr Name)))
                        && forallb (fun x => is_ip_addr (rr_type x)) (answers r) in
  let res :=
    if negb has_cname && all_ip_records
       && existsb (fun x => negb (name_eqb (rr_name x) (q_name q))) (answers r)
    then resp_mut (fun m => msg_set_answers (rr_set_name (q_name q) <$> msg_answers m) m) r
    else r in
  set_max_ttl res ttl.

(** Whether an entry found at [now] is dropped instead of served. *)
Definition get_drops c e (now : Instant) : bool :=
  negb (entry_is_current e now)
  && (is_some (negative_response_ttl (e_data e))
      || negb (dc_serve_expired c)
      || ((0 <? dc_expired_ttl c)
          && (secs (dc_expired_ttl c) <? Z.max 0 (now - e_valid_until e)))).

Definition get_ttl c e (now : Instant) : Z * CacheStatus :=
  if entry_is_current e now then (as_u32 (as_secs (entry_ttl e now)), Valid)
  else (as_u32 (dc_expired_reply_ttl c), Expired).

Definition cache_get c q (now : Instant) : option (DnsResponse Name * CacheStatus) * DnsCache :=
  match lru_get_mut (dc_cache c) q with
  | (None, l) => (None, cache_with c l (dc_memory_usage c))
  | (Some value, l) =>
      if get_drops c value now then
        match lru_pop l q with
        | (Some removed, l) =>
            (None, cache_with c l (usize_sub (dc_memory_usage c) (e_memory_usage removed)))
        | (None, l) => (None, cache_with c l (dc_memory_usage c))
        end
      else
        let value := entry_set_hits (e_hits value + 1) value in
        let '(ttl, status) := get_ttl c value now in
        let repeated_ttl := bool_decide (e_reply_ttl value = Some ttl) in
        let value := mkEntry (e_data value) (e_memory_usage value) (e_valid_until value)
          (e_is_in_prefetching value) (e_retry_prefetch_at value) (e_hits value) (Some ttl)
          (e_ttl_reply value) in
        match (if repeated_ttl then e_ttl_reply value else None) with
        | Some (reply, _) =>
            (Some (reply, status), cache_with c (lru_write l q value) (dc_memory_usage c))
        | None =>
            let res := adjust_response (e_data value) q ttl in
            let previous := opt_map_or 0 snd (e_ttl_reply value) in
            let total := usize_sub (dc_memory_usage c) previous in
            let memory := usize_sub (e_memory_usage value) previous in
            let set_reply memory reply :=
              mkEntry (e_data value) memory (e_valid_until value) (e_is_in_prefetching value)
                (e_retry_prefetch_at value) (e_hits value) (e_reply_ttl value) reply in
            if repeated_ttl then
              let res := prepare_wire res in
              let reply_memory := response_memory res + size_ttl_reply in
              if (dc_memory_limit c =? 0) || (total + reply_memory <=? dc_memory_limit c)
              then (Some (res, status),
                    cache_with c (lru_write l q (set_reply (memory + reply_memory)
                                                   (Some (res, reply_memory))))
                      (total + reply_memory))
              else (Some (res, status), cache_with c (lru_write l q (set_reply memory None)) total)
            else (Some (res, status), cache_with c (lru_write l q (set_reply memory None)) total)
        end
  end.

(** ** Refreshing *)
Definition finish_prefetch c q (now : Instant) : DnsCache :=
  match lru_peek_mut (dc_cache c) q with
  | Some e =>
      if e_is_in_prefetching e
      then cache_with c
             (lru_write (dc_cache c) q
                (entry_set_retry (Some (now + secs (Z.max (dc_prefetch_time c) 1)))
                   (entry_set_prefetching false e)))
             (dc_memory_usage c)
      else c
  | None => c
  end.

Definition begin_refresh c q : bool * DnsCache :=
  match lru_peek_mut (dc_cache c) q with
  | Some e =>
      if negb (e_is_in_prefetching e)
      then (true, cache_with c (lru_write (dc_cache c) q (entry_set_prefetching true e))
                    (dc_memory_usage c))
      else (false, c)
  | None => (false, c)
  end.

Definition end_refresh c q : DnsCache :=
  match lru_peek_mut (dc_cache c) q with
  | Some e => cache_with c (lru_write (dc_cache c) q (entry_set_prefetching false e))
                (dc_memory_usage c)
  | None => c
  end.

(** [Instant::checked_sub]: the platform's earliest instant. *)
Variable instant_min : Instant.

Definition checked_sub (t : Instant) (d : Z) : option Instant :=
  if instant_min <=? t - d then Some (t - d) else None.

Inductive PrefetchClass := PSkip | PWait (d : Z) | PDue.

(** What the loop of [get_expired] does with one entry. *)
Definition prefetch_class (now check_time : Instant) q e : PrefetchClass :=
  if is_some (negative_response_ttl (e_data e)) then PSkip
  else if e_is_in_prefetching e then PSkip
  else match opt_filter (fun t => now <? t) (e_retry_prefetch_at e) with
       | Some retry_at => PWait (retry_at - now)
       | None =>
           if negb (is_ip_addr (q_type q)) then PSkip
           else if entry_is_current e check_time then PWait (entry_ttl e check_time)
           else PDue
       end.

Definition get_expired c (now : Instant) (seconds_ahead : option Z)
    : (list (Query Name * option string) * Z) * DnsCache :=
  let max_wait := secs MAX_TTL in
  if bool_decide (lru_items (dc_cache c) = []) then (([], max_wait), c)
  else
    let delay := if dc_serve_expired c then dc_prefetch_time c else 0 in
    let check_time :=
      (if 0 <? delay then opt_unwrap_or now (checked_sub now (secs delay)) else now)
      + secs (opt_unwrap_or 5 seconds_ahead) in
    let class (x : Query Name * DnsCacheEntry Name) := prefetch_class now check_time x.1 x.2 in
    let most_recent :=
      fold_left (fun m x => match class x with PWait d => Z.min m d | _ => m end)
        (lru_items (dc_cache c)) max_wait in
    let expired :=
      omap (fun x => match class x with
                     | PDue => Some (x.1, e_hits x.2, name_server_group (e_data x.2))
                     | _ => None
                     end) (lru_items (dc_cache c)) in
    let l := lru_iter_write (dc_cache c) (fun q e =>
      match prefetch_class now check_time q e with
      | PDue => entry_set_prefetching true e
      | _ => e
      end) in
    (((fun x => (x.1.1, x.2)) <$> sort_by (fun a b => b.1.2 <=? a.1.2) expired, most_recent),
     cache_with c l (dc_memory_usage c)).

(** ** Clearing and loading *)

(** [flush]; the entries a persisted copy is written from: none. *)
Definition flush c : DnsCache := cache_with c (lru_clear (dc_cache c)) 0.
Definition cache_clear c : DnsCache := flush c.

Definition cache_len c : nat := length (lru_items (dc_cache c)).
Definition memory_bytes c : Z := dc_memory_usage c.

(** [PersistCache::load] of the entries read from a file. *)
Definition cache_load (l : L) (entries : list (DnsCacheEntry Name)) : L :=
  fold_left (fun l e => lru_put l (resp_query (e_data e)) e) entries l.

(** The start-up task: load, measure, and shrink to the budget. *)
Definition load_task c (entries : list (DnsCacheEntry Name)) : DnsCache :=
  let l := cache_load (dc_cache c) entries in
  let usage := sum_list_with_Z (fun x => e_memory_usage x.2) (lru_items l) in
  let '(l, usage) := evict (dc_memory_limit c) l usage in
  cache_with c l usage.

(** The entries a checkpoint writes. *)
Definition persist_entries (l : L) : list (DnsCacheEntry Name) := snd <$> lru_items l.
End Cache.

Arguments DnsCache L : clear implicits.
