(* ===== verification/CacheSpec.v ===== *)
(** * Correctness of the cache

    The accounting of memory, the budget and the bound on entries as an
    invariant of every reachable state; what a lookup returns and when it
    returns nothing; and that a retained reply is what the lookup would compute. *)

From S2P Require Import Prelude Names DomainMap Config DomainRule DomainRuleTree IpSet Message Runtime Context Lru Cache.

(** ** Prefixes of the entries *)
Section Prefixes.
Context {K V : Type} (keqb : K → K → bool).
Implicit Types (l : list (K * V)).

Lemma al_find_take l n k : al_find keqb l k = None → al_find keqb (take n l) k = None.
Proof.
  revert n. induction l as [|[b v] l IH]; intros [|n]; try done. cbn. case_match; [done|]. apply IH.
Qed.

Lemma al_nodup_take l n : al_nodup keqb l → al_nodup keqb (take n l).
Proof.
  revert n. induction l as [|[b v] l IH]; intros [|n]; try done. intros [Hb Hl]. cbn.
  split; [by apply al_find_take|by apply IH].
Qed.
End Prefixes.

Section CacheSpec.
Context {Name : Type} `{NL : NameLib Name} `{!NameLaws Name} `{MsgLib Name}.
Context `{SZ : Sizes Name} `{!SizesLaws Name}.
Context {L : Type} `{LL : LruLib (Query Name) (DnsCacheEntry Name) L}.
Context {LLaws : LruLaws query_eqb L}.
Implicit Types (q : Query Name) (e : DnsCacheEntry Name) (r : DnsResponse Name) (c : DnsCache L).

(** ** Sizes *)
Definition size_ok r : Prop := opt_map_or True (fun n => 0 ≤ n) (resp_wire_len r).

Lemma response_memory_nonneg r : size_ok r → 0 ≤ response_memory r.
Proof.
  intros Hr. destruct sizes_nonneg as (? & ? & ? & ? & ? & ?). unfold response_memory, prepared_wire_memory.
  unfold size_ok in Hr.
  assert (0 ≤ opt_unwrap_or (opt_map_or 0 (fun w => Z.of_nat (length w)) (resp_to_vec r)) (resp_wire_len r)).
  { destruct (resp_wire_len r); cbn in *; [done|]. destruct (resp_to_vec r); cbn; lia. }
  assert (0 ≤ opt_map_or 0 (fun g => Z.of_nat (String.length g)) (name_server_group r)).
  { destruct (name_server_group r); cbn; lia. }
  assert (0 ≤ opt_map_or 0 (fun w => Z.of_nat (length w) + 2 * size_usize) (prepared_wire r)).
  { destruct (prepared_wire r); cbn; lia. }
  nia.
Qed.

Lemma measure_memory_nonneg r : size_ok r → 0 ≤ measure_memory r.
Proof.
  intros Hr. pose proof (response_memory_nonneg r Hr). unfold measure_memory.
  destruct sizes_nonneg as (? & ? & ? & ? & ? & ?).
  pose proof (name_len_nonneg (q_name (resp_query r))). lia.
Qed.

Lemma size_ok_set_max_ttl r ttl : size_ok r → size_ok (set_max_ttl r ttl).
Proof. unfold set_max_ttl. by case_match. Qed.

Lemma size_ok_adjust r q ttl : size_ok r → size_ok (adjust_response r q ttl).
Proof. intros Hr. unfold adjust_response. apply size_ok_set_max_ttl. by case_match. Qed.

Lemma size_ok_prepare r : size_ok r → size_ok (prepare_wire r).
Proof. unfold prepare_wire. by case_match. Qed.

(** ** The invariant *)

(** An entry's memory is that of its response and of its retained reply; the
    reply is the response adjusted for some spelling of the query, at the TTL
    of the last reply. *)
Record entry_ok (q : Query Name) (e : DnsCacheEntry Name) : Prop := {
  eo_size : size_ok (e_data e);
  eo_memory : e_memory_usage e = measure_memory (e_data e) + opt_map_or 0 snd (e_ttl_reply e);
  eo_reply reply m : e_ttl_reply e = Some (reply, m) →
    m = response_memory reply + size_ttl_reply ∧
    ∃ q' ttl, query_eqb q q' = true ∧ e_reply_ttl e = Some ttl ∧
      reply = prepare_wire (adjust_response (e_data e) q' ttl);
}.

Definition total_memory (l : list (Query Name * DnsCacheEntry Name)) : Z :=
  sum_list_with_Z (fun x => e_memory_usage x.2) l.

Record items_ok (cap : nat) (l : list (Query Name * DnsCacheEntry Name)) : Prop := {
  io_nodup : al_nodup query_eqb l;
  io_length : (length l ≤ cap)%nat;
  io_entries x : x ∈ l → entry_ok x.1 x.2;
}.

Record cache_inv c : Prop := {
  ci_items : items_ok (lru_cap (dc_cache c)) (lru_items (dc_cache c));
  ci_cap : (0 < lru_cap (dc_cache c))%nat;
  ci_memory : dc_memory_usage c = total_memory (lru_items (dc_cache c));
  ci_budget : 0 < dc_memory_limit c → dc_memory_usage c ≤ dc_memory_limit c;
}.

Lemma reply_memory_nonneg q e : entry_ok q e → 0 ≤ opt_map_or 0 snd (e_ttl_reply e).
Proof.
  intros [Hs _ Hr]. destruct (e_ttl_reply e) as [[reply m]|]; [|done]. cbn.
  destruct (Hr _ _ eq_refl) as (-> & q' & ttl & _ & _ & ->).
  pose proof (response_memory_nonneg (prepare_wire (adjust_response (e_data e) q' ttl))
    (size_ok_prepare _ (size_ok_adjust _ _ _ Hs))).
  destruct sizes_nonneg as (? & ? & ? & ? & ? & ?). lia.
Qed.

Lemma entry_memory_bounds q e :
  entry_ok q e → 0 ≤ opt_map_or 0 snd (e_ttl_reply e) ≤ e_memory_usage e.
Proof.
  intros He. pose proof (reply_memory_nonneg q e He). destruct He as [Hs -> _].
  pose proof (measure_memory_nonneg _ Hs). lia.
Qed.

Lemma total_nonneg cap l : items_ok cap l → 0 ≤ total_memory l.
Proof.
  intros Hl. apply sum_list_nonneg. intros x Hx.
  pose proof (entry_memory_bounds _ _ (io_entries _ _ Hl x Hx)). lia.
Qed.

Lemma items_ok_sub cap l l' :
  items_ok cap l → (∀ x, x ∈ l' → x ∈ l) → al_nodup query_eqb l' → (length l' ≤ length l)%nat →
  items_ok cap l'.
Proof. intros [Hn Hlen He] Hsub Hn' Hlen'. split; [done|lia|auto]. Qed.

Lemma items_ok_take cap l n : items_ok cap l → items_ok cap (take n l).
Proof.
  intros Hl. eapply items_ok_sub; [exact Hl| |apply al_nodup_take, Hl|rewrite length_take; lia].
  intros x (i & Hi & _)%elem_of_take. by eapply list_elem_of_lookup_2.
Qed.

Lemma items_ok_removelast cap l : items_ok cap l → items_ok cap (removelast l).
Proof.
  intros Hl. eapply items_ok_sub; [exact Hl|intros x; apply elem_of_removelast|apply al_nodup_removelast, Hl|].
  rewrite length_removelast. lia.
Qed.

Lemma items_ok_touch cap l q : items_ok cap l → items_ok cap (al_touch query_eqb l q).
Proof.
  intros Hl. eapply items_ok_sub; [exact Hl|intros x; apply elem_of_al_touch| |].
  - apply al_nodup_touch; try key_laws. apply Hl.
  - by rewrite length_al_touch.
Qed.

Lemma items_ok_remove cap l q : items_ok cap l → items_ok cap (al_remove query_eqb l q).
Proof.
  intros Hl. eapply items_ok_sub; [exact Hl|intros x; apply elem_of_al_remove|apply al_nodup_remove, Hl|].
  rewrite length_al_remove. lia.
Qed.

Lemma entry_ok_eqb q q' e : query_eqb q q' = true → entry_ok q e → entry_ok q' e.
Proof.
  intros Hq [Hs Hm Hr]. split; [done..|]. intros reply m Hrep.
  destruct (Hr _ _ Hrep) as (? & p & ttl & Hp & ? & ?). split; [done|]. exists p, ttl.
  split; [|done]. rewrite query_eqb_sym in Hq. by eapply query_eqb_trans.
Qed.

Lemma items_ok_write cap l q e :
  items_ok cap l → entry_ok q e → items_ok cap (al_write query_eqb l q e).
Proof.
  intros Hl He. split.
  - apply al_nodup_write; try key_laws. apply Hl.
  - rewrite length_al_write. apply Hl.
  - intros x [Hx|[-> Hq]]%elem_of_al_write; [by apply Hl|]. eapply entry_ok_eqb; [|exact He].
    by rewrite query_eqb_sym.
Qed.

Lemma found_entry_ok cap l q e : items_ok cap l → al_find query_eqb l q = Some e → entry_ok q e.
Proof.
  intros Hl (q' & Hin & Hq)%al_find_elem. eapply entry_ok_eqb; [exact Hq|]. by apply (io_entries _ _ Hl (q', e)).
Qed.

(** ** Eviction *)

(** Evicting keeps the longest prefix, in order of recency, that fits. *)
Lemma evict_loop_spec limit fuel (l : L) usage cap :
  items_ok cap (lru_items l) → usage = total_memory (lru_items l) →
  (length (lru_items l) < fuel)%nat →
  ∃ n, (n ≤ length (lru_items l))%nat ∧
    let out := evict_loop limit fuel l usage in
    lru_items out.1 = take n (lru_items l) ∧ lru_cap out.1 = lru_cap l ∧
    out.2 = total_memory (take n (lru_items l)) ∧
    (0 < limit → out.2 ≤ limit) ∧
    ((n < length (lru_items l))%nat → limit < total_memory (take (S n) (lru_items l))) ∧
    (limit ≤ 0 → n = length (lru_items l)).
Proof.
  revert l usage. induction fuel as [|fuel IH]; intros l usage Hok Hu Hf; [lia|]. cbn [evict_loop].
  destruct ((0 <? limit) && (limit <? usage)) eqn:E.
  2: { exists (length (lru_items l)). rewrite firstn_all. cbn. split; [lia|]. split; [done|].
       split; [done|]. split; [done|]. split; [lia|]. split; [lia|done]. }
  destruct (lru_pop_lru_spec l) as (H1 & H2 & H3).
  destruct (lru_pop_lru l) as [[[q e]|] l']; cbn [fst snd] in *.
  - symmetry in H1. set (items := lru_items l) in *.
    assert (Hsum : total_memory items = e_memory_usage e + total_memory (removelast items))
      by apply (removelast_sum (fun x => e_memory_usage x.2) _ _ H1).
    assert (He : entry_ok q e).
    { apply (io_entries _ _ Hok (q, e)). apply last_Some in H1 as [k ->]. apply elem_of_app. right. by left. }
    pose proof (entry_memory_bounds _ _ He). pose proof (total_nonneg _ _ (items_ok_removelast _ _ Hok)).
    assert (Hlen : (length (removelast items) < length items)%nat).
    { rewrite length_removelast. destruct items; [done|cbn; lia]. }
    destruct (IH l' (saturating_sub usage (e_memory_usage e))) as (n & Hn & H1' & H2' & H3' & H4' & H5' & _).
    { rewrite H2. by apply items_ok_removelast. }
    { rewrite H2. unfold saturating_sub. lia. }
    { rewrite H2. lia. }
    rewrite H2 in *. assert (Htake : ∀ k, (k ≤ length (removelast items))%nat →
      take k (removelast items) = take k items).
    { intros k Hk. apply last_Some in H1 as [pre Hpre]. rewrite Hpre in *.
      rewrite removelast_last in *. by rewrite take_app_le. }
    exists n. rewrite Htake in * by done. split; [lia|]. split; [done|]. split; [by rewrite H2'|].
    split; [done|]. split; [done|]. split; [|lia]. intros Hlt.
    destruct (decide (n < length (removelast items))%nat) as [Hlt'|Hge].
    + rewrite <- Htake by lia. by apply H5'.
    + assert (S n = length items) as -> by (rewrite length_removelast in *; lia).
      rewrite firstn_all. lia.
  - symmetry in H1. apply last_None in H1. exists 0%nat. rewrite H1 in *. rewrite H2. cbn.
    split; [lia|]. split; [done|]. split; [done|]. split; [done|]. split; [|split; [lia|done]].
    assert (total_memory [] = 0) by done. lia.
Qed.

Lemma evict_spec limit (l : L) usage cap :
  items_ok cap (lru_items l) → usage = total_memory (lru_items l) →
  ∃ n, (n ≤ length (lru_items l))%nat ∧
    let out := evict limit l usage in
    lru_items out.1 = take n (lru_items l) ∧ lru_cap out.1 = lru_cap l ∧
    out.2 = total_memory (take n (lru_items l)) ∧
    (0 < limit → out.2 ≤ limit) ∧
    ((n < length (lru_items l))%nat → limit < total_memory (take (S n) (lru_items l))) ∧
    (limit ≤ 0 → n = length (lru_items l)).
Proof. intros Hok Hu. by apply (evict_loop_spec _ _ _ _ cap); [..|lia]. Qed.

Lemma evict_inv c (l : L) usage :
  items_ok (lru_cap l) (lru_items l) → (0 < lru_cap l)%nat → usage = total_memory (lru_items l) →
  cache_inv (let '(l, usage) := evict (dc_memory_limit c) l usage in cache_with c l usage).
Proof.
  intros Hok Hcap Hu. destruct (evict_spec (dc_memory_limit c) l usage _ Hok Hu) as (n & _ & Hout).
  destruct (evict _ l usage) as [l' usage']. cbn [fst snd] in Hout.
  destruct Hout as (Hi & Hc & Hm & Hb & _ & _).
  split; cbn; rewrite ?Hi, ?Hc; [by apply items_ok_take|done|done|done].
Qed.

(** ** Every operation preserves the invariant *)
Lemma found_memory cap l q e :
  items_ok cap l → al_find query_eqb l q = Some e → e_memory_usage e ≤ total_memory l.
Proof.
  intros Hl Hf. unfold total_memory. rewrite (al_find_sum query_eqb e_memory_usage l q e Hf).
  pose proof (total_nonneg _ _ (items_ok_remove _ _ q Hl)). unfold total_memory in *. lia.
Qed.

Lemma entry_ok_new r until : size_ok r → entry_ok (resp_query r) (entry_new r until).
Proof. intros Hr. by split; cbn; [done|lia|done]. Qed.

Lemma entry_ok_hits q e n : entry_ok q e → entry_ok q (entry_set_hits n e).
Proof. intros [? ? ?]. by split. Qed.

Lemma insert_entry_spec c q entry :
  cache_inv c → entry_ok q entry →
  let out := insert_entry c q entry in
  items_ok (lru_cap (dc_cache c)) (lru_items out.1) ∧ lru_cap out.1 = lru_cap (dc_cache c) ∧
  out.2 = total_memory (lru_items out.1) ∧
  ∃ k n rest, lru_items out.1 = (k, entry_set_hits n entry) :: rest ∧ query_eqb k q = true.
Proof.
  intros [Hi Hcap Hmem Hbud] He. unfold insert_entry.
  destruct (lru_get_mut_spec (keqb := query_eqb) (dc_cache c) q) as (Hf & Ht & Hc).
  set (items := lru_items (dc_cache c)) in *.
  destruct (lru_get_mut (dc_cache c) q) as [[previous|] l]; cbn [fst snd] in *; symmetry in Hf.
  - destruct (lru_write_spec (keqb := query_eqb) l q (entry_set_hits (e_hits previous + 1) entry)) as [Hw Hwc].
    cbn [fst snd]. rewrite Hw, Hwc, Ht, Hc.
    assert (Hft : al_find query_eqb (al_touch query_eqb items q) q = Some previous).
    { rewrite al_find_touch; try key_laws; [done|apply Hi]. }
    pose proof (found_memory _ _ _ _ Hi Hf).
    split; [apply items_ok_write; [by apply items_ok_touch|by apply entry_ok_hits]|]. split; [done|]. split.
    + unfold total_memory. rewrite (al_write_sum query_eqb e_memory_usage _ _ _ _ Hft), al_touch_sum.
      fold (total_memory items). unfold saturating_sub. lia.
    + unfold al_touch. destruct (al_key query_eqb items q) as [k|] eqn:Ek.
      2: { exfalso. destruct (proj2 (al_key_find query_eqb items q)) as [? ?]; [by rewrite Hf|congruence]. }
      rewrite Hf. cbn. rewrite (al_key_eqb _ _ _ _ Ek).
      exists k, (e_hits previous + 1). eexists. split; [done|]. by apply al_key_eqb in Ek.
  - assert (Htouch : al_touch query_eqb items q = items).
    { unfold al_touch. rewrite Hf. by case_match. }
    rewrite Htouch in Ht.
    assert (Hnew : ∀ rest, items_ok (lru_cap (dc_cache c)) rest → al_find query_eqb rest q = None →
      (S (length rest) ≤ lru_cap (dc_cache c))%nat → items_ok (lru_cap (dc_cache c)) ((q, entry) :: rest)).
    { intros rest [Hn Hl Hin] Hr Hlen. split; [done|done|]. intros x [->|Hx]%elem_of_cons; [done|auto]. }
    assert (Heta : entry = entry_set_hits (e_hits entry) entry) by (by destruct entry).
    pose proof (lru_push_spec (keqb := query_eqb) l q entry) as Hp.
    rewrite Ht, Hc in Hp. destruct (Hp Hf) as [Hpc Hpi]. clear Hp.
    destruct (lru_push l q entry) as [l' ev]. cbn [fst snd] in *.
    pose proof (io_length _ _ Hi) as Hlen. fold items in Hlen.
    destruct (Nat.ltb_spec (length items) (lru_cap (dc_cache c))) as [Hlt|Hge];
      destruct Hpi as [Hpi ->]; [|destruct (last items) as [[k' e']|] eqn:El]; cbn [fst snd].
    + rewrite Hpi, Hpc. split; [apply Hnew; [done|done|lia]|]. split; [done|]. split.
      * unfold total_memory. rewrite sum_list_cons. fold (total_memory items). cbn. lia.
      * exists q, (e_hits entry), items. rewrite <- Heta. by rewrite query_eqb_refl.
    + rewrite Hpi, Hpc. split.
      { apply Hnew; [by apply items_ok_removelast|by apply al_find_removelast|].
        rewrite length_removelast. destruct items; [done|cbn in *; lia]. }
      split; [done|]. split.
      * unfold total_memory. rewrite sum_list_cons. fold (total_memory (removelast items)).
        pose proof (removelast_sum (fun x => e_memory_usage x.2) items _ El) as Hsum.
        fold (total_memory items) (total_memory (removelast items)) in Hsum. cbn in *.
        pose proof (total_nonneg _ _ (items_ok_removelast _ _ Hi)).
        destruct (entry_memory_bounds _ _ He). unfold saturating_sub. lia.
      * exists q, (e_hits entry), (removelast items). rewrite <- Heta. by rewrite query_eqb_refl.
    + apply last_None in El. rewrite El in Hge. cbn in Hge. lia.
Qed.

Lemma size_ok_lookup r until group : size_ok r → size_ok (insert_lookup r until group).
Proof. intros Hr. unfold insert_lookup. by case_bool_decide. Qed.

Lemma insert_response_inv c r now ttl group :
  cache_inv c → size_ok r → cache_inv (insert_response c r now ttl group).
Proof.
  intros Hc Hr. unfold insert_response. set (lookup := insert_lookup r _ group).
  assert (He : entry_ok (resp_query lookup) (entry_new lookup (now + secs ttl))).
  { by apply entry_ok_new, size_ok_lookup. }
  pose proof (insert_entry_spec c _ _ Hc He) as Hs.
  destruct (insert_entry c (resp_query lookup) _) as [l usage]. cbn [fst snd] in Hs.
  destruct Hs as (Hi & Hcap & Hu & _). apply evict_inv; rewrite ?Hcap; [done|apply Hc|done].
Qed.

Lemma cache_with_inv c (l : L) usage :
  items_ok (lru_cap (dc_cache c)) (lru_items l) → lru_cap l = lru_cap (dc_cache c) →
  (0 < lru_cap (dc_cache c))%nat → usage = total_memory (lru_items l) →
  (0 < dc_memory_limit c → usage ≤ dc_memory_limit c) → cache_inv (cache_with c l usage).
Proof. intros Hi Hc Hcap Hu Hb. by split; cbn; rewrite ?Hc. Qed.

(** Rewriting one entry through a reference. *)
Lemma write_inv c (l : L) q e e' usage :
  cache_inv c → items_ok (lru_cap (dc_cache c)) (lru_items l) → lru_cap l = lru_cap (dc_cache c) →
  total_memory (lru_items l) = dc_memory_usage c → al_find query_eqb (lru_items l) q = Some e →
  entry_ok q e' → usage = dc_memory_usage c - e_memory_usage e + e_memory_usage e' →
  (0 < dc_memory_limit c → usage ≤ dc_memory_limit c) → cache_inv (cache_with c (lru_write l q e') usage).
Proof.
  intros Hc Hi Hcap Hu Hf He Hus Hb. destruct (lru_write_spec (keqb := query_eqb) l q e') as [Hw Hwc].
  apply cache_with_inv; rewrite ?Hw, ?Hwc; [by apply items_ok_write|done|apply Hc| |done].
  unfold total_memory in *. rewrite (al_write_sum query_eqb e_memory_usage _ _ _ _ Hf). lia.
Qed.

Lemma usize_sub_exact a b : b ≤ a → usize_sub a b = a - b.
Proof. unfold usize_sub. case_match; lia. Qed.

Lemma cache_get_inv c q now : cache_inv c → cache_inv (cache_get c q now).2.
Proof.
  intros Hc. pose proof Hc as [Hi Hcap Hmem Hbud]. unfold cache_get.
  destruct (lru_get_mut_spec (keqb := query_eqb) (dc_cache c) q) as (Hf & Ht & Hc').
  set (items := lru_items (dc_cache c)) in *.
  destruct (lru_get_mut (dc_cache c) q) as [[value|] l]; cbn [fst snd] in *; symmetry in Hf.
  2: { apply cache_with_inv; rewrite ?Ht; [by apply items_ok_touch|done|done| |done].
       unfold total_memory. rewrite al_touch_sum. done. }
  assert (Hft : al_find query_eqb (lru_items l) q = Some value).
  { rewrite Ht, al_find_touch; try key_laws; [done|apply Hi]. }
  assert (Hlok : items_ok (lru_cap (dc_cache c)) (lru_items l)).
  { rewrite Ht. by apply items_ok_touch. }
  assert (Hlm : total_memory (lru_items l) = dc_memory_usage c).
  { rewrite Ht, Hmem. unfold total_memory. by rewrite al_touch_sum. }
  pose proof (found_entry_ok _ _ _ _ Hi Hf) as He. pose proof (entry_memory_bounds _ _ He) as Hb.
  pose proof (found_memory _ _ _ _ Hi Hf) as Hfm. fold items in Hfm.
  destruct (get_drops c value now).
  - destruct (lru_pop_spec (keqb := query_eqb) l q) as (Hp1 & Hp2 & Hp3).
    destruct (lru_pop l q) as [[removed|] l']; cbn [fst snd] in *; [|congruence].
    assert (removed = value) as -> by congruence.
    rewrite usize_sub_exact by lia. apply cache_with_inv; rewrite ?Hp2, ?Hp3; [by apply items_ok_remove|done|done| |].
    + pose proof (al_find_sum query_eqb e_memory_usage _ _ _ Hft). unfold total_memory in *. lia.
    + intros ?. specialize (Hbud ltac:(done)). lia.
  - destruct (get_ttl c (entry_set_hits (e_hits value + 1) value) now) as [ttl status].
    set (repeated := bool_decide _).
    assert (Hrep : repeated = true → e_reply_ttl value = Some ttl).
    { unfold repeated. by rewrite bool_decide_eq_true. }
    cbn [e_reply_ttl e_ttl_reply e_data e_memory_usage entry_set_hits] in *.
    destruct (if repeated then e_ttl_reply value else None) as [[reply m]|] eqn:Er.
    + destruct repeated; [|done]. eapply write_inv; try done; cbn; [|lia].
      destruct He as [H1 H2 H3]. split; cbn; [done|done|]. rewrite <- Hrep by done. exact H3.
    + set (previous := opt_map_or 0 snd (e_ttl_reply value)) in *.
      rewrite !usize_sub_exact by lia.
      assert (Hm : e_memory_usage value - previous = measure_memory (e_data value)).
      { rewrite (eo_memory _ _ He). fold previous. lia. }
      rewrite Hm. pose proof (measure_memory_nonneg _ (eo_size _ _ He)).
      assert (Hplain : cache_inv (cache_with c (lru_write l q
        (mkEntry (e_data value) (measure_memory (e_data value)) (e_valid_until value)
          (e_is_in_prefetching value) (e_retry_prefetch_at value) (e_hits value + 1) (Some ttl) None))
        (dc_memory_usage c - previous))).
      { eapply write_inv; try done; cbn; [|lia|lia]. split; cbn; [apply He|lia|done]. }
      destruct repeated; [|done]. case_match eqn:Eadm; [|done].
      eapply (write_inv c l q value); [exact Hc|exact Hlok|exact Hc'|exact Hlm|exact Hft| |cbn; lia|].
      * split; cbn; [apply He|lia|]. intros reply m [= <- <-]. split; [done|].
        exists q, ttl. by rewrite query_eqb_refl.
      * rewrite orb_true_iff in Eadm. lia.
Qed.

Lemma entry_ok_prefetching q e b t : entry_ok q e → entry_ok q (entry_set_retry t (entry_set_prefetching b e)).
Proof. intros [? ? ?]. by split. Qed.

(** Operations that only change the refresh marks of one entry. *)
Lemma mark_inv c q e b t :
  cache_inv c → al_find query_eqb (lru_items (dc_cache c)) q = Some e →
  cache_inv (cache_with c (lru_write (dc_cache c) q (entry_set_retry t (entry_set_prefetching b e)))
    (dc_memory_usage c)).
Proof.
  intros Hc Hf. pose proof Hc as [Hi Hcap Hmem Hbud].
  eapply write_inv; try done; [|cbn; lia].
  by apply entry_ok_prefetching, (found_entry_ok _ _ _ _ Hi Hf).
Qed.

Lemma set_prefetching_retry b e :
  entry_set_prefetching b e = entry_set_retry (e_retry_prefetch_at e) (entry_set_prefetching b e).
Proof. done. Qed.

Lemma refresh_inv c q now :
  cache_inv c → cache_inv (finish_prefetch c q now) ∧ cache_inv (begin_refresh c q).2 ∧
    cache_inv (end_refresh c q).
Proof.
  intros Hc. unfold finish_prefetch, begin_refresh, end_refresh. rewrite lru_peek_mut_spec.
  destruct (al_find _ _ q) as [e|] eqn:Hf; [|done].
  destruct (e_is_in_prefetching e); cbn [negb snd];
    split_and!; try done; first [by apply mark_inv|rewrite set_prefetching_retry; by apply mark_inv].
Qed.

Lemma get_expired_inv imin c now ahead : cache_inv c → cache_inv (get_expired imin c now ahead).2.
Proof.
  intros Hc. unfold get_expired. case_bool_decide; [done|]. cbn [snd].
  match goal with |- context [lru_iter_write _ ?g] => set (f := g) end.
  destruct (lru_iter_write_spec (keqb := query_eqb) (dc_cache c) f) as [Hw Hwc].
  destruct Hc as [[Hn Hl He] Hcap Hmem Hbud].
  assert (Hf : ∀ q e, entry_ok q e → entry_ok q (f q e) ∧ e_memory_usage (f q e) = e_memory_usage e).
  { intros q e [? ? ?]. unfold f. case_match; (split; [by split|done]). }
  assert (Hsum : total_memory (lru_items (lru_iter_write (dc_cache c) f)) = total_memory (lru_items (dc_cache c))).
  { rewrite Hw. clear -Hf He. induction (lru_items (dc_cache c)) as [|[q e] l IH]; [done|].
    unfold total_memory in *. cbn [fmap list_fmap]. rewrite !sum_list_cons, IH by (intros; apply He; by right).
    cbn. by rewrite (proj2 (Hf q e (He (q, e) (list_elem_of_here _ _)))). }
  assert (Hfind : ∀ l q, al_find query_eqb ((fun x => (x.1, f x.1 x.2)) <$> l) q = None ↔ al_find query_eqb l q = None).
  { intros l q. induction l as [|[k e] l IH]; [done|]. cbn. by case_match. }
  apply cache_with_inv; rewrite ?Hwc; [|done|done|by rewrite Hsum|done]. rewrite Hw. split.
  - clear -Hn Hfind. induction (lru_items (dc_cache c)) as [|[q e] l IH]; [done|]. destruct Hn as [Hq Hn].
    cbn. split; [by apply Hfind|by apply IH].
  - by rewrite length_fmap.
  - intros x (y & -> & Hy)%list_elem_of_fmap. cbn. apply Hf. by apply He.
Qed.

Lemma flush_inv c : cache_inv c → cache_inv (flush c).
Proof.
  intros [Hi Hcap Hmem Hbud]. destruct (lru_clear_spec (keqb := query_eqb) (dc_cache c)) as [Hcl Hcc].
  apply cache_with_inv; rewrite ?Hcl; [|done..|lia].
  split; [done|cbn; lia|]. intros x Hx. by apply not_elem_of_nil in Hx.
Qed.

(** An entry read from a file. *)
Definition fresh_entry e : Prop :=
  size_ok (e_data e) ∧ e_memory_usage e = measure_memory (e_data e) ∧ e_ttl_reply e = None.

Lemma fresh_entry_ok q e : fresh_entry e → entry_ok q e.
Proof. intros (? & ? & E). split; rewrite ?E; cbn; [done|lia|done]. Qed.

Lemma cache_load_ok (l : L) entries :
  items_ok (lru_cap l) (lru_items l) → (0 < lru_cap l)%nat → Forall fresh_entry entries →
  items_ok (lru_cap l) (lru_items (cache_load l entries)) ∧ lru_cap (cache_load l entries) = lru_cap l.
Proof.
  intros Hi Hcap He. revert l Hi Hcap. induction He as [|e entries He _ IH]; intros l Hi Hcap; [done|].
  cbn. fold (cache_load (lru_put l (resp_query (e_data e)) e) entries).
  destruct (lru_put_spec (keqb := query_eqb) l (resp_query (e_data e)) e) as [Hc Hp].
  set (l' := lru_put l (resp_query (e_data e)) e) in *.
  assert (Hok : items_ok (lru_cap l') (lru_items l')); [|rewrite <- Hc; apply IH; [done|by rewrite Hc]].
  rewrite Hp, Hc. clear IH Hp. set (q := resp_query (e_data e)) in *. set (items := lru_items l) in *.
  pose proof (io_length _ _ Hi) as Hlen.
  assert (Hnew : ∀ k rest, items_ok (lru_cap l) rest → al_find query_eqb rest k = None →
    (S (length rest) ≤ lru_cap l)%nat → items_ok (lru_cap l) ((k, e) :: rest)).
  { intros k rest [Hn Hl Hin] Hr Hln. split; [done|done|]. intros x [->|Hx]%elem_of_cons; [|auto].
    by apply fresh_entry_ok. }
  destruct (al_key query_eqb items q) as [k|] eqn:Ek.
  - assert (is_Some (al_find query_eqb items q)) as [v Hv] by (apply al_key_find; by rewrite Ek).
    apply Hnew; [by apply items_ok_remove| |].
    + rewrite (al_find_eqb query_eqb) with (b := q); try key_laws; [|by apply al_key_eqb in Ek].
      apply al_find_remove_self; try key_laws. apply Hi.
    + rewrite length_al_remove, Hv. destruct items; [done|cbn in *; lia].
  - assert (Hnone : al_find query_eqb items q = None).
    { destruct (al_find query_eqb items q) eqn:Ef; [|done].
      destruct (proj2 (al_key_find query_eqb items q)) as [? ?]; [by rewrite Ef|congruence]. }
    destruct (Nat.ltb_spec (length items) (lru_cap l)).
    + apply Hnew; [done|done|lia].
    + apply Hnew; [by apply items_ok_removelast|by apply al_find_removelast|].
      rewrite length_removelast. destruct items; cbn in *; lia.
Qed.

Lemma load_task_inv c entries : cache_inv c → Forall fresh_entry entries → cache_inv (load_task c entries).
Proof.
  intros [Hi Hcap _ _] He. destruct (cache_load_ok _ _ Hi Hcap He) as [Hok Hc].
  unfold load_task. apply evict_inv; rewrite ?Hc; done.
Qed.
(** ** Reachable states *)
Inductive cache_op :=
| OpInsertResponse (r : DnsResponse Name) (now : Instant) (ttl : Z) (group : string)
| OpGet (q : Query Name) (now : Instant)
| OpFinishPrefetch (q : Query Name) (now : Instant)
| OpBeginRefresh (q : Query Name)
| OpEndRefresh (q : Query Name)
| OpGetExpired (imin now : Instant) (ahead : option Z)
| OpFlush
| OpLoad (entries : list (DnsCacheEntry Name)).

Definition cache_op_apply c (o : cache_op) : DnsCache L :=
  match o with
  | OpInsertResponse r now ttl group => insert_response c r now ttl group
  | OpGet q now => (cache_get c q now).2
  | OpFinishPrefetch q now => finish_prefetch c q now
  | OpBeginRefresh q => (begin_refresh c q).2
  | OpEndRefresh q => end_refresh c q
  | OpGetExpired imin now ahead => (get_expired imin c now ahead).2
  | OpFlush => flush c
  | OpLoad entries => load_task c entries
  end.

Definition cache_op_ok (o : cache_op) : Prop :=
  match o with
  | OpInsertResponse r _ _ _ => size_ok r
  | OpLoad entries => Forall fresh_entry entries
  | _ => True
  end.

(** The states the cache goes through, from a new one. *)
Inductive cache_reach (c0 : DnsCache L) : DnsCache L → Prop :=
| cr_init : cache_reach c0 c0
| cr_step c o : cache_reach c0 c → cache_op_ok o → cache_reach c0 (cache_op_apply c o).

(** A new cache with the configured budget and interval. *)
Definition cache_start (size : Z) (serve_expired : bool) (expired_ttl expired_reply_ttl limit interval : Z)
    : option (DnsCache L) :=
  c ← cache_new size serve_expired expired_ttl expired_reply_ttl;
  Some (mkCache (dc_cache c) (dc_serve_expired c) (dc_expired_ttl c) (dc_expired_reply_ttl c) limit
          (dc_memory_usage c) interval).

Lemma cache_op_inv c o : cache_inv c → cache_op_ok o → cache_inv (cache_op_apply c o).
Proof.
  intros Hc Ho. destruct o as [| |q now|q|q| | |]; cbn in *;
    [by apply insert_response_inv|by apply cache_get_inv|by apply refresh_inv|
     by apply (refresh_inv c q 0)..|by apply get_expired_inv|by apply flush_inv|by apply load_task_inv].
Qed.

Lemma cache_start_inv size se et ert limit interval c :
  0 < size → cache_start size se et ert limit interval = Some c → cache_inv c.
Proof.
  intros Hs. unfold cache_start, cache_new. case_match; [lia|]. intros [= <-].
  split; cbn; rewrite ?lru_items_new, ?lru_cap_new; [|lia|done|lia].
  split; [done|cbn; lia|]. intros x Hx. by apply not_elem_of_nil in Hx.
Qed.

Lemma cache_reach_inv size se et ert limit interval c0 c :
  0 < size → cache_start size se et ert limit interval = Some c0 → cache_reach c0 c → cache_inv c.
Proof.
  intros Hs H0. induction 1 as [|c o _ IH Ho]; [by eapply cache_start_inv|by apply cache_op_inv].
Qed.

Lemma cap_op c o : cache_inv c → cache_op_ok o →
  lru_cap (dc_cache (cache_op_apply c o)) = lru_cap (dc_cache c) ∧
  dc_memory_limit (cache_op_apply c o) = dc_memory_limit c.
Proof.
  intros Hc Ho. destruct o as [r now ttl group|q now|q now|q|q|imin now ahead| |entries]; cbn.
  - unfold insert_response. set (lookup := insert_lookup r _ group).
    pose proof (insert_entry_spec c (resp_query lookup) (entry_new lookup (now + secs ttl)) Hc
      (entry_ok_new _ _ (size_ok_lookup _ _ _ Ho))) as Hs.
    destruct (insert_entry c _ _) as [l usage]. cbn [fst snd] in Hs. destruct Hs as (Hi & Hcap & Hu & _).
    destruct (evict_spec (dc_memory_limit c) l usage _ Hi Hu) as (n & _ & Hout).
    destruct (evict _ l usage) as [l' usage']. cbn in *. by destruct Hout as (_ & -> & _).
  - unfold cache_get. destruct (lru_get_mut_spec (keqb := query_eqb) (dc_cache c) q) as (_ & _ & Hcap).
    destruct (lru_get_mut (dc_cache c) q) as [[value|] l]; cbn in *; [|done].
    destruct (lru_pop_spec (keqb := query_eqb) l q) as (_ & _ & Hpc).
    assert (Hw : ∀ e, lru_cap (lru_write l q e) = lru_cap (dc_cache c)).
    { intros e. destruct (lru_write_spec (keqb := query_eqb) l q e) as [_ ->]. done. }
    repeat (case_match; simplify_eq; cbn in *); rewrite ?Hw; split; congruence.
  - unfold finish_prefetch. destruct (lru_peek_mut _ q) as [d|]; [|done]; case_match; cbn; try done.
    by destruct (lru_write_spec (keqb := query_eqb) (dc_cache c) q
      (entry_set_retry (Some (now + secs (Z.max (dc_prefetch_time c) 1))) (entry_set_prefetching false d))) as [_ ->].
  - unfold begin_refresh. destruct (lru_peek_mut _ q) as [d|]; [|done]. case_match; cbn; try done.
    by destruct (lru_write_spec (keqb := query_eqb) (dc_cache c) q (entry_set_prefetching true d)) as [_ ->].
  - unfold end_refresh. destruct (lru_peek_mut _ q) as [d|]; [|done]. cbn.
    by destruct (lru_write_spec (keqb := query_eqb) (dc_cache c) q (entry_set_prefetching false d)) as [_ ->].
  - unfold get_expired. case_bool_decide; cbn; [done|].
    match goal with |- context [lru_iter_write _ ?g] =>
      by destruct (lru_iter_write_spec (keqb := query_eqb) (dc_cache c) g) as [_ ->] end.
  - by destruct (lru_clear_spec (keqb := query_eqb) (dc_cache c)) as [_ ->].
  - destruct Hc as [Hi Hcap _ _]. destruct (cache_load_ok _ _ Hi Hcap Ho) as [Hok Hlc].
    unfold load_task. rewrite <- Hlc in Hok.
    destruct (evict_spec (dc_memory_limit c) (cache_load (dc_cache c) entries) _ _ Hok eq_refl) as (n & _ & Hout).
    destruct (evict _ _ _) as [l' usage']. cbn in *. destruct Hout as (_ & -> & _). done.
Qed.

Lemma cache_reach_cap size se et ert limit interval c0 c :
  0 < size → cache_start size se et ert limit interval = Some c0 → cache_reach c0 c →
  lru_cap (dc_cache c) = Z.to_nat size ∧ dc_memory_limit c = limit.
Proof.
  intros Hs H0 Hr. induction Hr as [|c o Hr IH Ho].
  - revert H0. unfold cache_start, cache_new. case_match; [lia|]. intros [= <-]. cbn.
    by rewrite lru_cap_new.
  - destruct (cap_op c o) as [-> ->]; [by eapply cache_reach_inv|done|done].
Qed.

(** C5: in every state the cache can reach, by any interleaving of lookups,
    insertions, refreshes, prefetch rounds, flushes and the loading of a saved
    copy: at most the configured number of entries, one for each query; the
    memory counter is exactly the sum over the entries, each charged for its
    response and its retained reply, so no subtraction from it ever wraps; and
    the counter is within the configured budget. *)
Theorem cache_accounting (size : Z) (se : bool) (et ert limit interval : Z) (c0 c : DnsCache L) :
  0 < size → cache_start size se et ert limit interval = Some c0 → cache_reach c0 c →
  Z.of_nat (cache_len c) ≤ size ∧ al_nodup query_eqb (lru_items (dc_cache c)) ∧
  memory_bytes c = sum_list_with_Z
    (fun x => measure_memory (e_data x.2) + opt_map_or 0 snd (e_ttl_reply x.2)) (lru_items (dc_cache c)) ∧
  0 ≤ memory_bytes c ∧ (0 < limit → memory_bytes c ≤ limit).
Proof.
  intros Hs H0 Hr. pose proof (cache_reach_inv _ _ _ _ _ _ _ _ Hs H0 Hr) as [Hi Hcap Hm Hb].
  destruct (cache_reach_cap _ _ _ _ _ _ _ _ Hs H0 Hr) as [Hc Hlim].
  pose proof (io_length _ _ Hi) as Hlen. pose proof (total_nonneg _ _ Hi) as Hnn.
  unfold cache_len, memory_bytes. split; [lia|]. split; [apply Hi|]. split.
  - rewrite Hm. pose proof (io_entries _ _ Hi) as He. clear -He. unfold total_memory.
    induction (lru_items (dc_cache c)) as [|x l IH]; [done|]. rewrite !sum_list_cons, IH by (intros; apply He; by right).
    by rewrite (eo_memory _ _ (He x (list_elem_of_here _ _))).
  - split; [lia|]. by rewrite <- Hlim.
Qed.

(** ** What a lookup returns *)
Lemma cache_get_result c q now :
  cache_inv c →
  (cache_get c q now).1 =
  match al_find query_eqb (lru_items (dc_cache c)) q with
  | Some e =>
      if get_drops c e now then None
      else let '(ttl, status) := get_ttl c e now in
           match (if bool_decide (e_reply_ttl e = Some ttl) then e_ttl_reply e else None) with
           | Some (reply, _) => Some (reply, status)
           | None =>
               let res := adjust_response (e_data e) q ttl in
               Some (if bool_decide (e_reply_ttl e = Some ttl) then prepare_wire res else res, status)
           end
  | None => None
  end.
Proof.
  intros Hc. unfold cache_get. destruct (lru_get_mut_spec (keqb := query_eqb) (dc_cache c) q) as (Hf & _ & _).
  destruct (lru_get_mut (dc_cache c) q) as [[value|] l]; cbn [fst snd] in *; rewrite <- Hf; [|done].
  destruct (get_drops c value now); [by destruct (lru_pop l q) as [[|] ?]|].
  change (get_ttl c (entry_set_hits (e_hits value + 1) value) now) with (get_ttl c value now).
  destruct (get_ttl c value now) as [ttl status]. cbn [e_reply_ttl e_ttl_reply entry_set_hits e_data].
  destruct (bool_decide _); [|done]. destruct (e_ttl_reply value) as [[reply m]|]; [done|].
  by case_match.
Qed.

Lemma prepare_wire_message r : resp_message (prepare_wire r) = resp_message r.
Proof. unfold prepare_wire. by case_match. Qed.

Lemma prepare_wire_group r : name_server_group (prepare_wire r) = name_server_group r.
Proof. unfold prepare_wire. by case_match. Qed.

Lemma set_max_ttl_group r ttl : name_server_group (set_max_ttl r ttl) = name_server_group r.
Proof. unfold set_max_ttl. by case_match. Qed.

Lemma adjust_group r q ttl : name_server_group (adjust_response r q ttl) = name_server_group r.
Proof. unfold adjust_response. rewrite set_max_ttl_group. by case_match. Qed.

Lemma adjust_bound r q ttl x : x ∈ all_records (adjust_response r q ttl) → rr_ttl_secs x ≤ ttl.
Proof. apply set_max_ttl_bound. Qed.

(** C7: what a lookup serves. The answer is always the stored response of an
    entry for the query, with its TTLs clipped, whether it was computed now or
    retained from an earlier reply (then for some spelling of the same name);
    every TTL in it is at most the time the entry has left, or the configured
    reply TTL when it has expired; a response is served after its deadline only
    when serving expired responses is on, within the configured time, and
    never a negative one. *)
Theorem cache_get_serves (size : Z) (se : bool) (et ert limit interval : Z) (c0 c : DnsCache L)
    (q : Query Name) (now : Instant) (res : DnsResponse Name) (status : CacheStatus) :
  0 < size → cache_start size se et ert limit interval = Some c0 → cache_reach c0 c →
  (cache_get c q now).1 = Some (res, status) →
  ∃ e q' ttl, al_find query_eqb (lru_items (dc_cache c)) q = Some e ∧ query_eqb q q' = true ∧
    resp_message res = resp_message (adjust_response (e_data e) q' ttl) ∧
    name_server_group res = name_server_group (e_data e) ∧
    (∀ x, x ∈ all_records res → rr_ttl_secs x ≤ ttl) ∧
    match status with
    | Valid => now ≤ e_valid_until e ∧ ttl = as_u32 (as_secs (e_valid_until e - now))
    | Expired => e_valid_until e < now ∧ ttl = as_u32 (dc_expired_reply_ttl c) ∧
        dc_serve_expired c = true ∧ negative_response_ttl (e_data e) = None ∧
        (0 < dc_expired_ttl c → now - e_valid_until e ≤ secs (dc_expired_ttl c))
    end.
Proof.
  intros Hs H0 Hr Hget. pose proof (cache_reach_inv _ _ _ _ _ _ _ _ Hs H0 Hr) as Hc.
  rewrite cache_get_result in Hget by done.
  destruct (al_find query_eqb (lru_items (dc_cache c)) q) as [e|] eqn:Hf; [|done].
  destruct (get_drops c e now) eqn:Hd; [done|]. unfold get_drops, entry_is_current in Hd.
  destruct (get_ttl c e now) as [ttl st] eqn:Ht.
  assert (Hst : match st with
    | Valid => now ≤ e_valid_until e ∧ ttl = as_u32 (as_secs (e_valid_until e - now))
    | Expired => e_valid_until e < now ∧ ttl = as_u32 (dc_expired_reply_ttl c) ∧
        dc_serve_expired c = true ∧ negative_response_ttl (e_data e) = None ∧
        (0 < dc_expired_ttl c → now - e_valid_until e ≤ secs (dc_expired_ttl c))
    end).
  { revert Ht. unfold get_ttl, entry_is_current, entry_ttl in *.
    destruct (Z.leb_spec now (e_valid_until e)); intros [= <- <-].
    - by rewrite Z.max_r by lia.
    - cbn [negb andb] in Hd. rewrite !orb_false_iff in Hd. destruct Hd as ((Hn & Hse) & Hex).
      destruct (negative_response_ttl (e_data e)); [done|]. destruct (dc_serve_expired c); [|done].
      split_and!; try done. intros ?. lia. }
  pose proof (found_entry_ok _ _ _ _ (ci_items _ Hc) Hf) as He.
  assert (Hfresh : ∀ q', query_eqb q q' = true →
    res = adjust_response (e_data e) q' ttl ∨ res = prepare_wire (adjust_response (e_data e) q' ttl) →
    st = status →
    ∃ e0 q' ttl, Some e = Some e0 ∧ query_eqb q q' = true ∧
      resp_message res = resp_message (adjust_response (e_data e0) q' ttl) ∧
      name_server_group res = name_server_group (e_data e0) ∧
      (∀ x, x ∈ all_records res → rr_ttl_secs x ≤ ttl) ∧
      match status with
      | Valid => now ≤ e_valid_until e0 ∧ ttl = as_u32 (as_secs (e_valid_until e0 - now))
      | Expired => e_valid_until e0 < now ∧ ttl = as_u32 (dc_expired_reply_ttl c) ∧
          dc_serve_expired c = true ∧ negative_response_ttl (e_data e0) = None ∧
          (0 < dc_expired_ttl c → now - e_valid_until e0 ≤ secs (dc_expired_ttl c))
      end).
  { intros q' Hq' Hres <-. exists e, q', ttl. split; [done|]. split; [done|].
    assert (Hmsg : resp_message res = resp_message (adjust_response (e_data e) q' ttl)).
    { destruct Hres as [->| ->]; [done|apply prepare_wire_message]. }
    split; [done|]. split; [|split; [|exact Hst]].
    - destruct Hres as [->| ->]; rewrite ?prepare_wire_group; apply adjust_group.
    - intros x. unfold all_records, answers, authorities, additionals. rewrite Hmsg. apply adjust_bound. }
  destruct (bool_decide (e_reply_ttl e = Some ttl)) eqn:Erep.
  - destruct (e_ttl_reply e) as [[reply m]|] eqn:Er.
    + injection Hget as <- <-. destruct (eo_reply _ _ He _ _ Er) as (_ & q' & ttl' & Hq' & Hrt & Hreply).
      apply bool_decide_eq_true in Erep. assert (ttl' = ttl) as -> by congruence.
      apply (Hfresh q'); auto.
    + injection Hget as <- <-. apply (Hfresh q); [apply query_eqb_refl|by right|done].
  - injection Hget as <- <-. apply (Hfresh q); [apply query_eqb_refl|by left|done].
Qed.

Lemma current_entry c e now :
  now ≤ e_valid_until e →
  get_drops c e now = false ∧ get_ttl c e now = (as_u32 (as_secs (e_valid_until e - now)), Valid).
Proof.
  intros Hn. unfold get_drops, get_ttl, entry_is_current, entry_ttl.
  destruct (Z.leb_spec now (e_valid_until e)); [|lia]. cbn [negb andb]. by rewrite Z.max_r by lia.
Qed.

(** C8: what was inserted is found. A lookup for the same query, in any
    spelling, before the deadline gets the inserted answer under the group it
    was inserted for, with the seconds that are left, provided the answer
    alone fits in the budget. *)
Theorem cache_get_insert (c : DnsCache L) (r : DnsResponse Name) (now now' : Instant) (ttl : Z)
    (group : string) (q : Query Name) :
  cache_inv c → size_ok r → query_eqb q (resp_query r) = true →
  now ≤ now' ≤ now + secs ttl →
  (0 < dc_memory_limit c → measure_memory (insert_lookup r (now + secs ttl) group) ≤ dc_memory_limit c) →
  (cache_get (insert_response c r now ttl group) q now').1 =
  Some (adjust_response (insert_lookup r (now + secs ttl) group) q
          (as_u32 (as_secs (now + secs ttl - now'))), Valid) ∧
  name_server_group (insert_lookup r (now + secs ttl) group) = Some group.
Proof.
  intros Hc Hr Hq Hnow Hfit. pose proof (insert_response_inv c r now ttl group Hc Hr) as Hc'.
  split.
  2: { unfold insert_lookup. by case_bool_decide. }
  rewrite cache_get_result by done. clear Hc'. unfold insert_response.
  set (lookup := insert_lookup r (now + secs ttl) group) in *.
  assert (Hquery : resp_query lookup = resp_query r) by (unfold lookup, insert_lookup; by case_bool_decide).
  pose proof (insert_entry_spec c (resp_query lookup) (entry_new lookup (now + secs ttl)) Hc
    (entry_ok_new _ _ (size_ok_lookup _ _ _ Hr))) as Hs.
  destruct (insert_entry c _ _) as [l usage]. cbn [fst snd] in Hs.
  destruct Hs as (Hi & Hcap & Hu & k & n & rest & Hl & Hk).
  destruct (evict_spec (dc_memory_limit c) l usage _ Hi Hu) as (m & Hm & Hout).
  destruct (evict _ l usage) as [l' usage']. cbn [fst snd] in Hout.
  destruct Hout as (Hl' & _ & _ & _ & Hmin & Hall).
  cbn [dc_cache cache_with]. rewrite Hl', Hl. destruct m as [|m].
  { exfalso. rewrite Hl in Hmin, Hall. cbn [length] in *.
    destruct (Z.ltb_spec 0 (dc_memory_limit c)); [|specialize (Hall ltac:(lia)); lia].
    specialize (Hmin ltac:(lia)). cbn [take] in Hmin. unfold total_memory in Hmin.
    rewrite sum_list_cons in Hmin. change (sum_list_with_Z _ (take 0 rest)) with 0 in Hmin.
    cbn in Hmin. specialize (Hfit ltac:(done)). lia. }
  cbn [take al_find]. rewrite Hquery in Hk. rewrite (query_eqb_trans _ _ _ Hk) by (by rewrite query_eqb_sym).
  set (e := entry_set_hits n _).
  destruct (current_entry c e now') as [Hd Ht]; [cbn; lia|].
  change (get_drops (cache_with c l' usage') e now') with (get_drops c e now').
  change (get_ttl (cache_with c l' usage') e now') with (get_ttl c e now').
  rewrite Hd, Ht. reflexivity.
Qed.
(** ** Refreshing once *)
Lemma begin_refresh_spec c q :
  (begin_refresh c q).1 =
  match al_find query_eqb (lru_items (dc_cache c)) q with
  | Some e => negb (e_is_in_prefetching e)
  | None => false
  end.
Proof.
  unfold begin_refresh. rewrite lru_peek_mut_spec. destruct (al_find _ _ q) as [e|]; [|done].
  by destruct (e_is_in_prefetching e).
Qed.

Lemma get_expired_due imin c now ahead q g :
  (q, g) ∈ (get_expired imin c now ahead).1.1 →
  ∃ e, (q, e) ∈ lru_items (dc_cache c) ∧ e_is_in_prefetching e = false ∧
    (q, entry_set_prefetching true e) ∈ lru_items (dc_cache (get_expired imin c now ahead).2).
Proof.
  unfold get_expired. case_bool_decide; [by intros ?%not_elem_of_nil|]. cbn [fst snd].
  set (check_time := _ + _).
  match goal with |- context [lru_iter_write _ ?g] => set (f := g) end.
  intros (x & [= -> ->] & Hx)%list_elem_of_fmap. rewrite sort_by_perm in Hx.
  apply list_elem_of_omap in Hx as ([q e] & Hin & Hc). cbn in Hc.
  destruct (prefetch_class _ _ _ _) eqn:Ec; try done. injection Hc as <-. cbn. exists e.
  split; [done|]. split.
  - unfold prefetch_class in Ec. case_match; [done|]. by destruct (e_is_in_prefetching e).
  - destruct (lru_iter_write_spec (keqb := query_eqb) (dc_cache c) f) as [-> _].
    apply list_elem_of_fmap. exists (q, e). split; [|done]. unfold f. cbn. by rewrite Ec.
Qed.

Lemma al_find_in (l : list (Query Name * DnsCacheEntry Name)) q e :
  al_nodup query_eqb l → (q, e) ∈ l → al_find query_eqb l q = Some e.
Proof.
  induction l as [|[k v] l IH]; [by intros _ ?%not_elem_of_nil|]. intros [Hk Hn] [[= -> ->]|Hin]%elem_of_cons; cbn.
  - by rewrite query_eqb_refl.
  - destruct (query_eqb k q) eqn:E; [|by apply IH].
    rewrite (al_find_eqb query_eqb) with (b := q) in Hk; try key_laws; [|done]. by rewrite IH in Hk.
Qed.

(** Every entry for a query is marked as being refreshed; there may be none. *)
Definition held (items : list (Query Name * DnsCacheEntry Name)) q : Prop :=
  ∀ x, x ∈ items → query_eqb x.1 q = true → e_is_in_prefetching x.2 = true.

Lemma held_find l q e : al_find query_eqb l q = Some e → held l q → e_is_in_prefetching e = true.
Proof. intros (k & Hin & Hk)%al_find_elem Hh. by apply (Hh (k, e)). Qed.

Lemma held_from_find l q e : al_nodup query_eqb l → al_find query_eqb l q = Some e → e_is_in_prefetching e = true → held l q.
Proof.
  intros Hn Hf He [k v] Hin Hk. cbn in *. apply al_find_in in Hin; [|done].
  rewrite (al_find_eqb query_eqb) with (b := q) in Hin; try key_laws; [|done]. rewrite Hf in Hin. by injection Hin as <-.
Qed.

Lemma held_sub l l' q : (∀ x, x ∈ l' → x ∈ l ∨ query_eqb x.1 q = false ∨ e_is_in_prefetching x.2 = true) → held l q → held l' q.
Proof. intros Hs Hh x Hx Hq. destruct (Hs x Hx) as [Hx'|[Hx'|Hx']]; [by apply Hh|congruence|done]. Qed.

Lemma held_write l q' e q : (query_eqb q' q = true → e_is_in_prefetching e = true) → held l q → held (al_write query_eqb l q' e) q.
Proof.
  intros He. apply held_sub. intros x [Hx|[Hv Hk]]%elem_of_al_write; [by left|right].
  destruct (query_eqb x.1 q) eqn:Ex; [right|by left]. rewrite Hv. apply He. rewrite query_eqb_sym in Hk. by eapply query_eqb_trans.
Qed.

Lemma insert_entry_elem c q' entry x :
  x ∈ lru_items (insert_entry c q' entry).1 → x ∈ lru_items (dc_cache c) ∨ query_eqb x.1 q' = true.
Proof.
  unfold insert_entry. destruct (lru_get_mut_spec (keqb := query_eqb) (dc_cache c) q') as (Hf & Ht & Hcap).
  destruct (lru_get_mut (dc_cache c) q') as [[previous|] l]; cbn [fst snd] in *.
  - destruct (lru_write_spec (keqb := query_eqb) l q' (entry_set_hits (e_hits previous + 1) entry)) as [-> _].
    rewrite Ht. intros [Hx|[_ Hx]]%elem_of_al_write; [|by right]. left. by eapply elem_of_al_touch.
  - assert (Hn : al_find query_eqb (lru_items l) q' = None).
    { rewrite Ht. unfold al_touch. rewrite <- Hf. by case_match. }
    pose proof (lru_push_spec (keqb := query_eqb) l q' entry Hn) as [_ Hp].
    destruct (lru_push l q' entry) as [l' ev]. cbn [fst snd] in *.
    assert (Hi : ∀ y, y ∈ lru_items l → y ∈ lru_items (dc_cache c)) by (intros y; rewrite Ht; apply elem_of_al_touch).
    assert (Hx : lru_items l' = (q', entry) :: lru_items l ∨ lru_items l' = (q', entry) :: removelast (lru_items l)).
    { destruct (_ <? _)%nat; [left|right]; apply Hp. }
    intros Hin. assert (Hin' : x ∈ lru_items l') by (by destruct ev as [[? ?]|]).
    destruct Hx as [Hx|Hx]; rewrite Hx in Hin'; apply elem_of_cons in Hin' as [->|Hin'];
      [right; apply query_eqb_refl|left; by apply Hi|right; apply query_eqb_refl|left; by apply Hi, elem_of_removelast].
Qed.

Lemma cache_load_elem (l : L) entries x :
  x ∈ lru_items (cache_load l entries) → x ∈ lru_items l ∨ ∃ e, e ∈ entries ∧ query_eqb (resp_query (e_data e)) x.1 = true.
Proof.
  revert l. induction entries as [|e entries IH]; intros l; [by left|]. cbn. fold (cache_load (lru_put l (resp_query (e_data e)) e) entries).
  intros [Hx|(e' & He' & Hq)]%IH; [|right; exists e'; split; [by right|done]].
  destruct (lru_put_spec (keqb := query_eqb) l (resp_query (e_data e)) e) as [_ Hp]. rewrite Hp in Hx.
  destruct (al_key query_eqb (lru_items l) (resp_query (e_data e))) as [k|] eqn:Ek.
  - apply elem_of_cons in Hx as [->|Hx]; [right|left; by eapply elem_of_al_remove]. exists e. split; [by left|].
    cbn. rewrite query_eqb_sym. by apply al_key_eqb in Ek.
  - destruct (_ <? _)%nat; apply elem_of_cons in Hx as [->|Hx]; try by (right; exists e; split; [by left|apply query_eqb_refl]).
    + by left.
    + left. by apply elem_of_removelast.
Qed.

(** What takes the mark of a query away: the end of its refresh, an answer stored
    under it, and entries loaded for it. *)
Definition unmarks (o : cache_op) q : bool :=
  match o with
  | OpInsertResponse r _ _ _ => query_eqb (resp_query r) q
  | OpFinishPrefetch q' _ | OpEndRefresh q' => query_eqb q' q
  | OpLoad entries => existsb (fun e => query_eqb (resp_query (e_data e)) q) entries
  | _ => false
  end.
(** An operation lets a task refresh a query. *)
Definition grants (o : cache_op) c q : Prop :=
  match o with
  | OpBeginRefresh q' => query_eqb q' q = true ∧ (begin_refresh c q').1 = true
  | OpGetExpired imin now ahead => ∃ q' g, query_eqb q' q = true ∧ (q', g) ∈ (get_expired imin c now ahead).1.1
  | _ => False
  end.

Lemma evict_elem c (l : L) usage x :
  items_ok (lru_cap l) (lru_items l) → usage = total_memory (lru_items l) →
  x ∈ lru_items (dc_cache (let '(l, usage) := evict (dc_memory_limit c) l usage in cache_with c l usage)) → x ∈ lru_items l.
Proof.
  intros Hok Hu. destruct (evict_spec (dc_memory_limit c) l usage _ Hok Hu) as (n & _ & Hout).
  destruct (evict _ l usage) as [l' usage']. cbn [fst snd dc_cache cache_with] in *. destruct Hout as (-> & _).
  intros (i & Hi & _)%elem_of_take. by eapply list_elem_of_lookup_2.
Qed.

(** The mark stays through every other operation. *)
Lemma held_op c o q :
  cache_inv c → cache_op_ok o → unmarks o q = false → held (lru_items (dc_cache c)) q →
  held (lru_items (dc_cache (cache_op_apply c o))) q.
Proof.
  intros Hc Ho Hu Hh. destruct o as [r now ttl group|q' now|q' now|q'|q'|imin now ahead| |entries]; cbn [cache_op_apply unmarks] in *.
  - revert Hh. apply held_sub. unfold insert_response. set (lookup := insert_lookup r _ group).
    assert (Hq : resp_query lookup = resp_query r) by (unfold lookup, insert_lookup; by case_bool_decide).
    pose proof (insert_entry_spec c _ (entry_new lookup (now + secs ttl)) Hc (entry_ok_new _ _ (size_ok_lookup r _ group Ho))) as Hs.
    pose proof (insert_entry_elem c (resp_query lookup) (entry_new lookup (now + secs ttl))) as He.
    fold lookup in Hs. destruct (insert_entry c (resp_query lookup) _) as [l usage]. cbn [fst snd] in *. destruct Hs as (Hi & Hcap & Hus & _).
    rewrite <- Hcap in Hi. intros x Hx. apply evict_elem in Hx; [|done..]. destruct (He x Hx) as [?|Hk]; [by left|right; left].
    rewrite Hq in Hk. destruct (query_eqb x.1 q) eqn:E; [|done]. rewrite query_eqb_sym in Hk.
    rewrite (query_eqb_trans _ _ _ Hk E) in Hu. done.
  - unfold cache_get. destruct (lru_get_mut_spec (keqb := query_eqb) (dc_cache c) q') as (Hf & Ht & _).
    destruct (lru_get_mut (dc_cache c) q') as [[value|] l]; cbn [fst snd] in *.
    2: { cbn. rewrite Ht. revert Hh. apply held_sub. intros x Hx. left. by eapply elem_of_al_touch. }
    assert (Hl : held (lru_items l) q) by (rewrite Ht; revert Hh; apply held_sub; intros x Hx; left; by eapply elem_of_al_touch).
    assert (Hw : ∀ e', e_is_in_prefetching e' = e_is_in_prefetching value → held (lru_items (lru_write l q' e')) q).
    { intros e' He'. destruct (lru_write_spec (keqb := query_eqb) l q' e') as [-> _]. apply held_write; [|done]. intros Hqq. rewrite He'.
      symmetry in Hf. apply (held_find (lru_items (dc_cache c)) q'); [done|]. intros x Hx Hxq. apply Hh; [done|]. by eapply query_eqb_trans. }
    destruct (get_drops c value now).
    + destruct (lru_pop_spec (keqb := query_eqb) l q') as (_ & Hp & _).
      destruct (lru_pop l q') as [[removed|] l']; cbn [fst snd dc_cache cache_with] in *; rewrite Hp;
        (revert Hl; apply held_sub; intros x Hx; left; by eapply elem_of_al_remove).
    + destruct (get_ttl _ _ _) as [ttl status]. repeat case_match; cbn [snd dc_cache cache_with]; by apply Hw.
  - unfold finish_prefetch. rewrite lru_peek_mut_spec. destruct (al_find _ _ q') as [e|]; [|done]. destruct (e_is_in_prefetching e); [|done].
    cbn [dc_cache cache_with]. destruct (lru_write_spec (keqb := query_eqb) (dc_cache c) q'
      (entry_set_retry (Some (now + secs (Z.max (dc_prefetch_time c) 1))) (entry_set_prefetching false e))) as [-> _].
    apply held_write; [congruence|done].
  - unfold begin_refresh. rewrite lru_peek_mut_spec. destruct (al_find _ _ q') as [e|]; [|done]. destruct (e_is_in_prefetching e); [done|].
    cbn [negb snd dc_cache cache_with]. destruct (lru_write_spec (keqb := query_eqb) (dc_cache c) q' (entry_set_prefetching true e)) as [-> _].
    by apply held_write.
  - unfold end_refresh. rewrite lru_peek_mut_spec. destruct (al_find _ _ q') as [e|]; [|done].
    cbn [dc_cache cache_with]. destruct (lru_write_spec (keqb := query_eqb) (dc_cache c) q' (entry_set_prefetching false e)) as [-> _].
    apply held_write; [congruence|done].
  - unfold get_expired. case_bool_decide; [done|]. cbn [snd dc_cache cache_with].
    match goal with |- context [lru_iter_write _ ?g] => set (f := g) end.
    destruct (lru_iter_write_spec (keqb := query_eqb) (dc_cache c) f) as [-> _].
    intros x (y & -> & Hy)%list_elem_of_fmap Hq. cbn in *. specialize (Hh y Hy Hq). unfold f. by case_match.
  - cbn. destruct (lru_clear_spec (keqb := query_eqb) (dc_cache c)) as [-> _]. by intros x ?%not_elem_of_nil.
  - revert Hh. apply held_sub. destruct Hc as [Hi Hcap _ _]. destruct (cache_load_ok _ _ Hi Hcap Ho) as [Hok Hcl]. rewrite <- Hcl in Hok.
    intros x Hx. unfold load_task in Hx. apply evict_elem in Hx; [|done..].
    apply cache_load_elem in Hx as [?|(e & He & Hk)]; [by left|right; left].
    destruct (query_eqb x.1 q) eqn:E; [|done]. rewrite <- Hu. symmetry. apply existsb_exists. exists e. split; [by apply list_elem_of_In|].
    by eapply query_eqb_trans.
Qed.

Lemma held_ops c ops q :
  cache_inv c → Forall cache_op_ok ops → Forall (fun o => unmarks o q = false) ops → held (lru_items (dc_cache c)) q →
  held (lru_items (dc_cache (fold_left cache_op_apply ops c))) q.
Proof.
  revert c. induction ops as [|o ops IH]; intros c Hc Ho Hu Hh; [done|]. apply Forall_cons in Ho as [Ho Hos], Hu as [Hu Hus].
  cbn [fold_left]. apply IH; [by apply cache_op_inv|done..|by apply held_op].
Qed.

(** A grant marks the entry, and a marked entry is not granted. *)
Lemma grant_held c o q : cache_inv c → grants o c q → held (lru_items (dc_cache (cache_op_apply c o))) q.
Proof.
  intros Hc. assert (Heq : ∀ l q', query_eqb q' q = true → held l q' → held l q).
  { intros l q' Hq Hh x Hx Hxq. apply Hh; [done|]. rewrite query_eqb_sym in Hq. by eapply query_eqb_trans. }
  destruct o as [| | |q'| |imin now ahead| |]; try done; cbn [grants cache_op_apply].
  - intros [Hq Hb]. apply (Heq _ q' Hq). pose proof (proj1 (proj2 (refresh_inv c q' 0 Hc))) as Hc'.
    revert Hc'. rewrite begin_refresh_spec in Hb. unfold begin_refresh. rewrite lru_peek_mut_spec.
    destruct (al_find _ _ q') as [e|] eqn:Hf; [|done]. rewrite Hb. cbn [snd dc_cache cache_with]. intros Hc'.
    apply (held_from_find _ _ (entry_set_prefetching true e)); [apply Hc'| |done]. cbn [dc_cache cache_with].
    destruct (lru_write_spec (keqb := query_eqb) (dc_cache c) q' (entry_set_prefetching true e)) as [-> _].
    rewrite al_find_write; try key_laws. by rewrite query_eqb_refl, Hf.
  - intros (q' & g & Hq & Hin). apply (Heq _ q' Hq). apply get_expired_due in Hin as (e & _ & _ & Hout).
    pose proof (get_expired_inv imin c now ahead Hc) as Hc'.
    apply (held_from_find _ _ (entry_set_prefetching true e)); [apply Hc'| |done]. apply al_find_in; [apply Hc'|done].
Qed.

Lemma held_denies c o q : held (lru_items (dc_cache c)) q → ¬ grants o c q.
Proof.
  intros Hh. destruct o as [| | |q'| |imin now ahead| |]; cbn [grants]; try by intros [].
  - intros [Hq Hb]. rewrite begin_refresh_spec in Hb. destruct (al_find _ _ q') as [e|] eqn:Hf; [|done].
    rewrite (held_find _ _ _ Hf) in Hb; [done|]. intros x Hx Hxq. apply Hh; [done|]. by eapply query_eqb_trans.
  - intros (q' & g & Hq & Hin). apply get_expired_due in Hin as (e & Hin & He & _). specialize (Hh _ Hin Hq). cbn in Hh. congruence.
Qed.

(** Of the entries of a round at most one is for a query. *)
Lemma round_once imin c now ahead q :
  cache_inv c → (length (List.filter (fun x => query_eqb x.1 q) (get_expired imin c now ahead).1.1) ≤ 1)%nat.
Proof.
  intros Hc. pose proof (io_nodup _ _ (ci_items _ Hc)) as Hn. unfold get_expired. case_bool_decide; [cbn; lia|]. cbn [fst snd].
  match goal with |- context [sort_by ?le ?l] => set (due := l); set (cmp := le) end.
  assert (Hlen : ∀ l : list (Query Name * Z * option string),
    length (List.filter (fun x => query_eqb x.1 q) ((fun x => (x.1.1, x.2)) <$> l)) = length (List.filter (fun x => query_eqb x.1.1 q) l)).
  { induction l as [|x l IH]; [done|]. cbn. destruct (query_eqb _ q); cbn; by rewrite IH. }
  rewrite Hlen.
  assert (Hperm : ∀ l l' : list (Query Name * Z * option string), l ≡ₚ l' →
    length (List.filter (fun x => query_eqb x.1.1 q) l) = length (List.filter (fun x => query_eqb x.1.1 q) l')).
  { induction 1; cbn; repeat case_match; cbn; congruence. }
  rewrite (Hperm _ _ (sort_by_perm cmp due)). subst due. clear cmp Hlen Hperm.
  assert (Hmost : ∀ l : list (Query Name * DnsCacheEntry Name), al_nodup query_eqb l →
    (length (List.filter (fun x => query_eqb x.1 q) l) ≤ 1)%nat).
  { induction l as [|[k e] l IH]; [cbn; lia|]. intros [Hk Hl]. cbn. destruct (query_eqb k q) eqn:E; [|by apply IH]. cbn.
    rewrite (al_find_eqb query_eqb) with (b := q) in Hk; try key_laws; [|done].
    assert (List.filter (fun x : Query Name * DnsCacheEntry Name => query_eqb x.1 q) l = []) as ->; [|done].
    clear -Hk. induction l as [|[k e] l IH]; [done|]. cbn in *. destruct (query_eqb k q); [done|by apply IH]. }
  specialize (Hmost _ Hn). etrans; [|exact Hmost]. clear. induction (lru_items (dc_cache c)) as [|[k e] l IH]; [done|].
  cbn. destruct (prefetch_class _ _ _ _); cbn; destruct (query_eqb k q); cbn; lia.
Qed.

(** C6: between two grants to refresh a query, whether to a lookup whose speed check
    goes on or by a round of prefetching, its mark is taken away: by the end of its
    refresh, by an answer stored for it, which may come from another query while
    the refresh still runs, or by entries loaded for it; and a round hands a query
    out at most once. *)
Theorem refresh_exclusive (c : DnsCache L) (q : Query Name) (o1 o2 : cache_op) (ops : list cache_op) :
  cache_inv c → Forall cache_op_ok (o1 :: ops) →
  grants o1 c q → grants o2 (fold_left cache_op_apply ops (cache_op_apply c o1)) q →
  (∃ o, o ∈ ops ∧ unmarks o q = true) ∧
  ∀ imin now ahead, o1 = OpGetExpired imin now ahead →
    length (List.filter (fun x => query_eqb x.1 q) (get_expired imin c now ahead).1.1) = 1%nat.
Proof.
  intros Hc [Ho Hos]%Forall_cons H1 H2. split.
  - destruct (existsb (fun o => unmarks o q) ops) eqn:E.
    { apply existsb_exists in E as (o & Hin & Hu). exists o. split; [by apply list_elem_of_In|done]. }
    exfalso. apply (held_denies _ _ _ (held_ops (cache_op_apply c o1) ops q (cache_op_inv _ _ Hc Ho) Hos
      ltac:(apply Forall_forall; intros o Hin; destruct (unmarks o q) eqn:Eu; [|done];
            rewrite <- E; symmetry; apply existsb_exists; exists o; split; [by apply list_elem_of_In|done])
      (grant_held _ _ _ Hc H1)) H2).
  - intros imin now ahead ->. pose proof (round_once imin c now ahead q Hc). destruct H1 as (q' & g & Hq & Hin).
    assert (Hf : (q', g) ∈ List.filter (fun x : Query Name * option string => query_eqb x.1 q) (get_expired imin c now ahead).1.1).
    { apply list_elem_of_In, filter_In. split; [by apply list_elem_of_In|done]. }
    destruct (List.filter _ _); [by apply not_elem_of_nil in Hf|cbn in *; lia].
Qed.

(** ** Loading a saved copy *)

(** A saved copy is written most recent first and read back by inserting in
    that order, so the restored cache has the same entries in the opposite order of
    recency: what was used last before the restart is evicted first after it. *)
Theorem load_reverses_recency (l : L) (cap : nat) :
  al_nodup query_eqb (lru_items l) → (length (lru_items l) ≤ cap)%nat →
  (∀ x, x ∈ lru_items l → resp_query (e_data x.2) = x.1) →
  lru_items (cache_load (lru_new cap) (persist_entries l)) = reverse (lru_items l).
Proof.
  intros Hn Hlen Hq. unfold cache_load, persist_entries.
  assert (Hgen : ∀ (items : list (Query Name * DnsCacheEntry Name)) (l0 : L),
    al_nodup query_eqb items → (∀ x, x ∈ items → resp_query (e_data x.2) = x.1) →
    (∀ x, x ∈ items → al_find query_eqb (lru_items l0) x.1 = None) →
    (length (lru_items l0) + length items ≤ lru_cap l0)%nat →
    lru_items (fold_left (fun l e => lru_put l (resp_query (e_data e)) e) (items.*2) l0) =
    reverse items ++ lru_items l0).
  { clear Hn Hlen Hq l cap. induction items as [|[q e] items IH]; intros l0 Hn Hq Hf Hlen; [done|].
    destruct Hn as [Hqn Hn]. cbn [fmap list_fmap fold_left length snd] in *.
    pose proof (Hq (q, e) (list_elem_of_here _ _)) as Hqe. cbn in Hqe. rewrite Hqe.
    destruct (lru_put_spec (keqb := query_eqb) l0 q e) as [Hc Hp].
    pose proof (Hf (q, e) (list_elem_of_here _ _)) as Hfq. cbn in Hfq.
    assert (al_key query_eqb (lru_items l0) q = None) as Ek.
    { destruct (al_key query_eqb (lru_items l0) q) eqn:Ek; [|done].
      destruct (proj1 (al_key_find query_eqb (lru_items l0) q)) as [? ?]; [by rewrite Ek|congruence]. }
    rewrite Ek in Hp. destruct (Nat.ltb_spec (length (lru_items l0)) (lru_cap l0)); [|lia].
    rewrite IH; [|done|intros; apply Hq; by right| |rewrite Hp, Hc; cbn; lia].
    - rewrite Hp, reverse_cons, <- app_assoc. done.
    - intros x Hx. rewrite Hp. cbn. destruct (query_eqb q x.1) eqn:E.
      + destruct x as [k v]. apply al_find_in in Hx; [|done]. cbn in *.
        rewrite (al_find_eqb query_eqb) with (b := k) in Hqn; try key_laws; [|done]. congruence.
      + apply Hf. by right. }
  rewrite Hgen; [by rewrite lru_items_new, app_nil_r|done|done| |].
  - intros x _. by rewrite lru_items_new.
  - by rewrite lru_items_new, lru_cap_new.
Qed.
End CacheSpec.
