(* ===== verification/CacheMw.v ===== *)
(** * The cache middleware ([DnsCacheMiddleware] in [dns_mw_cache.rs])

    How a query uses the cache: when it is skipped, when a cached answer is
    served and a background query started, what is stored; the background
    completion of a fastest-response lookup. Tasks the code spawns are returned as
    a list of effects. *)

From S2P Require Import Prelude Names DomainMap Config DomainRule DomainRuleTree IpSet Message Runtime Context Calls Samples AddressMw Lru Cache CacheSpec.

Section CacheMw.
Context {Name : Type} `{NL : NameLib Name} `{MsgLib Name} `{SZ : Sizes Name}.
Context {L : Type} `{LL : LruLib (Query Name) (DnsCacheEntry Name) L}.
Context {RM : Type → Type} `{RangeMapLib RM} `{NetL : NetLib}.
Context {Fut : Type}.

Abbreviation Ctx := (DnsContext Name RM Fut).
Abbreviation Res := (result (DnsResponse Name) (LookupError Name)).
Implicit Types (ctx : Ctx) (req : DnsRequest Name) (c : DnsCache L).

(** What the middleware starts. *)
Inductive Effect :=
| EfBackground (q : Query Name) (opts : ServerOpts)
| EfSpeedCheck (q : Query Name) (limits : TtlLimits) (group : string) (lookup : Fut)
| EfNotifyAfter (d : Z).

(** The state a query runs in: its context, and the cache all queries share. *)
Definition World : Type := Ctx * DnsCache L.

(** [finish_speed_check], up to the spawned task. *)
Definition finish_speed_check ctx c (q : Query Name) (lookup : Fut) : DnsCache L * list Effect :=
  let '(granted, c) := begin_refresh c q in
  if granted
  then (c, [EfSpeedCheck q (rr_ttl_limits ctx) (server_group_name ctx) lookup])
  else (c, []).

(** The spawned task, once the lookup has finished. *)
Definition speed_check_done (cfg : RuntimeConfig Name RM) c (q : Query Name) (limits : TtlLimits)
    (group : string) (lookup : Res) (now : Instant) : DnsCache L * list Effect :=
  let '(c, effects) :=
    match lookup with
    | Ok lookup =>
        if existsb (fun r => rr_type r =? q_type q) (answers lookup)
           && negb (has_bogus_address cfg lookup)
        then let ttl := limits_apply limits (opt_unwrap_or 0 (min_ttl lookup)) in
             (insert_response c lookup now ttl group,
              if prefetch_domain cfg then [EfNotifyAfter (secs ttl)] else [])
        else (c, [])
    | Err _ => (c, [])
    end in
  (end_refresh c q, effects).

(** Whether a query bypasses the cache. *)
Definition skips_cache ctx req : bool :=
  no_cache (ctx_server_opts ctx) || ctx_no_cache ctx || is_dnssec req.

(** A cached answer is served when it is for the query's server group and is
    valid, or expired while serving expired answers is allowed. *)
Definition serves ctx (cached : option (DnsResponse Name * CacheStatus)) : option (DnsResponse Name * CacheStatus) :=
  match cached with
  | Some (res, status) =>
      if bool_decide (name_server_group res = Some (server_group_name ctx)) then
        match status with
        | Valid => Some (res, status)
        | Expired =>
            let no_serve := no_serve_expired (ctx_server_opts ctx)
                            || opt_unwrap_or false (ctx_rule_get rule_no_serve_expired ctx) in
            if cfg_serve_expired (ctx_cfg ctx) && negb no_serve then Some (res, status) else None
        end
      else None
  | None => None
  end.

(** What is done with the result of the rest of the chain. *)
Definition store_result ctx c req (res : Res) (check : option Fut) (now : Instant)
    : (DnsCache L * Res) * list Effect :=
  let q := req_query req in
  let res :=
    match res with
    | Err error =>
        if is_negative_response error
        then match as_no_records_response now error q with
             | Some response => Ok response
             | None => Err error
             end
        else Err error
    | other => other
    end in
  match res with
  | Err err => ((c, Err err), [])
  | Ok lookup =>
      match negative_response_ttl lookup with
      | Some ttl =>
          let ttl := limits_apply (rr_ttl_limits ctx) ttl in
          if (0 <? ttl) && negb (ctx_no_cache ctx)
          then ((insert_response c lookup now ttl (server_group_name ctx), Ok lookup), [])
          else ((c, Ok lookup), [])
      | None =>
          if forallb (fun r => negb (rr_type r =? q_type q)) (answers lookup)
          then ((c, Ok lookup), [])
          else if ctx_no_cache ctx then ((c, Ok lookup), [])
          else
            let ttl := limits_apply (rr_ttl_limits ctx) <$> min_ttl lookup in
            let c := insert_response c lookup now (opt_unwrap_or 0 ttl) (server_group_name ctx) in
            let '(c, check_effects) :=
              match check with
              | Some check => finish_speed_check ctx c q check
              | None => (c, [])
              end in
            ((c, Ok lookup),
             check_effects ++
             match (if prefetch_domain (ctx_cfg ctx) then ttl else None) with
             | Some ttl => [EfNotifyAfter (secs ttl)]
             | None => []
             end)
      end
  end.

(** [DnsCacheMiddleware::handle], with the clock; while the rest of the chain runs
    other queries may change the cache. *)
Definition cache_run (now : Instant) (w : World) req : Handling Name (Instant * World) (((Instant * World) * Res) * list Effect) :=
  let '(ctx, c) := w in
  if skips_cache ctx req then NextRun (now, (ctx, c)) req (fun w res => Return ((w, res), []))
  else
    let q := req_query req in
    let background := so_is_background (ctx_server_opts ctx) in
    let '(cached, c) := if background then (None, c) else cache_get c q now in
    match serves ctx cached with
    | Some (res, Valid) => Return (((now, (ctx_set_source FromCache ctx, c)), Ok res), [])
    | Some (res, Expired) =>
        Return (((now, (ctx_set_source FromCache ctx, c)), Ok res),
                [EfBackground q (opts_set_background (ctx_server_opts ctx) true)])
    | None =>
        NextRun (now, (ctx, c)) req (fun '(now, (ctx, c)) res =>
          let check := ctx_pending_speed_check ctx in
          let ctx := ctx_set_pending None ctx in
          let '((c, res), effects) := store_result ctx c req res check now in
          Return (((now, (ctx, c)), res), effects))
    end.

(** With a rest of the chain that ends at [t2]. *)
Definition cache_handle (t1 t2 : Instant) (w : World) req
    (next : World → DnsRequest Name → World * Res) : (World * Res) * list Effect :=
  let '((w, res), effects) :=
    answered (fun w req => let '(w, res) := next w.2 req in ((t2, w), res)) (cache_run t1 w req) in
  ((w.2, res), effects).

(** ** Facts *)
(** When a query is answered from the cache: it is not one that skips the
    cache nor a background query, the rest of the chain is not run, the answer
    is the cache's for the query's own server group, and an expired answer goes
    out only if serving expired answers is enabled and neither the listener,
    the client's rule nor the domain's rule forbids it, and together with exactly
    one background query for the same question; a query that is not answered
    from the cache always runs the rest of the chain. *)
Theorem cache_handle_serves (t1 t2 : Instant) ctx c req (next : World → DnsRequest Name → World * Res) :
  skips_cache ctx req = false → so_is_background (ctx_server_opts ctx) = false →
  let out := cache_handle t1 t2 (ctx, c) req next in
  match (cache_get c (req_query req) t1).1 with
  | Some (res, status) =>
      if bool_decide (name_server_group res = Some (server_group_name ctx)) &&
         match status with
         | Valid => true
         | Expired => cfg_serve_expired (ctx_cfg ctx) && negb (no_serve_expired (ctx_server_opts ctx)) &&
             negb (opt_unwrap_or false (ctx_rule_get rule_no_serve_expired ctx))
         end
      then out = (((ctx_set_source FromCache ctx, (cache_get c (req_query req) t1).2), Ok res),
             match status with
             | Valid => []
             | Expired => [EfBackground (req_query req) (opts_set_background (ctx_server_opts ctx) true)]
             end)
      else ∃ c' r, out.1 = (((ctx_set_pending None (next (ctx, (cache_get c (req_query req) t1).2) req).1.1), c'), r)
  | None => ∃ c' r, out.1 = (((ctx_set_pending None (next (ctx, (cache_get c (req_query req) t1).2) req).1.1), c'), r)
  end.
Proof.
  intros Hskip Hbg out. subst out.
  assert (Hout : serves ctx (cache_get c (req_query req) t1).1 = None →
    ∃ c' r, (cache_handle t1 t2 (ctx, c) req next).1 =
              (((ctx_set_pending None (next (ctx, (cache_get c (req_query req) t1).2) req).1.1), c'), r)).
  { intros Hs. unfold cache_handle, cache_run. rewrite Hskip, Hbg.
    destruct (cache_get c (req_query req) t1) as [cached c1]. cbn [fst snd] in *. rewrite Hs. cbn [answered snd].
    destruct (next (ctx, c1) req) as [[ctx' c'] res]. cbn [fst snd].
    destruct (store_result _ _ _ _ _ _) as [[c2 r2] eff]. cbn. eauto. }
  unfold cache_handle, cache_run in *. rewrite Hskip, Hbg in *.
  destruct (cache_get c (req_query req) t1) as [cached c1]. cbn [fst snd] in *.
  unfold serves in *. destruct cached as [[res status]|]; [|by apply Hout].
  case_bool_decide; cbn [andb]; [|by apply Hout].
  destruct status; [done|]. rewrite <- andb_assoc, <- negb_orb.
  destruct (cfg_serve_expired (ctx_cfg ctx) && negb _); [done|by apply Hout].
Qed.

(** What is stored for an answer that came through the chain: a negative
    answer with an SOA for its negative TTL within the limits; an answer to
    the question for its smallest TTL within the limits; nothing when caching
    is off, for other errors and for negative answers without an SOA. A
    negative error becomes a response, other errors pass unchanged. *)
Theorem store_result_stores ctx c req (res : Res) (check : option Fut) (now : Instant) :
  let lookup :=
    match res with
    | Ok lookup => Some lookup
    | Err e => if is_negative_response e then as_no_records_response now e (req_query req) else None
    end in
  let ttl := lookup ← lookup;
    match negative_response_ttl lookup with
    | Some ttl => opt_filter (fun t => 0 <? t) (Some (limits_apply (rr_ttl_limits ctx) ttl))
    | None =>
        if existsb (fun r => rr_type r =? q_type (req_query req)) (answers lookup)
        then Some (opt_map_or 0 (limits_apply (rr_ttl_limits ctx)) (min_ttl lookup)) else None
    end in
  let out := store_result ctx c req res check now in
  out.1.2 = match lookup with Some lookup => Ok lookup | None => res end ∧
  match lookup, ttl with
  | Some lookup, Some ttl =>
      if ctx_no_cache ctx then out.1.1 = c
      else let c1 := insert_response c lookup now ttl (server_group_name ctx) in
           out.1.1 = c1 ∨ (negative_response_ttl lookup = None ∧ is_some check = true ∧
             out.1.1 = (begin_refresh c1 (req_query req)).2)
  | _, _ => out.1.1 = c
  end.
Proof.
  intros lookup ttl out. subst out. unfold store_result.
  assert (Hres : (match res with
    | Err error => if is_negative_response error
        then match as_no_records_response now error (req_query req) with Some response => Ok response | None => Err error end
        else Err error
    | other => other end) = match lookup with Some l => Ok l | None => res end).
  { subst lookup. destruct res as [l|e]; [done|]. destruct (is_negative_response e); [|done].
    by destruct (as_no_records_response now e (req_query req)). }
  rewrite Hres. destruct lookup as [l|] eqn:El.
  2: { subst lookup. destruct res as [l|e]; [done|]. done. }
  subst ttl. cbn [mbind option_bind opt_filter]. destruct (negative_response_ttl l) as [nt|].
  - destruct (Z.ltb_spec 0 (limits_apply (rr_ttl_limits ctx) nt)); cbn [andb];
      destruct (ctx_no_cache ctx); cbn [negb andb fst snd]; auto.
  - assert (Hq : ∀ xs : list (Rr Name), forallb (fun r => negb (rr_type r =? q_type (req_query req))) xs =
      negb (existsb (fun r => rr_type r =? q_type (req_query req)) xs)).
    { induction xs as [|x xs IH]; [done|]. cbn. by rewrite IH, negb_orb. }
    rewrite Hq. destruct (existsb _ (answers l)); cbn [negb]; [|done].
    destruct (ctx_no_cache ctx); [done|].
    assert (Ht : opt_unwrap_or 0 (limits_apply (rr_ttl_limits ctx) <$> min_ttl l) =
      opt_map_or 0 (limits_apply (rr_ttl_limits ctx)) (min_ttl l)) by (by destruct (min_ttl l)).
    rewrite Ht. destruct check as [f|]; cbn [is_some].
    + unfold finish_speed_check. destruct (begin_refresh _ _) as [g c2] eqn:Eb. cbn [fst snd].
      destruct g; cbn [fst snd]; split; auto.
    + cbn [fst snd]. auto.
Qed.
End CacheMw.

(** * The cache at concrete values

    The theorems of the cache applied over the concrete libraries: plain names,
    a list of entries as the LRU cache, sizes of a 64-bit target. *)

#[export] Instance sample_sizes : Sizes PlainName := {
  size_entry := 200; size_query := 80; size_record := 250; size_message := 150; size_usize := 8;
  size_ttl_reply := 100;
  name_len n := Z.of_nat (length (pn_labels n));
}.

#[export] Instance sample_sizes_laws : SizesLaws PlainName.
Proof. split; cbn; lia. Qed.

Abbreviation SampleLru := (ListLru (Query PlainName) (DnsCacheEntry PlainName)).

#[export] Instance sample_lru : LruLib (Query PlainName) (DnsCacheEntry PlainName) SampleLru :=
  list_lru query_eqb.

#[export] Instance sample_lru_laws : LruLaws query_eqb SampleLru := list_lru_laws query_eqb.

(** An empty cache for two entries, with a budget. *)
Definition sample_cache : DnsCache SampleLru := mkCache (mkListLru [] 2) true 0 5 5000 0 60.

Lemma sample_start : cache_start 2 true 0 5 5000 60 = Some sample_cache.
Proof. reflexivity. Qed.

(** After an answer with a TTL of 60 s has been stored at 0. *)
Definition sample_full : DnsCache SampleLru :=
  insert_response sample_cache (sample_resp [1] 60) 0 60 "default".

Lemma sample_full_reach : cache_reach sample_cache sample_full.
Proof.
  apply (cr_step sample_cache sample_cache (OpInsertResponse (sample_resp [1] 60) 0 60 "default"));
    [apply cr_init|exact I].
Qed.

Lemma sample_full_inv : cache_inv sample_full.
Proof. exact (cache_reach_inv 2 true 0 5 5000 60 _ _ ltac:(lia) sample_start sample_full_reach). Qed.

Lemma cache_accounting_witness :
  Z.of_nat (cache_len sample_full) = 1 ∧ 0 < memory_bytes sample_full ∧ memory_bytes sample_full ≤ 5000.
Proof.
  destruct (cache_accounting 2 true 0 5 5000 60 sample_cache sample_full ltac:(lia) sample_start
    sample_full_reach) as (_ & _ & _ & _ & Hb).
  split; [reflexivity|]. split; [vm_compute; reflexivity|]. apply Hb. lia.
Defined.

Lemma cache_get_serves_witness :
  ∃ res, (cache_get sample_full (sample_query TYPE_A) (secs 20)).1 = Some (res, Valid) ∧
    ∀ x, x ∈ all_records res → rr_ttl_secs x ≤ 40.
Proof.
  destruct (cache_get sample_full (sample_query TYPE_A) (secs 20)).1 as [[res status]|] eqn:E;
    [|vm_compute in E; discriminate E].
  assert (status = Valid) as -> by (vm_compute in E; congruence).
  exists res. split; [reflexivity|].
  destruct (cache_get_serves 2 true 0 5 5000 60 sample_cache sample_full (sample_query TYPE_A) (secs 20)
    res Valid ltac:(lia) sample_start sample_full_reach E)
    as (e & q' & ttl & He & _ & _ & _ & Ht & _ & ->).
  intros x Hx. specialize (Ht x Hx). vm_compute in He. injection He as <-. exact Ht.
Defined.

Lemma cache_get_insert_witness :
  (cache_get sample_full (query_of (plain_name "WWW.example.com") TYPE_A) (secs 20)).1 =
  Some (adjust_response (insert_lookup (sample_resp [1] 60) (0 + secs 60) "default")
          (query_of (plain_name "WWW.example.com") TYPE_A) (as_u32 (as_secs (0 + secs 60 - secs 20))), Valid).
Proof.
  apply (cache_get_insert sample_cache (sample_resp [1] 60) 0 (secs 20) 60 "default").
  - exact (cache_start_inv 2 true 0 5 5000 60 _ ltac:(lia) sample_start).
  - exact I.
  - vm_compute. reflexivity.
  - unfold secs. lia.
  - intros _. vm_compute. discriminate.
Defined.

(** The entry is handed out by a round; a client's query stores an answer while it is
    refreshed, and it is granted again. *)
Definition round_due : cache_op (Name := PlainName) := OpGetExpired 0 (secs 200) None.
Definition answer_stored : cache_op (Name := PlainName) := OpInsertResponse (sample_resp [1] 60) (secs 201) 60 "default".

Lemma refresh_exclusive_witness :
  let ops := [OpBeginRefresh (sample_query TYPE_A); answer_stored] in
  grants round_due sample_full (sample_query TYPE_A) ∧
  grants (OpBeginRefresh (sample_query TYPE_A)) (fold_left cache_op_apply ops (cache_op_apply sample_full round_due)) (sample_query TYPE_A) ∧
  (∃ o, o ∈ ops ∧ unmarks o (sample_query TYPE_A) = true).
Proof.
  intros ops.
  assert (H1 : grants round_due sample_full (sample_query TYPE_A)).
  { exists (sample_query TYPE_A), (Some "default"%string). split; [vm_compute; reflexivity|].
    apply list_elem_of_In. vm_compute. by left. }
  assert (H2 : grants (OpBeginRefresh (sample_query TYPE_A))
    (fold_left cache_op_apply ops (cache_op_apply sample_full round_due)) (sample_query TYPE_A)) by (split; vm_compute; reflexivity).
  split; [exact H1|]. split; [exact H2|].
  destruct (refresh_exclusive sample_full (sample_query TYPE_A) round_due (OpBeginRefresh (sample_query TYPE_A)) ops
    sample_full_inv ltac:(repeat constructor) H1 H2) as [Hu _]. exact Hu.
Defined.

(** So two tasks refresh it at a time, though neither has ended. *)
Example refresh_not_single :
  let granted := begin_refresh sample_full (sample_query TYPE_A) in
  let stored := insert_response granted.2 (sample_resp [1] 60) 5 60 "default" in
  granted.1 = true ∧ (begin_refresh granted.2 (sample_query TYPE_A)).1 = false ∧ (begin_refresh stored (sample_query TYPE_A)).1 = true.
Proof. vm_compute. repeat split. Qed.

(** The same after a second answer, for another question. *)
Definition sample_two : DnsCache SampleLru :=
  insert_response sample_full
    (new_with_deadline (sample_query TYPE_AAAA) [mkRr sample_name 60 (RAAAA 1)] 0) 0 60 "default".

Lemma load_reverses_recency_witness :
  fst <$> lru_items (dc_cache sample_two) = [sample_query TYPE_AAAA; sample_query TYPE_A] ∧
  fst <$> lru_items (cache_load (lru_new 2) (persist_entries (dc_cache sample_two))) =
    [sample_query TYPE_A; sample_query TYPE_AAAA].
Proof.
  split; [vm_compute; reflexivity|].
  rewrite (load_reverses_recency (dc_cache sample_two) 2); [vm_compute; reflexivity|..].
  - vm_compute. repeat split.
  - vm_compute. lia.
  - apply Forall_forall. vm_compute. repeat constructor.
Defined.

Lemma cache_handle_serves_witness :
  let ctx := sample_ctx config_default None in
  let next w (_ : DnsRequest PlainName) := (w, Err EIo) in
  ∃ c' res, cache_handle (secs 20) (secs 20) (ctx, sample_full) (sample_req TYPE_A) next =
    (((ctx_set_source FromCache ctx, c'), Ok res), []) ∧ answers res ≠ [].
Proof.
  intros ctx next.
  pose proof (cache_handle_serves (secs 20) (secs 20) ctx sample_full (sample_req TYPE_A) next
    eq_refl eq_refl) as Hs. cbn zeta in Hs.
  destruct (cache_get sample_full (req_query (sample_req TYPE_A)) (secs 20)) as [[[res status]|] c'] eqn:E;
    [|vm_compute in E; discriminate E].
  assert (status = Valid) as -> by (vm_compute in E; congruence).
  assert (Hg : name_server_group res = Some "default") by (vm_compute in E; injection E as <- _; reflexivity).
  exists c', res. cbn [fst snd] in Hs. rewrite Hg in Hs. rewrite bool_decide_true in Hs by reflexivity.
  split; [exact Hs|]. vm_compute in E. injection E as <- _. discriminate.
Defined.
