(* ===== verification/Prefetch.v ===== *)
(** * Prefetching ([start_prefetching], [prefetch_domains] and
      [DomainPrefetchingNotify] in [dns_mw_cache.rs])

    The timer that wakes the prefetch task, the rounds in which it sends queries,
    and the task itself beside all others that use the cache, as a step relation
    with a clock; that an entry is handed to a round in time. *)

From S2P Require Import Prelude Names DomainMap Config DomainRule DomainRuleTree IpSet Message Runtime Context Samples AddressMw Lru Cache CacheSpec CacheMw.

(** ** The prefetch timer ([DomainPrefetchingNotify]) *)

(** The next tick and the wake-ups asked for: at once, or after a duration. *)
Inductive NotifyAction := NotifyNow | NotifyKeep | NotifyLater (d : Z).

Definition notify_after (tick now : Instant) (duration : Z) : Instant * NotifyAction :=
  if duration =? 0 then (tick, NotifyNow)
  else
    let next_tick := now + duration in
    if (now <? tick) && (tick <? next_tick) then (tick, NotifyKeep)
    else (next_tick, NotifyLater duration).

(** A timer runs when some task sleeps until a time not after the tick. *)
Record NotifyState := mkNotify { nt_tick : Instant; nt_pending : list Instant }.

Inductive notify_event := NEAfter (now : Instant) (d : Z) | NEFire (now : Instant).

(** Time moves forward, and a sleeping task fires when its time has come. *)
Inductive notify_step : Instant → NotifyState → notify_event → Instant → NotifyState → Prop :=
| notify_ask t s now d :
    t ≤ now → 0 ≤ d → (∀ w, w ∈ nt_pending s → now ≤ w) →
    notify_step t s (NEAfter now d) now
      match notify_after (nt_tick s) now d with
      | (tick, NotifyLater _) => mkNotify tick ((now + d) :: nt_pending s)
      | (tick, _) => mkNotify tick (nt_pending s)
      end
| notify_fire t s now :
    t ≤ now → now ∈ nt_pending s →
    notify_step t s (NEFire now) now (mkNotify (nt_tick s) (List.filter (fun w => negb (w =? now)) (nt_pending s))).

Inductive notify_reach (start : Instant) : Instant → NotifyState → Prop :=
| nr_init : notify_reach start start (mkNotify start [])
| nr_step t s e t' s' : notify_reach start t s → notify_step t s e t' s' → notify_reach start t' s'.

(** No wake-up is lost: whenever a check is asked for after some duration, then
    a wake-up is pending no later than that, whatever was asked before; and
    while the tick lies ahead a wake-up at the tick is always pending, which
    is what lets a later request be dropped. *)
Theorem notify_never_lost (start t : Instant) (s : NotifyState) (now : Instant) (d : Z) :
  notify_reach start t s → t ≤ now → 0 < d → (∀ w, w ∈ nt_pending s → now ≤ w) →
  (now < nt_tick s → nt_tick s ∈ nt_pending s) ∧
  ∀ s', notify_step t s (NEAfter now d) now s' → ∃ w, w ∈ nt_pending s' ∧ now ≤ w ≤ now + d.
Proof.
  intros Hr Ht Hd Hp.
  assert (Hinv : t < nt_tick s → nt_tick s ∈ nt_pending s).
  { clear Ht Hd Hp now d. induction Hr as [|t s e t' s' _ IH Hs]; intros Hlt; [cbn in *; lia|].
    destruct Hs as [t s now d H1 H2 H3|t s now H1 H2].
    - unfold notify_after in *. destruct (Z.eqb_spec d 0); [apply IH; cbn in *; lia|].
      destruct (Z.ltb_spec now (nt_tick s)); cbn [andb] in *; [|by left].
      destruct (Z.ltb_spec (nt_tick s) (now + d)); cbn in *; [apply IH; lia|by left].
    - cbn in *. apply list_elem_of_In, filter_In. split; [|lia].
      apply list_elem_of_In, IH. lia. }
  split; [intros ?; apply Hinv; lia|]. intros s' Hs. inversion Hs; subst; clear Hs.
  unfold notify_after. destruct (Z.eqb_spec d 0); [lia|].
  destruct (Z.ltb_spec now (nt_tick s)); cbn [andb].
  - destruct (Z.ltb_spec (nt_tick s) (now + d)); cbn.
    + exists (nt_tick s). split; [apply Hinv; lia|lia].
    + exists (now + d). split; [by left|lia].
  - exists (now + d). split; [by left|lia].
Qed.

Lemma notify_never_lost_witness :
  ∃ s, notify_reach 0 3 s ∧ nt_tick s = 10 ∧ 10 ∈ nt_pending s.
Proof.
  assert (Hr : notify_reach 0 3 (mkNotify 10 [10])).
  { eapply nr_step; [apply nr_init|].
    apply (notify_ask 0 (mkNotify 0 []) 3 7); [lia|lia|by intros w ?%not_elem_of_nil]. }
  exists (mkNotify 10 [10]). split; [exact Hr|]. split; [reflexivity|].
  apply (notify_never_lost 0 3 (mkNotify 10 [10]) 3 1 Hr); cbn; [lia|lia| |lia].
  intros w ->%list_elem_of_singleton. lia.
Defined.

Section Prefetch.
Context {Name : Type} `{NL : NameLib Name} `{!NameLaws Name} `{MsgLib Name}.
Context `{SZ : Sizes Name} `{!SizesLaws Name}.
Context {L : Type} `{LL : LruLib (Query Name) (DnsCacheEntry Name) L}.
Context {LLaws : LruLaws query_eqb L}.
Implicit Types (c : DnsCache L) (q : Query Name) (e : DnsCacheEntry Name).

(** ** Prefetch rounds ([prefetch_domains]) *)
Definition MAX_PREFETCH_CONCURRENCY : nat := 16.

(** Batches of at most [n] ([chunks]). *)
Fixpoint chunks {A} (n fuel : nat) (l : list A) : list (list A) :=
  match fuel, l with
  | O, _ | _, [] => []
  | S fuel, _ => take n l :: chunks n fuel (drop n l)
  end.

Definition prefetch_opts (group : option string) : ServerOpts :=
  mkOpts None None None None None group None None None None None None None None None None true.

(** The queries sent, a batch at a time; one batch starts each second. *)
Definition prefetch_batches (domains : list (Query Name * option string))
    : list (list (Query Name * ServerOpts)) :=
  (fun b : list (Query Name * option string) => (fun d => (d.1, prefetch_opts d.2)) <$> b)
    <$> chunks MAX_PREFETCH_CONCURRENCY (length domains) domains.

(** One completed prefetch: the query ran, then the mark is released. *)
Definition prefetch_done c (q : Query Name) (now : Instant) : DnsCache L := finish_prefetch c q now.

(** ** The prefetch task ([start_prefetching]) *)
(** [instant_min] is the earliest instant of the platform, [min_interval] the
    interval between checks, [query_limit] the time after which a query is
    answered or has failed. *)
Variables instant_min min_interval query_limit : Z.

(** Asleep until notified, or in a round that a check at [check] has begun:
    the batches left, the queries under way, and when the next may start. *)
Inductive Phase :=
| PhWaiting
| PhRound (check most_recent : Z) (batches : list (list (Query Name * ServerOpts))) (in_flight : list (Query Name)) (next_tick : Instant).

Record PrefetchState := mkPs {
  ps_now : Instant;
  ps_cache : DnsCache L;
  ps_last_check : Instant;
  ps_tick : Instant;
  ps_pending : list Instant;
  ps_permit : bool;
  ps_phase : Phase;
}.
Implicit Types s : PrefetchState.

Definition ps_set_now now s := mkPs now (ps_cache s) (ps_last_check s) (ps_tick s) (ps_pending s) (ps_permit s) (ps_phase s).
Definition ps_set_cache c s := mkPs (ps_now s) c (ps_last_check s) (ps_tick s) (ps_pending s) (ps_permit s) (ps_phase s).
Definition ps_set_phase ph s := mkPs (ps_now s) (ps_cache s) (ps_last_check s) (ps_tick s) (ps_pending s) (ps_permit s) ph.
Definition ps_set_permit b s := mkPs (ps_now s) (ps_cache s) (ps_last_check s) (ps_tick s) (ps_pending s) b (ps_phase s).

(** [notify_after], called by the task and by the queries that store answers. *)
Definition ps_notify (d : Z) s : PrefetchState :=
  match notify_after (ps_tick s) (ps_now s) d with
  | (_, NotifyNow) => ps_set_permit true s
  | (_, NotifyKeep) => s
  | (tick, NotifyLater d) => mkPs (ps_now s) (ps_cache s) (ps_last_check s) tick ((ps_now s + d) :: ps_pending s) (ps_permit s) (ps_phase s)
  end.
Definition ps_fire (w : Instant) s : PrefetchState :=
  mkPs (ps_now s) (ps_cache s) (ps_last_check s) (ps_tick s) (List.filter (fun x => negb (x =? w)) (ps_pending s)) true (ps_phase s).

(** The body of the loop up to the round, once it is notified. *)
Definition ps_wake s : PrefetchState :=
  let s := ps_set_permit false s in
  if min_interval <? ps_now s - ps_last_check s then
    let '((expired, most_recent), c) := get_expired instant_min (ps_cache s) (ps_now s) (Some 5) in
    mkPs (ps_now s) c (ps_now s) (ps_tick s) (ps_pending s) false
      (PhRound (ps_now s) most_recent (prefetch_batches expired) [] (ps_now s))
  else ps_notify (Z.max 0 min_interval) s.

(** A batch starts when the one before is done and the interval has ticked. *)
Definition ps_start_batch s : option PrefetchState :=
  match ps_phase s with
  | PhRound check most_recent (b :: batches) [] next_tick =>
      if next_tick <=? ps_now s
      then Some (ps_set_phase (PhRound check most_recent batches b.*1 (ps_now s + secs 1)) s)
      else None
  | _ => None
  end.
(** A query of the batch is answered, or has failed. *)
Definition ps_query_done (i : nat) s : option PrefetchState :=
  match ps_phase s with
  | PhRound check most_recent batches in_flight next_tick =>
      q ← in_flight !! i;
      Some (ps_set_phase (PhRound check most_recent batches (delete i in_flight) next_tick)
              (ps_set_cache (prefetch_done (ps_cache s) q (ps_now s)) s))
  | PhWaiting => None
  end.
(** All is sent: the next check is asked for. *)
Definition ps_sleep s : option PrefetchState :=
  match ps_phase s with
  | PhRound _ most_recent [] [] _ => Some (ps_notify (Z.max most_recent min_interval) (ps_set_phase PhWaiting s))
  | _ => None
  end.

(** What the task does next without waiting for the clock or for an answer. *)
Definition ps_runnable s : bool :=
  match ps_phase s with
  | PhWaiting => ps_permit s
  | PhRound _ _ [] [] _ => true
  | PhRound _ _ (_ :: _) [] next_tick => next_tick <=? ps_now s
  | PhRound _ _ _ _ _ => false
  end.

(** Time passes up to the next timer, the tick a batch waits for, and the end of
    the queries under way. *)
Definition ps_may_pass (now : Instant) s : Prop :=
  ps_now s ≤ now ∧ ps_runnable s = false ∧ (∀ w, w ∈ ps_pending s → now ≤ w)
  ∧ match ps_phase s with
    | PhRound _ _ (_ :: _) [] next_tick => now ≤ next_tick
    | PhRound _ _ _ (_ :: _) next_tick => now ≤ next_tick - secs 1 + query_limit
    | _ => True
    end.

Inductive prefetch_step s : PrefetchState → Prop :=
| pst_time now : ps_may_pass now s → prefetch_step s (ps_set_now now s)
| pst_other o : cache_op_ok o → prefetch_step s (ps_set_cache (cache_op_apply (ps_cache s) o) s)
| pst_ask d : 0 ≤ d → prefetch_step s (ps_notify d s)
| pst_fire w : w ∈ ps_pending s → w ≤ ps_now s → prefetch_step s (ps_fire w s)
| pst_wake : ps_phase s = PhWaiting → ps_permit s = true → prefetch_step s (ps_wake s)
| pst_batch s' : ps_start_batch s = Some s' → prefetch_step s s'
| pst_done i s' : ps_query_done i s = Some s' → prefetch_step s s'
| pst_sleep s' : ps_sleep s = Some s' → prefetch_step s s'.

(** Runs through states that satisfy [P]. *)
Inductive prefetch_run (P : PrefetchState → Prop) (s0 : PrefetchState) : PrefetchState → Prop :=
| pr_init : P s0 → prefetch_run P s0 s0
| pr_step s s' : prefetch_run P s0 s → prefetch_step s s' → P s' → prefetch_run P s0 s'.

Definition prefetch_start c (now : Instant) : PrefetchState := mkPs now c now now [] false PhWaiting.

(** ** Facts *)
Lemma chunks_concat {A} n fuel (l : list A) :
  (0 < n)%nat → (length l ≤ fuel)%nat → concat (chunks n fuel l) = l.
Proof.
  intros Hn. revert l. induction fuel as [|fuel IH]; intros [|x l] Hl; try done; [cbn in Hl; lia|].
  cbn [chunks concat]. rewrite IH.
  - by rewrite take_drop.
  - rewrite length_drop. cbn in *. lia.
Qed.

Lemma chunks_length {A} n fuel (l b : list A) : b ∈ chunks n fuel l → (length b ≤ n)%nat.
Proof.
  revert l. induction fuel as [|fuel IH]; intros [|x l]; try (by intros ?%not_elem_of_nil).
  cbn [chunks]. intros [->|Hb]%elem_of_cons; [rewrite length_take; lia|by eapply IH].
Qed.

(** A prefetch round sends every due query once, in the order given (the
    most often used first), in the background under its own group, at most
    sixteen at a time. *)
Theorem prefetch_batches_complete (domains : list (Query Name * option string)) :
  concat (prefetch_batches domains) = (fun d => (d.1, prefetch_opts d.2)) <$> domains ∧
  ∀ b, b ∈ prefetch_batches domains → (length b ≤ 16)%nat.
Proof.
  unfold prefetch_batches. split.
  - transitivity ((fun d => (d.1, prefetch_opts d.2)) <$> concat (chunks MAX_PREFETCH_CONCURRENCY (length domains) domains)).
    + generalize (chunks MAX_PREFETCH_CONCURRENCY (length domains) domains). intros l.
      induction l as [|b l IH]; [done|]. cbn. by rewrite fmap_app, IH.
    + by rewrite chunks_concat by (unfold MAX_PREFETCH_CONCURRENCY; lia).
  - intros b (b' & -> & Hb)%list_elem_of_fmap. rewrite length_fmap. by eapply chunks_length.
Qed.


(** ** What a check finds *)
Definition prefetch_delay c : Z := if dc_serve_expired c then dc_prefetch_time c else 0.

(** An entry that a check looks at: an answer for addresses, no refresh of
    which is under way or put off. *)
Definition held q (v : Instant) c : Prop :=
  ∃ e, (q, e) ∈ lru_items (dc_cache c) ∧ e_valid_until e = v ∧ negative_response_ttl (e_data e) = None
    ∧ e_is_in_prefetching e = false ∧ e_retry_prefetch_at e = None ∧ is_ip_addr (q_type q) = true.

Lemma fold_wait_le {A} (f : A → option Z) (l : list A) (m : Z) x d :
  x ∈ l → f x = Some d → fold_left (fun m x => match f x with Some d => Z.min m d | None => m end) l m ≤ d.
Proof.
  assert (Hle : ∀ l m, fold_left (fun m x => match f x with Some d => Z.min m d | None => m end) l m ≤ m).
  { clear. induction l as [|y l IH]; intros m; cbn; [lia|]. destruct (f y); (etrans; [apply IH|lia]). }
  revert m. induction l as [|y l IH]; intros m; [by intros ?%not_elem_of_nil|].
  intros [->|Hx]%elem_of_cons Hf; cbn; [rewrite Hf; etrans; [apply Hle|lia]|by apply IH].
Qed.

Lemma fold_left_ext {A B} (f g : A → B → A) l a : (∀ a b, f a b = g a b) → fold_left f l a = fold_left g l a.
Proof. intros E. revert a. induction l as [|x l IH]; intros a; cbn; [done|]. by rewrite E, IH. Qed.

Definition wait_of (p : PrefetchClass) : option Z := match p with PWait d => Some d | _ => None end.

(** An entry that stays as it is through a check is not due, and the next check
    is no later than when it will be. *)
Lemma check_waits imin c now q v :
  cache_inv c → held q v c → held q v (get_expired imin c now (Some 5)).2 →
  now + (get_expired imin c now (Some 5)).1.2 ≤ v + secs (Z.max 0 (prefetch_delay c)) - secs 5
  ∧ now ≤ v + secs (Z.max 0 (prefetch_delay c)) - secs 5.
Proof.
  intros Hc (e & Hin & Hv & Hneg & Hmark & Hretry & Hip) Hafter.
  assert (Hinv := get_expired_inv imin c now (Some 5) Hc). revert Hinv Hafter.
  unfold get_expired. rewrite bool_decide_false by (intros E; rewrite E in Hin; by apply not_elem_of_nil in Hin). cbn [fst snd].
  fold (prefetch_delay c). cbn [opt_unwrap_or].
  set (check_time := _ + secs 5).
  assert (Hct : now + secs 5 - secs (Z.max 0 (prefetch_delay c)) ≤ check_time).
  { subst check_time. destruct (Z.ltb_spec 0 (prefetch_delay c)); [|unfold secs; lia].
    unfold checked_sub. destruct (_ <=? _); cbn [opt_unwrap_or]; unfold secs; lia. }
  assert (Hclass : prefetch_class now check_time q e = if entry_is_current e check_time then PWait (entry_ttl e check_time) else PDue).
  { unfold prefetch_class. by rewrite Hneg, Hmark, Hretry, Hip. }
  intros Hinv (e' & Hin' & _ & _ & Hmark' & _). destruct (entry_is_current e check_time) eqn:Hcur.
  - unfold entry_is_current in Hcur. assert (entry_ttl e check_time = v - check_time) as Ht by (unfold entry_ttl; lia).
    split; [|lia]. rewrite (fold_left_ext _ (fun m x => match wait_of (prefetch_class now check_time x.1 x.2) with Some d => Z.min m d | None => m end))
      by (intros m x; unfold wait_of; by case_match).
    pose proof (fold_wait_le (fun x : Query Name * DnsCacheEntry Name => wait_of (prefetch_class now check_time x.1 x.2)) _ (secs MAX_TTL) (q, e) (v - check_time) Hin) as Hf.
    cbn [fst snd] in Hf. rewrite Hclass in Hf. cbn [wait_of] in Hf. rewrite Ht in Hf. specialize (Hf eq_refl). lia.
  - exfalso. revert Hinv Hin'. match goal with |- context [lru_iter_write _ ?g] => set (f := g) end. intros Hinv Hin'.
    assert (Hm : (q, entry_set_prefetching true e) ∈ lru_items (lru_iter_write (dc_cache c) f)).
    { destruct (lru_iter_write_spec (keqb := query_eqb) (dc_cache c) f) as [-> _].
      apply list_elem_of_fmap. exists (q, e). split; [|done]. unfold f. cbn. by rewrite Hclass. }
    pose proof (io_nodup _ _ (ci_items _ Hinv)) as Hn. cbn [dc_cache cache_with] in Hn, Hin'.
    apply al_find_in in Hm, Hin'; [|exact Hn..]. rewrite Hm in Hin'. by injection Hin' as <-.
Qed.

Lemma expired_length imin c now : (length (get_expired imin c now (Some 5%Z)).1.1 ≤ length (lru_items (dc_cache c)))%nat.
Proof.
  unfold get_expired. case_bool_decide as Hnil; [cbn; lia|]. clear Hnil. cbn [fst]. rewrite length_fmap, sort_by_perm.
  match goal with |- context [omap ?f _] => generalize f end. intros f. induction (lru_items (dc_cache c)) as [|x l IH]; [done|].
  change (omap f (x :: l)) with (match f x with Some y => y :: omap f l | None => omap f l end). destruct (f x); cbn [length]; lia.
Qed.

Lemma get_expired_config imin c now ahead :
  let c' := (get_expired imin c now ahead).2 in
  lru_cap (dc_cache c') = lru_cap (dc_cache c) ∧ dc_serve_expired c' = dc_serve_expired c ∧ dc_prefetch_time c' = dc_prefetch_time c.
Proof.
  unfold get_expired. case_bool_decide; [done|]. cbn. match goal with |- context [lru_iter_write _ ?g] => set (f := g) end.
  by destruct (lru_iter_write_spec (keqb := query_eqb) (dc_cache c) f) as [_ ->].
Qed.

Lemma op_config c o : dc_serve_expired (cache_op_apply c o) = dc_serve_expired c ∧ dc_prefetch_time (cache_op_apply c o) = dc_prefetch_time c.
Proof.
  destruct o; cbn [cache_op_apply];
    unfold insert_response, cache_get, finish_prefetch, begin_refresh, end_refresh, get_expired, flush, load_task;
    repeat case_match; simplify_eq/=; done.
Qed.

Lemma chunks_count {A} n fuel (l : list A) : (0 < n)%nat → (length (chunks n fuel l) ≤ (length l + n - 1) / n)%nat.
Proof.
  intros Hn. revert l. induction fuel as [|fuel IH]; intros [|x l]; cbn [chunks length]; try lia.
  specialize (IH (drop n (x :: l))). rewrite length_drop in IH. cbn [length] in IH.
  replace (S (length l) + n - 1)%nat with (1 * n + (length l))%nat by lia. rewrite Nat.div_add_l by lia.
  assert ((S (length l) - n + n - 1) / n ≤ length l / n)%nat; [|lia].
  destruct (Nat.le_gt_cases n (S (length l))); [apply Nat.Div0.div_le_mono; lia|].
  rewrite (Nat.div_small (S (length l) - n + n - 1)) by lia. lia.
Qed.

(** ** What holds in every state *)
Definition batch_time : Z := Z.max query_limit (secs 1).
Definition round_batches c : nat := (lru_cap (dc_cache c) + 15) / 16.
(** The longest a round takes. *)
Definition round_time c : Z := Z.of_nat (round_batches c) * batch_time.

Definition round_ok s : Prop :=
  match ps_phase s with
  | PhWaiting => True
  | PhRound check _ batches in_flight next_tick =>
      check = ps_last_check s ∧ (length in_flight ≤ 16)%nat ∧ Forall (fun b => (length b ≤ 16)%nat) batches
      ∧ ∃ j, (j + length batches ≤ round_batches (ps_cache s))%nat
             ∧ ps_now s ≤ check + Z.of_nat j * batch_time ∧ next_tick ≤ check + Z.of_nat j * batch_time
             ∧ (in_flight ≠ [] → next_tick - secs 1 + query_limit ≤ check + Z.of_nat j * batch_time)
  end.

Record prefetch_inv s : Prop := {
  pi_cache : cache_inv (ps_cache s);
  pi_tick : ps_now s < ps_tick s → ps_tick s ∈ ps_pending s;
  pi_pending w : w ∈ ps_pending s → ps_now s ≤ w;
  pi_last : ps_last_check s ≤ ps_now s;
  pi_round : round_ok s;
}.

Definition same_config c c' : Prop :=
  lru_cap (dc_cache c') = lru_cap (dc_cache c) ∧ dc_serve_expired c' = dc_serve_expired c ∧ dc_prefetch_time c' = dc_prefetch_time c.

(** Asking for a check leaves a wake-up by then, and what there was. *)
Lemma notify_asks s d : prefetch_inv s → 0 ≤ d →
  let s' := ps_notify d s in
  (ps_permit s' = true ∨ ∃ w, w ∈ ps_pending s' ∧ w ≤ ps_now s + d)
  ∧ (ps_permit s = true → ps_permit s' = true) ∧ (∀ w, w ∈ ps_pending s → w ∈ ps_pending s')
  ∧ (ps_now s' = ps_now s ∧ ps_cache s' = ps_cache s ∧ ps_last_check s' = ps_last_check s ∧ ps_phase s' = ps_phase s)
  ∧ (ps_now s' < ps_tick s' → ps_tick s' ∈ ps_pending s') ∧ (∀ w, w ∈ ps_pending s' → ps_now s' ≤ w).
Proof.
  intros Hi Hd. unfold ps_notify, notify_after. pose proof (pi_tick _ Hi). pose proof (pi_pending _ Hi) as Hp.
  destruct (Z.eqb_spec d 0); [split_and!; cbn; auto|].
  destruct (Z.ltb_spec (ps_now s) (ps_tick s)); cbn [andb]; [destruct (Z.ltb_spec (ps_tick s) (ps_now s + d))|]; cbn; split_and!; auto.
  - right. exists (ps_tick s). split; [auto|lia].
  - right. exists (ps_now s + d). split; [by left|lia].
  - intros w Hw. by right.
  - intros _. by left.
  - intros w [->|Hw]%elem_of_cons; [lia|auto].
  - right. exists (ps_now s + d). split; [by left|lia].
  - intros w Hw. by right.
  - intros _. by left.
  - intros w [->|Hw]%elem_of_cons; [lia|auto].
Qed.

Lemma notify_inv s d : prefetch_inv s → 0 ≤ d → prefetch_inv (ps_notify d s).
Proof.
  intros Hi Hd. destruct (notify_asks s d Hi Hd) as (_ & _ & _ & (En & Ec & El & Ep) & Ht & Hp).
  split; [rewrite Ec; apply Hi|done|done|rewrite En, El; apply Hi|].
  unfold round_ok. rewrite Ep, En, El, Ec. apply Hi.
Qed.

Lemma round_starts c (expired : list (Query Name * option string)) :
  (length expired ≤ lru_cap (dc_cache c))%nat →
  (length (prefetch_batches expired) ≤ round_batches c)%nat ∧ Forall (fun b => (length b ≤ 16)%nat) (prefetch_batches expired).
Proof.
  intros Hl. split.
  - unfold prefetch_batches, MAX_PREFETCH_CONCURRENCY. rewrite length_fmap. etrans; [apply chunks_count; lia|].
    unfold round_batches. apply Nat.Div0.div_le_mono. lia.
  - apply Forall_forall. apply (prefetch_batches_complete expired).
Qed.

Lemma wake_config s : same_config (ps_cache s) (ps_cache (ps_wake s)).
Proof.
  unfold ps_wake. destruct (_ <? _).
  - pose proof (get_expired_config instant_min (ps_cache s) (ps_now s) (Some 5)) as H1. cbn zeta in H1.
    cbn [ps_set_permit ps_cache ps_now]. by destruct (get_expired _ _ _ _) as [[] c].
  - unfold ps_notify, same_config. by repeat case_match.
Qed.

Lemma step_config s s' : prefetch_inv s → prefetch_step s s' → same_config (ps_cache s) (ps_cache s').
Proof.
  intros Hi []; try done.
  - cbn. unfold same_config. destruct (op_config (ps_cache s) o) as [-> ->]. destruct (cap_op (ps_cache s) o) as [-> _]; [apply Hi|done|done].
  - unfold ps_notify, same_config. by repeat case_match.
  - apply wake_config.
  - unfold ps_start_batch in *. repeat case_match; simplify_eq/=; done.
  - unfold ps_query_done in *. repeat case_match; try done.
    destruct (in_flight !! i) as [q|]; [|done]. simplify_eq/=. unfold same_config, prefetch_done.
    pose proof (op_config (ps_cache s) (OpFinishPrefetch q (ps_now s))) as [E1 E2].
    by pose proof (cap_op (ps_cache s) (OpFinishPrefetch q (ps_now s)) (pi_cache _ Hi) I) as [E3 _].
  - unfold ps_sleep, ps_notify, same_config in *. repeat case_match; simplify_eq/=; done.
Qed.

Lemma wake_inv s : 0 ≤ min_interval → prefetch_inv s → prefetch_inv (ps_wake s).
Proof.
  intros Hm Hi. unfold ps_wake. cbn [ps_set_permit ps_now ps_last_check ps_cache ps_tick ps_pending].
  assert (Hi' : prefetch_inv (ps_set_permit false s)) by (destruct Hi; by split).
  destruct (_ <? _); [|apply notify_inv; [done|lia]].
  pose proof (get_expired_inv instant_min _ (ps_now s) (Some 5) (pi_cache _ Hi)) as Hc.
  pose proof (expired_length instant_min (ps_cache s) (ps_now s)) as Hl.
  pose proof (get_expired_config instant_min (ps_cache s) (ps_now s) (Some 5)) as (Hcap & _).
  destruct (get_expired _ _ _ _) as [[expired mr] c]. cbn [fst snd] in *.
  split; cbn; [done|apply Hi|apply Hi|lia|].
  destruct (round_starts c expired) as [H1 H2].
  { rewrite Hcap. etrans; [exact Hl|]. apply (io_length _ _ (ci_items _ (pi_cache _ Hi))). }
  split; [done|]. split; [cbn; lia|]. split; [done|]. exists 0%nat. cbn [ps_now ps_cache]. split_and!; [exact H1|lia|lia|done].
Qed.

Lemma step_inv s s' : 0 ≤ min_interval → prefetch_inv s → prefetch_step s s' → prefetch_inv s'.
Proof.
  intros Hm Hi Hs. assert (Hcfg := step_config s s' Hi Hs). destruct Hs as [now Hpass|o Ho|d Hd|w Hw Hle|Hph Hpm|s' Hb|i s' Hd|s' Hsl].
  - destruct Hpass as (Hle & Hrun & Hp & Hph). destruct Hi as [Hc Ht Hp0 Hl Hr]. split; cbn; [done| |done|lia|].
    + intros H1. apply Ht. lia.
    + unfold round_ok, ps_runnable in *. cbn. destruct (ps_phase s) as [|check mr [|b batches] [|q fl] nt]; [done|done|..].
      * destruct Hr as (-> & Hr1 & Hr2 & j & Hj1 & Hj2 & Hj3 & Hj4). split_and!; [done..|]. exists j. split_and!; [done| |done..]. specialize (Hj4 ltac:(done)). lia.
      * destruct Hr as (-> & Hr1 & Hr2 & j & Hj1 & Hj2 & Hj3 & Hj4). split_and!; [done..|]. exists j. split_and!; [done| |done..]. lia.
      * destruct Hr as (-> & Hr1 & Hr2 & j & Hj1 & Hj2 & Hj3 & Hj4). split_and!; [done..|]. exists j. split_and!; [done| |done..]. specialize (Hj4 ltac:(done)). lia.
  - destruct Hi as [Hc Ht Hp0 Hl Hr]. split; cbn; [by apply cache_op_inv|done..|]. unfold round_ok, round_batches in *. cbn in *.
    by rewrite (proj1 Hcfg).
  - by apply notify_inv.
  - destruct Hi as [Hc Ht Hp0 Hl Hr]. split; cbn; [done| | |done|done].
    + intros H1. apply list_elem_of_In, filter_In. split; [apply list_elem_of_In; auto|lia].
    + intros x Hx%list_elem_of_In. apply filter_In in Hx as [Hx _]. apply Hp0. by apply list_elem_of_In.
  - by apply wake_inv.
  - unfold ps_start_batch in Hb. destruct (ps_phase s) as [|check mr [|b batches] [|q fl] nt] eqn:Eph; [done..| |done].
    destruct (Z.leb_spec nt (ps_now s)); [|done]. injection Hb as <-. destruct Hi as [Hc Ht Hp0 Hl Hr]. split; [done..|].
    unfold round_ok in *. rewrite Eph in Hr. cbn. destruct Hr as (-> & Hr1 & Hr2 & j & Hj1 & Hj2 & Hj3 & _). apply Forall_cons in Hr2 as [Hb Hr2].
    split_and!; [done|by rewrite length_fmap|done|]. exists (S j). cbn [length] in Hj1.
    assert (secs 1 ≤ batch_time ∧ query_limit ≤ batch_time ∧ 0 ≤ batch_time) as (? & ? & ?) by (unfold batch_time, secs; lia).
    rewrite Nat2Z.inj_succ, Z.mul_succ_l. split_and!; [change (S j + length batches ≤ round_batches (ps_cache s))%nat; lia|lia|lia|intros _; lia].
  - unfold ps_query_done in Hd. destruct (ps_phase s) as [|check mr batches fl nt] eqn:Eph; [done|].
    destruct (fl !! i) as [q|] eqn:Eq; [|done]. injection Hd as <-. destruct Hi as [Hc Ht Hp0 Hl Hr]. split; [|done..|].
    + apply (cache_op_inv _ (OpFinishPrefetch q (ps_now s))); [done|exact I].
    + unfold round_ok, round_batches in *. rewrite Eph in Hr. cbn in *. rewrite (proj1 Hcfg).
      destruct Hr as (-> & Hr1 & Hr2 & j & Hj1 & Hj2 & Hj3 & Hj4). split_and!; [done| |done|].
      * rewrite length_delete by done. lia.
      * exists j. split_and!; [done..|]. intros _. apply Hj4. intros ->. done.
  - unfold ps_sleep in Hsl. destruct (ps_phase s) as [|check mr [|b batches] [|q fl] nt] eqn:Eph; [done| |done..].
    injection Hsl as <-. apply notify_inv; [|lia]. destruct Hi as [Hc Ht Hp0 Hl Hr]. by split.
Qed.

Lemma run_inv P s0 s : 0 ≤ min_interval → prefetch_inv s0 → prefetch_run P s0 s → prefetch_inv s ∧ same_config (ps_cache s0) (ps_cache s).
Proof.
  intros Hm H0. induction 1 as [|s s' _ [Hi (E1 & E2 & E3)] Hs _]; [done|].
  destruct (step_config s s' Hi Hs) as (F1 & F2 & F3). split; [by eapply step_inv|]. unfold same_config. by rewrite F1, F2, F3.
Qed.

Lemma start_inv c now : cache_inv c → prefetch_inv (prefetch_start c now).
Proof. intros Hc. split; cbn; [done|lia|by intros w ?%not_elem_of_nil|lia|exact I]. Qed.

(** ** An entry is handed out in time *)
(** When the entry is due: at its end, or so long after as expired answers are
    kept in use, five seconds ahead. *)
Definition due_by (v : Instant) c : Instant := v + Z.max 0 (secs (Z.max 0 (prefetch_delay c)) - secs 5).
Definition handed_by (v : Instant) c : Instant := due_by v c + round_time c + 2 * min_interval.

(** While it is not handed out the next check is not far. *)
Definition in_time (v : Instant) c s : Prop :=
  ps_last_check s ≤ due_by v c ∧ ps_now s ≤ handed_by v c
  ∧ (ps_permit s = true ∨ (∃ w, w ∈ ps_pending s ∧ w ≤ handed_by v c)
     ∨ match ps_phase s with
       | PhRound check most_recent _ _ _ => check + Z.max most_recent min_interval ≤ due_by v c + min_interval
       | PhWaiting => False
       end).

Lemma same_times v c c' : same_config c c' → due_by v c' = due_by v c ∧ round_time c' = round_time c.
Proof. intros (E1 & E2 & E3). unfold due_by, prefetch_delay, round_time, round_batches. by rewrite E1, E2, E3. Qed.

(** A round that began by the time the entry is due ends in time. *)
Lemma round_ends v s : round_ok s → ps_last_check s ≤ due_by v (ps_cache s) → ps_phase s ≠ PhWaiting →
  ps_now s ≤ ps_last_check s + round_time (ps_cache s).
Proof.
  unfold round_ok, round_time. intros Hr Hl Hph. destruct (ps_phase s) as [|check mr batches fl nt]; [done|].
  destruct Hr as (-> & _ & _ & j & Hj & Hn & _). assert (0 ≤ batch_time) by (unfold batch_time, secs; lia). nia.
Qed.

Lemma notify_in_time v c s d : prefetch_inv s → 0 ≤ d → ps_last_check s ≤ due_by v c → ps_now s ≤ handed_by v c →
  ps_permit s = true ∨ (∃ w, w ∈ ps_pending s ∧ w ≤ handed_by v c) ∨ ps_now s + d ≤ handed_by v c → in_time v c (ps_notify d s).
Proof.
  intros Hi Hd Hl Hn Hw. destruct (notify_asks s d Hi Hd) as (Hask & Hpm & Hin & (En & _ & El & _) & _).
  unfold in_time. rewrite En, El. split; [done|]. split; [done|].
  destruct Hw as [Hw|[(w & Hw1 & Hw2)|Hw]]; [auto|right; left; exists w; auto|].
  destruct Hask as [?|(w & Hw1 & Hw2)]; [auto|]. right. left. exists w. split; [done|lia].
Qed.

Lemma wake_in_time q v c s :
  0 < min_interval → prefetch_inv s → same_config c (ps_cache s) → held q v (ps_cache s) → held q v (ps_cache (ps_wake s)) →
  in_time v c s → in_time v c (ps_wake s).
Proof.
  intros Hm Hi Hcfg Hheld Hheld' (Hl & Hn & _). destruct (same_times v _ _ Hcfg) as [Ed _]. revert Hheld'. unfold ps_wake.
  cbn [ps_set_permit ps_now ps_last_check ps_cache ps_tick ps_pending]. destruct (Z.ltb_spec min_interval (ps_now s - ps_last_check s)) as [Hlt|Hge].
  - pose proof (check_waits instant_min (ps_cache s) (ps_now s) q v (pi_cache _ Hi) Hheld) as Hw.
    destruct (get_expired _ _ _ _) as [[expired mr] c']. cbn [fst snd] in *. cbn [ps_cache]. intros Hheld'. destruct (Hw Hheld') as [H1 H2].
    unfold in_time. cbn. rewrite <- Ed. unfold handed_by in *. rewrite <- Ed in *. unfold due_by in *. split; [lia|]. split; [done|]. right. right. lia.
  - intros _. assert (Hi' : prefetch_inv (ps_set_permit false s)) by (destruct Hi; by split).
    apply notify_in_time; [done|lia|done|done|]. right. right. cbn. unfold handed_by.
    assert (0 ≤ round_time c) by (unfold round_time, batch_time, secs; nia). lia.
Qed.

Lemma step_in_time q v c s s' :
  0 < min_interval → prefetch_inv s → same_config c (ps_cache s) → held q v (ps_cache s) → held q v (ps_cache s') →
  in_time v c s → prefetch_step s s' → in_time v c s'.
Proof.
  intros Hm Hi Hcfg Hh Hh' Ht Hs. assert (Hi' := step_inv s s' ltac:(lia) Hi Hs).
  assert (Hround : ∀ s, prefetch_inv s → same_config c (ps_cache s) → ps_last_check s ≤ due_by v c → ps_phase s ≠ PhWaiting →
    ps_now s ≤ due_by v c + round_time c).
  { intros s0 H0 Hc0 Hl0 Hp0. destruct (same_times v _ _ Hc0) as [Ed Er]. rewrite <- Ed, <- Er in *.
    pose proof (round_ends v s0 (pi_round _ H0) Hl0 Hp0). lia. }
  pose proof Ht as (Hl & Hn & Hw).
  destruct Hs as [now Hpass|o Ho|d Hd|w Hwp Hle|Hph Hpm|s' Hb|i s' Hd|s' Hsl].
  - split; [done|]. split; [|done]. cbn. destruct Hpass as (_ & Hrun & Hp & _). destruct (ps_phase s) eqn:Eph.
    + unfold ps_runnable in Hrun. rewrite Eph in Hrun. destruct Hw as [?|[(w & Hw1 & Hw2)|[]]]; [congruence|]. specialize (Hp w Hw1). lia.
    + specialize (Hround _ Hi' Hcfg Hl). cbn in Hround. rewrite Eph in Hround. specialize (Hround ltac:(done)). unfold handed_by. lia.
  - done.
  - destruct Hw as [Hw|[Hw|Hw]]; [apply notify_in_time; auto..|]. destruct (notify_asks s d Hi Hd) as (_ & _ & _ & (En & _ & El & Ep) & _).
    unfold in_time. rewrite En, El, Ep. auto.
  - unfold in_time. cbn. auto.
  - by eapply wake_in_time.
  - unfold ps_start_batch in Hb. repeat case_match; simplify_eq/=. unfold in_time in *. cbn in *. by simplify_option_eq.
  - unfold ps_query_done in Hd. case_match; [done|]. destruct (in_flight !! i) eqn:Ei; simplify_eq/=. unfold in_time in *. cbn in *. by simplify_option_eq.
  - unfold ps_sleep in Hsl. destruct (ps_phase s) as [|check mr [|b batches] [|q' fl] nt] eqn:Eph; [done| |done..]. injection Hsl as <-.
    pose proof (pi_round _ Hi) as Hr. unfold round_ok in Hr. rewrite Eph in Hr. destruct Hr as [-> _].
    specialize (Hround _ Hi Hcfg Hl ltac:(by rewrite Eph)).
    apply notify_in_time; cbn; [destruct Hi; by split|lia|done|done|].
    destruct Hw as [Hw|[Hw|Hw]]; [auto..|]. right. right. unfold handed_by.
    pose proof (round_ends v s (pi_round _ Hi)) as Hre. destruct (same_times v _ _ Hcfg) as [Ed Er]. rewrite Ed, Er, Eph in Hre.
    specialize (Hre Hl ltac:(done)). lia.
Qed.

(** The task is never stuck: something is to be done now, or time passes. *)
Definition goes_on s : Prop :=
  (∃ now, ps_now s < now ∧ ps_may_pass now s)
  ∨ (∃ w, w ∈ ps_pending s ∧ w ≤ ps_now s) ∨ (ps_phase s = PhWaiting ∧ ps_permit s = true)
  ∨ is_Some (ps_start_batch s) ∨ (∃ i, is_Some (ps_query_done i s)) ∨ is_Some (ps_sleep s).

Lemma earliest (l : list Z) (t : Z) : (∀ w, w ∈ l → t < w) → ∃ n, t < n ∧ ∀ w, w ∈ l → n ≤ w.
Proof.
  induction l as [|x l IH]; intros Hl; [exists (t + 1); split; [lia|by intros w ?%not_elem_of_nil]|].
  destruct IH as (n & Hn & Hall); [intros w Hw; apply Hl; by right|]. exists (Z.min n x).
  pose proof (Hl x (list_elem_of_here _ _)). split; [lia|]. intros w [->|Hw]%elem_of_cons; [lia|]. specialize (Hall w Hw). lia.
Qed.

Lemma task_goes_on s : goes_on s.
Proof.
  unfold goes_on. destruct (decide (Exists (λ w, w ≤ ps_now s) (ps_pending s))) as [Hf|Hf%not_Exists_Forall].
  { apply Exists_exists in Hf as (w & ? & ?). eauto. }
  2: { intros w. apply Z_le_dec. }
  destruct (earliest (ps_pending s) (ps_now s)) as (n & Hn & Hall).
  { intros w Hw. rewrite Forall_forall in Hf. specialize (Hf w Hw). cbn in Hf. lia. }
  unfold ps_may_pass, ps_runnable, ps_start_batch, ps_query_done, ps_sleep.
  destruct (ps_phase s) as [|check mr [|b batches] [|q fl] nt]; [|by eauto 8| |..].
  - destruct (ps_permit s); [by auto|]. left. exists n. split; [done|]. split_and!; [lia|done|done|done].
  - right. right. right. right. left. exists 0%nat. by eauto.
  - destruct (Z.leb_spec nt (ps_now s)); [by eauto 8|]. left. exists (Z.min n nt). split; [lia|].
    split_and!; [lia|done| |lia]. intros w Hw. specialize (Hall w Hw). lia.
  - right. right. right. right. left. exists 0%nat. by eauto.
Qed.

(** C9: an answer with addresses that is stored, with a check asked for when it
    ends, is handed to a round of prefetching: however other tasks use the cache
    and ask for checks, as long as the entry is in the cache as it was stored the
    time is not past its end, the time expired answers are kept in use, the
    length of one round (a batch of sixteen queries takes at most as long as one
    query, and a second) and two intervals; and the task is never stuck. *)
Theorem stored_entry_prefetched c0 (now0 : Instant) s q d s1 :
  0 < min_interval → cache_inv c0 → prefetch_run (λ _, True) (prefetch_start c0 now0) s →
  0 ≤ d → held q (ps_now s + d) (ps_cache s) →
  prefetch_run (λ s', held q (ps_now s + d) (ps_cache s')) (ps_notify d s) s1 →
  ps_now s1 ≤ handed_by (ps_now s + d) c0 ∧ goes_on s1.
Proof.
  intros Hm Hc Hr Hd Hh Hrun. split; [|apply task_goes_on].
  destruct (run_inv _ _ _ ltac:(lia) (start_inv c0 now0 Hc) Hr) as [Hi Hcfg]. cbn in Hcfg.
  set (v := ps_now s + d) in *. assert (0 ≤ round_time c0) by (unfold round_time, batch_time, secs; nia).
  assert (Hi0 := notify_inv s d Hi Hd). destruct (notify_asks s d Hi Hd) as (_ & _ & _ & (_ & Ec & _) & _).
  enough (prefetch_inv s1 ∧ same_config c0 (ps_cache s1) ∧ held q v (ps_cache s1) ∧ in_time v c0 s1) as (_ & _ & _ & _ & Hn & _) by done.
  induction Hrun as [Hp|s' s'' _ IH Hs Hp].
  - split_and!; [done|by rewrite Ec|done|]. pose proof (pi_last _ Hi).
    apply notify_in_time; [done|done|..]; unfold handed_by, due_by, v; [lia..|]. right. right. lia.
  - destruct IH as (Hi' & Hcfg' & Hh' & Ht'). split_and!; [by eapply step_inv; [lia|..]| |done|by eapply step_in_time].
    destruct (step_config s' s'' Hi' Hs) as (F1 & F2 & F3). destruct Hcfg' as (E1 & E2 & E3). unfold same_config. by rewrite F1, F2, F3.
Qed.

End Prefetch.

(** A minute after the answer was stored the task is woken; the entry is due
    when expired answers have been in use for 55 seconds more, and is handed out
    by two seconds and a round after that. *)
Definition sample_task : PrefetchState (Name := PlainName) (L := SampleLru) := ps_set_cache sample_full (prefetch_start sample_cache 0).
Definition sample_asked : PrefetchState (Name := PlainName) (L := SampleLru) := ps_notify (secs 60) sample_task.

Lemma sample_held : held (sample_query TYPE_A) (secs 60) sample_full.
Proof.
  destruct (lru_items (dc_cache sample_full)) as [|[q e] []] eqn:E; [vm_compute in E; discriminate E| |vm_compute in E; discriminate E].
  exists e. vm_compute in E. injection E as <- <-. rewrite ?list_elem_of_singleton. split_and!; try reflexivity. apply list_elem_of_here.
Qed.

Lemma stored_entry_prefetched_witness :
  handed_by (secs 1) (secs 5) (secs 60) sample_cache = secs (60 + 55 + 5 + 2)
  ∧ ps_now (ps_set_now (secs 60) sample_asked) ≤ handed_by (secs 1) (secs 5) (secs 60) sample_cache
  ∧ ps_runnable (ps_fire (secs 60) (ps_set_now (secs 60) sample_asked)) = true.
Proof.
  split; [vm_compute; reflexivity|]. split; [|vm_compute; reflexivity].
  apply (stored_entry_prefetched 0 (secs 1) (secs 5) sample_cache 0 sample_task (sample_query TYPE_A) (secs 60) (ps_set_now (secs 60) sample_asked)).
  - unfold secs. lia.
  - exact (cache_start_inv 2 true 0 5 5000 60 _ ltac:(lia) sample_start).
  - eapply (pr_step _ _ _ _ _ (prefetch_start sample_cache 0)); [by apply pr_init| |done].
    apply (pst_other _ _ _ (prefetch_start sample_cache 0) (OpInsertResponse (sample_resp [1] 60) 0 60 "default")). exact I.
  - unfold secs. lia.
  - exact sample_held.
  - eapply pr_step; [apply pr_init; exact sample_held| |exact sample_held]. apply pst_time. split; [vm_compute; discriminate|].
    split; [reflexivity|]. split; [|exact I]. intros w [->|[]%not_elem_of_nil]%elem_of_cons. vm_compute. discriminate.
Defined.
