(* ===== verification/CacheFile.v ===== *)
(** * The saved copy of the cache ([dns_mw_cache.rs])

    The binary format of the entries a checkpoint writes and a start reads. An
    entry is a message and tagged fields; deadlines are saved as seconds of the
    wall clock, as instants mean nothing to another process. *)

From S2P Require Import Prelude Names DomainMap Config DomainRule DomainRuleTree IpSet Message Runtime Context Samples Lru Cache.

(** ** The DNS library's encoding of messages

    A message is written after the bytes already there, which names may point
    back to, and read at a position of a buffer. *)
Class MsgCodec (Name : Type) := {
  (** the largest buffer an encoder fills *)
  enc_max : nat;
  (** the message fits in a buffer whole: nothing of it is left out *)
  msg_fits : Message Name → bool;
  msg_emit : list Z → Message Name → option (list Z);
  msg_read : list Z → nat → option (Message Name * nat);
}.

Class MsgCodecLaws (Name : Type) `{MsgCodec Name} : Prop := {
  msg_read_emit pre m out post :
    msg_fits m = true → msg_emit pre m = Some out →
    msg_read (pre ++ out ++ post) (length pre) = Some (m, (length pre + length out)%nat);
  msg_read_bounds data i m j : msg_read data i = Some (m, j) → (i ≤ j ≤ length data)%nat;
}.

(** ** Fields *)
Definition be16 (n : Z) : list Z := [as_u8 (Z.shiftr n 8); as_u8 n].
Definition be32 (n : Z) : list Z :=
  [as_u8 (Z.shiftr n 24); as_u8 (Z.shiftr n 16); as_u8 (Z.shiftr n 8); as_u8 n].

(** Reading ends with a value, with an error, or with a panic. *)
Inductive ReadResult (A : Type) :=
| Got (a : A)
| Malformed
| ReadPanics.
Arguments Got {A} _.
Arguments Malformed {A}.
Arguments ReadPanics {A}.

(** A reader: what it reads at a position, and the position after it. *)
Definition Reader (A : Type) : Type := list Z → nat → ReadResult (A * nat).

Definition read_ret {A} (a : A) : Reader A := fun _ i => Got (a, i).
Definition read_bind {A B} (r : Reader A) (k : A → Reader B) : Reader B :=
  fun data i =>
    match r data i with
    | Got (a, i) => k a data i
    | Malformed => Malformed
    | ReadPanics => ReadPanics
    end.
Definition read_fail {A} : Reader A := fun _ _ => Malformed.
Definition read_panic {A} : Reader A := fun _ _ => ReadPanics.
(** What a panicking operation gives, when it does. *)
Definition read_or_panic {A} (x : option A) : Reader A :=
  match x with Some a => read_ret a | None => read_panic end.

Notation "x <~ r ;; k" := (read_bind r (fun x => k)) (at level 100, r at next level, right associativity)
  : smartdns_scope.
#[local] Open Scope smartdns_scope.

Definition read_u8 : Reader Z := fun data i =>
  match data !! i with Some b => Got (b, S i) | None => Malformed end.
Definition read_u16 : Reader Z := a <~ read_u8 ;; b <~ read_u8 ;; read_ret (Z.shiftl a 8 + b).
Definition read_u32 : Reader Z :=
  a <~ read_u8 ;; b <~ read_u8 ;; c <~ read_u8 ;; d <~ read_u8 ;;
  read_ret (Z.shiftl a 24 + Z.shiftl b 16 + Z.shiftl c 8 + d).
Definition read_slice (n : nat) : Reader (list Z) := fun data i =>
  if (i + n <=? length data)%nat then Got (take n (drop i data), (i + n)%nat) else Malformed.

(** [String::from_utf8]: well-formed sequences of one to four bytes. *)
Definition utf8_cont (b : Z) : bool := (128 <=? b) && (b <=? 191).
Definition in_range (lo b hi : Z) : bool := (lo <=? b) && (b <=? hi).

Fixpoint utf8_valid (fuel : nat) (l : list Z) : bool :=
  match fuel, l with
  | _, [] => true
  | O, _ => false
  | S fuel, a :: l =>
      if in_range 0 a 127 then utf8_valid fuel l
      else match l with
      | b :: l =>
          if in_range 194 a 223 && utf8_cont b then utf8_valid fuel l
          else match l with
          | c :: l =>
              if ((a =? 224) && in_range 160 b 191 || in_range 225 a 236 && utf8_cont b
                  || (a =? 237) && in_range 128 b 159 || in_range 238 a 239 && utf8_cont b) && utf8_cont c
              then utf8_valid fuel l
              else match l with
              | d :: l =>
                  if ((a =? 240) && in_range 144 b 191 || in_range 241 a 243 && utf8_cont b
                      || (a =? 244) && in_range 128 b 143) && utf8_cont c && utf8_cont d
                  then utf8_valid fuel l else false
              | [] => false
              end
          | [] => false
          end
      | [] => false
      end
  end.

Definition string_of_bytes (l : list Z) : string :=
  String.string_of_list_ascii ((fun b => Ascii.ascii_of_nat (Z.to_nat b)) <$> l).

Definition from_utf8 (l : list Z) : option string :=
  if utf8_valid (length l) l then Some (string_of_bytes l) else None.

(** ** Entries *)

(** The two clocks: the monotonic one, and the seconds of the wall clock. *)
Definition Clock : Type := Instant * Z.

Definition expires_at (clock : Clock) (until : Instant) : Z :=
  let '(now, wall) := clock in
  if now <? until then saturating_add_u64 wall (as_secs (until - now))
  else saturating_sub wall (as_secs (now - until)).

Definition probe_fields (p : ProbeResult) : Z * Z :=
  match p with
  | Unchecked => (0, 0)
  | Failed => (1, 0)
  | Measured d => (2, Z.min (d / 1000) u32_max)
  end.

Section CacheFile.
Context {Name : Type} `{NameLib Name} `{MsgLib Name} `{Sizes Name} `{MsgCodec Name}.
Implicit Types (e : DnsCacheEntry Name).

Definition group_field (g : option string) : list Z :=
  match g with
  | Some g => be16 (as_u16 (Z.of_nat (length (bytes_of_string g)))) ++ bytes_of_string g
  | None => be16 0
  end.

Definition deadline_field (expires : Z) : list Z :=
  [5] ++ be32 (Z.shiftr expires 32) ++ be32 expires.
Definition probe_field (p : ProbeResult) : list Z :=
  [6] ++ [(probe_fields p).1] ++ be32 (probe_fields p).2 ++ [4].

(** [BinEncodable::emit] *)
Definition emit_entry (clock : Clock) e : option (list Z) :=
  msg ← msg_emit [1] (resp_message (e_data e));
  let out := [1] ++ msg ++ deadline_field (expires_at clock (e_valid_until e))
             ++ [3] ++ group_field (name_server_group (e_data e))
             ++ probe_field (probe_result (e_data e)) ++ be32 (e_hits e) in
  if (length out <=? enc_max)%nat then Some out else None.

(** A tag that must be there. *)
Definition expect (tag : Z) : Reader unit := v <~ read_u8 ;; if v =? tag then read_ret tt else read_fail.

(** [Instant] arithmetic: the platform's earliest and latest instants. *)
Record InstantRange := mkRange { instant_min : Instant; instant_max : Instant }.
Implicit Types (rng : InstantRange).

(** [Instant + Duration] panics past the latest instant. *)
Definition instant_add rng (t : Instant) (d : Z) : option Instant :=
  if t + d <=? instant_max rng then Some (t + d) else None.

(** The deadline a saved time stands for. *)
Definition deadline_of rng (clock : Clock) (expires : Z) : option Instant :=
  let '(now, wall) := clock in
  if wall <? expires then instant_add rng now (secs (expires - wall))
  else Some (opt_unwrap_or now (checked_sub (instant_min rng) now (secs (wall - expires)))).

Definition read_deadline rng (clock : Clock) : Reader Instant :=
  tag <~ read_u8 ;;
  if tag =? 2 then ttl <~ read_u32 ;; read_or_panic (instant_add rng clock.1 (secs ttl))
  else if tag =? 5 then
    hi <~ read_u32 ;; lo <~ read_u32 ;;
    read_or_panic (deadline_of rng clock (Z.lor (Z.shiftl hi 32) lo))
  else read_fail.

Definition read_group : Reader (option string) :=
  expect_len <~ read_u16 ;;
  if 0 <? expect_len
  then bytes <~ read_slice (Z.to_nat expect_len) ;; read_ret (from_utf8 bytes)
  else read_ret None.

(** The probe result, when it is there, and the tag after it. *)
Definition read_probe : Reader (ProbeResult * Z) :=
  field <~ read_u8 ;;
  if field =? 6 then
    kind <~ read_u8 ;; micros <~ read_u32 ;;
    probe <~ (if kind =? 0 then read_ret Unchecked
              else if kind =? 1 then read_ret Failed
              else if kind =? 2 then read_ret (Measured (micros * 1000))
              else read_fail) ;;
    field <~ read_u8 ;; read_ret (probe, field)
  else read_ret (Unchecked, field).

Definition with_group_opt (g : option string) (r : DnsResponse Name) : DnsResponse Name :=
  match g with Some g => with_name_server_group r g | None => r end.

Definition read_message : Reader (Message Name) := fun data i =>
  match msg_read data i with Some x => Got x | None => Malformed end.

(** [BinDecodable::read] *)
Definition read_entry rng (clock : Clock) : Reader (DnsCacheEntry Name) :=
  _ <~ expect 1 ;;
  message <~ read_message ;;
  valid_until <~ read_deadline rng clock ;;
  _ <~ expect 3 ;;
  group_name <~ read_group ;;
  probed <~ read_probe ;;
  if probed.2 =? 4 then
    hits <~ read_u32 ;;
    let res := with_probe_result (with_valid_until (resp_of_message clock.1 message) valid_until) probed.1 in
    read_ret (entry_set_hits hits (entry_new (with_group_opt group_name res) valid_until))
  else read_fail.

(** ** Files *)

(** [serialize_many]: an entry that cannot be encoded is left out. Each entry
    comes with the reading of the clocks when it is written. *)
Definition serialize_many (entries : list (DnsCacheEntry Name * Clock)) : list Z :=
  entries ≫= (fun x => opt_unwrap_or [] (emit_entry x.2 x.1)).

(** [deserialize_many]: [clocks n] are the clocks when entry [n] is read. The
    outer [None] is the model's own bound on the loop. *)
Fixpoint deserialize_loop (fuel : nat) rng (clocks : nat → Clock) (n : nat) (data : list Z)
    : option (ReadResult (list (DnsCacheEntry Name))) :=
  match data with
  | [] => Some (Got [])
  | _ =>
      match fuel with
      | O => None
      | S fuel =>
          match read_entry rng (clocks n) data 0%nat with
          | Malformed => Some Malformed
          | ReadPanics => Some ReadPanics
          | Got (e, i) =>
              rest ← deserialize_loop fuel rng clocks (S n) (drop i data);
              Some (match rest with Got l => Got (e :: l) | x => x end)
          end
      end
  end.

Definition deserialize_many rng (clocks : nat → Clock) (data : list Z)
    : option (ReadResult (list (DnsCacheEntry Name))) :=
  deserialize_loop (length data) rng clocks 0%nat data.

(** ** Round trips *)

(** After [pre], the reader takes exactly [enc] and gives [v]. *)
Definition reads {A} (pre : list Z) (r : Reader A) (enc : list Z) (v : A) : Prop :=
  ∀ post, r (pre ++ enc ++ post) (length pre) = Got (v, (length pre + length enc)%nat).

Lemma reads_ret {A} pre (v : A) : reads pre (read_ret v) [] v.
Proof. intros post. unfold read_ret. cbn. by rewrite Nat.add_0_r. Qed.

Lemma reads_bind {A B} pre (r : Reader A) (k : A → Reader B) (b1 b2 : list Z) v1 v2 :
  reads pre r b1 v1 → reads (pre ++ b1) (k v1) b2 v2 → reads pre (read_bind r k) (b1 ++ b2) v2.
Proof.
  intros H3 H4 post. unfold read_bind. rewrite <- app_assoc, H3. cbn.
  pose proof (H4 post) as H5'. rewrite <- app_assoc, length_app in H5'. rewrite H5', length_app, Nat.add_assoc. done.
Qed.

Lemma reads_bind_nil {A B} pre (r : Reader A) (k : A → Reader B) (b : list Z) v1 v2 :
  reads pre r b v1 → reads (pre ++ b) (k v1) [] v2 → reads pre (read_bind r k) b v2.
Proof. intros H3 H4. rewrite <- (app_nil_r b). by eapply reads_bind. Qed.

Lemma reads_u8 pre b : reads pre read_u8 [b] b.
Proof. intros post. unfold read_u8. cbn. rewrite list_lookup_middle by done. cbn. repeat f_equal. lia. Qed.

Lemma reads_expect pre tag : reads pre (expect tag) [tag] tt.
Proof.
  apply (reads_bind _ _ _ [tag] [] tag tt); [apply reads_u8|]. rewrite Z.eqb_refl. apply reads_ret.
Qed.

Lemma reads_u16 pre n : in_u16 n → reads pre read_u16 (be16 n) n.
Proof.
  intros Hn. replace n with (Z.shiftl (as_u8 (Z.shiftr n 8)) 8 + as_u8 n) at 2.
  - do 2 (eapply (reads_bind _ _ _ [_]); [apply reads_u8|]). apply reads_ret.
  - unfold as_u8, in_u16, u16_max in *. rewrite Z.shiftl_mul_pow2, Z.shiftr_div_pow2 by lia.
    change (2 ^ 8) with 256. pose proof (Z.div_mod n 256). rewrite (Z.mod_small (n / 256)); [lia|].
    split; [apply Z.div_pos; lia|apply Z.div_lt_upper_bound; lia].
Qed.

Lemma be32_value n :
  Z.shiftl (as_u8 (Z.shiftr n 24)) 24 + Z.shiftl (as_u8 (Z.shiftr n 16)) 16
  + Z.shiftl (as_u8 (Z.shiftr n 8)) 8 + as_u8 n = as_u32 n.
Proof.
  unfold as_u8, as_u32. rewrite !Z.shiftl_mul_pow2, !Z.shiftr_div_pow2 by lia.
  change (2 ^ 8) with 256. change (2 ^ 16) with (256 * 256). change (2 ^ 24) with (256 * 256 * 256).
  change 4294967296 with (256 * (256 * (256 * 256))). rewrite <- !Z.div_div by lia.
  rewrite !Z.rem_mul_r by lia. lia.
Qed.

Lemma reads_u32 pre n : reads pre read_u32 (be32 n) (as_u32 n).
Proof.
  rewrite <- be32_value. do 4 (eapply (reads_bind _ _ _ [_]); [apply reads_u8|]). apply reads_ret.
Qed.

Lemma reads_slice pre l : reads pre (read_slice (length l)) l l.
Proof.
  intros post. unfold read_slice. rewrite !length_app.
  rewrite (proj2 (Nat.leb_le _ _)) by lia. by rewrite drop_app_length, take_app_length.
Qed.

(** *** Text *)
Lemma string_of_bytes_of_string s : string_of_bytes (bytes_of_string s) = s.
Proof.
  unfold string_of_bytes, bytes_of_string. rewrite <- list_fmap_compose.
  rewrite <- (String.string_of_list_ascii_of_string s) at 2. f_equal.
  rewrite <- (list_fmap_id (String.list_ascii_of_string s)) at 2. apply list_fmap_ext.
  intros i c _. cbn. rewrite Nat2Z.id. apply Ascii.ascii_nat_embedding.
Qed.

(** A group name that a file can hold: text, and shorter than 65536 bytes. *)
Definition group_ok (g : option string) : Prop :=
  match g with
  | Some g => utf8_valid (length (bytes_of_string g)) (bytes_of_string g) = true ∧
              Z.of_nat (length (bytes_of_string g)) ≤ u16_max
  | None => True
  end.

(** What is read back of a group: the empty name is no name. *)
Definition read_back_group (g : option string) : option string :=
  opt_filter (fun g => negb (bool_decide (g = ""))) g.

Lemma bytes_of_string_nil g : length (bytes_of_string g) = 0%nat → g = "".
Proof. unfold bytes_of_string. rewrite length_fmap. by destruct g. Qed.

Lemma reads_group pre g : group_ok g → reads pre read_group (group_field g) (read_back_group g).
Proof.
  unfold group_field, read_group. destruct g as [g|]; cbn [read_back_group opt_filter].
  - intros [Hv Hl]. unfold as_u16. rewrite Z.mod_small by (unfold u16_max in Hl; lia).
    apply (reads_bind _ _ _ _ _ (Z.of_nat (length (bytes_of_string g)))).
    + apply reads_u16. unfold in_u16. lia.
    + destruct (Z.ltb_spec 0 (Z.of_nat (length (bytes_of_string g)))).
      * rewrite Nat2Z.id. eapply reads_bind_nil; [apply reads_slice|]. unfold from_utf8. rewrite Hv, string_of_bytes_of_string.
        rewrite bool_decide_false; [apply reads_ret|]. by intros ->.
      * rewrite (bytes_of_string_nil g) by lia. apply reads_ret.
  - intros _. eapply reads_bind_nil; [by apply reads_u16|]. apply reads_ret.
Qed.

(** *** Probe results *)

(** A delay is saved in whole microseconds, and at most 4294 seconds. *)
Definition read_back_probe (p : ProbeResult) : ProbeResult :=
  match p with
  | Measured d => Measured (Z.min (d / 1000) u32_max * 1000)
  | p => p
  end.

Definition probe_ok (p : ProbeResult) : Prop := match p with Measured d => 0 ≤ d | _ => True end.

Lemma reads_probe pre p :
  probe_ok p →
  reads pre read_probe (probe_field p) (read_back_probe p, 4).
Proof.
  intros Hp. unfold read_probe. eapply (reads_bind _ _ _ [6]); [apply reads_u8|].
  cbn beta. rewrite Z.eqb_refl. eapply reads_bind; [apply reads_u8|]. eapply reads_bind; [apply reads_u32|].
  assert (Hm : as_u32 (probe_fields p).2 = (probe_fields p).2).
  { apply Z.mod_small. destruct p as [| |d]; cbn in *; [done..|].
    unfold u32_max. pose proof (Z.div_pos d 1000). lia. }
  rewrite Hm. apply (reads_bind _ _ _ [] [4] (read_back_probe p)).
  - destruct p; cbn; apply reads_ret.
  - eapply reads_bind_nil; [apply reads_u8|]. apply reads_ret.
Qed.
(** *** Deadlines *)

(** The wall clock is a [u64] number of seconds. *)
Definition clock_ok (clock : Clock) : Prop := in_u64 clock.2.

Lemma expires_at_u64 clock until : clock_ok clock → in_u64 (expires_at clock until).
Proof.
  unfold clock_ok, in_u64, expires_at, saturating_add_u64, saturating_sub. destruct clock as [now wall]; cbn.
  intros Hw. unfold as_secs. destruct (Z.ltb_spec now until).
  - pose proof (Z.div_pos (until - now) 1000000000). unfold u64_max in *. lia.
  - pose proof (Z.div_pos (now - until) 1000000000). lia.
Qed.

Lemma halves_u64 n : in_u64 n → Z.lor (Z.shiftl (as_u32 (Z.shiftr n 32)) 32) (as_u32 n) = n.
Proof.
  unfold in_u64, u64_max. intros Hn. unfold as_u32. change 4294967296 with (2 ^ 32).
  rewrite (Z.mod_small (Z.shiftr n 32)).
  2:{ rewrite Z.shiftr_div_pow2 by lia. split; [apply Z.div_pos; lia|apply Z.div_lt_upper_bound; lia]. }
  rewrite <- Z.land_ones by lia. apply Z.bits_inj'. intros k Hk.
  rewrite Z.lor_spec, Z.shiftl_spec, Z.land_spec by lia.
  destruct (Z.ltb_spec k 32).
  - rewrite Z.testbit_neg_r, Z.ones_spec_low by lia. by rewrite andb_true_r.
  - rewrite Z.shiftr_spec, Z.ones_spec_high by lia. rewrite andb_false_r, orb_false_r. f_equal. lia.
Qed.

Lemma reads_deadline pre rng clock expires until :
  in_u64 expires → deadline_of rng clock expires = Some until →
  reads pre (read_deadline rng clock) (deadline_field expires) until.
Proof.
  intros He Hd. eapply (reads_bind _ _ _ [5]); [apply reads_u8|]. cbn beta.
  change (5 =? 2) with false. change (5 =? 5) with true. cbn iota.
  eapply reads_bind; [apply reads_u32|]. eapply reads_bind_nil; [apply reads_u32|].
  rewrite halves_u64, Hd by done. apply reads_ret.
Qed.

(** *** Entries *)

(** What an entry is after it is saved at [clock] and read at [clock'], with
    the deadline [until] it then gets: its message, the name of its group, its
    probe result and the low 32 bits of its number of hits are kept. *)
Definition restored (clock' : Clock) (until : Instant) e : DnsCacheEntry Name :=
  entry_set_hits (as_u32 (e_hits e))
    (entry_new
       (with_group_opt (read_back_group (name_server_group (e_data e)))
          (with_probe_result
             (with_valid_until (resp_of_message clock'.1 (resp_message (e_data e))) until)
             (read_back_probe (probe_result (e_data e))))) until).

(** The entries the format is made for. *)
Record storable (e : DnsCacheEntry Name) : Prop := {
  storable_message : msg_fits (resp_message (e_data e)) = true;
  storable_group : group_ok (name_server_group (e_data e));
  storable_probe : probe_ok (probe_result (e_data e));
}.

Context `{!MsgCodecLaws Name}.

Lemma reads_entry rng clock clock' e bytes until :
  storable e → clock_ok clock → emit_entry clock e = Some bytes →
  deadline_of rng clock' (expires_at clock (e_valid_until e)) = Some until →
  reads [] (read_entry rng clock') bytes (restored clock' until e).
Proof.
  intros [Hm Hg Hp] Hc He Hd. unfold emit_entry in He.
  destruct (msg_emit [1] (resp_message (e_data e))) as [msg|] eqn:Hemit; [|done]. cbn [mbind option_bind] in He.
  case_match; [|done]. apply (inj Some) in He as <-.
  eapply (reads_bind _ _ _ [1]); [apply reads_expect|]. cbn beta.
  eapply (reads_bind _ _ _ msg).
  { intros post. unfold read_message. cbn [app]. pose proof (msg_read_emit [1] _ _ post Hm Hemit) as Hr.
    cbn [app] in Hr. rewrite Hr. done. }
  cbn beta.
  eapply reads_bind; [apply reads_deadline; [by apply expires_at_u64|exact Hd]|]. cbn beta.
  eapply (reads_bind _ _ _ [3]); [apply reads_expect|]. cbn beta.
  eapply reads_bind; [by apply reads_group|]. cbn beta.
  eapply reads_bind; [by apply reads_probe|]. cbn beta. cbn [snd]. rewrite Z.eqb_refl.
  eapply reads_bind_nil; [apply reads_u32|]. apply reads_ret.
Qed.

(** ** Reading ends *)

(** A reader never moves back. *)
Definition onward {A} (r : Reader A) : Prop := ∀ data i a j, r data i = Got (a, j) → (i ≤ j)%nat.

Lemma onward_ret {A} (a : A) : onward (read_ret a).
Proof. intros data i a' j Hr. unfold read_ret in Hr. naive_solver. Qed.
Lemma onward_fail {A} : onward (read_fail (A := A)).
Proof. by intros data i a j. Qed.
Lemma onward_or_panic {A} (x : option A) : onward (read_or_panic x).
Proof. destruct x; [apply onward_ret|by intros data i b j]. Qed.
Lemma onward_bind {A B} (r : Reader A) (k : A → Reader B) :
  onward r → (∀ a, onward (k a)) → onward (read_bind r k).
Proof.
  intros Hr Hk data i b j Hb. unfold read_bind in Hb. destruct (r data i) as [[a i']| |] eqn:Ha; [|done..].
  apply Hr in Ha. apply Hk in Hb. lia.
Qed.
Lemma onward_u8 : onward read_u8.
Proof. intros data i a j. unfold read_u8. destruct (data !! i); naive_solver lia. Qed.
Lemma onward_slice n : onward (read_slice n).
Proof. intros data i a j. unfold read_slice. case_match; naive_solver lia. Qed.
Lemma onward_message : onward read_message.
Proof.
  intros data i a j. unfold read_message. destruct (msg_read data i) as [[m j']|] eqn:Hm; [|done].
  apply msg_read_bounds in Hm. naive_solver lia.
Qed.

Ltac onward :=
  repeat match goal with
  | |- onward (read_bind _ _) => apply onward_bind; [|intros ?]
  | |- onward (read_ret _) => apply onward_ret
  | |- onward read_fail => apply onward_fail
  | |- onward (read_or_panic _) => apply onward_or_panic
  | |- onward read_u8 => apply onward_u8
  | |- onward (read_slice _) => apply onward_slice
  | |- onward read_message => apply onward_message
  | |- onward (if ?b then _ else _) => destruct b
  | |- onward (expect _) => unfold expect
  | |- onward read_u16 => unfold read_u16
  | |- onward read_u32 => unfold read_u32
  | |- onward (read_deadline _ _) => unfold read_deadline
  | |- onward read_group => unfold read_group
  | |- onward read_probe => unfold read_probe
  | _ => progress cbv zeta
  end.

Lemma read_entry_consumes rng clock data e i : read_entry rng clock data 0%nat = Got (e, i) → (0 < i)%nat.
Proof.
  unfold read_entry. unfold read_bind at 1. destruct (expect 1 data 0%nat) as [[u i']| |] eqn:He; [|done..].
  assert (i' = 1%nat) as ->.
  { unfold expect, read_bind, read_u8, read_ret, read_fail in He. repeat case_match; naive_solver. }
  intros Hr. match type of Hr with ?r _ _ = _ => assert (Ho : onward r) by onward end.
  apply Ho in Hr. lia.
Qed.

Lemma deserialize_loop_enough fuel rng clocks n data :
  (length data ≤ fuel)%nat →
  deserialize_loop fuel rng clocks n data = deserialize_loop (length data) rng clocks n data ∧
  is_Some (deserialize_loop (length data) rng clocks n data).
Proof.
  remember (length data) as len eqn:Hlen. revert fuel n data Hlen.
  induction len as [len IH] using lt_wf_ind. intros fuel n [|b data] -> Hf; [by destruct fuel|].
  cbn [length] in *. destruct fuel as [|fuel]; [lia|]. cbn [deserialize_loop].
  destruct (read_entry rng (clocks n) (b :: data) 0%nat) as [[e i]| |] eqn:He; [|done..].
  apply read_entry_consumes in He.
  assert (Hd : (length (drop i (b :: data)) < S (length data))%nat).
  { rewrite length_drop. cbn [length]. lia. }
  destruct (IH _ Hd fuel (S n) _ eq_refl) as [-> [x Hx]]; [lia|].
  destruct (IH _ Hd (length data) (S n) _ eq_refl) as [-> _]; [lia|]. rewrite Hx. cbn [mbind option_bind].
  split; [done|]. by destruct x.
Qed.

(** ** What a file holds *)

Definition encodable (x : DnsCacheEntry Name * Clock) : bool := is_some (emit_entry x.2 x.1).

(** The entries [l] read before what the rest of the file gives. *)
Definition read_before (l : list (DnsCacheEntry Name)) (o : option (ReadResult (list (DnsCacheEntry Name))))
    : option (ReadResult (list (DnsCacheEntry Name))) :=
  rest ← o; Some (match rest with Got l' => Got (l ++ l') | x => x end).

Lemma read_before_nil o : read_before [] o = o.
Proof. by destruct o as [[]|]. Qed.

Lemma emit_entry_nonempty clock e bytes : emit_entry clock e = Some bytes → (0 < length bytes)%nat.
Proof.
  unfold emit_entry. destruct (msg_emit _ _) as [msg|]; [|done]. cbn [mbind option_bind].
  case_match; [|done]. intros <-%(inj Some). cbn. lia.
Qed.

Lemma deserialize_loop_entry rng (clocks : nat → Clock) n e clock bytes until rest :
  storable e → clock_ok clock → emit_entry clock e = Some bytes →
  deadline_of rng (clocks n) (expires_at clock (e_valid_until e)) = Some until →
  deserialize_loop (length (bytes ++ rest)) rng clocks n (bytes ++ rest) =
  read_before [restored (clocks n) until e] (deserialize_loop (length rest) rng clocks (S n) rest).
Proof.
  intros Hs Hc He Hd. pose proof (emit_entry_nonempty _ _ _ He) as Hl.
  pose proof (reads_entry _ _ _ _ _ _ Hs Hc He Hd rest) as Hr. cbn [app length Nat.add] in Hr.
  assert (Hdrop : drop (length bytes) (bytes ++ rest) = rest) by apply drop_app_length.
  assert (Hfuel : (length rest < length (bytes ++ rest))%nat) by (rewrite length_app; lia).
  destruct (bytes ++ rest) as [|b l] eqn:Hbl; [cbn in Hfuel; lia|]. cbn [length] in Hfuel |- *.
  cbn [deserialize_loop]. rewrite Hr, Hdrop.
  destruct (deserialize_loop_enough (length l) rng clocks (S n) rest) as [-> _]; [lia|]. done.
Qed.

Lemma deserialize_loop_entries rng (clocks : nat → Clock) (untils : nat → Instant)
    (xs : list (DnsCacheEntry Name * Clock)) rest n :
  Forall (fun x => storable x.1 ∧ clock_ok x.2) xs →
  (∀ k x, List.filter encodable xs !! k = Some x →
     deadline_of rng (clocks (n + k)%nat) (expires_at x.2 (e_valid_until x.1)) = Some (untils (n + k)%nat)) →
  deserialize_loop (length (serialize_many xs ++ rest)) rng clocks n (serialize_many xs ++ rest) =
  read_before (imap (fun k x => restored (clocks (n + k)%nat) (untils (n + k)%nat) x.1) (List.filter encodable xs))
    (deserialize_loop (length rest) rng clocks (n + length (List.filter encodable xs))%nat rest).
Proof.
  revert n. induction xs as [|[e clock] xs IH]; intros n Hxs Hd.
  { cbn. by rewrite read_before_nil, Nat.add_0_r. }
  apply Forall_cons_1 in Hxs as [[Hs Hc] Hxs]. unfold serialize_many in *. cbn [mbind list_bind fst snd].
  cbn [List.filter] in *. unfold encodable in Hd at 1. unfold encodable at 1 4. cbn [fst snd] in *.
  destruct (emit_entry clock e) as [bytes|] eqn:He; cbn [is_some opt_unwrap_or] in *; [|by apply IH].
  rewrite <- app_assoc. rewrite (deserialize_loop_entry _ _ _ _ _ _ (untils n) _ Hs Hc He).
  2:{ specialize (Hd 0%nat _ eq_refl). by rewrite Nat.add_0_r in Hd. }
  rewrite (IH (S n) Hxs).
  2:{ intros k x Hk. specialize (Hd (S k) x Hk). by rewrite Nat.add_succ_r in Hd. }
  cbn [imap length]. rewrite Nat.add_0_r, !Nat.add_succ_r. cbn [Nat.add].
  rewrite (imap_ext _ ((fun k (x : DnsCacheEntry Name * Clock) =>
     restored (clocks (n + k)%nat) (untils (n + k)%nat) x.1) ∘ S)).
  2:{ intros k x _. cbn. by rewrite Nat.add_succ_r. }
  by destruct (deserialize_loop _ _ _ _ rest) as [[]|].
Qed.
End CacheFile.

(** ** Deadlines *)
(** The deadline an entry has when it is read at [clock'], which was [until] when it was
    saved at [clock]: the time left, less the time the wall clock moved, to within a
    second, and never longer for an entry that was valid; a deadline before the
    earliest instant is taken to be now. *)
Definition time_left (clock clock' : Clock) (until : Instant) : Z := (until - clock.1) - secs (clock'.2 - clock.2).
Definition deadline_kept rng (clock clock' : Clock) (until until' : Instant) : Prop :=
  let left := time_left clock clock' until in
  (clock.1 < until → left - secs 1 < until' - clock'.1 ≤ left ∨
                     until' = clock'.1 ∧ left < secs 1 ∧ clock'.1 + left - secs 1 < instant_min rng) ∧
  (until ≤ clock.1 → left ≤ until' - clock'.1 < left + secs 1 ∨
                     until' = clock'.1 ∧ left ≤ 0 ∧ clock'.1 + left < instant_min rng).

(** The times of an entry that fit the file and the clock: the wall clock does not
    leave its 64 bits, and the deadline is not past the latest instant. *)
Definition times_fit rng (clock clock' : Clock) (until : Instant) : Prop :=
  0 ≤ clock.2 - as_secs (clock.1 - until) ∧ clock.2 + as_secs (until - clock.1) ≤ u64_max ∧
  clock'.1 + time_left clock clock' until + secs 1 ≤ instant_max rng.

Lemma restored_deadline rng (clock clock' : Clock) (until : Instant) :
  times_fit rng clock clock' until →
  ∃ until', deadline_of rng clock' (expires_at clock until) = Some until' ∧ deadline_kept rng clock clock' until until'.
Proof.
  destruct clock as [now wall], clock' as [now' wall']. unfold times_fit, deadline_kept, time_left. cbn [fst snd]. intros (Hlo & Hhi & Hmax).
  pose proof (Z.div_mod (until - now) 1000000000 ltac:(lia)).
  pose proof (Z.mod_pos_bound (until - now) 1000000000 ltac:(lia)).
  pose proof (Z.div_mod (now - until) 1000000000 ltac:(lia)).
  pose proof (Z.mod_pos_bound (now - until) 1000000000 ltac:(lia)).
  unfold deadline_of, expires_at, instant_add, checked_sub, saturating_add_u64, saturating_sub, as_secs, secs in *.
  destruct (Z.ltb_spec now until).
  - rewrite Z.min_r by lia. destruct (Z.ltb_spec wall' (wall + (until - now) / 1000000000)).
    + rewrite (proj2 (Z.leb_le _ _)) by lia. eexists. split; [reflexivity|]. split; lia.
    + destruct (Z.leb_spec (instant_min rng) (now' - (wall' - (wall + (until - now) / 1000000000)) * 1000000000));
        cbn [opt_unwrap_or]; (eexists; split; [reflexivity|]; split; lia).
  - rewrite Z.max_r by lia. destruct (Z.ltb_spec wall' (wall - (now - until) / 1000000000)).
    + rewrite (proj2 (Z.leb_le _ _)) by lia. eexists. split; [reflexivity|]. split; lia.
    + destruct (Z.leb_spec (instant_min rng) (now' - (wall' - (wall - (now - until) / 1000000000)) * 1000000000));
        cbn [opt_unwrap_or]; (eexists; split; [reflexivity|]; split; lia).
Qed.

(** ** Theorems *)
Section CacheFileProps.
Context {Name : Type} `{NameLib Name} `{MsgLib Name} `{Sizes Name} `{MsgCodecLaws Name}.

(** C15: saving entries and reading the file gives the entries that could be
    encoded, in order, each with its message, group, probe result in microseconds
    and hits, and with the deadline it had to within a second of the time that
    passed on the wall clock, never a later one when it was valid, or now when that
    is before the earliest instant. *)
Theorem cache_file_roundtrip rng (clocks : nat → Clock) (xs : list (DnsCacheEntry Name * Clock)) :
  Forall (fun x => storable x.1 ∧ clock_ok x.2) xs →
  (∀ k x, List.filter encodable xs !! k = Some x → times_fit rng x.2 (clocks k) (e_valid_until x.1)) →
  ∃ untils : nat → Instant,
    deserialize_many rng clocks (serialize_many xs) =
      Some (Got (imap (fun k x => restored (clocks k) (untils k) x.1) (List.filter encodable xs))) ∧
    ∀ k x, List.filter encodable xs !! k = Some x → deadline_kept rng x.2 (clocks k) (e_valid_until x.1) (untils k).
Proof.
  intros Hxs Ht.
  set (untils k := match List.filter encodable xs !! k with
                   | Some x => opt_unwrap_or 0 (deadline_of rng (clocks k) (expires_at x.2 (e_valid_until x.1)))
                   | None => 0
                   end).
  assert (Hd : ∀ k x, List.filter encodable xs !! k = Some x →
    deadline_of rng (clocks k) (expires_at x.2 (e_valid_until x.1)) = Some (untils k) ∧
    deadline_kept rng x.2 (clocks k) (e_valid_until x.1) (untils k)).
  { intros k x Hk. destruct (restored_deadline _ _ _ _ (Ht k x Hk)) as (until' & Hu & Hkept). unfold untils. by rewrite Hk, Hu. }
  exists untils. split; [|intros k x Hk; by apply Hd].
  pose proof (deserialize_loop_entries rng clocks untils xs [] 0%nat Hxs (λ k x Hk, proj1 (Hd k x Hk))) as Hl.
  rewrite app_nil_r in Hl. unfold deserialize_many. rewrite Hl. cbn. by rewrite app_nil_r.
Qed.

(** A file is read to its end or to the first entry that cannot be read,
    whatever its bytes are; with such an entry nothing is loaded, the entries
    before it included. *)
Theorem cache_file_damaged rng (clocks : nat → Clock) (untils : nat → Instant)
    (xs : list (DnsCacheEntry Name * Clock)) (rest : list Z) :
  Forall (fun x => storable x.1 ∧ clock_ok x.2) xs →
  (∀ k x, List.filter encodable xs !! k = Some x →
     deadline_of rng (clocks k) (expires_at x.2 (e_valid_until x.1)) = Some (untils k)) →
  is_Some (deserialize_many rng clocks rest) ∧
  (rest ≠ [] → read_entry rng (clocks (length (List.filter encodable xs))) rest 0%nat = Malformed →
   deserialize_many rng clocks (serialize_many xs ++ rest) = Some Malformed).
Proof.
  intros Hxs Hd. split; [by apply (deserialize_loop_enough (length rest))|].
  intros Hne Hr. unfold deserialize_many. rewrite (deserialize_loop_entries rng clocks untils xs rest 0%nat Hxs Hd).
  destruct rest as [|b rest]; [done|]. cbn [deserialize_loop length]. cbn [Nat.add]. by rewrite Hr.
Qed.
End CacheFileProps.

(** ** At a concrete point *)

(** A codec of queries for the root, and nothing else. *)
Definition root_fits (m : Message PlainName) : bool :=
  match m with
  | mkMsg h [mkQuery (mkName [] fqdn) t c] [] [] [] None =>
      bool_decide (h = mkHeader 0 false 0) && fqdn && in_range 0 t 255 && (c =? 1)
  | _ => false
  end.
Definition root_message (t : RecordType) : Message PlainName :=
  mkMsg (mkHeader 0 false 0) [mkQuery (mkName [] true) t 1] [] [] [] None.

#[local] Instance root_codec : MsgCodec PlainName := {
  enc_max := Z.to_nat u16_max;
  msg_fits := root_fits;
  msg_emit pre m := if root_fits m then Some (q_type <$> msg_queries m) else None;
  msg_read data i := t ← data !! i; Some (root_message t, S i);
}.

#[local] Instance root_codec_laws : MsgCodecLaws PlainName.
Proof.
  split.
  - intros pre m out post Hf. cbn. change (root_fits m = true) in Hf. rewrite Hf. intros [= <-].
    unfold root_fits in Hf. destruct m as [h qs a au ad ed]. repeat case_match; simplify_eq.
    rewrite !andb_true_iff, bool_decide_eq_true in Hf. destruct Hf as (((-> & ->) & _) & Hc).
    cbn. rewrite list_lookup_middle by done. cbn. rewrite Nat.add_1_r. unfold root_message. repeat f_equal. lia.
  - intros data i m j. cbn. destruct (data !! i) eqn:Hl; [|done]. apply lookup_lt_Some in Hl. cbn.
    intros Hm. injection Hm as _ <-. unfold RecordType in *. lia.
Qed.

#[local] Instance file_sizes : Sizes PlainName := {
  size_entry := 0; size_query := 0; size_record := 0; size_message := 0; size_usize := 0;
  size_ttl_reply := 0; name_len _ := 1 }.

Definition file_entry (m : Message PlainName) : DnsCacheEntry PlainName :=
  entry_new (mkResp m None None (secs 100) (Some "office") (Measured 1234567)) (secs 100).

(** Two entries, one of which cannot be encoded. *)
Definition file_entries : list (DnsCacheEntry PlainName * Clock) :=
  [(file_entry (root_message TYPE_A), (secs 40, 1700000000));
   (entry_set_hits 7 (file_entry (root_message TYPE_AAAA)), (secs 41, 1700000001))].

Definition file_range : InstantRange := mkRange 0 (secs 1000000000).
Definition file_clocks (n : nat) : Clock := (secs 10, 1700000030).
Definition file_untils (n : nat) : Instant := match n with O => secs 40 | _ => secs 40 end.

Lemma file_entries_ok : Forall (fun x => storable x.1 ∧ clock_ok x.2) file_entries.
Proof.
  repeat constructor; cbn; unfold u16_max, u64_max; try lia.
Qed.
(** Two entries saved, and read half a minute later. *)
Lemma cache_file_roundtrip_witness :
  ∃ l, deserialize_many file_range file_clocks (serialize_many file_entries) = Some (Got l) ∧
       length l = 2%nat ∧ (e_hits <$> l) = [0; 7] ∧ Forall (fun e => secs 39 < e_valid_until e ≤ secs 41) l ∧
       ((fun e => name_server_group (e_data e)) <$> l) = [Some "office"; Some "office"] ∧
       ((fun e => probe_result (e_data e)) <$> l) = [Measured 1234000; Measured 1234000].
Proof.
  destruct (cache_file_roundtrip file_range file_clocks file_entries file_entries_ok) as (untils & Hl & Hu).
  { intros [|[|k]] x Hk; vm_compute in Hk; simplify_eq; vm_compute; repeat split; discriminate. }
  exists (imap (fun k x => restored (file_clocks k) (untils k) x.1) (List.filter encodable file_entries)). split; [exact Hl|].
  assert (He : List.filter encodable file_entries = file_entries) by (vm_compute; reflexivity).
  rewrite He in *. split; [reflexivity|]. split; [reflexivity|]. split; [|split; reflexivity].
  pose proof (Hu 0%nat _ eq_refl) as [H0 _]. pose proof (Hu 1%nat _ eq_refl) as [H1 _].
  specialize (H0 ltac:(vm_compute; reflexivity)). specialize (H1 ltac:(vm_compute; reflexivity)).
  unfold file_range, file_clocks, time_left, secs in *. cbn in H0, H1. unfold secs in *.
  apply Forall_cons_2; [cbn; lia|]. apply Forall_singleton. cbn. lia.
Defined.

(** A file whose last entry is cut off after its first byte. *)
Lemma cache_file_damaged_witness :
  deserialize_many (Name := PlainName) file_range file_clocks (serialize_many file_entries ++ [1]) = Some Malformed.
Proof.
  apply (cache_file_damaged file_range file_clocks file_untils file_entries [1] file_entries_ok).
  - intros [|[|k]] x Hk; vm_compute in Hk; simplify_eq; vm_compute; reflexivity.
  - done.
  - vm_compute. reflexivity.
Defined.
