(* ===== verification/Tasks.v ===== *)
(** * Concurrent lookups and probes: futures with their completion times

    A future that runs at the same time as others is a task: the instant at
    which it is ready and its output. Waiting for the first of several is the
    futures library's [select_all], a class with its documented behaviour. *)

From S2P Require Import Prelude Message.

Abbreviation Task T := (prod Z T).

Definition millis (n : Z) : Z := n * 1000000.

(** How an asynchronous computation ends: with a value at some instant, or in
    a panic; [OutOfFuel] is the model's own bound, which is never reached. *)
Inductive Outcome (T : Type) :=
| Done (t : Instant) (x : T)
| Panicked
| OutOfFuel.
Arguments Done {T} _ _.
Arguments Panicked {T}.
Arguments OutOfFuel {T}.

Definition out_map {A B} (f : A → B) (o : Outcome A) : Outcome B :=
  match o with Done t x => Done t (f x) | Panicked => Panicked | OutOfFuel => OutOfFuel end.

Definition out_bind {A B} (o : Outcome A) (k : Instant → A → Outcome B) : Outcome B :=
  match o with Done t x => k t x | Panicked => Panicked | OutOfFuel => OutOfFuel end.

Definition out_task {T} (x : Task T) : Outcome T := Done x.1 x.2.

(** ** [select_all]

    The futures library's [select_all] waits for the future that is ready first
    and gives back the others, in some order; it panics without futures. *)
Class FuturesLib := {
  select_all {T : Type} : list (Task T) → option (Task T * list (Task T));
}.

Class FuturesLaws `{FuturesLib} : Prop := {
  select_all_Some {T} (l : list (Task T)) x rest :
    select_all l = Some (x, rest) → l ≡ₚ x :: rest ∧ Forall (fun y => x.1 ≤ y.1) l;
  select_all_is_Some {T} (l : list (Task T)) : l ≠ [] → ∃ x rest, select_all l = Some (x, rest);
}.

Section Tasks.
Context `{FL : FuturesLaws} {T : Type}.
Implicit Types (l : list (Task T)) (x : Task T).

Lemma select_all_nil : select_all (T := T) [] = None.
Proof.
  destruct (select_all []) as [[x rest]|] eqn:E; [|done].
  apply select_all_Some in E as [Hp _]. by apply Permutation_nil_cons in Hp.
Qed.

Lemma select_all_length l x rest : select_all l = Some (x, rest) → length l = S (length rest).
Proof. by intros [->%Permutation_length _]%select_all_Some. Qed.

Lemma select_all_elem l x rest y : select_all l = Some (x, rest) → y ∈ l ↔ y = x ∨ y ∈ rest.
Proof. intros [-> _]%select_all_Some. by rewrite elem_of_cons. Qed.

Lemma select_all_None l : select_all l = None → l = [].
Proof.
  destruct (decide (l = [])) as [|Hne]; [done|].
  destruct (select_all_is_Some l Hne) as (x & rest & ->). done.
Qed.

(** *** The order in which concurrent tasks complete *)
Fixpoint completion_order (n : nat) l : list (Task T) :=
  match n with
  | O => []
  | S n => match select_all l with Some (x, rest) => x :: completion_order n rest | None => [] end
  end.
Definition completed l : list (Task T) := completion_order (length l) l.

Lemma completed_cons l x rest : select_all l = Some (x, rest) → completed l = x :: completed rest.
Proof. intros Hs. unfold completed. rewrite (select_all_length _ _ _ Hs). cbn. by rewrite Hs. Qed.

Lemma completed_perm l : completed l ≡ₚ l.
Proof.
  remember (length l) as n eqn:Hn. revert l Hn. induction n as [|n IH]; intros l Hn.
  - by destruct l.
  - destruct (select_all l) as [[x rest]|] eqn:Hs; [|by apply select_all_None in Hs as ->].
    rewrite (completed_cons _ _ _ Hs), IH.
    + by apply select_all_Some in Hs as [-> _].
    + apply select_all_length in Hs. lia.
Qed.

Lemma completed_sorted l : StronglySorted (fun x y => x.1 ≤ y.1) (completed l).
Proof.
  remember (length l) as n eqn:Hn. revert l Hn. induction n as [|n IH]; intros l Hn.
  - destruct l; [constructor|done].
  - destruct (select_all l) as [[x rest]|] eqn:Hs;
      [|apply select_all_None in Hs as ->; constructor].
    rewrite (completed_cons _ _ _ Hs). constructor.
    + apply IH. apply select_all_length in Hs. lia.
    + rewrite completed_perm. apply select_all_Some in Hs as [Hp Hall].
      rewrite Hp in Hall. by apply Forall_cons_1 in Hall as [_ Hall].
Qed.

Lemma select_all_singleton x : select_all [x] = Some (x, []).
Proof.
  destruct (select_all_is_Some [x]) as (y & rest & Hs); [done|].
  pose proof (select_all_Some _ _ _ Hs) as [Hp _]. symmetry in Hp.
  apply Permutation_singleton_r in Hp. injection Hp as -> ->. done.
Qed.
End Tasks.

(** ** [select_ok]: the first success, or the last error; it is not called without
    futures *)
Section SelectOk.
Context `{FL : FuturesLib} {A E : Type}.
Variable none : E.

Fixpoint select_ok (fuel : nat) (now : Instant) (tasks : list (Task (result A E))) : Task (result A E) :=
  match fuel with
  | O => (now, Err none)
  | S fuel =>
      match select_all tasks with
      | None => (now, Err none)
      | Some ((t, r), rest) =>
          match r with
          | Ok _ => (t, r)
          | Err _ => match rest with [] => (t, r) | _ => select_ok fuel t rest end
          end
      end
  end.

(** Of the tasks that succeed it takes one that is ready first; without any it is
    the last that fails. *)
Lemma select_ok_first `{!FuturesLaws} fuel now tasks :
  tasks ≠ [] → (length tasks ≤ fuel)%nat →
  let x := select_ok fuel now tasks in
  x ∈ tasks ∧
  match x.2 with
  | Ok _ => ∀ y, y ∈ tasks → is_ok y.2 = true → x.1 ≤ y.1
  | Err _ => ∀ y, y ∈ tasks → is_ok y.2 = false ∧ y.1 ≤ x.1
  end.
Proof.
  revert now tasks. induction fuel as [|fuel IH]; intros now tasks Hne Hl; [destruct tasks; [done|cbn in Hl; lia]|]. cbn [select_ok].
  destruct (select_all_is_Some tasks Hne) as (x & rest & Hs). rewrite Hs.
  pose proof (select_all_length _ _ _ Hs) as Hlen. apply select_all_Some in Hs as Hp. destruct Hp as [Hp Hmin]. rewrite Forall_forall in Hmin.
  assert (Hin : ∀ y, y ∈ tasks ↔ y = x ∨ y ∈ rest) by (intros y; by apply select_all_elem).
  destruct x as [t r]. destruct r as [a|e]; cbn [snd fst] in *.
  - split; [apply Hin; by left|]. intros y Hy _. by apply Hmin.
  - destruct rest as [|z rest].
    + split; [apply Hin; by left|]. intros y Hy. apply Hin in Hy as [->|Hy]; [done|by apply elem_of_nil in Hy].
    + destruct (IH t (z :: rest)) as [Hx Hr]; [done|lia|]. revert Hx Hr. generalize (select_ok fuel t (z :: rest)) as x.
      intros x Hx Hr. assert (Hxt : x ∈ tasks) by (apply Hin; by right). split; [done|]. destruct (x.2) as [a|e'].
      * intros y Hy Hok. apply Hin in Hy as [->|Hy]; [done|]. by apply Hr.
      * intros y Hy. apply Hin in Hy as [->|Hy]; [split; [done|by apply (Hmin _ Hxt)]|by apply Hr].
Qed.
End SelectOk.

(** ** A concrete library: the first of the earliest tasks

    The library polls its futures in order, and [Vec::swap_remove] takes the one
    that is ready out of them. *)
Section FirstReady.
Context {T : Type}.
Implicit Types (l : list (Task T)) (x : Task T).

(** The position and the time of the first of the earliest tasks. *)
Fixpoint earliest l : option (nat * Instant) :=
  match l with
  | [] => None
  | x :: l =>
      match earliest l with
      | Some (i, t) => if t <? x.1 then Some (S i, t) else Some (0%nat, x.1)
      | None => Some (0%nat, x.1)
      end
  end.

(** [Vec::swap_remove]: the last element takes the place of the removed one. *)
Definition swap_remove (i : nat) l : list (Task T) :=
  match last l with
  | Some y => take (length l - 1) (<[i := y]> l)
  | None => l
  end.

(** The ready task, and the others. *)
Definition first_ready l : option (Task T * list (Task T)) :=
  match earliest l with
  | Some (i, _) => (fun x => (x, swap_remove i l)) <$> l !! i
  | None => None
  end.

Lemma earliest_Some l i t :
  earliest l = Some (i, t) → (∃ x, l !! i = Some x ∧ x.1 = t) ∧ Forall (fun y => t ≤ y.1) l.
Proof.
  revert i t. induction l as [|x l IH]; intros i t; [done|]. cbn.
  destruct (earliest l) as [[j s]|] eqn:E.
  - destruct (IH _ _ eq_refl) as [(y & Hy & Hs) Hall].
    destruct (Z.ltb_spec s x.1); intros [= <- <-].
    + split; [eauto|]. constructor; [lia|done].
    + split; [by exists x|]. constructor; [lia|]. eapply Forall_impl; [exact Hall|]. intros ? ?. cbn in *. lia.
  - intros [= <- <-]. destruct l as [|z l]; [|cbn in E; destruct (earliest l) as [[]|]; try case_match; done].
    split; [by exists x|]. by repeat constructor.
Qed.

Lemma swap_remove_perm l i x : l !! i = Some x → l ≡ₚ x :: swap_remove i l.
Proof.
  intros Hi. unfold swap_remove. destruct (last l) as [y|] eqn:Hl;
    [|by apply last_None in Hl as ->].
  apply last_Some in Hl as [k ->]. rewrite length_app. cbn [length].
  replace (length k + 1 - 1)%nat with (length k) by lia.
  destruct (decide (i = length k)) as [->|Hne].
  - rewrite lookup_app_r, Nat.sub_diag in Hi by lia. cbn in Hi. injection Hi as ->.
    rewrite insert_app_r_alt, Nat.sub_diag by lia. cbn. rewrite take_app_length.
    by rewrite (comm app).
  - assert (i < length k)%nat.
    { apply lookup_lt_Some in Hi. rewrite length_app in Hi. cbn in Hi. lia. }
    rewrite lookup_app_l in Hi by done. rewrite insert_app_l by done.
    rewrite take_app_le by (by rewrite length_insert). rewrite take_ge by (by rewrite length_insert).
    rewrite <- (take_drop_middle k i x Hi) at 1. rewrite insert_take_drop by done.
    rewrite <- !app_assoc. cbn. rewrite <- Permutation_middle. apply perm_skip.
    apply Permutation_app_head. rewrite (comm app). done.
Qed.

Lemma first_ready_Some l x rest :
  first_ready l = Some (x, rest) → l ≡ₚ x :: rest ∧ Forall (fun y => x.1 ≤ y.1) l.
Proof.
  unfold first_ready. destruct (earliest l) as [[i t]|] eqn:E; [|done].
  apply earliest_Some in E as [(z & Hz & <-) Hall]. rewrite Hz. cbn. intros [= <- <-].
  split; [by apply swap_remove_perm|done].
Qed.

Lemma first_ready_is_Some l : l ≠ [] → ∃ x rest, first_ready l = Some (x, rest).
Proof.
  intros Hl. unfold first_ready. destruct (earliest l) as [[i t]|] eqn:E.
  - apply earliest_Some in E as [(x & -> & _) _]. cbn. eauto.
  - exfalso. destruct l as [|x l]; [done|]. cbn in E. destruct (earliest l) as [[]|]; [case_match|]; done.
Qed.

End FirstReady.

Definition FirstReady_lib : FuturesLib := {| select_all T := first_ready |}.

Lemma FirstReady_laws : @FuturesLaws FirstReady_lib.
Proof. split; intros T; [apply first_ready_Some|apply first_ready_is_Some]. Qed.
