(* ===== verification/Upstream.v ===== *)
(** * Upstream servers ([dns_client.rs])

    A server, a group of servers that are asked together, the client with its
    groups, and the store of the addresses of upstream hosts. The connection of
    a server is the network: when it answers a query and with what. *)

From S2P Require Import Prelude Names Config Message Tasks.

(** ** Options *)
Record LookupOptions := mkLookup {
  lo_is_dnssec : bool; lo_record_type : RecordType; lo_client_subnet : option ClientSubnet }.

(** [NameServerOpts], with the two resolver options a lookup reads. *)
Record NameServerOpts := mkNsOpts {
  nso_blacklist_ip : bool;
  nso_whitelist_ip : bool;
  nso_check_edns : bool;
  nso_client_subnet : option ClientSubnet;
  nso_recursion_desired : bool;
  nso_edns0 : bool;
}.

Record DnsRequestOptions := mkReqOpts { ro_recursion_desired : bool; ro_use_edns : bool }.

(** The EDNS record of an upstream query. *)
Record UpEdns := mkUpEdns {
  ue_max_payload : Z; ue_version : Z; ue_dnssec_ok : bool; ue_subnet : option ClientSubnet }.

Definition MAX_PAYLOAD_LEN : Z := 1232.

Definition build_edns (ro : DnsRequestOptions) (subnet : option ClientSubnet) (is_dnssec : bool)
    : option UpEdns :=
  if negb (ro_use_edns ro) && is_none subnet && negb is_dnssec then None
  else Some (mkUpEdns MAX_PAYLOAD_LEN 0 is_dnssec subnet).

Section Upstream.
Context {Name : Type} `{NameLib Name} `{MsgLib Name} `{FL : FuturesLib}.

Abbreviation Resp := (DnsResponse Name).
Abbreviation Res := (result Resp (LookupError Name)).

(** ** A server *)
Record NameServer := mkNs {
  ns_options : NameServerOpts;
  (** The connection: asked at an instant, it answers at another. *)
  ns_connection : Instant → Query Name → DnsRequestOptions → option UpEdns → Task Res;
}.

Definition ERR_NO_EDNS : LookupError Name := EProto 1.
Definition ERR_TIMEOUT : LookupError Name := EProto 2.
Definition ERR_NO_CONNECTIONS : LookupError Name := EProto 3.

Definition ns_lookup (ns : NameServer) (now : Instant) (name : Name) (o : LookupOptions) : Task Res :=
  let query := query_of name (lo_record_type o) in
  let opts := ns_options ns in
  let subnet := opt_or (lo_client_subnet o) (nso_client_subnet opts) in
  let request_options := mkReqOpts (nso_recursion_desired opts) (nso_edns0 opts || is_some subnet) in
  let edns := build_edns request_options subnet (lo_is_dnssec o) in
  let '(t, response) := ns_connection ns now query request_options edns in
  (t, result_bind response (fun res =>
        if nso_check_edns opts && is_none (msg_edns (resp_message res)) then Err ERR_NO_EDNS
        else Ok res)).

(** ** A group *)
Record NameServerGroup := mkGroup { servers : list NameServer }.

(** [select_response]: the three values kept while waiting. *)
Record Kept := mkKept {
  k_empty_response : option Resp;
  k_no_records_error : option (LookupError Name);
  k_last_error : option (LookupError Name) }.

(** What one answer does: it is returned, or kept. *)
Definition response_step (prefer_nonempty : bool) (k : Kept) (res : Res) : Res + Kept :=
  match res with
  | Ok r =>
      match answers r with
      | _ :: _ => inl (Ok r)
      | [] =>
          if prefer_nonempty
          then inr (mkKept (opt_or (k_empty_response k) (Some r)) (k_no_records_error k) (k_last_error k))
          else inl (Ok r)
      end
  | Err e =>
      if is_negative_response e then
        if prefer_nonempty
        then inr (mkKept (k_empty_response k) (opt_or (k_no_records_error k) (Some e)) (k_last_error k))
        else inl (Err e)
      else inr (mkKept (k_empty_response k) (k_no_records_error k) (Some e))
  end.

(** When every answer is in; [None] is the failed [expect]. *)
Definition kept_result (k : Kept) : option Res :=
  match k_empty_response k, k_no_records_error k, k_last_error k with
  | Some r, _, _ => Some (Ok r)
  | None, Some e, _ => Some (Err e)
  | None, None, Some e => Some (Err e)
  | None, None, None => None
  end.

Fixpoint select_response_loop (fuel : nat) (prefer_nonempty : bool) (k : Kept)
    (tasks : list (Task Res)) : Outcome Res :=
  match fuel with
  | O => OutOfFuel
  | S fuel =>
      match select_all tasks with
      | None => Panicked
      | Some ((t, res), rest) =>
          match response_step prefer_nonempty k res with
          | inl res => Done t res
          | inr k =>
              match rest with
              | [] => match kept_result k with Some res => Done t res | None => Panicked end
              | _ => select_response_loop fuel prefer_nonempty k rest
              end
          end
      end
  end.

Definition select_response (prefer_nonempty : bool) (tasks : list (Task Res)) : Outcome Res :=
  select_response_loop (S (length tasks)) prefer_nonempty (mkKept None None None) tasks.

Definition group_lookup (g : NameServerGroup) (now : Instant) (name : Name) (o : LookupOptions)
    : Outcome Res :=
  match servers g with
  | [ns] => out_task (ns_lookup ns now name o)
  | l => select_response (is_ip_addr (lo_record_type o)) ((fun ns => ns_lookup ns now name o) <$> l)
  end.

(** ** The addresses of upstream hosts *)
Record BootstrapResolver := mkBootstrap {
  bs_resolver : NameServerGroup;
  bs_ip_store : list (Query Name * list (Rr Name));
  bs_has_records : bool;
}.

Definition bs_new (g : NameServerGroup) : BootstrapResolver := mkBootstrap g [] false.

Definition store_get (q : Query Name) (l : list (Query Name * list (Rr Name))) : option (list (Rr Name)) :=
  snd <$> find_first (fun e => query_eqb e.1 q) l.

Definition store_insert (q : Query Name) (v : list (Rr Name)) (l : list (Query Name * list (Rr Name)))
    : list (Query Name * list (Rr Name)) :=
  (q, v) :: filter (fun e => query_eqb e.1 q = false) l.

Definition store_query (name : Name) (t : RecordType) : Query Name := query_of (name_set_fqdn true name) t.

Definition local_lookup (b : BootstrapResolver) (now : Instant) (name : Name) (t : RecordType)
    : option Resp :=
  if bs_has_records b
  then (fun records => new_with_max_ttl now (store_query name t) records)
         <$> store_get (store_query name t) (bs_ip_store b)
  else None.

Definition bs_lookup (b : BootstrapResolver) (now : Instant) (name : Name) (o : LookupOptions)
    : Outcome Res * BootstrapResolver :=
  match local_lookup b now name (lo_record_type o) with
  | Some lookup => (Done now (Ok lookup), b)
  | None =>
      match group_lookup (bs_resolver b) now name o with
      | Done t (Ok lookup) =>
          (Done t (Ok lookup),
           mkBootstrap (bs_resolver b)
             (store_insert (store_query name (lo_record_type o)) (answers lookup) (bs_ip_store b)) true)
      | out => (out, b)
      end
  end.

(** ** The client *)
Record DnsClient := mkClient {
  cl_default : NameServerGroup;
  cl_bootstrap : BootstrapResolver;
  cl_servers : gmap string NameServerGroup;
}.

Definition client_server_group (c : DnsClient) (name : string) : option NameServerGroup :=
  if bool_decide (name = "") || eq_ignore_ascii_case name "default" then Some (cl_default c)
  else cl_servers c !! name.

Definition lookup_nameserver (c : DnsClient) (now : Instant) (name : Name) (t : RecordType) : option Resp :=
  local_lookup (cl_bootstrap c) now name t.

(** ** What a group answers *)
Context {FLaws : FuturesLaws}.

(** An answer that ends the wait at once. *)
Definition decisive (prefer_nonempty : bool) (res : Res) : bool :=
  match res with
  | Ok r => negb (bool_decide (length (answers r) = 0%nat)) || negb prefer_nonempty
  | Err e => is_negative_response e && negb prefer_nonempty
  end.
Definition negative (res : Res) : bool :=
  match res with Ok _ => false | Err e => is_negative_response e end.

(** The answer of a group, from the answers in the order they come in: the
    first decisive one, else the first without records, else the first negative
    error, else the last error. *)
Definition select_answer (prefer_nonempty : bool) (rs : list Res) : option Res :=
  first_some [find_first (decisive prefer_nonempty) rs; find_first is_ok rs; find_first negative rs; last rs].

(** What is kept, as the first of the answers so far. *)
Definition kept_of (rs : list Res) : Kept :=
  mkKept (r ← find_first is_ok rs; match r with Ok r => Some r | Err _ => None end)
    (r ← find_first negative rs; match r with Ok _ => None | Err e => Some e end)
    (r ← last (filter (fun r => negb (is_ok r) && negb (negative r) = true) rs);
     match r with Ok _ => None | Err e => Some e end).

Lemma kept_of_snoc prefer rs res :
  decisive prefer res = false → response_step prefer (kept_of rs) res = inr (kept_of (rs ++ [res])).
Proof.
  intros Hd. unfold kept_of. rewrite !find_first_app, filter_app. cbn.
  destruct res as [r|e]; cbn in *.
  - rewrite orb_false_iff in Hd. destruct Hd as [Ha Hp].
    apply negb_false_iff in Ha as ?%bool_decide_eq_true, Hp as ->.
    destruct (answers r); [|done]. rewrite app_nil_r. repeat f_equal; cbn.
    + destruct (find_first is_ok rs) as [[]|] eqn:E; try done.
      apply find_first_Some in E as [_ ?]. done.
    + by destruct (find_first negative rs) as [[]|].
  - destruct (is_negative_response e) eqn:En; cbn.
    + destruct prefer; [|done]. rewrite app_nil_r. repeat f_equal.
      * by destruct (find_first is_ok rs).
      * destruct (find_first negative rs) as [[]|] eqn:E; try done.
        apply find_first_Some in E as [_ ?]. done.
    + rewrite decide_True, last_snoc by done. repeat f_equal.
      * by destruct (find_first is_ok rs).
      * by destruct (find_first negative rs).
Qed.

Lemma filter_all {A} (P : A → Prop) `{∀ x, Decision (P x)} l : Forall P l → filter P l = l.
Proof. induction 1 as [|x l Hx Hl IH]; [done|]. by rewrite filter_cons_True, IH. Qed.

Lemma kept_of_result rs : rs ≠ [] →
  kept_result (kept_of rs) = first_some [find_first is_ok rs; find_first negative rs; last rs].
Proof.
  intros Hne. unfold kept_result, kept_of. cbn.
  destruct (find_first is_ok rs) as [[r|e]|] eqn:E1; [done|by apply find_first_Some in E1 as [_ ?]|].
  cbn. destruct (find_first negative rs) as [[r|e]|] eqn:E2; [by apply find_first_Some in E2 as [_ ?]|done|].
  cbn. rewrite filter_all.
  - destruct (last rs) as [[r|e]|] eqn:El; [|done|by apply last_None in El].
    apply last_Some_elem_of in El. by rewrite find_first_None in E1; apply E1 in El.
  - rewrite Forall_forall. intros r Hi. rewrite find_first_None in E1, E2.
    by rewrite (E1 _ Hi), (E2 _ Hi).
Qed.

Lemma select_response_loop_spec prefer fuel tasks past :
  tasks ≠ [] → (length tasks < fuel)%nat → Forall (fun r => decisive prefer r = false) past →
  ∃ t r, select_response_loop fuel prefer (kept_of past) tasks = Done t r ∧
         select_answer prefer (past ++ (completed tasks).*2) = Some r.
Proof.
  revert tasks past. induction fuel as [|fuel IH]; intros tasks past Hne Hl Hp; [lia|]. cbn.
  destruct (select_all_is_Some tasks Hne) as ([t res] & rest & Hs). rewrite Hs.
  rewrite (completed_cons _ _ _ Hs). cbn. apply select_all_length in Hs.
  assert (Hpast : find_first (decisive prefer) past = None).
  { apply find_first_None. intros r Hr. by rewrite Forall_forall in Hp; apply Hp. }
  destruct (decisive prefer res) eqn:Hd.
  - assert (Hst : response_step prefer (kept_of past) res = inl res).
    { destruct res as [r|e]; cbn in *.
      - destruct (answers r) eqn:Ha; [|done]. cbn in Hd. by destruct prefer.
      - by destruct (is_negative_response e), prefer. }
    rewrite Hst. exists t, res. split; [done|].
    unfold select_answer. rewrite find_first_app, Hpast. cbn. by rewrite Hd.
  - rewrite kept_of_snoc by done.
    destruct rest as [|y rest].
    + assert (Hk := kept_of_result (past ++ [res])). rewrite Hk by (by destruct past). clear Hk.
      assert (Hn : find_first (decisive prefer) (past ++ [res]) = None).
      { rewrite find_first_app, Hpast. cbn. by rewrite Hd. }
      change (past ++ res :: (completed []).*2) with (past ++ [res]).
      unfold select_answer. cbn [first_some]. rewrite Hn.
      destruct (find_first is_ok _); [eauto|]. destruct (find_first negative _); [eauto|].
      cbn. rewrite last_snoc. eauto.
    + destruct (IH (y :: rest) (past ++ [res])) as (t' & r & -> & Hr); [done|cbn in *; lia| |].
      { apply Forall_app. by repeat constructor. }
      exists t', r. split; [done|]. by rewrite <- app_assoc in Hr.
Qed.

Lemma select_response_spec prefer tasks :
  tasks ≠ [] →
  ∃ t r, select_response prefer tasks = Done t r ∧
         select_answer prefer (completed tasks).*2 = Some r.
Proof. intros Hne. by apply (select_response_loop_spec prefer _ tasks []); [done|lia|]. Qed.

(** A group with servers answers, and its answer is a function of the
    servers' answers in the order they come in: a reply with records wins; for
    other record types than addresses any reply or negative answer ends the
    wait, while for addresses an empty reply, and then a negative answer, is
    only taken when every server has answered; and the last failure stands if
    there is nothing else. A group left without servers panics instead. *)
Theorem group_lookup_answers (g : NameServerGroup) (now : Instant) (name : Name) (o : LookupOptions) :
  let tasks := (fun ns => ns_lookup ns now name o) <$> servers g in
  let order := completed tasks in
  order ≡ₚ tasks ∧ StronglySorted (fun x y => x.1 ≤ y.1) order ∧
  match group_lookup g now name o with
  | Done _ r => select_answer (is_ip_addr (lo_record_type o)) order.*2 = Some r
  | Panicked => servers g = []
  | OutOfFuel => False
  end.
Proof.
  intros tasks order. split; [apply completed_perm|]. split; [apply completed_sorted|].
  subst order tasks. unfold group_lookup. destruct (servers g) as [|ns [|ns' l]] eqn:Hs.
  - cbn. by rewrite select_all_nil.
  - cbn [fmap list_fmap]. rewrite (completed_cons _ _ _ (select_all_singleton _)). cbn.
    destruct (ns_lookup ns now name o) as [t r]. cbn. unfold select_answer. cbn.
    by destruct (decisive _ r), (is_ok r), (negative r).
  - edestruct (select_response_spec (is_ip_addr (lo_record_type o))) as (t & r & -> & Hr);
      [|exact Hr]. done.
Qed.

(** ** The store of upstream addresses *)
Context {NLaws : NameLaws Name}.

Lemma store_get_insert (q q' : Query Name) v l :
  store_get q' (store_insert q v l) = if query_eqb q q' then Some v else store_get q' l.
Proof.
  unfold store_get, store_insert. cbn. destruct (query_eqb q q') eqn:E; [done|].
  f_equal. induction l as [|[k w] l IH]; [done|]. rewrite filter_cons. cbn.
  destruct (decide (query_eqb k q = false)) as [Hk|Hk]; cbn; rewrite IH; [done|].
  apply not_false_is_true in Hk. destruct (query_eqb k q') eqn:E'; [|done].
  rewrite query_eqb_sym in Hk. by rewrite (query_eqb_trans _ _ _ Hk E') in E.
Qed.

Lemma store_get_eqb (q q' : Query Name) l : query_eqb q q' = true → store_get q l = store_get q' l.
Proof.
  intros Hq. unfold store_get. f_equal. induction l as [|[k w] l IH]; [done|]. cbn. rewrite IH.
  replace (query_eqb k q') with (query_eqb k q); [done|]. apply eq_true_iff_eq. split; intros Hk.
  - by apply (query_eqb_trans _ _ _ Hk).
  - rewrite query_eqb_sym in Hq. by apply (query_eqb_trans _ _ _ Hk).
Qed.

(** The first reply for the address of an upstream host is kept: from then
    on the host, in whatever case and with or without the final dot, is answered
    from the store without asking anyone, and the answers stored for other hosts
    or types stay. *)
Theorem bootstrap_remembers (b b' : BootstrapResolver) (now t now' : Instant) (name name' : Name)
    (o o' : LookupOptions) (r : Resp) :
  msg_answers (msg_fresh (Name := Name)) = [] →
  bs_lookup b now name o = (Done t (Ok r), b') →
  lowers (name_iter name) = lowers (name_iter name') → lo_record_type o = lo_record_type o' →
  bs_lookup b' now' name' o' =
    (Done now' (Ok (new_with_max_ttl now' (store_query name' (lo_record_type o')) (answers r))), b') ∧
  ∀ n ty v, local_lookup b now' n ty = Some v →
    query_eqb (store_query name (lo_record_type o)) (store_query n ty) = false →
    local_lookup b' now' n ty = Some v.
Proof.
  intros Hf Hb Hn Ht.
  assert (Hq : query_eqb (store_query name (lo_record_type o)) (store_query name' (lo_record_type o')) = true).
  { apply query_eqb_spec. unfold store_query. cbn. by rewrite !name_set_fqdn_iter, !name_set_fqdn_fqdn. }
  assert (Hstore : bs_has_records b' = true ∧
    store_get (store_query name' (lo_record_type o')) (bs_ip_store b') = Some (answers r) ∧
    ∀ n ty v, local_lookup b now' n ty = Some v →
      query_eqb (store_query name (lo_record_type o)) (store_query n ty) = false →
      local_lookup b' now' n ty = Some v).
  { unfold bs_lookup in Hb. destruct (local_lookup b now name _) as [l|] eqn:El.
    - injection Hb as <- <- <-. unfold local_lookup in El. destruct (bs_has_records b); [|done].
      split; [done|]. split; [|done].
      destruct (store_get (store_query name _) _) as [v|] eqn:Es; [|done]. cbn in El.
      injection El as <-. unfold answers, new_with_max_ttl, new_with_deadline. cbn. rewrite Hf. cbn.
      rewrite <- Es. apply store_get_eqb. by rewrite query_eqb_sym.
    - destruct (group_lookup _ _ _ _) as [t' [r'|e]| |]; try discriminate Hb.
      injection Hb as <- <- <-. cbn [bs_has_records bs_ip_store]. rewrite store_get_insert, Hq. split; [done|]. split; [done|].
      intros n ty v Hv Hne. unfold local_lookup in *. cbn [bs_has_records bs_ip_store]. rewrite store_get_insert, Hne.
      by destruct (bs_has_records b). }
  destruct Hstore as (Hr & Hg & Hrest). split; [|done].
  unfold bs_lookup, local_lookup. by rewrite Hr, Hg.
Qed.
End Upstream.

Arguments NameServer Name : clear implicits.
Arguments NameServerGroup Name : clear implicits.
Arguments BootstrapResolver Name : clear implicits.
Arguments DnsClient Name : clear implicits.
