(* ===== verification/UdpClient.v ===== *)
(** * Queries to a server over UDP ([libdns/custom/udp_client.rs])

    A query takes an idle socket of its server or binds a new one, keeps it to
    itself while it waits, and gives it back when it has its reply. What comes in on
    the socket is the network: packets, in the order they come in, of which only a
    reply to the query ends the wait. *)

From S2P Require Import Prelude Names Bytes Config Message Upstream.

Record UdpSocket := mkUdp { us_id : Z; us_proxy : bool; us_local_port : Z }.
#[global] Instance UdpSocket_eq_dec : EqDecision UdpSocket.
Proof. solve_decision. Defined.

(** [ResolverOpts], as far as it is read here. *)
Record ResolverOpts := mkResolverOpts { os_port_selection : bool; avoid_local_udp_ports : list Z }.

Definition MAX_IDLE_SOCKETS : nat := 64.
Definition MAX_RECEIVE_BUFFER_SIZE : Z := 4096.

(** What the library does with the bytes of messages and the case of names. *)
Class UdpLib (Name : Type) := {
  udp_encode : Z → bool → Query Name → option UpEdns → option (list Z);
  (** [DnsResponse::from_buffer] *)
  udp_decode : list Z → option (Message Name);
  (** [ProtoError::from_response] *)
  from_response : Message Name → result (Message Name) (LookupError Name);
  name_eq_case : Name → Name → bool;
  (** [randomize_label_case], with the random bits. *)
  randomize_label_case : Z → Name → Name;
}.

Class UdpLaws (Name : Type) `{NameLib Name} `{UdpLib Name} : Prop := {
  from_response_same m m' : from_response m = Ok m' → m' = m;
  randomize_same_name bits n : name_eqb (randomize_label_case bits n) n = true;
}.

Section UdpClient.
Context {Name : Type} `{NameLib Name} `{MsgLib Name} `{UdpLib Name}.

Abbreviation Res := (result (DnsResponse Name) (LookupError Name)).

(** ** One exchange *)
Inductive UdpEvent :=
| Received (peer : SocketAddr) (bytes : list Z)
| ReceiveFails (e : LookupError Name).

(** How an exchange ends, and whether its socket can be used again. *)
Inductive ExchangeEnd :=
| Finished (r : Res) (reusable : bool)
| Waiting.

Definition ERR_CASE : LookupError Name := EProto 4.
Definition ERR_INCOMPLETE : LookupError Name := EProto 5.
Definition ERR_ENCODE : LookupError Name := EProto 6.

Inductive DecodeResult := DecodeNone | DecodeOk (m : Message Name) | DecodeCase | DecodeErr (e : LookupError Name).

Definition with_questions (l : list (Query Name)) (m : Message Name) : Message Name :=
  mkMsg (msg_header m) l (msg_answers m) (msg_authorities m) (msg_additionals m) (msg_edns m).

(** [decode_response] *)
Definition decode_response (bytes : list Z) (query : Query Name) (original_query : option (Query Name)) : DecodeResult :=
  match udp_decode bytes with
  | None => DecodeNone
  | Some response =>
      if negb (forallb (fun reply => query_eqb reply query) (msg_queries response)) then DecodeNone
      else
        let checked :=
          match original_query with
          | None => Some response
          | Some original =>
              if negb (forallb (fun reply => name_eq_case (q_name query) (q_name reply)) (msg_queries response)) then None
              else Some (with_questions ((fun reply => if query_eqb reply original then original else reply) <$> msg_queries response) response)
          end in
        match checked with
        | None => DecodeCase
        | Some response => match from_response response with Ok m => DecodeOk m | Err e => DecodeErr e end
        end
  end.

Section Exchange.
Variables (server : SocketAddr) (now : Instant).
(** Whether the socket is one of the proxy: any other is connected to the server. *)
Variable proxy : bool.
Variables (receive_size : nat) (id : Z) (query : Query Name) (original : option (Query Name)).

Definition packet_peer (peer : SocketAddr) : SocketAddr := if proxy then peer else server.

(** The first two bytes are the id of the request. *)
Definition has_id (bytes : list Z) : bool :=
  match bytes with a :: b :: _ => be_value [a; b] =? id | _ => false end.

Fixpoint receive_loop (events : list UdpEvent) : ExchangeEnd :=
  match events with
  | [] => Waiting
  | ReceiveFails e :: _ => Finished (Err e) false
  | Received peer bytes :: events =>
      let bytes := take receive_size bytes in
      if negb (bool_decide (packet_peer peer = server)) || negb (has_id bytes) then receive_loop events
      else
        match decode_response bytes query original with
        | DecodeNone => receive_loop events
        | DecodeCase => Finished (Err ERR_CASE) false
        | DecodeOk m => Finished (Ok (resp_of_packet now m (Z.of_nat (length bytes)))) true
        | DecodeErr e => Finished (Err e) true
        end
  end.

(** *** What of the network matters *)

(** A packet that is a reply: from the server, with the id, a message, and with
    no other question than that asked. *)
Definition is_reply (e : UdpEvent) : bool :=
  match e with
  | ReceiveFails _ => true
  | Received peer bytes =>
      let bytes := take receive_size bytes in
      bool_decide (packet_peer peer = server) && has_id bytes &&
      match udp_decode bytes with
      | Some m => forallb (fun reply => query_eqb reply query) (msg_queries m)
      | None => false
      end
  end.

Lemma receive_loop_skips events : receive_loop events = receive_loop (List.filter is_reply events).
Proof.
  induction events as [|e events IH]; [done|]. destruct e as [peer bytes|e]; [|done].
  cbn [List.filter is_reply receive_loop]. destruct (bool_decide _) eqn:Ep; cbn [negb orb andb]; [|done].
  destruct (has_id (take receive_size bytes)) eqn:Ei; cbn [negb orb andb]; [|done].
  unfold decode_response at 1. destruct (udp_decode _) as [m|] eqn:Ed; [|done].
  destruct (forallb _ (msg_queries m)) eqn:Eq; cbn [negb]; [|done].
  cbn [receive_loop]. rewrite Ep, Ei. cbn [negb orb]. unfold decode_response. rewrite Ed, Eq. cbn [negb].
  destruct original as [o|]; [destruct (negb _); [done|]|]; destruct (from_response _); done.
Qed.

Lemma receive_loop_reply e events : is_reply e = true → receive_loop (e :: events) = receive_loop [e].
Proof.
  destruct e as [peer bytes|e]; [|done]. cbn [is_reply receive_loop]. rewrite !andb_true_iff. intros ((-> & ->) & Hm). cbn [negb orb].
  unfold decode_response. destruct (udp_decode _) as [m|]; [|done]. rewrite Hm. cbn [negb].
  destruct original as [o|]; [destruct (negb _); [done|]|]; destruct (from_response _); done.
Qed.
End Exchange.

(** ** The request *)
Record UdpRequestOptions := mkUdpOptions { uo_recursion_desired : bool; uo_case_randomization : bool }.

(** The question as it is sent, and as it was asked when its case is changed. *)
Definition question (bits : Z) (randomize : bool) (query : Query Name) : Query Name * option (Query Name) :=
  let query := if name_is_fqdn (q_name query) then query
               else mkQuery (name_set_fqdn true (q_name query)) (q_type query) (q_class query) in
  if randomize then (mkQuery (randomize_label_case bits (q_name query)) (q_type query) (q_class query), Some query)
  else (query, None).

Definition udp_receive_size (edns : option UpEdns) : nat :=
  Z.to_nat (Z.min MAX_RECEIVE_BUFFER_SIZE (opt_map_or 512 ue_max_payload edns)).

(** [exchange] on a socket, with the random bits and id, what the system says of
    sending the request, and what comes in. *)
Definition udp_exchange (server : SocketAddr) (now : Instant) (socket : UdpSocket) (bits id : Z)
    (query : Query Name) (options : UdpRequestOptions) (edns : option UpEdns)
    (send : list Z → result Z (LookupError Name)) (events : list UdpEvent) : ExchangeEnd :=
  let '(query, original) := question bits (uo_case_randomization options) query in
  match udp_encode id (uo_recursion_desired options) query edns with
  | None => Finished (Err ERR_ENCODE) false
  | Some bytes =>
      match send bytes with
      | Err e => Finished (Err e) false
      | Ok sent =>
          if negb (sent =? Z.of_nat (length bytes)) then Finished (Err ERR_INCOMPLETE) false
          else receive_loop server now (us_proxy socket) (udp_receive_size edns) id query original events
      end
  end.

(** [lookup]: what came in before the timeout. *)
Definition udp_lookup (e : ExchangeEnd) : Res :=
  match e with Finished r _ => r | Waiting => Err ERR_TIMEOUT end.

(** ** Binding a socket *)
Inductive BindOutcome :=
| BindOk (socket : UdpSocket) (connects : bool)
| BindInUse
| BindDenied
| BindFails (e : LookupError Name).

Definition ERR_BIND : LookupError Name := EProto 7.
Definition ERR_CONNECT : LookupError Name := EProto 8.

(** [bind]: the attempts that are left; of each, a random port and what the system
    says of the port. *)
Fixpoint bind_loop (windows : bool) (opts : ResolverOpts) (remaining : nat) (attempts : nat → Z * (Z → BindOutcome))
    : result UdpSocket (LookupError Name) :=
  match remaining with
  | O => Err ERR_BIND
  | S remaining =>
      let again := bind_loop windows opts remaining (fun n => attempts (S n)) in
      let '(random, outcome) := attempts O in
      let port := if os_port_selection opts then 0 else random in
      if bool_decide (port ∈ avoid_local_udp_ports opts) then again
      else
        match outcome port with
        | BindOk socket connects =>
            if bool_decide (us_local_port socket ∈ avoid_local_udp_ports opts) then again
            else if us_proxy socket || connects then Ok socket else Err ERR_CONNECT
        | BindInUse => again
        | BindDenied => if windows && negb (port =? 0) then again else Err ERR_BIND
        | BindFails e => Err e
        end
  end.
Definition udp_bind (windows : bool) (opts : ResolverOpts) (attempts : nat → Z * (Z → BindOutcome)) : result UdpSocket (LookupError Name) :=
  bind_loop windows opts 10 attempts.

Lemma bind_loop_avoids windows opts remaining attempts s :
  bind_loop windows opts remaining attempts = Ok s → us_local_port s ∉ avoid_local_udp_ports opts.
Proof.
  revert attempts. induction remaining as [|remaining IH]; intros attempts; [done|]. cbn [bind_loop].
  destruct (attempts O) as [random outcome]. case_bool_decide; [apply IH|].
  destruct (outcome _) as [s' c| | |e]; [|apply IH|destruct (_ && _); [apply IH|done]|done].
  case_bool_decide; [apply IH|]. destruct (_ || _); [|done]. by intros [= <-].
Qed.

(** ** The sockets of a client *)
Definition give_back (s : UdpSocket) (e : ExchangeEnd) (idle : list UdpSocket) : list UdpSocket :=
  match e with
  | Finished _ true => if (length idle <? MAX_IDLE_SOCKETS)%nat then idle ++ [s] else idle
  | _ => idle
  end.

(** The idle sockets, the exchanges with their sockets, and those that bind one. *)
Record Pool := mkPool { pool_idle : list UdpSocket; pool_busy : list (nat * UdpSocket); pool_binding : list nat }.

(** An exchange pops the last idle socket or finds none; the system gives no socket
    that is open; the exchange ends, or is dropped at its timeout or before. *)
Inductive pool_step : Pool → Pool → Prop :=
| StepTake q s idle busy binding :
    pool_step (mkPool (idle ++ [s]) busy binding) (mkPool idle ((q, s) :: busy) binding)
| StepMiss q busy binding : pool_step (mkPool [] busy binding) (mkPool [] busy (q :: binding))
| StepBound q s idle busy b1 b2 :
    s ∉ idle → s ∉ busy.*2 →
    pool_step (mkPool idle busy (b1 ++ q :: b2)) (mkPool idle ((q, s) :: busy) (b1 ++ b2))
| StepBindEnds q idle busy b1 b2 : pool_step (mkPool idle busy (b1 ++ q :: b2)) (mkPool idle busy (b1 ++ b2))
| StepEnd q s e idle l1 l2 binding :
    pool_step (mkPool idle (l1 ++ (q, s) :: l2) binding) (mkPool (give_back s e idle) (l1 ++ l2) binding).

Definition pool_init : Pool := mkPool [] [] [].
Inductive pool_reach : Pool → Prop :=
| PoolInit : pool_reach pool_init
| PoolStep p p' : pool_reach p → pool_step p p' → pool_reach p'.

Definition open_sockets (p : Pool) : list UdpSocket := pool_idle p ++ (pool_busy p).*2.

(** C26: In every state the client can be in, no socket is used by two exchanges, or
    by one and idle, and at most 64 are idle. *)
Theorem sockets_exclusive p :
  pool_reach p → NoDup (open_sockets p) ∧ (length (pool_idle p) ≤ MAX_IDLE_SOCKETS)%nat.
Proof.
  induction 1 as [|p p' _ [Hnd Hlen] Hs]; [split; [constructor|cbn; unfold MAX_IDLE_SOCKETS; lia]|].
  unfold open_sockets in *. destruct Hs as [q s idle busy binding|q busy binding|q s idle busy b1 b2 Hi Hb|q idle busy b1 b2|q s e idle l1 l2 binding];
    cbn [pool_idle pool_busy fmap list_fmap snd] in *; [| done | | done |].
  - rewrite length_app in Hlen. rewrite <- app_assoc in Hnd. split; [exact Hnd|lia].
  - split; [|done]. apply NoDup_app. apply NoDup_app in Hnd as (Hn1 & Hn2 & Hn3). split_and!; [done| |by constructor].
    intros x Hx [->|Hx']%elem_of_cons; [done|]. by apply (Hn2 x).
  - rewrite fmap_app in Hnd. cbn [fmap list_fmap snd] in Hnd. rewrite fmap_app.
    assert (Hp : idle ++ l1.*2 ++ s :: l2.*2 ≡ₚ s :: idle ++ l1.*2 ++ l2.*2).
    { by rewrite !app_assoc, <- Permutation_middle. }
    fold (@fmap list _ _ _ (@snd nat UdpSocket) l2) in *. rewrite Hp in Hnd.
    apply NoDup_cons in Hnd as [Hs Hnd].
    destruct e as [r [|]|]; cbn [give_back]; [|by split..]. destruct (Nat.ltb_spec (length idle) MAX_IDLE_SOCKETS); [|by split].
    split; [|rewrite length_app; cbn; lia]. rewrite <- app_assoc. cbn [app]. rewrite <- Permutation_middle. by constructor.
Qed.

(** ** What is an answer *)
Context `{!NameLaws Name} `{!UdpLaws Name}.

Lemma question_spec bits randomize query :
  let '(sent, original) := question bits randomize query in
  name_is_fqdn (q_name sent) = true ∧
  ∀ o, original = Some o → randomize = true ∧ query_eqb sent o = true ∧
    o = mkQuery (q_name o) (q_type query) (q_class query) ∧ name_iter (q_name o) = name_iter (q_name query).
Proof.
  unfold question.
  set (query' := if name_is_fqdn (q_name query) then query else _).
  assert (Hf : name_is_fqdn (q_name query') = true ∧ q_type query' = q_type query ∧ q_class query' = q_class query
               ∧ name_iter (q_name query') = name_iter (q_name query)).
  { unfold query'. destruct (name_is_fqdn (q_name query)) eqn:E; [done|]. cbn. by rewrite name_set_fqdn_fqdn, name_set_fqdn_iter. }
  destruct Hf as (Hf & Ht & Hc & Hi). destruct randomize; [|done]. cbn [q_name].
  pose proof (randomize_same_name bits (q_name query')) as Hr. split.
  - apply name_eqb_spec in Hr as [_ ->]. done.
  - intros o [= <-]. unfold query_eqb. cbn. rewrite Hr, !Z.eqb_refl, <- Ht, <- Hc. split_and!; [done|done|by destruct query'|done].
Qed.

Section Answer.
Variables (server : SocketAddr) (now : Instant) (socket : UdpSocket) (bits id : Z) (query : Query Name).
Variables (options : UdpRequestOptions) (edns : option UpEdns) (send : list Z → result Z (LookupError Name)).

Let size := udp_receive_size edns.
Let sent : Query Name := (question bits (uo_case_randomization options) query).1.
Let original : option (Query Name) := (question bits (uo_case_randomization options) query).2.
Let run := udp_exchange server now socket bits id query options edns send.

(** The questions of an answer: those of the reply, but written as they were asked. *)
Definition restored (m : Message Name) : list (Query Name) :=
  match original with Some o => (fun _ => o) <$> msg_queries m | None => msg_queries m end.

Lemma decode_ok bytes m' :
  decode_response bytes sent original = DecodeOk m' →
  ∃ m, udp_decode bytes = Some m ∧ Forall (fun q => query_eqb q sent = true) (msg_queries m) ∧
    (original ≠ None → Forall (fun q => name_eq_case (q_name sent) (q_name q) = true) (msg_queries m)) ∧
    m' = with_questions (restored m) m.
Proof.
  unfold decode_response. destruct (udp_decode bytes) as [m|] eqn:Ed; [|done].
  destruct (forallb (fun reply => query_eqb reply sent) (msg_queries m)) eqn:Eq; cbn [negb]; [|done].
  assert (Hq : Forall (fun q => query_eqb q sent = true) (msg_queries m)).
  { rewrite Forall_forall. intros q Hq. rewrite forallb_forall in Eq. apply Eq. by apply list_elem_of_In. }
  clear Eq.
  pose proof (question_spec bits (uo_case_randomization options) query) as Hspec.
  unfold restored. fold original. unfold sent, original in *. destruct (question bits _ query) as [s o] eqn:Equ. cbn [fst snd] in *.
  destruct Hspec as [_ Hspec]. destruct o as [o|].
  - destruct (forallb _ (msg_queries m)) eqn:Ec; cbn [negb]; [|done].
    destruct (from_response _) as [m1|e] eqn:Ef; [|done]. intros [= <-]. apply from_response_same in Ef; subst m1.
    exists m. split_and!; [done|done| |].
    + intros _. rewrite Forall_forall. intros q Hin. rewrite forallb_forall in Ec. apply Ec. by apply list_elem_of_In.
    + f_equal. apply list_fmap_ext. intros i q Hi%list_elem_of_lookup_2. rewrite Forall_forall in Hq.
      destruct (Hspec o eq_refl) as (_ & Hso & _). by rewrite (query_eqb_trans _ _ _ (Hq q Hi) Hso).
  - destruct (from_response _) as [m1|e] eqn:Ef; [|done]. intros [= <-]. apply from_response_same in Ef; subst m1.
    exists m. split_and!; [done|done|done|]. by destruct m.
Qed.

(** C25: Only replies matter, whatever else comes in on the socket: packets from another
    address, with another id, that are no messages, or that ask another question are as
    if they had not come. An answer is what a packet of the server holds, with the id of
    the request and no other question, in the same case when the case was changed; its
    questions are as they were asked, and its socket is used again. *)
Theorem exchange_answers events :
  run events = run (List.filter (is_reply server (us_proxy socket) size id sent) events) ∧
  (∀ r back, run events = Finished (Ok r) back →
    back = true ∧
    ∃ peer bytes m, Received peer bytes ∈ events ∧
      packet_peer server (us_proxy socket) peer = server ∧ has_id id (take size bytes) = true ∧
      udp_decode (take size bytes) = Some m ∧
      Forall (fun q => query_eqb q sent = true) (msg_queries m) ∧
      (original ≠ None → Forall (fun q => name_eq_case (q_name sent) (q_name q) = true) (msg_queries m)) ∧
      resp_message r = with_questions (restored m) m).
Proof.
  unfold run, udp_exchange. fold size. rewrite (surjective_pairing (question bits _ query)). fold sent original.
  destruct (udp_encode id _ sent edns) as [req|]; [|done].
  destruct (send req) as [n|e]; [|done]. destruct (negb (n =? _)); [done|].
  split; [apply receive_loop_skips|].
  intros r back. induction events as [|e events IH]; [done|]. destruct e as [peer bytes|e]; [|done]. cbn [receive_loop].
  assert (Hlift : receive_loop server now (us_proxy socket) size id sent original events = Finished (Ok r) back →
    back = true ∧ ∃ peer0 bytes0 m, Received peer0 bytes0 ∈ Received peer bytes :: events ∧
      packet_peer server (us_proxy socket) peer0 = server ∧ has_id id (take size bytes0) = true ∧
      udp_decode (take size bytes0) = Some m ∧ Forall (fun q => query_eqb q sent = true) (msg_queries m) ∧
      (original ≠ None → Forall (fun q => name_eq_case (q_name sent) (q_name q) = true) (msg_queries m)) ∧
      resp_message r = with_questions (restored m) m).
  { intros (Hb & p & b & m & Hin & Hrest)%IH. split; [done|]. exists p, b, m. split; [by right|done]. }
  destruct (bool_decide _) eqn:Ep; cbn [negb orb]; [|exact Hlift].
  destruct (has_id id (take size bytes)) eqn:Ei; cbn [negb orb]; [|exact Hlift].
  destruct (decode_response _ _ _) as [|m'| |e] eqn:Ed; [exact Hlift| |done|done].
  intros [= <- <-]. split; [done|]. apply bool_decide_eq_true in Ep. destruct (decode_ok _ _ Ed) as (m & Hm & Hq & Hc & ->).
  exists peer, bytes, m. split_and!; [by left|done|done|done|done|done|done].
Qed.
End Answer.

(** A reply without any question passes both checks, of the name and of its case. *)
Lemma empty_question_accepted bytes m sent original :
  udp_decode bytes = Some m → msg_queries m = [] → from_response m = Ok m →
  decode_response bytes sent (Some original) = DecodeOk m.
Proof.
  intros Hd Hq Hf. unfold decode_response. rewrite Hd, Hq. cbn. unfold with_questions. rewrite <- Hq.
  replace (mkMsg _ _ _ _ _ _) with m by (by destruct m). by rewrite Hf.
Qed.
End UdpClient.

(** ** A concrete server *)
(** A reply is the id, the number of questions, and an address. *)
Definition toy_reply (q : Query PlainName) (bytes : list Z) : option (Message PlainName) :=
  match bytes with
  | [_; _; n; a] => Some (mkMsg (mkHeader 0 false NoError) (replicate (Z.to_nat n) q) [mkRr (q_name q) 60 (RA a)] [] [] None)
  | _ => None
  end.

#[local] Instance toy_udp : UdpLib PlainName := {
  udp_encode id _ q _ := Some (be_bytes 2 id);
  udp_decode := toy_reply (query_of (plain_name "www.example.com") TYPE_A);
  from_response m := Ok m;
  name_eq_case a b := bool_decide (a = b);
  randomize_label_case _ n := n;
}.
#[local] Instance toy_udp_laws : UdpLaws PlainName.
Proof. split; [by intros m m' [= ->]|]. intros bits n. by apply name_eqb_spec. Qed.

Definition toy_server : SocketAddr := mkSocket (V4 1) 53.
Definition toy_events : list (UdpEvent (Name := PlainName)) :=
  [Received toy_server [0; 8; 1; 99]; Received toy_server [0]; Received toy_server [0; 7; 1; 42]].

Lemma exchange_answers_witness :
  let run := udp_exchange toy_server 0 (mkUdp 0 false 4000) 0 7 (query_of (plain_name "www.example.com") TYPE_A)
               (mkUdpOptions true false) None (fun bytes => Ok (Z.of_nat (length bytes))) in
  run toy_events = run [Received toy_server [0; 7; 1; 42]] ∧
  ∃ r, run toy_events = Finished (Ok r) true ∧ ip_addrs r = [V4 42] ∧
    ∃ m, resp_message r = m ∧ Forall (fun q => query_eqb q (query_of (plain_name "www.example.com") TYPE_A) = true) (msg_queries m).
Proof.
  destruct (exchange_answers toy_server 0 (mkUdp 0 false 4000) 0 7 (query_of (plain_name "www.example.com") TYPE_A)
              (mkUdpOptions true false) None (fun bytes => Ok (Z.of_nat (length bytes))) toy_events) as [Hskip Hok].
  split.
  - rewrite Hskip. vm_compute. reflexivity.
  - eexists. split; [vm_compute; reflexivity|]. split; [vm_compute; reflexivity|].
    edestruct Hok as (_ & peer & bytes & m & _ & _ & _ & _ & Hq & _ & ->); [vm_compute; reflexivity|].
    eexists. split; [reflexivity|]. exact Hq.
Defined.

Lemma sockets_exclusive_witness :
  let p := mkPool [mkUdp 0 false 4000] [] [] in
  pool_reach (Name := PlainName) p ∧ NoDup (open_sockets p) ∧ (length (pool_idle p) ≤ MAX_IDLE_SOCKETS)%nat.
Proof.
  assert (Hr : pool_reach (Name := PlainName) (mkPool [mkUdp 0 false 4000] [] [])).
  { eapply PoolStep; [eapply PoolStep; [eapply PoolStep; [apply PoolInit|]|]|].
    - apply (StepMiss 1%nat [] []).
    - apply (StepBound 1%nat (mkUdp 0 false 4000) [] [] [] []); set_solver.
    - apply (StepEnd (Name := PlainName) 1%nat (mkUdp 0 false 4000) (Finished (Err EIo) true) [] [] [] []). }
  split; [exact Hr|]. exact (sockets_exclusive _ Hr).
Defined.
