(* ===== verification/ClientBuild.v ===== *)
(** * Building the client ([DnsClientBuilder::build], [dns_client.rs])

    From the servers of the configuration to the groups of the client: servers
    that are this server are left out, some are used to find the addresses of
    the others, and one instance is made of each. *)

From S2P Require Import Prelude Names Config Message Runtime Tasks Context DnsUrl Text Upstream.

(** What only connections and the answers of a server read. *)
Record ServerOptions := mkServerOptions {
  sv_name : option string;
  sv_blacklist_ip : bool;
  sv_whitelist_ip : bool;
  sv_check_edns : bool;
  sv_spki_pin : option string;
  sv_resolve_group : option string;
  sv_subnet : option IpNet;
  sv_so_mark : option Z;
  sv_interface : option string;
  sv_enabled : option bool;
}.
Definition server_options_default : ServerOptions := mkServerOptions None false false false None None None None None None.

(** A server of the configuration: its groups, what building reads of it, and the
    rest. *)
Record ServerConf := mkConf {
  sc_info : NameServerInfo;
  sc_server : DnsUrl;
  sc_bootstrap_dns : bool;
  sc_proxy : option string;
  sc_options : ServerOptions;
}.

#[global] Instance ServerOptions_eq_dec : EqDecision ServerOptions.
Proof. solve_decision. Defined.
#[global] Instance NameServerInfo_eq_dec : EqDecision NameServerInfo.
Proof. solve_decision. Defined.
#[global] Instance ServerConf_eq_dec : EqDecision ServerConf.
Proof. solve_decision. Defined.

Section ClientBuild.
Context {Name : Type} `{NameLib Name} `{MsgLib Name} `{FL : FuturesLib}.
(** The proxies by name, and [NameServer::new], which may fail: from a server,
    its proxy and the resolver of host names. *)
Context {Proxy : Type} (proxies : gmap string Proxy).
Variable new_server : ServerConf → option Proxy → option (BootstrapResolver Name) →
  option (NameServer Name).
(** The order in which a hash set is gone through. *)
Variable hash_order : list ServerConf → list ServerConf.

Abbreviation Server := (NameServer Name).

(** *** Instances *)

(** [server_instances]: what has been made of each server, a failure included. *)
Definition Instances := list (ServerConf * option Server).

Definition inst_get (i : Instances) (s : ServerConf) : option (option Server) :=
  snd <$> find_first (fun x => bool_decide (x.1 = s)) i.

Definition proxy_of (s : ServerConf) : option Proxy := n ← sc_proxy s; proxies !! n.

(** [make_server] *)
Definition make_server (i : Instances) (s : ServerConf) (resolver : option (BootstrapResolver Name))
    (dedup : bool) : option Server * Instances :=
  match inst_get i s with
  | Some made => (if dedup then None else made, i)
  | None => let made := new_server s (proxy_of s) resolver in (made, (s, made) :: i)
  end.

(** [flat_map(make_server)] over a list of servers. *)
Fixpoint make_servers (i : Instances) (resolver : option (BootstrapResolver Name)) (dedup : bool)
    (l : list ServerConf) : list Server * Instances :=
  match l with
  | [] => ([], i)
  | s :: l =>
      let '(made, i) := make_server i s resolver dedup in
      let '(rest, i) := make_servers i resolver dedup l in
      (match made with Some x => x :: rest | None => rest end, i)
  end.

(** *** Steps *)
Definition not_own (listeners : list Listener) (interfaces : list IpAddr) (infos : list ServerConf) : list ServerConf :=
  let local_ips := match listeners with [] => [] | _ => interfaces end in
  List.filter (fun s => negb (is_own listeners (sc_server s) local_ips)) infos.

Definition bootstrap_servers (infos : list ServerConf) : list ServerConf :=
  match List.filter (fun s => has_ip (sc_server s)) (List.filter sc_bootstrap_dns infos) with
  | [] => List.filter (fun s => has_ip (sc_server s) && is_none (sc_proxy s)) infos
  | l => l
  end.

(** The groups a server is in; [None] is the default group. *)
Definition groups_of (s : ServerConf) : list (option string) :=
  (Some <$> ns_group (sc_info s)) ++ if ns_exclude_default_group (sc_info s) then [] else [None].

Definition group_members (infos : list ServerConf) (g : option string) : list ServerConf :=
  remove_dups (List.filter (fun s => bool_decide (g ∈ groups_of s)) infos).

(** The groups in the order of the hash map they are collected in. *)
Variable key_order : list (option string) → list (option string).

Definition group_keys (infos : list ServerConf) : list (option string) :=
  key_order (remove_dups (infos ≫= groups_of)).

(** One turn of the loop over the groups. *)
Definition group_step (infos : list ServerConf) (bootstrap : BootstrapResolver Name)
    (acc : Instances * NameServerGroup Name * gmap string (NameServerGroup Name))
    (g : option string) : Instances * NameServerGroup Name * gmap string (NameServerGroup Name) :=
  let '(i, default, groups) := acc in
  let '(made, i) := make_servers i (Some bootstrap) false (hash_order (group_members infos g)) in
  match g with
  | Some name => (i, default, <[name:=mkGroup made]> groups)
  | None => (i, mkGroup made, groups)
  end.

(** [build]: [boot] is the resolver of the system's configuration; [None] is the
    failed assertion. *)
Definition client_build (listeners : list Listener) (interfaces : list IpAddr)
    (boot : BootstrapResolver Name) (server_infos : list ServerConf) : option (DnsClient Name) :=
  let infos := not_own listeners interfaces server_infos in
  let '(bootstrap, i) :=
    match bootstrap_servers infos with
    | [] => (boot, [])
    | l => let '(made, i) := make_servers [] None true l in (bs_new (mkGroup made), i)
    end in
  match servers (bs_resolver bootstrap) with
  | [] => None
  | _ =>
      let '(_, default, groups) :=
        fold_left (group_step infos bootstrap) (group_keys infos) (i, bs_resolver bootstrap, ∅) in
      Some (mkClient default bootstrap groups)
  end.

(** ** What the groups hold *)

(** The instance of a server, once the bootstrap servers have been made. *)
Definition instance_of (infos : list ServerConf) (bootstrap : BootstrapResolver Name) (s : ServerConf) : option Server :=
  new_server s (proxy_of s) (if bool_decide (s ∈ bootstrap_servers infos) then None else Some bootstrap).

Definition inst_ok (infos : list ServerConf) (bootstrap : BootstrapResolver Name) (i : Instances) : Prop :=
  (∀ s made, inst_get i s = Some made → made = instance_of infos bootstrap s) ∧
  ∀ s, s ∈ bootstrap_servers infos → is_Some (inst_get i s).

Lemma inst_get_cons i s made s' :
  inst_get ((s, made) :: i) s' = if bool_decide (s = s') then Some made else inst_get i s'.
Proof. unfold inst_get. cbn. by case_bool_decide. Qed.

Lemma make_server_instance infos bootstrap i s :
  inst_ok infos bootstrap i →
  ∃ i', make_server i s (Some bootstrap) false = (instance_of infos bootstrap s, i') ∧ inst_ok infos bootstrap i'.
Proof.
  intros [Hi Hb]. unfold make_server. destruct (inst_get i s) as [made|] eqn:Hs.
  - exists i. by rewrite (Hi s made Hs).
  - assert (Hn : new_server s (proxy_of s) (Some bootstrap) = instance_of infos bootstrap s).
    { unfold instance_of. rewrite bool_decide_false; [done|]. intros Hin. apply Hb in Hin. rewrite Hs in Hin.
      by destruct Hin. }
    eexists. rewrite Hn. split; [done|]. split.
    + intros s' made. rewrite inst_get_cons. case_bool_decide as E; [by intros [= <-]; subst|apply Hi].
    + intros s' Hin. rewrite inst_get_cons. case_bool_decide; [done|by apply Hb].
Qed.

Lemma make_servers_instances infos bootstrap i l :
  inst_ok infos bootstrap i →
  ∃ i', make_servers i (Some bootstrap) false l = (omap (instance_of infos bootstrap) l, i') ∧
        inst_ok infos bootstrap i'.
Proof.
  revert i. induction l as [|s l IH]; intros i Hi; [by exists i|].
  destruct (make_server_instance _ _ _ s Hi) as (i1 & H1 & Hi1). destruct (IH i1 Hi1) as (i2 & H2 & Hi2).
  exists i2. cbn [make_servers omap list_omap]. rewrite H1, H2. split; [|done].
  by destruct (instance_of infos bootstrap s).
Qed.

(** The bootstrap servers are made first, without a resolver. *)
Lemma make_servers_bootstrap i l :
  (∀ s made, inst_get i s = Some made → made = new_server s (proxy_of s) None) →
  let '(_, i') := make_servers i None true l in
  (∀ s made, inst_get i' s = Some made → made = new_server s (proxy_of s) None ∧ (is_Some (inst_get i s) ∨ s ∈ l)) ∧
  (∀ s, is_Some (inst_get i s) ∨ s ∈ l → is_Some (inst_get i' s)).
Proof.
  revert i. induction l as [|s l IH]; intros i Hi.
  { cbn. split; [intros s made Hs; split; [by apply Hi|by left]|]. intros s [?|?%not_elem_of_nil]; done. }
  cbn [make_servers]. unfold make_server. destruct (inst_get i s) as [made|] eqn:Hs.
  - specialize (IH i Hi). destruct (make_servers i None true l) as [rest i']. destruct IH as [IH1 IH2]. split.
    + intros s' m Hm. destruct (IH1 s' m Hm) as [-> [?|?]]; split; [done|by left|done|by right; right].
    + intros s' [?|[->|?]%elem_of_cons]; apply IH2; [by left|left; by rewrite Hs|by right].
  - set (i1 := (s, new_server s (proxy_of s) None) :: i). specialize (IH i1).
    destruct (make_servers i1 None true l) as [rest i']. destruct IH as [IH1 IH2].
    { intros s' m. subst i1. rewrite inst_get_cons. case_bool_decide as E; [by intros [= <-]; subst|apply Hi]. }
    assert (Hi1 : ∀ s', is_Some (inst_get i1 s') ↔ s' = s ∨ is_Some (inst_get i s')).
    { intros s'. subst i1. rewrite inst_get_cons. case_bool_decide; [naive_solver|]. naive_solver. }
    split.
    + intros s' m Hm. destruct (IH1 s' m Hm) as [-> [H1|?]]; split; [done| |done|by right; right].
      apply Hi1 in H1 as [->|?]; [right; by left|by left].
    + intros s' [?|[->|?]%elem_of_cons]; apply IH2; [left; apply Hi1; by right|left; apply Hi1; by left|by right].
Qed.

Definition group_of (infos : list ServerConf) (bootstrap : BootstrapResolver Name) (g : option string)
    : NameServerGroup Name :=
  mkGroup (omap (instance_of infos bootstrap) (hash_order (group_members infos g))).

Lemma group_fold infos bootstrap keys i default groups :
  inst_ok infos bootstrap i → NoDup keys →
  let '(_, default', groups') := fold_left (group_step infos bootstrap) keys (i, default, groups) in
  default' = (if bool_decide (None ∈ keys) then group_of infos bootstrap None else default) ∧
  ∀ g, groups' !! g = if bool_decide (Some g ∈ keys) then Some (group_of infos bootstrap (Some g)) else groups !! g.
Proof.
  intros Hi Hk. revert i default groups Hi. induction Hk as [|key keys Hkey Hk IH]; intros i default groups Hi.
  { cbn. split; [by rewrite bool_decide_false by apply not_elem_of_nil|].
    intros g. by rewrite bool_decide_false by apply not_elem_of_nil. }
  cbn [fold_left group_step].
  destruct (make_servers_instances _ _ _ (hash_order (group_members infos key)) Hi) as (i' & -> & Hi').
  destruct key as [name|].
  - specialize (IH i' default (<[name:=group_of infos bootstrap (Some name)]> groups) Hi').
    unfold group_of in IH at 1. destruct (fold_left _ keys _) as [[? default'] groups']. destruct IH as [IH1 IH2].
    split.
    + rewrite IH1. by rewrite (bool_decide_ext (None ∈ Some name :: keys) (None ∈ keys)) by (rewrite elem_of_cons; naive_solver).
    + intros g. rewrite IH2. destruct (decide (g = name)) as [->|Hne].
      * rewrite bool_decide_false by done. rewrite lookup_insert_eq. by rewrite bool_decide_true by left.
      * rewrite lookup_insert_ne by done.
        by rewrite (bool_decide_ext (Some g ∈ Some name :: keys) (Some g ∈ keys)) by (rewrite elem_of_cons; naive_solver).
  - specialize (IH i' (group_of infos bootstrap None) groups Hi').
    unfold group_of in IH at 1. destruct (fold_left _ keys _) as [[? default'] groups']. destruct IH as [IH1 IH2].
    split.
    + rewrite IH1. rewrite (bool_decide_true (None ∈ None :: keys)) by left. by case_bool_decide.
    + intros g. rewrite IH2.
      by rewrite (bool_decide_ext (Some g ∈ None :: keys) (Some g ∈ keys)) by (rewrite elem_of_cons; naive_solver).
Qed.

Lemma make_servers_made i l ns :
  ns ∈ (make_servers i None true l).1 → ∃ s, s ∈ l ∧ new_server s (proxy_of s) None = Some ns.
Proof.
  revert i. induction l as [|s l IH]; intros i; [by intros ?%not_elem_of_nil|].
  cbn [make_servers]. unfold make_server. destruct (inst_get i s) as [made|].
  - specialize (IH i). destruct (make_servers i None true l) as [rest i']. intros (s' & Hs & Hn)%IH.
    exists s'. split; [by right|done].
  - specialize (IH ((s, new_server s (proxy_of s) None) :: i)).
    destruct (make_servers _ None true l) as [rest i']. cbn [fst] in *.
    assert (Hrest : ns ∈ rest → ∃ s', s' ∈ s :: l ∧ new_server s' (proxy_of s') None = Some ns).
    { intros (s' & Hs & Hn)%IH. exists s'. split; [by right|done]. }
    destruct (new_server s (proxy_of s) None) as [x|] eqn:Hx; [|done].
    intros [->|?]%elem_of_cons; [|by apply Hrest]. exists s. split; [by left|done].
Qed.

Lemma make_servers_all i l s ns :
  s ∈ l → inst_get i s = None → new_server s (proxy_of s) None = Some ns → ns ∈ (make_servers i None true l).1.
Proof.
  revert i. induction l as [|s' l IH]; intros i Hs Hi Hn; [by apply not_elem_of_nil in Hs|].
  cbn [make_servers]. unfold make_server. destruct (inst_get i s') as [made|] eqn:Hi'.
  - apply elem_of_cons in Hs as [->|Hs]; [congruence|]. specialize (IH i Hs Hi Hn).
    by destruct (make_servers i None true l).
  - destruct (decide (s = s')) as [->|Hne].
    + rewrite Hn. destruct (make_servers _ None true l). by left.
    + apply elem_of_cons in Hs as [?|Hs]; [done|].
      specialize (IH ((s', new_server s' (proxy_of s') None) :: i) Hs).
      rewrite inst_get_cons, bool_decide_false in IH by done. specialize (IH Hi Hn).
      destruct (make_servers _ None true l). destruct (new_server s' _ None); [by right|done].
Qed.

(** A server finds addresses when its own is known: one that is told to when there
    is any such, and else one that no proxy is in front of. *)
Definition finds_addresses (infos : list ServerConf) (s : ServerConf) : Prop :=
  s ∈ infos ∧ has_ip (sc_server s) = true ∧
  (sc_bootstrap_dns s = true ∨
   sc_proxy s = None ∧ ∀ s', s' ∈ infos → has_ip (sc_server s') = true → sc_bootstrap_dns s' = false).

Lemma bootstrap_servers_spec infos s : s ∈ bootstrap_servers infos ↔ finds_addresses infos s.
Proof.
  unfold bootstrap_servers, finds_addresses.
  assert (Hin : ∀ s, In s (List.filter (fun s => has_ip (sc_server s)) (List.filter sc_bootstrap_dns infos)) ↔
                     s ∈ infos ∧ has_ip (sc_server s) = true ∧ sc_bootstrap_dns s = true).
  { intros s'. rewrite !filter_In, list_elem_of_In. tauto. }
  destruct (List.filter _ (List.filter _ infos)) as [|s0 l0].
  - assert (Hno : ∀ s', s' ∈ infos → has_ip (sc_server s') = true → sc_bootstrap_dns s' = false).
    { intros s' ? ?. apply not_true_is_false. intros ?. by apply (proj2 (Hin s')). }
    rewrite list_elem_of_In, filter_In, <- list_elem_of_In, andb_true_iff.
    destruct (sc_proxy s); cbn; (split; [naive_solver|]); intros (Hin' & Hip & [Hb|[? _]]); try done;
      by rewrite (Hno s Hin' Hip) in Hb.
  - rewrite list_elem_of_In, Hin. split; [naive_solver|]. intros (? & ? & [?|[_ Hno]]); [done|].
    destruct (proj1 (Hin s0) (or_introl eq_refl)) as (? & ? & Hb). rewrite Hno in Hb by done. done.
Qed.

Lemma no_bootstrap infos : bootstrap_servers infos = [] ↔ ∀ s, ¬ finds_addresses infos s.
Proof.
  setoid_rewrite <- bootstrap_servers_spec. split.
  - intros -> s. apply not_elem_of_nil.
  - destruct (bootstrap_servers infos) as [|s l]; [done|]. intros Hn. destruct (Hn s). by left.
Qed.

Lemma instance_resolver infos bootstrap s :
  ∃ resolver, instance_of infos bootstrap s = new_server s (proxy_of s) resolver ∧
    (finds_addresses infos s ∧ resolver = None ∨ ¬ finds_addresses infos s ∧ resolver = Some bootstrap).
Proof.
  eexists. split; [reflexivity|]. case_bool_decide as E; rewrite bootstrap_servers_spec in E; [by left|by right].
Qed.

Lemma elem_of_group_members infos g s : s ∈ group_members infos g ↔ s ∈ infos ∧ g ∈ groups_of s.
Proof.
  unfold group_members. rewrite elem_of_remove_dups, list_elem_of_In, filter_In, <- list_elem_of_In.
  by rewrite bool_decide_eq_true.
Qed.

Lemma elem_of_group_keys infos g :
  (∀ l, key_order l ≡ₚ l) → g ∈ group_keys infos ↔ group_members infos g ≠ [].
Proof.
  intros Hk. unfold group_keys. rewrite Hk, elem_of_remove_dups, list_elem_of_bind. split.
  - intros (s & Hg & Hs) E. assert (s ∈ group_members infos g) as Hin by (by apply elem_of_group_members).
    rewrite E in Hin. by apply not_elem_of_nil in Hin.
  - intros Hne. destruct (group_members infos g) as [|s l] eqn:E; [done|].
    assert (s ∈ group_members infos g) as Hin by (rewrite E; by left).
    apply elem_of_group_members in Hin as [? ?]. by exists s.
Qed.

Lemma not_own_in listeners interfaces confs s :
  s ∈ not_own listeners interfaces confs → s ∈ confs ∧ is_own listeners (sc_server s) interfaces = false.
Proof.
  unfold not_own. rewrite list_elem_of_In, filter_In, <- list_elem_of_In, negb_true_iff.
  intros [? Ho]. split; [done|]. destruct listeners; [unfold is_own; by destruct (url_ip (sc_server s))|done].
Qed.

(** The servers that find addresses, made or those there were. *)
Lemma boot_start_ok infos boot start :
  start = match bootstrap_servers infos with
          | [] => (boot, [])
          | l => let '(made, i) := make_servers [] None true l in (bs_new (mkGroup made), i)
          end →
  inst_ok infos start.1 start.2 ∧
  ∀ ns, ns ∈ servers (bs_resolver start.1) ↔
    (∃ s, finds_addresses infos s ∧ new_server s (proxy_of s) None = Some ns) ∨
    (∀ s, ¬ finds_addresses infos s) ∧ ns ∈ servers (bs_resolver boot).
Proof.
  intros ->. setoid_rewrite <- no_bootstrap. setoid_rewrite <- bootstrap_servers_spec.
  destruct (bootstrap_servers infos) as [|s0 l0] eqn:Hb.
  { split; [split|]; [intros s made; done| |].
    - intros s. rewrite Hb. by intros ?%not_elem_of_nil.
    - intros ns. split; [by right|]. intros [(s & ?%not_elem_of_nil & _)|[_ ?]]; done. }
  pose proof (make_servers_bootstrap [] (s0 :: l0) ltac:(done)) as Hm.
  pose proof (make_servers_made [] (s0 :: l0)) as Hmade.
  pose proof (λ s ns Hin, make_servers_all [] (s0 :: l0) s ns Hin eq_refl) as Hall.
  destruct (make_servers [] None true (s0 :: l0)) as [made i]. destruct Hm as [Hm1 Hm2]. unfold bs_new. cbn [fst snd bs_resolver servers] in *.
  split; [split|].
  - intros s m Hs. destruct (Hm1 s m Hs) as [-> [[? ?]|?]]; [done|]. unfold instance_of. by rewrite bool_decide_true by (by rewrite Hb).
  - intros s. rewrite Hb. intros ?. apply Hm2. by right.
  - intros ns. split; [intros ?%Hmade; by left|]. intros [(s & Hs & Hn)|[? _]]; [by eapply Hall|done].
Qed.

(** C16: The servers that find addresses are those whose own address the
    configuration gives, the ones told to when there is any and else the ones
    without a proxy, each made without a resolver, or the system's when there is
    none. Every group of the client holds the servers of the configuration that
    name it, each made once, with the resolver over the servers that find addresses
    unless it is one of them, and the default group the latter when no server is in
    it; no server asked is this server, whatever the order the hash maps are gone
    through; and building fails exactly when no server finds addresses. *)
Theorem client_build_correct (listeners : list Listener) (interfaces : list IpAddr)
    (boot : BootstrapResolver Name) (confs : list ServerConf) :
  (∀ l, hash_order l ≡ₚ l) → (∀ l, key_order l ≡ₚ l) →
  let infos := not_own listeners interfaces confs in
  match client_build listeners interfaces boot confs with
  | None => (∀ s, finds_addresses infos s → new_server s (proxy_of s) None = None) ∧
            ((∀ s, ¬ finds_addresses infos s) → servers (bs_resolver boot) = [])
  | Some c =>
      servers (bs_resolver (cl_bootstrap c)) ≠ [] ∧
      (∀ ns, ns ∈ servers (bs_resolver (cl_bootstrap c)) ↔
         (∃ s, finds_addresses infos s ∧ new_server s (proxy_of s) None = Some ns) ∨
         (∀ s, ¬ finds_addresses infos s) ∧ ns ∈ servers (bs_resolver boot)) ∧
      (∀ g, cl_servers c !! g =
         if bool_decide (group_members infos (Some g) = []) then None
         else Some (group_of infos (cl_bootstrap c) (Some g))) ∧
      cl_default c = (if bool_decide (group_members infos None = []) then bs_resolver (cl_bootstrap c)
                      else group_of infos (cl_bootstrap c) None) ∧
      ∀ g grp ns, client_server_group c g = Some grp → ns ∈ servers grp →
        (∀ s, ¬ finds_addresses infos s) ∧ ns ∈ servers (bs_resolver boot) ∨
        ∃ s resolver, s ∈ confs ∧ is_own listeners (sc_server s) interfaces = false ∧
          new_server s (proxy_of s) resolver = Some ns ∧
          (finds_addresses infos s ∧ resolver = None ∨
           ¬ finds_addresses infos s ∧ resolver = Some (cl_bootstrap c))
  end.
Proof.
  intros Hh Hk infos. unfold client_build. fold infos.
  set (start := match bootstrap_servers infos with [] => (boot, []) | _ => _ end).
  destruct (boot_start_ok infos boot start eq_refl) as (Hi & Hboot). pose proof (not_own_in listeners interfaces confs) as Hinfos. fold infos in Hinfos.
  destruct start as [bootstrap i]. cbn [fst snd] in *.
  destruct (servers (bs_resolver bootstrap)) as [|ns0 l0] eqn:Hs.
  { setoid_rewrite elem_of_nil in Hboot. split.
    - intros s Hf. destruct (new_server s (proxy_of s) None) as [ns|] eqn:Hn; [|done]. exfalso. apply (Hboot ns). left. by exists s.
    - intros Hno. destruct (servers (bs_resolver boot)) as [|ns l]; [done|]. exfalso. apply (Hboot ns). right. split; [done|by left]. }
  rewrite <- Hs in Hboot.
  pose proof (group_fold infos bootstrap (group_keys infos) i (bs_resolver bootstrap) ∅ Hi) as Hf.
  destruct (fold_left _ _ _) as [[? default] groups]. destruct Hf as [Hd Hg].
  { unfold group_keys. rewrite Hk. apply NoDup_remove_dups. }
  assert (Hmember : ∀ g, bool_decide (g ∈ group_keys infos) = negb (bool_decide (group_members infos g = []))).
  { intros g. rewrite <- bool_decide_not. apply bool_decide_ext. by apply elem_of_group_keys. }
  set (made_of ns := ∃ s resolver, s ∈ confs ∧ is_own listeners (sc_server s) interfaces = false ∧
    new_server s (proxy_of s) resolver = Some ns ∧
    (finds_addresses infos s ∧ resolver = None ∨ ¬ finds_addresses infos s ∧ resolver = Some bootstrap)).
  assert (Hmade : ∀ g ns, ns ∈ servers (group_of infos bootstrap g) → made_of ns).
  { intros g ns. cbn. intros (s & Hin & Hn)%list_elem_of_omap. rewrite Hh in Hin.
    apply elem_of_group_members in Hin as [Hin _]. apply Hinfos in Hin as [? ?].
    destruct (instance_resolver infos bootstrap s) as (r & Hr & ?). rewrite Hr in Hn. by exists s, r. }
  cbn [cl_bootstrap cl_servers cl_default]. split; [congruence|]. split; [done|]. split; [|split].
  - intros g. rewrite Hg, Hmember. destruct (decide (group_members infos (Some g) = [])) as [E|E].
    + rewrite !bool_decide_true by done. cbn. apply lookup_empty.
    + by rewrite !bool_decide_false.
  - rewrite Hd, Hmember. destruct (decide (group_members infos None = [])) as [E|E].
    + by rewrite !bool_decide_true.
    + by rewrite !bool_decide_false.
  - assert (Hdef : ∀ ns, ns ∈ servers default →
      (∀ s, ¬ finds_addresses infos s) ∧ ns ∈ servers (bs_resolver boot) ∨ made_of ns).
    { intros ns. rewrite Hd. case_bool_decide; [intros ?; right; by eapply Hmade|].
      intros [(s & Hf & Hn)|[? ?]]%Hboot; [right|by left].
      destruct (Hinfos s (proj1 Hf)) as [? ?]. exists s, None. naive_solver. }
    intros g grp ns. unfold client_server_group. cbn [cl_default cl_servers].
    destruct (bool_decide (g = "") || eq_ignore_ascii_case g "default").
    + intros Hsome. apply (inj Some) in Hsome as <-. apply Hdef.
    + rewrite Hg. destruct (bool_decide (Some g ∈ _)); [|by rewrite lookup_empty].
      intros Hsome ?. apply (inj Some) in Hsome as <-. right. by eapply Hmade.
Qed.
End ClientBuild.

(** ** At a concrete configuration *)
Section Example_.
Definition plain_url (ip : Z) : DnsUrl := mkUrl "" ProtoUdp (HostIpv4 ip) None ∅ ∅.
Definition plain_conf (ip : Z) (groups : list string) (exclude : bool) : ServerConf :=
  mkConf (mkServer groups exclude) (plain_url ip) false None server_options_default.

Definition up_google : ServerConf := plain_conf 0x08080808 [] false.
Definition up_office : ServerConf := plain_conf 0x01010101 ["office"] true.
(** 127.0.0.1, where this server listens. *)
Definition up_self : ServerConf := plain_conf LOCALHOST_V4 ["office"] false.
(** Put in the default group by name, and excluded from it. *)
Definition up_named : ServerConf := plain_conf 0x09090909 ["default"] true.

Definition self_listeners : list Listener := from_binds [bind_default_udp].

Definition new_plain (s : ServerConf) (_ : option unit) (_ : option (BootstrapResolver PlainName))
    : option (NameServer PlainName) :=
  Some (mkNs (mkNsOpts false false false None true true) (fun now _ _ _ => (now, Err (EProto 7)))).

Definition no_boot : BootstrapResolver PlainName := bs_new (mkGroup []).

Definition example_client (confs : list ServerConf) : option (DnsClient PlainName) :=
  client_build (Proxy := unit) ∅ new_plain id id self_listeners [] no_boot confs.

(** At two servers and one that is this server. *)
Lemma client_build_correct_witness :
  ∃ c, example_client [up_google; up_office; up_self] = Some c ∧
    cl_servers c !! "office" =
      Some (group_of (Proxy := unit) ∅ new_plain id [up_google; up_office] (cl_bootstrap c) (Some "office")) ∧
    length (servers (cl_default c)) = 1%nat.
Proof.
  destruct (example_client [up_google; up_office; up_self]) as [c|] eqn:Hc; [|by vm_compute in Hc].
  exists c. split; [done|].
  pose proof (client_build_correct (Proxy := unit) ∅ new_plain id id self_listeners [] no_boot
    [up_google; up_office; up_self] (fun l => reflexivity l) (fun l => reflexivity l)) as Hb. cbv zeta in Hb.
  unfold example_client in Hc. rewrite Hc in Hb. destruct Hb as (_ & _ & Hg & Hd & _).
  change (not_own self_listeners [] [up_google; up_office; up_self]) with [up_google; up_office] in *.
  split; [apply (Hg "office")|]. by rewrite Hd.
Defined.

(** A server in the group named default, excluded from the default group: the
    configuration counts it in the default group, the client never asks it. *)
Lemma named_default_lost :
  get_server_group [sc_info up_google; sc_info up_named] DEFAULT_GROUP = [sc_info up_google; sc_info up_named] ∧
  ((fun c => length (servers (cl_default c))) <$> example_client [up_google; up_named]) = Some 1%nat.
Proof. by vm_compute. Qed.
End Example_.
