(* ===== verification/Probe.v ===== *)
(** * Speed checks of addresses ([infra/ping.rs], [dns_mw_ns.rs])

    A probe of one target is the network: how long it takes and the delay it
    measures, or why it fails. On top of it the first success of several
    targets, and the probe modes tried one after another, each for at most
    200 milliseconds. *)

From S2P Require Import Prelude Names Config Message Tasks.

Inductive PingError := PingTimeout | NoAddress | PingOther.

Record PingOutput := mkPing { elapsed : Z; dest : PingAddr }.

(** [PingAddr::ip_addr] *)
Definition ping_ip (d : PingAddr) : IpAddr :=
  match d with
  | PIcmp ip => ip
  | PTcp s | PTcpSyn s | PHttp s | PHttps s => sa_ip s
  end.

Abbreviation PingRes := (result PingOutput PingError).

Section Probe.
Context `{FL : FuturesLib}.
(** A probe started at an instant: its duration, and the delay or the error. *)
Variable probe : Instant → PingAddr → Z * result Z PingError.

(** [ping]: the output names its target. *)
Definition ping (now : Instant) (d : PingAddr) : Task PingRes :=
  let '(dur, r) := probe now d in
  (now + Z.max 0 dur, result_map (fun e => mkPing e d) r).

Definition ping_fastest (now : Instant) (dests : list PingAddr) : Task PingRes :=
  match dests with
  | [] => (now, Err NoAddress)
  | _ => select_ok NoAddress (length dests) now (ping now <$> dests)
  end.

(** The window of one probe mode. *)
Definition MODE_WINDOW : Z := millis 200.

(** A probe and the sleep beside it: the probe is polled first. *)
Definition in_window (now : Instant) (x : Task PingRes) : Task PingRes :=
  if x.1 <=? now + MODE_WINDOW then x else (now + MODE_WINDOW, Err PingTimeout).

Fixpoint multi_mode_ping_fastest (now : Instant) (ips : list IpAddr) (modes : list SpeedCheckMode)
    : Task (option PingOutput) :=
  match modes with
  | [] => (now, None)
  | mode :: modes =>
      match in_window now (ping_fastest now (to_ping_addrs mode ips)) with
      | (t, Ok out) => (t, Some out)
      | (t, Err _) => multi_mode_ping_fastest t ips modes
      end
  end.

Fixpoint multi_mode_ping (now : Instant) (ip : IpAddr) (modes : list SpeedCheckMode) : Task PingRes :=
  match modes with
  | [] => (now, Err PingTimeout)
  | mode :: modes =>
      match to_ping_addr mode ip with
      | None => (now, Err NoAddress)
      | Some d =>
          match in_window now (ping now d) with
          | (t, Ok out) => (t, Ok out)
          | (t, Err _) => multi_mode_ping t ip modes
          end
      end
  end.

(** ** What a probe returns, and when *)
Context {FLaws : FuturesLaws}.

Lemma ping_spec now d : now ≤ (ping now d).1 ∧ ∀ out, (ping now d).2 = Ok out → dest out = d.
Proof.
  unfold ping. destruct (probe now d) as [dur [e|e]]; cbn; (split; [lia|]); [|done].
  by intros out [= <-].
Qed.

Lemma in_window_spec now x : now ≤ x.1 →
  now ≤ (in_window now x).1 ≤ now + MODE_WINDOW ∧ ∀ out, (in_window now x).2 = Ok out → x.2 = Ok out.
Proof. intros Hx. unfold in_window, MODE_WINDOW, millis.
  destruct (Z.leb_spec x.1 (now + 200 * 1000000)); cbn; (split; [lia|done]). Qed.

Lemma select_ok_spec fuel now tasks :
  tasks ≠ [] → (length tasks ≤ fuel)%nat → Forall (fun x => now ≤ x.1) tasks →
  now ≤ (select_ok (A := PingOutput) NoAddress fuel now tasks).1 ∧
  ∀ out, (select_ok NoAddress fuel now tasks).2 = Ok out → ∃ x, x ∈ tasks ∧ x.2 = Ok out.
Proof.
  intros Hne Hl Ht. pose proof (select_ok_first NoAddress fuel now tasks Hne Hl) as [Hx _]. rewrite Forall_forall in Ht.
  split; [by apply Ht|]. intros out Ho. eauto.
Qed.

Lemma ping_fastest_spec now dests :
  now ≤ (ping_fastest now dests).1 ∧ ∀ out, (ping_fastest now dests).2 = Ok out → dest out ∈ dests.
Proof.
  unfold ping_fastest. destruct dests as [|d l]; [done|].
  destruct (select_ok_spec (length (d :: l)) now (ping now <$> d :: l)) as [Ht Hout].
  - done.
  - by rewrite length_fmap.
  - rewrite Forall_forall. intros x (y & -> & _)%list_elem_of_fmap. apply ping_spec.
  - split; [done|]. intros out Ho. destruct (Hout out Ho) as (x & (y & -> & Hy)%list_elem_of_fmap & Hx).
    by rewrite (proj2 (ping_spec now y) _ Hx).
Qed.

Lemma to_ping_addr_ip m ip d : to_ping_addr m ip = Some d → ping_ip d = ip.
Proof. destruct m; cbn; by intros [= <-]. Qed.

(** A probe of several addresses over [n] modes is over after [n] windows, and
    its output is for one of the addresses. *)
Lemma multi_mode_ping_fastest_spec now ips modes :
  let x := multi_mode_ping_fastest now ips modes in
  now ≤ x.1 ≤ now + MODE_WINDOW * Z.of_nat (length modes) ∧
  ∀ out, x.2 = Some out → ping_ip (dest out) ∈ ips.
Proof.
  unfold MODE_WINDOW, millis. revert now.
  induction modes as [|m modes IH]; intros now; cbn [multi_mode_ping_fastest length].
  { cbn. split; [lia|done]. }
  destruct (ping_fastest_spec now (to_ping_addrs m ips)) as [Ht Hout].
  destruct (in_window_spec now _ Ht) as [Hw Hwout]. unfold MODE_WINDOW, millis in Hw.
  destruct (in_window now _) as [t [out|e]]; cbn [fst snd] in *.
  - split; [lia|]. intros o [= <-]. specialize (Hout _ (Hwout _ eq_refl)).
    apply list_elem_of_omap in Hout as (ip & Hip & Hd). by rewrite (to_ping_addr_ip _ _ _ Hd).
  - destruct (IH t) as [IHt IHo]. split; [lia|done].
Qed.

Lemma multi_mode_ping_spec now ip modes :
  let x := multi_mode_ping now ip modes in
  now ≤ x.1 ≤ now + MODE_WINDOW * Z.of_nat (length modes) ∧
  ∀ out, x.2 = Ok out → ping_ip (dest out) = ip.
Proof.
  unfold MODE_WINDOW, millis. revert now.
  induction modes as [|m modes IH]; intros now; cbn [multi_mode_ping length].
  { cbn. split; [lia|done]. }
  destruct (to_ping_addr m ip) as [d|] eqn:Hd; cbn [fst snd].
  2: { split; [lia|done]. }
  destruct (ping_spec now d) as [Ht Hout]. destruct (in_window_spec now _ Ht) as [Hw Hwout].
  unfold MODE_WINDOW, millis in Hw. destruct (in_window now _) as [t [out|e]]; cbn [fst snd] in *.
  - split; [lia|]. intros o [= <-].
    specialize (Hout _ (Hwout _ eq_refl)). by rewrite Hout, (to_ping_addr_ip _ _ _ Hd).
  - destruct (IH t) as [IHt IHo]. split; [lia|done].
Qed.
End Probe.
