(* ===== verification/TcpSyn.v ===== *)
(** * Half-open probes of TCP ([infra/ping/tcp_syn.rs])

    The packet that is sent, with its checksum, and which packets are the reply to
    it. The raw socket is the network. *)

From S2P Require Import Prelude Bytes Config.

(** ** The checksum *)

(** The words of the bytes, the last one filled with a zero. *)
Fixpoint be_words (l : list Z) : list Z :=
  match l with
  | a :: b :: l => a * 256 + b :: be_words l
  | [a] => [a * 256]
  | [] => []
  end.

Definition sum_of (l : list Z) : Z := fold_right Z.add 0 l.

(** The loop; none when the fuel is exceeded. *)
Fixpoint fold_carries (fuel : nat) (sum : Z) : option Z :=
  match fuel with
  | O => None
  | S fuel =>
      if Z.shiftr sum 16 =? 0 then Some sum
      else fold_carries fuel (Z.land sum 65535 + Z.shiftr sum 16)
  end.

(** [checksum]: the sum is a 32-bit integer; it is folded in at most three steps. *)
Definition checksum (bytes : list Z) : option Z :=
  (fun sum => 65535 - sum mod 65536) <$> fold_carries 4 (sum_of (be_words bytes)).

(** ** The packet *)
Definition FLAG_SYN : Z := 2.
Definition FLAG_RST : Z := 4.
Definition FLAG_ACK : Z := 16.

Definition pseudo_header (source dest : IpAddr) : option (list Z) :=
  match source, dest with
  | V4 src, V4 dst => Some (be_bytes 4 src ++ be_bytes 4 dst ++ [0; 6; 0; 20])
  | V6 src, V6 dst => Some (be_bytes 16 src ++ be_bytes 16 dst ++ [0; 0; 0; 20; 0; 0; 0; 6])
  | _, _ => None
  end.

Definition tcp_header (source dest : SocketAddr) (seq ack flags : Z) : list Z :=
  be_bytes 2 (sa_port source) ++ be_bytes 2 (sa_port dest) ++ be_bytes 4 seq ++ be_bytes 4 ack
  ++ [80; flags] ++ be_bytes 2 64240.

(** None: the families differ, which is a panic. *)
Definition tcp_packet (source dest : SocketAddr) (seq ack flags : Z) : option (list Z) :=
  pseudo ← pseudo_header (sa_ip source) (sa_ip dest);
  let header := tcp_header source dest seq ack flags in
  sum ← checksum (pseudo ++ header ++ [0; 0; 0; 0]);
  Some (header ++ be_bytes 2 sum ++ [0; 0]).

(** ** The reply *)
(** [wrapping_add] of 32-bit integers *)
Definition wrap_u32 (z : Z) : Z := z mod 4294967296.

Definition bytes_at (i n : nat) (l : list Z) : list Z := take n (drop i l).

(** [reply_tcp]: whether the port is open, and the number of the peer. *)
Definition reply_tcp (packet : list Z) (ipv4 : bool) (local_port remote_port seq : Z) : option (bool * Z) :=
  offset ← (if ipv4 then
              if (length packet <? 20)%nat || negb (Z.shiftr (nth 0%nat packet 0) 4 =? 4) || negb (nth 9%nat packet 0 =? 6) then None
              else
                let ihl := (Z.to_nat (Z.land (nth 0%nat packet 0) 15)%Z * 4)%nat in
                if (ihl <? 20)%nat then None else Some ihl
            else Some O);
  tcp ← (if (offset <=? length packet)%nat then Some (drop offset packet) else None);
  if (length tcp <? 20)%nat || (Z.shiftr (nth 12%nat tcp 0) 4 <? 5)
     || negb (bool_decide (bytes_at 0 2 tcp = be_bytes 2 remote_port))
     || negb (bool_decide (bytes_at 2 2 tcp = be_bytes 2 local_port))
     || (Z.land (nth 13%nat tcp 0) FLAG_ACK =? 0)
     || negb (bool_decide (bytes_at 8 4 tcp = be_bytes 4 (wrap_u32 (seq + 1))))
  then None
  else if negb (Z.land (nth 13%nat tcp 0) FLAG_RST =? 0) then Some (false, 0)
  else if Z.land (nth 13%nat tcp 0) FLAG_SYN =? 0 then None
  else Some (true, be_value (bytes_at 4 4 tcp)).

(** ** Sums of words *)
Lemma be_words_app l1 l2 : Nat.Even (length l1) → be_words (l1 ++ l2) = be_words l1 ++ be_words l2.
Proof.
  intros [n Hn]. revert l1 Hn. induction n as [|n IH]; intros l1 Hn; [by destruct l1|].
  destruct l1 as [|a [|b l1]]; cbn [length] in Hn; [lia..|]. cbn [app be_words]. rewrite IH by lia. done.
Qed.

Lemma sum_of_app l1 l2 : sum_of (l1 ++ l2) = sum_of l1 + sum_of l2.
Proof. unfold sum_of. induction l1 as [|x l1 IH]; cbn; [done|]. rewrite IH. lia. Qed.

Lemma be_words_bound l : all_u8 l → 0 ≤ sum_of (be_words l) ≤ 65535 * Z.of_nat (length l).
Proof.
  remember (length l) as n eqn:Hn. revert l Hn. induction n as [n IH] using lt_wf_ind. intros l -> Hl.
  destruct l as [|a [|b l]]; [done| |].
  - apply Forall_cons_1 in Hl as [Ha _]. unfold in_u8, u8_max in Ha. cbn. lia.
  - apply Forall_cons_1 in Hl as [Ha Hl]. apply Forall_cons_1 in Hl as [Hb Hl]. unfold in_u8, u8_max in Ha, Hb.
    cbn [be_words sum_of fold_right length]. fold (sum_of (be_words l)).
    specialize (IH (length l) ltac:(cbn; lia) l eq_refl Hl). lia.
Qed.

(** What folding keeps: the sum modulo 65535, and whether it is zero. *)
Lemma fold_carries_spec sum :
  0 ≤ sum < 2 ^ 32 →
  ∃ r, fold_carries 4 sum = Some r ∧ 0 ≤ r < 65536 ∧ r mod 65535 = sum mod 65535 ∧ (r = 0 ↔ sum = 0).
Proof.
  assert (Hstep : ∀ k x, 0 ≤ x → fold_carries (S k) x =
            if x / 65536 =? 0 then Some x else fold_carries k (x mod 65536 + x / 65536)).
  { intros k x Hx. cbn [fold_carries]. rewrite Z.shiftr_div_pow2 by lia.
    change 65535 with (Z.ones 16). rewrite Z.land_ones by lia. done. }
  assert (Hmod : ∀ x, (x mod 65536 + x / 65536) mod 65535 = x mod 65535).
  { intros x. rewrite (Z.div_mod x 65536) at 3 by lia.
    replace (65536 * (x / 65536) + x mod 65536) with (x mod 65536 + x / 65536 + x / 65536 * 65535) by lia.
    by rewrite Z.mod_add by lia. }
  intros Hs.
  assert (Hgo : ∀ k x, 0 ≤ x → x mod 65535 = sum mod 65535 → (x = 0 ↔ sum = 0) →
            (∃ r, fold_carries k (x mod 65536 + x / 65536) = Some r ∧ 0 ≤ r < 65536 ∧ r mod 65535 = sum mod 65535 ∧ (r = 0 ↔ sum = 0)) ∨ x / 65536 = 0 →
            ∃ r, fold_carries (S k) x = Some r ∧ 0 ≤ r < 65536 ∧ r mod 65535 = sum mod 65535 ∧ (r = 0 ↔ sum = 0)).
  { intros k x Hx Hm Hz Hr. rewrite Hstep by done. destruct (Z.eqb_spec (x / 65536) 0) as [E|E].
    - exists x. split; [done|]. split; [|done]. pose proof (Z.div_mod x 65536). pose proof (Z.mod_pos_bound x 65536). lia.
    - destruct Hr as [Hr|Hr]; [done|lia]. }
  assert (Hnz : ∀ x, 0 ≤ x → (x mod 65536 + x / 65536 = 0 ↔ x = 0)).
  { intros x Hx. pose proof (Z.div_mod x 65536). pose proof (Z.mod_pos_bound x 65536). pose proof (Z.div_pos x 65536). lia. }
  assert (Hb : ∀ x, 0 ≤ x → 0 ≤ x / 65536 ∧ 0 ≤ x mod 65536 < 65536).
  { intros x Hx. pose proof (Z.mod_pos_bound x 65536). pose proof (Z.div_pos x 65536). lia. }
  set (s1 := sum mod 65536 + sum / 65536). set (s2 := s1 mod 65536 + s1 / 65536). set (s3 := s2 mod 65536 + s2 / 65536).
  pose proof (Hb sum ltac:(lia)) as [? ?]. assert (sum / 65536 < 65536) by (apply Z.div_lt_upper_bound; lia).
  assert (0 ≤ s1 < 131072) by (unfold s1; lia). pose proof (Hb s1 ltac:(lia)) as [? ?].
  assert (s1 / 65536 < 2) by (apply Z.div_lt_upper_bound; lia). assert (0 ≤ s2 ≤ 65536) by (unfold s2; lia).
  pose proof (Hb s2 ltac:(lia)) as [? ?]. assert (s2 / 65536 < 2) by (apply Z.div_lt_upper_bound; lia).
  assert (s3 / 65536 = 0).
  { apply Z.div_small. unfold s3. destruct (Z.eq_dec s2 65536) as [->|]; [done|]. rewrite Z.div_small, Z.mod_small by lia. lia. }
  apply Hgo; [lia|done|done|left]. fold s1.
  apply Hgo; [lia|unfold s1; apply Hmod|unfold s1; apply Hnz; lia|left]. fold s2.
  apply Hgo; [lia|unfold s2; rewrite Hmod; unfold s1; apply Hmod|unfold s2; rewrite Hnz by lia; unfold s1; apply Hnz; lia|left]. fold s3.
  apply Hgo; [unfold s3; lia| | |by right].
  - unfold s3, s2, s1. by rewrite !Hmod.
  - unfold s3. rewrite Hnz by lia. unfold s2. rewrite Hnz by lia. unfold s1. apply Hnz. lia.
Qed.

Lemma length_tcp_header source dest seq ack flags : length (tcp_header source dest seq ack flags) = 16%nat.
Proof. unfold tcp_header. by rewrite !length_app, !length_be_bytes. Qed.

Lemma tcp_header_u8 source dest seq ack flags : in_u8 flags → all_u8 (tcp_header source dest seq ack flags).
Proof.
  intros Hf. unfold tcp_header, all_u8. rewrite !Forall_app. split_and!; try apply be_bytes_u8.
  rewrite Forall_cons, Forall_singleton. split; [unfold in_u8, u8_max; lia|done].
Qed.

Lemma pseudo_header_spec source dest pseudo :
  pseudo_header source dest = Some pseudo → Nat.Even (length pseudo) ∧ all_u8 pseudo ∧ (length pseudo ≤ 40)%nat ∧ 0 < sum_of (be_words pseudo).
Proof.
  assert (Hgo : ∀ n a b tail, Nat.Even n → Nat.Even (length tail) → all_u8 tail → 0 < sum_of (be_words tail) → (n + n + length tail ≤ 40)%nat →
            let p := be_bytes n a ++ be_bytes n b ++ tail in
            Nat.Even (length p) ∧ all_u8 p ∧ (length p ≤ 40)%nat ∧ 0 < sum_of (be_words p)).
  { intros n a b tail Hn Ht Hu Hs Hl. cbn. rewrite !length_app, !length_be_bytes. split_and!.
    - destruct Hn as [n' ->], Ht as [t ->]. exists (n' + n' + t)%nat. lia.
    - unfold all_u8. rewrite !Forall_app. split_and!; [apply be_bytes_u8..|done].
    - lia.
    - rewrite !be_words_app, !sum_of_app by (by rewrite length_be_bytes).
      pose proof (be_words_bound _ (be_bytes_u8 n a)). pose proof (be_words_bound _ (be_bytes_u8 n b)). lia. }
  assert (H4 : Nat.Even 4) by (exists 2%nat; done). assert (H8 : Nat.Even 8) by (exists 4%nat; done). assert (H16 : Nat.Even 16) by (exists 8%nat; done).
  unfold pseudo_header. destruct source as [a|a], dest as [b|b]; try done; intros E; apply (inj Some) in E; subst pseudo.
  - apply (Hgo 4%nat a b [0; 6; 0; 20]); [done|done| |cbn; lia|cbn; lia]. repeat constructor; unfold u8_max; lia.
  - apply (Hgo 16%nat a b [0; 0; 0; 20; 0; 0; 0; 6]); [done|done| |cbn; lia|cbn; lia]. repeat constructor; unfold u8_max; lia.
Qed.

(** A packet that is made is right: what it is made of, with its pseudo header, sums
    up to what a receiver expects. *)
Lemma tcp_packet_checksum source dest seq ack flags packet :
  in_u8 flags → tcp_packet source dest seq ack flags = Some packet →
  length packet = 20%nat ∧
  ∃ pseudo, pseudo_header (sa_ip source) (sa_ip dest) = Some pseudo ∧ checksum (pseudo ++ packet) = Some 0.
Proof.
  intros Hf. unfold tcp_packet. destruct (pseudo_header _ _) as [pseudo|] eqn:Hp; [|done]. cbn [mbind option_bind].
  destruct (pseudo_header_spec _ _ _ Hp) as (Heven & Hu & Hlen & Hpos). set (header := tcp_header _ _ _ _ _) in *.
  pose proof (length_tcp_header source dest seq ack flags) as Hh. fold header in Hh.
  pose proof (tcp_header_u8 source dest seq ack flags Hf) as Hhu. fold header in Hhu.
  assert (Heven2 : Nat.Even (length header)) by (rewrite Hh; by exists 8%nat).
  unfold checksum. set (s := sum_of (be_words (pseudo ++ header ++ [0; 0; 0; 0]))).
  assert (Hs : s = sum_of (be_words pseudo) + sum_of (be_words header)).
  { unfold s. rewrite !be_words_app, !sum_of_app by done. cbn. lia. }
  pose proof (be_words_bound _ Hu). pose proof (be_words_bound _ Hhu).
  destruct (fold_carries_spec s) as (r & Hr & Hr1 & Hr2 & Hr3); [lia|].
  rewrite Hr. cbn [fmap option_fmap option_map mbind option_bind]. intros E. apply (inj Some) in E. subst packet.
  split; [by rewrite !length_app, Hh, length_be_bytes|]. exists pseudo. split; [done|]. rewrite (Z.mod_small r) by lia.
  set (c := 65535 - r). assert (Hc : 0 ≤ c < 65536) by lia.
  assert (Hs' : sum_of (be_words (pseudo ++ header ++ be_bytes 2 c ++ [0; 0])) = s + c).
  { rewrite !be_words_app, !sum_of_app by done. rewrite Hs. cbn. unfold as_u8.
    pose proof (Z.div_mod c 256). pose proof (Z.mod_pos_bound c 256). rewrite (Z.mod_small (c / 256)) by (split; [apply Z.div_pos; lia|apply Z.div_lt_upper_bound; lia]). lia. }
  rewrite Hs'. destruct (fold_carries_spec (s + c)) as (r' & Hr' & Hr1' & Hr2' & Hr3'); [lia|]. rewrite Hr'. cbn. f_equal.
  assert (r' mod 65535 = 0).
  { rewrite Hr2'. unfold c. rewrite Z.add_mod, <- Hr2 by lia. rewrite <- Z.add_mod by lia. replace (r + (65535 - r)) with 65535 by lia. done. }
  destruct (Z.eq_dec r' 65535) as [->|]; [done|]. destruct (Z.eq_dec r' 0) as [E|]; [apply Hr3' in E; lia|].
  match goal with Hm : r' mod 65535 = 0 |- _ => rewrite Z.mod_small in Hm by lia end. lia.
Qed.

(** *** The reply is recognised, and nothing else *)

(** An IPv4 header of [ihl] words. *)
Definition ipv4_header (ihl : Z) (h : list Z) : Prop :=
  5 ≤ ihl ≤ 15 ∧ length h = (Z.to_nat ihl * 4)%nat ∧ nth 0%nat h 0 = 64 + ihl ∧ nth 9%nat h 0 = 6.

Lemma be_bytes_2 z : be_bytes 2 z = [as_u8 (z / 256); as_u8 z].
Proof. reflexivity. Qed.
Lemma be_bytes_4 z : be_bytes 4 z = [as_u8 (z / 256 / 256 / 256); as_u8 (z / 256 / 256); as_u8 (z / 256); as_u8 z].
Proof. reflexivity. Qed.

Lemma reply_header ihl h tcp port1 port2 seq :
  ipv4_header ihl h → reply_tcp (h ++ tcp) true port1 port2 seq = reply_tcp tcp false port1 port2 seq.
Proof.
  intros (Hi & Hl & H0 & H9). unfold reply_tcp.
  rewrite !app_nth1 by lia. rewrite H0, H9. cbn [mbind option_bind Nat.leb drop].
  assert (Hs : Z.shiftr (64 + ihl) 4 = 4 ∧ Z.land (64 + ihl) 15 = ihl).
  { assert (ihl = 5 ∨ ihl = 6 ∨ ihl = 7 ∨ ihl = 8 ∨ ihl = 9 ∨ ihl = 10 ∨ ihl = 11 ∨ ihl = 12 ∨ ihl = 13 ∨ ihl = 14 ∨ ihl = 15) as Hc by lia.
    repeat destruct Hc as [->|Hc]; subst; done. }
  destruct Hs as [-> ->]. rewrite length_app. destruct (Nat.ltb_spec (length h + length tcp) 20); [lia|]. cbn [Z.eqb Pos.eqb negb orb].
  rewrite <- Hl. destruct (Nat.ltb_spec (length h) 20); [lia|]. cbn [mbind option_bind].
  destruct (Nat.leb_spec (length h) (length h + length tcp)); [|lia]. cbn [mbind option_bind]. by rewrite drop_app_length.
Qed.

Lemma reply_packet source dest seq ack flags my_seq packet :
  tcp_packet source dest seq ack flags = Some packet → in_u8 flags →
  ack = wrap_u32 (my_seq + 1) →
  reply_tcp packet false (sa_port dest) (sa_port source) my_seq =
    if Z.land flags FLAG_ACK =? 0 then None
    else if negb (Z.land flags FLAG_RST =? 0) then Some (false, 0)
    else if Z.land flags FLAG_SYN =? 0 then None
    else Some (true, wrap_u32 seq).
Proof.
  unfold tcp_packet. destruct (pseudo_header _ _) as [pseudo|]; [|done]. cbn [mbind option_bind].
  destruct (checksum _) as [c|]; [|done]. cbn [mbind option_bind]. intros E Hf ->. apply (inj Some) in E. subst packet.
  unfold tcp_header. rewrite !be_bytes_2, !be_bytes_4. unfold reply_tcp. cbn [mbind option_bind Nat.leb drop app length nth Nat.ltb bytes_at take].
  rewrite !be_bytes_2, !be_bytes_4. rewrite !bool_decide_true by done. cbn [negb orb Z.shiftr].
  change (Z.shiftr 80 4 <? 5) with false. cbn [orb].
  destruct (Z.land flags FLAG_ACK =? 0); cbn [orb]; [done|].
  destruct (Z.land flags FLAG_RST =? 0); cbn [negb]; [|done].
  destruct (Z.land flags FLAG_SYN =? 0); [done|]. do 2 f_equal.
  rewrite <- be_bytes_4, be_value_bytes. done.
Qed.

Lemma reply_sound packet ipv4 local_port remote_port seq r :
  reply_tcp packet ipv4 local_port remote_port seq = Some r →
  ∃ off, (ipv4 = false → off = 0%nat) ∧ (off + 20 ≤ length packet)%nat ∧
    bytes_at off 2 packet = be_bytes 2 remote_port ∧ bytes_at (off + 2) 2 packet = be_bytes 2 local_port ∧
    bytes_at (off + 8) 4 packet = be_bytes 4 (wrap_u32 (seq + 1)).
Proof.
  unfold reply_tcp. set (offset := if ipv4 then _ else _).
  assert (Ho : ipv4 = false → offset = Some 0%nat) by (intros ->; done). clearbody offset. destruct offset as [off|]; [|done].
  cbn [mbind option_bind]. destruct (Nat.leb_spec off (length packet)) as [Hle|]; [|done]. cbn [mbind option_bind].
  destruct (_ || _) eqn:E; [done|]. intros _. rewrite !orb_false_iff, !negb_false_iff in E.
  destruct E as (((((Hl & _) & H0) & H2) & _) & H8).
  apply bool_decide_eq_true in H0, H2, H8. apply Nat.ltb_ge in Hl. rewrite length_drop in Hl.
  exists off. unfold bytes_at in *. rewrite !drop_drop in *. replace (off + 0)%nat with off in H0 by lia.
  split_and!; try done; [|lia]. intros Hv. by injection (Ho Hv).
Qed.

(** The request of a probe is a packet whose checksum a receiver accepts; the
    answers of an open and of a closed port to it are recognised, behind an IPv4
    header of any length or none; and whatever is taken as a reply is from the port
    that was probed, to the port it was probed from, and acknowledges the request. *)
Theorem syn_probe_correct source dest seq request :
  tcp_packet source dest seq 0 FLAG_SYN = Some request →
  (length request = 20%nat ∧
   ∃ pseudo, pseudo_header (sa_ip source) (sa_ip dest) = Some pseudo ∧ checksum (pseudo ++ request) = Some 0) ∧
  (∀ peer_seq flags reply ihl h,
     tcp_packet dest source peer_seq (wrap_u32 (seq + 1)) flags = Some reply → ipv4_header ihl h →
     let seen p ipv4 := reply_tcp p ipv4 (sa_port source) (sa_port dest) seq in
     seen (h ++ reply) true = seen reply false ∧
     (flags = FLAG_SYN + FLAG_ACK → seen reply false = Some (true, wrap_u32 peer_seq)) ∧
     (flags = FLAG_RST + FLAG_ACK → seen reply false = Some (false, 0)) ∧
     (flags = FLAG_ACK ∨ flags = FLAG_SYN → seen reply false = None)) ∧
  (∀ packet ipv4 r, reply_tcp packet ipv4 (sa_port source) (sa_port dest) seq = Some r →
     ∃ off, (ipv4 = false → off = 0%nat) ∧ (off + 20 ≤ length packet)%nat ∧
       bytes_at off 2 packet = be_bytes 2 (sa_port dest) ∧ bytes_at (off + 2) 2 packet = be_bytes 2 (sa_port source) ∧
       bytes_at (off + 8) 4 packet = be_bytes 4 (wrap_u32 (seq + 1))).
Proof.
  intros Hreq. split_and!.
  - eapply tcp_packet_checksum; [|done]. unfold in_u8, u8_max, FLAG_SYN. lia.
  - eapply tcp_packet_checksum; [|done]. unfold in_u8, u8_max, FLAG_SYN. lia.
  - intros peer_seq flags reply ihl h Hreply Hh seen.
    assert (Hgo : in_u8 flags → seen reply false = _) by (intros Hf; exact (reply_packet _ _ _ _ _ _ _ Hreply Hf eq_refl)).
    split_and!; [by eapply reply_header|intros ->|intros ->|intros [-> | ->]]; rewrite Hgo by (unfold in_u8, u8_max, FLAG_SYN, FLAG_ACK, FLAG_RST; lia); done.
  - intros packet ipv4 r. apply reply_sound.
Qed.

Definition probe_source : SocketAddr := mkSocket (V4 3221225985) 12345.
Definition probe_dest : SocketAddr := mkSocket (V4 3221225986) 443.

Lemma syn_probe_correct_witness :
  ∃ request reply, tcp_packet probe_source probe_dest 5 0 FLAG_SYN = Some request ∧ length request = 20%nat ∧
    tcp_packet probe_dest probe_source 100 6 18 = Some reply ∧
    reply_tcp ([69; 0; 0; 0; 0; 0; 0; 0; 0; 6] ++ replicate 10 0 ++ reply) true 12345 443 5 = Some (true, 100).
Proof.
  eexists _, _. split; [vm_compute; reflexivity|].
  destruct (syn_probe_correct probe_source probe_dest 5 _ ltac:(vm_compute; reflexivity)) as ((Hl & _) & Hseen & _).
  split; [exact Hl|]. split; [vm_compute; reflexivity|].
  destruct (Hseen 100 18 _ 5 ([69; 0; 0; 0; 0; 0; 0; 0; 0; 6] ++ replicate 10 0) ltac:(vm_compute; reflexivity)) as (Hh & Ho & _).
  - split_and!; [lia|lia|reflexivity|reflexivity|reflexivity].
  - rewrite app_assoc. transitivity (Some (true, wrap_u32 100)); [|reflexivity]. exact (eq_trans Hh (Ho eq_refl)).
Defined.
