(* ===== verification/Ping.v ===== *)
(** * Targets of probes and repeated probes ([infra/ping.rs])

    A target as text, and what several tries of one target come to. One try is the
    network: how long it takes, and the delay it measures or its error. *)

From S2P Require Import Prelude Names Config Message Text Tasks Probe.

(** ** Targets as text *)

(** [SocketAddr::from_str]; the scope of an address is not kept. *)
Definition read_port : Parse Z := fun l => '(_, l) ← given_char 58 l; read_number 10 1000 true u16_max l.
Definition read_scope : Parse Z := fun l => '(_, l) ← given_char 37 l; read_number 10 1000 true u32_max l.

Definition sock_parse (l : text) : option SocketAddr :=
  match ('(a, l) ← read_ipv4 l; '(p, l) ← read_port l; Some (mkSocket (V4 a) p, l)) with
  | Some (s, rest) => match rest with [] => Some s | _ => None end
  | None =>
      '(_, l) ← given_char 91 l; '(a, l) ← read_ipv6 l;
      let l := match read_scope l with Some (_, l) => l | None => l end in
      '(_, l) ← given_char 93 l; '(p, l) ← read_port l;
      match l with [] => Some (mkSocket (V6 a) p) | _ => None end
  end.

(** An address with a port, or with the port given. *)
Definition sock_or_ip (port : Z) (l : text) : option SocketAddr :=
  opt_or (sock_parse l) ((fun ip => mkSocket ip port) <$> ip_of_bytes l).

(** [TryFrom<&str>] *)
Definition ping_addr_parse (s : text) : option PingAddr :=
  let s := trim s in
  match strip_prefix (text_of "tcp-syn://") s with
  | Some a => PTcpSyn <$> sock_parse a
  | None =>
      match strip_prefix (text_of "tcp://") s with
      | Some a => PTcp <$> sock_parse a
      | None =>
          match strip_prefix (text_of "http://") s with
          | Some a => PHttp <$> sock_or_ip 80 a
          | None =>
              match strip_prefix (text_of "https://") s with
              | Some a => PHttps <$> sock_or_ip 443 a
              | None => PIcmp <$> ip_of_bytes (opt_unwrap_or s (strip_prefix (text_of "icmp://") s))
              end
          end
      end
  end.

(** ** One try over HTTP or HTTPS *)

(** [send_ping]: whether the request is written, and the line that is read back; its
    result says whether the line is one of HTTP. *)
Definition send_ping (written : bool) (line : option text) : option bool :=
  if written then (fun l => is_some (strip_prefix (text_of "HTTP/") l)) <$> line else None.

(** [ping_http] and [ping_https], with whether the connection is made. *)
Definition ping_http (connected : bool) (written : bool) (line : option text) : bool :=
  connected && is_some (send_ping written line).

(** What is read is not looked at: a server that closes the connection without an
    answer is as good as one that answers. *)
Lemma ping_http_any_line l : ping_http true true (Some l) = true.
Proof. done. Qed.

(** ** Several tries *)
Inductive DurationAgg := AggMin | AggMean | AggMax.

Record PingOptions := mkPingOptions {
  po_times : nat;
  po_timeout : Z;
  po_all_success : bool;
  po_duration_agg : DurationAgg;
}.
Definition ping_options_default : PingOptions := mkPingOptions 1 5000000000 false AggMean.
Definition with_times (n : nat) (o : PingOptions) : PingOptions := mkPingOptions n (po_timeout o) (po_all_success o) (po_duration_agg o).
Definition with_timeout (d : Z) (o : PingOptions) : PingOptions := mkPingOptions (po_times o) d (po_all_success o) (po_duration_agg o).
Definition with_all_success (b : bool) (o : PingOptions) : PingOptions := mkPingOptions (po_times o) (po_timeout o) b (po_duration_agg o).
Definition with_duration_agg (a : DurationAgg) (o : PingOptions) : PingOptions := mkPingOptions (po_times o) (po_timeout o) (po_all_success o) a.

Definition do_agg (durations : list Z) (agg : DurationAgg) : option Z :=
  match durations with
  | [] => None
  | d :: l =>
      Some (match agg with
            | AggMin => fold_left Z.min l d
            | AggMax => fold_left Z.max l d
            | AggMean => fold_left Z.add l d / Z.of_nat (length durations)
            end)
  end.

Section Tries.
(** The n-th try: how long it takes, and what it measures. *)
Variable try : nat → Z * result Z PingError.
Variable opts : PingOptions.

(** A try with the timeout: the try is polled first. *)
Definition timed_try (n : nat) : Z * result Z PingError :=
  let '(d, r) := try n in
  if d <=? po_timeout opts then (d, r) else (po_timeout opts, Err PingTimeout).

(** The loop of [tcp::ping], [http::ping] and [https::ping] over the tries that are
    left; [icmp::ping] is the same loop over tries that end by themselves. *)
Fixpoint ping_tries (remaining n : nat) (now : Z) (durations : list Z) (last_err : option PingError) : Z * result Z PingError :=
  match remaining with
  | O =>
      (now, match do_agg durations (po_duration_agg opts) with
            | Some v => Ok v
            | None => match last_err with Some e => Err e | None => Err NoAddress end
            end)
  | S remaining =>
      let '(d, r) := timed_try n in
      match r with
      | Ok dur => ping_tries remaining (S n) (now + d) (durations ++ [dur]) last_err
      | Err e =>
          if po_all_success opts then (now + d, Err e)
          else ping_tries remaining (S n) (now + d) durations (Some e)
      end
  end.
Definition ping_target : Z * result Z PingError := ping_tries (po_times opts) 0 0 [] None.

(** [tcp_syn::ping], whose last error begins as that of no address. *)
Fixpoint syn_tries (remaining n : nat) (now : Z) (durations : list Z) (last_error : PingError) : Z * result Z PingError :=
  match remaining with
  | O => (now, match do_agg durations (po_duration_agg opts) with Some v => Ok v | None => Err last_error end)
  | S remaining =>
      let '(d, r) := timed_try n in
      match r with
      | Ok dur => syn_tries remaining (S n) (now + d) (durations ++ [dur]) last_error
      | Err e =>
          if po_all_success opts then (now + d, Err e)
          else syn_tries remaining (S n) (now + d) durations e
      end
  end.
Definition syn_ping_target : Z * result Z PingError := syn_tries (po_times opts) 0 0 [] NoAddress.

(** ** What the tries come to *)
Definition tries (n k : nat) : list (Z * result Z PingError) := timed_try <$> seq n k.

Definition ok_of (x : Z * result Z PingError) : option Z := match x.2 with Ok d => Some d | Err _ => None end.
Definition err_of (x : Z * result Z PingError) : option PingError := match x.2 with Ok _ => None | Err e => Some e end.

Definition successes (l : list (Z * result Z PingError)) : list Z := omap ok_of l.
Definition failures (l : list (Z * result Z PingError)) : list PingError := omap err_of l.

(** The outcome by a look at all tries. *)
Definition tries_result (l : list (Z * result Z PingError)) : result Z PingError :=
  match (if po_all_success opts then head (failures l) else None) with
  | Some e => Err e
  | None => match do_agg (successes l) (po_duration_agg opts) with
            | Some v => Ok v
            | None => Err (opt_unwrap_or NoAddress (last (failures l)))
            end
  end.

Lemma ping_tries_spec remaining n now durations last_err :
  (ping_tries remaining n now durations last_err).2 =
    match (if po_all_success opts then head (failures (tries n remaining)) else None) with
    | Some e => Err e
    | None => match do_agg (durations ++ successes (tries n remaining)) (po_duration_agg opts) with
              | Some v => Ok v
              | None => Err (opt_unwrap_or NoAddress (opt_or (last (failures (tries n remaining))) last_err))
              end
    end.
Proof.
  revert n now durations last_err. induction remaining as [|k IH]; intros n now durations last_err.
  - cbn. rewrite app_nil_r. destruct (po_all_success opts); cbn; destruct (do_agg _ _); try done; by destruct last_err.
  - unfold tries. cbn [ping_tries seq fmap list_fmap]. change (timed_try <$> seq (S n) k) with (tries (S n) k).
    destruct (timed_try n) as [d [dur|e]] eqn:E.
    + rewrite IH. unfold successes, failures. cbn [omap list_omap ok_of err_of snd]. by rewrite <- app_assoc.
    + unfold successes, failures. cbn [omap list_omap ok_of err_of snd]. destruct (po_all_success opts) eqn:Ea; [done|].
      rewrite IH. unfold successes, failures. destruct (do_agg _ _); [done|]. do 2 f_equal.
      destruct (omap err_of (tries (S n) k)) as [|e' l']; [done|]. cbn [last]. by destruct (last (e' :: l')) eqn:El; [|apply last_None in El].
Qed.

Lemma timed_try_time n : 0 ≤ po_timeout opts → 0 ≤ (try n).1 → 0 ≤ (timed_try n).1 ≤ po_timeout opts.
Proof. intros Ht Hn. unfold timed_try. destruct (try n) as [d r]. destruct (Z.leb_spec d (po_timeout opts)); cbn in *; lia. Qed.

Lemma ping_tries_time remaining n now durations last_err :
  0 ≤ po_timeout opts → (∀ n, 0 ≤ (try n).1) →
  now ≤ (ping_tries remaining n now durations last_err).1 ≤ now + Z.of_nat remaining * po_timeout opts.
Proof.
  intros Ht Hn. revert n now durations last_err. induction remaining as [|k IH]; intros n now durations last_err; [cbn; lia|].
  cbn [ping_tries]. pose proof (timed_try_time n Ht (Hn n)). destruct (timed_try n) as [d [dur|e]]; cbn [fst] in *.
  - specialize (IH (S n) (now + d) (durations ++ [dur]) last_err). nia.
  - destruct (po_all_success opts); [cbn; nia|]. specialize (IH (S n) (now + d) durations (Some e)). nia.
Qed.

Lemma syn_tries_same remaining n now durations last_err :
  syn_tries remaining n now durations (opt_unwrap_or NoAddress last_err) = ping_tries remaining n now durations last_err.
Proof.
  revert n now durations last_err. induction remaining as [|k IH]; intros n now durations last_err.
  - cbn. destruct (do_agg _ _); [done|]. by destruct last_err.
  - cbn [ping_tries syn_tries]. destruct (timed_try n) as [d [dur|e]]; [apply IH|].
    destruct (po_all_success opts); [done|]. apply (IH _ _ _ (Some e)).
Qed.

(** Probing a target several times gives the aggregate of the delays that were
    measured, unless all tries have to succeed and one does not, which then is the
    error; without any delay it is the last error, and without any try that of no
    address. It takes no longer than the tries at their timeout, and the same holds of
    half-open probes. *)
Theorem ping_target_result :
  0 ≤ po_timeout opts → (∀ n, 0 ≤ (try n).1) →
  ping_target.2 = tries_result (tries 0 (po_times opts)) ∧
  0 ≤ ping_target.1 ≤ Z.of_nat (po_times opts) * po_timeout opts ∧
  syn_ping_target = ping_target.
Proof.
  intros Ht Hn. split_and!.
  - unfold ping_target, tries_result. rewrite ping_tries_spec. cbn [app]. destruct (if po_all_success opts then _ else _); [done|].
    destruct (do_agg _ _); [done|]. by destruct (last _).
  - apply ping_tries_time; done.
  - pose proof (ping_tries_time (po_times opts) 0 0 [] None Ht Hn). unfold ping_target. lia.
  - exact (syn_tries_same _ _ _ _ None).
Qed.
End Tries.

(** What is given for several delays lies between the shortest and the longest. *)
Lemma fold_min_le l d : fold_left Z.min l d ≤ d ∧ Forall (fun x => fold_left Z.min l d ≤ x) l.
Proof.
  revert d. induction l as [|x l IH]; intros d; [done|]. cbn [fold_left]. destruct (IH (Z.min d x)) as [Hd Hl].
  split; [lia|]. constructor; [lia|done].
Qed.
Lemma fold_max_ge l d : d ≤ fold_left Z.max l d ∧ Forall (fun x => x ≤ fold_left Z.max l d) l.
Proof.
  revert d. induction l as [|x l IH]; intros d; [done|]. cbn [fold_left]. destruct (IH (Z.max d x)) as [Hd Hl].
  split; [lia|]. constructor; [lia|done].
Qed.
Lemma fold_add_bounds l d lo hi :
  Forall (fun x => lo ≤ x ≤ hi) l →
  d + lo * Z.of_nat (length l) ≤ fold_left Z.add l d ≤ d + hi * Z.of_nat (length l).
Proof.
  revert d. induction l as [|x l IH]; intros d Hl; [cbn; lia|]. apply Forall_cons_1 in Hl as [Hx Hl].
  cbn [fold_left length]. specialize (IH (d + x) Hl). lia.
Qed.

Lemma do_agg_bounds l agg v :
  do_agg l agg = Some v → ∃ lo hi, do_agg l AggMin = Some lo ∧ do_agg l AggMax = Some hi ∧ lo ≤ v ≤ hi.
Proof.
  destruct l as [|d l]; [done|]. intros Hv.
  pose proof (fold_min_le l d) as [Hmin Hmins]. pose proof (fold_max_ge l d) as [Hmax Hmaxs].
  eexists _, _. split; [reflexivity|]. split; [reflexivity|]. destruct agg; injection Hv as <-; [lia| |lia].
  assert (Hb : Forall (fun x => fold_left Z.min l d ≤ x ≤ fold_left Z.max l d) l).
  { rewrite !Forall_forall in *. intros x Hx. split; [by apply Hmins|by apply Hmaxs]. }
  pose proof (fold_add_bounds l d _ _ Hb). cbn [length].
  split; [apply Z.div_le_lower_bound; lia|apply Z.div_le_upper_bound; lia].
Qed.

(** ** Concrete targets *)
Example ping_addr_tests :
  ping_addr_parse (text_of "127.0.0.1") = Some (PIcmp (V4 2130706433)) ∧
  ping_addr_parse (text_of "icmp://::1") = Some (PIcmp (V6 1)) ∧
  ping_addr_parse (text_of "tcp://223.5.5.5:80") = Some (PTcp (mkSocket (V4 3741648133) 80)) ∧
  ping_addr_parse (text_of "tcp://[::1]:80") = Some (PTcp (mkSocket (V6 1) 80)) ∧
  ping_addr_parse (text_of "tcp://223.5.5.5") = None ∧
  ping_addr_parse (text_of "http://223.5.5.5") = Some (PHttp (mkSocket (V4 3741648133) 80)) ∧
  ping_addr_parse (text_of "https://223.5.5.5:4431") = Some (PHttps (mkSocket (V4 3741648133) 4431)) ∧
  ping_addr_parse (text_of "https://223.5.5.5") = Some (PHttps (mkSocket (V4 3741648133) 443)).
Proof. vm_compute. repeat split. Qed.

Definition sample_tries (n : nat) : Z * result Z PingError :=
  match n with O => (30, Ok 20) | 1%nat => (9000, Ok 5) | _ => (10, Ok 40) end.

Lemma ping_target_result_witness :
  ping_target sample_tries (mkPingOptions 3 100 false AggMean) = (140, Ok 30) ∧
  (ping_target sample_tries (mkPingOptions 3 100 true AggMean)).2 =
    tries_result (mkPingOptions 3 100 true AggMean) (tries sample_tries (mkPingOptions 3 100 true AggMean) 0 3) ∧
  (ping_target sample_tries (mkPingOptions 3 100 true AggMean)).2 = Err PingTimeout.
Proof.
  split; [vm_compute; reflexivity|]. split; [|vm_compute; reflexivity].
  apply (ping_target_result sample_tries (mkPingOptions 3 100 true AggMean)); [cbn; lia|].
  intros [|[|n]]; cbn; lia.
Defined.
