(* ===== verification/Select.v ===== *)
(** * Choosing one answer of several upstreams ([dns_mw_ns.rs])

    The three response modes: the address whose probe succeeds first, the
    address with the shortest delay, and the first response. The two probing
    modes are a loop over the futures that are left: the upstream lookups and the
    probes of the addresses they gave; a step takes the first one that is ready. *)

From S2P Require Import Prelude Names Config Message Tasks Upstream Probe.

Section Select.
Context {Name : Type} `{NameLib Name} `{MsgLib Name} `{FL : FuturesLib}.
Variable probe : Instant → PingAddr → Z * result Z PingError.

Abbreviation Resp := (DnsResponse Name).
Abbreviation Res := (result Resp (LookupError Name)).

(** An answer or a negative reply, rather than a failure of the upstream. *)
Definition is_valid_response (res : Res) : bool :=
  match res with
  | Ok r => (resp_code r =? NoError) || (resp_code r =? NXDomain)
  | Err e => is_negative_response e
  end.

(** ** The state of a selection *)
Record Sel (P : Type) := mkSel {
  s_now : Instant;
  query_tasks : list (Task Res);
  ping_tasks : list (Task P);
  received_response : bool;
  ok_tasks : list Resp;
  err_tasks : list (LookupError Name);
  ip_addr_stats : list (IpAddr * Z);
  fastest_ip : option PingOutput;
  (** What was sent to the caller, and when. *)
  first_response : option (Instant * Res);
}.
Arguments mkSel {P} _ _ _ _ _ _ _ _ _.
Arguments s_now {P} _.
Arguments query_tasks {P} _.
Arguments ping_tasks {P} _.
Arguments received_response {P} _.
Arguments ok_tasks {P} _.
Arguments err_tasks {P} _.
Arguments ip_addr_stats {P} _.
Arguments fastest_ip {P} _.
Arguments first_response {P} _.

Definition sel_init {P} (now : Instant) (tasks : list (Task Res)) : Sel P :=
  mkSel now tasks [] false [] [] [] None None.

(** The future that is ready first, and those left. Probes are polled before
    lookups. *)
Inductive Ready (P : Type) := ReadyPing (p : P) | ReadyQuery (res : Res).
Arguments ReadyPing {P} _.
Arguments ReadyQuery {P} _.

Definition next_ready {P} (queries : list (Task Res)) (pings : list (Task P))
    : option (Instant * Ready P * list (Task Res) * list (Task P)) :=
  match select_all pings, select_all queries with
  | None, None => None
  | Some (p, rest), None => Some (p.1, ReadyPing p.2, queries, rest)
  | None, Some (q, rest) => Some (q.1, ReadyQuery q.2, rest, pings)
  | Some (p, prest), Some (q, qrest) =>
      if p.1 <=? q.1 then Some (p.1, ReadyPing p.2, queries, prest)
      else Some (q.1, ReadyQuery q.2, qrest, pings)
  end.

(** The time left for the other upstreams after the first valid response. *)
Definition PEER_WINDOW : Z := millis 200.

(** [timeout_at]: the lookup is polled before the deadline. *)
Definition timeout_at (deadline : Instant) (x : Task Res) : Task Res :=
  if x.1 <=? deadline then x else (deadline, Err ERR_TIMEOUT).

Definition limit_remaining_queries (now : Instant) (tasks : list (Task Res)) (received : bool) (res : Res)
    : list (Task Res) * bool :=
  if received || negb (is_valid_response res) then (tasks, received)
  else (timeout_at (now + PEER_WINDOW) <$> tasks, true).

(** Counting how many replies hold an address. *)
Fixpoint stat_add (norm : Z → Z) (ip : IpAddr) (l : list (IpAddr * Z)) : list (IpAddr * Z) :=
  match l with
  | [] => [(ip, norm 1)]
  | (k, n) :: l => if bool_decide (k = ip) then (k, norm (n + 1)) :: l else (k, n) :: stat_add norm ip l
  end.

(** [max_by_key]: the last of the greatest. *)
Definition max_by_count (l : list (IpAddr * Z)) : option (IpAddr * Z) :=
  fold_left (fun best e => match best with
                           | Some b => if b.2 <=? e.2 then Some e else best
                           | None => Some e
                           end) l None.

(** ** First successful probe *)
Definition first_ping_step (modes : list SpeedCheckMode) (st : Sel (option PingOutput))
    : option (Sel (option PingOutput)) :=
  if is_some (fastest_ip st) then None else
  match next_ready (query_tasks st) (ping_tasks st) with
  | None => None
  | Some (now, ReadyPing p, queries, pings) =>
      Some (mkSel now queries pings (received_response st) (ok_tasks st) (err_tasks st)
              (ip_addr_stats st) p (first_response st))
  | Some (now, ReadyQuery res, queries, pings) =>
      let '(queries, received) := limit_remaining_queries now queries (received_response st) res in
      match res with
      | Ok lookup =>
          let ips := ip_addrs lookup in
          let pings := match ips with
                       | [] => pings
                       | _ => pings ++ [multi_mode_ping_fastest probe now ips modes]
                       end in
          Some (mkSel now queries pings received (ok_tasks st ++ [lookup]) (err_tasks st)
                  (ip_addr_stats st) None (first_response st))
      | Err err =>
          Some (mkSel now queries pings received (ok_tasks st) (err_tasks st ++ [err])
                  (ip_addr_stats st) None (first_response st))
      end
  end.

(** ** Shortest delay *)
Definition faster (out : PingOutput) (best : option PingOutput) : bool :=
  match best with Some t => elapsed out <? elapsed t | None => true end.

(** A probe for each address that is new; the counts are bytes. *)
Definition start_pings (modes : list SpeedCheckMode) (now : Instant) (ips : list IpAddr)
    (acc : list (IpAddr * Z) * list (Task PingRes)) : list (IpAddr * Z) * list (Task PingRes) :=
  fold_left (fun acc ip =>
    (stat_add as_u8 ip acc.1,
     if existsb (fun e => bool_decide (e.1 = ip)) acc.1 then acc.2
     else acc.2 ++ [multi_mode_ping probe now ip modes])) ips acc.

Definition fastest_ip_step (reports_first : bool) (modes : list SpeedCheckMode) (st : Sel PingRes)
    : option (Sel PingRes) :=
  match next_ready (query_tasks st) (ping_tasks st) with
  | None => None
  | Some (now, ReadyPing p, queries, pings) =>
      let fastest := match p with
                     | Ok out => if faster out (fastest_ip st) then Some out else fastest_ip st
                     | Err _ => fastest_ip st
                     end in
      Some (mkSel now queries pings (received_response st) (ok_tasks st) (err_tasks st)
              (ip_addr_stats st) fastest (first_response st))
  | Some (now, ReadyQuery res, queries, pings) =>
      let '(queries, received) :=
        if reports_first then (queries, received_response st || is_valid_response res)
        else limit_remaining_queries now queries (received_response st) res in
      let first :=
        if reports_first && is_none (first_response st) && (received || bool_decide (length queries = 0%nat))
        then Some (now, res) else first_response st in
      match res with
      | Ok lookup =>
          let '(stats, pings) := start_pings modes now (ip_addrs lookup) (ip_addr_stats st, pings) in
          Some (mkSel now queries pings received (ok_tasks st ++ [lookup]) (err_tasks st)
                  stats (fastest_ip st) first)
      | Err err =>
          Some (mkSel now queries pings received (ok_tasks st) (err_tasks st ++ [err])
                  (ip_addr_stats st) (fastest_ip st) first)
      end
  end.

Fixpoint sel_loop {P} (fuel : nat) (step : Sel P → option (Sel P)) (st : Sel P) : option (Sel P) :=
  match fuel with
  | O => None
  | S fuel => match step st with Some st => sel_loop fuel step st | None => Some st end
  end.

(** A step consumes a lookup or a probe, and a lookup starts at most one probe
    for each address. *)
Definition lookup_weight (x : Task Res) : nat :=
  match x.2 with Ok r => S (length (ip_addrs r)) | Err _ => 1 end.
Definition sel_measure {P} (st : Sel P) : nat :=
  (sum_list_with lookup_weight (query_tasks st) + length (ping_tasks st))%nat.

(** ** First response *)
Fixpoint fastest_response (fuel : nat) (tasks : list (Task Res)) : Outcome Res :=
  match fuel with
  | O => OutOfFuel
  | S fuel =>
      match select_all tasks with
      | None => Panicked
      | Some ((t, res), rest) =>
          if is_valid_response res || bool_decide (length rest = 0%nat) then Done t res
          else fastest_response fuel rest
      end
  end.

(** ** The answer *)

(** The first reply with the address, cut down to that record under the name
    that was asked for. *)
Fixpoint reduce_to (name : Name) (ip : IpAddr) (oks : list Resp) : option Resp :=
  match oks with
  | [] => None
  | res :: oks =>
      match find_first (fun r => bool_decide (rdata_ip_addr (rr_data r) = Some ip)) (answers res) with
      | Some record =>
          Some (resp_mut (fun m => msg_set_answers (msg_answers m ++ [rr_set_name name record]) m)
                  (resp_mut (msg_set_answers []) res))
      | None => reduce_to name ip oks
      end
  end.

Definition conclude {P} (name : Name) (selected : option IpAddr) (probe_result : option Z) (st : Sel P)
    : Outcome Res :=
  match selected with
  | Some ip =>
      match reduce_to name ip (ok_tasks st) with
      | Some res =>
          Done (s_now st) (Ok (with_probe_result res (opt_map_or Failed Measured probe_result)))
      | None => Panicked
      end
  | None =>
      match ok_tasks st, err_tasks st with
      | lookup :: _, _ => Done (s_now st) (Ok lookup)
      | [], err :: _ => Done (s_now st) (Err err)
      | [], [] => Panicked
      end
  end.

(** Iteration order of a hash map of counts. *)
Variable iter : list (IpAddr * Z) → list (IpAddr * Z).

Definition count_ips (oks : list Resp) : list (IpAddr * Z) :=
  fold_left (fun l ip => stat_add id ip l) (oks ≫= ip_addrs) [].

Definition selected_by_ping (st : Sel (option PingOutput)) : option IpAddr :=
  match fastest_ip st with
  | Some out => Some (ping_ip (dest out))
  | None => fst <$> max_by_count (iter (count_ips (ok_tasks st)))
  end.

Definition selected_by_delay (st : Sel PingRes) : option IpAddr :=
  match fastest_ip st with
  | Some out => Some (ping_ip (dest out))
  | None => fst <$> max_by_count (iter (ip_addr_stats st))
  end.

(** [select_ip_response_reporting_first]: the outcome, and what was reported. *)
Definition select_ip_response_reporting_first (name : Name) (now : Instant) (strategy : ResponseMode)
    (modes : list SpeedCheckMode) (tasks : list (Task Res)) (reports_first : bool)
    : Outcome Res * option (Instant * Res) :=
  match strategy with
  | FirstPing =>
      let st := sel_init now tasks in
      match sel_loop (S (sel_measure st)) (first_ping_step modes) st with
      | Some st => (conclude name (selected_by_ping st) (elapsed <$> fastest_ip st) st, None)
      | None => (OutOfFuel, None)
      end
  | FastestIp =>
      let st := sel_init now tasks in
      match sel_loop (S (sel_measure st)) (fastest_ip_step reports_first modes) st with
      | Some st => (conclude name (selected_by_delay st) (elapsed <$> fastest_ip st) st, first_response st)
      | None => (OutOfFuel, None)
      end
  | FastestResponse => (fastest_response (S (length tasks)) tasks, None)
  end.

Definition select_ip_response (name : Name) (now : Instant) (strategy : ResponseMode)
    (modes : list SpeedCheckMode) (tasks : list (Task Res)) : Outcome Res :=
  (select_ip_response_reporting_first name now strategy modes tasks false).1.
End Select.

Arguments mkSel {Name P} _ _ _ _ _ _ _ _ _.
Arguments s_now {Name P} _.
Arguments query_tasks {Name P} _.
Arguments ping_tasks {Name P} _.
Arguments received_response {Name P} _.
Arguments ok_tasks {Name P} _.
Arguments err_tasks {Name P} _.
Arguments ip_addr_stats {Name P} _.
Arguments fastest_ip {Name P} _.
Arguments first_response {Name P} _.
Arguments ReadyPing {Name P} _.
Arguments ReadyQuery {Name P} _.
Arguments Sel Name P : clear implicits.
