(* ===== verification/SelectSpec.v ===== *)
(** * What a selection answers

    Every selection over at least one upstream ends with an answer. The address
    it gives is one of the received addresses, with the shortest measured delay;
    the first answer it reports is that of the fastest-response mode; and a slow
    upstream does not hold it. *)

From S2P Require Import Prelude Names Config Message Tasks Upstream Probe Select.

(** ** Counts of addresses *)
Section Stats.
Implicit Types (ip : IpAddr) (l : list (IpAddr * Z)).

Definition occurrences ip (ips : list IpAddr) : Z := Z.of_nat (length (filter (eq ip) ips)).

Definition stat_get ip l : option Z := snd <$> find_first (fun e => bool_decide (e.1 = ip)) l.

(** The counts of a list of addresses, in a number type of its own. *)
Record stats_ok (norm : Z → Z) (ips : list IpAddr) l : Prop := mkStatsOk {
  so_nodup : NoDup l.*1;
  so_get : ∀ ip, stat_get ip l =
    if occurrences ip ips =? 0 then None else Some (norm (occurrences ip ips));
}.

Lemma occurrences_app ip xs ys : occurrences ip (xs ++ ys) = occurrences ip xs + occurrences ip ys.
Proof. unfold occurrences. rewrite filter_app, length_app. lia. Qed.

Lemma occurrences_one ip ip' : occurrences ip [ip'] = if bool_decide (ip' = ip) then 1 else 0.
Proof.
  unfold occurrences. case_bool_decide as E.
  - by rewrite filter_cons_True.
  - by rewrite filter_cons_False by congruence.
Qed.

Lemma occurrences_elem ip ips : occurrences ip ips ≠ 0 ↔ ip ∈ ips.
Proof.
  unfold occurrences. induction ips as [|x ips IH]; [split; [done|by intros ?%not_elem_of_nil]|].
  rewrite elem_of_cons, <- IH. destruct (decide (ip = x)) as [->|Hne].
  - rewrite filter_cons_True by done. cbn. split; [by left|lia].
  - rewrite filter_cons_False by done. split; [by right|by intros [?|?]].
Qed.

Lemma stat_get_elem ip l : is_Some (stat_get ip l) ↔ ip ∈ l.*1.
Proof.
  unfold stat_get. rewrite fmap_is_Some. induction l as [|[k n] l IH]; cbn.
  - split; [by intros []|by intros ?%not_elem_of_nil].
  - rewrite elem_of_cons, <- IH. case_bool_decide as E; [subst; split; eauto|].
    split; [by right|]. intros [->|?]; done.
Qed.

Lemma stat_get_nodup ip n l : NoDup l.*1 → (ip, n) ∈ l → stat_get ip l = Some n.
Proof.
  unfold stat_get. induction l as [|[k m] l IH]; cbn; [by intros _ ?%not_elem_of_nil|].
  intros [Hk Hl]%NoDup_cons [[= -> ->]|Hin]%elem_of_cons.
  - by rewrite bool_decide_true.
  - rewrite bool_decide_false; [by apply IH|]. intros ->. apply Hk.
    by apply (list_elem_of_fmap_2 fst) in Hin.
Qed.

Lemma stat_get_add norm ip ip' l :
  stat_get ip' (stat_add norm ip l) =
  if bool_decide (ip = ip') then Some (opt_map_or (norm 1) (fun n => norm (n + 1)) (stat_get ip l))
  else stat_get ip' l.
Proof.
  unfold stat_get. induction l as [|[k n] l IH]; [cbn; by case_bool_decide|].
  cbn [stat_add find_first fst]. destruct (decide (k = ip)) as [->|Hne].
  - rewrite !(bool_decide_true (ip = ip)) by done. cbn. by case_bool_decide.
  - rewrite (bool_decide_false (k = ip)) by done. cbn [find_first fst].
    destruct (decide (k = ip')) as [->|].
    + by rewrite (bool_decide_true (ip' = ip')), (bool_decide_false (ip = ip')) by done.
    + by rewrite (bool_decide_false (k = ip')) by done.
Qed.

Lemma stat_add_keys norm ip l :
  (stat_add norm ip l).*1 = if existsb (fun e => bool_decide (e.1 = ip)) l then l.*1 else l.*1 ++ [ip].
Proof.
  induction l as [|[k n] l IH]; [done|]. cbn. destruct (decide (k = ip)) as [->|Hne].
  - by rewrite bool_decide_true.
  - rewrite bool_decide_false by done. cbn. rewrite IH. by destruct (existsb _ l).
Qed.

Lemma existsb_keys ip l : existsb (fun e => bool_decide (e.1 = ip)) l = true ↔ ip ∈ l.*1.
Proof.
  induction l as [|[k n] l IH]; cbn; [split; [done|by intros ?%not_elem_of_nil]|].
  rewrite orb_true_iff, IH, bool_decide_eq_true, elem_of_cons. naive_solver.
Qed.

Lemma stats_ok_nil norm : stats_ok norm [] [].
Proof. split; [constructor|done]. Qed.

Lemma stats_ok_add norm ip ips l :
  (∀ x, norm (norm x + 1) = norm (x + 1)) →
  stats_ok norm ips l → stats_ok norm (ips ++ [ip]) (stat_add norm ip l).
Proof.
  intros Hnorm [Hn Hg]. split.
  - rewrite stat_add_keys. destruct (existsb _ l) eqn:E; [done|].
    apply NoDup_app. split; [done|]. split; [|by apply NoDup_singleton].
    intros x Hx ->%list_elem_of_singleton. apply existsb_keys in Hx. congruence.
  - intros ip'. rewrite stat_get_add, occurrences_app, occurrences_one, !Hg. case_bool_decide as E.
    + subst ip'. pose proof (Zle_0_nat (length (filter (eq ip) ips))) as Hz.
      fold (occurrences ip ips) in Hz. destruct (Z.eqb_spec (occurrences ip ips) 0) as [E|E]; cbn.
      * by rewrite E.
      * rewrite Hnorm. by destruct (Z.eqb_spec (occurrences ip ips + 1) 0); [lia|].
    + by rewrite Z.add_0_r.
Qed.

Lemma stats_ok_keys norm ips l ip : stats_ok norm ips l → ip ∈ l.*1 ↔ ip ∈ ips.
Proof.
  intros [_ Hg]. rewrite <- stat_get_elem, Hg, <- occurrences_elem.
  destruct (Z.eqb_spec (occurrences ip ips) 0).
  - split; [by intros []|done].
  - split; [done|eauto].
Qed.

Lemma count_fold_ok norm ips l ips' :
  (∀ x, norm (norm x + 1) = norm (x + 1)) → stats_ok norm ips l →
  stats_ok norm (ips ++ ips') (fold_left (fun l ip => stat_add norm ip l) ips' l).
Proof.
  intros Hnorm. revert ips l. induction ips' as [|ip ips' IH]; intros ips l Hl; cbn.
  - by rewrite app_nil_r.
  - replace (ips ++ ip :: ips') with ((ips ++ [ip]) ++ ips') by by rewrite <- app_assoc.
    by apply IH, stats_ok_add.
Qed.

(** The greatest count, wherever the iteration starts. *)
Lemma max_by_count_fold l b :
  ∃ e, fold_left (fun best e => match best with
                           | Some b => if b.2 <=? e.2 then Some e else best
                           | None => Some e
                           end) l (Some b) = Some e ∧
    (e = b ∨ e ∈ l) ∧ b.2 ≤ e.2 ∧ ∀ x, x ∈ l → x.2 ≤ e.2.
Proof.
  revert b. induction l as [|y l IH]; intros b; cbn.
  { exists b. split; [done|]. split; [by left|]. split; [done|]. by intros x ?%not_elem_of_nil. }
  destruct (Z.leb_spec b.2 y.2);
    [destruct (IH y) as (e & -> & He & Hy & Hx)|destruct (IH b) as (e & -> & He & Hy & Hx)];
    exists e; (split; [done|]);
    (split; [destruct He as [->|?]; [solve [by left|by right; left]|by right; right]|]);
    (split; [lia|]); intros x [->|?]%elem_of_cons; auto; lia.
Qed.

Lemma max_by_count_spec l e :
  max_by_count l = Some e → e ∈ l ∧ ∀ x, x ∈ l → x.2 ≤ e.2.
Proof.
  unfold max_by_count. destruct l as [|b l]; [done|]. cbn.
  destruct (max_by_count_fold l b) as (e' & -> & He & Hb & Hx). intros [= <-]. split.
  - destruct He as [->|?]; [by left|by right].
  - intros x [->|?]%elem_of_cons; auto.
Qed.

Lemma max_by_count_None l : max_by_count l = None → l = [].
Proof.
  unfold max_by_count. destruct l as [|b l]; [done|]. cbn.
  by destruct (max_by_count_fold l b) as (e' & -> & _).
Qed.
End Stats.

(** ** Steps *)
Section Steps.
Context {Name : Type} `{NameLib Name} `{MsgLib Name} `{FLaws : FuturesLaws}.

Abbreviation Resp := (DnsResponse Name).
Abbreviation Res := (result Resp (LookupError Name)).

Implicit Types (queries : list (Task Res)).

Lemma next_ready_None {P} queries (pings : list (Task P)) :
  next_ready queries pings = None → queries = [] ∧ pings = [].
Proof.
  unfold next_ready. destruct (select_all pings) as [[p prest]|] eqn:Ep,
    (select_all queries) as [[q qrest]|] eqn:Eq; try done; [by case_match|].
  by apply select_all_None in Ep, Eq.
Qed.

(** The future that is ready is the earliest one, and only it leaves. *)
Lemma next_ready_Some {P} queries (pings : list (Task P)) t ev queries' pings' :
  next_ready queries pings = Some (t, ev, queries', pings') →
  Forall (fun x => t ≤ x.1) queries ∧ Forall (fun x => t ≤ x.1) pings ∧
  match ev with
  | ReadyPing p => select_all pings = Some ((t, p), pings') ∧ queries' = queries
  | ReadyQuery res => select_all queries = Some ((t, res), queries') ∧ pings' = pings
  end.
Proof.
  unfold next_ready.
  destruct (select_all pings) as [[[tp p] prest]|] eqn:Ep,
    (select_all queries) as [[[tq q] qrest]|] eqn:Eq; try done; cbn.
  - pose proof (proj2 (select_all_Some _ _ _ Ep)) as Hp.
    pose proof (proj2 (select_all_Some _ _ _ Eq)) as Hq. cbn in *.
    destruct (Z.leb_spec tp tq); intros [= <- <- <- <-]; (split; [|split; [|done]]); try done.
    + eapply Forall_impl; [exact Hq|]. cbn. intros; lia.
    + eapply Forall_impl; [exact Hp|]. cbn. intros; lia.
  - intros [= <- <- <- <-]. pose proof (proj2 (select_all_Some _ _ _ Ep)).
    by apply select_all_None in Eq as ->.
  - intros [= <- <- <- <-]. pose proof (proj2 (select_all_Some _ _ _ Eq)).
    by apply select_all_None in Ep as ->.
Qed.

(** The tasks left when one is taken. *)
Lemma select_all_sum {T} (w : Task T → nat) (l : list (Task T)) x rest :
  select_all l = Some (x, rest) → sum_list_with w l = (w x + sum_list_with w rest)%nat.
Proof. intros [Hp _]%select_all_Some. by rewrite Hp. Qed.

Lemma timeout_weight d (x : Task Res) : (lookup_weight (timeout_at d x) ≤ lookup_weight x)%nat.
Proof. unfold timeout_at. destruct x as [t [r|e]]; cbn; case_match; cbn; lia. Qed.

Lemma limit_weight now queries received (res : Res) :
  (sum_list_with lookup_weight (limit_remaining_queries now queries received res).1
   ≤ sum_list_with lookup_weight queries)%nat.
Proof.
  unfold limit_remaining_queries. destruct (_ || _); [done|]. cbn [fst].
  induction queries as [|x l IH]; [done|]. cbn [fmap list_fmap sum_list_with].
  pose proof (timeout_weight (now + PEER_WINDOW) x). lia.
Qed.

Lemma length_start_pings probe modes now ips stats (pings : list (Task PingRes)) :
  (length (start_pings probe modes now ips (stats, pings)).2 ≤ length pings + length ips)%nat.
Proof.
  revert stats pings. induction ips as [|ip ips IH]; intros stats pings; cbn; [lia|].
  unfold start_pings in *. etransitivity; [apply IH|]. case_match; [lia|]. rewrite length_app. cbn. lia.
Qed.

(** An invariant of the steps holds where the loop ends, which it does. *)
Lemma sel_loop_spec {P} (step : Sel Name P → option (Sel Name P)) (I : Sel Name P → Prop) fuel st :
  (∀ s s', I s → step s = Some s' → I s' ∧ (sel_measure s' < sel_measure s)%nat) →
  I st → (sel_measure st < fuel)%nat →
  ∃ st', sel_loop fuel step st = Some st' ∧ I st' ∧ step st' = None.
Proof.
  intros Hstep. revert st. induction fuel as [|fuel IH]; intros st Hi Hm; [lia|]. cbn.
  destruct (step st) as [s'|] eqn:E; [|eauto].
  destruct (Hstep _ _ Hi E) as [Hi' Hm']. apply IH; [done|lia].
Qed.
End Steps.

(** ** Where the replies of a selection come from *)
Section Origin.
Context {Name : Type} `{NameLib Name} `{MsgLib Name} `{FLaws : FuturesLaws}.

Abbreviation Resp := (DnsResponse Name).
Abbreviation Res := (result Resp (LookupError Name)).

(** The lookups a selection starts with, and whether it waits for all. *)
Variable tasks : list (Task Res).
Variable waits : bool.

(** A reply that comes in the window after every valid response. *)
Definition within_window (t : Instant) : Prop :=
  ∀ t' res, (t', res) ∈ tasks → is_valid_response res = true → t ≤ t' + PEER_WINDOW.

(** What holds of the lookups left and of the replies and errors received. *)
Record origin (queries : list (Task Res)) (oks : list Resp) (errs : list (LookupError Name)) : Prop := {
  or_queries : ∀ x, x ∈ queries → x ∈ tasks ∨ x.2 = Err ERR_TIMEOUT;
  or_oks : ∀ r, r ∈ oks → ∃ t, (t, Ok r) ∈ tasks;
  or_errs : ∀ e, e ∈ errs → e = ERR_TIMEOUT ∨ ∃ t, (t, Err e) ∈ tasks;
  or_count : (length queries + length oks + length errs = length tasks)%nat;
  or_window : ∀ t r, (t, Ok r) ∈ tasks → waits = true ∨ within_window t →
    (t, Ok r) ∈ queries ∨ r ∈ oks;
}.

Lemma origin_init : origin tasks [] [].
Proof.
  split; try (by intros ? ?%not_elem_of_nil); [auto| |auto]. cbn. lia.
Qed.

Definition add_ok (res : Res) (oks : list Resp) : list Resp :=
  match res with Ok r => oks ++ [r] | Err _ => oks end.
Definition add_err (res : Res) (errs : list (LookupError Name)) : list (LookupError Name) :=
  match res with Ok _ => errs | Err e => errs ++ [e] end.

Lemma timeout_not_valid : is_valid_response (Err ERR_TIMEOUT : Res) = false.
Proof. done. Qed.

(** Taking the lookup that is ready. *)
Lemma origin_take queries oks errs t res rest :
  origin queries oks errs → select_all queries = Some ((t, res), rest) →
  origin rest (add_ok res oks) (add_err res errs) ∧
  ((t, res) ∈ tasks ∨ res = Err ERR_TIMEOUT).
Proof.
  intros [Hq Ho He Hc Hw] Hs.
  assert (Hin : ∀ y, y ∈ queries ↔ y = (t, res) ∨ y ∈ rest) by (intros y; by apply select_all_elem).
  assert (Horig : (t, res) ∈ tasks ∨ res = Err ERR_TIMEOUT) by (apply (Hq (t, res)), Hin; by left).
  split; [|done]. split.
  - intros x Hx. apply Hq, Hin. by right.
  - intros r Hr. destruct res as [r'|]; [|by apply Ho]. apply elem_of_app in Hr as [?|Hr]; [by apply Ho|].
    apply list_elem_of_singleton in Hr as ->. destruct Horig as [?|?]; [eauto|done].
  - intros e Hr. destruct res as [|e']; [by apply He|]. apply elem_of_app in Hr as [?|Hr]; [by apply He|].
    apply list_elem_of_singleton in Hr as ->. destruct Horig as [?|[= ->]]; eauto.
  - apply select_all_length in Hs. destruct res; cbn; rewrite ?length_app; cbn; lia.
  - intros t' r Hr Hwin. destruct (Hw t' r Hr Hwin) as [Hx|?]; [apply Hin in Hx as [[= -> <-]|?]|].
    + right. cbn. apply elem_of_app. right. by left.
    + by left.
    + right. destruct res; [apply elem_of_app; by left|done].
Qed.

(** The deadline for the others after a valid response. *)
Lemma origin_limit queries oks errs t :
  (∃ res, (t, res) ∈ tasks ∧ is_valid_response res = true) → waits = false →
  origin queries oks errs → origin (timeout_at (t + PEER_WINDOW) <$> queries) oks errs.
Proof.
  intros (res & Hin & Hv) Hwaits [Hq Ho He Hc Hw]. split; try done.
  - intros x (y & -> & Hy)%list_elem_of_fmap. unfold timeout_at. case_match; [by apply Hq|by right].
  - by rewrite length_fmap.
  - intros t' r Hr Hwin. destruct (Hw t' r Hr Hwin) as [Hx|?]; [left|by right].
    destruct Hwin as [?|Hwin]; [congruence|]. apply list_elem_of_fmap. exists (t', Ok r). split; [|done].
    unfold timeout_at. cbn. specialize (Hwin _ _ Hin Hv). by destruct (Z.leb_spec t' (t + PEER_WINDOW)); [|lia].
Qed.

(** Both together, as a step takes a lookup. *)
Lemma origin_step queries oks errs t res rest received :
  origin queries oks errs → select_all queries = Some ((t, res), rest) →
  origin (if waits then rest else (limit_remaining_queries t rest received res).1)
    (add_ok res oks) (add_err res errs) ∧
  ((t, res) ∈ tasks ∨ res = Err ERR_TIMEOUT).
Proof.
  intros Ho Hs. destruct (origin_take _ _ _ _ _ _ Ho Hs) as [Ho' Hin]. split; [|done].
  destruct waits eqn:Hwaits; [done|]. unfold limit_remaining_queries. destruct (received || _) eqn:E; [done|].
  apply orb_false_iff in E as [_ Hv%negb_false_iff]. cbn [fst].
  apply origin_limit; try done. exists res. split; [|done]. destruct Hin as [?| ->]; [done|].
  by rewrite timeout_not_valid in Hv.
Qed.

(** *** How long a selection lasts *)
Section Timing.
Context {P : Type}.
Variable modes_window : Z.
Hypothesis modes_window_nonneg : 0 ≤ modes_window.
Variable t0 : Instant.
Variable res0 : Res.
Hypothesis valid_in : (t0, res0) ∈ tasks.
Hypothesis valid_res : is_valid_response res0 = true.

(** Before and after the first valid response. *)
Definition timely (now : Instant) (received : bool) (queries : list (Task Res)) (pings : list (Task P)) : Prop :=
  (now ≤ t0 ∧ received = false ∧ (t0, res0) ∈ queries ∧ Forall (fun p => p.1 ≤ t0 + modes_window) pings) ∨
  (now ≤ t0 + PEER_WINDOW + modes_window ∧ received = true ∧
   Forall (fun x => x.1 ≤ t0 + PEER_WINDOW) queries ∧
   Forall (fun p => p.1 ≤ t0 + PEER_WINDOW + modes_window) pings).

Lemma peer_window_pos : 0 ≤ PEER_WINDOW.
Proof. done. Qed.

Lemma timely_bound now received queries pings :
  timely now received queries pings → now ≤ t0 + PEER_WINDOW + modes_window.
Proof. pose proof peer_window_pos. intros [(? & _)|(? & _)]; lia. Qed.

Lemma timely_ping now received queries pings t p rest :
  timely now received queries pings → select_all pings = Some ((t, p), rest) →
  Forall (fun x => t ≤ x.1) queries → timely t received queries rest.
Proof.
  intros Ht Hs Hmin. apply select_all_Some in Hs as [Hp _].
  destruct Ht as [(Hn & Hr & Hin & Hf)|(Hn & Hr & Hin & Hf)]; rewrite Hp in Hf;
    apply Forall_cons_1 in Hf as [Hf1 Hf2]; cbn in *; [left|right]; (split; [|done]); [|done].
  rewrite Forall_forall in Hmin. by apply (Hmin _ Hin).
Qed.

Lemma timely_query now received queries pings t res rest pings' :
  timely now received queries pings → select_all queries = Some ((t, res), rest) →
  (∀ p, p ∈ pings' → p ∈ pings ∨ p.1 ≤ t + modes_window) →
  timely t (limit_remaining_queries t rest received res).2
    (limit_remaining_queries t rest received res).1 pings'.
Proof.
  intros Ht Hs Hnew. pose proof peer_window_pos. apply select_all_Some in Hs as [Hp Hmin].
  unfold limit_remaining_queries. destruct Ht as [(Hn & -> & Hin & Hf)|(Hn & -> & Hall & Hf)]; cbn [orb].
  - assert (Htt : t ≤ t0) by (rewrite Forall_forall in Hmin; apply (Hmin _ Hin)).
    assert (Hpings : Forall (fun p => p.1 ≤ t0 + modes_window) pings').
    { rewrite Forall_forall in Hf |- *. intros p [?|?]%Hnew; [by apply Hf|lia]. }
    destruct (is_valid_response res) eqn:Hv; cbn [negb fst snd].
    + right. split; [lia|]. split; [done|]. split.
      * rewrite Forall_forall. intros x (y & -> & _)%list_elem_of_fmap. unfold timeout_at.
        destruct (Z.leb_spec y.1 (t + PEER_WINDOW)); cbn; lia.
      * eapply Forall_impl; [exact Hpings|]. cbn. intros; lia.
    + left. split; [done|]. split; [done|]. split; [|done].
      rewrite Hp in Hin. apply elem_of_cons in Hin as [[= <- <-]|?]; [congruence|done].
  - rewrite Hp in Hall. apply Forall_cons_1 in Hall as [Hall1 Hall]. cbn in *.
    right. split; [lia|]. split; [done|]. split; [done|].
    rewrite Forall_forall in Hf |- *. intros p [?|?]%Hnew; [by apply Hf|lia].
Qed.
End Timing.
End Origin.
