(* ===== verification/SelectCorrect.v ===== *)
(** * Correctness of the choice of an answer

    Invariants of the two probing modes, and the theorems on the three response
    modes: the address given has the shortest delay measured, the first answer
    reported is the answer of the fastest-response mode, and the answer is
    there a bounded time after the first valid response. *)

From S2P Require Import Prelude Names Config Message Tasks Upstream Probe Select SelectSpec.

Section Correct.
Context {Name : Type} `{NameLib Name} `{MsgLib Name} `{FLaws : FuturesLaws}.
Variable probe : Instant → PingAddr → Z * result Z PingError.
Variable modes : list SpeedCheckMode.

Abbreviation Resp := (DnsResponse Name).
Abbreviation Res := (result Resp (LookupError Name)).

Variable tasks : list (Task Res).

(** A probe of an address starts when a reply with the address comes in. *)
Definition received_at (t : Instant) (ip : IpAddr) : Prop :=
  ∃ r, (t, Ok r) ∈ tasks ∧ ip ∈ ip_addrs r.

Abbreviation delay t ip := (multi_mode_ping probe t ip modes).

(** A result that is not better than the best one so far. *)
Definition beaten (r : PingRes) (best : option PingOutput) : Prop :=
  ∀ out, r = Ok out → ∃ f, best = Some f ∧ elapsed f ≤ elapsed out.

(** ** Shortest delay: the invariant *)
Section FastestIp.
Variable reports : bool.

Record fast_inv (st : Sel Name PingRes) : Prop := {
  fi_origin : origin tasks reports (query_tasks st) (ok_tasks st) (err_tasks st);
  fi_stats : stats_ok as_u8 (ok_tasks st ≫= ip_addrs) (ip_addr_stats st);
  fi_pings : ∀ p, p ∈ ping_tasks st → ∃ t ip, received_at t ip ∧ ip ∈ ok_tasks st ≫= ip_addrs ∧ p = delay t ip;
  fi_done : ∀ ip, ip ∈ ok_tasks st ≫= ip_addrs →
    ∃ t, received_at t ip ∧ (delay t ip ∈ ping_tasks st ∨ beaten (delay t ip).2 (fastest_ip st));
  fi_fastest : ∀ f, fastest_ip st = Some f →
    ∃ t ip, received_at t ip ∧ ip ∈ ok_tasks st ≫= ip_addrs ∧ (delay t ip).2 = Ok f;
}.

Lemma start_pings_spec now ips stats (pings : list (Task PingRes)) :
  let x := start_pings probe modes now ips (stats, pings) in
  x.1 = fold_left (fun l ip => stat_add as_u8 ip l) ips stats ∧
  (∀ p, p ∈ pings → p ∈ x.2) ∧
  (∀ p, p ∈ x.2 → p ∈ pings ∨ ∃ ip, ip ∈ ips ∧ p = delay now ip) ∧
  (∀ ip, ip ∈ ips → ip ∈ stats.*1 ∨ delay now ip ∈ x.2).
Proof.
  revert stats pings. induction ips as [|ip ips IH]; intros stats pings; cbn.
  { split; [done|]. split; [done|]. split; [by left|]. by intros ip ?%not_elem_of_nil. }
  unfold start_pings in IH. cbn zeta in IH.
  set (pings' := if existsb (fun e => bool_decide (e.1 = ip)) stats then pings
                 else pings ++ [delay now ip]).
  destruct (IH (stat_add as_u8 ip stats) pings') as (Hs & Hold & Hnew & Hips).
  assert (Hsub : ∀ p, p ∈ pings → p ∈ pings').
  { intros p Hp. subst pings'. case_match; [done|]. apply elem_of_app. by left. }
  assert (Hip : ip ∈ stats.*1 ∨ delay now ip ∈ pings').
  { subst pings'. destruct (existsb _ stats) eqn:E; [left; by apply existsb_keys|right].
    apply elem_of_app. right. by left. }
  split; [done|]. split; [auto|]. split.
  - intros p [Hp|(i & Hi & ->)]%Hnew; [|right; exists i; split; [by right|done]].
    subst pings'. destruct (existsb _ stats); [by left|].
    apply elem_of_app in Hp as [?| ->%list_elem_of_singleton]; [by left|].
    right. exists ip. split; [by left|done].
  - intros i [->|Hi]%elem_of_cons.
    + destruct Hip as [?|?]; auto.
    + destruct (Hips i Hi) as [Hk|?]; [|by right]. rewrite stat_add_keys in Hk.
      destruct (existsb _ stats); [by left|].
      apply elem_of_app in Hk as [?| ->%list_elem_of_singleton]; [by left|].
      destruct Hip as [?|?]; auto.
Qed.

Lemma as_u8_add x : as_u8 (as_u8 x + 1) = as_u8 (x + 1).
Proof. unfold as_u8. apply Zplus_mod_idemp_l. Qed.

Lemma beaten_faster r out best :
  beaten r best → beaten r (if faster out best then Some out else best).
Proof.
  intros Hb o Ho. destruct (Hb o Ho) as (f & -> & Hf). cbn.
  destruct (Z.ltb_spec (elapsed out) (elapsed f)); eexists; (split; [done|lia]).
Qed.

Lemma beaten_self out best : beaten (Ok out) (if faster out best then Some out else best).
Proof.
  intros o [= <-]. destruct best as [f|]; cbn; [|by eexists].
  destruct (Z.ltb_spec (elapsed out) (elapsed f)); eexists; (split; [done|lia]).
Qed.

(** A reply to take: its probes start, its addresses are counted. *)
Lemma fast_inv_ok st t r queries :
  fast_inv st → (t, Ok r) ∈ tasks →
  origin tasks reports queries (ok_tasks st ++ [r]) (err_tasks st) →
  let x := start_pings probe modes t (ip_addrs r) (ip_addr_stats st, ping_tasks st) in
  ∀ received first,
  fast_inv (mkSel t queries x.2 received (ok_tasks st ++ [r]) (err_tasks st) x.1 (fastest_ip st) first).
Proof.
  intros [_ Hs Hp Hd Hf] Hin Ho x received first. subst x.
  destruct (start_pings_spec t (ip_addrs r) (ip_addr_stats st) (ping_tasks st)) as (Hst & Hold & Hnew & Hips).
  assert (Hbind : (ok_tasks st ++ [r]) ≫= ip_addrs = (ok_tasks st ≫= ip_addrs) ++ ip_addrs r).
  { rewrite bind_app. cbn. by rewrite app_nil_r. }
  split; cbn [query_tasks ok_tasks err_tasks ip_addr_stats ping_tasks fastest_ip]; rewrite ?Hbind.
  - done.
  - rewrite Hst. by apply count_fold_ok; [apply as_u8_add|].
  - intros p [Hx|(ip & Hip & ->)]%Hnew.
    + destruct (Hp p Hx) as (t' & ip & ? & ? & ->). exists t', ip. split; [done|].
      split; [apply elem_of_app; by left|done].
    + exists t, ip. split; [by exists r|]. split; [apply elem_of_app; by right|done].
  - intros ip [Hip|Hip]%elem_of_app.
    + destruct (Hd ip Hip) as (t' & Hr & [?|?]); exists t'; auto.
    + destruct (Hips ip Hip) as [Hk|?].
      * apply (stats_ok_keys _ _ _ _ Hs) in Hk. destruct (Hd ip Hk) as (t' & Hr & [?|?]); exists t'; auto.
      * exists t. split; [by exists r|by left].
  - intros f Hff. destruct (Hf f Hff) as (t' & ip & ? & ? & ?). exists t', ip.
    split; [done|]. split; [apply elem_of_app; by left|done].
Qed.

(** The probe that is ready. *)
Lemma fast_inv_ping st t p rest :
  fast_inv st → select_all (ping_tasks st) = Some ((t, p), rest) →
  let fastest := match p with
                 | Ok out => if faster out (fastest_ip st) then Some out else fastest_ip st
                 | Err _ => fastest_ip st
                 end in
  ∀ first,
  fast_inv (mkSel t (query_tasks st) rest (received_response st) (ok_tasks st) (err_tasks st)
              (ip_addr_stats st) fastest first).
Proof.
  intros [Ho Hs Hp Hd Hf] Hsel fastest first.
  assert (Hin : ∀ y, y ∈ ping_tasks st ↔ y = (t, p) ∨ y ∈ rest) by (intros y; by apply select_all_elem).
  split; cbn [query_tasks ok_tasks err_tasks ip_addr_stats ping_tasks fastest_ip]; try done.
  - intros y Hy. apply Hp, Hin. by right.
  - intros ip Hip. destruct (Hd ip Hip) as (t' & Hr & [Hy|Hb]); exists t'; (split; [done|]).
    + apply Hin in Hy as [Hy|?]; [|by left]. right. rewrite Hy. subst fastest. cbn.
      destruct p as [out|e]; [apply beaten_self|done].
    + right. subst fastest. destruct p; [by apply beaten_faster|done].
  - intros f Hff. subst fastest. destruct p as [out|e]; [|by apply Hf].
    destruct (faster out (fastest_ip st)); [|by apply Hf]. injection Hff as <-.
    destruct (Hp (t, Ok out)) as (t' & ip & ? & ? & Heq); [apply Hin; by left|].
    exists t', ip. by rewrite <- Heq.
Qed.

Lemma fast_inv_init now : fast_inv (sel_init now tasks).
Proof.
  split; cbn; [apply origin_init|apply stats_ok_nil|..]; try done; by intros ? ?%not_elem_of_nil.
Qed.

(** What a step does to a lookup that is ready. *)
Lemma fastest_limit now queries received (res : Res) :
  (if reports then (queries, received || is_valid_response res)
   else limit_remaining_queries now queries received res) =
  (if reports then queries else (limit_remaining_queries now queries received res).1,
   if reports then received || is_valid_response res
   else (limit_remaining_queries now queries received res).2).
Proof. destruct reports; [done|]. by destruct (limit_remaining_queries _ _ _ _). Qed.

Lemma fast_inv_step st st' :
  fast_inv st → fastest_ip_step probe reports modes st = Some st' →
  fast_inv st' ∧ (sel_measure st' < sel_measure st)%nat.
Proof.
  intros Hi. unfold fastest_ip_step.
  destruct (next_ready (query_tasks st) (ping_tasks st)) as [[[[t [p|res]] queries] pings]|] eqn:Hn; [..|done].
  - apply next_ready_Some in Hn as (_ & _ & Hsel & ->). intros [= <-].
    split; [by apply fast_inv_ping|]. unfold sel_measure. cbn.
    apply select_all_length in Hsel. lia.
  - apply next_ready_Some in Hn as (_ & _ & Hsel & ->). rewrite fastest_limit.
    destruct (origin_step _ _ _ _ _ _ _ _ (received_response st) (fi_origin _ Hi) Hsel) as [Ho Hin].
    pose proof (limit_weight t queries (received_response st) res) as Hw.
    pose proof (select_all_sum lookup_weight _ _ _ Hsel) as Hsum.
    assert (Hw' : (sum_list_with lookup_weight (if reports then queries else
      (limit_remaining_queries t queries (received_response st) res).1)
      ≤ sum_list_with lookup_weight queries)%nat) by (destruct reports; [done|exact Hw]).
    destruct res as [r|e].
    + destruct Hin as [Hin|?]; [|done]. cbn [add_ok add_err] in Ho.
      pose proof (fast_inv_ok st t r _ Hi Hin Ho) as Hok. cbn zeta in Hok.
      pose proof (length_start_pings probe modes t (ip_addrs r) (ip_addr_stats st) (ping_tasks st)) as Hl.
      destruct (start_pings _ _ _ _ _) as [stats pings']. cbn [fst snd] in *. intros [= <-].
      split; [by apply Hok|]. unfold sel_measure. cbn [query_tasks ping_tasks].
      change (lookup_weight (t, Ok r)) with (S (length (ip_addrs r))) in Hsum. lia.
    + intros [= <-]. destruct Hi as [_ ? ? ? ?]. split.
      * by split.
      * unfold sel_measure. cbn [query_tasks ping_tasks].
        change (lookup_weight (t, Err e)) with 1%nat in Hsum. lia.
Qed.

Lemma fastest_ip_step_None (st : Sel Name PingRes) :
  fastest_ip_step probe reports modes st = None → query_tasks st = [] ∧ ping_tasks st = [].
Proof.
  unfold fastest_ip_step.
  destruct (next_ready _ _) as [[[[t [p|res]] queries] pings]|] eqn:Hn;
    [done| |intros _; by apply next_ready_None].
  destruct (if reports then _ else _). destruct res; [|done]. by destruct (start_pings _ _ _ _ _).
Qed.

Lemma fastest_ip_ends now :
  ∃ st, sel_loop (S (sel_measure (sel_init (P := PingRes) now tasks)))
          (fastest_ip_step probe reports modes) (sel_init now tasks) = Some st ∧
    fast_inv st ∧ query_tasks st = [] ∧ ping_tasks st = [].
Proof.
  destruct (sel_loop_spec (fastest_ip_step probe reports modes) fast_inv
    (S (sel_measure (sel_init (P := PingRes) now tasks))) (sel_init now tasks))
    as (st & Hl & Hi & Hnone).
  - intros s s'. apply fast_inv_step.
  - apply fast_inv_init.
  - lia.
  - exists st. split; [done|]. split; [done|]. by apply fastest_ip_step_None.
Qed.
End FastestIp.

(** ** The reduced reply *)
Definition has_ip (ip : IpAddr) (r : Rr Name) : bool :=
  bool_decide (rdata_ip_addr (rr_data r) = Some ip).

(** A reply cut down to its record of an address, under the name asked for. *)
Definition reduced (name : Name) (ip : IpAddr) (p : ProbeResult) (r resp : Resp) : Prop :=
  ∃ record, find_first (has_ip ip) (answers r) = Some record ∧
    resp = with_probe_result (resp_mut (msg_set_answers [rr_set_name name record]) r) p.

Lemma has_ip_find (r : Resp) ip : ip ∈ ip_addrs r ↔ ∃ record, find_first (has_ip ip) (answers r) = Some record.
Proof.
  unfold ip_addrs. induction (answers r) as [|x l IH]; cbn.
  - split; [by intros ?%not_elem_of_nil|by intros []].
  - unfold has_ip at 1. destruct (rdata_ip_addr (rr_data x)) as [i|] eqn:E; case_bool_decide as Hx;
      rewrite ?elem_of_cons; simplify_eq.
    + split; [eauto|by left].
    + rewrite <- IH. split; [by intros [->|?]|by right].
    + done.
Qed.

Lemma reduce_to_spec name ip oks :
  ip ∈ oks ≫= ip_addrs → ∃ r, r ∈ oks ∧ ip ∈ ip_addrs r ∧
    ∀ p, ∃ resp, reduce_to name ip oks = Some resp ∧ reduced name ip p r (with_probe_result resp p).
Proof.
  induction oks as [|r oks IH]; [by intros ?%not_elem_of_nil|]. cbn. rewrite elem_of_app.
  fold (has_ip ip). destruct (find_first (has_ip ip) (answers r)) as [record|] eqn:E.
  - intros _. exists r. split; [by left|]. split; [apply has_ip_find; eauto|].
    intros p. eexists. split; [done|]. exists record. split; [done|]. done.
  - intros [Hip|Hip]; [apply has_ip_find in Hip as [? ?]; congruence|].
    destruct (IH Hip) as (r' & ? & ? & Hp). exists r'. split; [by right|]. split; [done|exact Hp].
Qed.

(** Without an address, the first reply or error. *)
Lemma conclude_none {P} name p (st : Sel Name P) waits :
  tasks ≠ [] → query_tasks st = [] → origin tasks waits (query_tasks st) (ok_tasks st) (err_tasks st) →
  match conclude name None p st with
  | Done _ (Ok resp) => head (ok_tasks st) = Some resp
  | Done _ (Err e) => ok_tasks st = [] ∧ (e = ERR_TIMEOUT ∨ ∃ t, (t, Err e) ∈ tasks)
  | _ => False
  end.
Proof.
  intros Hne Hq Ho. unfold conclude. pose proof (or_count _ _ _ _ _ Ho) as Hc.
  destruct (ok_tasks st) as [|r oks] eqn:Eo; [|done].
  destruct (err_tasks st) as [|e errs] eqn:Ee.
  - rewrite Hq in Hc. cbn in Hc. by destruct tasks.
  - split; [done|]. apply (or_errs _ _ _ _ _ Ho). by left.
Qed.

(** ** Shortest delay: what is selected *)
Section FastestTheorem.
Variable iter : list (IpAddr * Z) → list (IpAddr * Z).
Hypothesis iter_perm : ∀ l, iter l ≡ₚ l.

Lemma max_iter norm ips l ip n :
  stats_ok norm ips l → max_by_count (iter l) = Some (ip, n) →
  ip ∈ ips ∧ ∀ ip', ip' ∈ ips → norm (occurrences ip' ips) ≤ norm (occurrences ip ips).
Proof.
  intros Hs Hmax%max_by_count_spec. destruct Hmax as [Hin Hmax]. rewrite iter_perm in Hin.
  assert (Hget : ∀ i m, (i, m) ∈ l → i ∈ ips ∧ m = norm (occurrences i ips)).
  { intros i m Him. split.
    - apply (stats_ok_keys _ _ _ _ Hs). by apply (list_elem_of_fmap_2 fst) in Him.
    - pose proof (so_get _ _ _ Hs i) as Hg. rewrite (stat_get_nodup i m) in Hg by (apply Hs || done).
      by case_match; simplify_eq. }
  destruct (Hget _ _ Hin) as [Hip ->]. split; [done|]. intros ip' Hip'.
  apply (stats_ok_keys _ _ _ _ Hs) in Hip' as ([i m] & -> & Him)%list_elem_of_fmap.
  destruct (Hget _ _ Him) as [_ Hm]. cbn. rewrite <- Hm. apply (Hmax (i, m)). by rewrite iter_perm.
Qed.

Lemma max_iter_None norm ips l : stats_ok norm ips l → max_by_count (iter l) = None → ips = [].
Proof.
  intros Hs Hmax%max_by_count_None. destruct ips as [|ip ips]; [done|].
  assert (Hl : l = []) by (apply Permutation_nil_r; by rewrite <- (iter_perm l), Hmax).
  assert (Hk : ip ∈ l.*1) by (apply (stats_ok_keys _ _ _ _ Hs); by left).
  rewrite Hl in Hk. by apply not_elem_of_nil in Hk.
Qed.

(** C10: the fastest-ip mode. Over at least one upstream it always answers, from
    the replies received: all of them when it waits, and otherwise at least
    those that come within 200 ms of the first valid response. When a reply has
    an address, the answer is one reply cut down to one address under the name
    asked for; its delay was measured, and no received address has a shorter one;
    or no probe succeeded, and no address was counted more often. Without an
    address it is the first reply, and without a reply the first error. *)
Theorem fastest_ip_selects (name : Name) (now : Instant) (reports : bool) :
  tasks ≠ [] →
  ∃ oks,
    (∀ r, r ∈ oks → ∃ t, (t, Ok r) ∈ tasks) ∧
    (∀ t r, (t, Ok r) ∈ tasks → reports = true ∨ within_window tasks t → r ∈ oks) ∧
    match (select_ip_response_reporting_first probe iter name now FastestIp modes tasks reports).1 with
    | Done _ (Ok resp) =>
        (oks ≫= ip_addrs = [] ∧ head oks = Some resp) ∨
        ∃ r ip p, r ∈ oks ∧ ip ∈ ip_addrs r ∧ reduced name ip p r resp ∧
          match p with
          | Measured d =>
              (∃ t f, received_at t ip ∧ (delay t ip).2 = Ok f ∧ elapsed f = d) ∧
              ∀ ip', ip' ∈ oks ≫= ip_addrs →
                ∃ t, received_at t ip' ∧ ∀ out, (delay t ip').2 = Ok out → d ≤ elapsed out
          | Failed =>
              ∀ ip', ip' ∈ oks ≫= ip_addrs →
                (∃ t, received_at t ip' ∧ is_ok (delay t ip').2 = false) ∧
                as_u8 (occurrences ip' (oks ≫= ip_addrs)) ≤ as_u8 (occurrences ip (oks ≫= ip_addrs))
          | Unchecked => False
          end
    | Done _ (Err e) => oks = [] ∧ (e = ERR_TIMEOUT ∨ ∃ t, (t, Err e) ∈ tasks)
    | _ => False
    end.
Proof.
  intros Hne. unfold select_ip_response_reporting_first.
  destruct (fastest_ip_ends reports now) as (st & -> & Hi & Hq & Hp). destruct Hi as [Ho Hs _ Hd Hf].
  exists (ok_tasks st). split; [apply (or_oks _ _ _ _ _ Ho)|]. split.
  { intros t r Hin Hw. destruct (or_window _ _ _ _ _ Ho t r Hin Hw) as [Hx|?]; [|done].
    rewrite Hq in Hx. by apply not_elem_of_nil in Hx. }
  rewrite Hp in Hd. cbn [fst]. unfold selected_by_delay.
  destruct (fastest_ip st) as [f|].
  - destruct (Hf f eq_refl) as (t & ip & Hr & Hip & Hf').
    destruct (multi_mode_ping_spec probe t ip modes) as [_ Hout].
    rewrite (Hout _ Hf'). destruct (reduce_to_spec name ip _ Hip) as (r & ? & ? & Hred).
    destruct (Hred (Measured (elapsed f))) as (resp & Hresp & ?).
    unfold conclude. rewrite Hresp. right. exists r, ip, (Measured (elapsed f)).
    split; [done|]. split; [done|]. split; [done|]. split; [by exists t, f|].
    intros ip' Hip'. destruct (Hd ip' Hip') as (t' & ? & [Hx|Hb]); [by apply not_elem_of_nil in Hx|].
    exists t'. split; [done|]. intros out Ho'. destruct (Hb out Ho') as (? & [= <-] & ?). done.
  - cbn [fmap option_fmap option_map].
    destruct (max_by_count (iter (ip_addr_stats st))) as [[ip n]|] eqn:Hmax; cbn [fmap option_fmap option_map fst].
    + destruct (max_iter _ _ _ _ _ Hs Hmax) as [Hip Hmore].
      destruct (reduce_to_spec name ip _ Hip) as (r & ? & ? & Hred).
      destruct (Hred Failed) as (resp & Hresp & ?).
      unfold conclude. rewrite Hresp. right. exists r, ip, Failed. do 3 (split; [done|]).
      intros ip' Hip'. split; [|by apply Hmore].
      destruct (Hd ip' Hip') as (t' & ? & [Hx|Hb]); [by apply not_elem_of_nil in Hx|].
      exists t'. split; [done|]. destruct (delay t' ip').2 as [out|] eqn:E; [|done].
      by destruct (Hb out eq_refl) as (? & ? & _).
    + apply (max_iter_None _ _ _ Hs) in Hmax.
      pose proof (conclude_none name None st reports Hne Hq Ho) as Hc.
      destruct (conclude name None None st) as [t [resp|e]| |]; try done. by left.
Qed.
End FastestTheorem.

(** ** The answer reported first *)

(** The reported answer, or that no response so far was valid and lookups are left. *)
Definition report_inv (st : Sel Name PingRes) : Prop :=
  match first_response st with
  | Some (t, res) => fastest_response (S (length tasks)) tasks = Done t res
  | None =>
      received_response st = false ∧ query_tasks st ≠ [] ∧
      fastest_response (S (length (query_tasks st))) (query_tasks st) =
        fastest_response (S (length tasks)) tasks
  end.

Lemma report_inv_step st st' :
  report_inv st → fastest_ip_step probe true modes st = Some st' → report_inv st'.
Proof.
  intros Hi. unfold fastest_ip_step.
  destruct (next_ready (query_tasks st) (ping_tasks st)) as [[[[t [p|res]] queries] pings]|] eqn:Hn; [..|done];
    apply next_ready_Some in Hn as (_ & _ & Hsel & ->).
  - intros [= <-]. exact Hi.
  - assert (Hrep : report_inv (mkSel (P := PingRes) t queries [] (received_response st || is_valid_response res) [] [] []
      None (if true && is_none (first_response st) &&
               ((received_response st || is_valid_response res) || bool_decide (length queries = 0%nat))
            then Some (t, res) else first_response st))).
    { unfold report_inv in *. cbn [first_response received_response query_tasks].
      destruct (first_response st) as [[t1 res1]|]; [done|]. destruct Hi as (-> & Hq & Heq).
      rewrite (select_all_length _ _ _ Hsel) in Heq. rewrite <- Heq.
      cbn [fastest_response]. rewrite Hsel. cbn [andb orb is_none is_some negb].
      destruct (is_valid_response res) eqn:Hv; [done|]. cbn [orb].
      destruct (bool_decide_reflect (length queries = 0%nat)) as [He|He]; [done|].
      split; [done|]. split; [|done]. by intros ->. }
    cbn beta iota zeta. destruct res as [r|e].
    + destruct (start_pings _ _ _ _ _) as [stats pings']. intros [= <-]. exact Hrep.
    + intros [= <-]. exact Hrep.
Qed.

(** The answer a deferred speed check gives the client at once, while the
    check goes on, is the answer of the fastest-response mode over the same
    lookups, at the same instant. *)
Theorem first_report_is_fastest_response (iter : list (IpAddr * Z) → list (IpAddr * Z)) (name : Name)
    (now : Instant) :
  tasks ≠ [] →
  ∃ t res,
    (select_ip_response_reporting_first probe iter name now FastestIp modes tasks true).2 = Some (t, res) ∧
    select_ip_response probe iter name now FastestResponse modes tasks = Done t res.
Proof.
  intros Hne. unfold select_ip_response, select_ip_response_reporting_first. cbn [fst].
  destruct (sel_loop_spec (fastest_ip_step probe true modes) (fun st => fast_inv true st ∧ report_inv st)
    (S (sel_measure (sel_init (P := PingRes) now tasks))) (sel_init now tasks))
    as (st & -> & [_ Hi] & Hnone).
  - intros s s' [Hf Hr] Hs. destruct (fast_inv_step true _ _ Hf Hs) as [? ?].
    by split; [split; [|by eapply report_inv_step]|].
  - split; [apply fast_inv_init|]. done.
  - lia.
  - apply fastest_ip_step_None in Hnone as [Hq _]. cbn [snd]. unfold report_inv in Hi.
    destruct (first_response st) as [[t res]|]; [by exists t, res|]. destruct Hi as (_ & ? & _). done.
Qed.

Lemma fastest_response_S fuel (l : list (Task Res)) :
  fastest_response (S fuel) l =
  match select_all l with
  | None => Panicked
  | Some ((t, res), rest) =>
      if is_valid_response res || bool_decide (length rest = 0%nat) then Done t res
      else fastest_response fuel rest
  end.
Proof. done. Qed.

(** The fastest-response mode: the first valid response, in the order they
    come in, or the last response when none is valid. *)
Theorem fastest_response_selects (iter : list (IpAddr * Z) → list (IpAddr * Z)) (name : Name) (now : Instant) :
  tasks ≠ [] →
  ∃ t res,
    select_ip_response probe iter name now FastestResponse modes tasks = Done t res ∧
    first_some [find_first (fun x => is_valid_response x.2) (completed tasks); last (completed tasks)]
      = Some (t, res).
Proof.
  unfold select_ip_response, select_ip_response_reporting_first. cbn [fst].
  generalize tasks. intros l. remember (length l) as n eqn:Hn. revert l Hn.
  induction n as [|n IH]; intros l Hn Hne; [by destruct l|]. rewrite fastest_response_S.
  destruct (select_all_is_Some l Hne) as ([t res] & rest & Hs). rewrite Hs, (completed_cons _ _ _ Hs).
  pose proof (select_all_length _ _ _ Hs) as Hlen. cbn [find_first snd].
  destruct (is_valid_response res) eqn:Hv; [by exists t, res|]. cbn [orb].
  destruct rest as [|y rest]; [by exists t, res|]. rewrite bool_decide_false by done.
  destruct (IH (y :: rest)) as (t' & res' & -> & Hf); [lia|done|]. exists t', res'. split; [done|].
  rewrite <- Hf. cbn [first_some]. destruct (find_first _ (completed (y :: rest))); [done|].
  destruct (completed (y :: rest)) as [|z k] eqn:E; [|done].
  pose proof (completed_perm (y :: rest)) as Hp. rewrite E in Hp. by apply Permutation_nil_l in Hp.
Qed.

(** ** First successful probe *)
Abbreviation first_delay t r := (multi_mode_ping_fastest probe t (ip_addrs r) modes).

Record first_inv (st : Sel Name (option PingOutput)) : Prop := {
  fp_origin : origin tasks false (query_tasks st) (ok_tasks st) (err_tasks st);
  fp_pings : ∀ p, p ∈ ping_tasks st → ∃ t r, (t, Ok r) ∈ tasks ∧ r ∈ ok_tasks st ∧ p = first_delay t r;
  fp_done : ∀ r, r ∈ ok_tasks st → ip_addrs r ≠ [] → ∃ t, (t, Ok r) ∈ tasks ∧
    (first_delay t r ∈ ping_tasks st ∨ (first_delay t r).2 = None ∨
     ∃ f, fastest_ip st = Some f ∧ first_delay t r = (s_now st, Some f));
  fp_fastest : ∀ f, fastest_ip st = Some f → ∃ t r, (t, Ok r) ∈ tasks ∧ r ∈ ok_tasks st ∧
    first_delay t r = (s_now st, Some f) ∧ Forall (fun p => s_now st ≤ p.1) (ping_tasks st);
}.

Lemma first_inv_init now : first_inv (sel_init now tasks).
Proof. split; cbn; [apply origin_init|..]; try done; by intros ? ?%not_elem_of_nil. Qed.

Lemma first_inv_step st st' :
  first_inv st → first_ping_step probe modes st = Some st' →
  first_inv st' ∧ (sel_measure st' < sel_measure st)%nat.
Proof.
  intros [Ho Hp Hd Hf]. unfold first_ping_step. destruct (fastest_ip st) as [f|] eqn:Ef; [done|]. cbn [is_some].
  destruct (next_ready (query_tasks st) (ping_tasks st)) as [[[[t [p|res]] queries] pings]|] eqn:Hn; [..|done].
  - apply next_ready_Some in Hn as (_ & Hmin & Hsel & ->). intros [= <-].
    assert (Hin : ∀ y, y ∈ ping_tasks st ↔ y = (t, p) ∨ y ∈ pings) by (intros y; by apply select_all_elem).
    split.
    + split; cbn [query_tasks ok_tasks err_tasks ping_tasks fastest_ip s_now]; [done|..].
      * intros y Hy. apply Hp, Hin. by right.
      * intros r Hr Hips. destruct (Hd r Hr Hips) as (t' & ? & [Hy|[?|(? & ? & _)]]); [| |congruence];
          exists t'; (split; [done|]); auto.
        apply Hin in Hy as [Hy|?]; [|by left]. right. rewrite Hy. destruct p; [right; eauto|by left].
      * intros f ->. destruct (Hp (t, Some f)) as (t' & r & ? & ? & Heq); [apply Hin; by left|].
        exists t', r. split; [done|]. split; [done|]. split; [done|].
        rewrite Forall_forall in Hmin |- *. intros y Hy. apply Hmin, Hin. by right.
    + unfold sel_measure. cbn. apply select_all_length in Hsel. lia.
  - apply next_ready_Some in Hn as (_ & _ & Hsel & ->).
    destruct (origin_step _ _ _ _ _ _ _ _ (received_response st) Ho Hsel) as [Ho' Hin].
    pose proof (limit_weight t queries (received_response st) res) as Hw.
    pose proof (select_all_sum lookup_weight _ _ _ Hsel) as Hsum.
    destruct (limit_remaining_queries _ _ _ _) as [queries' received]. cbn [fst] in *.
    destruct res as [r|e]; intros [= <-].
    + destruct Hin as [Hin|?]; [|done]. cbn [add_ok add_err] in Ho'.
      change (lookup_weight (t, Ok r)) with (S (length (ip_addrs r))) in Hsum.
      set (pings' := match ip_addrs r with [] => ping_tasks st | _ => ping_tasks st ++ [first_delay t r] end).
      assert (Hnew : ∀ y, y ∈ pings' → y ∈ ping_tasks st ∨ y = first_delay t r).
      { subst pings'. intros y. destruct (ip_addrs r); [by left|].
        rewrite elem_of_app, list_elem_of_singleton. done. }
      assert (Hold : ∀ y, y ∈ ping_tasks st → y ∈ pings').
      { subst pings'. intros y Hy. destruct (ip_addrs r); [done|]. apply elem_of_app. by left. }
      split.
      * split; cbn [query_tasks ok_tasks err_tasks ping_tasks fastest_ip s_now]; [done|..]; [..|done].
        -- intros y [Hy| ->]%Hnew.
           ++ destruct (Hp y Hy) as (t' & r' & ? & ? & ->). exists t', r'.
              split; [done|]. split; [apply elem_of_app; by left|done].
           ++ exists t, r. split; [done|]. split; [apply elem_of_app; right; by left|done].
        -- intros r' [Hr| ->%list_elem_of_singleton]%elem_of_app Hips.
           ++ destruct (Hd r' Hr Hips) as (t' & ? & [?|[?|(? & ? & _)]]); [| |congruence]; exists t'; auto.
           ++ exists t. split; [done|]. left. subst pings'. destruct (ip_addrs r); [done|].
              apply elem_of_app. right. by left.
      * unfold sel_measure. cbn [query_tasks ping_tasks].
        assert (length pings' ≤ length (ping_tasks st) + length (ip_addrs r))%nat; [|lia].
        subst pings'. destruct (ip_addrs r); rewrite ?length_app; cbn; lia.
    + change (lookup_weight (t, Err e)) with 1%nat in Hsum. split.
      * split; cbn [query_tasks ok_tasks err_tasks ping_tasks fastest_ip s_now]; try done.
        intros r Hr Hips. destruct (Hd r Hr Hips) as (t' & ? & [?|[?|(? & ? & _)]]); [| |congruence]; exists t'; auto.
      * unfold sel_measure. cbn [query_tasks ping_tasks]. lia.
Qed.

Lemma first_ping_step_None (st : Sel Name (option PingOutput)) :
  first_ping_step probe modes st = None →
  is_Some (fastest_ip st) ∨ query_tasks st = [] ∧ ping_tasks st = [].
Proof.
  unfold first_ping_step. destruct (fastest_ip st); [left; eauto|]. cbn [is_some].
  destruct (next_ready _ _) as [[[[t [p|res]] queries] pings]|] eqn:Hn;
    [done| |intros _; right; by apply next_ready_None].
  destruct (limit_remaining_queries _ _ _ _). by destruct res.
Qed.

Lemma first_ping_ends now :
  ∃ st, sel_loop (S (sel_measure (sel_init (P := option PingOutput) now tasks)))
          (first_ping_step probe modes) (sel_init now tasks) = Some st ∧ first_inv st ∧
    (is_Some (fastest_ip st) ∨ query_tasks st = [] ∧ ping_tasks st = []).
Proof.
  destruct (sel_loop_spec (first_ping_step probe modes) first_inv
    (S (sel_measure (sel_init (P := option PingOutput) now tasks))) (sel_init now tasks))
    as (st & Hl & Hi & Hnone).
  - intros s s'. apply first_inv_step.
  - apply first_inv_init.
  - lia.
  - exists st. split; [done|]. split; [done|]. by apply first_ping_step_None.
Qed.

Lemma count_ips_ok (oks : list Resp) : stats_ok id (oks ≫= ip_addrs) (count_ips oks).
Proof. apply (count_fold_ok id []); [done|apply stats_ok_nil]. Qed.

Lemma elem_of_addresses ip r (oks : list Resp) : r ∈ oks → ip ∈ ip_addrs r → ip ∈ oks ≫= ip_addrs.
Proof. intros Hr Hip. apply list_elem_of_bind. eauto. Qed.

(** C12: the first-ping mode. Over at least one upstream it always answers, from
    replies received. When a reply has an address, the answer is one reply cut
    down to one address under the name asked for: the answer is ready when a
    speed check of a reply first succeeds, with the address and the delay of
    that check, and the check of every other reply received failed or was not
    over before; or no check succeeded, and no address is in the replies more
    often. Without an address it is the first reply, and without a reply the
    first error. *)
Theorem first_ping_selects (iter : list (IpAddr * Z) → list (IpAddr * Z)) (name : Name) (now : Instant) :
  (∀ l, iter l ≡ₚ l) → tasks ≠ [] →
  ∃ oks,
    (∀ r, r ∈ oks → ∃ t, (t, Ok r) ∈ tasks) ∧
    match select_ip_response probe iter name now FirstPing modes tasks with
    | Done t (Ok resp) =>
        (oks ≫= ip_addrs = [] ∧ head oks = Some resp) ∨
        ∃ r ip p, r ∈ oks ∧ ip ∈ ip_addrs r ∧ reduced name ip p r resp ∧
          match p with
          | Measured d =>
              (∃ t' r' f, (t', Ok r') ∈ tasks ∧ r' ∈ oks ∧ first_delay t' r' = (t, Some f) ∧
                 ping_ip (dest f) = ip ∧ elapsed f = d) ∧
              ∀ r', r' ∈ oks → ip_addrs r' ≠ [] → ∃ t', (t', Ok r') ∈ tasks ∧
                ((first_delay t' r').2 = None ∨ t ≤ (first_delay t' r').1)
          | Failed =>
              (∀ r', r' ∈ oks → ip_addrs r' ≠ [] → ∃ t', (t', Ok r') ∈ tasks ∧
                 (first_delay t' r').2 = None) ∧
              ∀ ip', ip' ∈ oks ≫= ip_addrs →
                occurrences ip' (oks ≫= ip_addrs) ≤ occurrences ip (oks ≫= ip_addrs)
          | Unchecked => False
          end
    | Done _ (Err e) => oks = [] ∧ (e = ERR_TIMEOUT ∨ ∃ t, (t, Err e) ∈ tasks)
    | _ => False
    end.
Proof.
  intros Hiter Hne. unfold select_ip_response, select_ip_response_reporting_first.
  destruct (first_ping_ends now) as (st & -> & [Ho _ Hd Hf] & Hend).
  exists (ok_tasks st). split; [apply (or_oks _ _ _ _ _ Ho)|].
  cbn [fst]. unfold selected_by_ping. destruct (fastest_ip st) as [f|] eqn:Ef.
  - destruct (Hf f eq_refl) as (t & r0 & Hr0 & Hin0 & Heq & Hmin).
    assert (Hip : ping_ip (dest f) ∈ ip_addrs r0).
    { destruct (multi_mode_ping_fastest_spec probe t (ip_addrs r0) modes) as [_ Hout].
      apply Hout. by rewrite Heq. }
    destruct (reduce_to_spec name _ _ (elem_of_addresses _ _ _ Hin0 Hip)) as (r & ? & ? & Hred).
    destruct (Hred (Measured (elapsed f))) as (resp & Hresp & ?).
    unfold conclude. rewrite Hresp. right. exists r, (ping_ip (dest f)), (Measured (elapsed f)).
    do 3 (split; [done|]). split; [by exists t, r0, f|].
    intros r' Hr' Hips. destruct (Hd r' Hr' Hips) as (t' & ? & [Hx|[Hx|(f' & _ & Hx)]]); exists t'; (split; [done|]).
    + right. rewrite Forall_forall in Hmin. by apply Hmin.
    + by left.
    + right. by rewrite Hx.
  - destruct Hend as [[? ?]|[Hq Hp]]; [done|]. rewrite Hp in Hd. cbn [fmap option_fmap option_map].
    pose proof (count_ips_ok (ok_tasks st)) as Hs.
    destruct (max_by_count (iter (count_ips (ok_tasks st)))) as [[ip n]|] eqn:Hmax;
      cbn [fmap option_fmap option_map fst].
    + destruct (max_iter iter Hiter _ _ _ _ _ Hs Hmax) as [Hip Hmore].
      destruct (reduce_to_spec name ip _ Hip) as (r & ? & ? & Hred).
      destruct (Hred Failed) as (resp & Hresp & ?).
      unfold conclude. rewrite Hresp. right. exists r, ip, Failed. do 3 (split; [done|]).
      split; [|exact Hmore]. intros r' Hr' Hips.
      destruct (Hd r' Hr' Hips) as (t' & ? & [Hx|[?|(? & ? & _)]]); [by apply not_elem_of_nil in Hx| |done].
      by exists t'.
    + apply (max_iter_None iter Hiter _ _ _ Hs) in Hmax.
      pose proof (conclude_none name None st false Hne Hq Ho) as Hc.
      destruct (conclude name None None st) as [t [resp|e]| |]; try done. by left.
Qed.

(** ** How long it takes *)
Section Duration.
Variable t0 : Instant.
Variable res0 : Res.
Hypothesis in0 : (t0, res0) ∈ tasks.
Hypothesis valid0 : is_valid_response res0 = true.
Abbreviation modes_window := (MODE_WINDOW * Z.of_nat (length modes)).

Lemma modes_window_nonneg : 0 ≤ modes_window.
Proof. unfold MODE_WINDOW, millis. lia. Qed.

Abbreviation timely_st st :=
  (timely modes_window t0 res0 (s_now st) (received_response st) (query_tasks st) (ping_tasks st)).

Lemma first_timely_step (st st' : Sel Name (option PingOutput)) :
  timely_st st → first_ping_step probe modes st = Some st' → timely_st st'.
Proof.
  pose proof modes_window_nonneg as Hnn. intros Ht. unfold first_ping_step. destruct (is_some (fastest_ip st)); [done|].
  destruct (next_ready (query_tasks st) (ping_tasks st)) as [[[[t [p|res]] queries] pings]|] eqn:Hn; [..|done];
    apply next_ready_Some in Hn as (Hmin & _ & Hsel & ->).
  - intros [= <-]. by eapply timely_ping.
  - pose proof (fun pings' => timely_query modes_window Hnn t0 res0 valid0 _ _ _ _ t res queries pings' Ht Hsel) as Hq.
    destruct (limit_remaining_queries _ _ _ _) as [queries' received]. cbn [fst snd] in Hq.
    destruct res as [r|e]; intros [= <-]; apply Hq; [|by left].
    intros p Hp. destruct (ip_addrs r) as [|i l]; [by left|].
    apply elem_of_app in Hp as [?| ->%list_elem_of_singleton]; [by left|right].
    refine (proj2 (proj1 (multi_mode_ping_fastest_spec probe _ _ _))).
Qed.

Lemma fast_timely_step (st st' : Sel Name PingRes) :
  timely_st st → fastest_ip_step probe false modes st = Some st' → timely_st st'.
Proof.
  pose proof modes_window_nonneg as Hnn. intros Ht. unfold fastest_ip_step.
  destruct (next_ready (query_tasks st) (ping_tasks st)) as [[[[t [p|res]] queries] pings]|] eqn:Hn; [..|done];
    apply next_ready_Some in Hn as (Hmin & _ & Hsel & ->).
  - intros [= <-]. by eapply timely_ping.
  - pose proof (fun pings' => timely_query modes_window Hnn t0 res0 valid0 _ _ _ _ t res queries pings' Ht Hsel) as Hq.
    destruct (limit_remaining_queries _ _ _ _) as [queries' received]. cbn [fst snd] in Hq.
    destruct res as [r|e]; [|intros [= <-]; apply Hq; by left].
    destruct (start_pings_spec t (ip_addrs r) (ip_addr_stats st) (ping_tasks st)) as (_ & _ & Hnew & _).
    destruct (start_pings _ _ _ _ _) as [stats pings']. intros [= <-]. apply Hq.
    intros p [?|(ip & _ & ->)]%Hnew; [by left|right]. apply multi_mode_ping_spec.
Qed.

Lemma timely_init {P} now : Forall (fun x => now ≤ x.1) tasks → timely_st (sel_init (P := P) now tasks).
Proof.
  intros Hnow. left. cbn. rewrite Forall_forall in Hnow. specialize (Hnow _ in0).
  by repeat split.
Qed.

(** The first valid response is not later than another. *)
Lemma fastest_response_before t res :
  first_some [find_first (fun x => is_valid_response x.2) (completed tasks); last (completed tasks)]
    = Some (t, res) → t ≤ t0.
Proof.
  intros Hf. assert (Hin : (t0, res0) ∈ completed tasks) by by rewrite completed_perm.
  pose proof (completed_sorted tasks) as Hs.
  assert (Hsome : find_first (fun x => is_valid_response x.2) (completed tasks) = Some (t, res)).
  { cbn in Hf. destruct (find_first _ _) eqn:E; [done|]. rewrite find_first_None in E.
    specialize (E _ Hin). cbn in E. congruence. }
  clear Hf. induction Hs as [|[t1 r1] l Hs IH Hall]; [by apply not_elem_of_nil in Hin|].
  cbn in Hsome. destruct (is_valid_response r1) eqn:Hv.
  - injection Hsome as -> ->. apply elem_of_cons in Hin as [[= -> ->]|Hin]; [done|].
    rewrite Forall_forall in Hall. by apply (Hall _ Hin).
  - apply elem_of_cons in Hin as [[= -> ->]|Hin]; [congruence|auto].
Qed.

(** C11: once an upstream has given a valid response, at [t0], the answer is there
    at most 200 ms and one window of 200 ms for each probe mode later, however
    slow the other upstreams and the probes are. *)
Theorem answer_is_timely (iter : list (IpAddr * Z) → list (IpAddr * Z)) (name : Name) (now : Instant)
    (strategy : ResponseMode) :
  (∀ l, iter l ≡ₚ l) → Forall (fun x => now ≤ x.1) tasks →
  ∃ t res, select_ip_response probe iter name now strategy modes tasks = Done t res ∧
    t ≤ t0 + PEER_WINDOW + modes_window.
Proof.
  intros Hiter Hnow. pose proof modes_window_nonneg as Hnn.
  assert (Hne : tasks ≠ []) by (intros ->; by apply not_elem_of_nil in in0).
  assert (Hconclude : ∀ P sel p (st : Sel Name P), timely_st st →
    match conclude name sel p st with Done t _ => t ≤ t0 + PEER_WINDOW + modes_window | _ => True end).
  { intros P sel p st Ht. apply timely_bound in Ht; [|done..]. unfold conclude.
    destruct sel; [by destruct (reduce_to _ _ _)|]. by destruct (ok_tasks st), (err_tasks st). }
  destruct strategy.
  - destruct (first_ping_selects iter name now Hiter Hne) as (oks & _ & Htotal). revert Htotal.
    unfold select_ip_response, select_ip_response_reporting_first.
    destruct (sel_loop_spec (first_ping_step probe modes) (fun st => first_inv st ∧ timely_st st)
      (S (sel_measure (sel_init (P := option PingOutput) now tasks))) (sel_init now tasks))
      as (st & -> & [_ Ht] & _).
    + intros s s' [Hi Ht] Hs. destruct (first_inv_step _ _ Hi Hs).
      by split; [split; [|by eapply first_timely_step]|].
    + split; [apply first_inv_init|by apply timely_init].
    + lia.
    + cbn [fst]. pose proof (Hconclude _ (selected_by_ping iter st) (elapsed <$> fastest_ip st) st Ht).
      destruct (conclude _ _ _ st); [eauto|done|done].
  - destruct (fastest_ip_selects iter Hiter name now false Hne) as (oks & _ & _ & Htotal). revert Htotal.
    unfold select_ip_response, select_ip_response_reporting_first.
    destruct (sel_loop_spec (fastest_ip_step probe false modes) (fun st => fast_inv false st ∧ timely_st st)
      (S (sel_measure (sel_init (P := PingRes) now tasks))) (sel_init now tasks))
      as (st & -> & [_ Ht] & _).
    + intros s s' [Hi Ht] Hs. destruct (fast_inv_step _ _ _ Hi Hs).
      by split; [split; [|by eapply fast_timely_step]|].
    + split; [apply fast_inv_init|by apply timely_init].
    + lia.
    + cbn [fst]. pose proof (Hconclude _ (selected_by_delay iter st) (elapsed <$> fastest_ip st) st Ht).
      destruct (conclude _ _ _ st); [eauto|done|done].
  - destruct (fastest_response_selects iter name now Hne) as (t & res & -> & Hf).
    exists t, res. split; [done|]. pose proof peer_window_pos. enough (t ≤ t0) by lia.
    apply (fastest_response_before t res Hf).
Qed.
End Duration.
End Correct.
