(* ===== verification/NameServerMw.v ===== *)
(** * Asking the upstream servers ([dns_mw_ns.rs])

    The last middleware of the chain: which group of servers a query goes to,
    how the servers' answers are filtered, which response mode chooses among
    them, the second opinion of a recheck group, and the answer that is given
    while its speed check still runs. *)

From S2P Require Import Prelude Names DomainMap Config DomainRule DomainRuleTree IpSet Message Runtime Context Tasks Upstream Probe Select.

(** Lookups that may go on probing after their first answer at once. *)
Definition MAX_DEFERRED_SPEED_CHECKS : Z := 128.

Section NameServerMw.
Context {Name : Type} `{NameLib Name} `{MsgLib Name} `{FL : FuturesLib}.
Context {RM : Type → Type} `{RangeMapLib RM} `{NL : NetLib}.
Variable probe : Instant → PingAddr → Z * result Z PingError.
Variable iter : list (IpAddr * Z) → list (IpAddr * Z).

Abbreviation Resp := (DnsResponse Name).
Abbreviation Res := (result Resp (LookupError Name)).
(** A pending lookup: how it will end. *)
Abbreviation Pending := (Outcome Res).
Abbreviation Ctx := (DnsContext Name RM Pending).
Abbreviation Cfg := (RuntimeConfig Name RM).
Abbreviation Node := (TreeNode (DomainRule Name)).
Implicit Types (ctx : Ctx) (req : DnsRequest Name) (cfg : Cfg).

Record LookupIpOptions := mkIpOpts {
  response_strategy : ResponseMode;
  io_speed_check_mode : option SpeedCheckModeList;
  io_no_speed_check : bool;
  ignore_ip : IpMap RM unit;
  whitelist_ip : IpMap RM unit;
  blacklist_ip : IpMap RM unit;
  ip_alias : IpMap RM (Arc (list IpAddr));
  lookup_options : LookupOptions;
}.

(** ** One server *)

(** Whether an address of a reply is kept. *)
Definition ip_filter (ns : NameServer Name) (o : LookupIpOptions) (ip : IpAddr) : bool :=
  if nso_whitelist_ip (ns_options ns) && im_contains (whitelist_ip o) ip then true
  else if nso_blacklist_ip (ns_options ns) && im_contains (blacklist_ip o) ip then false
  else negb (im_contains (ignore_ip o) ip).

Definition rr_set_data (d : RData Name) (r : Rr Name) : Rr Name := mkRr (rr_name r) (rr_ttl_secs r) d.

(** The record's type and an address of the same family. *)
Definition type_matches (t : RecordType) (ip : IpAddr) : bool :=
  match ip with V4 _ => t =? TYPE_A | V6 _ => t =? TYPE_AAAA end.

(** The new answers, the aliases used, and the reply with its additional records. *)
Definition Filtered : Type := list (Rr Name) * list Z * Resp.

(** The addresses of an alias: those of the type asked for are answers, the
    others additional records. *)
Definition add_alias (t : RecordType) (record : Rr Name) (acc : Filtered) (ip : IpAddr) : Filtered :=
  let record := rr_set_data (rdata_of_ip ip) record in
  let '(new_ans, alias_set, lookup) := acc in
  if type_matches t ip then (new_ans ++ [record], alias_set, lookup)
  else (new_ans, alias_set,
        resp_mut (fun m => msg_set_additionals (msg_additionals m ++ [record]) m) lookup).

Definition filter_record (ns : NameServer Name) (o : LookupIpOptions) (name : Name) (acc : Filtered)
    (record : Rr Name) : Filtered :=
  match opt_filter (ip_filter ns o) (rdata_ip_addr (rr_data record)) with
  | None => acc
  | Some ip =>
      let record := rr_set_name name record in
      let '(new_ans, alias_set, lookup) := acc in
      match im_get (ip_alias o) ip with
      | None => (new_ans ++ [record], alias_set, lookup)
      | Some alias =>
          if existsb (Z.eqb (arc_ptr alias)) alias_set then acc
          else fold_left (add_alias (lo_record_type (lookup_options o)) record) (arc_val alias)
                 (new_ans, alias_set ++ [arc_ptr alias], lookup)
      end
  end.

(** [NoRecordsFound] of an empty authority section: the library reads it as a
    name that does not exist. *)
Definition ERR_FILTERED : LookupError Name := ENoRecords None NXDomain.

Definition set_valid_until_max (now : Instant) (r : Resp) : Resp := with_valid_until r (now + secs MAX_TTL).

Definition filter_reply (ns : NameServer Name) (o : LookupIpOptions) (now : Instant) (res : Res) : Res :=
  if negb (nso_whitelist_ip (ns_options ns)) && negb (nso_blacklist_ip (ns_options ns))
     && im_is_empty (ignore_ip o) && im_is_empty (ip_alias o)
  then res
  else match res with
  | Err err => Err err
  | Ok lookup =>
      let query := resp_query lookup in
      let '(new_ans, _, lookup) :=
        fold_left (filter_record ns o (q_name query)) (answers lookup)
          ([], [], resp_mut (msg_set_answers []) lookup) in
      match new_ans with
      | [] => Err ERR_FILTERED
      | _ => Ok (set_valid_until_max now (resp_mut (msg_set_answers new_ans) lookup))
      end
  end.

Definition per_nameserver_lookup_ip (ns : NameServer Name) (now : Instant) (name : Name) (o : LookupIpOptions)
    : Task Res :=
  let '(t, res) := ns_lookup ns now name (lookup_options o) in (t, filter_reply ns o t res).

(** ** A group of servers *)
Definition lookup_tasks (g : NameServerGroup Name) (now : Instant) (name : Name) (o : LookupIpOptions)
    : list (Task Res) :=
  (fun ns => per_nameserver_lookup_ip ns now name o) <$> servers g.

(** The response mode and the probe modes that apply. *)
Definition effective_strategy (o : LookupIpOptions) : ResponseMode * list SpeedCheckMode :=
  let strategy := if io_no_speed_check o || is_none (io_speed_check_mode o) then FastestResponse
                  else response_strategy o in
  let modes := opt_unwrap_or [] (io_speed_check_mode o) in
  if existsb mode_is_none modes then (FastestResponse, []) else (strategy, modes).

Definition lookup_ip (g : NameServerGroup Name) (now : Instant) (name : Name) (o : LookupIpOptions)
    : Outcome Res :=
  if negb (is_ip_addr (lo_record_type (lookup_options o))) then Panicked else
  let '(strategy, modes) := effective_strategy o in
  match bool_decide (strategy = FastestResponse), servers g with
  | true, [ns] => out_task (per_nameserver_lookup_ip ns now name o)
  | _, [] => Done now (Err ERR_NO_CONNECTIONS)
  | _, _ => select_ip_response probe iter name now strategy modes (lookup_tasks g now name o)
  end.

(** The first answer, and the rest of the same lookup, which goes on with its
    speed check. *)
Definition lookup_ip_answering_first (g : NameServerGroup Name) (now : Instant) (name : Name) (cfg : Cfg)
    (modes : SpeedCheckModeList) (o : LookupOptions) : Outcome Res * option Pending :=
  match servers g with
  | [] => (Done now (Err ERR_NO_CONNECTIONS), None)
  | _ =>
      let options := mkIpOpts FastestIp (Some modes) false (rc_ignore_ip cfg) (rc_whitelist_ip cfg)
                       (rc_blacklist_ip cfg) (rc_ip_alias cfg) o in
      let '(lookup, first) :=
        select_ip_response_reporting_first probe iter name now FastestIp modes
          (lookup_tasks g now name options) true in
      match first with
      | Some (t, res) => (Done t res, Some lookup)
      | None => (lookup, None)
      end
  end.

(** ** The lookups made in groups of servers *)
(** A lookup in a group, by the name of the group and the arguments of the lookup. *)
Record GroupLookup := mkAsked { asked_group : string; asked_name : Name; asked_options : LookupOptions }.
(** An outcome, with the lookups made for it, in their order. *)
Abbreviation Asking T := (prod (Outcome T) (list GroupLookup)).

Definition asking_ip (group : string) (g : NameServerGroup Name) (now : Instant) (name : Name) (o : LookupIpOptions)
    : Asking Res := (lookup_ip g now name o, [mkAsked group name (lookup_options o)]).
Definition asking (group : string) (g : NameServerGroup Name) (now : Instant) (name : Name) (o : LookupOptions)
    : Asking Res := (group_lookup g now name o, [mkAsked group name o]).
Definition asking_then {A B} (x : Asking A) (f : Instant → A → Asking B) : Asking B :=
  match x.1 with
  | Done t a => let '(out, more) := f t a in (out, x.2 ++ more)
  | Panicked => (Panicked, x.2)
  | OutOfFuel => (OutOfFuel, x.2)
  end.

(** ** The recheck group *)
Record Recheck := mkRecheck { rk_group : string; rk_ip_set : string }.

Fixpoint recheck_find_node (n : Node) (group_name : string) : option Recheck :=
  match n with
  | mkNode r z =>
      match nameserver r with
      | Some ns =>
          group ← recheck_nameserver r;
          if bool_decide (ns ≠ group_name) || bool_decide (group = group_name) then None
          else ip_set ← recheck_ip_set r; Some (mkRecheck group ip_set)
      | None => match z with Some z => recheck_find_node z group_name | None => None end
      end
  end.

Definition recheck_find (domain_rule : option Node) (group_name : string) : option Recheck :=
  n ← domain_rule; recheck_find_node n group_name.

Definition has_ip_in (res : Resp) (ips : IpMap RM unit) : bool :=
  existsb (im_contains ips) (omap (fun r => rdata_ip_addr (rr_data r)) (answers res)).

(** [Recheck::lookup], from the instant the first answer is there. *)
Definition recheck_lookup (rk : Recheck) (client : DnsClient Name) (cfg : Cfg) (now : Instant) (name : Name)
    (o : LookupIpOptions) (res : Res) : Asking (Res * option string) :=
  match recheck_ip_set_of cfg (rk_ip_set rk) with
  | None => (Done now (res, None), [])
  | Some ips =>
      if match res with Ok answer => has_ip_in answer ips | Err _ => false end then
        match client_server_group client (rk_group rk) with
        | None => (Done now (res, None), [])
        | Some server =>
            asking_then (asking_ip (rk_group rk) server now name o) (fun t second =>
              match second with
              | Ok answer =>
                  if has_ip_in answer ips then (Done t (Ok answer, Some (rk_group rk)), [])
                  else (Done t (res, None), [])
              | Err _ => (Done t (res, None), [])
              end)
        end
      else (Done now (res, None), [])
  end.

(** ** The speed check after the first answer *)
Definition rule_response_mode ctx : ResponseMode :=
  opt_unwrap_or (cfg_response_mode (ctx_cfg ctx)) (ctx_rule_get response_mode ctx).

Definition rule_speed_check_mode ctx : option SpeedCheckModeList :=
  opt_or (n ← ctx_domain_rule ctx; speed_check_mode (node_rule n)) (cfg_speed_check_mode (ctx_cfg ctx)).

Definition deferred_speed_check_mode ctx req : option SpeedCheckModeList :=
  if bool_decide (rule_response_mode ctx ≠ FastestResponse)
     || no_speed_check (ctx_server_opts ctx)
     || so_is_background (ctx_server_opts ctx)
     || ctx_is_dualstack ctx
     || (cache_size (ctx_cfg ctx) =? 0)
     || ctx_no_cache ctx
     || no_cache (ctx_server_opts ctx)
     || is_dnssec req
  then None
  else opt_filter (fun modes => negb (bool_decide (modes = [])) && negb (existsb mode_is_none modes))
         (rule_speed_check_mode ctx).

(** ** The middleware *)
Definition ns_lookup_options ctx req : LookupOptions :=
  mkLookup (is_dnssec req) (q_type (req_query req))
    (opt_or (e ← msg_edns (req_message req); edns_subnet e) (ctx_rule_get subnet ctx)).

Definition ns_lookup_ip_options ctx req : LookupIpOptions :=
  let cfg := ctx_cfg ctx in
  mkIpOpts
    (if so_is_background (ctx_server_opts ctx) then FastestIp else rule_response_mode ctx)
    (rule_speed_check_mode ctx) (no_speed_check (ctx_server_opts ctx))
    (rc_ignore_ip cfg) (rc_whitelist_ip cfg) (rc_blacklist_ip cfg) (rc_ip_alias cfg)
    (ns_lookup_options ctx req).

(** The options of the second lookup: the speed check of a name without rules. *)
Definition recheck_options ctx req : LookupIpOptions :=
  let cfg := ctx_cfg ctx in
  let o := ns_lookup_ip_options ctx req in
  mkIpOpts
    (if so_is_background (ctx_server_opts ctx) then FastestIp else cfg_response_mode cfg)
    (cfg_speed_check_mode cfg) (io_no_speed_check o) (ignore_ip o) (whitelist_ip o) (blacklist_ip o)
    (ip_alias o) (lookup_options o).

Definition with_group (g : string) (res : Res) : Res :=
  result_map (fun r => with_name_server_group r g) res.

(** A group, with the name it has in the client. *)
Abbreviation NamedGroup := (prod string (NameServerGroup Name)).

(** The address lookup without an early answer. *)
Definition lookup_and_recheck (client : DnsClient Name) (g : NamedGroup) (recheck : option Recheck)
    (now : Instant) ctx req : Asking (Res * option string) :=
  let name := q_name (req_query req) in
  asking_then (asking_ip g.1 g.2 now name (ns_lookup_ip_options ctx req)) (fun t res =>
    match recheck with
    | Some rk => recheck_lookup rk client (ctx_cfg ctx) t name (recheck_options ctx req) res
    | None => (Done t (res, None), [])
    end).

Definition mdns_name ctx req : bool :=
  mdns_lookup (ctx_cfg ctx) && name_zone_of local_name (q_name (req_query req)).

(** The group that is asked: the mDNS group for names in [local.] when there is
    one, else the group of the rules. *)
Definition named_group (client : DnsClient Name) (name : string) : option NamedGroup :=
  pair name <$> client_server_group client name.
Definition choose_group (client : DnsClient Name) ctx req : option NamedGroup :=
  opt_or (if mdns_name ctx req then named_group client "mdns" else None)
    (named_group client (server_group_name ctx)).

(** The lookup of the whole answer. *)
Definition ns_full_lookup (client : DnsClient Name) (g : NamedGroup) (recheck : option Recheck)
    (now : Instant) ctx req : Outcome Res * Ctx * list GroupLookup :=
  let '(out, asked) := lookup_and_recheck client g recheck now ctx req in
  match out with
  | Done t (res, rechecked_by) =>
      (Done t (with_group (server_group_name ctx) res),
       match rechecked_by with Some group => ctx_set_source (FromServer group) ctx | None => ctx end, asked)
  | Panicked => (Panicked, ctx, asked)
  | OutOfFuel => (OutOfFuel, ctx, asked)
  end.

(** The lookup of an address in a group: with an early answer when the speed
    check can go on later and a permit is left, which the pending lookup keeps. *)
Definition ns_address_lookup (client : DnsClient Name) (g : NamedGroup) (permits : Z) (now : Instant) ctx req
    : Outcome Res * Ctx * Z * list GroupLookup :=
  let group_name := server_group_name ctx in
  let recheck := if mdns_name ctx req then None else recheck_find (ctx_domain_rule ctx) group_name in
  match recheck, deferred_speed_check_mode ctx req, 0 <? permits with
  | None, Some modes, true =>
      let '(first, rest) := lookup_ip_answering_first g.2 now (q_name (req_query req)) (ctx_cfg ctx) modes
                              (ns_lookup_options ctx req) in
      (out_map (with_group group_name) first,
       match rest with
       | Some rest => ctx_set_pending (Some (out_map (with_group group_name) rest)) ctx
       | None => ctx
       end,
       match rest with Some _ => permits - 1 | None => permits end,
       [mkAsked g.1 (q_name (req_query req)) (ns_lookup_options ctx req)])
  | _, _, _ =>
      let '(out, ctx, asked) := ns_full_lookup client g recheck now ctx req in (out, ctx, permits, asked)
  end.

(** [NameServerMiddleware::handle]: the outcome, the context and the permits for
    deferred speed checks after it, and the lookups made in groups of servers. *)
Definition ns_handle (client : DnsClient Name) (permits : Z) (now : Instant) ctx req
    : Outcome Res * Ctx * Z * list GroupLookup :=
  let name := q_name (req_query req) in
  let rtype := q_type (req_query req) in
  match (if is_ip_addr rtype then lookup_nameserver client now name rtype else None) with
  | Some lookup => (Done now (Ok lookup), ctx_set_no_cache true ctx, permits, [])
  | None =>
      let options := ns_lookup_options ctx req in
      if no_rule_nameserver (ctx_server_opts ctx)
      then let '(out, asked) := asking "default" (cl_default client) now name options in (out, ctx, permits, asked)
      else
        match choose_group client ctx req with
        | None => (Done now (Err ERR_NO_CONNECTIONS), ctx, permits, [])
        | Some g =>
            let ctx := ctx_set_source (FromServer (server_group_name ctx)) ctx in
            if negb (is_ip_addr rtype)
            then let '(out, asked) := asking g.1 g.2 now name options in
                 (out_map (with_group (server_group_name ctx)) out, ctx, permits, asked)
            else ns_address_lookup client g permits now ctx req
        end
  end.
End NameServerMw.
Arguments LookupIpOptions RM : clear implicits.
