(* ===== verification/NameServerSpec.v ===== *)
(** * What the name server middleware answers

    The filters of a server's reply, the response mode that applies, the
    recheck, the answer given before its speed check, and that a query is always
    answered. *)

From S2P Require Import Prelude Names DomainMap Config DomainRule DomainRuleTree IpSet Message Runtime Context Tasks Upstream Probe Select SelectSpec SelectCorrect NameServerMw.

Section NameServerSpec.
Context {Name : Type} `{NameLib Name} `{MsgLib Name} `{FLaws : FuturesLaws}.
Context {RM : Type → Type} `{RangeMapLib RM} `{NL : NetLib}.

Abbreviation Resp := (DnsResponse Name).
Abbreviation Res := (result Resp (LookupError Name)).
Abbreviation Ctx := (DnsContext Name RM (Outcome Res)).
Implicit Types (ctx : Ctx) (req : DnsRequest Name) (g : NameServerGroup Name) (ns : NameServer Name).

(** ** The filters of one server *)
Section Filter.
Context (ns : NameServer Name) (o : LookupIpOptions RM).

(** Two aliases at one address of memory are one alias. *)
Hypothesis alias_ptr : ∀ i j a b,
  im_get (ip_alias o) i = Some a → im_get (ip_alias o) j = Some b → arc_ptr a = arc_ptr b → a = b.

Abbreviation qtype := (lo_record_type (lookup_options o)).

(** The address a reply's address stands for: itself, or those of its alias that
    are of the type asked for. *)
Definition stands_for (ip ip' : IpAddr) : Prop :=
  match im_get (ip_alias o) ip with
  | None => ip' = ip
  | Some a => ip' ∈ arc_val a ∧ type_matches qtype ip' = true
  end.

(** The addresses a server's lists let through: those on its whitelist, and of
    the others those that are neither on its blacklist nor ignored. *)
Definition accepted (ip : IpAddr) : Prop :=
  let whitelisted := nso_whitelist_ip (ns_options ns) = true ∧ is_Some (im_get (whitelist_ip o) ip) in
  let blacklisted := nso_blacklist_ip (ns_options ns) = true ∧ is_Some (im_get (blacklist_ip o) ip) in
  whitelisted ∨ (¬ blacklisted ∧ im_get (ignore_ip o) ip = None).

Definition kept (ips : list IpAddr) (ip' : IpAddr) : Prop :=
  ∃ ip, ip ∈ ips ∧ accepted ip ∧ stands_for ip ip'.

Lemma im_contains_spec {T} (m : IpMap RM T) ip : im_contains m ip = true ↔ is_Some (im_get m ip).
Proof. unfold im_contains. destruct (im_get m ip); cbn; [split; eauto|split; [done|by intros []]]. Qed.

Lemma ip_filter_spec ip : ip_filter ns o ip = true ↔ accepted ip.
Proof.
  unfold ip_filter, accepted. rewrite <- !im_contains_spec.
  assert (Hi : im_get (ignore_ip o) ip = None ↔ im_contains (ignore_ip o) ip = false).
  { unfold im_contains. by destruct (im_get _ ip). }
  rewrite Hi. destruct (nso_whitelist_ip _), (nso_blacklist_ip _), (im_contains (whitelist_ip o) ip),
    (im_contains (blacklist_ip o) ip), (im_contains (ignore_ip o) ip); cbn; intuition congruence.
Qed.

Definition addresses (l : list (Rr Name)) : list IpAddr := omap (fun r => rdata_ip_addr (rr_data r)) l.

Lemma addresses_app l1 l2 : addresses (l1 ++ l2) = addresses l1 ++ addresses l2.
Proof. apply omap_app. Qed.

Lemma rdata_ip_of_ip ip : rdata_ip_addr (rdata_of_ip (Name := Name) ip) = Some ip.
Proof. by destruct ip. Qed.

(** What holds after some records of a reply. *)
Record filtered (name : Name) (past : list (Rr Name)) (acc : Filtered) : Prop := {
  fl_kept : ∀ ip', ip' ∈ addresses acc.1.1 ↔ kept (addresses past) ip';
  fl_named : Forall (fun r => rr_name r = name ∧ is_Some (rdata_ip_addr (rr_data r))) acc.1.1;
  fl_alias : ∀ p, p ∈ acc.1.2 ↔ ∃ ip a, ip ∈ addresses past ∧ ip_filter ns o ip = true ∧
    im_get (ip_alias o) ip = Some a ∧ arc_ptr a = p;
}.

Lemma add_aliases_spec record ips acc :
  let out := fold_left (add_alias qtype record) ips acc in
  out.1.2 = acc.1.2 ∧
  ∃ new, out.1.1 = acc.1.1 ++ new ∧ addresses new = filter (fun ip => type_matches qtype ip = true) ips ∧
    Forall (fun r => rr_name r = rr_name record ∧ is_Some (rdata_ip_addr (rr_data r))) new.
Proof.
  revert acc. induction ips as [|ip ips IH]; intros [[ans set] lk].
  - split; [done|]. exists []. rewrite app_nil_r. repeat split; constructor.
  - cbn [fold_left]. destruct (IH (add_alias qtype record (ans, set, lk) ip)) as (Hset & new & Hans & Ha & Hn).
    cbn zeta in *. rewrite Hset, Hans. unfold add_alias. destruct (type_matches qtype ip) eqn:E; cbn [fst snd].
    + split; [done|]. exists (rr_set_data (rdata_of_ip ip) record :: new).
      rewrite <- app_assoc. split; [done|]. rewrite filter_cons_True by done. split.
      * unfold addresses in *. cbn. rewrite rdata_ip_of_ip. cbn. by rewrite Ha.
      * constructor; [|done]. cbn. rewrite rdata_ip_of_ip. split; [done|eauto].
    + split; [done|]. exists new. rewrite filter_cons_False by congruence. done.
Qed.

Lemma kept_app ips1 ips2 ip' : kept (ips1 ++ ips2) ip' ↔ kept ips1 ip' ∨ kept ips2 ip'.
Proof. unfold kept. setoid_rewrite elem_of_app. naive_solver. Qed.

Lemma kept_one ip ip' : kept [ip] ip' ↔ ip_filter ns o ip = true ∧ stands_for ip ip'.
Proof. unfold kept. rewrite ip_filter_spec. setoid_rewrite list_elem_of_singleton. naive_solver. Qed.

Lemma filtered_step name past acc record :
  filtered name past acc → filtered name (past ++ [record]) (filter_record ns o name acc record).
Proof.
  intros [Hk Hn Ha]. unfold filter_record.
  assert (Hpast : addresses (past ++ [record]) = addresses past ++ addresses [record]) by apply addresses_app.
  destruct (rdata_ip_addr (rr_data record)) as [ip|] eqn:Eip.
  2: { assert (Hone : addresses [record] = []) by (unfold addresses; cbn; by rewrite Eip).
       rewrite Hone, app_nil_r in Hpast. split; rewrite ?Hpast; done. }
  assert (Hone : addresses [record] = [ip]) by (unfold addresses; cbn; by rewrite Eip).
  rewrite Hone in Hpast. cbn [opt_filter]. destruct (ip_filter ns o ip) eqn:Ef.
  2: { split; rewrite ?Hpast; [|done|].
       - intros ip'. rewrite Hk, kept_app, kept_one, Ef. naive_solver.
       - intros p. rewrite Ha. setoid_rewrite elem_of_app. setoid_rewrite list_elem_of_singleton.
         split; [intros (i & b & ? & ?); exists i, b; by split; [left|]|].
         intros (i & b & [Hi| ->] & Hfi & Hb); [by exists i, b|congruence]. }
  destruct acc as [[ans set] lk]. cbn [fst snd] in *.
  destruct (im_get (ip_alias o) ip) as [a|] eqn:Ea.
  - destruct (existsb (Z.eqb (arc_ptr a)) set) eqn:Eset.
    + apply existsb_exists in Eset as (p & Hp & Heq%Z.eqb_eq). apply list_elem_of_In, Ha in Hp as
        (ip0 & a0 & Hip0 & Hf0 & Ha0 & <-).
      pose proof (alias_ptr _ _ _ _ Ea Ha0 Heq) as ->.
      split; rewrite ?Hpast; [|done|]; cbn [fst snd].
      * intros ip'. rewrite Hk, kept_app, kept_one. split; [by left|]. intros [?|[_ Hs]]; [done|].
        exists ip0. split; [done|]. split; [by apply ip_filter_spec|]. unfold stands_for in *. by rewrite Ha0, Ea in *.
      * intros p. rewrite Ha. setoid_rewrite elem_of_app. setoid_rewrite list_elem_of_singleton.
        split; [intros (i & b & ? & ?); exists i, b; by split; [left|]|].
        intros (i & b & [Hi| ->] & Hfi & Hb & <-); [by exists i, b|].
        rewrite Ea in Hb. injection Hb as <-. by exists ip0, a0.
    + destruct (add_aliases_spec (rr_set_name name record) (arc_val a) (ans, set ++ [arc_ptr a], lk))
        as (Hset & new & Hans & Hnew & Hnamed).
      destruct (fold_left _ _ _) as [[ans' set'] lk']. cbn [fst snd] in *. subst ans' set'.
      split; rewrite ?Hpast; cbn [fst snd].
      * intros ip'. rewrite addresses_app, elem_of_app, Hk, kept_app, kept_one, Hnew, list_elem_of_filter.
        unfold stands_for. rewrite Ea. naive_solver.
      * apply Forall_app. split; [done|]. exact Hnamed.
      * intros p. rewrite elem_of_app, list_elem_of_singleton, Ha. setoid_rewrite elem_of_app.
        setoid_rewrite list_elem_of_singleton. split.
        -- intros [(i & b & ? & ?)| ->]; [exists i, b; by split; [left|]|exists ip, a; by split; [right|]].
        -- intros (i & b & [Hi| ->] & Hfi & Hb & <-); [left; by exists i, b|]. right. congruence.
  - split; rewrite ?Hpast; cbn [fst snd].
    + intros ip'. rewrite addresses_app, elem_of_app, Hk, kept_app, kept_one.
      unfold stands_for. rewrite Ea. unfold addresses at 2. cbn. rewrite Eip, list_elem_of_singleton. naive_solver.
    + apply Forall_app. split; [done|]. constructor; [|done]. cbn. rewrite Eip. eauto.
    + intros p. rewrite Ha. setoid_rewrite elem_of_app. setoid_rewrite list_elem_of_singleton.
      split; [intros (i & b & ? & ?); exists i, b; by split; [left|]|].
      intros (i & b & [Hi| ->] & Hfi & Hb & Hp); [by exists i, b|congruence].
Qed.

Lemma filtered_fold name l past acc :
  filtered name past acc → filtered name (past ++ l) (fold_left (filter_record ns o name) l acc).
Proof.
  revert past acc. induction l as [|r l IH]; intros past acc Hf; cbn; [by rewrite app_nil_r|].
  replace (past ++ r :: l) with ((past ++ [r]) ++ l) by by rewrite <- app_assoc. by apply IH, filtered_step.
Qed.

Lemma filtered_init name lk : filtered name [] ([], [], lk).
Proof.
  split; cbn; [|constructor|].
  - intros ip'. split; [by intros ?%not_elem_of_nil|]. by intros (ip & ?%not_elem_of_nil & _).
  - intros p. split; [by intros ?%not_elem_of_nil|]. by intros (ip & a & ?%not_elem_of_nil & _).
Qed.

(** C13: the reply of a server with filters. The addresses are exactly those of
    the reply that pass the filters (on the whitelist; or not on the blacklist
    and not ignored), each replaced by its alias when it has one; every record
    is an address under the name that was asked for, and none is without; and
    when no address is left the reply becomes a negative one. *)
Theorem filter_reply_addresses (now : Instant) (lookup : Resp) :
  negb (nso_whitelist_ip (ns_options ns)) && negb (nso_blacklist_ip (ns_options ns))
    && im_is_empty (ignore_ip o) && im_is_empty (ip_alias o) = false →
  match filter_reply ns o now (Ok lookup) with
  | Ok r =>
      (∀ ip', ip' ∈ ip_addrs r ↔ kept (ip_addrs lookup) ip') ∧ answers r ≠ [] ∧
      Forall (fun x => rr_name x = q_name (resp_query lookup) ∧ is_Some (rdata_ip_addr (rr_data x))) (answers r) ∧
      valid_until r = now + secs MAX_TTL
  | Err e => e = ERR_FILTERED ∧ ∀ ip', ¬ kept (ip_addrs lookup) ip'
  end.
Proof.
  intros Hactive. unfold filter_reply. rewrite Hactive.
  pose proof (filtered_fold (q_name (resp_query lookup)) (answers lookup) []
    ([], [], resp_mut (msg_set_answers []) lookup) (filtered_init _ _)) as [Hk Hn _]. cbn [app] in Hk.
  destruct (fold_left _ _ _) as [[ans set] lk]. cbn [fst snd] in *.
  destruct ans as [|x ans].
  - split; [done|]. intros ip' Hip'. apply Hk in Hip'. by apply not_elem_of_nil in Hip'.
  - split; [exact Hk|]. split; [done|]. split; [exact Hn|done].
Qed.
End Filter.

(** ** Groups of servers *)
Section Lookups.
Context (probe : Instant → PingAddr → Z * result Z PingError).
Context (iter : list (IpAddr * Z) → list (IpAddr * Z)).
Hypothesis iter_perm : ∀ l, iter l ≡ₚ l.

Lemma lookup_tasks_nonempty g now name (o : LookupIpOptions RM) : servers g ≠ [] → lookup_tasks g now name o ≠ [].
Proof. unfold lookup_tasks. by destruct (servers g). Qed.

Lemma select_ends name now strategy modes (tasks : list (Task Res)) :
  tasks ≠ [] → ∃ t res, select_ip_response probe iter name now strategy modes tasks = Done t res.
Proof.
  intros Hne. destruct strategy.
  - destruct (first_ping_selects probe modes tasks iter name now iter_perm Hne) as (oks & _ & Ht).
    destruct (select_ip_response _ _ _ _ _ _ _); [eauto|done..].
  - destruct (fastest_ip_selects probe modes tasks iter iter_perm name now false Hne) as (oks & _ & _ & Ht).
    unfold select_ip_response. destruct (_.1); [eauto|done..].
  - destruct (fastest_response_selects probe modes tasks iter name now Hne) as (t & res & -> & _). eauto.
Qed.

Lemma lookup_ip_ends g now name (o : LookupIpOptions RM) :
  is_ip_addr (lo_record_type (lookup_options o)) = true →
  ∃ t res, lookup_ip probe iter g now name o = Done t res.
Proof.
  intros Hip. unfold lookup_ip. rewrite Hip. cbn [negb]. destruct (effective_strategy o) as [strategy modes].
  destruct (servers g) as [|ns l] eqn:Hs.
  - destruct (bool_decide _); eauto.
  - assert (Hne : lookup_tasks g now name o ≠ []) by (apply lookup_tasks_nonempty; by rewrite Hs).
    destruct (bool_decide _), l; try (by apply select_ends); unfold out_task; eauto.
Qed.

Lemma group_lookup_ends g now name o :
  group_lookup g now name o = Panicked ∧ servers g = [] ∨ ∃ t res, group_lookup g now name o = Done t res.
Proof.
  destruct (group_lookup_answers g now name o) as (_ & _ & Hg).
  destruct (group_lookup g now name o); [right; eauto|by left|done].
Qed.

(** Without a speed check (turned off for the listener, not configured, or
    [none] among its modes) the answer of a group with servers is the first valid
    response, or the last one: whatever the configured response mode and whatever
    the network would answer to a probe, and for a single server as for several. *)
Theorem lookup_without_speed_check g (now : Instant) (name : Name) (o : LookupIpOptions RM) :
  is_ip_addr (lo_record_type (lookup_options o)) = true → servers g ≠ [] →
  io_no_speed_check o = true ∨ io_speed_check_mode o = None ∨
    (∃ modes, io_speed_check_mode o = Some modes ∧ SNone ∈ modes) →
  ∃ t res, lookup_ip probe iter g now name o = Done t res ∧
    first_some [find_first (fun x => is_valid_response x.2) (completed (lookup_tasks g now name o));
                last (completed (lookup_tasks g now name o))] = Some (t, res).
Proof.
  intros Hip Hne Hoff. unfold lookup_ip. rewrite Hip. cbn [negb].
  assert (Heff : (effective_strategy o).1 = FastestResponse).
  { unfold effective_strategy. destruct (existsb mode_is_none _) eqn:E; [done|]. cbn.
    destruct Hoff as [-> |[-> |(modes & Hm & Hin)]]; [done|by rewrite orb_true_r|].
    rewrite Hm in E. cbn in E. apply not_true_iff_false in E. destruct E.
    apply existsb_exists. exists SNone. split; [by apply list_elem_of_In|done]. }
  destruct (effective_strategy o) as [strategy modes]. cbn in Heff. subst strategy.
  rewrite bool_decide_true by done.
  pose proof (lookup_tasks_nonempty g now name o Hne) as Hne'.
  destruct (fastest_response_selects probe modes (lookup_tasks g now name o) iter name now Hne')
    as (t & res & Hsel & Hf).
  destruct (servers g) as [|ns [|ns' l]] eqn:Hs; [done| |by exists t, res].
  unfold lookup_tasks in *. rewrite Hs in *. cbn [fmap list_fmap] in *.
  rewrite (completed_cons _ _ _ (select_all_singleton _)) in *. cbn in *.
  destruct (per_nameserver_lookup_ip ns now name o) as [t1 r1]. unfold out_task. cbn in *.
  exists t1, r1. split; [done|]. by destruct (is_valid_response r1).
Qed.

(** A reply that comes first and whose addresses are all filtered out ends a
    lookup in the fastest-response mode as a name that does not exist, whatever
    addresses the other servers have. *)
Theorem filtered_reply_is_final g (now : Instant) (name : Name) (o : LookupIpOptions RM) (t : Instant) rest :
  is_ip_addr (lo_record_type (lookup_options o)) = true →
  effective_strategy o = (FastestResponse, rest) →
  head (completed (lookup_tasks g now name o)) = Some (t, Err ERR_FILTERED) →
  lookup_ip probe iter g now name o = Done t (Err ERR_FILTERED) ∧ is_nx_domain (Name := Name) ERR_FILTERED = true.
Proof.
  intros Hip Heff Hhead. split; [|done]. unfold lookup_ip. rewrite Hip, Heff. cbn [negb].
  rewrite bool_decide_true by done. unfold lookup_tasks in *.
  destruct (servers g) as [|ns [|ns' l]] eqn:Hs; [done|..].
  - cbn [fmap list_fmap] in Hhead. rewrite (completed_cons _ _ _ (select_all_singleton _)) in Hhead.
    cbn in Hhead. injection Hhead as Hhead. unfold out_task. by rewrite Hhead.
  - set (tasks := _ <$> _) in *. assert (Hne : tasks ≠ []) by done.
    destruct (fastest_response_selects probe rest tasks iter name now Hne) as (t' & res & -> & Hf).
    destruct (completed tasks) as [|x k]; [done|]. cbn in Hhead. injection Hhead as ->.
    cbn in Hf. by injection Hf as <- <-.
Qed.

(** ** The recheck *)
Lemma recheck_find_spec group_name : ∀ (n : TreeNode (DomainRule Name)) rk,
  recheck_find_node n group_name = Some rk →
  rk_group rk ≠ group_name ∧ node_nameserver n = Some group_name.
Proof.
  fix IH 1. intros [r z] rk. cbn. destruct (nameserver r) as [ns|].
  - destruct (recheck_nameserver r) as [g|]; [|done]. cbn.
    destruct (bool_decide_reflect (ns ≠ group_name)) as [?|Hns]; [done|].
    destruct (bool_decide_reflect (g = group_name)) as [?|Hg]; [done|]. cbn.
    destruct (recheck_ip_set r) as [s|]; [|done]. cbn. intros [= <-]. split; [done|].
    f_equal. by apply dec_stable.
  - destruct z as [z|]; [|done]. apply IH.
Qed.

(** The second opinion. A recheck that applies is written on the rule that
    chose the group, for another group. Its answer is used exactly when both the
    first answer and its own have an address in the rule's ip-set; in every other
    case, a failure of the recheck group included, the first result stands, with
    no error of the recheck group shown. *)
Theorem recheck_decides (client : DnsClient Name) ctx req (rk : Recheck) (now : Instant) (res : Res) :
  is_ip_addr (q_type (req_query req)) = true →
  recheck_find (ctx_domain_rule ctx) (server_group_name ctx) = Some rk →
  (∃ n, ctx_domain_rule ctx = Some n ∧ node_nameserver n = Some (server_group_name ctx)) ∧
  rk_group rk ≠ server_group_name ctx ∧
  ∃ t res' by_group,
    (recheck_lookup probe iter rk client (ctx_cfg ctx) now (q_name (req_query req)) (recheck_options ctx req) res).1
      = Done t (res', by_group) ∧
    match by_group with
    | None => res' = res
    | Some group => group = rk_group rk ∧
        ∃ ips g first second,
          recheck_ip_set_of (ctx_cfg ctx) (rk_ip_set rk) = Some ips ∧
          client_server_group client (rk_group rk) = Some g ∧
          res = Ok first ∧ has_ip_in first ips = true ∧
          res' = Ok second ∧ has_ip_in second ips = true ∧
          lookup_ip probe iter g now (q_name (req_query req)) (recheck_options ctx req) = Done t (Ok second)
    end.
Proof.
  intros Hip Hfind. unfold recheck_find in Hfind. destruct (ctx_domain_rule ctx) as [n|] eqn:En; [|done]. cbn in Hfind.
  apply recheck_find_spec in Hfind as [Hg Hn]. split; [by exists n|]. split; [done|].
  unfold recheck_lookup. destruct (recheck_ip_set_of _ _) as [ips|] eqn:Eips; [|by exists now, res, None].
  destruct res as [first|e]; [|by exists now, (Err e), None].
  destruct (has_ip_in first ips) eqn:Efirst; [|by exists now, (Ok first), None].
  destruct (client_server_group client (rk_group rk)) as [g|] eqn:Eg; [|by exists now, (Ok first), None].
  destruct (lookup_ip_ends g now (q_name (req_query req)) (recheck_options ctx req) Hip) as (t & second & Hl).
  unfold asking_then, asking_ip. cbn [fst]. rewrite Hl. cbn. destruct second as [second|e]; [|by exists t, (Ok first), None].
  destruct (has_ip_in second ips) eqn:Esecond; [|by exists t, (Ok first), None].
  exists t, (Ok second), (Some (rk_group rk)). split; [done|]. split; [done|]. by exists ips, g, first, second.
Qed.

(** ** The middleware *)
Lemma recheck_lookup_ends (rk : Recheck) client cfg now name (o : LookupIpOptions RM) res :
  is_ip_addr (lo_record_type (lookup_options o)) = true →
  ∃ t x, (recheck_lookup probe iter rk client cfg now name o res).1 = Done t x.
Proof.
  intros Hip. unfold recheck_lookup, asking_then, asking_ip. destruct (recheck_ip_set_of _ _); [|cbn; eauto].
  destruct (match res with Ok _ => _ | Err _ => _ end); [|cbn; eauto].
  destruct (client_server_group _ _) as [g|]; [|cbn; eauto]. cbn [fst].
  destruct (lookup_ip_ends g now name o Hip) as (t & second & ->). cbn.
  destruct second as [s|]; [destruct (has_ip_in s _)|]; cbn; eauto.
Qed.

Lemma lookup_and_recheck_ends client (g : string * NameServerGroup Name) recheck now ctx req :
  is_ip_addr (q_type (req_query req)) = true →
  ∃ t x, (lookup_and_recheck probe iter client g recheck now ctx req).1 = Done t x.
Proof.
  intros Hip. unfold lookup_and_recheck. unfold asking_then at 1. cbn [asking_ip fst].
  destruct (lookup_ip_ends g.2 now (q_name (req_query req)) (ns_lookup_ip_options ctx req) Hip) as (t & res & ->).
  destruct recheck as [rk|]; [|cbn; eauto].
  destruct (recheck_lookup_ends rk client (ctx_cfg ctx) t (q_name (req_query req)) (recheck_options ctx req) res Hip) as (t' & x & Hr).
  destruct (recheck_lookup _ _ _ _ _ _ _ _ _) as [out more]. cbn in *. eauto.
Qed.

(** The answer given first, and the rest of the lookup. *)
Lemma answering_first_ends g now ctx req modes :
  ∃ t res, (lookup_ip_answering_first probe iter g now (q_name (req_query req)) (ctx_cfg ctx) modes
              (ns_lookup_options ctx req)).1 = Done t res ∧
    match (lookup_ip_answering_first probe iter g now (q_name (req_query req)) (ctx_cfg ctx) modes
              (ns_lookup_options ctx req)).2 with
    | None => servers g = []
    | Some rest => servers g ≠ [] ∧
        ∃ t' res', rest = Done t' res' ∧
          select_ip_response probe iter (q_name (req_query req)) now FastestResponse modes
            (lookup_tasks g now (q_name (req_query req)) (ns_lookup_ip_options ctx req)) = Done t res
    end.
Proof.
  unfold lookup_ip_answering_first. destruct (servers g) as [|ns l] eqn:Hs; [by exists now, (Err ERR_NO_CONNECTIONS)|].
  set (tasks := lookup_tasks g now _ _).
  assert (Hne : tasks ≠ []) by (apply lookup_tasks_nonempty; by rewrite Hs).
  destruct (first_report_is_fastest_response probe modes tasks iter (q_name (req_query req)) now Hne)
    as (t & res & Hrep & Hfr).
  destruct (fastest_ip_selects probe modes tasks iter iter_perm (q_name (req_query req)) now true Hne)
    as (oks & _ & _ & Hout).
  destruct (select_ip_response_reporting_first _ _ _ _ _ _ _ _) as [out first]. cbn in *. subst first.
  exists t, res. split; [done|]. split; [done|].
  destruct out as [t' res'| |]; [|done..]. exists t', res'. split; [done|exact Hfr].
Qed.

(** The same lookup with speed checks turned off. *)
Definition without_check (o : LookupIpOptions RM) : LookupIpOptions RM :=
  mkIpOpts (response_strategy o) (io_speed_check_mode o) true (ignore_ip o) (whitelist_ip o)
    (blacklist_ip o) (ip_alias o) (lookup_options o).

(** The answer before its speed check. The middleware leaves a pending check
    only for a foreground query for addresses, in the fastest-response mode with
    probe modes, whose answer the cache stores; a check takes one of the permits,
    which never become negative, and without a permit, or a server, there is
    none. The answer given at once is then the answer of the same lookup with
    speed checks turned off, and the check ends with an answer of its own. *)
Theorem early_answer (client : DnsClient Name) (g : string * NameServerGroup Name) (permits : Z) (now : Instant) ctx req :
  is_ip_addr (q_type (req_query req)) = true → 0 ≤ permits →
  let '(out, ctx', permits', _) := ns_address_lookup probe iter client g permits now ctx req in
  ctx_pending_speed_check ctx' = ctx_pending_speed_check ctx ∧ permits' = permits ∨
  (0 ≤ permits' ∧ permits' = permits - 1 ∧
   (∃ t res, ctx_pending_speed_check ctx' = Some (Done t (with_group (server_group_name ctx) res))) ∧
   out = out_map (with_group (server_group_name ctx))
           (lookup_ip probe iter g.2 now (q_name (req_query req)) (without_check (ns_lookup_ip_options ctx req))) ∧
   is_some (deferred_speed_check_mode ctx req) = true).
Proof.
  intros Hip Hpermits. unfold ns_address_lookup.
  assert (Hfull : ∀ recheck,
    ctx_pending_speed_check (ns_full_lookup probe iter client g recheck now ctx req).1.2 = ctx_pending_speed_check ctx).
  { intros recheck. unfold ns_full_lookup.
    by destruct (lookup_and_recheck _ _ _ _ _ _ _ _) as [[t [res [group|]]| |] asked]. }
  destruct (if mdns_name ctx req then None else _) as [rk|].
  { specialize (Hfull (Some rk)). destruct (ns_full_lookup _ _ _ _ _ _ _ _) as [[? ?] ?]. by left. }
  specialize (Hfull None).
  destruct (deferred_speed_check_mode ctx req) as [modes|] eqn:Edef;
    [|destruct (ns_full_lookup _ _ _ _ _ _ _ _) as [[? ?] ?]; by left].
  destruct (Z.ltb_spec 0 permits); [|destruct (ns_full_lookup _ _ _ _ _ _ _ _) as [[? ?] ?]; by left].
  clear Hfull. destruct (answering_first_ends g.2 now ctx req modes) as (t & res & Hfirst & Hrest).
  destruct (lookup_ip_answering_first _ _ _ _ _ _ _ _) as [first [rest|]]; cbn [fst snd] in *; [right|by left].
  destruct Hrest as (Hs & t' & res' & -> & Hsel). split; [lia|]. split; [done|]. split; [by exists t', res'|].
  split; [|done]. rewrite Hfirst. f_equal.
  destruct (lookup_without_speed_check g.2 now (q_name (req_query req)) (without_check (ns_lookup_ip_options ctx req))
    Hip Hs (or_introl eq_refl)) as (t1 & res1 & -> & Hf1).
  destruct (fastest_response_selects probe modes _ iter (q_name (req_query req)) now
    (lookup_tasks_nonempty g.2 now (q_name (req_query req)) (ns_lookup_ip_options ctx req) Hs))
    as (t2 & res2 & Hsel2 & Hf2).
  rewrite Hsel in Hsel2. injection Hsel2 as <- <-.
  change (lookup_tasks g.2 now (q_name (req_query req)) (without_check (ns_lookup_ip_options ctx req)))
    with (lookup_tasks g.2 now (q_name (req_query req)) (ns_lookup_ip_options ctx req)) in Hf1.
  rewrite Hf2 in Hf1. by injection Hf1 as -> ->.
Qed.

(** Every query the middleware gets is answered: with a response or an error,
    after a time that no upstream and no probe can make endless; only a query
    for other records than addresses to a group that lost all its servers panics.
    What is left pending ends with an answer too. *)
Theorem ns_handle_answers (client : DnsClient Name) (permits : Z) (now : Instant) ctx req :
  let '(out, ctx', _, _) := ns_handle probe iter client permits now ctx req in
  match out with
  | Done _ _ => True
  | Panicked =>
      is_ip_addr (q_type (req_query req)) = false ∧
        (∃ name g, choose_group client ctx req = Some (name, g) ∧ servers g = []) ∨
      no_rule_nameserver (ctx_server_opts ctx) = true ∧ servers (cl_default client) = []
  | OutOfFuel => False
  end ∧
  ∀ p, ctx_pending_speed_check ctx' = Some p →
    ctx_pending_speed_check ctx = Some p ∨ ∃ t res, p = Done t res.
Proof.
  unfold ns_handle. destruct (if is_ip_addr _ then _ else None); [by split; [|left]|].
  destruct (no_rule_nameserver (ctx_server_opts ctx)).
  { cbn [asking]. split; [|by left].
    destruct (group_lookup_ends (cl_default client) now (q_name (req_query req)) (ns_lookup_options ctx req))
      as [[-> ?]|(t & res & ->)]; [by right|done]. }
  destruct (choose_group client ctx req) as [[gname g]|] eqn:Eg; [|by split; [|left]].
  set (ctx1 := ctx_set_source _ ctx).
  destruct (is_ip_addr (q_type (req_query req))) eqn:Hip; cbn [negb].
  2: { cbn [asking fst snd]. split; [|by left].
       destruct (group_lookup_ends g now (q_name (req_query req)) (ns_lookup_options ctx req))
         as [[-> ?]|(t & res & ->)]; [|done]. left. split; [done|]. by exists gname, g. }
  unfold ns_address_lookup.
  assert (Hfull : ∀ recheck, let '(out, ctx', _) := ns_full_lookup probe iter client (gname, g) recheck now ctx1 req in
    (∃ t res, out = Done t res) ∧ ctx_pending_speed_check ctx' = ctx_pending_speed_check ctx).
  { intros recheck. unfold ns_full_lookup.
    destruct (lookup_and_recheck_ends client (gname, g) recheck now ctx1 req Hip) as (t & [res by_group] & Hl).
    destruct (lookup_and_recheck _ _ _ _ _ _ _ _) as [out asked]. cbn in Hl. subst out. destruct by_group;
      (split; [by eexists _, _|done]). }
  assert (Hleft : ∀ (Q : Prop) recheck permits', let '(out, ctx', _, _) :=
      (let '(out, ctx, asked) := ns_full_lookup probe iter client (gname, g) recheck now ctx1 req in (out, ctx, permits' : Z, asked)) in
    match out with Done _ _ => True | Panicked => Q | OutOfFuel => False end ∧
    ∀ p, ctx_pending_speed_check ctx' = Some p →
      ctx_pending_speed_check ctx = Some p ∨ ∃ t res, p = Done t res).
  { intros Q recheck permits'. specialize (Hfull recheck).
    destruct (ns_full_lookup _ _ _ _ _ _ _ _) as [[out ctx'] asked]. destruct Hfull as [(t & res & ->) ->].
    split; [exact I|by left]. }
  destruct (if mdns_name ctx1 req then None else _) as [rk|]; [exact (Hleft _ _ permits)|].
  destruct (deferred_speed_check_mode ctx1 req) as [modes|]; [|exact (Hleft _ _ permits)].
  destruct (0 <? permits); [|exact (Hleft _ _ permits)].
  destruct (answering_first_ends g now ctx1 req modes) as (t1 & res1 & Hfirst & Hrest).
  destruct (lookup_ip_answering_first _ _ _ _ _ _ _ _) as [first [rest|]]; cbn [fst snd] in *; rewrite Hfirst.
  - split; [done|]. destruct Hrest as (_ & t' & res' & -> & _). intros p [= <-]. right. eexists _, _. done.
  - by split; [|left].
Qed.

(** ** What is asked *)
(** The first lookup made for a query: none when the name is that of a server whose
    address is known, and none when there is no group for the name. *)
Definition asked_first (client : DnsClient Name) (now : Instant) ctx req : option GroupLookup :=
  if is_ip_addr (q_type (req_query req)) && is_some (lookup_nameserver client now (q_name (req_query req)) (q_type (req_query req)))
  then None
  else (fun group => mkAsked group (q_name (req_query req)) (ns_lookup_options ctx req))
         <$> (if no_rule_nameserver (ctx_server_opts ctx) then Some "default" else fst <$> choose_group client ctx req).

(** All of the lookups: after the first, for an address, at most one in the group of a
    recheck; and all are for the query. *)
Lemma recheck_asks (rk : Recheck) client cfg now name (o : LookupIpOptions RM) res :
  let asked := (recheck_lookup probe iter rk client cfg now name o res).2 in
  asked = [] ∨ asked = [mkAsked (rk_group rk) name (lookup_options o)].
Proof.
  unfold recheck_lookup. destruct (recheck_ip_set_of _ _); [|by left].
  destruct (match res with Ok _ => _ | Err _ => _ end); [|by left].
  destruct (client_server_group _ _) as [g|]; [|by left]. right. unfold asking_then, asking_ip. cbn [fst snd].
  destruct (lookup_ip _ _ _ _ _ _) as [t [r|e]| |]; [destruct (has_ip_in r _)|..]; by cbn.
Qed.

Lemma full_lookup_asks client (g : string * NameServerGroup Name) recheck now ctx req :
  let o := ns_lookup_options ctx req in
  let name := q_name (req_query req) in
  ∃ more, (ns_full_lookup probe iter client g recheck now ctx req).2 = mkAsked g.1 name o :: more ∧
    (more = [] ∨ ∃ rk, recheck = Some rk ∧ more = [mkAsked (rk_group rk) name o]).
Proof.
  intros o name. unfold ns_full_lookup, lookup_and_recheck.
  assert (∃ more, (asking_then (asking_ip probe iter g.1 g.2 now name (ns_lookup_ip_options ctx req)) (λ t res,
      match recheck with
      | Some rk => recheck_lookup probe iter rk client (ctx_cfg ctx) t name (recheck_options ctx req) res
      | None => (Done t (res, None), [])
      end)).2 = mkAsked g.1 name o :: more ∧
    (more = [] ∨ ∃ rk, recheck = Some rk ∧ more = [mkAsked (rk_group rk) name o])) as (more & He & Hm).
  { unfold asking_then, asking_ip. cbn [fst snd]. destruct (lookup_ip _ _ _ _ _ _) as [t res| |];
      [|exists []; split; [done|by left]..].
    destruct recheck as [rk|]; [|exists []; split; [done|by left]].
    destruct (recheck_asks rk client (ctx_cfg ctx) t name (recheck_options ctx req) res) as [Ha|Ha];
      destruct (recheck_lookup _ _ _ _ _ _ _ _ _) as [out more]; cbn in Ha; subst more; eexists; (split; [reflexivity|]);
      [by left|right; by exists rk]. }
  destruct (asking_then _ _) as [out asked]. cbn in He. subst asked.
  exists more. split; [|done]. by destruct out as [t [res [by_group|]]| |].
Qed.

Lemma ns_handle_asks (client : DnsClient Name) (permits : Z) (now : Instant) ctx req :
  let asked := (ns_handle probe iter client permits now ctx req).2 in
  match asked_first client now ctx req with
  | None => asked = []
  | Some first => ∃ more, asked = first :: more ∧
      (more = [] ∨ is_ip_addr (q_type (req_query req)) = true ∧
       ∃ rk, recheck_find (ctx_domain_rule ctx) (server_group_name ctx) = Some rk ∧
         more = [mkAsked (rk_group rk) (q_name (req_query req)) (ns_lookup_options ctx req)])
  end.
Proof.
  unfold ns_handle, asked_first.
  destruct (is_ip_addr (q_type (req_query req))) eqn:Hip; cbn [andb negb]; last first.
  { destruct (no_rule_nameserver _); [cbn; exists []; split; [done|by left]|].
    destruct (choose_group client ctx req) as [g|]; cbn; [|done]. exists []. split; [done|by left]. }
  destruct (lookup_nameserver _ _ _ _); cbn [is_some]; [done|].
  destruct (no_rule_nameserver _); [cbn; exists []; split; [done|by left]|].
  destruct (choose_group client ctx req) as [g|]; cbn [fmap option_fmap option_map]; [|done].
  unfold ns_address_lookup. set (ctx1 := ctx_set_source _ ctx).
  set (recheck := if mdns_name ctx1 req then None else _).
  assert (Hfull : ∃ more,
    (let '(out, ctx2, asked) := ns_full_lookup probe iter client g recheck now ctx1 req in (out, ctx2, permits, asked)).2
      = mkAsked g.1 (q_name (req_query req)) (ns_lookup_options ctx req) :: more ∧
    (more = [] ∨ true = true ∧
       ∃ rk, recheck_find (ctx_domain_rule ctx) (server_group_name ctx) = Some rk ∧
         more = [mkAsked (rk_group rk) (q_name (req_query req)) (ns_lookup_options ctx req)])).
  { destruct (full_lookup_asks client g recheck now ctx1 req) as (more & He & Hm).
    destruct (ns_full_lookup _ _ _ _ _ _ _ _) as [[out ctx2] asked]. cbn in He. subst asked. exists more. split; [done|].
    destruct Hm as [->|(rk & Hrk & ->)]; [by left|right]. split; [done|]. exists rk. split; [|done]. subst recheck.
    by destruct (mdns_name ctx1 req). }
  destruct recheck as [rk|]; [done|]. destruct (deferred_speed_check_mode ctx1 req) as [modes|]; [|done].
  destruct (0 <? permits); [|done]. destruct (lookup_ip_answering_first _ _ _ _ _ _ _ _) as [first rest]. cbn.
  exists []. split; [done|by left].
Qed.

(** *** Nothing else is asked *)
(** Servers that answer a question in the same way and in the same time. *)
Definition same_server (name : Name) (o : LookupOptions) (a b : NameServer Name) : Prop :=
  ns_options a = ns_options b ∧ ∀ now, ns_lookup a now name o = ns_lookup b now name o.
Definition same_group (name : Name) (o : LookupOptions) (g g' : NameServerGroup Name) : Prop :=
  Forall2 (same_server name o) (servers g) (servers g').
(** Clients with the same groups, that need only agree on what the lookups ask. *)
Definition same_answers (asked : list GroupLookup) (c c' : DnsClient Name) : Prop :=
  cl_bootstrap c = cl_bootstrap c' ∧
  (∀ group, client_server_group c group = None ↔ client_server_group c' group = None) ∧
  ∀ x g g', x ∈ asked → client_server_group c (asked_group x) = Some g → client_server_group c' (asked_group x) = Some g' →
    same_group (asked_name x) (asked_options x) g g'.

Lemma same_tasks name (o : LookupIpOptions RM) g g' now :
  same_group name (lookup_options o) g g' → lookup_tasks g now name o = lookup_tasks g' now name o.
Proof.
  unfold same_group, lookup_tasks. induction 1 as [|a b l l' [Ho Hl] _ IH]; [done|]. cbn [fmap list_fmap].
  rewrite IH. f_equal. unfold per_nameserver_lookup_ip. rewrite Hl. destruct (ns_lookup b _ _ _).
  unfold filter_reply, filter_record, ip_filter. by rewrite Ho.
Qed.

Lemma same_lookup_ip name (o : LookupIpOptions RM) g g' now :
  same_group name (lookup_options o) g g' → lookup_ip probe iter g now name o = lookup_ip probe iter g' now name o.
Proof.
  intros Hs. pose proof (same_tasks name o g g' now Hs) as Ht. unfold lookup_ip. rewrite Ht.
  unfold same_group in Hs. inversion Hs as [|a b l l' Hab Hl Ea Eb]; [done|].
  inversion Hl as [|? ? ? ? ? ? Ea' Eb']; [|done]. subst. unfold lookup_tasks in Ht. rewrite <- Ea, <- Eb in Ht. cbn in Ht. by injection Ht as ->.
Qed.

Lemma same_first name cfg modes o g g' now :
  same_group name o g g' →
  lookup_ip_answering_first probe iter g now name cfg modes o = lookup_ip_answering_first probe iter g' now name cfg modes o.
Proof.
  intros Hs. unfold lookup_ip_answering_first. rewrite (same_tasks name _ g g' now) by done.
  unfold same_group in Hs. by inversion Hs.
Qed.

Lemma same_group_lookup name o g g' now : same_group name o g g' → group_lookup g now name o = group_lookup g' now name o.
Proof.
  unfold same_group, group_lookup. intros Hs.
  assert (Hl : (fun ns => ns_lookup ns now name o) <$> servers g = (fun ns => ns_lookup ns now name o) <$> servers g').
  { induction Hs as [|a b l l' [_ Hab] _ IH]; [done|]. cbn [fmap list_fmap]. by rewrite Hab, IH. }
  inversion Hs as [Ea Eb|a b l l' [_ Hab] Hl' Ea Eb]; rewrite <- Ea, <- Eb in Hl; [done|].
  inversion Hl'; subst; [by rewrite Hab|]. by rewrite Hl.
Qed.

Lemma same_choice asked c c' ctx req :
  same_answers asked c c' →
  match choose_group c ctx req with
  | None => choose_group c' ctx req = None
  | Some g => ∃ g', choose_group c' ctx req = Some (g.1, g') ∧
      client_server_group c g.1 = Some g.2 ∧ client_server_group c' g.1 = Some g'
  end.
Proof.
  intros (_ & Hg & _). unfold choose_group, named_group.
  assert (Hn : ∀ group, match client_server_group c group with
    | None => client_server_group c' group = None
    | Some _ => ∃ g', client_server_group c' group = Some g' end).
  { intros group. specialize (Hg group). destruct (client_server_group c group), (client_server_group c' group);
      [by eexists|exfalso; naive_solver|exfalso; naive_solver|done]. }
  assert (Hd := Hn (server_group_name ctx)).
  destruct (mdns_name ctx req).
  - specialize (Hn "mdns"). destruct (client_server_group c "mdns") as [g|] eqn:E.
    + destruct Hn as [g' E']. rewrite E'. cbn. exists g'. by rewrite E, E'.
    + rewrite Hn. cbn [fmap option_fmap option_map opt_or]. destruct (client_server_group c (server_group_name ctx)) as [g|] eqn:Eg; cbn.
      * destruct Hd as [g' E']. exists g'. by rewrite E', Eg.
      * by rewrite Hd.
  - cbn [opt_or]. destruct (client_server_group c (server_group_name ctx)) as [g|] eqn:Eg; cbn.
    + destruct Hd as [g' E']. exists g'. by rewrite E', Eg.
    + by rewrite Hd.
Qed.

Lemma same_recheck asked (rk : Recheck) c c' cfg now name (o : LookupIpOptions RM) res :
  same_answers asked c c' → (∀ x, x ∈ (recheck_lookup probe iter rk c cfg now name o res).2 → x ∈ asked) →
  recheck_lookup probe iter rk c' cfg now name o res = recheck_lookup probe iter rk c cfg now name o res.
Proof.
  intros (_ & Hg & Hs). unfold recheck_lookup. destruct (recheck_ip_set_of _ _); [|done].
  destruct (match res with Ok _ => _ | Err _ => _ end); [|done]. specialize (Hg (rk_group rk)).
  destruct (client_server_group c (rk_group rk)) as [g|] eqn:E; [|by rewrite (proj1 Hg eq_refl)].
  destruct (client_server_group c' (rk_group rk)) as [g'|] eqn:E'; [|by discriminate (proj2 Hg eq_refl)].
  intros Hin. assert (Ha : mkAsked (rk_group rk) name (lookup_options o) ∈ asked).
  { apply Hin. unfold asking_then, asking_ip. cbn [fst snd].
    destruct (lookup_ip _ _ _ _ _ _) as [t [r|e]| |]; [destruct (has_ip_in r _)|..]; cbn; by left. }
  unfold asking_then, asking_ip. cbn [fst snd]. by rewrite (same_lookup_ip name o g g' now (Hs _ _ _ Ha E E')).
Qed.

Lemma same_full asked c c' group g g' recheck now ctx req :
  same_answers asked c c' → same_group (q_name (req_query req)) (ns_lookup_options ctx req) g g' →
  (∀ x, x ∈ (ns_full_lookup probe iter c (group, g) recheck now ctx req).2 → x ∈ asked) →
  ns_full_lookup probe iter c' (group, g') recheck now ctx req = ns_full_lookup probe iter c (group, g) recheck now ctx req.
Proof.
  intros Hs Hg. unfold ns_full_lookup, lookup_and_recheck, asking_then, asking_ip. cbn [fst snd].
  rewrite <- (same_lookup_ip _ (ns_lookup_ip_options ctx req) g g' now Hg).
  destruct (lookup_ip _ _ _ _ _ _) as [t res| |]; [|done..]. destruct recheck as [rk|]; [|done]. intros Hin.
  rewrite (same_recheck asked rk c c') by
    (try done; intros x Hx; apply Hin; destruct (recheck_lookup _ _ _ _ _ _ _ _ _) as [out more]; cbn [snd] in *;
     destruct out as [t' [res' [b|]]| |]; cbn; apply list_elem_of_further, Hx).
  done.
Qed.

End Lookups.
End NameServerSpec.
