(* ===== verification/NameServerExamples.v ===== *)
(** * The name server component at concrete inputs

    Upstreams that answer at fixed times, a network on which one address is
    near, and the theorems of the component instantiated there. *)

From S2P Require Import Prelude Names DomainMap Config DomainRule DomainRuleTree IpSet Message Runtime Context Samples Tasks Upstream Probe Select SelectSpec SelectCorrect NameServerMw NameServerSpec.

#[local] Existing Instance mask_net.
#[local] Existing Instance mask_net_laws.
#[local] Existing Instance FirstReady_lib.
#[local] Existing Instance FirstReady_laws.

Abbreviation SampleRes := (result (DnsResponse PlainName) (LookupError PlainName)).

(** Address 2 is near, address 3 does not answer, the others are far. *)
Definition sample_probe (now : Instant) (d : PingAddr) : Z * result Z PingError :=
  match ping_ip d with
  | V4 2 => (millis 5, Ok (millis 5))
  | V4 3 => (millis 1000, Err PingTimeout)
  | _ => (millis 50, Ok (millis 50))
  end.

Definition sample_iter (l : list (IpAddr * Z)) : list (IpAddr * Z) := l.

Lemma sample_iter_perm l : sample_iter l ≡ₚ l.
Proof. done. Qed.

Definition sample_modes : SpeedCheckModeList := [SPing].

Definition sample_tasks : list (Task SampleRes) :=
  [(millis 30, Ok (sample_resp [2; 3] 60)); (millis 5, Ok (sample_resp [1] 60)); (millis 900, Err EIo)].

Lemma sample_tasks_nonempty : sample_tasks ≠ [].
Proof. done. Qed.

(** The delay decides, not the order of the replies; the silent upstream is
    given up after its window. *)
Lemma fastest_ip_selects_witness :
  (∃ oks : list (DnsResponse PlainName),
    (∀ r, r ∈ oks → ∃ t, (t, Ok r) ∈ sample_tasks) ∧
    (∀ t r, (t, Ok r) ∈ sample_tasks → false = true ∨ within_window sample_tasks t → r ∈ oks)) ∧
  match select_ip_response sample_probe sample_iter sample_name 0 FastestIp sample_modes sample_tasks with
  | Done t (Ok r) => t = millis 230 ∧ ip_addrs r = [V4 2] ∧ probe_result r = Measured (millis 5)
  | _ => False
  end.
Proof.
  split.
  - destruct (fastest_ip_selects sample_probe sample_modes sample_tasks sample_iter sample_iter_perm
      sample_name 0 false sample_tasks_nonempty) as (oks & Hoks & Hall & _).
    exact (ex_intro _ oks (conj Hoks Hall)).
  - vm_compute. repeat split.
Defined.

Lemma first_ping_selects_witness :
  (∃ oks : list (DnsResponse PlainName), (∀ r, r ∈ oks → ∃ t, (t, Ok r) ∈ sample_tasks)) ∧
  match select_ip_response sample_probe sample_iter sample_name 0 FirstPing sample_modes sample_tasks with
  | Done t (Ok r) => t = millis 35 ∧ ip_addrs r = [V4 2] ∧ probe_result r = Measured (millis 5)
  | _ => False
  end.
Proof.
  split.
  - destruct (first_ping_selects sample_probe sample_modes sample_tasks sample_iter
      sample_name 0 sample_iter_perm sample_tasks_nonempty) as (oks & Hoks & _).
    exact (ex_intro _ oks Hoks).
  - vm_compute. repeat split.
Defined.

Lemma first_report_witness :
  ∃ t res,
    (select_ip_response_reporting_first sample_probe sample_iter sample_name 0 FastestIp sample_modes sample_tasks true).2
      = Some (t, res) ∧
    select_ip_response sample_probe sample_iter sample_name 0 FastestResponse sample_modes sample_tasks = Done t res.
Proof.
  exact (first_report_is_fastest_response sample_probe sample_modes sample_tasks sample_iter
    sample_name 0 sample_tasks_nonempty).
Defined.

Lemma fastest_response_witness :
  ∃ t res,
    select_ip_response sample_probe sample_iter sample_name 0 FastestResponse sample_modes sample_tasks = Done t res ∧
    first_some [find_first (fun x => is_valid_response x.2) (completed sample_tasks); last (completed sample_tasks)]
      = Some (t, res).
Proof.
  exact (fastest_response_selects sample_probe sample_modes sample_tasks sample_iter
    sample_name 0 sample_tasks_nonempty).
Defined.

Lemma sample_first_in : (millis 5, Ok (sample_resp [1] 60)) ∈ sample_tasks.
Proof. right. left. Qed.

Lemma sample_from_zero : Forall (fun x : Task SampleRes => 0 ≤ x.1) sample_tasks.
Proof. repeat constructor; done. Qed.

Lemma answer_is_timely_witness :
  ∃ t res,
    select_ip_response sample_probe sample_iter sample_name 0 FastestIp sample_modes sample_tasks = Done t res ∧
    t ≤ millis 5 + PEER_WINDOW + MODE_WINDOW * Z.of_nat (length sample_modes).
Proof.
  exact (answer_is_timely sample_probe sample_modes sample_tasks (millis 5) (Ok (sample_resp [1] 60))
    sample_first_in eq_refl sample_iter sample_name 0 FastestIp sample_iter_perm sample_from_zero).
Defined.

(** ** Servers *)
Definition plain_ns_opts : NameServerOpts := mkNsOpts false false false None true true.
Definition black_ns_opts : NameServerOpts := mkNsOpts true false false None true true.

(** A server that answers after some milliseconds. *)
Definition sample_server (opts : NameServerOpts) (ms : Z) (res : SampleRes) : NameServer PlainName :=
  mkNs opts (fun now _ _ _ => (now + millis ms, res)).

Definition sample_set (ips : list Z) : IpMap list_rm unit :=
  im_from_iter ((fun a => (mkNet (V4 a) 32, tt)) <$> ips).

(** Address 1 stands for address 9 and an IPv6 address. *)
Definition sample_arc : Arc (list IpAddr) := mkArc 7 [V4 9; V6 10].
Definition sample_alias : IpMap list_rm (Arc (list IpAddr)) := im_from_iter [(mkNet (V4 1) 32, sample_arc)].

Definition sample_opts (strategy : ResponseMode) (modes : option SpeedCheckModeList)
    (black : IpMap list_rm unit) (alias : IpMap list_rm (Arc (list IpAddr))) : LookupIpOptions list_rm :=
  mkIpOpts strategy modes false im_default im_default black alias (mkLookup false TYPE_A None).

Lemma sample_alias_ptr i j a b :
  im_get sample_alias i = Some a → im_get sample_alias j = Some b → arc_ptr a = arc_ptr b → a = b.
Proof.
  assert (Hone : ∀ i a, im_get sample_alias i = Some a → a = sample_arc).
  { intros i0 c. unfold sample_alias. rewrite im_get_from_iter.
    - cbn. by destruct (net_contains _ i0); [intros [= <-]|].
    - repeat constructor; done. }
  by intros ->%Hone ->%Hone.
Qed.

Definition sample_reply : DnsResponse PlainName := sample_resp [1; 2; 3] 60.
Definition sample_filters : LookupIpOptions list_rm :=
  sample_opts FastestIp (Some sample_modes) (sample_set [3]) sample_alias.

(** Address 1 becomes its alias, 3 is on the blacklist. *)
Lemma filter_reply_witness :
  match filter_reply (sample_server black_ns_opts 5 (Ok sample_reply)) sample_filters 0 (Ok sample_reply) with
  | Ok r => ip_addrs r = [V4 9; V4 2] ∧
      ∀ ip', ip' ∈ ip_addrs r ↔
        kept (sample_server black_ns_opts 5 (Ok sample_reply)) sample_filters (ip_addrs sample_reply) ip'
  | Err _ => False
  end.
Proof.
  pose proof (filter_reply_addresses (sample_server black_ns_opts 5 (Ok sample_reply)) sample_filters
    sample_alias_ptr 0 sample_reply eq_refl) as Hspec.
  destruct (filter_reply _ _ _ _) as [r|e] eqn:E; [|vm_compute in E; discriminate E].
  destruct Hspec as [Hk _]. refine (conj _ Hk). vm_compute in E. injection E as <-. reflexivity.
Defined.

(** ** Groups *)
Definition sample_error : SampleRes := Err EIo.

Definition sample_group : NameServerGroup PlainName :=
  mkGroup [sample_server plain_ns_opts 20 (Ok (sample_resp [1; 2] 60)); sample_server plain_ns_opts 5 sample_error].

Lemma sample_group_nonempty : servers sample_group ≠ [].
Proof. done. Qed.

Lemma lookup_without_speed_check_witness :
  ∃ t res,
    lookup_ip sample_probe sample_iter sample_group 0 sample_name (sample_opts FastestIp None im_default im_default)
      = Done t res ∧
    first_some [find_first (fun x => is_valid_response x.2)
        (completed (lookup_tasks sample_group 0 sample_name (sample_opts FastestIp None im_default im_default)));
      last (completed (lookup_tasks sample_group 0 sample_name (sample_opts FastestIp None im_default im_default)))]
      = Some (t, res).
Proof.
  exact (lookup_without_speed_check sample_probe sample_iter sample_group 0 sample_name
    (sample_opts FastestIp None im_default im_default) eq_refl sample_group_nonempty (or_intror (or_introl eq_refl))).
Defined.

(** The first server's only address is on its blacklist. *)
Definition filtering_group : NameServerGroup PlainName :=
  mkGroup [sample_server black_ns_opts 5 (Ok (sample_resp [3] 60)); sample_server plain_ns_opts 20 (Ok (sample_resp [1] 60))].

Definition filtering_opts : LookupIpOptions list_rm :=
  sample_opts FastestResponse (Some sample_modes) (sample_set [3]) im_default.

Lemma filtering_head :
  head (completed (lookup_tasks filtering_group 0 sample_name filtering_opts)) = Some (millis 5, Err ERR_FILTERED).
Proof. vm_compute. reflexivity. Qed.

Lemma filtered_reply_witness :
  lookup_ip sample_probe sample_iter filtering_group 0 sample_name filtering_opts = Done (millis 5) (Err ERR_FILTERED) ∧
  is_nx_domain (Name := PlainName) ERR_FILTERED = true.
Proof.
  exact (filtered_reply_is_final sample_probe sample_iter filtering_group 0 sample_name filtering_opts (millis 5)
    sample_modes eq_refl eq_refl filtering_head).
Defined.

(** ** The middleware *)
Definition recheck_rule : DomainRule PlainName :=
  mkRule _ (Some "main") None None None None None None None None None None None None None None None None
    (Some "local") (Some "lan").

Definition recheck_inner : ConfigInner := config_default.
Definition recheck_config : RuntimeConfig PlainName list_rm :=
  mkRuntime recheck_inner ∅ im_default im_default im_default im_default {["lan" := sample_set [1]]} im_default.

Definition recheck_ctx : DnsContext PlainName list_rm (Outcome SampleRes) :=
  mkCtx recheck_config opts_default (Some (mkNode recheck_rule None)) 0 FromNone false false None.

Definition local_group : NameServerGroup PlainName :=
  mkGroup [sample_server plain_ns_opts 10 (Ok (sample_resp [1; 9] 60))].

Definition sample_client : DnsClient PlainName :=
  mkClient sample_group (bs_new sample_group) {["main" := sample_group; "local" := local_group]}.

Lemma recheck_decides_witness :
  ∃ t res' by_group,
    (recheck_lookup sample_probe sample_iter (mkRecheck "local" "lan") sample_client recheck_config 0 sample_name
      (recheck_options recheck_ctx (sample_req TYPE_A)) (Ok (sample_resp [1] 60))).1 = Done t (res', by_group) ∧
    by_group = Some "local".
Proof.
  destruct (recheck_decides sample_probe sample_iter sample_iter_perm sample_client recheck_ctx (sample_req TYPE_A)
    (mkRecheck "local" "lan") 0 (Ok (sample_resp [1] 60)) eq_refl eq_refl)
    as (_ & _ & t & res' & by_group & Heq & _).
  refine (ex_intro _ t (ex_intro _ res' (ex_intro _ by_group (conj Heq _)))).
  vm_compute in Heq. injection Heq as _ _ <-. reflexivity.
Defined.

(** The same groups, with servers that know nothing of other types, and another group
    that knows nothing at all. *)
Definition ipv4_only (ns : NameServer PlainName) : NameServer PlainName :=
  mkNs (ns_options ns) (fun now q ro edns =>
    if q_type q =? TYPE_A then ns_connection ns now q ro edns else (now, Err ENameExists)).
Definition ipv4_group (g : NameServerGroup PlainName) : NameServerGroup PlainName := mkGroup (ipv4_only <$> servers g).
Definition ipv4_client : DnsClient PlainName :=
  mkClient (mkGroup []) (bs_new sample_group) {["main" := ipv4_group sample_group; "local" := ipv4_group local_group]}.

Lemma ipv4_same (g : NameServerGroup PlainName) o : lo_record_type o = TYPE_A → same_group sample_name o g (ipv4_group g).
Proof.
  intros Ho. unfold same_group, ipv4_group. cbn [servers]. induction (servers g) as [|ns l IH]; [constructor|].
  constructor; [|done]. split; [done|]. intros now. unfold ns_lookup. cbn. by rewrite Ho.
Qed.


(** A context in the fastest-response mode with a speed check. *)
Definition early_inner : ConfigInner :=
  mkConfig None cache_default [] [] [] [] (Some sample_modes) None None [] None None None None None None None None
    None None None None (Some FastestResponse) ∅ [] [] None.
Definition early_ctx : DnsContext PlainName list_rm (Outcome SampleRes) :=
  mkCtx (mkRuntime early_inner ∅ im_default im_default im_default im_default ∅ im_default) opts_default None 0
    FromNone false false None.

Lemma early_answer_witness :
  let '(out, ctx', permits', _) :=
    ns_address_lookup sample_probe sample_iter sample_client ("default", sample_group) 128 0 early_ctx (sample_req TYPE_A) in
  (∃ t res, ctx_pending_speed_check ctx' = Some (Done t (with_group "default" res))) ∧ permits' = 127.
Proof.
  pose proof (early_answer sample_probe sample_iter sample_iter_perm sample_client ("default", sample_group) 128 0 early_ctx
    (sample_req TYPE_A) eq_refl ltac:(lia)) as Hspec.
  destruct (ns_address_lookup _ _ _ _ _ _ _ _) as [[[out ctx'] permits'] asked] eqn:E.
  assert (Hp : permits' = 127).
  { apply (f_equal fst) in E. apply (f_equal snd) in E. vm_compute in E. by symmetry. }
  destruct Hspec as [[_ Hs]|(_ & _ & Hpend & _)]; [congruence|].
  refine (conj _ Hp). exact Hpend.
Defined.

Lemma ns_handle_witness :
  let '(out, ctx', _, _) := ns_handle sample_probe sample_iter sample_client 128 0 early_ctx (sample_req TYPE_A) in
  match out with Done _ _ => True | _ => False end.
Proof.
  pose proof (ns_handle_answers sample_probe sample_iter sample_iter_perm sample_client 128 0 early_ctx
    (sample_req TYPE_A)) as Hspec.
  destruct (ns_handle _ _ _ _ _ _ _) as [[[out ctx'] permits'] asked].
  destruct Hspec as [Hout _]. destruct out; [exact I| |exact Hout].
  destruct Hout as [[Hq _]|[Hr _]]; discriminate.
Defined.

(** ** The store of upstream addresses *)
Lemma sample_fresh : msg_answers (msg_fresh (Name := PlainName)) = [].
Proof. done. Qed.

Definition upper_name : PlainName := plain_name "WWW.Example.com".

Lemma bootstrap_remembers_witness :
  ∃ t r b',
    bs_lookup (bs_new sample_group) 0 sample_name (mkLookup false TYPE_A None) = (Done t (Ok r), b') ∧
    (bs_lookup b' 5 upper_name (mkLookup false TYPE_A None)).1 =
      Done 5 (Ok (new_with_max_ttl 5 (store_query upper_name TYPE_A) (answers r))).
Proof.
  destruct (bs_lookup (bs_new sample_group) 0 sample_name (mkLookup false TYPE_A None)) as [[t [r|e]| |] b'] eqn:E;
    [|vm_compute in E; discriminate E..].
  destruct (bootstrap_remembers (bs_new sample_group) b' 0 t 5 sample_name upper_name
    (mkLookup false TYPE_A None) (mkLookup false TYPE_A None) r sample_fresh E eq_refl eq_refl) as [Hb _].
  refine (ex_intro _ t (ex_intro _ r (ex_intro _ b' (conj eq_refl _)))). exact (f_equal fst Hb).
Defined.

(** The failure that comes first does not hide the later addresses. *)
Lemma group_lookup_witness :
  match group_lookup sample_group 0 sample_name (mkLookup false TYPE_A None) with
  | Done _ r => select_answer true
      (completed ((fun ns => ns_lookup ns 0 sample_name (mkLookup false TYPE_A None)) <$> servers sample_group)).*2 = Some r
  | _ => False
  end.
Proof.
  destruct (group_lookup_answers sample_group 0 sample_name (mkLookup false TYPE_A None)) as (_ & _ & Hg).
  destruct (group_lookup _ _ _ _) as [t r| |]; [exact Hg|discriminate Hg|exact Hg].
Defined.
