(* ===== verification/RewriteMw.v ===== *)
(** * Rewritten names and addresses ([dns_mw_cname.rs], [dns_mw_dns64.rs])

    The CNAME rules, which answer a name with what another name gives, and
    DNS64, which makes IPv6 addresses of IPv4 ones under a prefix. *)

From S2P Require Import Prelude Names DomainMap Config DomainRule DomainRuleTree IpSet Message Runtime Context Calls Samples.

(** ** Addresses of DNS64

    The arithmetic is that of the release build: an 8-bit difference wraps, and a
    shift of a 128-bit integer takes its amount modulo 128. *)
Definition shl_u128 (x s : Z) : Z := (x * 2 ^ (s mod 128)) mod 2 ^ 128.
Definition shr_u128 (x s : Z) : Z := x / 2 ^ (s mod 128).

(** An IPv6 network: its address and the length of its prefix. *)
Definition Ipv6Net : Type := Z * Z.

Definition to_dns64 (ipv6_net : Ipv6Net) (ipv4 : Z) : Z :=
  let v4_bits := 32 in
  let v6_bits := 128 in
  let suffix := as_u8 (v6_bits - ipv6_net.2) in
  let v6 := shl_u128 (shr_u128 ipv6_net.1 suffix) suffix in
  let v4 := shl_u128 ipv4 (as_u8 (suffix - v4_bits)) in
  (v4 + v6) mod 2 ^ 128.

(** With a prefix of 1 to 96 bits the address made of an IPv4 address is in
    the network, holds the IPv4 address in the 32 bits after the prefix, and has
    zeros after it; so two IPv4 addresses never give the same one. *)
Theorem dns64_embeds (net_addr prefix ipv4 : Z) :
  0 ≤ net_addr < 2 ^ 128 → 1 ≤ prefix ≤ 96 → 0 ≤ ipv4 < 2 ^ 32 →
  let v6 := to_dns64 (net_addr, prefix) ipv4 in
  0 ≤ v6 < 2 ^ 128 ∧
  v6 / 2 ^ (128 - prefix) = net_addr / 2 ^ (128 - prefix) ∧
  (v6 / 2 ^ (96 - prefix)) mod 2 ^ 32 = ipv4 ∧
  v6 mod 2 ^ (96 - prefix) = 0.
Proof.
  intros Ha Hp H4. unfold to_dns64, shl_u128, shr_u128, as_u8. cbn [fst snd].
  replace (128 - prefix - 32) with (96 - prefix) by lia.
  rewrite (Z.mod_small (128 - prefix) 256) by lia.
  replace (128 - prefix - 32) with (96 - prefix) by lia.
  rewrite (Z.mod_small (96 - prefix) 256), (Z.mod_small (128 - prefix) 128), (Z.mod_small (96 - prefix) 128) by lia.
  assert (Hs : 2 ^ (128 - prefix) = 2 ^ 32 * 2 ^ (96 - prefix)).
  { rewrite <- Z.pow_add_r by lia. f_equal. lia. }
  assert (Hw : 2 ^ 128 = 2 ^ prefix * 2 ^ (128 - prefix)).
  { rewrite <- Z.pow_add_r by lia. f_equal. lia. }
  pose proof (Z.pow_pos_nonneg 2 (96 - prefix) ltac:(lia) ltac:(lia)) as Hq.
  pose proof (Z.pow_pos_nonneg 2 prefix ltac:(lia) ltac:(lia)) as Hn.
  set (q := 2 ^ (96 - prefix)) in *. set (s := 2 ^ (128 - prefix)) in *. set (n := 2 ^ prefix) in *.
  set (w := 2 ^ 128) in *. set (k := net_addr / s).
  assert (Hspos : 0 < s) by (rewrite Hs; lia).
  assert (Hk : 0 ≤ k < n).
  { subst k. split; [apply Z.div_pos; lia|]. apply Z.div_lt_upper_bound; [done|]. rewrite Z.mul_comm, <- Hw. lia. }
  assert (Hks : 0 ≤ k * s ≤ (n - 1) * s) by nia.
  assert (H4q : 0 ≤ ipv4 * q < s) by (rewrite Hs; nia).
  rewrite (Z.mod_small (k * s) w), (Z.mod_small (ipv4 * q) w) by nia.
  rewrite (Z.mod_small (ipv4 * q + k * s) w) by nia.
  split; [nia|]. split.
  { rewrite Z.div_add by lia. rewrite Z.div_small by lia. lia. }
  replace (ipv4 * q + k * s) with ((ipv4 + k * 2 ^ 32) * q) by (rewrite Hs; ring).
  split.
  - rewrite Z.div_mul by lia. rewrite Z.mod_add by lia. apply Z.mod_small. lia.
  - apply Z.mod_mul. lia.
Qed.

Lemma dns64_embeds_witness :
  (to_dns64 (0x64ff9b * 2 ^ 96, 96) 0xc0a80001 / 2 ^ 0) mod 2 ^ 32 = 0xc0a80001.
Proof.
  destruct (dns64_embeds (0x64ff9b * 2 ^ 96) 96 0xc0a80001 ltac:(vm_compute; split; congruence) ltac:(lia)
    ltac:(vm_compute; split; congruence)) as (_ & _ & H4 & _). exact H4.
Defined.

(** A prefix over 96 bits leaves no room: the shift wraps, and the IPv4 address
    lands elsewhere. *)
Lemma dns64_long_prefix : to_dns64 (1, 128) 5 = 5 * 2 ^ 96 + 1.
Proof. reflexivity. Qed.

Section RewriteMw.
Context {Name : Type} `{NameLib Name} `{MsgLib Name}.
Context {RM : Type → Type} `{RangeMapLib RM} `{NL : NetLib}.
Variable hash : Z → list Z → Z.
Variable wm : list Z → list Z → bool.
Context {Fut : Type}.

Abbreviation Ctx := (DnsContext Name RM Fut).
Abbreviation Req := (DnsRequest Name).
Abbreviation Resp := (DnsResponse Name).
Abbreviation Res := (result Resp (LookupError Name)).
Abbreviation Next := (Ctx → Req → Ctx * Res).
Implicit Types (ctx : Ctx) (req : Req) (next : Next).

(** ** CNAME rules *)

(** The target a rule names; an ignored one names none. *)
Definition cname_value (r : DomainRule Name) : option Name :=
  match cname r with
  | Some Ignore => None
  | Some (Value n) => Some n
  | None => None
  end.

(** The target for a query: the rule's own, else its zone's. *)
Definition cname_target ctx : option Name :=
  n ← ctx_domain_rule ctx; node_get (fun n => cname_value (node_rule n)) n.

Definition msg_set_queries (l : list (Query Name)) (m : Message Name) : Message Name :=
  mkMsg (msg_header m) l (msg_answers m) (msg_authorities m) (msg_additionals m) (msg_edns m).

(** [DnsCNameMiddleware::handle] *)
Definition cname_run (now : Instant) ctx req : Handling Name Ctx (Ctx * Res) :=
  match cname_target ctx with
  | Some cname =>
      let cname := if negb (name_is_fqdn cname) then name_set_fqdn true cname else cname in
      let ttl := local_ttl (ctx_cfg ctx) in
      let cname_record := mkRr (q_name (req_query req)) (as_u32 ttl) (RCNAME cname) in
      if q_type (req_query req) =? TYPE_CNAME
      then Return (ctx, Ok (new_with_deadline (req_query req) [cname_record] (now + secs ttl)))
      else
        let new_ctx := ctx_new hash wm cname (ctx_cfg ctx) (ctx_server_opts ctx) in
        NextRun new_ctx (with_cname req cname) (fun _ res =>
          match res with
          | Ok lookup =>
              Return (ctx, Ok (resp_mut (fun m => msg_set_answers (cname_record :: msg_answers m) m)
                                 (resp_mut (msg_set_queries [req_query req]) lookup)))
          | Err err => Return (ctx, Err err)
          end)
  | None => pass_on ctx req
  end.
Definition cname_handle (now : Instant) ctx req next : Ctx * Res := answered next (cname_run now ctx req).

(** The name a CNAME rule leads to, as the answer gives it. *)
Definition absolute (n : Name) : Name := if name_is_fqdn n then n else name_set_fqdn true n.

(** Without a target the chain goes on with the query as it is. With one, a
    CNAME query gets the CNAME record alone, and any other query becomes the
    same query for the target, in a context of the target's own rule under the
    same configuration and options: its records are answered after the CNAME
    record, under the client's question, with its authorities and its code; its
    error is the error. The client's context is not changed. *)
Theorem cname_handle_answers (now : Instant) ctx req next :
  match cname_target ctx with
  | None => cname_handle now ctx req next = next ctx req
  | Some n =>
      let record := mkRr (q_name (req_query req)) (as_u32 (local_ttl (ctx_cfg ctx))) (RCNAME (absolute n)) in
      (cname_handle now ctx req next).1 = ctx ∧
      match (cname_handle now ctx req next).2 with
      | Ok r =>
          if q_type (req_query req) =? TYPE_CNAME then answers r = msg_answers msg_fresh ++ [record]
          else ∃ lookup,
            (next (ctx_new hash wm (absolute n) (ctx_cfg ctx) (ctx_server_opts ctx)) (with_cname req (absolute n))).2
              = Ok lookup ∧
            answers r = record :: answers lookup ∧ msg_queries (resp_message r) = [req_query req] ∧
            authorities r = authorities lookup ∧ resp_code r = resp_code lookup ∧
            prepared_wire r = None ∧ valid_until r = valid_until lookup
      | Err e =>
          q_type (req_query req) ≠ TYPE_CNAME ∧
          (next (ctx_new hash wm (absolute n) (ctx_cfg ctx) (ctx_server_opts ctx)) (with_cname req (absolute n))).2 = Err e
      end
  end.
Proof.
  unfold cname_handle, cname_run. destruct (cname_target ctx) as [n|]; [|by rewrite answered_pass_on]. cbn zeta.
  replace (if negb (name_is_fqdn n) then name_set_fqdn true n else n) with (absolute n)
    by (unfold absolute; by destruct (name_is_fqdn n)).
  destruct (Z.eqb_spec (q_type (req_query req)) TYPE_CNAME) as [Ht|Ht]; [by split|].
  cbn [answered]. destruct (next _ _) as [ctx' [lookup|e]]; (split; [done|]); [|done]. by exists lookup.
Qed.

(** A rule that is set to ignore the CNAME of its parent takes it. *)
Lemma cname_ignore_falls_through ctx (own parent : DomainRule Name) z n :
  ctx_domain_rule ctx = Some (mkNode own (Some (mkNode parent z))) →
  cname own = Some Ignore → cname parent = Some (Value n) → cname_target ctx = Some n.
Proof.
  intros Hc Ho Hp. unfold cname_target. rewrite Hc. cbn. unfold node_get, cname_value. cbn. by rewrite Ho, Hp.
Qed.

(** ** DNS64 *)
Definition dns64_rr (net : Ipv6Net) (r : Rr Name) : Rr Name :=
  match rdata_ip_addr (rr_data r) with
  | Some (V4 ipv4) => mkRr (rr_name r) (rr_ttl_secs r) (RAAAA (to_dns64 net ipv4))
  | _ => r
  end.

Definition set_first_query (t : RecordType) (l : list (Query Name)) : list (Query Name) :=
  match l with q :: l => mkQuery (q_name q) t (q_class q) :: l | [] => [] end.

(** [Dns64Middleware::handle] *)
Definition dns64_run (net : Ipv6Net) ctx req : Handling Name Ctx (Ctx * Res) :=
  if q_type (req_query req) =? TYPE_AAAA then
    NextRun ctx req (fun ctx res =>
      match res with
      | Ok _ => Return (ctx, res)
      | Err err =>
          let msg := req_message req in
          match msg_queries msg with
          | [] => Return (ctx, Err err)
          | _ =>
              let req4 := req_new (msg_set_queries (set_first_query TYPE_A (msg_queries msg)) msg) (req_src req)
                            (req_protocol req) in
              NextRun ctx req4 (fun ctx res4 =>
                match res4 with
                | Err _ => Return (ctx, Err err)
                | Ok lookup =>
                    let lookup := resp_mut (fun m => msg_set_answers (dns64_rr net <$> msg_answers m) m) lookup in
                    Return (ctx, Ok (resp_mut (fun m => msg_set_queries
                                        (set_first_query (q_type (req_query req)) (msg_queries m)) m) lookup))
                end)
          end
      end)
  else pass_on ctx req.
Definition dns64_handle (net : Ipv6Net) ctx req next : Ctx * Res := answered next (dns64_run net ctx req).

(** Only a query for IPv6 addresses that fails is synthesised. The answer is
    then that of the same question for IPv4 addresses with each IPv4 address
    replaced and every other record, name and TTL kept; the question says AAAA
    again. If that fails too, the first error is the answer. *)
Theorem dns64_handle_answers (net : Ipv6Net) ctx req next :
  let first := next ctx req in
  let out := dns64_handle net ctx req next in
  if negb (q_type (req_query req) =? TYPE_AAAA) || is_ok first.2 || bool_decide (msg_queries (req_message req) = [])
  then out = first
  else
    let second := next first.1 (req_new (msg_set_queries (set_first_query TYPE_A (msg_queries (req_message req)))
                    (req_message req)) (req_src req) (req_protocol req)) in
    out.1 = second.1 ∧
    match second.2 with
    | Err _ => out.2 = first.2
    | Ok lookup =>
        ∃ r, out.2 = Ok r ∧ answers r = dns64_rr net <$> answers lookup ∧
          msg_queries (resp_message r) = set_first_query TYPE_AAAA (msg_queries (resp_message lookup)) ∧
          authorities r = authorities lookup ∧ resp_code r = resp_code lookup
    end.
Proof.
  intros first out. subst out. unfold dns64_handle, dns64_run.
  destruct (Z.eqb_spec (q_type (req_query req)) TYPE_AAAA) as [Ht|Ht]; cbn [negb orb]; [|by rewrite answered_pass_on].
  subst first. cbn [answered]. destruct (next ctx req) as [ctx1 [r|e]]; cbn [fst snd is_ok orb]; [done|].
  destruct (msg_queries (req_message req)) as [|q l] eqn:Eq; [done|]. rewrite bool_decide_false by done.
  cbn [answered]. destruct (next ctx1 _) as [ctx2 [lookup|e2]]; cbn [fst snd]; [|done]. split; [done|].
  rewrite Ht. by eexists.
Qed.
End RewriteMw.
