(* ===== verification/DualstackMw.v ===== *)
(** * Choosing between IPv4 and IPv6 ([dns_mw_dualstack.rs])

    A query for the addresses of one family also asks for the other's, and is
    answered without records when the other is faster, or, with a preference for
    IPv4, when there is a usable IPv4 address. *)

From S2P Require Import Prelude Names DomainMap Config DomainRule DomainRuleTree IpSet Message Runtime Context Calls Samples Tasks Probe.

Section DualstackMw.
Context {Name : Type} `{NameLib Name} `{MsgLib Name}.
Context {RM : Type → Type} `{RangeMapLib RM} `{NL : NetLib} `{FL : FuturesLib}.
Variable probe : Instant → PingAddr → Z * result Z PingError.
Context {Fut : Type}.

Abbreviation Ctx := (DnsContext Name RM Fut).
Abbreviation Req := (DnsRequest Name).
Abbreviation Resp := (DnsResponse Name).
Abbreviation Res := (result Resp (LookupError Name)).
(** The rest of the chain, started at an instant: the context it leaves, and
    when it ends with what. *)
Abbreviation AsyncNext := (Instant → Ctx → Req → Ctx * Task Res).
Implicit Types (ctx : Ctx) (req : Req) (next : AsyncNext).

(** The answer without records. *)
Definition nodata_response (now : Instant) req (ttl : Z) : Resp :=
  let query := req_query req in
  resp_mut (msg_add_authority (mkRr (q_name query) ttl (RSOA default_soa))) (new_with_max_ttl now query []).

(** Probe modes that can tell which address is faster. *)
Definition usable_modes (modes : option SpeedCheckModeList) : option SpeedCheckModeList :=
  opt_filter (fun modes => negb (bool_decide (modes = [])) && negb (existsb mode_is_none modes)) modes.

Definition ds_modes ctx : option SpeedCheckModeList :=
  usable_modes (opt_or (ctx_rule_get speed_check_mode ctx) (cfg_speed_check_mode (ctx_cfg ctx))).

(** [multi_mode_ping_fastest] of this file: the address and its delay. *)
Definition ds_ping (now : Instant) (ips : list IpAddr) (modes : list SpeedCheckMode)
    : Task (option (IpAddr * Z)) :=
  let '(t, out) := multi_mode_ping_fastest probe now ips modes in
  (t, (fun out => (ping_ip (dest out), elapsed out)) <$> out).

(** When it is known, and whether the other family is faster by more than the threshold. *)
Definition which_faster (now : Instant) (this that : Resp) (modes : list SpeedCheckMode) (threshold : Z)
    : Task bool :=
  match probe_result this, probe_result that with
  | Measured a, Measured b => (now, threshold <? saturating_sub a b)
  | Failed, Measured _ => (now, true)
  | Measured _, Failed => (now, false)
  | _, _ =>
      let this_ping := ds_ping now (ip_addrs this) modes in
      let that_ping := ds_ping now (ip_addrs that) modes in
      if this_ping.1 <=? that_ping.1 then (this_ping.1, false)
      else match that_ping.2 with
           | None => (that_ping.1, false)
           | Some (_, that_dura) =>
               (this_ping.1,
                match this_ping.2 with
                | Some (_, this_dura) => (that_dura <? this_dura) && (threshold <? this_dura - that_dura)
                | None => true
                end)
           end
  end.

(** ** Preferring IPv4 *)
Definition ttl_limit ctx : Z :=
  let rule := ctx_rule_get (fun r => opt_or (rr_ttl_max r) (rr_ttl r)) ctx in
  let limits := [opt_or rule (cfg_rr_ttl_max (ctx_cfg ctx)); rr_ttl_reply_max (ctx_cfg ctx)] in
  Z.min (opt_unwrap_or u32_max (list_min (omap id limits))) u32_max.

Definition ipv4_usable (now : Instant) (r : Resp) (modes : option SpeedCheckModeList) : Task bool :=
  let addresses := filter (fun i => is_ipv4 i = true) (ip_addrs r) in
  match addresses with
  | [] => (now, false)
  | _ =>
      match probe_result r with
      | Measured _ => (now, true)
      | Failed => (now, false)
      | Unchecked =>
          match modes with
          | Some modes => let '(t, out) := ds_ping now addresses modes in (t, is_some out)
          | None => (now, true)
          end
      end
  end.

(** A lookup that runs beside another: both begin at the same time, and of its
    context nothing is kept. *)
Abbreviation TimedW := (Instant * Ctx)%type.
Definition beside (now : Instant) ctx req {A} (k : Task Res → Handling Name TimedW A) : Handling Name TimedW A :=
  NextRun (now, ctx_set_dualstack true (ctx_clone ctx)) req (fun '(t, _) res => k (t, res)).

(** What the lookup of the IPv4 addresses gives: the TTL of the preference, if there
    is one. *)
Definition prefer_ipv4_lookup ctx (response : Task Res) : Task (option Z) :=
  let modes := if no_speed_check (ctx_server_opts ctx) then None else ds_modes ctx in
  let '(t, response) := response in
  match response with
  | Ok r =>
      let '(t, usable) := ipv4_usable t r modes in
      (t, if usable then Some (Z.min (opt_unwrap_or 0 (min_ttl r)) (ttl_limit ctx)) else None)
  | Err _ => (t, None)
  end.

Definition prefer_ipv4 (now : Instant) ctx req : Handling Name TimedW (Ctx * Task Res) :=
  NextRun (now, ctx) req (fun '(t6, ctx') res6 =>
  beside now ctx (set_query_type req TYPE_A) (fun response =>
  let ipv6 := (t6, res6) in
  let ipv4 := prefer_ipv4_lookup ctx response in
  Return
  (ctx',
   if ipv4.1 <=? ipv6.1 then
     match ipv4.2 with
     | Some ttl => (ipv4.1, Ok (nodata_response ipv4.1 req ttl))
     | None => ipv6
     end
   else
     match ipv4.2 with
     | Some ttl => (ipv4.1, Ok (nodata_response ipv4.1 req ttl))
     | None => (ipv4.1, ipv6.2)
     end))).

(** ** The middleware *)
Definition dualstack_selection ctx : bool :=
  opt_unwrap_or (cfg_dualstack_ip_selection (ctx_cfg ctx))
    (n ← ctx_domain_rule ctx; dualstack_ip_selection (node_rule n)).

Definition that_type (t : RecordType) : RecordType :=
  if t =? TYPE_A then TYPE_AAAA else if t =? TYPE_AAAA then TYPE_A else t.

(** The comparison of the two lookups. *)
Definition dual_select (now : Instant) ctx req (modes : SpeedCheckModeList) (prefer_that : bool)
    : Handling Name TimedW (Ctx * Task Res) :=
  let threshold := millis (dualstack_ip_selection_threshold (ctx_cfg ctx)) in
  let ttl := as_u32 (local_ttl (ctx_cfg ctx)) in
  let query_type := q_type (req_query req) in
  NextRun (now, ctx) req (fun '(t, ctx') res =>
  beside now ctx (set_query_type req (that_type query_type)) (fun that =>
  let this := (t, res) in
  let choose (t : Instant) (a b : Resp) : Task Res :=
    let '(t, that_faster) := which_faster t a b modes threshold in
    if that_faster && (prefer_that || (query_type =? TYPE_AAAA))
    then (t, Ok (nodata_response t req ttl)) else (t, Ok a) in
  Return
  (ctx',
   if this.1 <=? that.1 then
     match this.2 with
     | Ok a =>
         if that.1 <=? this.1 + threshold then
           match that.2 with
           | Ok b => choose that.1 a b
           | Err _ => (that.1, Ok a)
           end
         else (this.1 + threshold, Ok a)
     | Err err => (this.1, Err err)
     end
   else
     match that.2 with
     | Ok b => match this.2 with Ok a => choose this.1 a b | Err err => (this.1, Err err) end
     | Err _ => this
     end))).

(** [next.run], with the time it takes. *)
Definition passes (now : Instant) ctx req : Handling Name TimedW (Ctx * Task Res) :=
  NextRun (now, ctx) req (fun '(t, ctx) res => Return (ctx, (t, res))).

Definition dualstack_run (now : Instant) ctx req : Handling Name TimedW (Ctx * Task Res) :=
  let query_type := q_type (req_query req) in
  let cfg := ctx_cfg ctx in
  if no_dualstack_selection (ctx_server_opts ctx) then passes now ctx req else
  if negb (is_ip_addr query_type) then passes now ctx req else
  if dualstack_ip_prefer_ipv4 cfg then
    if query_type =? TYPE_A then passes now ctx req else prefer_ipv4 now ctx req
  else
  if no_speed_check (ctx_server_opts ctx) then passes now ctx req else
  let is_a := query_type =? TYPE_A in
  if is_a && negb (dualstack_ip_allow_force_aaaa cfg) then passes now ctx req else
  if negb (dualstack_selection ctx) then passes now ctx req else
  match ds_modes ctx with
  | None => passes now ctx req
  | Some modes => dual_select now ctx req modes is_a
  end.

(** With a rest of the chain that takes its time. *)
Definition timed next (w : TimedW) req : TimedW * Res :=
  let '(ctx, (t, res)) := next w.1 w.2 req in ((t, ctx), res).
Definition dualstack_handle (now : Instant) ctx req next : Ctx * Task Res :=
  answered (timed next) (dualstack_run now ctx req).

(** ** What is answered *)

(** The lookups of the family asked for and of the other. *)
Abbreviation this_lookup now ctx req next := (next now ctx req).2.
Abbreviation that_lookup now ctx req next :=
  (next now (ctx_set_dualstack true (ctx_clone ctx)) (set_query_type req (that_type (q_type (req_query req))))).2.

(** Whether the two families are compared, and with which probes. *)
Definition compares ctx req : option SpeedCheckModeList :=
  if no_dualstack_selection (ctx_server_opts ctx) || negb (is_ip_addr (q_type (req_query req)))
     || no_speed_check (ctx_server_opts ctx)
     || ((q_type (req_query req) =? TYPE_A) && negb (dualstack_ip_allow_force_aaaa (ctx_cfg ctx)))
     || negb (dualstack_selection ctx)
  then None else ds_modes ctx.

(** Without a preference for IPv4, whichever of the two lookups ends first, a
    query is answered without records exactly when both have succeeded, the other
    family's within the threshold after this one's, and the other family is the
    faster one; and otherwise with its own result, at the latest one threshold
    and the comparison after it is there, or when no comparison is made, at once. *)
Theorem dualstack_decides (now : Instant) ctx req next :
  dualstack_ip_prefer_ipv4 (ctx_cfg ctx) = false →
  0 ≤ dualstack_ip_selection_threshold (ctx_cfg ctx) →
  let threshold := millis (dualstack_ip_selection_threshold (ctx_cfg ctx)) in
  let this := this_lookup now ctx req next in
  let that := that_lookup now ctx req next in
  let out := (dualstack_handle now ctx req next).2 in
  (dualstack_handle now ctx req next).1 = (next now ctx req).1 ∧
  match compares ctx req with
  | None => out = this
  | Some modes =>
      match this.2, that.2 with
      | Ok a, Ok b =>
          let '(t, faster) := which_faster (Z.max this.1 that.1) a b modes threshold in
          if that.1 <=? this.1 + threshold then
            out = (t, Ok (if faster then nodata_response t req (as_u32 (local_ttl (ctx_cfg ctx))) else a))
          else out = (this.1 + threshold, Ok a)
      | _, _ => out.2 = this.2
      end
  end.
Proof.
  intros Hpref Hth. cbn zeta. set (threshold := millis _) in *.
  assert (Hth' : 0 ≤ threshold) by (unfold threshold, millis; lia).
  assert (Hsel : ∀ modes, is_ip_addr (q_type (req_query req)) = true →
    (answered (timed next) (dual_select now ctx req modes (q_type (req_query req) =? TYPE_A))).1 = (next now ctx req).1 ∧
    match (this_lookup now ctx req next).2, (that_lookup now ctx req next).2 with
    | Ok a, Ok b =>
        let '(t, faster) := which_faster (Z.max (this_lookup now ctx req next).1 (that_lookup now ctx req next).1)
                              a b modes threshold in
        if (that_lookup now ctx req next).1 <=? (this_lookup now ctx req next).1 + threshold then
          (answered (timed next) (dual_select now ctx req modes (q_type (req_query req) =? TYPE_A))).2 =
            (t, Ok (if faster then nodata_response t req (as_u32 (local_ttl (ctx_cfg ctx))) else a))
        else (answered (timed next) (dual_select now ctx req modes (q_type (req_query req) =? TYPE_A))).2 =
            ((this_lookup now ctx req next).1 + threshold, Ok a)
    | _, _ => (answered (timed next) (dual_select now ctx req modes (q_type (req_query req) =? TYPE_A))).2.2 =
                (this_lookup now ctx req next).2
    end).
  { intros modes Hip. unfold dual_select, beside. fold threshold. cbn [answered]. unfold timed. cbn [fst snd].
    destruct (next now ctx req) as [ctx' [t1 this]]. cbn [answered fst snd].
    destruct (next now (ctx_set_dualstack true (ctx_clone ctx)) _) as [ctx2 [t2 that]]. cbn [answered fst snd].
    split; [done|].
    assert (Htype : ((q_type (req_query req) =? TYPE_A) || (q_type (req_query req) =? TYPE_AAAA)) = true) by done.
    rewrite Htype. destruct (Z.leb_spec t1 t2).
    - rewrite Z.max_r by done. destruct this as [a|e]; [|by destruct that].
      destruct (Z.leb_spec t2 (t1 + threshold)).
      + destruct that as [b|e]; [|done]. destruct (which_faster _ _ _ _ _) as [t []]; done.
      + destruct that as [b|e]; [|done]. by destruct (which_faster _ _ _ _ _) as [t f].
    - rewrite Z.max_l by lia. destruct that as [b|e]; [|by destruct this].
      destruct this as [a|e]; [|done]. destruct (which_faster _ _ _ _ _) as [t []]; cbn [andb];
        by rewrite (proj2 (Z.leb_le t2 (t1 + threshold))) by lia. }
  assert (Hpass : answered (timed next) (passes now ctx req) = next now ctx req).
  { cbn. unfold timed. cbn. by destruct (next now ctx req) as [ctx' [t res]]. }
  unfold dualstack_handle, dualstack_run, compares. rewrite Hpref.
  destruct (no_dualstack_selection _); [by rewrite Hpass|]. cbn [orb].
  destruct (is_ip_addr (q_type (req_query req))) eqn:Hip; cbn [negb orb]; [|by rewrite Hpass].
  destruct (no_speed_check _); cbn [orb]; [by rewrite Hpass|].
  destruct ((q_type (req_query req) =? TYPE_A) && negb (dualstack_ip_allow_force_aaaa (ctx_cfg ctx)));
    cbn [orb]; [by rewrite Hpass|].
  destruct (dualstack_selection ctx); cbn [negb]; [|by rewrite Hpass].
  destruct (ds_modes ctx) as [modes|]; [|by rewrite Hpass]. by apply Hsel.
Qed.

(** With a preference for IPv4, a query for IPv6 addresses is answered without
    records exactly when the lookup of the IPv4 addresses gives a usable one, and
    otherwise with its own result, whichever lookup ends first; the preference is
    not kept longer than the IPv4 answer it rests on, and its TTL fits 32 bits. *)
Theorem prefer_ipv4_decides (now : Instant) ctx req next :
  let that := (next now (ctx_set_dualstack true (ctx_clone ctx)) (set_query_type req TYPE_A)).2 in
  let ipv4 := prefer_ipv4_lookup ctx that in
  let ipv6 := this_lookup now ctx req next in
  let out := answered (timed next) (prefer_ipv4 now ctx req) in
  out.1 = (next now ctx req).1 ∧
  match ipv4.2 with
  | Some ttl =>
      out.2 = (ipv4.1, Ok (nodata_response ipv4.1 req ttl)) ∧ ttl ≤ u32_max ∧
      ∃ r, that.2 = Ok r ∧ existsb is_ipv4 (ip_addrs r) = true ∧ probe_result r ≠ Failed ∧
        ttl ≤ opt_unwrap_or 0 (min_ttl r)
  | None => out.2 = (Z.max ipv4.1 ipv6.1, ipv6.2)
  end.
Proof.
  cbn zeta. unfold prefer_ipv4, beside. cbn [answered]. unfold timed. cbn [fst snd].
  assert (Hv4 : ∀ that ttl, (prefer_ipv4_lookup ctx that).2 = Some ttl → ttl ≤ u32_max ∧
    ∃ r, that.2 = Ok r ∧
      existsb is_ipv4 (ip_addrs r) = true ∧ probe_result r ≠ Failed ∧ ttl ≤ opt_unwrap_or 0 (min_ttl r)).
  { intros [t [r|e]] ttl; unfold prefer_ipv4_lookup; [|done].
    unfold ipv4_usable. cbn [snd].
    destruct (filter (fun i => is_ipv4 i = true) (ip_addrs r)) as [|i l] eqn:Ef; [done|].
    assert (Hex : existsb is_ipv4 (ip_addrs r) = true).
    { apply existsb_exists. exists i. assert (Hi : i ∈ filter (fun i => is_ipv4 i = true) (ip_addrs r)).
      { rewrite Ef. by left. }
      apply list_elem_of_filter in Hi as [? Hi]. split; [by apply list_elem_of_In|done]. }
    destruct (probe_result r) eqn:Ep.
    - destruct (if no_speed_check _ then None else ds_modes ctx) as [modes|].
      + destruct (ds_ping _ _ _) as [t' [out|]]; [|done]. cbn. intros [= <-]. unfold ttl_limit. split; [lia|].
        exists r. rewrite Ep. repeat split; [done|done|lia].
      + intros [= <-]. unfold ttl_limit. split; [lia|]. exists r. rewrite Ep. repeat split; [done|done|lia].
    - done.
    - intros [= <-]. unfold ttl_limit. split; [lia|]. exists r. rewrite Ep. repeat split; [done|done|lia]. }
  destruct (next now ctx req) as [ctx' [t6 res6]]. cbn [answered fst snd].
  destruct (next now (ctx_set_dualstack _ _) _) as [ctx2 [t4' res4]]. cbn [answered fst snd]. split; [done|].
  specialize (Hv4 (t4', res4)). unfold Instant in *. destruct (prefer_ipv4_lookup ctx (t4', res4)) as [t4 [ttl|]]; cbn [fst snd] in *.
  - split; [by destruct (t4 <=? t6)|]. by apply Hv4.
  - destruct (Z.leb_spec t4 t6); [by rewrite Z.max_r by lia|by rewrite Z.max_l by lia].
Qed.
End DualstackMw.

(** ** A concrete query: IPv4 is 55 ms faster *)
#[local] Existing Instance FirstReady_lib.

Definition dual_inner : ConfigInner :=
  mkConfig None cache_default [] [] [] [] (Some [SPing]) None None [] (Some true) None None None None None None None
    None None None None None ∅ [] [] None.
Definition dual_ctx : DnsContext PlainName list_rm unit := sample_ctx dual_inner None.

Definition dual_probe (now : Instant) (d : PingAddr) : Z * result Z PingError := (0, Err PingTimeout).

Definition dual_next (now : Instant) (ctx : DnsContext PlainName list_rm unit) (req : DnsRequest PlainName)
    : DnsContext PlainName list_rm unit * Task (result (DnsResponse PlainName) (LookupError PlainName)) :=
  (ctx, if q_type (req_query req) =? TYPE_A
        then (millis 9, Ok (with_probe_result (sample_resp [1] 60) (Measured (millis 5))))
        else (millis 4, Ok (with_probe_result (sample_resp [] 60) (Measured (millis 60))))).

Lemma dualstack_decides_witness :
  (dualstack_handle dual_probe 0 dual_ctx (sample_req TYPE_AAAA) dual_next).1 = dual_ctx ∧
  (dualstack_handle dual_probe 0 dual_ctx (sample_req TYPE_AAAA) dual_next).2 =
    (millis 9, Ok (nodata_response (millis 9) (sample_req TYPE_AAAA) (as_u32 (local_ttl (ctx_cfg dual_ctx))))).
Proof.
  pose proof (dualstack_decides dual_probe 0 dual_ctx (sample_req TYPE_AAAA) dual_next eq_refl
    ltac:(vm_compute; discriminate)) as [Hctx Hout].
  split; [exact Hctx|]. vm_compute in Hout |- *. exact Hout.
Defined.
