(* ===== verification/App.v ===== *)
(** * The application ([app.rs], [server/mod.rs])

    The dispatcher that runs queries for the listeners, the listeners that follow
    the configuration, and the chain of middlewares it calls for. *)

From S2P Require Import Prelude Names Config DomainRule Message Context DnsUrl Reply.

(** ** The dispatcher

    Queries of clients run at once. Queries of the background (prefetching, speed
    checks) run sixteen at a time, and none when no client has asked for half an
    hour. Times are milliseconds since the start. *)
Definition MAX_IDLE_MS : Z := 30 * 60 * 1000.
Definition BACKGROUND_CONCURRENCY : Z := 16.

Record QueryDispatcher := mkDispatcher {
  qd_active_queries : Z;
  qd_idle_deadline_ms : Z;
  qd_background_permits : Z;
  (** background queries that wait for a permit *)
  qd_waiting : Z;
}.
Definition dispatcher_new : QueryDispatcher := mkDispatcher 0 MAX_IDLE_MS BACKGROUND_CONCURRENCY 0.

Inductive Dispatch := Refuse | Wait | Run.

(** [QueryDispatcher::send] up to [process]. *)
Definition send_start (elapsed_ms : Z) (is_background : bool) (d : QueryDispatcher) : QueryDispatcher * Dispatch :=
  if is_background then
    if qd_idle_deadline_ms d <=? elapsed_ms then (d, Refuse)
    else if 0 <? qd_background_permits d then
      (mkDispatcher (qd_active_queries d + 1) (qd_idle_deadline_ms d) (qd_background_permits d - 1) (qd_waiting d), Run)
    else (mkDispatcher (qd_active_queries d) (qd_idle_deadline_ms d) (qd_background_permits d) (qd_waiting d + 1), Wait)
  else
    (mkDispatcher (qd_active_queries d + 1) (Z.max (qd_idle_deadline_ms d) (elapsed_ms + MAX_IDLE_MS))
       (qd_background_permits d) (qd_waiting d), Run).

(** The end of a query: the guard of the count is dropped, then the permit, which
    goes to a query that waits. *)
Definition send_end (is_background : bool) (d : QueryDispatcher) : QueryDispatcher :=
  let active := qd_active_queries d - 1 in
  if is_background then
    if 0 <? qd_waiting d then
      mkDispatcher (active + 1) (qd_idle_deadline_ms d) (qd_background_permits d) (qd_waiting d - 1)
    else mkDispatcher active (qd_idle_deadline_ms d) (qd_background_permits d + 1) (qd_waiting d)
  else mkDispatcher active (qd_idle_deadline_ms d) (qd_background_permits d) (qd_waiting d).

(** A query that waits for a permit is dropped by its caller. *)
Definition send_cancel (d : QueryDispatcher) : QueryDispatcher :=
  mkDispatcher (qd_active_queries d) (qd_idle_deadline_ms d) (qd_background_permits d) (qd_waiting d - 1).

(** *** Runs of the dispatcher *)
Record Load := mkLoad { ld_dispatcher : QueryDispatcher; ld_foreground : Z; ld_background : Z; ld_last : Z }.

(** [ld_last]: the latest time of a query of a client, or the start. *)
Inductive load_step : Load → Load → Prop :=
| load_foreground l t d :
    0 ≤ t → send_start t false (ld_dispatcher l) = (d, Run) →
    load_step l (mkLoad d (ld_foreground l + 1) (ld_background l) (Z.max (ld_last l) t))
| load_refused l t d :
    send_start t true (ld_dispatcher l) = (d, Refuse) → load_step l (mkLoad d (ld_foreground l) (ld_background l) (ld_last l))
| load_wait l t d :
    send_start t true (ld_dispatcher l) = (d, Wait) → load_step l (mkLoad d (ld_foreground l) (ld_background l) (ld_last l))
| load_background l t d :
    send_start t true (ld_dispatcher l) = (d, Run) → load_step l (mkLoad d (ld_foreground l) (ld_background l + 1) (ld_last l))
| load_cancel l :
    0 < qd_waiting (ld_dispatcher l) →
    load_step l (mkLoad (send_cancel (ld_dispatcher l)) (ld_foreground l) (ld_background l) (ld_last l))
| load_end_foreground l :
    0 < ld_foreground l →
    load_step l (mkLoad (send_end false (ld_dispatcher l)) (ld_foreground l - 1) (ld_background l) (ld_last l))
| load_end_background l :
    0 < ld_background l →
    load_step l (mkLoad (send_end true (ld_dispatcher l)) (ld_foreground l)
      (if 0 <? qd_waiting (ld_dispatcher l) then ld_background l else ld_background l - 1) (ld_last l)).

Definition load_start : Load := mkLoad dispatcher_new 0 0 0.

Inductive load_reachable : Load → Prop :=
| load_reach_start : load_reachable load_start
| load_reach_step l l' : load_reachable l → load_step l l' → load_reachable l'.

Record load_ok (l : Load) : Prop := {
  lo_active : qd_active_queries (ld_dispatcher l) = ld_foreground l + ld_background l;
  lo_permits : qd_background_permits (ld_dispatcher l) + ld_background l = BACKGROUND_CONCURRENCY;
  lo_waiting : 0 < qd_waiting (ld_dispatcher l) → qd_background_permits (ld_dispatcher l) = 0;
  lo_bounds : 0 ≤ ld_foreground l ∧ 0 ≤ ld_background l ∧ 0 ≤ qd_background_permits (ld_dispatcher l) ∧ 0 ≤ qd_waiting (ld_dispatcher l);
  lo_deadline : qd_idle_deadline_ms (ld_dispatcher l) = ld_last l + MAX_IDLE_MS;
}.

Lemma load_ok_step l l' : load_ok l → load_step l l' → load_ok l'.
Proof.
  intros [Ha Hp Hw Hb Hd] Hs. unfold BACKGROUND_CONCURRENCY, MAX_IDLE_MS in *.
  destruct Hs as [l t d Ht Hs|l t d Hs|l t d Hs|l t d Hs|l Hl|l Hl|l Hl]; unfold send_start, send_end, send_cancel in *.
  - injection Hs as <-. split; cbn; unfold BACKGROUND_CONCURRENCY, MAX_IDLE_MS; lia.
  - repeat case_match; simplify_eq. by split.
  - repeat case_match; simplify_eq. split; cbn; unfold BACKGROUND_CONCURRENCY, MAX_IDLE_MS; lia.
  - repeat case_match; simplify_eq. split; cbn; unfold BACKGROUND_CONCURRENCY, MAX_IDLE_MS; lia.
  - split; cbn; unfold BACKGROUND_CONCURRENCY, MAX_IDLE_MS; lia.
  - split; cbn; unfold BACKGROUND_CONCURRENCY, MAX_IDLE_MS; lia.
  - destruct (Z.ltb_spec 0 (qd_waiting (ld_dispatcher l))); split; cbn; unfold BACKGROUND_CONCURRENCY, MAX_IDLE_MS; lia.
Qed.

(** C20: under any interleaving, the count of active queries is exact; at most
    sixteen background queries run, and one waits only while sixteen do; a
    background query is refused exactly when the last query of a client, or the
    start, is half an hour ago or more. *)
Theorem dispatcher_bounds l :
  load_reachable l →
  let d := ld_dispatcher l in
  qd_active_queries d = ld_foreground l + ld_background l ∧ 0 ≤ ld_background l ≤ 16 ∧
  (0 < qd_waiting d → ld_background l = 16) ∧
  (∀ t, (send_start t true d).2 = Refuse ↔ ld_last l + MAX_IDLE_MS ≤ t) ∧
  (∀ t, (send_start t false d).2 = Run).
Proof.
  intros Hr. assert (Hok : load_ok l).
  { induction Hr as [|l l' _ IH Hs]; [|by eapply load_ok_step]. split; cbn; unfold BACKGROUND_CONCURRENCY; lia. }
  destruct Hok as [Ha Hp Hw Hb Hd]. unfold BACKGROUND_CONCURRENCY in *. cbn zeta.
  split; [lia|]. split; [lia|]. split; [intros; specialize (Hw ltac:(done)); lia|]. split; [|done].
  intros t. unfold send_start. rewrite Hd. destruct (Z.leb_spec (ld_last l + MAX_IDLE_MS) t); [by split|].
  destruct (0 <? _); split; (done || lia).
Qed.

(** ** Source addresses ([sanitize_src_address]) *)
Definition src_address_ok (src : SocketAddr) : bool :=
  negb (sa_port src =? 0) &&
  match sa_ip src with
  | V4 a => negb (a =? 0) && negb (a =? u32_max)
  | V6 a => negb (a =? 0)
  end.

(** ** Listeners *)

(** The options of the queries of a listener. *)
Definition listener_opts (bind : BindAddrConfig) : ServerOpts :=
  let o := bind_server_opts bind in
  mkOpts (so_ddr o) (Some (bind_sock_addr bind)) (so_ipset o) (so_nftset o) (so_group o) (so_rule_group o)
    (so_no_rule_addr o) (so_no_rule_nameserver o) (so_no_rule_ipset o) (so_no_speed_check o) (so_no_cache o)
    (so_no_rule_soa o) (so_no_dualstack_selection o) (so_force_aaaa_soa o) (so_force_https_soa o)
    (so_no_serve_expired o) (so_is_background o).

#[global] Instance BindAddr_eq_dec : EqDecision BindAddr.
Proof. solve_decision. Defined.
#[global] Instance SslConfig_eq_dec : EqDecision SslConfig.
Proof. solve_decision. Defined.
#[global] Instance Bind_eq_dec : EqDecision Bind.
Proof. solve_decision. Defined.
#[global] Instance BindAddrConfig_eq_dec : EqDecision BindAddrConfig.
Proof. solve_decision. Defined.

(** A running server is known by a number. *)
Definition ServerHandle := nat.
Definition Listeners := list (BindAddrConfig * ServerHandle).

Definition listeners_get (l : Listeners) (b : BindAddrConfig) : option ServerHandle :=
  snd <$> find_first (fun x => bool_decide (x.1 = b)) l.

Definition listeners_remove (b : BindAddrConfig) (l : Listeners) : Listeners :=
  List.filter (fun x => negb (bool_decide (x.1 = b))) l.

Record ListenerState := mkListeners {
  li_running : Listeners;
  li_next : ServerHandle;
  (** the servers told to shut down *)
  li_shut : list ServerHandle;
}.

(** [server::serve]: a listener is served, its certificate cannot be used, or its
    socket cannot be bound, which panics ([bind_to]). *)
Inductive ServeResult := Serving | ServeFails | BindPanics.
#[global] Instance ServeResult_eq_dec : EqDecision ServeResult.
Proof. solve_decision. Defined.

Section Listen.
(** Whether the certificate and the key of a listener can be prepared and loaded,
    whether TLS can be set up with them, and whether the socket can be bound. *)
Variable cert_ok tls_ok : SslConfig → bool.
Variable socket_ok : BindAddrConfig → bool.

Definition bind_to (b : BindAddrConfig) (served : ServeResult) : ServeResult := if socket_ok b then served else BindPanics.

Definition serve (b : BindAddrConfig) : ServeResult :=
  match b with
  | BindUdp _ | BindTcp _ | BindHttp _ => bind_to b Serving
  | BindTls _ ssl | BindHttps _ ssl | BindQuic _ ssl | BindH3 _ ssl =>
      if cert_ok ssl then bind_to b (if tls_ok ssl then Serving else ServeFails) else ServeFails
  end.

Definition start_listener (st : ListenerState) (b : BindAddrConfig) : ListenerState :=
  mkListeners ((b, li_next st) :: listeners_remove b (li_running st)) (S (li_next st))
    (li_shut st ++ option_list (listeners_get (li_running st) b)).

(** The new listeners in turn; true: a panic left the others out. *)
Fixpoint start_listeners (new_bind_addrs : list BindAddrConfig) (st : ListenerState) : ListenerState * bool :=
  match new_bind_addrs with
  | [] => (st, false)
  | b :: new_bind_addrs =>
      match serve b with
      | Serving => start_listeners new_bind_addrs (start_listener st b)
      | ServeFails => start_listeners new_bind_addrs st
      | BindPanics => (st, true)
      end
  end.

Definition stop_listener (st : ListenerState) (b : BindAddrConfig) : ListenerState :=
  mkListeners (listeners_remove b (li_running st)) (li_next st)
    (li_shut st ++ option_list (listeners_get (li_running st) b)).

Definition new_binds (binds : list BindAddrConfig) (st : ListenerState) : list BindAddrConfig :=
  List.filter (fun b => is_none (listeners_get (li_running st) b)) binds.

Definition update_listeners (binds : list BindAddrConfig) (st : ListenerState) : ListenerState * bool :=
  let shutdowns := List.filter (fun b => negb (bool_decide (b ∈ binds))) (li_running st).*1 in
  start_listeners (new_binds binds st) (fold_left stop_listener shutdowns st).

(** *** Starting, but for those after a panic *)
Definition panics (b : BindAddrConfig) : bool := bool_decide (serve b = BindPanics).
Definition starts (b : BindAddrConfig) : bool := bool_decide (serve b = Serving).
Definition maybe_start (st : ListenerState) (b : BindAddrConfig) : ListenerState := if starts b then start_listener st b else st.
Fixpoint before_panic (l : list BindAddrConfig) : list BindAddrConfig :=
  match l with [] => [] | b :: l => if panics b then [] else b :: before_panic l end.

Lemma start_listeners_fold l st : start_listeners l st = (fold_left maybe_start (before_panic l) st, existsb panics l).
Proof.
  revert st. induction l as [|b l IH]; intros st; [done|]. cbn [start_listeners before_panic existsb].
  assert (Hp : panics b = bool_decide (serve b = BindPanics)) by done.
  assert (Hs : maybe_start st b = if bool_decide (serve b = Serving) then start_listener st b else st) by done.
  destruct (serve b); rewrite Hp; cbn [bool_decide orb]; [| |done].
  - rewrite bool_decide_false by done. cbn [fold_left orb]. by rewrite Hs, IH, bool_decide_true.
  - rewrite bool_decide_false by done. cbn [fold_left orb]. by rewrite Hs, IH, bool_decide_false.
Qed.

Lemma before_panic_all l : existsb panics l = false → before_panic l = l.
Proof. induction l as [|b l IH]; [done|]. cbn. intros [-> Hl]%orb_false_iff. by rewrite IH. Qed.

Lemma before_panic_elem l b : b ∈ before_panic l → b ∈ l.
Proof.
  induction l as [|c l IH]; [done|]. cbn. destruct (panics c); [by intros ?%not_elem_of_nil|].
  rewrite !elem_of_cons. naive_solver.
Qed.

(** *** What runs after an update *)
Lemma listeners_get_cons c h l b :
  listeners_get ((c, h) :: l) b = if bool_decide (c = b) then Some h else listeners_get l b.
Proof. unfold listeners_get. cbn. by case_bool_decide. Qed.

Lemma listeners_get_remove b b' l :
  listeners_get (listeners_remove b l) b' = if bool_decide (b = b') then None else listeners_get l b'.
Proof.
  induction l as [|[c h] l IH]; [by case_bool_decide|].
  change (listeners_remove b ((c, h) :: l)) with
    (if negb (bool_decide (c = b)) then (c, h) :: listeners_remove b l else listeners_remove b l).
  rewrite listeners_get_cons. destruct (decide (c = b)) as [E1|E1].
  - rewrite (bool_decide_true (c = b)) by done. cbn [negb]. rewrite IH, E1. by case_bool_decide.
  - rewrite (bool_decide_false (c = b)) by done. cbn [negb]. rewrite listeners_get_cons, IH.
    destruct (decide (c = b')) as [E2|E2]; [|by rewrite (bool_decide_false (c = b')) by done].
    rewrite (bool_decide_true (c = b')) by done. by rewrite bool_decide_false by congruence.
Qed.

Lemma stop_all st l b :
  listeners_get (li_running (fold_left stop_listener l st)) b =
    if bool_decide (b ∈ l) then None else listeners_get (li_running st) b.
Proof.
  revert st. induction l as [|c l IH]; intros st; cbn [fold_left].
  { by rewrite bool_decide_false by (by intros ?%elem_of_nil). }
  rewrite IH. cbn [stop_listener li_running]. rewrite listeners_get_remove.
  destruct (decide (b ∈ l)) as [E|E].
  - rewrite !bool_decide_true by (done || by right). done.
  - rewrite (bool_decide_false (b ∈ l)) by done. rewrite (bool_decide_ext (c = b) (b ∈ c :: l)); [done|].
    rewrite elem_of_cons. naive_solver.
Qed.

Lemma stop_all_next st l : li_next (fold_left stop_listener l st) = li_next st.
Proof. revert st. induction l as [|c l IH]; intros st; [done|]. cbn [fold_left]. by rewrite IH. Qed.

Lemma start_all st l b :
  match listeners_get (li_running (fold_left maybe_start l st)) b with
  | Some h => listeners_get (li_running st) b = Some h ∧ ¬ (b ∈ l ∧ starts b = true) ∨
              (b ∈ l ∧ starts b = true ∧ (li_next st ≤ h)%nat)
  | None => listeners_get (li_running st) b = None ∧ ¬ (b ∈ l ∧ starts b = true)
  end.
Proof.
  revert st. induction l as [|c l IH]; intros st; cbn [fold_left].
  { destruct (listeners_get _ b); [left|]; (split; [done|]); by intros [?%elem_of_nil _]. }
  specialize (IH (maybe_start st c)).
  assert (Hget : listeners_get (li_running (maybe_start st c)) b =
            if starts c && bool_decide (c = b) then Some (li_next st) else listeners_get (li_running st) b).
  { unfold maybe_start. destruct (starts c); [|done]. cbn [li_running andb].
    unfold start_listener; cbn [li_running]. rewrite listeners_get_cons, listeners_get_remove. by case_bool_decide. }
  assert (Hnext : (li_next st ≤ li_next (maybe_start st c))%nat) by (unfold maybe_start; destruct (starts c); cbn; lia).
  rewrite Hget in IH. destruct (listeners_get (li_running (fold_left maybe_start l (maybe_start st c))) b) as [h|].
  - destruct IH as [[Hh Hn]|(Hb & Hs & Hl)]; [|right; split; [by right|split; [done|lia]]].
    destruct (starts c) eqn:Es; cbn [andb] in Hh; [case_bool_decide as E|].
    + right. injection Hh as <-. subst c. split; [by left|split; [done|lia]].
    + left. split; [done|]. intros [[?|?]%elem_of_cons ?]; [congruence|by apply Hn].
    + left. split; [done|]. intros [[?|?]%elem_of_cons ?]; [congruence|by apply Hn].
  - destruct IH as [Hh Hn]. destruct (starts c) eqn:Es; cbn [andb] in Hh; [case_bool_decide as E; [done|]|];
      (split; [done|]); (intros [[?|?]%elem_of_cons ?]; [congruence|by apply Hn]).
Qed.

Lemma update_listeners_running binds st b :
  (∀ h, listeners_get (li_running st) b = Some h → b ∈ binds →
     listeners_get (li_running (update_listeners binds st).1) b = Some h) ∧
  (is_Some (listeners_get (li_running (update_listeners binds st).1) b) ↔
     b ∈ binds ∧ (is_Some (listeners_get (li_running st) b) ∨ b ∈ before_panic (new_binds binds st) ∧ starts b = true)).
Proof.
  unfold update_listeners. rewrite start_listeners_fold. cbn [fst]. set (new := before_panic (new_binds binds st)). set (old := List.filter _ (li_running st).*1).
  pose proof (start_all (fold_left stop_listener old st) new b) as Hs. rewrite stop_all in Hs.
  assert (Hnew : b ∈ new → b ∈ binds ∧ listeners_get (li_running st) b = None).
  { intros Hb%before_panic_elem. unfold new_binds in Hb. rewrite list_elem_of_In, filter_In, <- list_elem_of_In in Hb.
    unfold is_none in Hb. destruct (listeners_get (li_running st) b); naive_solver. }
  assert (Hold : b ∈ old ↔ b ∈ (li_running st).*1 ∧ b ∉ binds).
  { unfold old. by rewrite list_elem_of_In, filter_In, <- list_elem_of_In, negb_true_iff, bool_decide_eq_false. }
  assert (Hkey : is_Some (listeners_get (li_running st) b) → b ∈ (li_running st).*1).
  { unfold listeners_get. intros [h (x & Hx & _)%fmap_Some].
    apply find_first_Some in Hx as [Hin Hx%bool_decide_eq_true]. apply list_elem_of_fmap. by exists x. }
  set (r := listeners_get (li_running (fold_left maybe_start new (fold_left stop_listener old st))) b) in *.
  destruct (decide (b ∈ binds)) as [Hb|Hb].
  - rewrite bool_decide_false in Hs by (intros ?%Hold; naive_solver).
    destruct (listeners_get (li_running st) b) as [h|] eqn:Eg.
    + assert (b ∉ new) by (intros ?%Hnew; naive_solver).
      destruct r as [h'|]; [|by destruct Hs]. destruct Hs as [[[= ->] _]|(? & _)]; [|done].
      split; [by intros ? [= ->]|]. split; [intros _; split; [done|by left]|by eexists].
    + split; [done|]. destruct r as [h'|].
      * destruct Hs as [[? _]|(Hin & Hst & _)]; [done|]. split; [intros _; split; [done|by right]|by eexists].
      * destruct Hs as [_ Hn]. split; [by intros [? ?]|]. intros (_ & [[? ?]|Hstarts]); [done|]. by destruct Hn.
  - assert (b ∉ new) by (intros ?%Hnew; naive_solver).
    assert (r = None) as ->.
    { destruct r as [h'|]; [|done]. destruct Hs as [[Hh _]|(? & _)]; [|done].
      case_bool_decide as E; [done|]. destruct E. apply Hold. split; [apply Hkey; by eexists|done]. }
    split; [done|]. split; [by intros [? ?]|by intros [? _]].
Qed.
(** C21: After an update a listener that ran before and is still configured is the
    same server, not interrupted, and no other one runs that is not configured. Of
    the new listeners of the configuration exactly those run that can be started,
    up to the first whose socket cannot be bound: there the update panics. *)
Theorem update_listeners_follows binds st b :
  let '(st', panicked) := update_listeners binds st in
  let begun := before_panic (new_binds binds st) in
  panicked = existsb panics (new_binds binds st) ∧
  (panicked = false → begun = new_binds binds st) ∧
  (∀ h, listeners_get (li_running st) b = Some h → b ∈ binds → listeners_get (li_running st') b = Some h) ∧
  (is_Some (listeners_get (li_running st') b) ↔
     b ∈ binds ∧ (is_Some (listeners_get (li_running st) b) ∨ b ∈ begun ∧ serve b = Serving)).
Proof.
  pose proof (update_listeners_running binds st b) as [Hk Hr]. destruct (update_listeners binds st) as [st' panicked] eqn:E.
  cbn [fst] in *. assert (Hp : panicked = existsb panics (new_binds binds st)).
  { unfold update_listeners in E. rewrite start_listeners_fold in E. by injection E as _ <-. }
  split; [done|]. split; [rewrite Hp; apply before_panic_all|]. split; [done|].
  unfold starts in Hr. by rewrite bool_decide_eq_true in Hr.
Qed.
End Listen.

(** ** Concrete runs *)
Lemma dispatcher_bounds_witness :
  let l := mkLoad (mkDispatcher 2 (MAX_IDLE_MS + 500) 15 0) 1 1 500 in
  load_reachable l ∧ 0 ≤ ld_background l ≤ 16 ∧ (send_start (MAX_IDLE_MS + 500) true (ld_dispatcher l)).2 = Refuse.
Proof.
  cbn zeta. set (l := mkLoad _ _ _ _).
  assert (Hl : load_reachable l).
  { apply (load_reach_step (mkLoad (mkDispatcher 1 (MAX_IDLE_MS + 500) 16 0) 1 0 500)).
    - eapply load_reach_step; [apply load_reach_start|by apply (load_foreground load_start 500)].
    - by apply (load_background (mkLoad (mkDispatcher 1 (MAX_IDLE_MS + 500) 16 0) 1 0 500) 600). }
  destruct (dispatcher_bounds l Hl) as (_ & Hb & _ & Hr & _). split; [done|]. split; [done|]. by apply Hr.
Defined.

Definition listener_on (port : Z) : BindAddrConfig := BindUdp (mkBind BaAll port None opts_default None).

(** Of two running servers one stays; one that is no longer configured is shut
    down; of three new ones the one whose port is taken is a panic, and the one
    after it is not started. *)
Lemma update_listeners_example :
  update_listeners (fun _ => true) (fun _ => true) (fun b => negb (bind_port b =? 99))
    [listener_on 53; listener_on 54; listener_on 99; listener_on 55]
    (mkListeners [(listener_on 53, 0%nat); (listener_on 50, 1%nat)] 2%nat [])
  = (mkListeners [(listener_on 54, 2%nat); (listener_on 53, 0%nat)] 3%nat [1%nat], true).
Proof. by vm_compute. Qed.
Lemma update_listeners_follows_witness :
  listeners_get (li_running (update_listeners (fun _ => true) (fun _ => true) (fun _ => true) [listener_on 53; listener_on 54]
    (mkListeners [(listener_on 53, 7%nat)] 8%nat [])).1) (listener_on 53) = Some 7%nat.
Proof.
  pose proof (update_listeners_follows (fun _ => true) (fun _ => true) (fun _ => true) [listener_on 53; listener_on 54]
    (mkListeners [(listener_on 53, 7%nat)] 8%nat []) (listener_on 53)) as (_ & _ & Hk & _).
  apply Hk; [done|by left].
Defined.
