(* ===== verification/ConfigItems.v ===== *)
(** * Files and options of the configuration ([dns_conf.rs], [config/])

    Paths as their components, a file system as its queries, and how the name of
    a file in the configuration is resolved to a file. *)

From S2P Require Import Prelude Names Config Text DomainRule DomainRuleTree IpSet Message Runtime Context DnsUrl ClientBuild.

(** A path: whether it begins at the root, and its components ([Path] drops
    empty components and those that are one dot, except a first one). *)
Record PathBuf := mkPathBuf { pa_root : bool; pa_comps : list string }.
#[global] Instance PathBuf_eq_dec : EqDecision PathBuf.
Proof. solve_decision. Defined.
#[global] Instance PathBuf_countable : Countable PathBuf.
Proof.
  refine (inj_countable' (fun p => (pa_root p, pa_comps p)) (fun x => mkPathBuf x.1 x.2) _). by intros [].
Defined.

Definition path_join (a b : PathBuf) : PathBuf := if pa_root b then b else mkPathBuf (pa_root a) (pa_comps a ++ pa_comps b).

Definition path_parent (p : PathBuf) : option PathBuf :=
  match pa_comps p with
  | [] => None
  | l => Some (mkPathBuf (pa_root p) (take (length l - 1) l))
  end.

(** [Path::file_name]: none when the last component is a step up or [.]. *)
Definition path_file_name (p : PathBuf) : option string :=
  name ← last (pa_comps p);
  if bool_decide (name = ".."%string) || bool_decide (name = "."%string) then None else Some name.

Definition path_of_name (name : string) : PathBuf := mkPathBuf false [name].

(** [contains(['*', '?', '['])] on the text of the path. *)
Definition has_pattern (p : PathBuf) : bool :=
  existsb (fun comp => existsb (fun c => (c =? 42) || (c =? 63) || (c =? 91)) (text_of comp)) (pa_comps p).

(** ** The file system *)
Record Fs := mkFs {
  fs_is_file : PathBuf → bool;
  fs_exists : PathBuf → bool;
  fs_canonicalize : PathBuf → option PathBuf;
  (** [File::open] and the lines of the reader up to its first error *)
  fs_lines : PathBuf → option (list text);
  (** [read_to_string] *)
  fs_read : PathBuf → option text;
  (** [glob_with]: an invalid pattern, or what is found, in order, with errors *)
  fs_glob : PathBuf → option (list (option PathBuf));
  fs_current_dir : option PathBuf;
  fs_current_exe : option PathBuf;
}.

Section Resolve.
Variable fs : Fs.

Definition existing_file (p : PathBuf) : option PathBuf := if fs_is_file fs p then Some p else None.

(** The steps of [resolve_filepath] up to the last one. *)
Definition resolve_direct (filepath : PathBuf) (base_file : option PathBuf) : option PathBuf :=
  opt_or (existing_file filepath)
  (if pa_root filepath then None
   else
     base ← base_file; dir ← path_parent base;
     opt_or (existing_file (path_join dir filepath))
     (opt_or (if bool_decide (path_file_name base = Some "smartdns.conf"%string)
              then existing_file (path_join (path_join dir (path_of_name "smartdns.d")) filepath) else None)
     (opt_or (d ← fs_current_dir fs; existing_file (path_join d filepath))
             (exe ← fs_current_exe fs; d ← path_parent exe; existing_file (path_join d filepath))))).

(** [resolve_filepath]; the call for the name of the file alone ends there, as the
    name of a name is itself. *)
Definition resolve_filepath (filepath : PathBuf) (base_file : option PathBuf) : PathBuf :=
  match resolve_direct filepath base_file with
  | Some p => p
  | None =>
      match path_of_name <$> path_file_name filepath with
      | Some name =>
          if bool_decide (name = filepath) then filepath
          else
            let new_path := opt_unwrap_or name (resolve_direct name base_file) in
            if fs_is_file fs new_path then new_path else filepath
      | None => filepath
      end
  end.

(** The builder's [resolve_filepath], which also looks in the directories of the
    files that were loaded. *)
Definition resolve_in_dirs (dirs : list PathBuf) (filepath : PathBuf) (base_file : option PathBuf) : PathBuf :=
  let path := resolve_filepath filepath base_file in
  if fs_exists fs path then path
  else
    match path_file_name path with
    | None => path
    | Some name => opt_unwrap_or path (find_first (fs_is_file fs) ((fun dir => path_join dir (path_of_name name)) <$> dirs))
    end.

(** *** What is resolved is a file when any candidate is. *)
Lemma resolve_direct_file p base q : resolve_direct p base = Some q → fs_is_file fs q = true.
Proof.
  unfold resolve_direct, existing_file. intros E.
  repeat match type of E with
  | context [if ?b then _ else _] => destruct b eqn:?
  | context [mbind _ ?o] => destruct o eqn:?; cbn in E
  | context [opt_or ?x _] => destruct x eqn:?; cbn in E
  end; cbn in *; repeat (simplify_eq; try case_match); done.
Qed.

Lemma resolve_filepath_file p base :
  (resolve_filepath p base = p ∧ resolve_direct p base = None) ∨ fs_is_file fs (resolve_filepath p base) = true.
Proof.
  unfold resolve_filepath. destruct (resolve_direct p base) as [q|] eqn:E.
  { right. by eapply resolve_direct_file. }
  destruct (path_of_name <$> path_file_name p) as [name|]; [|by left].
  case_bool_decide; [by left|]. destruct (fs_is_file fs (opt_unwrap_or name _)) eqn:Ef; [by right|by left].
Qed.
End Resolve.

(** * The directives of the configuration ([config/parser/mod.rs], [config/])

    What a line of the configuration is read as, and the options that the rest of
    the program reads ([Config]); the fields on the path of a query are in
    [ConfigInner]. *)

Inductive CertificateGeneration := CertAuto | CertYes | CertNo.

Inductive DomainSetProvider :=
| DspFile (name : string) (file : PathBuf)
| DspHttp (name : string) (url : string) (interval : option Z).
Definition dsp_name (p : DomainSetProvider) : string :=
  match p with DspFile n _ | DspHttp n _ _ => n end.

Record IpSetProvider := mkIpSetProvider { isp_name : string; isp_file : PathBuf }.

Inductive ProxyProtocol := Socks5 | HttpProxy.
Record ProxyConfig := mkProxy {
  px_proto : ProxyProtocol;
  px_server : SocketAddr;
  px_username : option string;
  px_password : option string;
}.
Record NamedProxyConfig := mkNamedProxy { np_name : string; np_config : ProxyConfig }.

Section Items.
(** Types of libraries: the levels of the log and the patterns of [glob]. *)
Context {Name Level Pattern : Type}.

Inductive ConfigItem :=
| CiAddress (v : Domain Name * AddressRuleValue)
| CiAuditEnable (v : bool) | CiAuditFile (v : PathBuf) | CiAuditFileMode (v : Z) | CiAuditNum (v : Z) | CiAuditSize (v : Z)
| CiBindCertFile (v : PathBuf) | CiBindCertKeyFile (v : PathBuf) | CiBindCertKeyPass (v : string)
| CiBindCertGenerate (v : CertificateGeneration) | CiBindCertSan (v : list string) | CiBindCertValidityDays (v : Z)
| CiBindCertRootKeyFile (v : PathBuf)
| CiLogSyslog (v : bool) | CiAuditSoa (v : bool) | CiAuditConsole (v : bool) | CiAuditSyslog (v : bool)
| CiDebugSaveFailPacket (v : bool) | CiDebugSaveFailPacketDir (v : PathBuf)
| CiBlacklistIp (v : IpOrSet) | CiBogusNxDomain (v : IpOrSet)
| CiCacheFile (v : PathBuf) | CiCachePersist (v : bool) | CiCacheSize (v : Z) | CiCacheMemorySize (v : Z)
| CiServeExpiredPrefetchTime (v : Z) | CiMaxQueryLimit (v : Z) | CiWebUiEnable (v : bool) | CiWebUiBind (v : SocketAddr)
| CiOdhcpdLeaseFile (v : PathBuf) | CiTxtRecord (v : Domain Name * TXT) | CiCacheCheckpointTime (v : Z)
| CiCaFile (v : PathBuf) | CiCaPath (v : PathBuf) | CiClientRule (v : ClientRule)
| CiCNAME (v : Domain Name * Ignorable Name) | CiSrvRecord (v : Domain Name * SRV Name)
| CiGroupBegin (v : string) | CiGroupEnd
| CiHttpsRecord (v : Domain Name * HttpsRecordRule Name)
| CiConfFile (v : PathBuf) | CiDnsmasqLeaseFile (v : PathBuf) | CiDns64 (v : Z * Z) | CiDomain (v : Name)
| CiDomainRule (v : Domain Name * DomainRule Name) | CiDomainSetProvider (v : DomainSetProvider)
| CiDualstackIpAllowForceAAAA (v : bool) | CiDualstackIpSelection (v : bool) | CiDualstackIpPreferIpv4 (v : bool)
| CiDualstackIpSelectionThreshold (v : Z) | CiEdnsClientSubnet (v : IpNet) | CiExpandPtrFromAddress (v : bool)
| CiForceAAAASOA (v : bool) | CiForceHTTPSSOA (v : bool) | CiForceQtypeSoa (v : RecordType)
| CiForwardRule (v : Domain Name * string) | CiHostsFile (v : Pattern) | CiIgnoreIp (v : IpOrSet)
| CiListener (v : BindAddrConfig) | CiLocalTtl (v : Z)
| CiLogConsole (v : bool) | CiLogNum (v : Z) | CiLogSize (v : Z) | CiLogLevel (v : Level) | CiLogFile (v : PathBuf)
| CiLogFileMode (v : Z) | CiLogFilter (v : string)
| CiMaxReplyIpNum (v : Z) | CiMdnsLookup (v : bool)
| CiNftSet (v : Domain Name * list (ConfigForIP NFTsetConfig)) | CiKernelIpSet (v : Domain Name * list (ConfigForIP KernelIpSet))
| CiIpSetTimeout (v : bool) | CiNftSetTimeout (v : bool)
| CiIpSetNoSpeed (v : list (ConfigForIP KernelIpSet)) | CiNftSetNoSpeed (v : list (ConfigForIP NFTsetConfig))
| CiNftSetDebug (v : bool) | CiNumWorkers (v : Z) | CiPrefetchDomain (v : bool) | CiProxyConfig (v : NamedProxyConfig)
| CiResolvHostname (v : bool) | CiResponseMode (v : ResponseMode)
| CiServeExpired (v : bool) | CiServeExpiredTtl (v : Z) | CiServeExpiredReplyTtl (v : Z)
| CiServer (v : ServerConf) | CiServerName (v : Name) | CiResolvFile (v : PathBuf)
| CiRrTtl (v : Z) | CiRrTtlMin (v : Z) | CiRrTtlMax (v : Z) | CiRrTtlReplyMax (v : Z)
| CiSpeedMode (v : option SpeedCheckModeList) | CiTcpIdleTime (v : Z) | CiWhitelistIp (v : IpOrSet) | CiUser (v : string)
| CiIpSetProvider (v : IpSetProvider) | CiIpAlias (v : IpAlias).

(** *** The options *)
Record LogConfig := mkLogConfig {
  lg_console : option bool;
  lg_syslog : option bool;
  lg_level : option Level;
  lg_file : option PathBuf;
  lg_size : option Z;
  lg_num : option Z;
  lg_file_mode : option Z;
  lg_filter : option string;
}.
Definition log_default : LogConfig := mkLogConfig None None None None None None None None.

Record AuditConfig := mkAuditConfig {
  au_enable : option bool;
  au_soa : option bool;
  au_console : option bool;
  au_syslog : option bool;
  au_file : option PathBuf;
  au_size : option Z;
  au_num : option Z;
  au_file_mode : option Z;
}.
Definition audit_default : AuditConfig := mkAuditConfig None None None None None None None None.

Record CertConfig := mkCertConfig {
  ct_file : option PathBuf;
  ct_key_file : option PathBuf;
  ct_key_pass : option string;
  ct_generate : CertificateGeneration;
  ct_san : list string;
  ct_validity_days : option Z;
  ct_root_key_file : option PathBuf;
}.
Definition cert_default : CertConfig := mkCertConfig None None None CertAuto [] None None.

(** [Config]; [cf_inner] holds the options on the path of a query, [cf_cert] those
    whose names begin with [bind_cert]. *)
Record Config := mkFullConfig {
  cf_inner : ConfigInner;
  cf_cache_file : option PathBuf;
  cf_server_name : option Name;
  cf_num_workers : option Z;
  cf_webui_enable : option bool;
  cf_webui_bind : option SocketAddr;
  cf_resolv_hostname : option bool;
  cf_hosts_file : option Pattern;
  cf_expand_ptr_from_address : option bool;
  cf_user : option string;
  cf_domain : option Name;
  cf_binds : list BindAddrConfig;
  cf_cert : CertConfig;
  cf_tcp_idle_time : option Z;
  cf_log : LogConfig;
  cf_audit : AuditConfig;
  cf_debug_save_fail_packet : bool;
  cf_debug_save_fail_packet_dir : option PathBuf;
  cf_dnsmasq_lease_file : option PathBuf;
  cf_odhcpd_lease_file : option PathBuf;
  cf_ca_file : option PathBuf;
  cf_ca_path : option PathBuf;
  cf_nameservers : list ServerConf;
  cf_proxy_servers : gmap string ProxyConfig;
  cf_nftset_debug : bool;
  cf_resolv_file : option PathBuf;
  cf_domain_set_providers : gmap string (list DomainSetProvider);
}.

Definition full_config_default : Config :=
  mkFullConfig config_default None None None None None None None None None None [] cert_default None
    log_default audit_default false None None None None None [] ∅ false None ∅.
End Items.
Arguments ConfigItem Name Level Pattern : clear implicits.
Arguments LogConfig Level : clear implicits.
Arguments Config Name Level Pattern : clear implicits.

(** *** Accessors with defaults ([RuntimeConfig]) *)
Section Getters.
Context {Name Level Pattern : Type}.
Implicit Types (c : Config Name Level Pattern).
(** Whether the program is built with its web interface. *)
Variable feature_webui : bool.

Definition webui_enabled c : bool := opt_unwrap_or feature_webui (cf_webui_enable c).
Definition webui_address c : SocketAddr := opt_unwrap_or (mkSocket (V4 2130706433) 6080) (cf_webui_bind c).
Definition resolv_hostname c : bool := opt_unwrap_or (is_some (cf_hosts_file c)) (cf_resolv_hostname c).
Definition expand_ptr_from_address c : bool := opt_unwrap_or false (cf_expand_ptr_from_address c).
Definition tcp_idle_time c : Z := opt_unwrap_or 120 (cf_tcp_idle_time c).
Definition num_workers (parallelism : Z) c : Z := opt_unwrap_or parallelism (cf_num_workers c).
Definition log_num c : Z := opt_unwrap_or 2 (lg_num (cf_log c)).
Definition log_enabled c : bool := 0 <? log_num c.
(** 128 KB, and the mode 640 in octal. *)
Definition log_size c : Z := opt_unwrap_or 128000 (lg_size (cf_log c)).
Definition log_file_mode c : Z := opt_unwrap_or 416 (lg_file_mode (cf_log c)).
Definition audit_enable c : bool := opt_unwrap_or false (au_enable (cf_audit c)).
Definition audit_num c : Z := opt_unwrap_or 2 (au_num (cf_audit c)).
Definition audit_size c : Z := opt_unwrap_or 128000 (au_size (cf_audit c)).
Definition audit_file_mode c : Z := opt_unwrap_or 416 (au_file_mode (cf_audit c)).
Definition cache_file (temp_dir : PathBuf) c : PathBuf :=
  opt_unwrap_or (path_join temp_dir (path_of_name "smartdns.cache")) (cf_cache_file c).
End Getters.
