(* ===== verification/Loader.v ===== *)
(** * Loading and building the configuration ([dns_conf.rs])

    [RuntimeConfigBuilder]: lines are read one after another, also those of the
    files they include, and change the options, the group of rules that is open,
    or the stack of open groups; [build] then makes the configuration the queries
    are answered by. *)

From S2P Require Import Prelude Names DomainMap Config Text DomainRule DomainRuleTree IpSet Message Runtime Context DnsUrl ClientBuild ConfigItems.
From coqutil Require Import Datatypes.RecordSetters.

Import UpdaterNotations.

(** [?] on an error of the file system, and [expect]. *)
Inductive LoadError := LoadFailed | LoadPanic.
(** The outcome of reading: none when the depth of includes allowed is exceeded. *)
Definition Loaded (A : Type) : Type := option (result A LoadError).

Section Loader.
Context {Name : Type} `{NameLib Name} {Level Pattern : Type}.

Abbreviation Item := (ConfigItem Name Level Pattern).
Abbreviation Conf := (Config Name Level Pattern).
Abbreviation Group := (RuleGroup Name).

Record Builder := mkBuilder {
  bd_conf_dir : option PathBuf;
  bd_conf_file : option PathBuf;
  bd_config : Conf;
  bd_rule_groups : gmap string Group;
  (** the innermost open group first *)
  bd_stack : list (string * Group);
  bd_loaded_files : gset PathBuf;
  bd_dirs : list PathBuf;
}.

Definition builder_new (conf_dir conf_file : option PathBuf) : Builder :=
  mkBuilder conf_dir conf_file full_config_default ∅ [] ∅ [].

Variable fs : Fs.
(** The line parser, and the parser of a network. *)
Variable parse_config : text → option (option Item).
Variable net_parse : text → option IpNet.
(** The order in which a hash set is gone through. *)
Variable dir_order : list PathBuf → list PathBuf.

Definition resolve (b : Builder) (p : PathBuf) : PathBuf :=
  resolve_in_dirs fs (dir_order (bd_dirs b)) p (bd_conf_file b).

(** [parse_ip_set_file] *)
Definition parse_ip_set_file (t : text) : list IpNet := omap (fun line => net_parse (trim_start line)) (str_lines t).

(** *** Rules *)

(** What the line does to the open group. *)
Definition group_add (i : Item) (g : Group) : Group :=
  match i with
  | CiAddress v => {! rg_address_rules ::= fun l => l ++ [v] } g
  | CiForwardRule v => {! rg_forward_rules ::= fun l => l ++ [v] } g
  | CiDomainRule v => {! rg_domain_rules ::= fun l => l ++ [v] } g
  | CiKernelIpSet v => {! rg_domain_rules ::= fun l => l ++ [(v.1, {! ipset := Some v.2} rule_default)] } g
  | CiTxtRecord v => {! rg_domain_rules ::= fun l => l ++ [(v.1, {! txt := Some [v.2] } rule_default)] } g
  | CiCNAME v => {! rg_cnames ::= fun l => l ++ [v] } g
  | CiSrvRecord v => {! rg_srv_records ::= fun l => l ++ [v] } g
  | CiHttpsRecord v => {! rg_https_records ::= fun l => l ++ [v] } g
  | CiNftSet v => {! rg_nftsets ::= fun l => l ++ [v] } g
  | CiIpSetTimeout v => {! rg_network_sets -> net_ipset_timeout := Some v } g
  | CiNftSetTimeout v => {! rg_network_sets -> net_nftset_timeout := Some v } g
  | CiIpSetNoSpeed v => {! rg_network_sets -> net_ipset_no_speed := Some v } g
  | CiNftSetNoSpeed v => {! rg_network_sets -> net_nftset_no_speed := Some v } g
  | _ => g
  end.

(** *** Options *)
Definition insert_qtype (t : RecordType) (l : list RecordType) : list RecordType :=
  if bool_decide (t ∈ l) then l else l ++ [t].

Definition add_provider (p : DomainSetProvider) (m : gmap string (list DomainSetProvider)) :
    gmap string (list DomainSetProvider) :=
  <[dsp_name p := opt_unwrap_or [] (m !! dsp_name p) ++ [p]]> m.

(** What the line does to the options; [b] gives the files already read, and the
    group a client rule without one is given. *)
Definition option_set (b : Builder) (i : Item) : Conf → Conf :=
  match i with
  | CiAuditEnable v => {! cf_audit -> au_enable := Some v}
  | CiAuditSoa v => {! cf_audit -> au_soa := Some v}
  | CiAuditConsole v => {! cf_audit -> au_console := Some v}
  | CiAuditSyslog v => {! cf_audit -> au_syslog := Some v}
  | CiLogSyslog v => {! cf_log -> lg_syslog := Some v}
  | CiDebugSaveFailPacket v => {! cf_debug_save_fail_packet := v}
  | CiDebugSaveFailPacketDir v => {! cf_debug_save_fail_packet_dir := Some (resolve b v)}
  | CiAuditFile v => {! cf_audit -> au_file := Some v}
  | CiAuditFileMode v => {! cf_audit -> au_file_mode := Some v}
  | CiAuditNum v => {! cf_audit -> au_num := Some v}
  | CiAuditSize v => {! cf_audit -> au_size := Some v}
  | CiBindCertFile v => {! cf_cert -> ct_file := Some (resolve b v)}
  | CiBindCertKeyFile v => {! cf_cert -> ct_key_file := Some (resolve b v)}
  | CiBindCertKeyPass v => {! cf_cert -> ct_key_pass := Some v}
  | CiBindCertGenerate v => {! cf_cert -> ct_generate := v}
  | CiBindCertSan v => {! cf_cert -> ct_san ::= fun l => l ++ v}
  | CiBindCertValidityDays v => {! cf_cert -> ct_validity_days := Some v}
  | CiBindCertRootKeyFile v => {! cf_cert -> ct_root_key_file := Some (resolve b v)}
  | CiCacheFile v => {! cf_cache_file := Some v}
  | CiCachePersist v => {! cf_inner -> c_cache -> cc_persist := Some v}
  | CiCacheCheckpointTime v => {! cf_inner -> c_cache -> cc_checkpoint_time := Some v}
  | CiDns64 v => {! cf_inner -> c_dns64_prefix := Some v}
  | CiExpandPtrFromAddress v => {! cf_expand_ptr_from_address := Some v}
  | CiNftSetDebug v => {! cf_nftset_debug := v}
  | CiServer v => {! cf_nameservers ::= fun l => l ++ [v] }
  | CiResponseMode v => {! cf_inner -> c_response_mode := Some v}
  | CiResolvHostname v => {! cf_resolv_hostname := Some v}
  | CiServeExpired v => {! cf_inner -> c_cache -> cc_serve_expired := Some v}
  | CiPrefetchDomain v => {! cf_inner -> c_cache -> cc_prefetch_domain := Some v}
  | CiForceAAAASOA v => {! cf_inner -> c_force_aaaa_soa := Some v}
  | CiForceHTTPSSOA v => {! cf_inner -> c_force_https_soa := Some v}
  | CiDualstackIpAllowForceAAAA v => {! cf_inner -> c_dualstack_ip_allow_force_aaaa := Some v}
  | CiDualstackIpPreferIpv4 v => {! cf_inner -> c_dualstack_ip_prefer_ipv4 := Some v}
  | CiDualstackIpSelection v => {! cf_inner -> c_dualstack_ip_selection := Some v}
  | CiServerName v => {! cf_server_name := Some v}
  | CiNumWorkers v => {! cf_num_workers := Some v}
  | CiDomain v => {! cf_domain := Some v}
  | CiSpeedMode v => {! cf_inner -> c_speed_check_mode := v}
  | CiServeExpiredTtl v => {! cf_inner -> c_cache -> cc_serve_expired_ttl := Some v}
  | CiServeExpiredReplyTtl v => {! cf_inner -> c_cache -> cc_serve_expired_reply_ttl := Some v}
  | CiCacheSize v => {! cf_inner -> c_cache -> cc_size := Some v}
  | CiCacheMemorySize v => {! cf_inner -> c_cache -> cc_memory_size := Some v}
  | CiServeExpiredPrefetchTime v => {! cf_inner -> c_cache -> cc_expired_prefetch_time := Some v}
  | CiMaxQueryLimit v => {! cf_inner -> c_max_query_limit := Some v}
  | CiWebUiEnable v => {! cf_webui_enable := Some v}
  | CiWebUiBind v => {! cf_webui_bind := Some v}
  | CiOdhcpdLeaseFile v => {! cf_odhcpd_lease_file := Some (resolve b v)}
  | CiForceQtypeSoa v => {! cf_inner -> c_force_qtype_soa ::= insert_qtype v}
  | CiDualstackIpSelectionThreshold v => {! cf_inner -> c_dualstack_ip_selection_threshold := Some v}
  | CiRrTtl v => {! cf_inner -> c_rr_ttl := Some v}
  | CiRrTtlMin v => {! cf_inner -> c_rr_ttl_min := Some v}
  | CiRrTtlMax v => {! cf_inner -> c_rr_ttl_max := Some v}
  | CiRrTtlReplyMax v => {! cf_inner -> c_rr_ttl_reply_max := Some v}
  | CiListener v => {! cf_binds ::= fun l => l ++ [v] }
  | CiLocalTtl v => {! cf_inner -> c_local_ttl := Some v}
  | CiLogConsole v => {! cf_log -> lg_console := Some v}
  | CiLogNum v => {! cf_log -> lg_num := Some v}
  | CiLogLevel v => {! cf_log -> lg_level := Some v}
  | CiLogFile v => {! cf_log -> lg_file := Some v}
  | CiLogFileMode v => {! cf_log -> lg_file_mode := Some v}
  | CiLogFilter v => {! cf_log -> lg_filter := Some v}
  | CiLogSize v => {! cf_log -> lg_size := Some v}
  | CiMaxReplyIpNum v => {! cf_inner -> c_max_reply_ip_num := Some v}
  | CiBlacklistIp v => {! cf_inner -> c_blacklist_ip ::= fun l => l ++ [v] }
  | CiBogusNxDomain v => {! cf_inner -> c_bogus_nxdomain ::= fun l => l ++ [v] }
  | CiWhitelistIp v => {! cf_inner -> c_whitelist_ip ::= fun l => l ++ [v] }
  | CiIgnoreIp v => {! cf_inner -> c_ignore_ip ::= fun l => l ++ [v] }
  | CiCaFile v => {! cf_ca_file := Some v}
  | CiCaPath v => {! cf_ca_path := Some v}
  | CiDnsmasqLeaseFile v => {! cf_dnsmasq_lease_file := Some v}
  | CiResolvFile v => {! cf_resolv_file := Some v}
  | CiUser v => {! cf_user := Some v}
  | CiTcpIdleTime v => {! cf_tcp_idle_time := Some v}
  | CiEdnsClientSubnet v => {! cf_inner -> c_edns_client_subnet := Some v}
  | CiDomainSetProvider v =>
      {! cf_domain_set_providers ::=
           add_provider (match v with DspFile name file => DspFile name (resolve b file) | _ => v end)}
  | CiProxyConfig v => {! cf_proxy_servers ::= <[np_name v := np_config v]>}
  | CiHostsFile v => {! cf_hosts_file := Some v}
  | CiIpSetProvider v =>
      match fs_read fs (resolve_filepath fs (isp_file v) (bd_conf_file b)) with
      | Some t => {! cf_inner -> c_ip_sets ::=
                       fun m => <[isp_name v := opt_unwrap_or [] (m !! isp_name v) ++ parse_ip_set_file t]> m}
      | None => fun c => c
      end
  | CiMdnsLookup v => {! cf_inner -> c_mdns_lookup := Some v}
  | CiIpAlias v => {! cf_inner -> c_ip_alias ::= fun l => l ++ [v] }
  | CiClientRule v =>
      let group := if bool_decide (cr_group v = "") then opt_unwrap_or DEFAULT_GROUP (fst <$> head (bd_stack b))
                   else cr_group v in
      {! cf_inner -> c_client_rules ::= fun l => l ++ [mkClientRule (cr_client v) group (cr_options v)] }
  | _ => fun c => c
  end.

(** *** Lines and files *)

(** [self.rule_groups.entry(name).or_default().merge(group)] *)
Definition merge_into (m : gmap string Group) (name : string) (g : Group) : gmap string Group :=
  <[name := group_merge (opt_unwrap_or group_default (m !! name)) g]> m.

(** Before any line the default group is opened when none is. *)
Definition open_default (b : Builder) : Builder :=
  match bd_stack b with
  | [] => {! bd_stack := [(DEFAULT_GROUP, group_default)] } b
  | _ => b
  end.

Definition item_apply (i : Item) (b : Builder) : Builder :=
  match i with
  | CiGroupBegin v => {! bd_stack ::= cons (v, group_default)} b
  | CiGroupEnd =>
      match bd_stack b with
      | [] => b
      | (name, g) :: stack => {! bd_stack := stack; bd_rule_groups ::= fun m => merge_into m name g} b
      end
  | _ =>
      let b := {! bd_config ::= option_set b i} b in
      match bd_stack b with
      | (name, g) :: stack => {! bd_stack := (name, group_add i g) :: stack} b
      | [] => b
      end
  end.

Definition load_bind {A B} (x : Loaded A) (k : A → Loaded B) : Loaded B :=
  match x with
  | Some (Ok a) => k a
  | Some (Err e) => Some (Err e)
  | None => None
  end.

Fixpoint load_each {A} (f : A → Builder → Loaded Builder) (l : list A) (b : Builder) : Loaded Builder :=
  match l with
  | [] => Some (Ok b)
  | x :: l => load_bind (f x b) (load_each f l)
  end.

Section Include.
(** [load_file] *)
Variable rec : PathBuf → Builder → Loaded Builder.

Definition load_include (path : PathBuf) (b : Builder) : Loaded Builder :=
  if negb (has_pattern path) || fs_is_file fs (resolve b path) then rec path b
  else
    let pattern := if pa_root path then path
                   else match bd_conf_file b ≫= path_parent with
                        | Some dir => path_join dir path
                        | None => path
                        end in
    match fs_glob fs pattern with
    | None => Some (Err LoadFailed)
    | Some entries =>
        load_each (fun entry b =>
          match entry with
          | None => Some (Err LoadFailed)
          | Some path => if fs_is_file fs path then rec path b else Some (Ok b)
          end) entries b
    end.

(** [config]; the include's [expect] makes its errors panics. *)
Definition config_line (line : text) (b : Builder) : Loaded Builder :=
  let b := open_default b in
  match parse_config line with
  | Some (Some (CiConfFile v)) =>
      match load_include v b with
      | Some (Err _) => Some (Err LoadPanic)
      | r => r
      end
  | Some (Some i) => Some (Ok (item_apply i b))
  | Some None | None => Some (Ok b)
  end.

Definition add_dir (d : PathBuf) (l : list PathBuf) : list PathBuf := if bool_decide (d ∈ l) then l else l ++ [d].

(** The lines of a file, within it. *)
Definition load_lines (path : PathBuf) (lines : list text) (b : Builder) : Loaded Builder :=
  let previous := bd_conf_file b in
  let b := {! bd_loaded_files ::= union {[path]};
              bd_dirs ::= fun l => match path_parent path with Some dir => add_dir dir l | None => l end;
              bd_conf_file := Some path} b in
  load_bind (load_each config_line lines b) (fun b =>
    Some (Ok (match previous with Some p => {! bd_conf_file := Some p} b | None => b end))).
End Include.

(** The depth of files within files allowed is [fuel]. *)
Fixpoint load_file (fuel : nat) (path : PathBuf) (b : Builder) : Loaded Builder :=
  let path := resolve b path in
  if fs_exists fs path then
    match fs_canonicalize fs path with
    | None => Some (Err LoadFailed)
    | Some path =>
        if bool_decide (path ∈ bd_loaded_files b) then Some (Ok b)
        else
          match fs_lines fs path with
          | None => Some (Err LoadFailed)
          | Some lines =>
              match fuel with
              | O => None
              | S fuel => load_lines (load_file fuel) path lines b
              end
          end
    end
  else Some (Ok b).
End Loader.

(** * Building the configuration ([RuntimeConfigBuilder::build], [config/domain_set.rs])

    What the options and the groups of rules become when everything is read: the
    sets of addresses, the sets of domains, the trees of rules and the listeners. *)

Import UpdaterNotations.

Section Build.
Context {Name : Type} `{NameLib Name} {Level Pattern : Type}.
Context {RM : Type → Type} `{RangeMapLib RM} `{NL : NetLib}.
Variable hash : Z → list Z → Z.
Variable wm : list Z → list Z → bool.
Variable hash_code : DomainRule Name → Z.
Variable fs : Fs.
Variable parse_config : text → option (option (ConfigItem Name Level Pattern)).
Variable net_parse : text → option IpNet.
Variable wildcard_parse : text → option (WildcardName Name).
Variable http_get : string → option text.
Variable total_memory : Z.
(** The orders in which hash sets and maps are gone through. *)
Variable dir_order : list PathBuf → list PathBuf.
Variable group_order : list (string * RuleGroup Name) → list (string * RuleGroup Name).
Variable rule_order : string → list nat.

Abbreviation Conf := (Config Name Level Pattern).
Abbreviation B := (Builder (Name := Name) (Level := Level) (Pattern := Pattern)).

(** ** Sets of domains *)
Definition wn_insert (w : WildcardName Name) (set : list (WildcardName Name)) : list (WildcardName Name) :=
  if existsb (wn_eqb w) set then set else set ++ [w].

Definition read_to_domain_set (t : text) (set : list (WildcardName Name)) : list (WildcardName Name) :=
  fold_left (fun set line =>
    let line := trim_start line in
    if bool_decide (head line = Some 35) then set
    else match head (split_at (Z.eqb 32) line) ≫= wildcard_parse with
         | Some n => wn_insert n set
         | None => set
         end) (str_lines t) set.

(** [get_domain_set] *)
Definition get_domain_set (p : DomainSetProvider) : option (list (WildcardName Name)) :=
  (fun t => read_to_domain_set t []) <$>
    match p with DspFile _ file => fs_read fs file | DspHttp _ url _ => http_get url end.

Definition load_domain_set (providers : list DomainSetProvider) : list (WildcardName Name) :=
  fold_left (fun set p =>
    match get_domain_set p with
    | Some s => if bool_decide (set = []) then s else fold_left (fun set w => wn_insert w set) s set
    | None => set
    end) providers [].

(** ** Trees of rules *)
(** The tree with the shared rules in place of their addresses. *)
Fixpoint node_rules (st : Arcs (Name := Name)) (n : TreeNode nat) : TreeNode (DomainRule Name) :=
  match n with mkNode p z => mkNode (arc_get st p) (node_rules st <$> z) end.

Definition tree_rules (st : Arcs (Name := Name)) (m : DomainMap (TreeNode nat)) : DomainMap (TreeNode (DomainRule Name)) :=
  mkDM (T := TreeNode (DomainRule Name)) (node_rules st <$> dm_map m)
    (fmap (M := list) (fun e => (e.1, node_rules st e.2)) <$> dm_subs m).

(** ** The groups *)
(** The open groups are closed, the innermost first. *)
Definition close_groups (stack : list (string * RuleGroup Name)) (groups : gmap string (RuleGroup Name)) : gmap string (RuleGroup Name) :=
  fold_left (fun m x => merge_into m x.1 x.2) stack groups.

Definition dedup_group (g : RuleGroup Name) : RuleGroup Name := group_set_cnames (dedup_cnames (rg_cnames g)) g.

(** ** The result *)
Record LoadedConfig := mkLoaded {
  ld_conf_dir : option PathBuf;
  ld_conf_file : option PathBuf;
  ld_managed_dir : option PathBuf;
  ld_config : Conf;
  ld_rule_groups : gmap string (RuleGroup Name);
  ld_runtime : RuntimeConfig Name RM;
}.

(** The names of sets that rules recheck answers with. *)
Definition recheck_names (groups : list (RuleGroup Name)) : list string :=
  g ← groups; omap (fun r => recheck_ip_set r.2) (rg_domain_rules g).

Definition build_runtime (c : ConfigInner) (providers : gmap string (list DomainSetProvider))
    (groups : gmap string (RuleGroup Name)) : RuntimeConfig Name RM :=
  let sets := c_ip_sets c in
  let domain_sets := load_domain_set <$> providers in
  let l := group_order (map_to_list groups) in
  let '(trees, st) := build_rule_groups hash wm hash_code
                        ((fun g => (g.1, rule_order g.1, group_inputs domain_sets g.2)) <$> l) in
  mkRuntime c (tree_rules st <$> trees)
    (make_ip_set sets (c_bogus_nxdomain c)) (make_ip_set sets (c_blacklist_ip c))
    (make_ip_set sets (c_whitelist_ip c)) (make_ip_set sets (c_ignore_ip c))
    (recheck_ip_sets sets (recheck_names (snd <$> l))) (build_ip_alias sets (c_ip_alias c)).

(** [build]: after the file is read. *)
Definition build_config (b : B) (conf_file : option PathBuf) : result LoadedConfig LoadError :=
  let cfg := bd_config b in
  match auto_cache_size total_memory (cc_size (c_cache (cf_inner cfg))) with
  | Err _ => Err LoadFailed
  | Ok size =>
      let cfg := {! cf_inner -> c_cache -> cc_size := size} cfg in
      let groups := close_groups (bd_stack b) (bd_rule_groups b) in
      let cfg := {! cf_binds ::= fun l => match l with [] => [bind_default_udp] | _ => l end} cfg in
      let groups := dedup_group <$> groups in
      let runtime := build_runtime (cf_inner cfg) (cf_domain_set_providers cfg) groups in
      let cfg := {! cf_binds ::= dedup_binds bind_is_datagram bind_sock_addr} cfg in
      Ok (mkLoaded (bd_conf_dir b) conf_file ((fun dir => path_join dir (path_of_name "managed")) <$> bd_conf_dir b)
            cfg groups runtime)
  end.

Definition build (fuel : nat) (b : B) : Loaded LoadedConfig :=
  match bd_conf_file b with
  | Some file =>
      load_bind (load_file fs parse_config net_parse dir_order fuel file b) (fun b => Some (build_config b (bd_conf_file b)))
  | None => Some (build_config b None)
  end.

(** [reload_new] *)
Definition reload_new (fuel : nat) (c : LoadedConfig) : Loaded LoadedConfig :=
  build fuel (builder_new (ld_conf_dir c) (ld_conf_file c)).
End Build.
Arguments LoadedConfig Name Level Pattern RM : clear implicits.
