(* ===== verification/LoaderSpec.v ===== *)
(** * What loading the configuration comes to

    Reading ends whatever files include each other, and every rule reaches the
    group that is open at its line, after the rules of that group before it. *)

From coqutil Require Import Datatypes.RecordSetters.
From S2P Require Import Prelude Names DomainMap Config DomainRule DomainRuleTree IpSet Message Runtime Context Text DnsUrl ClientBuild ConfigItems Loader.
Import UpdaterNotations.

Section LoaderSpec.
Context {Name : Type} `{NameLib Name} {Level Pattern : Type}.
Variable fs : Fs.
Variable parse_config : text → option (option (ConfigItem Name Level Pattern)).
Variable net_parse : text → option IpNet.
Variable dir_order : list PathBuf → list PathBuf.

Abbreviation Item := (ConfigItem Name Level Pattern).
Abbreviation B := (Builder (Name := Name) (Level := Level) (Pattern := Pattern)).
Abbreviation Group := (RuleGroup Name).
Implicit Types (b : B).

(** ** Reading ends *)
Abbreviation load := (load_file fs parse_config net_parse dir_order).
Abbreviation line := (config_line fs parse_config net_parse dir_order).
Abbreviation Rec := (PathBuf → B → Loaded B).

(** A reader of files only adds to the files read. *)
Definition grows (rec : Rec) : Prop :=
  ∀ p b b', rec p b = Some (Ok b') → bd_loaded_files b ⊆ bd_loaded_files b'.
(** The files there are that are not read yet. *)
Definition unread (files : gset PathBuf) b : nat := size (files ∖ bd_loaded_files b).
(** A reader of files gives a result when few enough files are not read. *)
Definition ends (files : gset PathBuf) (n : nat) (rec : Rec) : Prop :=
  ∀ p b, (unread files b ≤ n)%nat → is_Some (rec p b).

Lemma unread_mono files b b' : bd_loaded_files b ⊆ bd_loaded_files b' → (unread files b' ≤ unread files b)%nat.
Proof. intros Hs. apply subseteq_size. set_solver. Qed.

Lemma load_each_ok {A} (f : A → B → Loaded B) l b (P : B → B → Prop) :
  (∀ b, P b b) → (∀ b1 b2 b3, P b1 b2 → P b2 b3 → P b1 b3) →
  (∀ x b b', f x b = Some (Ok b') → P b b') →
  ∀ b', load_each f l b = Some (Ok b') → P b b'.
Proof.
  intros Hr Ht Hf. revert b. induction l as [|x l IH]; intros b b'; cbn [load_each]; [by intros [= <-]|].
  destruct (f x b) as [[b1|e]|] eqn:E; cbn [load_bind]; [|done|done]. eauto.
Qed.

Lemma load_each_ends {A} (f : A → B → Loaded B) files n l b :
  (∀ x b, (unread files b ≤ n)%nat → is_Some (f x b)) →
  (∀ x b b', f x b = Some (Ok b') → bd_loaded_files b ⊆ bd_loaded_files b') →
  (unread files b ≤ n)%nat → is_Some (load_each f l b).
Proof.
  intros Hf Hg. revert b. induction l as [|x l IH]; intros b Hn; cbn [load_each]; [done|].
  destruct (Hf x b Hn) as [[b1|e] E]; rewrite E; cbn [load_bind]; [|done].
  apply IH. apply Hg in E. pose proof (unread_mono files _ _ E). lia.
Qed.

Lemma open_default_loaded b : bd_loaded_files (open_default b) = bd_loaded_files b.
Proof. unfold open_default. by destruct (bd_stack b). Qed.

Lemma item_apply_loaded i b : bd_loaded_files (item_apply fs net_parse dir_order i b) = bd_loaded_files b.
Proof. destruct b as [? ? ? ? [|[? ?] ?] ? ?]; by destruct i. Qed.

Lemma include_grows rec p b b' :
  grows rec → load_include fs dir_order rec p b = Some (Ok b') → bd_loaded_files b ⊆ bd_loaded_files b'.
Proof.
  intros Hr. unfold load_include. destruct (negb _ || _); [apply Hr|]. destruct (fs_glob fs _) as [entries|]; [|done].
  apply (load_each_ok _ _ _ (fun b b' => bd_loaded_files b ⊆ bd_loaded_files b')); [done|set_solver|].
  intros [q|] b1 b2; [|done]. destruct (fs_is_file fs q); [apply Hr|by intros [= <-]].
Qed.

Lemma config_line_grows rec l b b' :
  grows rec → line rec l b = Some (Ok b') → bd_loaded_files b ⊆ bd_loaded_files b'.
Proof.
  intros Hr. unfold config_line. rewrite <- (open_default_loaded b).
  destruct (parse_config l) as [[i|]|]; [|by intros [= <-]..].
  assert (Hi : (Some (Ok (item_apply fs net_parse dir_order i (open_default b))) : Loaded B) = Some (Ok b') →
               bd_loaded_files (open_default b) ⊆ bd_loaded_files b').
  { intros [= <-]. by rewrite item_apply_loaded. }
  destruct i; try apply Hi.
  destruct (load_include fs dir_order rec v (open_default b)) as [[b1|e]|] eqn:E; [|done|done].
  intros [= <-]. by eapply include_grows.
Qed.

Lemma include_ends rec files n p b :
  grows rec → ends files n rec → (unread files b ≤ n)%nat → is_Some (load_include fs dir_order rec p b).
Proof.
  intros Hr He Hn. unfold load_include. destruct (negb _ || _); [by apply He|].
  destruct (fs_glob fs _) as [entries|]; [|done]. apply (load_each_ends _ files n); [| |done].
  - intros [q|] b1 H1; [|done]. destruct (fs_is_file fs q); [by apply He|done].
  - intros [q|] b1 b2; [|done]. destruct (fs_is_file fs q); [apply Hr|by intros [= <-]].
Qed.

Lemma config_line_ends rec files n l b :
  grows rec → ends files n rec → (unread files b ≤ n)%nat → is_Some (line rec l b).
Proof.
  intros Hr He Hn. unfold config_line. destruct (parse_config l) as [[i|]|]; [|done..].
  destruct i; try done.
  assert ((unread files (open_default b) ≤ n)%nat) as Hn' by (unfold unread; by rewrite open_default_loaded).
  destruct (include_ends rec files n v (open_default b) Hr He Hn') as [[?|?] ->]; done.
Qed.

Lemma load_lines_grows rec p lines b b' :
  grows rec → load_lines fs parse_config net_parse dir_order rec p lines b = Some (Ok b') →
  {[p]} ∪ bd_loaded_files b ⊆ bd_loaded_files b'.
Proof.
  intros Hr. unfold load_lines. match goal with |- context [load_each _ lines ?x] => set (b1 := x) end.
  destruct (load_each _ lines b1) as [[b2|e]|] eqn:E; cbn [load_bind]; [|done|done].
  apply (load_each_ok _ _ _ (fun b b' => bd_loaded_files b ⊆ bd_loaded_files b')) in E;
    [|done|set_solver|by intros ???; apply config_line_grows].
  intros [= <-]. destruct (bd_conf_file b); exact E.
Qed.

Lemma load_file_grows fuel : grows (load fuel).
Proof.
  induction fuel as [|fuel IH]; intros p b b'; cbn [load_file]; (destruct (fs_exists fs _); [|by intros [= <-]]);
    (destruct (fs_canonicalize fs _) as [q|]; [|done]); (case_bool_decide; [by intros [= <-]|]);
    (destruct (fs_lines fs q) as [lines|]; [|done]); [done|].
  intros E%load_lines_grows; [set_solver|done].
Qed.

Lemma load_file_enough (files : gset PathBuf) :
  (∀ p q, fs_canonicalize fs p = Some q → q ∈ files) → ∀ n, ends files n (load n).
Proof.
  intros Hfiles. induction n as [|n IH]; intros p b Hn; cbn [load_file]; (destruct (fs_exists fs _); [|done]);
    (destruct (fs_canonicalize fs _) as [q|] eqn:Eq; [|done]); (case_bool_decide as Hq; [done|]);
    (destruct (fs_lines fs q) as [lines|]; [|done]); apply Hfiles in Eq.
  - exfalso. assert (q ∈ files ∖ bd_loaded_files b) as Hin by set_solver.
      unfold unread in Hn. assert (size (files ∖ bd_loaded_files b) = 0%nat) as Hz by lia.
      apply size_empty_inv in Hz. set_solver.
    - unfold load_lines. match goal with |- context [load_each _ lines ?x] => set (b1 := x) end.
      assert (Hb1 : (unread files b1 ≤ n)%nat).
      { assert (size (files ∖ ({[q]} ∪ bd_loaded_files b)) < size (files ∖ bd_loaded_files b))%nat as Hlt.
        { apply subset_size. set_solver. }
        unfold unread in *. change (bd_loaded_files b1) with ({[q]} ∪ bd_loaded_files b). lia. }
      destruct (load_each_ends (line (load n)) files n lines b1) as [[b2|e] ->]; [| |done|done|done].
      + intros x b2 Hb2. by apply (config_line_ends _ files n); [apply load_file_grows|..].
      + intros x b2 b3. apply config_line_grows, load_file_grows.
Qed.

Lemma load_file_unfold fuel path b :
  load fuel path b =
    (let path := resolve fs dir_order b path in
     if fs_exists fs path then
       match fs_canonicalize fs path with
       | None => Some (Err LoadFailed)
       | Some path =>
           if bool_decide (path ∈ bd_loaded_files b) then Some (Ok b)
           else match fs_lines fs path with
                | None => Some (Err LoadFailed)
                | Some lines =>
                    match fuel with
                    | O => None
                    | S fuel => load_lines fs parse_config net_parse dir_order (load fuel) path lines b
                    end
                end
       end
     else Some (Ok b)).
Proof. by destruct fuel. Qed.

(** *** A greater depth gives the same result. *)
Definition extends (rec rec' : Rec) : Prop := ∀ p b r, rec p b = Some r → rec' p b = Some r.

Lemma load_each_extends {A} (f f' : A → B → Loaded B) l b r :
  (∀ x b r, f x b = Some r → f' x b = Some r) → load_each f l b = Some r → load_each f' l b = Some r.
Proof.
  intros Hf. revert b. induction l as [|x l IH]; intros b; cbn [load_each]; [done|].
  destruct (f x b) as [[b1|e]|] eqn:E; cbn [load_bind]; [| |done]; rewrite (Hf _ _ _ E); [apply IH|done].
Qed.

Lemma config_line_extends rec rec' l b r : extends rec rec' → line rec l b = Some r → line rec' l b = Some r.
Proof.
  intros He. unfold config_line. destruct (parse_config l) as [[i|]|]; [|done..]. destruct i; try done.
  assert (Hi : ∀ r, load_include fs dir_order rec v (open_default b) = Some r →
                    load_include fs dir_order rec' v (open_default b) = Some r).
  { intros r'. unfold load_include. destruct (negb _ || _); [apply He|]. destruct (fs_glob fs _); [|done].
    apply load_each_extends. intros [q|] b1 r1; [|done]. destruct (fs_is_file fs q); [apply He|done]. }
  destruct (load_include fs dir_order rec v (open_default b)) as [r'|] eqn:E; [|done]. by rewrite (Hi r' eq_refl).
Qed.

Lemma load_file_step n : extends (load n) (load (S n)).
Proof.
  induction n as [|n IH]; intros p b r; rewrite !load_file_unfold; cbn zeta iota;
    (destruct (fs_exists fs _); [|done]); (destruct (fs_canonicalize fs _) as [q|]; [|done]);
    (case_bool_decide; [done|]); (destruct (fs_lines fs q) as [lines|]; [|done]); [done|].
  unfold load_lines. destruct (load_each (line (load n)) lines _) as [r'|] eqn:E; [|done].
  erewrite load_each_extends; [done| |exact E]. intros x b1 r1. by apply config_line_extends.
Qed.

Lemma load_file_extends n m : (n ≤ m)%nat → extends (load n) (load m).
Proof.
  intros Hle. induction Hle as [|m Hle IH]; [by intros p b r|]. intros p b r E. by apply load_file_step, IH.
Qed.

(** C22: Reading a file of the configuration ends, whatever files its lines include,
    itself among them: a depth of includes equal to the number of files there are
    is never exceeded, and any greater depth gives the same result. *)
Theorem load_file_ends (files : gset PathBuf) :
  (∀ p q, fs_canonicalize fs p = Some q → q ∈ files) →
  ∀ path b, ∃ r, ∀ n, (size files ≤ n)%nat → load n path b = Some r.
Proof.
  intros Hfiles path b. destruct (load_file_enough files Hfiles (size files) path b) as [r Hr].
  { apply subseteq_size. set_solver. }
  exists r. intros n Hn. by apply (load_file_extends _ _ Hn).
Qed.

(** ** Rules reach their group *)

(** The group with one line's rule or option alone. *)
Definition item_group (i : Item) : Group :=
  let on_domain d r := mkGroup net_sets_default [] [] [] [(d, r)] [] [] [] in
  match i with
  | CiAddress v => mkGroup net_sets_default [] [] [v] [] [] [] []
  | CiForwardRule v => mkGroup net_sets_default [] [v] [] [] [] [] []
  | CiDomainRule v => on_domain v.1 v.2
  | CiKernelIpSet v => on_domain v.1 ({! ipset := Some v.2} rule_default)
  | CiTxtRecord v => on_domain v.1 ({! txt := Some [v.2] } rule_default)
  | CiCNAME v => mkGroup net_sets_default [] [] [] [] [v] [] []
  | CiSrvRecord v => mkGroup net_sets_default [] [] [] [] [] [v] []
  | CiHttpsRecord v => mkGroup net_sets_default [] [] [] [] [] [] [v]
  | CiNftSet v => mkGroup net_sets_default [v] [] [] [] [] [] []
  | CiIpSetTimeout v => mkGroup (mkNetSets (Some v) None None None) [] [] [] [] [] [] []
  | CiNftSetTimeout v => mkGroup (mkNetSets None (Some v) None None) [] [] [] [] [] [] []
  | CiIpSetNoSpeed v => mkGroup (mkNetSets None None (Some v) None) [] [] [] [] [] [] []
  | CiNftSetNoSpeed v => mkGroup (mkNetSets None None None (Some v)) [] [] [] [] [] [] []
  | _ => group_default
  end.

Lemma group_add_merge i (g : Group) : group_add i g = group_merge g (item_group i).
Proof.
  destruct g as [[? ? ? ?] ? ? ? ? ? ? ?].
  destruct i; repeat match goal with v : _ * _ |- _ => destruct v end;
    unfold group_merge, net_sets_merge; cbn; rewrite ?app_nil_r; reflexivity.
Qed.

(** The names of the open groups; the default group is opened when none is. *)
Definition opened (st : list string) : list string := match st with [] => [DEFAULT_GROUP] | _ => st end.

Definition open_after (st : list string) (i : Item) : list string :=
  match i with
  | CiGroupBegin v => v :: opened st
  | CiGroupEnd => tail (opened st)
  | _ => opened st
  end.

(** The lines of a group: those at which it is the innermost open one. *)
Fixpoint lines_of (name : string) (st : list string) (items : list Item) : list Item :=
  match items with
  | [] => []
  | i :: items =>
      (if bool_decide (head (opened st) = Some name) then [i] else []) ++ lines_of name (open_after st i) items
  end.

(** No group is opened within itself. *)
Fixpoint not_nested_in_itself (st : list string) (items : list Item) : bool :=
  match items with
  | [] => true
  | i :: items =>
      match i with CiGroupBegin v => bool_decide (v ∉ opened st) | _ => true end
      && not_nested_in_itself (open_after st i) items
  end.

(** What a group has been given so far. *)
Definition in_groups (m : gmap string Group) (name : string) : Group := opt_unwrap_or group_default (m !! name).
Definition in_stack (stack : list (string * Group)) (name : string) : Group :=
  opt_unwrap_or group_default (snd <$> find_first (fun x => bool_decide (x.1 = name)) stack).
Definition given (m : gmap string Group) (stack : list (string * Group)) (name : string) : Group :=
  group_merge (in_groups m name) (in_stack stack name).

Lemma in_groups_merge m name g n :
  in_groups (merge_into m name g) n = if bool_decide (name = n) then group_merge (in_groups m n) g else in_groups m n.
Proof. unfold in_groups, merge_into. rewrite lookup_insert. by repeat case_decide; case_bool_decide; simplify_eq. Qed.

Lemma in_stack_cons x stack n : in_stack (x :: stack) n = if bool_decide (x.1 = n) then x.2 else in_stack stack n.
Proof. unfold in_stack. cbn. by case_bool_decide. Qed.

Lemma in_stack_absent stack n : n ∉ stack.*1 → in_stack stack n = group_default.
Proof.
  induction stack as [|x stack IH]; [done|]. intros Hn. rewrite in_stack_cons. cbn in Hn.
  rewrite bool_decide_false by (intros <-; apply Hn; by left). apply IH. intros ?. apply Hn. by right.
Qed.

Lemma given_pop m name g stack n :
  name ∉ stack.*1 → given (merge_into m name g) stack n = given m ((name, g) :: stack) n.
Proof.
  intros Hn. unfold given. rewrite in_groups_merge, in_stack_cons. cbn. case_bool_decide as E; [subst|done].
  by rewrite in_stack_absent, group_merge_default_r.
Qed.

Lemma close_groups_given m stack n : NoDup stack.*1 → in_groups (close_groups stack m) n = given m stack n.
Proof.
  revert m. induction stack as [|[name g] stack IH]; intros m Hd.
  { unfold given, in_stack. cbn. by rewrite group_merge_default_r. }
  inversion Hd as [|? ? Hn Hd' Eq]. change (close_groups ((name, g) :: stack) m) with (close_groups stack (merge_into m name g)).
  rewrite IH by done. by apply given_pop.
Qed.

Lemma item_kinds i b name g stack :
  bd_stack b = (name, g) :: stack →
  let b' := item_apply fs net_parse dir_order i b in
  (i = CiGroupEnd ∧ bd_stack b' = stack ∧ bd_rule_groups b' = merge_into (bd_rule_groups b) name g) ∨
  (∃ v, i = CiGroupBegin v ∧ bd_stack b' = (v, group_default) :: (name, g) :: stack ∧ bd_rule_groups b' = bd_rule_groups b) ∨
  ((∀ st, open_after st i = opened st) ∧ not_nested_in_itself [] [i] = true ∧
   bd_stack b' = (name, group_add i g) :: stack ∧ bd_rule_groups b' = bd_rule_groups b).
Proof.
  destruct b as [? ? ? ? ? ? ?]. cbn. intros ->.
  destruct i; first [by left|by right; left; eexists|by right; right].
Qed.

(** One line. *)
Lemma item_step i b :
  NoDup (bd_stack b).*1 → not_nested_in_itself (bd_stack b).*1 [i] = true →
  (if i is CiConfFile _ then False else True) →
  let b' := item_apply fs net_parse dir_order i (open_default b) in
  (bd_stack b').*1 = open_after (bd_stack b).*1 i ∧ NoDup (bd_stack b').*1 ∧
  ∀ n, given (bd_rule_groups b') (bd_stack b') n =
       if bool_decide (head (opened (bd_stack b).*1) = Some n)
       then group_merge (given (bd_rule_groups b) (bd_stack b) n) (item_group i)
       else given (bd_rule_groups b) (bd_stack b) n.
Proof.
  intros Hd Hnest Hi b'.
  assert (Hopen : ∃ name g stack, bd_stack (open_default b) = (name, g) :: stack ∧
            bd_rule_groups (open_default b) = bd_rule_groups b ∧ opened (bd_stack b).*1 = name :: stack.*1 ∧ NoDup (name :: stack.*1) ∧
            ∀ n, given (bd_rule_groups b) (bd_stack b) n = given (bd_rule_groups b) ((name, g) :: stack) n).
  { unfold open_default. destruct (bd_stack b) as [|[name g] stack] eqn:Es.
    - exists DEFAULT_GROUP, group_default, []. do 3 (split; [done|]). split; [apply NoDup_singleton|].
      intros n. unfold given. rewrite in_stack_cons. by case_bool_decide.
    - by exists name, g, stack. }
  destruct Hopen as (name & g & stack & Hst & Hgr & Hop & Hnd & Hgiven).
  assert (Hhead : ∀ n, bool_decide (head (name :: stack.*1) = Some n) = bool_decide (name = n)).
  { intros n. apply bool_decide_ext. cbn. naive_solver. }
  inversion Hnd as [|? ? Hname Hnd' Eq]. rewrite Hop.
  destruct (item_kinds i _ name g stack Hst) as [(-> & Hs & Hg)|[(v & -> & Hs & Hg)|(Ho & _ & Hs & Hg)]];
    fold b' in Hs, Hg; rewrite Hs, Hg, Hgr.
  - split; [by cbn; rewrite Hop|]. split; [done|]. intros n. rewrite Hhead, Hgiven, given_pop by done.
    cbn [item_group]. case_bool_decide; [by rewrite group_merge_default_r|done].
  - cbn in Hnest. rewrite andb_true_r, bool_decide_eq_true, Hop in Hnest.
    split; [by cbn; rewrite Hop|]. split; [by apply NoDup_cons|].
    intros n. rewrite Hhead, Hgiven. cbn [item_group]. rewrite group_merge_default_r.
    transitivity (given (bd_rule_groups b) ((name, g) :: stack) n); [|by case_bool_decide].
    unfold given. rewrite in_stack_cons. cbn [fst snd]. case_bool_decide as E; [|done]. subst v.
    by rewrite (in_stack_absent ((name, g) :: stack)).
  - split; [by rewrite Ho, Hop|]. split; [done|]. intros n. rewrite Hhead, Hgiven. unfold given.
    rewrite !in_stack_cons. cbn [fst snd]. case_bool_decide; [|done]. by rewrite group_add_merge, group_merge_assoc.
Qed.

Definition is_include (i : Item) : bool := match i with CiConfFile _ => true | _ => false end.

(** What the lines of a file are read as. *)
Definition items_of (lines : list text) : list Item := omap (fun l => mjoin (parse_config l)) lines.

Lemma opened_idem b : opened (bd_stack (open_default b)).*1 = opened (bd_stack b).*1.
Proof. destruct b as [? ? ? ? [|[? ?] ?] ? ?]; reflexivity. Qed.

Lemma open_default_given b n :
  NoDup (bd_stack b).*1 →
  NoDup (bd_stack (open_default b)).*1 ∧
  given (bd_rule_groups (open_default b)) (bd_stack (open_default b)) n = given (bd_rule_groups b) (bd_stack b) n.
Proof.
  destruct b as [? ? ? groups [|[name g] stack] ? ?]; intros Hd; [|done].
  split; [apply NoDup_singleton|]. change (given groups [(DEFAULT_GROUP, group_default)] n = given groups [] n).
  unfold given. rewrite in_stack_cons. by case_bool_decide.
Qed.

(** The lines that follow depend on the open groups after the default one is opened. *)
Lemma opened_only st st' name items :
  opened st = opened st' →
  lines_of name st items = lines_of name st' items ∧
  not_nested_in_itself st items = not_nested_in_itself st' items.
Proof.
  intros E. destruct items as [|i items]; [done|]. cbn.
  assert (open_after st i = open_after st' i) as -> by (destruct i; cbn; by rewrite E). by rewrite E.
Qed.

Lemma lines_read rec lines b :
  NoDup (bd_stack b).*1 → not_nested_in_itself (bd_stack b).*1 (items_of lines) = true →
  forallb (fun i => negb (is_include i)) (items_of lines) = true →
  ∃ b', load_each (line rec) lines b = Some (Ok b') ∧ NoDup (bd_stack b').*1 ∧
    ∀ n, given (bd_rule_groups b') (bd_stack b') n =
         fold_left group_merge (item_group <$> lines_of n (bd_stack b).*1 (items_of lines))
           (given (bd_rule_groups b) (bd_stack b) n).
Proof.
  revert b. induction lines as [|l lines IH]; intros b Hd Hnest Hinc; [by exists b|].
  cbn [load_each]. unfold items_of in *. cbn [omap list_omap] in *. unfold config_line at 1.
  assert (Hskip : mjoin (parse_config l) = None → ∃ b',
    load_bind (Some (Ok (open_default b))) (load_each (line rec) lines) = Some (Ok b') ∧ NoDup (bd_stack b').*1 ∧
    ∀ n, given (bd_rule_groups b') (bd_stack b') n =
         fold_left group_merge (item_group <$> lines_of n (bd_stack b).*1 (items_of lines))
           (given (bd_rule_groups b) (bd_stack b) n)).
  { intros E. rewrite E in *. destruct (IH (open_default b)) as (b' & Hl & Hd' & Hg).
    - by apply (open_default_given b DEFAULT_GROUP).
    - by rewrite (proj2 (opened_only _ (bd_stack b).*1 DEFAULT_GROUP _ (opened_idem b))).
    - done.
    - exists b'. split; [done|]. split; [done|]. intros n. rewrite Hg.
      rewrite (proj1 (opened_only _ (bd_stack b).*1 n _ (opened_idem b))).
      by rewrite (proj2 (open_default_given b n Hd)). }
  destruct (parse_config l) as [[i|]|]; cbn [mjoin option_join] in *; [|by apply Hskip..].
  cbn [not_nested_in_itself forallb] in *. apply andb_true_iff in Hnest as [Hi Hnest], Hinc as [Hii Hinc].
  assert (Hstep := item_step i b Hd). cbn [not_nested_in_itself] in Hstep. rewrite Hi in Hstep.
  destruct Hstep as (Hst & Hd' & Hg); [done|by destruct i|].
  set (b1 := item_apply fs net_parse dir_order i (open_default b)) in *.
  destruct (IH b1) as (b' & Hl & Hd2 & Hg2); [done|by rewrite Hst|done|].
  exists b'. split; [destruct i; done|]. split; [done|].
  intros n. rewrite Hg2, Hst, Hg. cbn [lines_of]. case_bool_decide; [|done]. by rewrite fmap_app, fold_left_app.
Qed.

(** C23: Each rule of a file reaches the group that is the innermost open one at its
    line, the default group where none is open: when everything is read the group
    has the rules of its lines, in their order, and of each of its options the
    last one; as long as no group is opened within itself, and the file includes
    no other. *)
Theorem rules_reach_group rec path lines conf_dir conf_file :
  not_nested_in_itself [] (items_of lines) = true →
  forallb (fun i => negb (is_include i)) (items_of lines) = true →
  ∃ b', load_lines fs parse_config net_parse dir_order rec path lines (builder_new conf_dir conf_file) = Some (Ok b') ∧
    ∀ n, opt_unwrap_or group_default (close_groups (bd_stack b') (bd_rule_groups b') !! n) =
         fold_left group_merge (item_group <$> lines_of n [] (items_of lines)) group_default.
Proof.
  intros Hnest Hinc. unfold load_lines. match goal with |- context [load_each _ lines ?x] => set (b := x) end.
  destruct (lines_read rec lines b) as (b' & Hl & Hd & Hg); [apply NoDup_nil_2|done..|].
  rewrite Hl. cbn [load_bind]. eexists. split; [done|]. intros n.
  transitivity (given (bd_rule_groups b') (bd_stack b') n).
  - rewrite <- close_groups_given by done. by destruct conf_file.
  - by rewrite Hg.
Qed.
End LoaderSpec.
