(* ===== verification/Chain.v ===== *)
(** * Reloading ([app.rs])

    The chain of middlewares that a configuration calls for, and the state of the
    application when the configuration is read again. *)

From S2P Require Import Prelude Names DomainMap Config Text DomainRule DomainRuleTree IpSet Message Runtime Context DnsUrl Samples Cache ClientBuild App ConfigItems Loader LoaderSpec.

(** The middlewares, with what each is made of. *)
Inductive MwKind :=
| MwNftset | MwAudit | MwCName | MwDns64 (prefix : Z * Z) | MwAddress | MwDnsmasq (lease_file : PathBuf)
| MwZone | MwOdhcpd (lease_file : PathBuf) | MwHosts | MwCache | MwDualStack | MwBogus | MwNameServer.

Section Chain.
Context {Name : Type} `{NameLib Name} {Level Pattern : Type}.
Context {RM : Type → Type} `{RangeMapLib RM}.
Abbreviation LC := (LoadedConfig Name Level Pattern RM).
Implicit Types (c : LC).

Definition any_group (f : RuleGroup Name → bool) c : bool := existsb (fun g => f g.2) (map_to_list (ld_rule_groups c)).
Definition cfg_client_rules c : list ClientRule := c_client_rules (cf_inner (ld_config c)).
Definition has_sets (o : ServerOpts) : bool := is_some (so_ipset o) || is_some (so_nftset o).

(** [DnsNftsetMiddleware::is_configured] *)
Definition nftset_is_configured c : bool :=
  existsb (fun bind => has_sets (bind_server_opts bind)) (cf_binds (ld_config c))
  || existsb (fun rule => has_sets (cr_options rule)) (cfg_client_rules c)
  || any_group (fun g =>
       negb (bool_decide (length (rg_nftsets g) = 0%nat))
       || is_some (net_ipset_no_speed (rg_network_sets g))
       || is_some (net_nftset_no_speed (rg_network_sets g))
       || existsb (fun r => is_some (ipset r.2) || is_some (nftset r.2)) (rg_domain_rules g)) c.

(** [DnsDualStackIpSelectionMiddleware::is_configured] *)
Definition dualstack_is_configured c : bool :=
  cfg_dualstack_ip_selection (ld_runtime c)
  || dualstack_ip_prefer_ipv4 (ld_runtime c)
  || any_group (fun g => existsb (fun r => bool_decide (dualstack_ip_selection r.2 = Some true)) (rg_domain_rules g)) c.

Definition when {A} (b : bool) (x : A) : list A := if b then [x] else [].
Definition when_some {A B} (x : option A) (f : A → B) : list B := match x with Some a => [f a] | None => [] end.

(** [build_middleware]: the chain; [is_file] looks at the lease file. *)
Definition build_middleware (is_file : PathBuf → bool) c : list MwKind :=
  let cfg := ld_config c in
  when (nftset_is_configured c) MwNftset
  ++ when (audit_enable cfg) MwAudit
  ++ when (any_group (fun g => negb (bool_decide (length (rg_cnames g) = 0%nat))) c) MwCName
  ++ when_some (c_dns64_prefix (cf_inner cfg)) MwDns64
  ++ [MwAddress]
  ++ when_some (opt_filter is_file (cf_dnsmasq_lease_file cfg)) MwDnsmasq
  ++ [MwZone]
  ++ when_some (cf_odhcpd_lease_file cfg) MwOdhcpd
  ++ when (resolv_hostname cfg) MwHosts
  ++ when (0 <? cache_size (ld_runtime c)) MwCache
  ++ when (dualstack_is_configured c) MwDualStack
  ++ when (negb (im_is_empty (rc_bogus_nxdomain (ld_runtime c)))) MwBogus
  ++ [MwNameServer].

(** ** The state of the application *)
(** The cache a configuration calls for; a cache is known by what it was made of. *)
Context {Cache : Type} (new_cache : LC → Cache).
Variable feature_webui : bool.
Variable is_file : PathBuf → bool.
Variable cert_ok tls_ok : SslConfig → bool.
Variable socket_ok : BindAddrConfig → bool.
Abbreviation serve := (serve cert_ok tls_ok socket_ok).
Abbreviation update_listeners := (update_listeners cert_ok tls_ok socket_ok).

Record AppState := mkApp {
  ap_cfg : LC;
  (** the handler of the dispatcher: its chain and the configuration of its contexts *)
  ap_handler : list MwKind * LC;
  ap_listeners : ListenerState;
  ap_own_listeners : list Listener;
  ap_cache : option Cache;
}.

(** [update_middleware_handler] *)
Definition update_middleware_handler (st : AppState) : AppState :=
  let cfg := ap_cfg st in
  let chain := build_middleware is_file cfg in
  mkApp cfg (chain, cfg) (ap_listeners st) (from_binds (cf_binds (ld_config cfg)))
    (if 0 <? cache_size (ld_runtime cfg) then Some (new_cache cfg) else ap_cache st).

Definition app_update_listeners (st : AppState) : AppState * bool :=
  let '(listeners, panicked) := update_listeners (cf_binds (ld_config (ap_cfg st))) (ap_listeners st) in
  (mkApp (ap_cfg st) (ap_handler st) listeners (ap_own_listeners st) (ap_cache st), panicked).

Definition same_webui (a b : LC) : bool :=
  bool_decide (webui_enabled feature_webui (ld_config a) = webui_enabled feature_webui (ld_config b))
  && bool_decide (webui_address (ld_config a) = webui_address (ld_config b)).

Inductive ReloadEnd := ReloadRefused | Reloaded | ReloadPanics.
#[local] Instance ReloadEnd_eq_dec : EqDecision ReloadEnd.
Proof. solve_decision. Defined.

(** [App::reload], from what reading the configuration gave. *)
Definition reload (replacement : result LC LoadError) (st : AppState) : AppState * ReloadEnd :=
  match replacement with
  | Err _ => (st, ReloadRefused)
  | Ok cfg =>
      if same_webui (ap_cfg st) cfg then
        let '(st, panicked) := app_update_listeners (update_middleware_handler
           (mkApp cfg (ap_handler st) (ap_listeners st) (ap_own_listeners st) (ap_cache st))) in
        (st, if panicked then ReloadPanics else Reloaded)
      else (st, ReloadRefused)
  end.

(** [App::init] from [App::new]: refused when the web interface is asked for and
    not built in; true: it panics. *)
Definition app_init (cfg : LC) : option (AppState * bool) :=
  if feature_webui || negb (webui_enabled feature_webui (ld_config cfg)) then
    Some (app_update_listeners (update_middleware_handler
            (mkApp cfg ([], cfg) (mkListeners [] 0%nat []) [] None)))
  else None.

(** ** Correctness *)

(** The order of the middlewares. *)
Definition mw_rank (m : MwKind) : Z :=
  match m with
  | MwNftset => 0 | MwAudit => 1 | MwCName => 2 | MwDns64 _ => 3 | MwAddress => 4 | MwDnsmasq _ => 5 | MwZone => 6
  | MwOdhcpd _ => 7 | MwHosts => 8 | MwCache => 9 | MwDualStack => 10 | MwBogus => 11 | MwNameServer => 12
  end.

Definition above (r : Z) (l : list MwKind) : Prop :=
  StronglySorted (fun a b => mw_rank a < mw_rank b) l ∧ ∀ m, m ∈ l → r < mw_rank m.

Lemma above_app r r' s l :
  r < r' → (∀ m, m ∈ s → mw_rank m = r') → (length s ≤ 1)%nat → above r' l → above r (s ++ l).
Proof.
  intros Hr Hs Hl [Hsort Habove]. destruct s as [|m [|m' s]]; [| |cbn in Hl; lia].
  - split; [done|]. intros m Hm. specialize (Habove m Hm). lia.
  - specialize (Hs m ltac:(by left)). split.
    + cbn. constructor; [done|]. apply Forall_forall. intros m' Hm. specialize (Habove m' Hm). lia.
    + intros m' [->|Hm]%elem_of_cons; [lia|]. specialize (Habove m' Hm). lia.
Qed.

Lemma above_when r b m l : r < mw_rank m → above (mw_rank m) l → above r (when b m ++ l).
Proof.
  intros. apply (above_app _ (mw_rank m)); [done| |destruct b; cbn; lia|done].
  destruct b; cbn; [by intros m' ->%list_elem_of_singleton|by intros m' ?%not_elem_of_nil].
Qed.

Lemma above_when_some {A} r (x : option A) f k l :
  (∀ a, mw_rank (f a) = k) → r < k → above k l → above r (when_some x f ++ l).
Proof.
  intros Hf Hr. apply above_app; [done| |destruct x; cbn; lia].
  destruct x; cbn; [by intros m' ->%list_elem_of_singleton|by intros m' ?%not_elem_of_nil].
Qed.

Lemma chain_above c : above (-1) (build_middleware is_file c).
Proof.
  unfold build_middleware.
  repeat first
    [ apply above_when; [cbn; lia|]
    | apply (above_when_some _ _ _ 3); [done|cbn; lia|]
    | apply (above_when_some _ _ _ 5); [done|cbn; lia|]
    | apply (above_when_some _ _ _ 7); [done|cbn; lia|]
    | apply (above_app _ 4 [MwAddress]); [cbn; lia|by intros m ->%list_elem_of_singleton|cbn; lia|]
    | apply (above_app _ 6 [MwZone]); [cbn; lia|by intros m ->%list_elem_of_singleton|cbn; lia|] ].
  split; [by repeat constructor|]. by intros m ->%list_elem_of_singleton.
Qed.

Lemma elem_of_when {A} b (m x : A) : m ∈ when b x ↔ b = true ∧ m = x.
Proof. destruct b; cbn; [rewrite list_elem_of_singleton; naive_solver|split; [by intros ?%not_elem_of_nil|by intros [? _]]]. Qed.
Lemma elem_of_when_some {A B} (o : option A) (f : A → B) m : m ∈ when_some o f ↔ ∃ a, o = Some a ∧ m = f a.
Proof. destruct o; cbn; [rewrite list_elem_of_singleton; naive_solver|split; [by intros ?%not_elem_of_nil|naive_solver]]. Qed.

Lemma chain_cache c : MwCache ∈ build_middleware is_file c ↔ 0 < cache_size (ld_runtime c).
Proof.
  unfold build_middleware. rewrite !elem_of_app, !elem_of_when, !elem_of_when_some, !list_elem_of_singleton, Z.ltb_lt.
  naive_solver.
Qed.

Lemma reflect_panics (panicked : bool) : (if panicked then ReloadPanics else Reloaded) = ReloadPanics ↔ panicked = true.
Proof. by destruct panicked. Qed.

End Chain.

(** * Configurations at work

    Files that include each other, groups within groups, and a configuration that
    is read, used and read again. *)

#[local] Instance ex_net : NetLib := mask_net.

Abbreviation ExItem := (ConfigItem PlainName unit unit).
Definition ex_address (a : Z) : Domain PlainName * AddressRuleValue :=
  (DName (WDefault sample_name), AAddr (Some [a]) None).

(** A line is a code and its argument. *)
Definition ex_parse (l : text) : option (option ExItem) :=
  match l with
  | [1; _] => Some (Some (CiConfFile (path_of_name "b")))
  | [2; 0] => Some (Some (CiGroupBegin "default"))
  | [2; _] => Some (Some (CiGroupBegin "office"))
  | [3] => Some (Some CiGroupEnd)
  | [4; n] => Some (Some (CiCacheSize n))
  | [5; a] => Some (Some (CiAddress (ex_address a)))
  | [6; a] => Some (Some (CiConfFile (path_of_name "a")))
  | [] => Some None
  | _ => None
  end.

Definition ex_file (name : string) : PathBuf := mkPathBuf true ["etc"%string; name].

(** Two files of one directory. *)
Definition ex_fs (a b : list text) : Fs :=
  let known p := bool_decide (p = ex_file "a") || bool_decide (p = ex_file "b") in
  mkFs known known (fun p => if known p then Some p else None)
    (fun p => Some (if bool_decide (p = ex_file "a") then a else b)) (fun _ => None) (fun _ => Some []) None None.

Definition ex_load (a b : list text) (fuel : nat) : Loaded Builder :=
  load_file (ex_fs a b) ex_parse (fun _ => None) id fuel (ex_file "a") (builder_new None None).

(** Files that include each other and themselves are read once each. *)
Definition ex_loop : Fs := ex_fs [[1; 0]; [6; 0]; [4; 7]] [[6; 0]; [1; 0]].

Lemma load_file_ends_example :
  (fun r => match r with Ok b => elements (bd_loaded_files b) | Err _ => [] end)
    <$> ex_load [[1; 0]; [6; 0]; [4; 7]] [[6; 0]; [1; 0]] 2 = Some [ex_file "b"; ex_file "a"].
Proof. vm_compute. reflexivity. Qed.

Lemma load_file_ends_witness :
  ∃ r, ∀ n, (2 ≤ n)%nat → ex_load [[1; 0]; [6; 0]; [4; 7]] [[6; 0]; [1; 0]] n = Some r.
Proof.
  destruct (load_file_ends ex_loop ex_parse (fun _ => None) id {[ex_file "a"; ex_file "b"]}) with
    (path := ex_file "a") (b := builder_new (Name := PlainName) (Level := unit) (Pattern := unit) None None) as [r Hr].
  - intros p q. cbn. repeat case_bool_decide; subst; cbn; intros [= <-]; set_solver.
  - exists r. intros n Hn. apply Hr. assert (size ({[ex_file "a"; ex_file "b"]} : gset PathBuf) = 2%nat) as -> by (vm_compute; reflexivity).
    done.
Defined.

(** Rules before, in and after a group. *)
Definition ex_lines : list text := [[5; 1]; [2; 1]; [5; 2]; [3]; []; [5; 3]].

Lemma rules_reach_group_witness :
  ∃ b, load_lines (ex_fs ex_lines []) ex_parse (fun _ => None) id (fun _ b => Some (Ok b)) (ex_file "a") ex_lines
         (builder_new None None) = Some (Ok b) ∧
    rg_address_rules (opt_unwrap_or group_default (close_groups (bd_stack b) (bd_rule_groups b) !! "default"%string))
      = [ex_address 1; ex_address 3].
Proof.
  destruct (rules_reach_group (ex_fs ex_lines []) ex_parse (fun _ => None) id (fun _ b => Some (Ok b)) (ex_file "a")
              ex_lines None None) as (b & Hb & Hg); [vm_compute; reflexivity|vm_compute; reflexivity|].
  exists b. split; [exact Hb|]. rewrite Hg. reflexivity.
Defined.

(** A group within itself: the inner rules come before the outer ones that were
    written first, and so the outer ones win. *)
Lemma nested_group_order :
  match ex_load [[5; 1]; [2; 0]; [5; 2]; [3]; [5; 3]] [] 2 with
  | Some (Ok b) =>
      rg_address_rules (opt_unwrap_or group_default (close_groups (bd_stack b) (bd_rule_groups b) !! "default"%string))
      = [ex_address 2; ex_address 1; ex_address 3]
  | _ => False
  end.
Proof. vm_compute. reflexivity. Qed.
