(* ===== verification/Nom.v ===== *)
(** * Parser combinators ([config/parser])

    The parsers of the configuration are built of the combinators of a library
    ([nom]). A parser takes what it reads from the front of the characters; an error
    lets others be tried, a failure does not. The combinators are a class, whose laws
    are what the library documents of them. *)

From S2P Require Import Prelude Names Config Text.

(** [IResult], and the panic of a function that a parser calls. *)
Inductive IResult (A : Type) :=
| IOk (rest : text) (a : A)
| IErr
| IFail
| IPanic.
Arguments IOk {A} _ _.
Arguments IErr {A}.
Arguments IFail {A}.
Arguments IPanic {A}.

Definition Parser (A : Type) : Type := text → IResult A.

Definition ires_bind {A B} (r : IResult A) (k : text → A → IResult B) : IResult B :=
  match r with IOk rest a => k rest a | IErr => IErr | IFail => IFail | IPanic => IPanic end.

(** ** What the combinators do *)
Section Documented.
Context {A B C : Type}.

Fixpoint span (p : Z → bool) (l : text) : text * text :=
  match l with
  | c :: l' => if p c then let '(a, b) := span p l' in (c :: a, b) else ([], l)
  | [] => ([], [])
  end.

Definition one_of_chars (s : text) (c : Z) : bool := existsb (Z.eqb c) s.

Definition doc_tag (t : text) : Parser text := fun i =>
  if bool_decide (take (length t) i = t) then IOk (drop (length t) i) t else IErr.
Definition doc_tag_no_case (t : text) : Parser text := fun i =>
  if bool_decide (text_lower (take (length t) i) = text_lower t) then IOk (drop (length t) i) (take (length t) i) else IErr.
Definition doc_char (c : Z) : Parser Z := fun i =>
  match i with x :: r => if x =? c then IOk r c else IErr | [] => IErr end.
Definition doc_one_of (s : text) : Parser Z := fun i =>
  match i with x :: r => if one_of_chars s x then IOk r x else IErr | [] => IErr end.
Definition doc_take_while (p : Z → bool) : Parser text := fun i => let '(a, r) := span p i in IOk r a.
Definition doc_take_while1 (p : Z → bool) : Parser text := fun i =>
  match span p i with ([], _) => IErr | (a, r) => IOk r a end.
Definition doc_take_while_m_n (m n : nat) (p : Z → bool) : Parser text := fun i =>
  let k := Nat.min n (length (span p i).1) in
  if (k <? m)%nat then IErr else IOk (drop k i) (take k i).
Definition doc_not_line_ending : Parser text := fun i =>
  let '(a, r) := span (fun c => negb (one_of_chars [10; 13] c)) i in
  match r with
  | 13 :: 10 :: _ => IOk r a
  | 13 :: _ => IErr
  | _ => IOk r a
  end.
Definition doc_line_ending : Parser text := fun i =>
  match i with
  | c :: r => if c =? 10 then IOk r [10]
              else if c =? 13 then match r with d :: r => if d =? 10 then IOk r [13; 10] else IErr | [] => IErr end
              else IErr
  | [] => IErr
  end.
Definition doc_eof : Parser text := fun i => match i with [] => IOk [] [] | _ => IErr end.

(** A number of digits, at least one, within the width. *)
Definition doc_unsigned (limit : Z) : Parser Z := fun i =>
  match digits 10 0 0 i with
  | (v, S _, r) => if v <=? limit then IOk r v else IErr
  | _ => IErr
  end.
Definition doc_signed (limit : Z) : Parser Z := fun i =>
  let '(neg, i) := match i with
                   | c :: r => if c =? 45 then (true, r) else if c =? 43 then (false, r) else (false, i)
                   | [] => (false, i)
                   end in
  match digits 10 0 0 i with
  | (v, S _, r) => let v := if neg then - v else v in if (- limit - 1 <=? v) && (v <=? limit) then IOk r v else IErr
  | _ => IErr
  end.

Definition doc_map (p : Parser A) (f : A → B) : Parser B := fun i => ires_bind (p i) (fun r a => IOk r (f a)).
Definition doc_map_res (p : Parser A) (f : A → option B) : Parser B := fun i =>
  ires_bind (p i) (fun r a => match f a with Some b => IOk r b | None => IErr end).
Definition doc_value (b : B) (p : Parser A) : Parser B := fun i => ires_bind (p i) (fun r _ => IOk r b).
Definition doc_verify (p : Parser A) (ok : A → bool) : Parser A := fun i =>
  ires_bind (p i) (fun r a => if ok a then IOk r a else IErr).
Definition doc_recognize (p : Parser A) : Parser text := fun i =>
  ires_bind (p i) (fun r _ => IOk r (take (length i - length r) i)).
Definition doc_opt (p : Parser A) : Parser (option A) := fun i =>
  match p i with IErr => IOk i None | r => ires_bind r (fun rest a => IOk rest (Some a)) end.
Definition doc_all_consuming (p : Parser A) : Parser A := fun i =>
  ires_bind (p i) (fun r a => match r with [] => IOk [] a | _ => IErr end).
Definition doc_pair (p : Parser A) (q : Parser B) : Parser (A * B) := fun i =>
  ires_bind (p i) (fun r a => ires_bind (q r) (fun r b => IOk r (a, b))).
Definition doc_preceded (p : Parser A) (q : Parser B) : Parser B := fun i => ires_bind (p i) (fun r _ => q r).
Definition doc_terminated (p : Parser A) (q : Parser B) : Parser A := fun i =>
  ires_bind (p i) (fun r a => ires_bind (q r) (fun r _ => IOk r a)).
Definition doc_delimited (p : Parser A) (q : Parser B) (s : Parser C) : Parser B := fun i =>
  ires_bind (p i) (fun r _ => ires_bind (q r) (fun r b => ires_bind (s r) (fun r _ => IOk r b))).

Fixpoint doc_alt (l : list (Parser A)) : Parser A := fun i =>
  match l with
  | [] => IErr
  | p :: l => match p i with IErr => doc_alt l i | r => r end
  end.

(** Items after a separator each, until one of the two does not read; a turn that
    takes nothing is an error. *)
Fixpoint doc_more (fuel : nat) (sep : Parser A) (p : Parser B) (acc : list B) : Parser (list B) := fun i =>
  match fuel with
  | O => IErr
  | S fuel =>
      match sep i with
      | IErr => IOk i acc
      | r => ires_bind r (fun i1 _ =>
          match p i1 with
          | IErr => IOk i acc
          | r => ires_bind r (fun i2 b =>
              if (length i2 =? length i)%nat then IErr else doc_more fuel sep p (acc ++ [b]) i2)
          end)
      end
  end.
Definition doc_separated_list1 (sep : Parser A) (p : Parser B) : Parser (list B) := fun i =>
  ires_bind (p i) (fun r b => doc_more (S (length r)) sep p [b] r).
Definition doc_separated_list0 (sep : Parser A) (p : Parser B) : Parser (list B) := fun i =>
  match p i with IErr => IOk i [] | r => ires_bind r (fun r b => doc_more (S (length r)) sep p [b] r) end.

(** Up to [n] times, and at least [m] times. *)
Fixpoint doc_many (m n : nat) (p : Parser A) (acc : list A) : Parser (list A) := fun i =>
  match n with
  | O => IOk i acc
  | S n =>
      match p i with
      | IErr => if (length acc <? m)%nat then IErr else IOk i acc
      | r => ires_bind r (fun r a => if (length r =? length i)%nat then IErr else doc_many m n p (acc ++ [a]) r)
      end
  end.

(** What [normal] reads, and characters after a control character: how many
    characters are taken. *)
Fixpoint doc_escaped (fuel : nat) (normal : Parser A) (control : Z) (escapable : Parser B) (stuck : bool) (i : text) : option nat :=
  match fuel with
  | O => None
  | S fuel =>
      match i with
      | [] => Some O
      | c :: r =>
          let escape :=
            if c =? control then
              match r with
              | [] => None
              | _ => match escapable r with
                     | IOk r2 _ => (fun n => (length i - length r2 + n)%nat) <$> doc_escaped fuel normal control escapable false r2
                     | _ => None
                     end
              end
            else Some O in
          match normal i with
          | IOk r2 _ =>
              if stuck then escape
              else (fun n => (length i - length r2 + n)%nat)
                     <$> doc_escaped fuel normal control escapable (length r2 =? length i)%nat r2
          | _ => escape
          end
      end
  end.
End Documented.

(** ** The library *)
Class Nom := {
  n_tag : text → Parser text;
  n_tag_no_case : text → Parser text;
  n_char : Z → Parser Z;
  n_one_of : text → Parser Z;
  n_is_not : text → Parser text;
  n_is_a : text → Parser text;
  n_take_while : (Z → bool) → Parser text;
  n_take_while1 : (Z → bool) → Parser text;
  n_take_till : (Z → bool) → Parser text;
  n_take_till1 : (Z → bool) → Parser text;
  n_take_while_m_n : nat → nat → (Z → bool) → Parser text;
  n_space0 : Parser text;
  n_space1 : Parser text;
  n_digit1 : Parser text;
  n_hex_digit1 : Parser text;
  n_alpha1 : Parser text;
  n_not_line_ending : Parser text;
  n_line_ending : Parser text;
  n_eof : Parser text;
  n_u8 : Parser Z;
  n_u16 : Parser Z;
  n_u64 : Parser Z;
  n_i64 : Parser Z;
  n_map {A B} : Parser A → (A → B) → Parser B;
  n_map_res {A B} : Parser A → (A → option B) → Parser B;
  n_value {A B} : B → Parser A → Parser B;
  n_verify {A} : Parser A → (A → bool) → Parser A;
  n_recognize {A} : Parser A → Parser text;
  n_opt {A} : Parser A → Parser (option A);
  n_all_consuming {A} : Parser A → Parser A;
  n_pair {A B} : Parser A → Parser B → Parser (A * B);
  n_preceded {A B} : Parser A → Parser B → Parser B;
  n_terminated {A B} : Parser A → Parser B → Parser A;
  n_delimited {A B C} : Parser A → Parser B → Parser C → Parser B;
  n_alt {A} : list (Parser A) → Parser A;
  n_separated_list0 {A B} : Parser A → Parser B → Parser (list B);
  n_separated_list1 {A B} : Parser A → Parser B → Parser (list B);
  n_many_m_n {A} : nat → nat → Parser A → Parser (list A);
  n_escaped {A B} : Parser A → Z → Parser B → Parser text;
}.

Definition is_digit (c : Z) : bool := (48 <=? c) && (c <=? 57).
Definition is_alpha (c : Z) : bool := ((65 <=? c) && (c <=? 90)) || ((97 <=? c) && (c <=? 122)).
Definition is_space (c : Z) : bool := one_of_chars [32; 9] c.
Definition is_ascii (c : Z) : Prop := 0 ≤ c < 128.

Definition is_hexdigit (c : Z) : bool := is_ascii_hexdigit c.
(** The letters and digits, of which the text model of non-ASCII characters is the
    Unicode tables of the standard library. *)
Definition is_ascii_alphanumeric (c : Z) : bool := is_digit c || is_alpha c.

(** What the library documents. Case is ignored as Unicode folds it: the laws are
    those for ASCII characters. *)
Class NomLaws `{Nom} : Prop := {
  n_tag_eq t i : n_tag t i = doc_tag t i;
  n_tag_no_case_eq t i :
    Forall is_ascii t → Forall is_ascii (take (length t) i) → n_tag_no_case t i = doc_tag_no_case t i;
  n_tag_no_case_differs t i k c d :
    t !! k = Some c → i !! k = Some d → is_ascii c → is_ascii d → ascii_lower c ≠ ascii_lower d →
    n_tag_no_case t i = IErr;
  n_char_eq c i : n_char c i = doc_char c i;
  n_one_of_eq s i : n_one_of s i = doc_one_of s i;
  n_is_not_eq s i : n_is_not s i = doc_take_while1 (fun c => negb (one_of_chars s c)) i;
  n_is_a_eq s i : n_is_a s i = doc_take_while1 (one_of_chars s) i;
  n_take_while_eq p i : n_take_while p i = doc_take_while p i;
  n_take_while1_eq p i : n_take_while1 p i = doc_take_while1 p i;
  n_take_till_eq p i : n_take_till p i = doc_take_while (fun c => negb (p c)) i;
  n_take_till1_eq p i : n_take_till1 p i = doc_take_while1 (fun c => negb (p c)) i;
  n_take_while_m_n_eq m n p i : n_take_while_m_n m n p i = doc_take_while_m_n m n p i;
  n_space0_eq i : n_space0 i = doc_take_while is_space i;
  n_space1_eq i : n_space1 i = doc_take_while1 is_space i;
  n_digit1_eq i : n_digit1 i = doc_take_while1 is_digit i;
  n_hex_digit1_eq i : n_hex_digit1 i = doc_take_while1 is_hexdigit i;
  n_alpha1_eq i : n_alpha1 i = doc_take_while1 is_alpha i;
  n_not_line_ending_eq i : n_not_line_ending i = doc_not_line_ending i;
  n_line_ending_eq i : n_line_ending i = doc_line_ending i;
  n_eof_eq i : n_eof i = doc_eof i;
  n_u8_eq i : n_u8 i = doc_unsigned 255 i;
  n_u16_eq i : n_u16 i = doc_unsigned 65535 i;
  n_u64_eq i : n_u64 i = doc_unsigned (2 ^ 64 - 1) i;
  n_i64_eq i : n_i64 i = doc_signed (2 ^ 63 - 1) i;
  n_map_eq {A B} (p : Parser A) (f : A → B) i : n_map p f i = doc_map p f i;
  n_map_res_eq {A B} (p : Parser A) (f : A → option B) i : n_map_res p f i = doc_map_res p f i;
  n_value_eq {A B} (b : B) (p : Parser A) i : n_value b p i = doc_value b p i;
  n_verify_eq {A} (p : Parser A) ok i : n_verify p ok i = doc_verify p ok i;
  n_recognize_eq {A} (p : Parser A) i : n_recognize p i = doc_recognize p i;
  n_opt_eq {A} (p : Parser A) i : n_opt p i = doc_opt p i;
  n_all_consuming_eq {A} (p : Parser A) i : n_all_consuming p i = doc_all_consuming p i;
  n_pair_eq {A B} (p : Parser A) (q : Parser B) i : n_pair p q i = doc_pair p q i;
  n_preceded_eq {A B} (p : Parser A) (q : Parser B) i : n_preceded p q i = doc_preceded p q i;
  n_terminated_eq {A B} (p : Parser A) (q : Parser B) i : n_terminated p q i = doc_terminated p q i;
  n_delimited_eq {A B C} (p : Parser A) (q : Parser B) (s : Parser C) i : n_delimited p q s i = doc_delimited p q s i;
  n_alt_eq {A} (l : list (Parser A)) i : n_alt l i = doc_alt l i;
  n_separated_list0_eq {A B} (s : Parser A) (p : Parser B) i : n_separated_list0 s p i = doc_separated_list0 s p i;
  n_separated_list1_eq {A B} (s : Parser A) (p : Parser B) i : n_separated_list1 s p i = doc_separated_list1 s p i;
  n_many_m_n_eq {A} m n (p : Parser A) i : n_many_m_n m n p i = doc_many m n p [] i;
  n_escaped_eq {A B} (p : Parser A) c (q : Parser B) i :
    n_escaped p c q i = match i with
                        | [] => IOk [] []
                        | _ => match doc_escaped (2 * length i + 2) p c q false i with
                               | Some (S n) => IOk (drop (S n) i) (take (S n) i)
                               | _ => IErr
                               end
                        end;
}.

(** The library as its documentation has it. *)
Definition doc_nom : Nom := {|
  n_tag := doc_tag;
  n_tag_no_case := doc_tag_no_case;
  n_char := doc_char;
  n_one_of := doc_one_of;
  n_is_not s := doc_take_while1 (fun c => negb (one_of_chars s c));
  n_is_a s := doc_take_while1 (one_of_chars s);
  n_take_while := doc_take_while;
  n_take_while1 := doc_take_while1;
  n_take_till p := doc_take_while (fun c => negb (p c));
  n_take_till1 p := doc_take_while1 (fun c => negb (p c));
  n_take_while_m_n := doc_take_while_m_n;
  n_space0 := doc_take_while is_space;
  n_space1 := doc_take_while1 is_space;
  n_digit1 := doc_take_while1 is_digit;
  n_hex_digit1 := doc_take_while1 is_hexdigit;
  n_alpha1 := doc_take_while1 is_alpha;
  n_not_line_ending := doc_not_line_ending;
  n_line_ending := doc_line_ending;
  n_eof := doc_eof;
  n_u8 := doc_unsigned 255;
  n_u16 := doc_unsigned 65535;
  n_u64 := doc_unsigned (2 ^ 64 - 1);
  n_i64 := doc_signed (2 ^ 63 - 1);
  n_map A B := doc_map;
  n_map_res A B := doc_map_res;
  n_value A B := doc_value;
  n_verify A := doc_verify;
  n_recognize A := doc_recognize;
  n_opt A := doc_opt;
  n_all_consuming A := doc_all_consuming;
  n_pair A B := doc_pair;
  n_preceded A B := doc_preceded;
  n_terminated A B := doc_terminated;
  n_delimited A B C := doc_delimited;
  n_alt A := doc_alt;
  n_separated_list0 A B := doc_separated_list0;
  n_separated_list1 A B := doc_separated_list1;
  n_many_m_n A m n p := doc_many m n p [];
  n_escaped A B p c q i :=
    match i with
    | [] => IOk [] []
    | _ => match doc_escaped (2 * length i + 2) p c q false i with
           | Some (S n) => IOk (drop (S n) i) (take (S n) i)
           | _ => IErr
           end
    end;
|}.

Lemma doc_nom_laws : @NomLaws doc_nom.
Proof.
  split; try done. unfold text, text_lower. intros t i k c d Ht Hi _ _ Hne. cbn. unfold doc_tag_no_case, text_lower, text.
  case_bool_decide as E; [|done]. exfalso. apply Hne.
  assert (E' : (ascii_lower <$> take (length t) (i : list Z)) !! k = (ascii_lower <$> (t : list Z)) !! k) by (by f_equal).
  rewrite !list_lookup_fmap, Ht, lookup_take_lt, Hi in E' by (by eapply lookup_lt_Some).
  by injection E'.
Qed.

Create Rewrite HintDb nom.
#[export] Hint Rewrite @n_tag_eq @n_char_eq @n_one_of_eq @n_is_not_eq @n_is_a_eq @n_take_while_eq @n_take_while1_eq
  @n_take_till_eq @n_take_till1_eq @n_take_while_m_n_eq @n_space0_eq @n_space1_eq @n_digit1_eq @n_hex_digit1_eq
  @n_alpha1_eq @n_not_line_ending_eq @n_line_ending_eq @n_eof_eq @n_u8_eq @n_u16_eq @n_u64_eq @n_i64_eq @n_map_eq @n_map_res_eq
  @n_value_eq @n_verify_eq @n_recognize_eq @n_opt_eq @n_all_consuming_eq @n_pair_eq @n_preceded_eq @n_terminated_eq
  @n_delimited_eq @n_alt_eq @n_separated_list0_eq @n_separated_list1_eq @n_many_m_n_eq @n_escaped_eq
  using typeclasses eauto : nom.

(** ** Text *)
(** [char::encode_utf8] *)
Definition utf8_char (c : Z) : list Z :=
  if c <? 128 then [c]
  else if c <? 2048 then [192 + c / 64; 128 + c mod 64]
  else if c <? 65536 then [224 + c / 4096; 128 + c / 64 mod 64; 128 + c mod 64]
  else [240 + c / 262144; 128 + c / 4096 mod 64; 128 + c / 64 mod 64; 128 + c mod 64].
Definition utf8 (t : text) : list Z := t ≫= utf8_char.
Definition string_of_text (t : text) : string := text_of_bytes (utf8 t).

(** The functions on characters that need the tables of Unicode. *)
Class Unicode := {
  char_is_alphanumeric : Z → bool;
  str_to_lowercase : text → text;
}.
Class UnicodeLaws `{Unicode} : Prop := {
  char_is_alphanumeric_ascii c : is_ascii c → char_is_alphanumeric c = is_ascii_alphanumeric c;
  str_to_lowercase_ascii t : Forall is_ascii t → str_to_lowercase t = text_lower t;
}.
Definition ascii_unicode : Unicode := {| char_is_alphanumeric := is_ascii_alphanumeric; str_to_lowercase := text_lower |}.
Lemma ascii_unicode_laws : @UnicodeLaws ascii_unicode.
Proof. by split. Qed.

(** ** Lemmas *)
Lemma span_app p a r : forallb p a = true → opt_map_or true (fun c => negb (p c)) (head r) = true → span p (a ++ r) = (a, r).
Proof.
  intros Ha Hr. induction a as [|c a IH]; cbn [app].
  - destruct r as [|c r]; [done|]. cbn in *. apply negb_true_iff in Hr. by rewrite Hr.
  - cbn in *. apply andb_true_iff in Ha as [Hc Ha]. by rewrite Hc, IH.
Qed.

(** What a parser reads is the end of what it was given. *)
Lemma span_spec p i a r : span p i = (a, r) → i = a ++ r ∧ forallb p a = true.
Proof.
  revert a r. induction i as [|c i IH]; intros a r; cbn; [by intros [= <- <-]|].
  destruct (p c) eqn:Ep; [|by intros [= <- <-]]. destruct (span p i) as [a' r'] eqn:E.
  intros [= <- <-]. destruct (IH _ _ eq_refl) as [-> Hf]. cbn. by rewrite Ep, Hf.
Qed.

Section Laws.
Context `{NL : NomLaws}.

(** A keyword of ASCII letters, in any case, at the front. *)
Lemma tag_no_case_reads t x r :
  Forall is_ascii t → Forall is_ascii x → text_lower x = text_lower t → n_tag_no_case t (x ++ r) = IOk r x.
Proof.
  intros Ht Hx E.
  assert (Hl : length x = length t) by (apply (f_equal length) in E; unfold text_lower in E; by rewrite !length_fmap in E).
  rewrite n_tag_no_case_eq; rewrite <- ?Hl, ?take_app_length; [|done..].
  unfold doc_tag_no_case. rewrite <- Hl, take_app_length, drop_app_length. by rewrite bool_decide_true.
Qed.

Lemma space1_reads ws r :
  ws ≠ [] → forallb is_space ws = true → opt_map_or true (fun c => negb (is_space c)) (head r) = true →
  n_space1 (ws ++ r) = IOk r ws.
Proof. intros Hne Hw Hr. rewrite n_space1_eq. unfold doc_take_while1. rewrite span_app by done. by destruct ws. Qed.

Lemma space0_reads ws r :
  forallb is_space ws = true → opt_map_or true (fun c => negb (is_space c)) (head r) = true →
  n_space0 (ws ++ r) = IOk r ws.
Proof. intros Hw Hr. rewrite n_space0_eq. unfold doc_take_while. by rewrite span_app. Qed.

Lemma space0_none i : opt_map_or true (fun c => negb (is_space c)) (head i) = true → n_space0 i = IOk i [].
Proof. intros Hi. by apply (space0_reads []). Qed.
End Laws.
