(* ===== verification/ParseValues.v ===== *)
(** * Values of the configuration as text ([config/parser/*.rs])

    Numbers, addresses, names, paths and modes: one parser each. *)

From S2P Require Import Prelude Names Config Text Message DomainRuleTree Runtime ConfigItems Ping Nom.

(** What libraries make of a text: sizes in bytes and patterns of labels; networks
    of an address and a prefix length; patterns of files and levels of the log. *)
Class ValueLib := {
  byte_parse : text → option Z;
  wildcard_from_str : text → option Wildcard;
  net_new : IpAddr → Z → option IpNet;
}.
Class TokenLib (Level Pattern : Type) := {
  glob_parse : text → option Pattern;
  level_trace : Level;
  level_debug : Level;
  level_info : Level;
  level_warn : Level;
  level_error : Level;
}.

Class ValueLaws `{ValueLib} : Prop := {
  net_new_spec ip len : 0 ≤ len → net_new ip len = if len <=? family_width ip then Some (mkNet ip len) else None;
}.

(** [FileMode::from_str] ([infra/file_mode.rs]) *)
Definition file_mode_from_str (s : text) : option Z :=
  let s := trim s in
  let s := opt_unwrap_or s (strip_prefix (text_of "0o") s) in
  let s := opt_unwrap_or s (strip_prefix (text_of "o") s) in
  parse_unsigned 8 u32_max s.

(** A path of its text, on Unix. *)
Definition path_of_text (t : text) : PathBuf :=
  let root := bool_decide (head t = Some 47) in
  let parts := words_at (Z.eqb 47) t in
  let plain := List.filter (fun part => negb (bool_decide (part = [46]))) in
  mkPathBuf root (string_of_text <$> if root then plain parts else take 1 parts ++ plain (drop 1 parts)).

(** The closure of a [map] that may panic. *)
Definition n_map_panic `{Nom} {A B} (p : Parser A) (f : A → option B) : Parser B := fun i =>
  ires_bind (n_map p f i) (fun r b => match b with Some b => IOk r b | None => IPanic end).

Section Values.
Context {Name Level Pattern : Type} `{NameLib Name} `{NameText Name} `{N : Nom} `{V : ValueLib} `{T : TokenLib Level Pattern}.

Definition blanks : text := [32; 9; 13; 10].

(** *** [parser/mod.rs], [bool.rs], [bytes.rs] *)
Definition p_usize : Parser Z := n_map n_u64 (fun v => v).
Definition p_isize : Parser Z := n_map_res n_i64 Some.
Definition p_string : Parser string := n_map (n_is_not blanks) string_of_text.
Definition p_sock_addr : Parser SocketAddr := n_map_res (n_is_not blanks) sock_parse.

Definition p_bool : Parser bool :=
  let t := n_value true (n_alt [n_tag_no_case (text_of "True"); n_tag_no_case (text_of "T");
                                n_tag_no_case (text_of "Yes"); n_tag_no_case (text_of "Y"); n_tag (text_of "1")]) in
  let f := n_value false (n_alt [n_tag_no_case (text_of "False"); n_tag_no_case (text_of "F");
                                 n_tag_no_case (text_of "No"); n_tag_no_case (text_of "N"); n_tag (text_of "0")]) in
  n_alt [t; f].

Definition p_byte : Parser Z :=
  let num := n_recognize (n_pair n_digit1 (n_opt (n_pair (n_char 46) n_digit1))) in
  let unit_ := n_opt n_alpha1 in
  n_map_res (n_recognize (n_pair (n_pair num n_space0) unit_)) byte_parse.

(** *** [nom_recipes] *)
Definition p_octet : Parser Z := n_map_res (n_recognize (n_many_m_n 1 3 n_digit1)) (parse_unsigned 10 u8_max).

Definition p_ipv4 : Parser Z :=
  n_map (n_pair (n_pair (n_pair p_octet (n_preceded (n_char 46) p_octet)) (n_preceded (n_char 46) p_octet))
                (n_preceded (n_char 46) p_octet))
        (fun '(a, b, c, d) => ((a * 256 + b) * 256 + c) * 256 + d).

Definition p_group : Parser Z :=
  n_map_res (n_recognize (n_verify n_hex_digit1 (fun v => non_empty v && (length v <=? 4)%nat))) (parse_unsigned 16 u16_max).

(** [Ipv4Addr::to_ipv6_mapped] *)
Definition ipv6_mapped (a : Z) : Z := 65535 * 2 ^ 32 + a.

(** The groups before [::] from the front, those after it up to the end; an index
    that is out of range is a panic. *)
Definition fill_groups (pre post : list Z) : option (list Z) :=
  let octets := pre ++ replicate (8 - length pre) 0 in
  if (8 <? length pre)%nat then None
  else if bool_decide (post = []) then Some octets
  else if (8 <? length post)%nat then None
  else Some (take (8 - length post) octets ++ post).

Definition groups_ok (g : list Z * option text * list Z) : bool :=
  let '(pre, sep, post) := g in
  (length pre =? 8)%nat || (is_some sep && (length pre + length post <? 8)%nat).

Definition p_ipv6 : Parser Z :=
  n_alt [
    n_map (n_preceded (n_tag (text_of "::ffff:")) p_ipv4) ipv6_mapped;
    n_map_panic
      (n_verify (n_pair (n_pair (n_separated_list0 (n_char 58) p_group) (n_opt (n_tag (text_of "::"))))
                        (n_separated_list0 (n_char 58) p_group)) groups_ok)
      (fun '(pre, _, post) => of_groups <$> fill_groups pre post)].

Definition p_ip : Parser IpAddr := n_alt [n_map p_ipv4 V4; n_map p_ipv6 V6].

Definition p_mac : Parser text :=
  let hextal := n_verify (n_take_while_m_n 2 2 is_hexdigit) (fun s => (length s =? 2)%nat) in
  n_recognize (n_verify (n_separated_list1 (n_char 58) hextal) (fun s => (length s =? 6)%nat)).

(** *** [ip_net.rs], [iporset.rs] *)
Definition p_prefix_len : Parser Z := n_map_res n_digit1 (parse_unsigned 10 u8_max).

Definition p_ip_net : Parser IpNet :=
  n_map_res
    (n_map (n_pair p_ip (n_opt (n_preceded (n_char 47) p_prefix_len)))
       (fun '(ip, len) => (ip, opt_unwrap_or (match ip with V4 _ => 32 | V6 _ => 128 end) len)))
    (fun '(ip, len) => net_new ip len).

Definition p_ipv6_net : Parser (Z * Z) :=
  n_map_res (n_pair p_ipv6 (n_preceded (n_tag (text_of "/")) p_prefix_len))
    (fun '(ip, len) => match net_new (V6 ip) len with
                       | Some n => Some (ip_bits (net_addr n), net_prefix_len n)
                       | None => None
                       end).

Definition p_ip_or_set : Parser IpOrSet :=
  n_alt [n_map (n_preceded (n_tag_no_case (text_of "ip-set:")) p_string) IpSetItem; n_map p_ip_net IpNetItem].

(** *** [domain.rs] *)
(** The characters a name ends at. *)
Definition name_ends : text := text_of " " ++ [10; 9; 92; 47; 124; 34] ++ text_of "#',!+<>".
Definition p_name : Parser Name := n_map_res (n_is_not name_ends) name_parse.

Definition p_wildcard_name : Parser (WildcardName Name) :=
  n_alt [
    n_map (n_pair (n_map_res (n_terminated (n_verify (n_is_not (text_of ".")) (fun w => non_empty w && existsb (Z.eqb 42) w)) (n_char 46))
                             wildcard_from_str)
                  p_name)
          (fun '(w, n) => WSub w n);
    n_map (n_preceded (n_pair (n_char 45) (n_char 46)) p_name) WFull;
    n_map (n_preceded (n_pair (n_opt (n_char 43)) (n_char 46)) p_name) WSuffix;
    n_map p_name (fun n => if name_is_wildcard n then WSub [] (name_base_name n)
                           else if name_is_root n then WSuffix n else WDefault n);
    n_map (n_pair (n_char 43) (n_opt (n_char 46))) (fun _ => WSuffix name_root)].

(** [WildcardName::from_str]: what comes after the name is dropped. *)
Definition wildcard_name_from_str (s : text) : IResult (WildcardName Name) :=
  match p_wildcard_name s with IOk _ v => IOk [] v | r => r end.

Definition p_domain : Parser (Domain Name) :=
  n_alt [n_map (n_preceded (n_tag_no_case (text_of "domain-set:")) (n_map (n_take_till1 (Z.eqb 47)) string_of_text)) DSet;
         n_map p_wildcard_name DName].

(** *** [log_level.rs], [file_mode.rs], [path.rs], [glob_pattern.rs] *)
Definition p_level : Parser Level :=
  n_alt [n_value level_trace (n_tag_no_case (text_of "trace"));
         n_value level_debug (n_tag_no_case (text_of "debug"));
         n_value level_info (n_alt [n_tag_no_case (text_of "info"); n_tag_no_case (text_of "notice")]);
         n_value level_warn (n_tag_no_case (text_of "warn"));
         n_value level_error (n_alt [n_tag_no_case (text_of "error"); n_tag_no_case (text_of "fatal")])].

Definition p_file_mode : Parser Z := n_map_res (n_is_a (text_of "0o1234567")) file_mode_from_str.

Definition p_delimited_path : Parser text := n_delimited (n_char 34) (n_is_not [34]) (n_char 34).
Definition p_single_quoted_path : Parser text := n_delimited (n_char 39) (n_is_not [39]) (n_char 39).
Definition p_unix_path : Parser text :=
  n_recognize (n_pair (n_pair (n_opt (n_char 47))
    (n_separated_list1 (n_char 47) (n_escaped (n_is_not [10; 32; 9; 92]) 92 (n_one_of [32; 92]))))
    (n_opt (n_char 47))).
Definition p_windows_path : Parser text :=
  n_recognize (n_pair (n_pair (n_opt (n_pair n_alpha1 (n_tag [58; 92]))) (n_separated_list1 (n_char 92) (n_is_not [92])))
    (n_opt (n_char 92))).
Definition p_path_text : Parser text := n_alt [p_delimited_path; p_single_quoted_path; p_unix_path; p_windows_path].
Definition p_path : Parser PathBuf := n_map p_path_text path_of_text.
Definition p_pattern : Parser Pattern := n_map_res p_path_text glob_parse.

(** *** [speed_mode.rs], [response_mode.rs], [record_type.rs] *)
Definition p_port_or (default : Z) : Parser Z := n_map (n_opt (n_preceded (n_char 58) n_u16)) (opt_unwrap_or default).

Definition p_speed_mode : Parser SpeedCheckMode :=
  let none := n_value SNone (n_tag_no_case (text_of "none")) in
  let ping := n_value SPing (n_tag_no_case (text_of "ping")) in
  let tcp := n_map (n_preceded (n_tag_no_case (text_of "tcp")) (n_preceded (n_char 58) n_u16)) STcp in
  let tcp_syn := n_map (n_preceded (n_tag_no_case (text_of "tcp-syn:")) n_u16) STcpSyn in
  let http := n_map (n_preceded (n_tag_no_case (text_of "http")) (p_port_or 80)) SHttp in
  let https := n_map (n_preceded (n_tag_no_case (text_of "https")) (p_port_or 443)) SHttps in
  n_alt [none; ping; tcp_syn; tcp; https; http].

Definition p_comma : Parser Z := n_delimited n_space0 (n_char 44) n_space0.
Definition p_speed_modes : Parser SpeedCheckModeList := n_map (n_separated_list1 p_comma p_speed_mode) (fun l => l).
Definition p_opt_speed_modes : Parser (option SpeedCheckModeList) :=
  n_alt [n_value None (n_tag_no_case (text_of "none")); n_map p_speed_modes Some].

Definition p_response_mode : Parser ResponseMode :=
  n_alt [n_value FirstPing (n_tag_no_case (text_of "first-ping"));
         n_value FastestIp (n_tag_no_case (text_of "fastest-ip"));
         n_value FastestResponse (n_tag_no_case (text_of "fastest-response"))].

Definition p_record_type : Parser RecordType := n_map n_u16 (fun t => t).
End Values.

(** ** The libraries at concrete functions *)
Definition plain_values : ValueLib := {|
  byte_parse t :=
    v ← match digits 10 0 0 t with
        | (v, S _, []) => Some v
        | (v, S _, u) => if bool_decide (text_lower u = text_of "k") then Some (v * 1024)
                         else if bool_decide (text_lower u = text_of "m") then Some (v * 1024 * 1024) else None
        | _ => None
        end;
    if (0 <=? v) && (v <=? u64_max) then Some v else None;
  wildcard_from_str := Some;
  net_new ip len := if len <=? family_width ip then Some (mkNet ip len) else None;
|}.
Lemma plain_values_laws : @ValueLaws plain_values.
Proof. by split. Qed.
Definition plain_tokens : TokenLib nat text := {|
  glob_parse := Some;
  level_trace := 0%nat; level_debug := 1%nat; level_info := 2%nat; level_warn := 3%nat; level_error := 4%nat;
|}.

Section Examples_.
Local Existing Instance doc_nom.
Local Existing Instance plain_values.

Example ipv4_examples :
  p_ipv4 (text_of "8.8.8.8 x") = IOk (text_of " x") 0x08080808 ∧ p_ipv4 (text_of "1.2.3.004") = IOk [] 0x01020304 ∧
  p_ipv4 (text_of "1.2.3.400") = IErr.
Proof. by vm_compute. Qed.
Example ipv6_examples :
  p_ipv6 (text_of "::1/8") = IOk (text_of "/8") 1 ∧ p_ipv6 (text_of "fe80::1:2]") = IOk (text_of "]") (0xfe80 * 2 ^ 112 + 65538) ∧
  p_ipv6 (text_of "::ffff:1.2.3.4") = IOk [] 0xffff01020304 ∧ p_ipv6 (text_of "1:2:3:4:5:6:7") = IErr.
Proof. by vm_compute. Qed.
Example net_examples :
  p_ip_net (text_of "10.0.0.0/8") = IOk [] (mkNet (V4 0x0a000000) 8) ∧ p_ip_net (text_of "10.0.0.0/33") = IErr ∧
  p_ip_net (text_of "10.0.0.0/999") = IOk (text_of "/999") (mkNet (V4 0x0a000000) 32).
Proof. by vm_compute. Qed.
Example domain_examples :
  p_domain (text_of "*.a.b/") = IOk (text_of "/") (DName (WSub [42] (mkName [text_of "a"; text_of "b"] false))) ∧
  p_domain (text_of "-.a/") = IOk (text_of "/") (DName (WFull (mkName [text_of "a"] false))) ∧
  p_domain (text_of "domain-set:x/") = IOk (text_of "/") (DSet (Name := PlainName) "x").
Proof. by vm_compute. Qed.
Example path_examples :
  p_path (text_of "/etc/a.conf # c") = IOk (text_of " # c") (mkPathBuf true ["etc"; "a.conf"]%string) ∧
  p_path (text_of "'/a b/c'") = IOk [] (mkPathBuf true ["a b"; "c"]%string).
Proof. by vm_compute. Qed.
Example mode_examples :
  p_opt_speed_modes (text_of "ping, tcp:80,HTTPS") = IOk [] (Some [SPing; STcp 80; SHttps 443]) ∧
  p_byte (text_of "128K") = IOk [] 131072 ∧ p_file_mode (text_of "0o640") = IOk [] 416 ∧
  p_bool (text_of "no") = IOk [] false.
Proof. by vm_compute. Qed.
End Examples_.
