(* ===== verification/ParseRules.v ===== *)
(** * Rules of the configuration as text ([config/parser/*.rs])

    Options, and the values of the directives for domains, records, sets of
    addresses and providers. A closure that assigns a variable while a parser runs is
    here the change it makes: a repetition gives the changes in order. *)

From coqutil Require Import Datatypes.RecordSetters.
From S2P Require Import Prelude Names Config Text Message DomainRule DomainRuleTree Runtime Context DnsUrl ClientBuild ConfigItems Ping Nom ParseValues.
Import UpdaterNotations.

(** A parameter of a service binding ([SvcParamKey] with its [SvcParamValue]). *)
Inductive SvcValue :=
| SvAlpn (ids : list string) | SvPort (port : Z)
| SvIpv4Hint (ips : list Z) | SvIpv6Hint (ips : list Z) | SvEch (config : list Z).

(** What libraries make of these values: record data, the client subnet of a network,
    and URLs. *)
Class RuleLib := {
  svc_param : SvcValue → Z * list Z;
  subnet_of : IpNet → ClientSubnet;
  http_url : text → option string;
}.

Section Rules.
Context {Name Level Pattern : Type} `{NameLib Name} `{NameText Name}.
Context `{N : Nom} `{U : Unicode} `{V : ValueLib} `{R : RuleLib}.
(** The address of the list that is made for an alias. *)
Variable arc_new : text → Z.

(** ** [options.rs] *)
Definition Options := list (text * option text).

Definition p_dashes : Parser text := n_take_while_m_n 1 2 (Z.eqb 45).
Definition p_assign : Parser text :=
  n_alt [n_tag (text_of "="); n_recognize (n_pair (n_opt (n_char 58)) n_space1)].

Definition p_any_name : Parser text :=
  n_preceded p_dashes (n_recognize (n_pair n_alpha1 (n_take_while (fun c => (c =? 45) || char_is_alphanumeric c)))).

Definition parse_value {A B} (name : Parser A) (value : Parser B) : Parser B :=
  n_preceded (n_pair (n_pair p_dashes name) p_assign) value.
Definition parse_flag {A} (name : Parser A) : Parser bool := n_value true (n_preceded p_dashes name).

Definition unkown_value : Parser text :=
  n_preceded p_assign (n_recognize (n_pair (n_is_not (text_of "-_ " ++ [9] ++ text_of "#")) (n_take_till is_whitespace))).

Definition text_eq_ignore_case (a b : text) : bool := bool_decide (text_lower a = text_lower b).

Definition unkown_options : Parser (text * option text) := fun i =>
  ires_bind (p_any_name i) (fun i key =>
  ires_bind ((if text_eq_ignore_case key (text_of "nftset") || text_eq_ignore_case key (text_of "ipset")
              then n_opt (n_preceded p_assign (n_is_not blanks)) else n_opt unkown_value) i) (fun i value =>
  IOk i (key, value))).

Definition p_options : Parser Options := n_separated_list0 n_space1 unkown_options.

(** ** Rules of domains *)
(** [address_rule.rs] *)
Definition split_families (l : list IpAddr) : AddressRuleValue :=
  let v4 := omap (fun ip => match ip with V4 a => Some a | V6 _ => None end) l in
  let v6 := omap (fun ip => match ip with V6 a => Some a | V4 _ => None end) l in
  AAddr (if bool_decide (v4 = []) then None else Some v4) (if bool_decide (v6 = []) then None else Some v6).

Definition p_comma3 : Parser (text * Z * text) := n_pair (n_pair n_space0 (n_char 44)) n_space0.

Definition p_address_value : Parser AddressRuleValue :=
  n_alt [n_value ASOAv4 (n_tag (text_of "#4")); n_value ASOAv6 (n_tag (text_of "#6")); n_value ASOA (n_char 35);
         n_value AIGNv4 (n_tag (text_of "-4")); n_value AIGNv6 (n_tag (text_of "-6")); n_value AIGN (n_tag (text_of "-"));
         n_map (n_separated_list1 p_comma3 p_ip) split_families].

Definition p_slashed_domain : Parser (Domain Name) := n_delimited (n_char 47) p_domain (n_char 47).
Definition p_address_rule : Parser (Domain Name * AddressRuleValue) :=
  n_map (n_pair p_slashed_domain p_address_value) (fun x => x).

(** [forward_rule.rs] *)
Definition p_forward_rule : Parser (Domain Name * string) :=
  n_map (n_pair p_slashed_domain (n_map (n_is_not blanks) string_of_text)) (fun x => x).

(** [config_for_domain.rs] *)
Definition p_for_domain {T} (config : Parser T) : Parser (Domain Name * T) :=
  let domain := n_map (n_opt p_slashed_domain) (opt_unwrap_or (DName (WDefault name_root))) in
  n_map (n_pair domain (n_preceded n_space0 config)) (fun x => x).

(** [cname.rs], [srv.rs] *)
Definition p_cname : Parser (Ignorable Name) := n_alt [n_value Ignore (n_char 45); n_map p_name Value].

Definition p_srv : Parser (SRV Name) :=
  n_map (n_pair (n_pair (n_pair p_name (n_preceded p_comma n_u16)) (n_preceded p_comma n_u16)) (n_preceded p_comma n_u16))
    (fun '(target, port, priority, weight) => mkSRV Name priority weight port target).

(** [txt.rs]: the characters of the line, in or out of quotes. *)
Record TxtState := mkTxt { tx_chunks : list text; tx_chunk : text; tx_quoted : bool; tx_escaped : bool; tx_started : bool }.
Definition txt_start : TxtState := mkTxt [] [] false false false.

(** One character; none when a comment begins. *)
Definition txt_step (s : TxtState) (c : Z) : option TxtState :=
  let '(mkTxt chunks chunk quoted escaped started) := s in
  if escaped then Some (mkTxt chunks (chunk ++ [c]) quoted false true)
  else if c =? 92 then Some (mkTxt chunks chunk quoted true started)
  else if c =? 34 then Some (mkTxt chunks chunk (negb quoted) escaped true)
  else if negb quoted && (c =? 35) then None
  else if negb quoted && is_whitespace c then
    Some (if started then mkTxt (chunks ++ [chunk]) [] quoted escaped false else s)
  else Some (mkTxt chunks (chunk ++ [c]) quoted escaped true).

Fixpoint txt_chars (s : TxtState) (t : text) : TxtState :=
  match t with
  | [] => s
  | c :: t => match txt_step s c with Some s => txt_chars s t | None => s end
  end.

Definition txt_finish (s : TxtState) : option (list text) :=
  if tx_quoted s || tx_escaped s then None
  else
    let chunks := if tx_started s || bool_decide (tx_chunks s = []) then tx_chunks s ++ [tx_chunk s] else tx_chunks s in
    if existsb (fun chunk => (255 <? length (utf8 chunk))%nat) chunks then None else Some chunks.

Definition p_txt : Parser TXT := fun i =>
  ires_bind (n_not_line_ending i) (fun rest t =>
    match txt_finish (txt_chars txt_start t) with
    | Some chunks => IOk rest (utf8 <$> chunks)
    | None => IErr
    end).

(** *** [svcb.rs], [https_record.rs] *)
Definition param_key (name : text) : Parser text :=
  n_terminated (n_tag_no_case name) (n_delimited n_space0 (n_char 61) n_space0).
Definition quoted {A} (p : Parser A) : Parser A := n_delimited (n_char 34) p (n_char 34).
Definition spaced_list {A} (p : Parser A) : Parser (list A) :=
  n_separated_list1 (n_char 44) (n_delimited n_space0 p n_space0).

Definition p_svc_value : Parser SvcValue :=
  n_alt [
    n_map (n_preceded (param_key (text_of "alpn"))
             (quoted (spaced_list (n_take_while1 (fun c => negb (c =? 44) && negb (c =? 34) && negb (is_whitespace c))))))
          (fun ids => SvAlpn (string_of_text <$> ids));
    n_map (n_preceded (param_key (text_of "port")) n_u16) SvPort;
    n_map (n_preceded (param_key (text_of "ipv4hint")) (n_alt [quoted (spaced_list p_ipv4); spaced_list p_ipv4])) SvIpv4Hint;
    n_map (n_preceded (param_key (text_of "ipv6hint")) (n_alt [quoted (spaced_list p_ipv6); spaced_list p_ipv6])) SvIpv6Hint;
    n_map (n_preceded (param_key (text_of "ech")) (quoted (n_is_not [34]))) (fun ech => SvEch (utf8 ech))].

(** The variables of [SVCB::parse]. *)
Record SvcVars := mkSvcVars { sw_params : list SvcValue; sw_target : Name; sw_priority : Z }.

Definition p_svcb : Parser (HTTPS Name) := fun i =>
  ires_bind
    (n_separated_list0 (n_char 44)
       (n_delimited n_space0
          (n_alt [n_map p_svc_value (fun v s => mkSvcVars (sw_params s ++ [v]) (sw_target s) (sw_priority s));
                  n_map (n_preceded (param_key (text_of "target")) p_name) (fun v s => mkSvcVars (sw_params s) v (sw_priority s));
                  n_map (n_preceded (param_key (text_of "priority")) n_u16) (fun v s => mkSvcVars (sw_params s) (sw_target s) v);
                  n_map n_space0 (fun _ s => s)])
          n_space0) i)
    (fun rest changes =>
       let s := fold_left (fun s f => f s) changes (mkSvcVars [] name_root 0) in
       IOk rest (mkHTTPS Name (sw_priority s) (sw_target s) (svc_param <$> sw_params s))).

Definition p_https_rule : Parser (HttpsRecordRule Name) :=
  n_alt [
    n_map (n_char 35) (fun _ => HSOA Name); n_map (n_char 45) (fun _ => HIgnore Name);
    n_map (spaced_list (n_alt [n_value 4 (n_tag_no_case (text_of "noipv4hint")); n_value 6 (n_tag_no_case (text_of "noipv6hint"))]))
      (fun hints => HFilter Name (existsb (Z.eqb 4) hints) (existsb (Z.eqb 6) hints));
    n_map p_svcb (HRecordData Name)].

(** *** [nftset.rs], [ip_alias.rs] *)
Definition p_nft_word : Parser text :=
  n_preceded (n_char 35) (n_take_while1 (fun c => is_ascii_alphanumeric c || (c =? 95) || (c =? 45))).
Definition p_nftset : Parser NFTsetConfig := fun i =>
  let family := n_alt [n_value "inet"%string (n_tag (text_of "inet")); n_value "ip6"%string (n_tag (text_of "ip6"));
                       n_value "ip"%string (n_tag (text_of "ip"))] in
  ires_bind (n_pair (n_pair family p_nft_word) p_nft_word i)
    (fun rest '(family, table, name) => IOk rest (mkNft family (string_of_text table) (string_of_text name))).

Definition family_is (a b : string) (x : NFTsetConfig) : bool := bool_decide (nft_family x = a) || bool_decide (nft_family x = b).

Definition p_nftset_for : Parser (ConfigForIP NFTsetConfig) :=
  let v4 := n_preceded (n_tag (text_of "#4:")) (n_verify p_nftset (family_is "inet" "ip")) in
  let v6 := n_preceded (n_tag (text_of "#6:")) (n_verify p_nftset (family_is "inet" "ip6")) in
  n_alt [n_value ForNoneV4 (n_tag (text_of "#4:-")); n_value ForNoneV6 (n_tag (text_of "#6:-"));
         n_map (n_char 45) (fun _ => ForNone); n_map v4 ForV4; n_map v6 ForV6].

Definition p_kernel_ipset : Parser KernelIpSet :=
  n_map (n_verify (n_take_while1 (fun c => is_ascii_alphanumeric c || (c =? 95) || (c =? 45) || (c =? 46)))
                  (fun s => (length s <? 32)%nat)) string_of_text.

Definition p_ipsets : Parser (list (ConfigForIP KernelIpSet)) :=
  n_separated_list1 p_comma3
    (n_alt [n_value ForNoneV4 (n_tag (text_of "#4:-")); n_value ForNoneV6 (n_tag (text_of "#6:-")); n_value ForNone (n_char 45);
            n_map (n_preceded (n_tag (text_of "#4:")) p_kernel_ipset) ForV4;
            n_map (n_preceded (n_tag (text_of "#6:")) p_kernel_ipset) ForV6; n_map p_kernel_ipset ForAll]).
Definition p_nftsets : Parser (list (ConfigForIP NFTsetConfig)) := n_separated_list1 p_comma3 p_nftset_for.

Definition p_ip_alias : Parser IpAlias := fun i =>
  n_map (n_pair (n_terminated p_ip_or_set n_space1) (n_separated_list1 p_comma3 p_ip))
    (fun '(ip, to) => mkAlias ip (mkArc (arc_new i) to)) i.

(** *** [certificate.rs] *)
Definition p_cert_generation : Parser CertificateGeneration :=
  n_alt [n_value CertAuto (n_tag_no_case (text_of "auto")); n_map p_bool (fun v => if v then CertYes else CertNo)].
Definition p_strings : Parser (list string) :=
  n_separated_list1 n_space1 (n_map (n_take_while1 (fun c => negb (is_whitespace c) && negb (c =? 35))) string_of_text).

(** ** [domain_rule.rs] *)
Definition p_word : Parser string := n_map (n_is_not blanks) string_of_text.
Definition either (long short : string) : Parser text := n_alt [n_tag_no_case (text_of long); n_tag (text_of short)].

Definition rule_option : Parser (DomainRule Name → DomainRule Name) :=
  n_alt [
    n_map (parse_value (n_alt [n_tag (text_of "speed-check-mode"); n_tag (text_of "c")]) p_speed_modes)
      (fun v r => {! speed_check_mode := Some (opt_unwrap_or [] (speed_check_mode r) ++ v) } r);
    n_map (parse_value (either "address" "a") p_address_value) (fun v r => {! address := Some v } r);
    n_map (parse_value (either "nameserver" "n") p_word) (fun v r => {! nameserver := Some v } r);
    n_map (parse_value (n_tag_no_case (text_of "recheck-nameserver")) p_word) (fun v r => {! recheck_nameserver := Some v } r);
    n_map (parse_value (n_tag_no_case (text_of "recheck-ip-set")) p_word) (fun v r => {! recheck_ip_set := Some v } r);
    n_map (n_alt [parse_value (either "dualstack-ip-selection" "d") p_bool; parse_flag (either "dualstack-ip-selection" "d")])
      (fun v r => {! dualstack_ip_selection := Some v } r);
    n_map (parse_value (n_tag_no_case (text_of "cname")) p_cname) (fun v r => {! cname := Some v } r);
    n_map (parse_value (n_tag_no_case (text_of "subnet")) p_ip_net) (fun v r => {! subnet := Some (subnet_of v) } r);
    n_map (parse_flag (n_tag_no_case (text_of "no-cache"))) (fun v r => {! rule_no_cache := Some v } r);
    n_map (parse_flag (n_tag_no_case (text_of "no-serve-expired"))) (fun v r => {! rule_no_serve_expired := Some v } r);
    n_map (parse_value (n_tag_no_case (text_of "nftset")) p_nftsets) (fun v r => {! nftset := Some v } r);
    n_map (parse_value (n_tag_no_case (text_of "ipset")) p_ipsets) (fun v r => {! ipset := Some v } r);
    n_map (parse_value (either "response-mode" "r") p_response_mode) (fun v r => {! response_mode := Some v } r);
    n_map (parse_value (n_tag_no_case (text_of "rr-ttl-min")) n_u64) (fun v r => {! rr_ttl_min := Some v } r);
    n_map (parse_value (n_tag_no_case (text_of "rr-ttl-max")) n_u64) (fun v r => {! rr_ttl_max := Some v } r);
    n_map (parse_value (n_tag_no_case (text_of "rr-ttl")) n_u64) (fun v r => {! rr_ttl := Some v } r);
    n_map unkown_options (fun _ r => r)].

Definition p_domain_rule : Parser (DomainRule Name) := fun i =>
  ires_bind (n_separated_list1 n_space1 rule_option i)
    (fun rest changes => IOk rest (fold_left (fun r f => f r) changes rule_default)).

(** ** Providers ([ip_set.rs], [domain_set.rs]) *)
Definition one_of_names (long short : string) : Parser text := n_alt [n_tag_no_case (text_of long); n_tag_no_case (text_of short)].
Definition p_list_type : Parser unit := parse_value (one_of_names "type" "t") (n_value tt (n_tag_no_case (text_of "list"))).

(** The variables of a provider: its name, and its file or its URL and interval. *)
Record ProviderVars := mkVars { pv_name : option string; pv_file : option PathBuf; pv_url : option string; pv_interval : option Z }.
Definition vars_start : ProviderVars := mkVars None None None None.

Definition provider_name : Parser (ProviderVars → ProviderVars) :=
  n_map (parse_value (one_of_names "name" "n") p_string) (fun v s => {! pv_name := Some v } s).
Definition provider_file : Parser (ProviderVars → ProviderVars) :=
  n_map (parse_value (one_of_names "file" "f") p_path) (fun v s => {! pv_file := Some v } s).
Definition provider_type : Parser (ProviderVars → ProviderVars) := n_map p_list_type (fun _ s => s).

Definition p_provider {T} (options : list (Parser (ProviderVars → ProviderVars))) (make : ProviderVars → option T) : Parser T :=
  fun i => ires_bind (n_separated_list1 n_space1 (n_alt options) i)
    (fun rest changes => match make (fold_left (fun s f => f s) changes vars_start) with Some v => IOk rest v | None => IErr end).

Definition p_ip_set_provider : Parser IpSetProvider :=
  p_provider [provider_name; provider_file; provider_type]
    (fun s => name ← pv_name s; file ← pv_file s; Some (mkIpSetProvider name file)).

Definition p_domain_set_file : Parser DomainSetProvider :=
  p_provider [provider_name; provider_file; provider_type]
    (fun s => name ← pv_name s; file ← pv_file s; Some (DspFile name file)).

Definition p_domain_set_http : Parser DomainSetProvider :=
  p_provider [provider_name;
      n_map (parse_value (one_of_names "url" "u") (n_map_res (n_is_not blanks) http_url)) (fun v s => {! pv_url := Some v } s);
      n_map (parse_value (one_of_names "interval" "i") p_usize) (fun v s => {! pv_interval := Some v } s);
      provider_type]
    (fun s => name ← pv_name s; url ← pv_url s; Some (DspHttp name url (pv_interval s))).

Definition p_domain_set : Parser DomainSetProvider := n_alt [n_map p_domain_set_file (fun p => p); n_map p_domain_set_http (fun p => p)].
End Rules.
