(* ===== verification/ParseServers.v ===== *)
(** * Upstreams, proxies and listeners from text ([dns_url.rs], [proxy.rs], [config/parser/])

    [DnsUrl::from_str] and [ProxyConfig::from_str]. What a URL consists of is the
    URL library's. *)

From S2P Require Import Prelude Names Config Text DomainRule DomainRuleTree Message Runtime Context DnsUrl ClientBuild Ping ConfigItems Nom ParseValues ParseRules.
From coqutil Require Import Datatypes.RecordSetters.

(** The parts of a URL ([url::Url]). *)
Record Url := mkUrlParts {
  ul_scheme : string;
  ul_host : option Host;
  ul_port : option Z;
  ul_path : string;
  ul_query : option string;
  ul_fragment : option string;
  ul_username : string;
  ul_password : option string;
}.

Class UrlLib := {
  url_parse : text → option Url;
  (** [form_urlencoded::parse] *)
  form_parse : string → list (string * string);
  host_show : Host → string;
  (** [Url::socket_addrs], with the default port: the addresses of the host, none
      when they are not found *)
  socket_addrs : Url → option Z → list SocketAddr;
  default_dns_query_path : string;
}.

(** [str::find] of a separator, and the texts before and after it ([split_once]). *)
Fixpoint split_once (sep t : text) : option (text * text) :=
  match strip_prefix sep t with
  | Some rest => Some ([], rest)
  | None =>
      match t with
      | [] => None
      | c :: t => '(a, b) ← split_once sep t; Some (c :: a, b)
      end
  end.
Definition scheme_end : text := text_of "://".

Section Urls.
Context `{L : UrlLib} `{U : Unicode}.

(** [Params::from]: of parameters with one name the last one counts. *)
Definition params_from (t : string) : Params := fold_left (fun p kv => <[kv.1 := kv.2]> p) (form_parse t) ∅.

(** [DnsUrl::default] *)
Definition url_default : DnsUrl := mkUrl "" ProtoUdp (HostIpv4 0) None ∅ ∅.

Definition bool_show (b : bool) : string := if b then "true" else "false".
Definition set_sni_off (v : bool) (u : DnsUrl) : DnsUrl := set_params (set_param (url_params u) "sni" (bool_show (negb v))) u.
Definition set_ssl_verify (v : bool) (u : DnsUrl) : DnsUrl := set_params (set_param (url_params u) "ssl_verify" (bool_show v)) u.

(** A host that is the text of an address is that address. *)
Definition host_of (h : Host) : Host :=
  match h with
  | HostDomain d => match ip_parse d with Some (V4 a) => HostIpv4 a | Some (V6 a) => HostIpv6 a | None => h end
  | _ => h
  end.

Definition system_url : DnsUrl := mkUrl "system" ProtoSystem (HostDomain "system") None ∅ ∅.
Definition dhcp_url (interface : option string) : DnsUrl := mkUrl "dhcp" (ProtoDhcp interface) (HostDomain "dhcp") None ∅ ∅.

Definition protocol_of_scheme (scheme : string) : option Protocol :=
  if bool_decide (scheme = "udp") then Some PUdp
  else if bool_decide (scheme = "tcp") then Some PTcp
  else if bool_decide (scheme = "tls") then Some PTls
  else if bool_decide (scheme = "https") then Some PHttpsP
  else if bool_decide (scheme = "quic") then Some PQuic
  else if bool_decide (scheme = "h3") then Some PH3
  else None.

Definition proto_config (proto : Protocol) (path : option string) (options : Params) : ProtocolConfig :=
  let path := opt_unwrap_or default_dns_query_path path in
  match proto with
  | PUdp => ProtoUdp
  | PTcp => ProtoTcp
  | PTls => ProtoTls
  | PHttpsP => ProtoHttps path (if is_set options "h2" then PreferH2 else if is_set options "h3" then PreferH3 else PreferAuto)
  | PQuic => ProtoQuic
  | PH3 => ProtoH3 path (is_set options "disable_grease")
  end.

(** The parameter [host] names the server; the address the URL had stays. *)
Definition take_host_param (host : Host) (params : Params) : Host * Params :=
  match params !! "host"%string with
  | None => (host, params)
  | Some domain =>
      let params := delete "host"%string params in
      (HostDomain domain,
       match host with
       | HostIpv4 a => set_param params "ip" (ip_show (V4 a))
       | HostIpv6 a => set_param params "ip" (ip_show (V6 a))
       | HostDomain _ => params
       end)
  end.

(** [DnsUrl::from_str] *)
Definition dns_url_from_str (t : text) : option DnsUrl :=
  let t := str_to_lowercase t in
  if bool_decide (t = text_of "system") then Some system_url
  else if bool_decide (t = text_of "dhcp") then Some (dhcp_url None)
  else
    let t := if is_some (split_once scheme_end t) then t else text_of "udp://" ++ t in
    let slash := bool_decide (last t = Some 47) in
    u ← url_parse t;
    let host := host_of <$> ul_host u in
    if bool_decide (ul_scheme u = "dhcp") then Some (dhcp_url (host_show <$> host))
    else
      proto ← protocol_of_scheme (ul_scheme u);
      host ← host;
      let params := params_from (opt_unwrap_or EmptyString (ul_query u)) in
      let options := params_from (opt_unwrap_or EmptyString (ul_fragment u)) in
      let name := opt_unwrap_or (host_show host)
                    (match host with HostDomain d => Some d | _ => params !! "host"%string end) in
      let path := if bool_decide (ul_path u = "") || (bool_decide (ul_path u = "/") && negb slash) then None
                  else Some (ul_path u) in
      let '(host', params) := take_host_param host params in
      Some (mkUrl name (proto_config proto path options) host' (ul_port u) params options).

(** ** Proxies ([ProxyConfig::from_str]) *)
Definition proxy_scheme (scheme : string) : option ProxyProtocol :=
  if bool_decide (scheme = "socks5") then Some Socks5 else if bool_decide (scheme = "http") then Some HttpProxy else None.

Definition proxy_from_str (t : text) : option ProxyConfig :=
  u ← url_parse t;
  proto ← proxy_scheme (ul_scheme u);
  server ← head (socket_addrs u (match proto with Socks5 => Some 1080 | HttpProxy => None end));
  Some (mkProxy proto server (if bool_decide (ul_username u = "") then None else Some (ul_username u)) (ul_password u)).

(** [Display for ProxyConfig], without the address. *)
Definition proxy_show (p : ProxyConfig) (server : string) : string :=
  ((match px_proto p with Socks5 => "socks5://" | HttpProxy => "http://" end)
   ++ match px_username p with
      | Some user => user ++ (match px_password p with Some pwd => ":" ++ pwd | None => "" end) ++ "@"
      | None => ""
      end ++ server)%string.
End Urls.

(** * Listeners, clients and upstreams as text ([config/parser/*.rs])

    The directives with options: [bind_addr.rs], [client_rule.rs], [nameserver.rs]
    and [proxy_config.rs]. *)

Import UpdaterNotations.

(** [u32::from_str_or_hex] ([third_ext/num.rs]) *)
Definition u32_from_str_or_hex (t : text) : option Z :=
  match strip_prefix (text_of "0x") t with
  | Some t => parse_unsigned 16 u32_max t
  | None => parse_unsigned 10 u32_max t
  end.

Section Servers.
Context `{N : Nom} `{U : Unicode} `{V : ValueLib} `{L : UrlLib}.
(** [rustls::parse_spki_pin]: the text is the digest of a key. *)
Variable is_spki_pin : text → bool.

Definition key_is (k : text) (name : string) : bool := bool_decide (str_to_lowercase k = text_of name).
Definition opt_text (v : option text) : option string := string_of_text <$> v.

(** ** [bind_addr.rs] *)
Definition p_bind_addr : Parser BindAddr :=
  let ip := n_alt [n_value BaLocalhost (n_tag_no_case (text_of "localhost")); n_map p_ipv4 BaV4;
                   n_map (n_delimited (n_char 91) p_ipv6 (n_char 93)) BaV6] in
  let any := n_value BaAll (n_char 42) in
  n_alt [ip; any].

(** A value that is all of an option's text. *)
Definition parse_all_of {A} (p : Parser A) (v : option text) : option A :=
  t ← v; match n_all_consuming p t with IOk _ a => Some a | _ => None end.

(** One option: the options it sets, or that it is none of these. *)
Definition server_opt (k : text) (v : option text) (o : ServerOpts) : option (ServerOpts + unit) :=
  let set f := Some (inl (f o)) in
  if key_is k "group" then set (fun o => {! so_group := opt_text v } o)
  else if key_is k "ddr" then set (fun o => {! so_ddr := Some true } o)
  else if key_is k "ipset" then x ← parse_all_of p_ipsets v; set (fun o => {! so_ipset := Some x } o)
  else if key_is k "nftset" then x ← parse_all_of p_nftsets v; set (fun o => {! so_nftset := Some x } o)
  else if key_is k "no-rule-addr" then set (fun o => {! so_no_rule_addr := Some true } o)
  else if key_is k "no-rule-nameserver" then set (fun o => {! so_no_rule_nameserver := Some true } o)
  else if key_is k "no-rule-ipset" then set (fun o => {! so_no_rule_ipset := Some true } o)
  else if key_is k "no-speed-check" then set (fun o => {! so_no_speed_check := Some true } o)
  else if key_is k "no-cache" then set (fun o => {! so_no_cache := Some true } o)
  else if key_is k "no-rule-soa" then set (fun o => {! so_no_rule_soa := Some true } o)
  else if key_is k "no-serve-expired" then set (fun o => {! so_no_serve_expired := Some true } o)
  else if key_is k "no-dualstack-selection" then set (fun o => {! so_no_dualstack_selection := Some true } o)
  else if key_is k "force-aaaa-soa" then set (fun o => {! so_force_aaaa_soa := Some true } o)
  else if key_is k "force-https-soa" then set (fun o => {! so_force_https_soa := Some true } o)
  else Some (inr tt).

Fixpoint server_opts_from (options rest : Options) (o : ServerOpts) : option (Options * ServerOpts) :=
  match options with
  | [] => Some (rest, o)
  | (k, v) :: options =>
      match server_opt k v o with
      | None => None
      | Some (inl o) => server_opts_from options rest o
      | Some (inr _) => server_opts_from options (rest ++ [(k, v)]) o
      end
  end.
Definition parse_server_opts (options : Options) : option (Options * ServerOpts) := server_opts_from options [] opts_default.

Definition ssl_opt (c : SslConfig) (kv : text * option text) : SslConfig :=
  let '(k, v) := kv in
  if key_is k "server-name" then {! ssl_server_name := opt_text v } c
  else if key_is k "ssl-certificate-key" then {! ssl_certificate_key := opt_text v } c
  else if key_is k "ssl-certificate" then {! ssl_certificate := opt_text v } c
  else if key_is k "ssl-certificate-key-pass" then {! ssl_certificate_key_pass := opt_text v } c
  else c.
Definition parse_ssl_config (options : Options) : SslConfig := fold_left ssl_opt options ssl_default.

Inductive BindProtocol := BpUdp | BpTcp | BpTls | BpHttp | BpHttps | BpQuic | BpH3.
#[global] Instance BindProtocol_eq_dec : EqDecision BindProtocol.
Proof. solve_decision. Defined.

Definition bind_keywords : list (string * BindProtocol) :=
  [("bind-tcp", BpTcp); ("bind-tls", BpTls); ("bind-quic", BpQuic); ("bind-https", BpHttps); ("bind-http", BpHttp);
   ("bind-h3", BpH3); ("bind-udp", BpUdp); ("bind", BpUdp)]%string.
Definition p_bind_proto : Parser BindProtocol :=
  n_alt ((fun '(kw, proto) => n_value proto (n_tag_no_case (text_of kw))) <$> bind_keywords).

(** Whether the kind of listener has certificates. *)
Definition bind_has_tls (p : BindProtocol) : bool := match p with BpTcp | BpUdp | BpHttp => false | _ => true end.

Definition bind_make (proto : BindProtocol) (b : Bind) (ssl : SslConfig) : BindAddrConfig :=
  match proto with
  | BpUdp => BindUdp b
  | BpTcp => BindTcp b
  | BpTls => BindTls b ssl
  | BpHttp => BindHttp b
  | BpHttps => BindHttps b ssl
  | BpQuic => BindQuic b ssl
  | BpH3 => BindH3 b ssl
  end.

Definition p_bind_port : Parser Z := n_map_res n_digit1 (parse_unsigned 10 u16_max).
Definition p_bind_device : Parser string := n_map (n_take_till is_whitespace) string_of_text.
Definition p_more_options : Parser (option Options) := n_opt (n_preceded n_space1 p_options).

Definition p_bind : Parser BindAddrConfig := fun i =>
  let addr := n_map (n_opt p_bind_addr) (opt_unwrap_or (BaV4 0)) in
  ires_bind
    (n_pair (n_pair (n_pair (n_preceded n_space0 p_bind_proto) (n_preceded n_space1 addr)) (n_preceded (n_char 58) p_bind_port))
            (n_opt (n_preceded (n_char 64) p_bind_device)) i)
    (fun i '(proto, addr, port, device) =>
  ires_bind (p_more_options i) (fun i options =>
    match (match options with Some o => parse_server_opts o | None => Some ([], opts_default) end) with
    | None => IFail
    | Some (options, opts) =>
        let ssl := if bind_has_tls proto && negb (bool_decide (options = [])) then parse_ssl_config options else ssl_default in
        IOk i (bind_make proto (mkBind addr port device opts None) ssl)
    end)).

(** ** [client_rule.rs] *)
Definition p_client : Parser Client := n_alt [n_map p_ip_net CIpAddr; n_map p_mac (fun mac => CMacAddr (string_of_text mac))].

Definition p_client_rule : Parser ClientRule := fun i =>
  ires_bind (p_client i) (fun i client =>
  ires_bind (p_more_options i) (fun rest options =>
    let options := opt_unwrap_or [] options in
    match parse_server_opts options with
    | None => IFail
    | Some (_, opts) =>
        let group := opt_or (so_group opts) (kv ← find_first (fun kv => bool_decide (kv.1 = text_of "g")) options; opt_text kv.2) in
        IOk rest (mkClientRule client (opt_unwrap_or EmptyString group) ({! so_group := None } opts))
    end)).

(** ** [nameserver.rs] *)
Definition server_url (default_proto : string) (t : text) : option DnsUrl :=
  let url a b := dns_url_from_str (a ++ scheme_end ++ b) in
  let url_or a b := opt_or (url a b) (dns_url_from_str (a ++ scheme_end ++ [91] ++ b ++ [93])) in
  match split_once scheme_end t with
  | Some (a, b) => url_or a b
  | None => if bool_decide (t = text_of "system") || bool_decide (t = text_of "dhcp") then dns_url_from_str t
            else url_or (text_of default_proto) t
  end.

Definition server_keywords : list (string * string) :=
  [("server-udp", "udp"); ("server-tcp", "tcp"); ("server-tls", "tls"); ("server-https", "https"); ("server-h3", "h3");
   ("server-quic", "quic"); ("server", "udp")]%string.
Definition p_server_url : Parser DnsUrl :=
  n_alt ((fun '(kw, proto) => n_preceded (n_tag_no_case (text_of kw))
            (n_preceded n_space1 (n_map_res (n_take_till1 is_whitespace) (server_url proto)))) <$> server_keywords).

(** [From<DnsUrl>] *)
Definition server_from_url (u : DnsUrl) : ServerConf := mkConf (mkServer [] false) u false None server_options_default.

(** The network of a text, what follows it dropped; a panic of the reader passes on. *)
Definition subnet_option (v : text) : IResult (option IpNet) :=
  match p_ip_net v with
  | IOk _ n => IOk [] (Some n)
  | IErr | IFail => IOk [] None
  | IPanic => IPanic
  end.

Definition host_name_option (v : text) (u : DnsUrl) : DnsUrl :=
  if bool_decide (v = text_of "-") then set_sni_off true u else set_host (string_of_text v) u.

Definition tls_host_verify_option (v : text) (u : DnsUrl) : DnsUrl :=
  match url_host u with
  | HostIpv4 a => set_host (string_of_text v) (set_ip (V4 a) u)
  | HostIpv6 a => set_host (string_of_text v) (set_ip (V6 a) u)
  | HostDomain _ => u
  end.

(** One option; a failure ends the reading of the line. *)
Definition server_option (kv : text * option text) (s : ServerConf) : IResult ServerConf :=
  let '(k, v) := kv in
  let done s := IOk [] s in
  let on_server f := done ({! sc_server := f (sc_server s) } s) in
  let on_options f := done ({! sc_options := f (sc_options s) } s) in
  let with_value f := match v with Some v => f v | None => done s end in
  if key_is k "e" || key_is k "exclude-default-group" then done ({! sc_info := mkServer (ns_group (sc_info s)) true } s)
  else if key_is k "blacklist-ip" then on_options (fun o => {! sv_blacklist_ip := true } o)
  else if key_is k "whitelist-ip" then on_options (fun o => {! sv_whitelist_ip := true } o)
  else if key_is k "check-edns" then on_options (fun o => {! sv_check_edns := true } o)
  else if key_is k "spki-pin" then
    match v with
    | None => IFail
    | Some pin => if is_spki_pin pin then on_options (fun o => {! sv_spki_pin := Some (string_of_text pin) } o) else IFail
    end
  else if key_is k "b" || key_is k "bootstrap-dns" then done ({! sc_bootstrap_dns := true } s)
  else if key_is k "set-mark" then with_value (fun m => on_options (fun o => {! sv_so_mark := u32_from_str_or_hex m } o))
  else if key_is k "g" || key_is k "group" then
    with_value (fun g => done ({! sc_info := mkServer (ns_group (sc_info s) ++ [string_of_text g]) (ns_exclude_default_group (sc_info s)) } s))
  else if key_is k "p" || key_is k "proxy" then done ({! sc_proxy := opt_text v } s)
  else if key_is k "interface" then on_options (fun o => {! sv_interface := opt_text v } o)
  else if key_is k "subnet" then
    with_value (fun t => ires_bind (subnet_option t) (fun _ n => on_options (fun o => {! sv_subnet := n } o)))
  else if key_is k "host-name" then with_value (fun h => on_server (host_name_option h))
  else if key_is k "k" || key_is k "no-check-certificate" then on_server (set_ssl_verify false)
  else if key_is k "tls-host-verify" then with_value (fun h => on_server (tls_host_verify_option h))
  else done s.

Definition server_options (options : Options) (s : ServerConf) : IResult ServerConf :=
  fold_left (fun r kv => ires_bind r (fun _ s => server_option kv s)) options (IOk [] s).

Definition p_server : Parser ServerConf := fun i =>
  ires_bind (p_server_url i) (fun i url =>
  ires_bind (p_more_options i) (fun i options =>
  ires_bind (server_options (opt_unwrap_or [] options) (server_from_url url)) (fun _ s => IOk i s))).

(** ** [proxy_config.rs] *)
Definition p_proxy : Parser NamedProxyConfig := fun i =>
  ires_bind
    (n_separated_list1 n_space1
       (n_alt [n_map (parse_value (one_of_names "name" "n") p_string) (fun v s => (Some v, s.2));
               n_map (n_map_res (n_is_not blanks) proxy_from_str) (fun v s => (s.1, Some v))]) i)
    (fun rest changes =>
       match fold_left (fun s f => f s) changes (None, None) with
       | (Some name, Some config) => IOk rest (mkNamedProxy name config)
       | _ => IErr
       end).
End Servers.
