(* ===== verification/ParseLine.v ===== *)
(** * Lines of the configuration ([config/parser/mod.rs])

    The directives, in the order they are tried, and what a line and a file are read
    as. *)

From S2P Require Import Prelude Names Config Text Message DomainRule DomainRuleTree Runtime Context DnsUrl ClientBuild ConfigItems Ping Nom ParseValues ParseRules ParseServers.

(** [str::trim_end] *)
Definition trim_end (t : text) : text := reverse (trim_start (reverse t)).

Section Lines.
Context {Name Level Pattern : Type} `{NameLib Name} `{NameText Name}.
Context `{N : Nom} `{U : Unicode} `{V : ValueLib} `{TL : TokenLib Level Pattern} `{R : RuleLib} `{L : UrlLib}.
Variable arc_new : text → Z.
Variable is_spki_pin : text → bool.

Abbreviation Item := (ConfigItem Name Level Pattern).

(** A keyword and a value, a keyword alone, or a parser with keywords of its own. *)
Inductive Directive :=
| DValue {A : Type} (keyword : string) (value : Parser A) (item : A → Item)
| DWord (keyword : string) (item : Item)
| DOther (keywords : list string) (parser : Parser Item).

Definition config {A} (keyword : string) (value : Parser A) : Parser A :=
  n_preceded (n_tag_no_case (text_of keyword)) (n_preceded n_space1 value).

Definition dir_parser (d : Directive) : Parser Item :=
  match d with
  | DValue keyword value item => n_map (config keyword value) item
  | DWord keyword item => n_map (n_tag_no_case (text_of keyword)) (fun _ => item)
  | DOther _ parser => parser
  end.

Definition group1 : list Directive :=
  [DValue "address" p_address_rule CiAddress; DValue "audit-enable" p_bool CiAuditEnable;
   DValue "audit-file-mode" p_file_mode CiAuditFileMode; DValue "audit-file" p_path CiAuditFile;
   DValue "audit-num" p_usize CiAuditNum; DValue "audit-size" p_byte CiAuditSize;
   DValue "bind-cert-file" p_path CiBindCertFile; DValue "bind-cert-key-file" p_path CiBindCertKeyFile;
   DValue "bind-cert-key-pass" p_string CiBindCertKeyPass; DValue "bogus-nxdomain" p_ip_or_set CiBogusNxDomain;
   DValue "blacklist-ip" p_ip_or_set CiBlacklistIp; DValue "cache-file" p_path CiCacheFile;
   DValue "cache-persist" p_bool CiCachePersist; DValue "cache-size" p_isize CiCacheSize;
   DValue "cache-checkpoint-time" n_u64 CiCacheCheckpointTime; DValue "ca-file" p_path CiCaFile;
   DValue "ca-path" p_path CiCaPath; DValue "client-rules" p_client_rule CiClientRule;
   DValue "client-rule" p_client_rule CiClientRule; DValue "conf-file" p_path CiConfFile].
Definition group2 : list Directive :=
  [DValue "domain-rules" (p_for_domain p_domain_rule) CiDomainRule;
   DValue "domain-rule" (p_for_domain p_domain_rule) CiDomainRule;
   DValue "domain-set" p_domain_set CiDomainSetProvider; DValue "dnsmasq-lease-file" p_path CiDnsmasqLeaseFile;
   DValue "dns64" p_ipv6_net CiDns64; DValue "dualstack-ip-allow-force-AAAA" p_bool CiDualstackIpAllowForceAAAA;
   DValue "dualstack-ip-selection" p_bool CiDualstackIpSelection;
   DValue "dualstack-ip-selection-threshold" n_u64 CiDualstackIpSelectionThreshold;
   DValue "edns-client-subnet" p_ip_net CiEdnsClientSubnet;
   DValue "expand-ptr-from-address" p_bool CiExpandPtrFromAddress; DValue "force-AAAA-SOA" p_bool CiForceAAAASOA;
   DValue "force-HTTPS-SOA" p_bool CiForceHTTPSSOA; DValue "force-qtype-soa" p_record_type CiForceQtypeSoa;
   DValue "response" p_response_mode CiResponseMode; DValue "group-begin" p_string CiGroupBegin;
   DWord "group-end" CiGroupEnd; DValue "prefetch-domain" p_bool CiPrefetchDomain;
   DValue "cname" (p_for_domain p_cname) CiCNAME; DValue "num-workers" p_usize CiNumWorkers;
   DValue "domain" p_name CiDomain; DValue "hosts-file" p_pattern CiHostsFile].
Definition group3 : list Directive :=
  [DValue "https-record" (p_for_domain p_https_rule) CiHttpsRecord; DValue "ignore-ip" p_ip_or_set CiIgnoreIp;
   DValue "local-ttl" n_u64 CiLocalTtl; DValue "log-console" p_bool CiLogConsole;
   DValue "log-file-mode" p_file_mode CiLogFileMode; DValue "log-file" p_path CiLogFile;
   DValue "log-filter" p_string CiLogFilter; DValue "log-level" p_level CiLogLevel;
   DValue "log-num" n_u64 CiLogNum; DValue "log-size" p_byte CiLogSize;
   DValue "max-reply-ip-num" n_u8 CiMaxReplyIpNum; DValue "mdns-lookup" p_bool CiMdnsLookup;
   DValue "nameserver" p_forward_rule CiForwardRule; DValue "proxy-server" p_proxy CiProxyConfig;
   DValue "rr-ttl-reply-max" n_u64 CiRrTtlReplyMax; DValue "rr-ttl-min" n_u64 CiRrTtlMin;
   DValue "rr-ttl-max" n_u64 CiRrTtlMax; DValue "rr-ttl" n_u64 CiRrTtl;
   DValue "resolv-file" p_path CiResolvFile].
Definition group4 : list Directive :=
  [DValue "dualstack-ip-prefer-ipv4" p_bool CiDualstackIpPreferIpv4;
   DValue "resolv-hostanme" p_bool CiResolvHostname; DValue "response-mode" p_response_mode CiResponseMode;
   DValue "server-name" p_name CiServerName; DValue "speed-check-mode" p_opt_speed_modes CiSpeedMode;
   DValue "serve-expired-reply-ttl" n_u64 CiServeExpiredReplyTtl;
   DValue "serve-expired-ttl" n_u64 CiServeExpiredTtl; DValue "serve-expired" p_bool CiServeExpired;
   DValue "srv-record" (p_for_domain p_srv) CiSrvRecord; DValue "resolv-hostname" p_bool CiResolvHostname;
   DValue "tcp-idle-time" n_u64 CiTcpIdleTime; DValue "nftset" (p_for_domain p_nftsets) CiNftSet;
   DValue "user" p_string CiUser].
Definition group5 : list Directive :=
  [DValue "whitelist-ip" p_ip_or_set CiWhitelistIp; DValue "ip-set" p_ip_set_provider CiIpSetProvider;
   DValue "ip-alias" (p_ip_alias arc_new) CiIpAlias; DOther (fst <$> bind_keywords) (n_map p_bind CiListener); DOther (fst <$> server_keywords) (n_map (p_server is_spki_pin) CiServer)].
Definition group6 : list Directive :=
  [DValue "ipset" (p_for_domain p_ipsets) CiKernelIpSet; DValue "ipset-timeout" p_bool CiIpSetTimeout;
   DValue "nftset-timeout" p_bool CiNftSetTimeout; DValue "ipset-no-speed" p_ipsets CiIpSetNoSpeed;
   DValue "nftset-no-speed" p_nftsets CiNftSetNoSpeed; DValue "nftset-debug" p_bool CiNftSetDebug;
   DValue "cache-mem-size" p_byte CiCacheMemorySize;
   DValue "serve-expired-prefetch-time" n_u64 CiServeExpiredPrefetchTime;
   DValue "max-query-limit" p_usize CiMaxQueryLimit; DValue "webui-enable" p_bool CiWebUiEnable;
   DValue "webui-bind" p_sock_addr CiWebUiBind; DValue "odhcpd-lease-file" p_path CiOdhcpdLeaseFile;
   DValue "txt-record" (p_for_domain p_txt) CiTxtRecord].
Definition group7 : list Directive :=
  [DValue "log-syslog" p_bool CiLogSyslog; DValue "audit-SOA" p_bool CiAuditSoa;
   DValue "audit-console" p_bool CiAuditConsole; DValue "audit-syslog" p_bool CiAuditSyslog;
   DValue "debug-save-fail-packet-dir" p_path CiDebugSaveFailPacketDir;
   DValue "debug-save-fail-packet" p_bool CiDebugSaveFailPacket;
   DValue "bind-cert-generate" p_cert_generation CiBindCertGenerate;
   DValue "bind-cert-san" p_strings CiBindCertSan; DValue "bind-cert-validity-days" n_u64 CiBindCertValidityDays;
   DValue "bind-cert-root-key-file" p_path CiBindCertRootKeyFile].

Definition groups : list (list Directive) := [group1; group2; group3; group4; group5; group6; group7].
Definition p_item : Parser Item := n_alt ((fun g => n_alt (dir_parser <$> g)) <$> groups).

(** ** Lines *)
Inductive ConfigLine := ClConfig (config : Item) (comment : option text) | ClComment (comment : text) | ClEmptyLine | ClEof.

Definition p_comment : Parser text := n_map (n_recognize (n_pair (n_char 35) n_not_line_ending)) trim_end.

Definition parse_line : Parser ConfigLine :=
  n_alt [
    n_map (n_pair (n_preceded n_space0 p_item)
                  (n_alt [n_map (n_recognize (n_pair n_space1 p_comment)) Some; n_map n_space0 (fun _ => None)]))
          (fun '(item, comment) => ClConfig item comment);
    n_map (n_preceded n_space0 p_comment) ClComment;
    n_map n_eof (fun _ => ClEof);
    n_map n_space0 (fun _ => ClEmptyLine)].

Definition parse_config : Parser (option Item) := fun i =>
  ires_bind (parse_line i) (fun i line => IOk i (match line with ClConfig item _ => Some item | _ => None end)).

(** What the reader of a file makes of it: the rest of the line is dropped, and a
    line that is not read is left out; none when this panics. *)
Definition read_line (t : text) : option (option (option Item)) :=
  match parse_config t with
  | IOk _ item => Some (Some item)
  | IErr | IFail => Some None
  | IPanic => None
  end.

(** [ConfigFile::parse] *)
Definition parse_file : Parser (list ConfigLine) := n_map (n_separated_list0 n_line_ending parse_line) (fun lines => lines).
End Lines.
