(* ===== verification/ParseSpec.v ===== *)
(** * Which directive a line is ([config/parser/mod.rs])

    A line is read by the directive whose keyword it begins with, in any case of its
    letters, and by no other. *)

From S2P Require Import Prelude Names Config Text Message DomainRule DomainRuleTree Runtime Context DnsUrl ClientBuild ConfigItems Ping Nom ParseValues ParseRules ParseServers ParseLine.

(** Characters of keywords: printing ASCII characters but the space. *)
Definition word_char (c : Z) : bool := (33 <=? c) && (c <=? 126).
Definition is_word (t : text) : bool := forallb word_char t.

Definition is_prefix (a b : text) : bool := bool_decide (take (length a) b = a).

(** Whether a line with a first word is for a directive. *)
Definition reads_word {Name Level Pattern} (word : text) (d : Directive (Name := Name) (Level := Level) (Pattern := Pattern)) : bool :=
  match d with
  | DValue keyword _ _ => bool_decide (text_lower (text_of keyword) = text_lower word)
  | DWord keyword _ => is_prefix (text_lower (text_of keyword)) (text_lower word)
  | DOther keywords _ => existsb (fun k => bool_decide (text_lower (text_of k) = text_lower word)) keywords
  end.

(** *** Texts that differ *)
Lemma texts_differ (a b : list Z) :
  (∃ k c d, a !! k = Some c ∧ b !! k = Some d ∧ c ≠ d) ∨
  (∃ c r, b = a ++ c :: r) ∨ a = b ∨ (∃ c r, a = b ++ c :: r).
Proof.
  revert b. induction a as [|x a IH]; intros [|y b].
  - by right; right; left.
  - right; left. by eexists _, _.
  - right; right; right. by eexists _, _.
  - destruct (decide (x = y)) as [<-|Hne]; [|left; by exists 0%nat, x, y].
    destruct (IH b) as [(k & c & d & ? & ? & ?)|[(c & r & ->)|[->|(c & r & ->)]]].
    + left. by exists (S k), c, d.
    + right; left. by eexists _, _.
    + by right; right; left.
    + right; right; right. by eexists _, _.
Qed.

Lemma word_char_ascii c : word_char c = true → is_ascii c.
Proof. unfold word_char, is_ascii. lia. Qed.
Lemma word_char_space c : word_char c = true → is_space c = false.
Proof. unfold word_char, is_space, one_of_chars. cbn. lia. Qed.
Lemma space_ascii c : is_space c = true → is_ascii c.
Proof. unfold is_space, one_of_chars, is_ascii. cbn. lia. Qed.
Lemma space_lower c : is_space c = true → ascii_lower c = c.
Proof. unfold is_space, one_of_chars, ascii_lower. cbn. intros. case_match; lia. Qed.
Lemma word_lower c : word_char c = true → word_char (ascii_lower c) = true.
Proof. unfold word_char, ascii_lower. case_match; lia. Qed.

Lemma is_word_ascii t : is_word t = true → Forall is_ascii t.
Proof.
  unfold is_word. rewrite forallb_forall, Forall_forall. intros Hw c Hc.
  by apply word_char_ascii, Hw, list_elem_of_In.
Qed.
Lemma is_word_lookup t k c : is_word t = true → t !! k = Some c → word_char c = true.
Proof. unfold is_word. rewrite forallb_forall. intros Hw Hk. apply Hw, list_elem_of_In. by eapply list_elem_of_lookup_2. Qed.
Lemma text_lower_app a b : text_lower (a ++ b) = text_lower a ++ text_lower b.
Proof. apply fmap_app. Qed.
Lemma text_lower_lookup t k : text_lower t !! k = ascii_lower <$> t !! k.
Proof. unfold text_lower. apply list_lookup_fmap. Qed.
Lemma text_lower_length t : length (text_lower t) = length t.
Proof. apply length_fmap. Qed.

Section Tags.
Context `{NL : NomLaws}.

(** A keyword against a text that begins with another word, up to a character that
    the keyword does not have: it errs, or it is a proper prefix of that word. *)
Lemma tag_stops kw word s r :
  is_word kw = true → is_word word = true → is_ascii s → forallb (fun x => negb (ascii_lower x =? ascii_lower s)) kw = true →
  text_lower kw ≠ text_lower word →
  n_tag_no_case kw (word ++ s :: r) = IErr ∨
  ∃ c w, is_prefix (text_lower kw) (text_lower word) = true ∧ word_char c = true ∧
         n_tag_no_case kw (word ++ s :: r) = IOk (c :: w) (take (length kw) word).
Proof.
  intros Hk Hw Hs Hks Hne.
  destruct (texts_differ (text_lower kw) (text_lower word)) as [(k & c & d & Hc & Hd & Hcd)|[(c & l & E)|[?|(c & l & E)]]]; [..|done|].
  - left. rewrite text_lower_lookup in Hc, Hd.
    apply fmap_Some in Hc as (x & Hx & ->). apply fmap_Some in Hd as (y & Hy & ->).
    eapply (n_tag_no_case_differs kw _ k x y); [done|by apply lookup_app_l_Some| | |done].
    + by apply word_char_ascii, (is_word_lookup kw k).
    + by apply word_char_ascii, (is_word_lookup word k).
  - right. apply fmap_app_inv in E as (a & b & Ha & Hb & Hword).
    change (text_lower kw = text_lower a) in Ha. destruct b as [|x b]; [done|].
    injection Hb as Hx Hb. assert (Hl : length a = length kw) by (by rewrite <- (text_lower_length kw), Ha, text_lower_length).
    exists x, (b ++ s :: r). rewrite Hword in *. split_and!.
    + unfold is_prefix. apply bool_decide_eq_true. rewrite text_lower_app, <- Ha, take_app_length'; [done|]. by rewrite text_lower_length.
    + eapply (is_word_lookup _ (length a)); [exact Hw|]. by apply list_lookup_middle.
    + rewrite <- app_assoc. rewrite <- Hl, take_app_length. apply tag_no_case_reads; [by apply is_word_ascii| |by rewrite Ha].
      apply is_word_ascii. unfold is_word in *. rewrite forallb_app in Hw. by apply andb_true_iff in Hw as [? _].
  - left. assert (Hl : text_lower kw !! length word = Some c).
    { rewrite E. apply list_lookup_middle. by rewrite text_lower_length. }
    rewrite text_lower_lookup in Hl. apply fmap_Some in Hl as (x & Hx & ->). pose proof (is_word_lookup _ _ _ Hk Hx) as Hxw.
    eapply (n_tag_no_case_differs kw _ (length word) x s); [done| |by apply word_char_ascii|done|].
    + by apply list_lookup_middle.
    + rewrite forallb_forall in Hks. intros Heq. specialize (Hks x). rewrite Heq, Z.eqb_refl in Hks.
      apply list_elem_of_lookup_2, list_elem_of_In in Hx. by apply Hks in Hx.
Qed.

(** A keyword against a line that begins with another word. *)
Lemma tag_other kw word s r :
  is_word kw = true → is_word word = true → is_space s = true → text_lower kw ≠ text_lower word →
  n_tag_no_case kw (word ++ s :: r) = IErr ∨
  ∃ c w, is_prefix (text_lower kw) (text_lower word) = true ∧ word_char c = true ∧
         n_tag_no_case kw (word ++ s :: r) = IOk (c :: w) (take (length kw) word).
Proof.
  intros Hk Hw Hs Hne. apply tag_stops; [done|done|by apply space_ascii| |done].
  apply forallb_forall. intros x Hx. apply negb_true_iff, Z.eqb_neq. rewrite (space_lower s) by done. intros Heq.
  unfold is_word in Hk. rewrite forallb_forall in Hk. apply Hk, word_lower in Hx. rewrite Heq in Hx.
  by rewrite (word_char_space _ Hx) in Hs.
Qed.

Lemma space1_word c w : word_char c = true → n_space1 (c :: w) = IErr.
Proof. intros Hc. rewrite n_space1_eq. unfold doc_take_while1. cbn [span]. by rewrite (word_char_space c Hc). Qed.

(** A directive for another word errs. *)
Lemma config_other {A} kw (p : Parser A) word s r :
  is_word (text_of kw) = true → is_word word = true → is_space s = true → text_lower (text_of kw) ≠ text_lower word →
  config kw p (word ++ s :: r) = IErr.
Proof.
  intros Hk Hw Hs Hne. unfold config. rewrite n_preceded_eq. unfold doc_preceded.
  destruct (tag_other _ word s r Hk Hw Hs Hne) as [->|(c & w & _ & Hc & ->)]; [done|]. cbn.
  rewrite n_preceded_eq. unfold doc_preceded. by rewrite space1_word.
Qed.

(** The directive of the word reads what comes after the spaces. *)
Lemma config_same {A} kw (p : Parser A) word ws r :
  is_word (text_of kw) = true → is_word word = true → text_lower word = text_lower (text_of kw) →
  ws ≠ [] → forallb is_space ws = true → opt_map_or true (fun c => negb (is_space c)) (head r) = true →
  config kw p (word ++ ws ++ r) = p r.
Proof.
  intros Hk Hw E Hne Hs Hr. unfold config. rewrite n_preceded_eq. unfold doc_preceded.
  rewrite tag_no_case_reads; [|by apply is_word_ascii..|done]. cbn. rewrite n_preceded_eq. unfold doc_preceded.
  by rewrite space1_reads.
Qed.
End Tags.

Definition outcome {A} (x : IResult A) : option (option (option A)) :=
  match x with
  | IOk _ a => Some (Some (Some a))
  | IErr => Some (Some None)
  | IFail => Some None
  | IPanic => None
  end.

Section Lines.
Context {Name Level Pattern : Type} `{NameLib Name} `{NameText Name}.
Context `{NL : NomLaws} `{U : Unicode} `{V : ValueLib} `{TL : TokenLib Level Pattern} `{R : RuleLib} `{L : UrlLib}.
Context (arc_new : text → Z) (is_spki_pin : text → bool).
Abbreviation Dir := (Directive (Name := Name) (Level := Level) (Pattern := Pattern)).

Definition directives : list Dir := concat (groups arc_new is_spki_pin).

(** A directive errs on a line for another word. *)
Definition errs_on_others (d : Dir) : Prop := ∀ word s r,
  word ≠ [] → is_word word = true → is_space s = true → reads_word word d = false → dir_parser d (word ++ s :: r) = IErr.

Lemma value_errs {A} kw (p : Parser A) item : is_word (text_of kw) = true → errs_on_others (DValue kw p item).
Proof.
  intros Hk word s r _ Hw Hs Hr. cbn in *. apply bool_decide_eq_false in Hr.
  rewrite n_map_eq. unfold doc_map. by rewrite config_other.
Qed.

Lemma is_prefix_refl a : is_prefix a a = true.
Proof. unfold is_prefix. apply bool_decide_eq_true. by rewrite firstn_all. Qed.

Lemma word_errs kw item : is_word (text_of kw) = true → errs_on_others (DWord kw item).
Proof.
  intros Hk word s r _ Hw Hs Hr. cbn in *. rewrite n_map_eq. unfold doc_map.
  destruct (tag_other (text_of kw) word s r Hk Hw Hs) as [->|(c & w & Hp & _)]; [|done|congruence].
  intros E. rewrite E, is_prefix_refl in Hr. done.
Qed.

(** Keywords tried one after the other against another word. *)
Lemma keywords_other {A} (l : list (string * A)) word s r :
  is_word word = true → is_space s = true → forallb (fun k => is_word (text_of k.1)) l = true →
  existsb (fun k => bool_decide (text_lower (text_of k) = text_lower word)) (fst <$> l) = false →
  doc_alt ((fun '(kw, x) => n_value x (n_tag_no_case (text_of kw))) <$> l) (word ++ s :: r) = IErr ∨
  ∃ c w x, word_char c = true ∧
    doc_alt ((fun '(kw, x) => n_value x (n_tag_no_case (text_of kw))) <$> l) (word ++ s :: r) = IOk (c :: w) x.
Proof.
  intros Hw Hs. induction l as [|[kw x] l IH]; [by left|]. cbn [fmap list_fmap existsb forallb fst].
  intros [Hk Hl]%andb_true_iff [Hne Hr]%orb_false_iff. apply bool_decide_eq_false in Hne.
  cbn [doc_alt]. rewrite n_value_eq. unfold doc_value.
  destruct (tag_other _ word s r Hk Hw Hs Hne) as [->|(c & w & _ & Hc & ->)]; cbn [ires_bind]; [by apply IH|].
  right. by exists c, w, x.
Qed.

Lemma space0_word word s r : word ≠ [] → is_word word = true → n_space0 (word ++ s :: r) = IOk (word ++ s :: r) [].
Proof.
  intros Hne Hw. apply (space0_reads []); [done|]. destruct word as [|c word]; [done|].
  unfold is_word in Hw. cbn [forallb] in Hw. apply andb_true_iff in Hw as [Hc _].
  cbn [app head opt_map_or]. by rewrite (word_char_space c Hc).
Qed.

Lemma bind_errs item : errs_on_others (DOther (fst <$> bind_keywords) (n_map p_bind item)).
Proof.
  intros word s r Hne Hw Hs Hr. cbn [dir_parser reads_word] in *. rewrite n_map_eq. unfold doc_map, p_bind.
  do 3 (rewrite n_pair_eq; unfold doc_pair). rewrite n_preceded_eq. unfold doc_preceded.
  rewrite space0_word by done. cbn [ires_bind]. unfold p_bind_proto. rewrite n_alt_eq.
  destruct (keywords_other bind_keywords word s r Hw Hs eq_refl Hr) as [->|(c & w & x & Hc & ->)]; [done|].
  cbn [ires_bind]. rewrite n_preceded_eq. unfold doc_preceded. by rewrite space1_word.
Qed.

Lemma server_errs item : errs_on_others (DOther (fst <$> server_keywords) (n_map (p_server is_spki_pin) item)).
Proof.
  intros word s r Hne Hw Hs Hr. cbn [dir_parser reads_word] in *. rewrite n_map_eq. unfold doc_map, p_server, p_server_url.
  rewrite n_alt_eq. revert Hr. assert (Hk : forallb (fun k => is_word (text_of k.1)) server_keywords = true) by done.
  revert Hk. generalize server_keywords as l. induction l as [|[kw proto] l IH]; [done|].
  cbn [fmap list_fmap existsb forallb fst]. intros [Hk Hl]%andb_true_iff [Hx Hr]%orb_false_iff.
  apply bool_decide_eq_false in Hx. cbn [doc_alt].
  match goal with |- context [n_preceded (n_tag_no_case (text_of kw)) (n_preceded n_space1 ?p) _] =>
    change (n_preceded (n_tag_no_case (text_of kw)) (n_preceded n_space1 p)) with (config kw p) end.
  rewrite config_other by done. by apply IH.
Qed.

Lemma directives_err : Forall errs_on_others directives.
Proof.
  unfold directives, groups, group1, group2, group3, group4, group5, group6, group7. cbn [concat app].
  repeat first [apply Forall_nil_2 | apply Forall_cons_2; [first [apply bind_errs | apply server_errs | apply value_errs; done | apply word_errs; done]|]].
Qed.

(** No word is for two directives. *)
Definition dir_keys (d : Dir) : list text :=
  match d with
  | DValue keyword _ _ | DWord keyword _ => [text_lower (text_of keyword)]
  | DOther keywords _ => (fun k => text_lower (text_of k)) <$> keywords
  end.
Definition is_dword (d : Dir) : bool := match d with DWord _ _ => true | _ => false end.

Definition clash (d d' : Dir) : bool :=
  existsb (fun k => existsb (fun k' =>
    if is_dword d then is_prefix k k' || is_dword d' && is_prefix k' k
    else if is_dword d' then is_prefix k' k else bool_decide (k = k')) (dir_keys d')) (dir_keys d).

Fixpoint no_clash (l : list Dir) : bool :=
  match l with [] => true | d :: l => forallb (fun d' => negb (clash d d')) l && no_clash l end.

Lemma directives_distinct : no_clash directives = true.
Proof. by vm_compute. Qed.

Lemma is_prefix_app a b : is_prefix a (a ++ b) = true.
Proof. unfold is_prefix. apply bool_decide_eq_true. by rewrite take_app_length. Qed.
Lemma is_prefix_spec a b : is_prefix a b = true → ∃ c, b = a ++ c.
Proof. unfold is_prefix. rewrite bool_decide_eq_true. intros <-. eexists. by rewrite firstn_skipn. Qed.
Lemma is_prefix_both a b c : is_prefix a c = true → is_prefix b c = true → is_prefix a b || is_prefix b a = true.
Proof.
  intros [x ->]%is_prefix_spec [y E]%is_prefix_spec. apply orb_true_iff.
  destruct (app_eq_inv _ _ _ _ E) as [(k & -> & _)|(k & -> & _)]; [right|left]; apply is_prefix_app.
Qed.

(** The keyword a word is read for. *)
Lemma reads_key word d : reads_word word d = true →
  ∃ k, k ∈ dir_keys d ∧ (if is_dword d then is_prefix k (text_lower word) = true else k = text_lower word).
Proof.
  destruct d as [A kw p item|kw item|kws p]; cbn.
  - intros ?%bool_decide_eq_true. eexists. by split; [apply list_elem_of_singleton|].
  - intros ?. eexists. by split; [apply list_elem_of_singleton|].
  - intros (k & Hk & E%bool_decide_eq_true)%existsb_exists. eexists. split; [|exact E].
    apply list_elem_of_fmap. exists k. split; [done|]. by apply list_elem_of_In.
Qed.

Lemma clash_spec word d d' : reads_word word d = true → reads_word word d' = true → clash d d' = true.
Proof.
  intros (k & Hk & Ek)%reads_key (k' & Hk' & Ek')%reads_key. unfold clash.
  apply existsb_exists. exists k. split; [by apply list_elem_of_In|]. apply existsb_exists. exists k'.
  split; [by apply list_elem_of_In|]. destruct (is_dword d), (is_dword d'); cbn.
  - eapply is_prefix_both; done.
  - subst k'. by rewrite Ek.
  - by subst k.
  - apply bool_decide_eq_true. by subst.
Qed.

Lemma doc_alt_app {A} (l1 l2 : list (Parser A)) i :
  doc_alt (l1 ++ l2) i = match doc_alt l1 i with IErr => doc_alt l2 i | r => r end.
Proof. induction l1 as [|p l1 IH]; [done|]. cbn. by destruct (p i). Qed.

Lemma alt_groups (gs : list (list Dir)) i :
  doc_alt ((fun g => n_alt (dir_parser <$> g)) <$> gs) i = doc_alt (dir_parser <$> concat gs) i.
Proof.
  induction gs as [|g gs IH]; [done|]. cbn [concat]. rewrite fmap_app, doc_alt_app, <- IH. cbn [fmap list_fmap doc_alt].
  by rewrite n_alt_eq.
Qed.

(** Of directives for different words the one for the line's word reads it. *)
Lemma alt_word (l : list Dir) word s r :
  Forall errs_on_others l → no_clash l = true → word ≠ [] → is_word word = true → is_space s = true →
  doc_alt (dir_parser <$> l) (word ++ s :: r) =
    match find_first (reads_word word) l with Some d => dir_parser d (word ++ s :: r) | None => IErr end.
Proof.
  intros Hl Hc Hne Hw Hs. induction Hl as [|d l Hd _ IH]; [done|].
  cbn [no_clash] in Hc. apply andb_true_iff in Hc as [Hd' Hc]. specialize (IH Hc).
  cbn [fmap list_fmap doc_alt find_first]. destruct (reads_word word d) eqn:Er.
  - rewrite IH. assert (Hn : find_first (reads_word word) l = None).
    { apply find_first_None. intros d' Hin. destruct (reads_word word d') eqn:Er'; [|done]. exfalso.
      rewrite forallb_forall in Hd'. apply list_elem_of_In, Hd' in Hin. by rewrite (clash_spec word d d') in Hin. }
    rewrite Hn. by destruct (dir_parser d (word ++ s :: r)).
  - by rewrite Hd.
Qed.

Lemma item_word word s r :
  word ≠ [] → is_word word = true → is_space s = true →
  p_item arc_new is_spki_pin (word ++ s :: r) =
    match find_first (reads_word word) directives with Some d => dir_parser d (word ++ s :: r) | None => IErr end.
Proof.
  intros. unfold p_item. rewrite n_alt_eq, alt_groups.
  by apply alt_word; [apply directives_err|apply directives_distinct|..].
Qed.

(** A comment, or the end of the line or the text, is for no directive. *)
Definition no_keyword (i : text) : Prop := i = [] ∨ ∃ c r, (c = 35 ∨ c = 10) ∧ i = c :: r.

Lemma tag_none kw i : is_word kw = true → kw ≠ [] → head kw ≠ Some 35 → no_keyword i → n_tag_no_case kw i = IErr.
Proof.
  intros Hk Hne Hh [->|(d & r & Hd & ->)]; destruct kw as [|c kw]; [done| |done|].
  - rewrite n_tag_no_case_eq; [|by apply is_word_ascii|by rewrite take_nil]. unfold doc_tag_no_case.
    by rewrite take_nil, bool_decide_false.
  - unfold is_word in Hk. cbn [forallb] in Hk. apply andb_true_iff in Hk as [Hc _].
    apply (n_tag_no_case_differs _ _ 0 c d); [done|done|by apply word_char_ascii|unfold is_ascii; lia|].
    cbn [head] in Hh. assert (ascii_lower d = d) as -> by (by destruct Hd as [-> | ->]).
    unfold word_char in Hc. unfold ascii_lower. case_match; [lia|]. intros ->. destruct Hd as [-> | ->]; [done|lia].
Qed.

Definition key_ok (k : string) : bool :=
  is_word (text_of k) && match text_of k with c :: _ => negb (c =? 35) | [] => false end.
Definition dir_keywords (d : Dir) : list string :=
  match d with DValue kw _ _ | DWord kw _ => [kw] | DOther kws _ => kws end.

Lemma key_none k i : key_ok k = true → no_keyword i → n_tag_no_case (text_of k) i = IErr.
Proof.
  unfold key_ok. intros [Hk Hc]%andb_true_iff Hi. apply tag_none; [done|by intros E; rewrite E in Hc| |done].
  destruct (text_of k) as [|c t]; [done|]. cbn. intros [= ->]. done.
Qed.

Lemma keys_none {A} (l : list (string * A)) i B (q : A → Parser text → Parser B) :
  (∀ x f, n_tag_no_case f i = IErr → q x (n_tag_no_case f) i = IErr) →
  forallb key_ok (fst <$> l) = true → no_keyword i →
  doc_alt ((fun '(kw, x) => q x (n_tag_no_case (text_of kw))) <$> l) i = IErr.
Proof.
  intros Hq Hl Hi. induction l as [|[kw x] l IH]; [done|]. cbn [fmap list_fmap forallb fst] in Hl.
  apply andb_true_iff in Hl as [Hk Hl]. cbn [fmap list_fmap doc_alt]. rewrite Hq by (by apply key_none). by apply IH.
Qed.

Lemma dir_none d i : d ∈ directives → no_keyword i → dir_parser d i = IErr.
Proof.
  intros Hin Hi. revert d Hin. apply Forall_forall.
  assert (Hs : n_space0 i = IOk i []) by (apply (space0_reads []); [done|by destruct Hi as [->|(c & r & [-> | ->] & ->)]]).
  unfold directives, groups, group1, group2, group3, group4, group5, group6, group7. cbn [concat app].
  repeat (first [apply Forall_nil_2 | apply Forall_cons_2]); cbn [dir_parser];
    try (rewrite n_map_eq; unfold doc_map; first [unfold config; rewrite n_preceded_eq; unfold doc_preceded|idtac];
         by rewrite key_none).
  - rewrite n_map_eq. unfold doc_map, p_bind. do 3 (rewrite n_pair_eq; unfold doc_pair). rewrite n_preceded_eq. unfold doc_preceded.
    rewrite Hs. cbn [ires_bind]. unfold p_bind_proto. rewrite n_alt_eq.
    rewrite (keys_none bind_keywords i _ (fun x p => n_value x p)); [done| |done|done].
    intros x f Hf. rewrite n_value_eq. unfold doc_value. by rewrite Hf.
  - rewrite n_map_eq. unfold doc_map, p_server, p_server_url. rewrite n_alt_eq.
    rewrite (keys_none server_keywords i _ (fun x p => n_preceded p
      (n_preceded n_space1 (n_map_res (n_take_till1 is_whitespace) (server_url x))))); [done| |done|done].
    intros x f Hf. rewrite n_preceded_eq. unfold doc_preceded. by rewrite Hf.
Qed.

Lemma item_none i : no_keyword i → p_item arc_new is_spki_pin i = IErr.
Proof.
  intros Hi. unfold p_item. rewrite n_alt_eq, alt_groups. fold directives.
  assert (Hd : ∀ d, d ∈ directives → dir_parser d i = IErr) by (intros d ?; by apply dir_none).
  revert Hd. generalize directives as l. induction l as [|d l IH]; intros Hd; [done|]. cbn [fmap list_fmap doc_alt].
  rewrite Hd by (by left). apply IH. intros d' ?. apply Hd. by right.
Qed.

Lemma not_line_ending_total r : doc_not_line_ending r = IErr ∨ ∃ rest a, doc_not_line_ending r = IOk rest a.
Proof.
  unfold doc_not_line_ending. destruct (span _ r) as [a q]. destruct q as [|x q]; [right; by eexists _, _|].
  repeat case_match; first [by left | right; by eexists _, _].
Qed.

(** What follows an item is read, as a comment or not. *)
Lemma comment_reads rest : ∃ rest' c,
  n_alt [n_map (n_recognize (n_pair n_space1 p_comment)) Some; n_map n_space0 (fun _ => None)] rest = IOk rest' c.
Proof.
  rewrite n_alt_eq. cbn [doc_alt].
  assert (Hend : ∃ rest' c, n_map n_space0 (fun _ : text => None (A := text)) rest = IOk rest' c).
  { rewrite n_map_eq. unfold doc_map. rewrite n_space0_eq. unfold doc_take_while. destruct (span is_space rest). by eexists _, _. }
  destruct Hend as (r0 & c0 & ->).
  rewrite n_map_eq. unfold doc_map. rewrite n_recognize_eq. unfold doc_recognize. rewrite n_pair_eq. unfold doc_pair.
  rewrite n_space1_eq. unfold doc_take_while1. destruct (span is_space rest) as [[|c a] r]; cbn [ires_bind]; [by eexists _, _|].
  unfold p_comment. rewrite n_map_eq. unfold doc_map. rewrite n_recognize_eq. unfold doc_recognize. rewrite n_pair_eq. unfold doc_pair.
  rewrite n_char_eq. unfold doc_char. destruct r as [|d r]; cbn [ires_bind]; [by eexists _, _|].
  destruct (d =? 35); cbn [ires_bind]; [|by eexists _, _]. rewrite n_not_line_ending_eq.
  destruct (not_line_ending_total r) as [->|(rest' & b & ->)]; by eexists _, _.
Qed.

Lemma comment_word word s r : word ≠ [] → head word ≠ Some 35 →
  p_comment (word ++ s :: r) = IErr.
Proof.
  intros Hne Hh. unfold p_comment. rewrite n_map_eq. unfold doc_map. rewrite n_recognize_eq. unfold doc_recognize.
  rewrite n_pair_eq. unfold doc_pair. rewrite n_char_eq. unfold doc_char. destruct word as [|c word]; [done|].
  cbn [app]. destruct (Z.eqb_spec c 35) as [->|]; done.
Qed.

Lemma directive_words d : d ∈ directives → match d with DValue kw _ _ => is_word (text_of kw) = true | _ => True end.
Proof.
  assert (Hall : forallb (fun d : Dir => match d with DValue kw _ _ => is_word (text_of kw) | _ => true end) directives = true)
    by (by vm_compute).
  intros Hin. rewrite forallb_forall in Hall. apply list_elem_of_In, Hall in Hin. by destruct d.
Qed.

(** C27: a line is read by the directive of its first word. After any spaces, a word of
    printing ASCII characters that does not begin a comment, and spaces, the value is
    given to the parser of the one directive whose keyword the word is, letters in any
    case; an error of that parser is no error of the line, which is then read as an
    empty one, and so is a line whose word is no keyword. *)
Theorem line_is_its_directive sp word ws r :
  forallb is_space sp = true → word ≠ [] → is_word word = true → head word ≠ Some 35 →
  ws ≠ [] → forallb is_space ws = true → opt_map_or true (fun c => negb (is_space c)) (head r) = true →
  read_line arc_new is_spki_pin (sp ++ word ++ ws ++ r) =
    match find_first (reads_word word) directives with
    | Some (DValue _ value item) => outcome (n_map value item r)
    | Some d => outcome (dir_parser d (word ++ ws ++ r))
    | None => Some (Some None)
    end.
Proof.
  intros Hsp Hne Hw Hh Hws Hs Hr. destruct ws as [|s ws]; [done|]. clear Hws.
  pose proof Hs as Hs'. cbn [forallb] in Hs'. apply andb_true_iff in Hs' as [Hs0 _].
  assert (Hhead : opt_map_or true (fun c => negb (is_space c)) (head (word ++ (s :: ws) ++ r)) = true).
  { destruct word as [|c word]; [done|]. unfold is_word in Hw. cbn [forallb] in Hw. apply andb_true_iff in Hw as [Hc _].
    cbn [app head opt_map_or]. by rewrite (word_char_space c Hc). }
  assert (Hitem : outcome (p_item arc_new is_spki_pin (word ++ (s :: ws) ++ r)) =
    match find_first (reads_word word) directives with
    | Some (DValue _ value item) => outcome (n_map value item r)
    | Some d => outcome (dir_parser d (word ++ (s :: ws) ++ r))
    | None => Some (Some None)
    end).
  { change ((s :: ws) ++ r) with (s :: (ws ++ r)) at 1. rewrite item_word by done.
    destruct (find_first (reads_word word) directives) as [[A kw p item|kw item|kws p]|] eqn:E; [|done..].
    apply find_first_Some in E as [Hin Hrd]. cbn [dir_parser]. rewrite !n_map_eq. unfold doc_map.
    change (s :: ws ++ r) with ((s :: ws) ++ r). cbn [reads_word] in Hrd. apply bool_decide_eq_true in Hrd.
    rewrite config_same; [done| |done..].
    by apply (directive_words _ Hin). }
  unfold read_line, parse_config, parse_line. rewrite n_alt_eq. cbn [doc_alt]. rewrite n_map_eq. unfold doc_map.
  rewrite n_pair_eq. unfold doc_pair. rewrite n_preceded_eq. unfold doc_preceded. rewrite space0_reads by done.
  cbn [ires_bind]. rewrite <- Hitem.
  destruct (p_item _ _ (word ++ (s :: ws) ++ r)) as [rest item| | |] eqn:E; cbn [ires_bind outcome]; [| |done|done].
  - destruct (comment_reads rest) as (rest' & c & ->). done.
  - rewrite n_map_eq. unfold doc_map. rewrite n_preceded_eq. unfold doc_preceded. rewrite space0_reads by done. cbn [ires_bind].
    change ((s :: ws) ++ r) with (s :: (ws ++ r)). rewrite comment_word by done. cbn [ires_bind].
    rewrite n_map_eq. unfold doc_map. rewrite n_eof_eq. unfold doc_eof.
    destruct (sp ++ word ++ s :: ws ++ r) eqn:Ei; [by destruct sp, word|]. cbn [ires_bind].
    rewrite n_map_eq. unfold doc_map. rewrite n_space0_eq. unfold doc_take_while. by destruct (span is_space _).
Qed.
End Lines.
