(* ===== verification/ParseIp.v ===== *)
(** * Addresses that are printed and read back ([nom_recipes/])

    The configuration's own readers of addresses read what the standard library
    prints of them, and those of listeners what the program prints. *)

From S2P Require Import Prelude Names Config Text DnsUrl Ping Nom ParseValues ParseServers.

(** ** Numbers *)
Lemma digit_val_char radix d : 0 ≤ d < radix → radix ≤ 16 → digit_val radix (digit_char d) = Some d.
Proof.
  intros Hd Hr. unfold digit_char, digit_val. destruct (Z.ltb_spec d 10).
  - rewrite (proj2 (Z.leb_le 48 (48 + d))), (proj2 (Z.leb_le (48 + d) 57)) by lia. cbn [andb].
    rewrite (proj2 (Z.ltb_lt _ radix)) by lia. f_equal. lia.
  - rewrite (proj2 (Z.leb_le 48 (87 + d))), (proj2 (Z.leb_gt (87 + d) 57)) by lia. cbn [andb].
    rewrite (proj2 (Z.leb_le 97 (87 + d))), (proj2 (Z.leb_le (87 + d) 122)) by lia. cbn [andb].
    rewrite (proj2 (Z.ltb_lt _ radix)) by lia. f_equal. lia.
Qed.

Lemma digit_char_hex d : 0 ≤ d < 16 → is_hexdigit (digit_char d) = true.
Proof. intros. unfold digit_char, is_hexdigit, is_ascii_hexdigit. case_match; lia. Qed.
Lemma digit_char_digit d : 0 ≤ d < 10 → is_digit (digit_char d) = true.
Proof. intros. unfold digit_char, is_digit. case_match; lia. Qed.

Section Numbers.
Variable radix : Z.
Hypothesis Hradix : 2 ≤ radix ≤ 16.

Lemma number_digits_chars (ok : Z → bool) fuel n :
  (∀ d, 0 ≤ d < radix → ok (digit_char d) = true) → 0 ≤ n → forallb ok (number_digits radix fuel n) = true.
Proof.
  intros Hok. revert n. induction fuel as [|fuel IH]; intros n Hn; [done|]. cbn [number_digits].
  rewrite forallb_app. apply andb_true_iff. split.
  - case_match; [done|]. apply IH. apply Z.div_pos; lia.
  - cbn. rewrite Hok; [done|]. apply Z.mod_pos_bound. lia.
Qed.

Lemma number_digits_length fuel n : (fuel ≠ 0)%nat → (0 < length (number_digits radix fuel n) ≤ fuel)%nat.
Proof.
  intros Hf. split.
  - destruct fuel; [done|]. cbn [number_digits]. rewrite length_app. cbn. lia.
  - clear Hf. revert n. induction fuel as [|fuel IH]; intros n; cbn [number_digits length]; [lia|].
    rewrite length_app. cbn [length]. case_match; cbn [length]; [lia|]. specialize (IH (n / radix)). lia.
Qed.

(** Reading the digits of a number gives the number. *)
Lemma digits_number fuel n acc count rest :
  0 ≤ n < radix ^ Z.of_nat fuel → (fuel ≠ 0)%nat →
  digits radix acc count (number_digits radix fuel n ++ rest) =
    digits radix (acc * radix ^ Z.of_nat (length (number_digits radix fuel n)) + n)
      (count + length (number_digits radix fuel n)) rest.
Proof.
  revert n acc count rest. induction fuel as [|fuel IH]; intros n acc count rest Hn Hf; [done|]. clear Hf.
  pose proof (Z.div_mod n radix ltac:(lia)) as Hdm. pose proof (Z.mod_pos_bound n radix ltac:(lia)) as Hm.
  rewrite Nat2Z.inj_succ, Z.pow_succ_r in Hn by lia.
  assert (Hq : 0 ≤ n / radix < radix ^ Z.of_nat fuel) by (split; [apply Z.div_pos; lia|apply Z.div_lt_upper_bound; lia]).
  cbn [number_digits]. destruct (Z.eqb_spec (n / radix) 0) as [E|E].
  - cbn [app digits length]. rewrite digit_val_char by lia. rewrite Nat.add_1_r. cbn [digits]. f_equal. lia.
  - assert (fuel ≠ 0%nat) by (intros ->; cbn in Hq; lia).
    rewrite <- app_assoc, IH by done. cbn [app digits]. rewrite digit_val_char by lia. rewrite length_app. cbn [length].
    f_equal; [|lia]. rewrite Nat.add_1_r, Nat2Z.inj_succ, Z.pow_succ_r by lia. lia.
Qed.

Lemma parse_unsigned_number fuel n limit :
  0 ≤ n < radix ^ Z.of_nat fuel → (fuel ≠ 0)%nat → n ≤ limit →
  parse_unsigned radix limit (number_digits radix fuel n) = Some n.
Proof.
  intros Hn Hf Hl. pose proof (number_digits_length fuel n Hf) as [Hlen _].
  assert (Hc : forallb (fun c => negb (c =? 43)) (number_digits radix fuel n) = true).
  { apply number_digits_chars; [|lia]. intros d Hd. unfold digit_char. case_match; lia. }
  pose proof (digits_number fuel n 0 0 [] Hn Hf) as E. rewrite app_nil_r in E. cbn [digits Nat.add] in E.
  rewrite Z.mul_0_l, Z.add_0_l in E. unfold parse_unsigned.
  destruct (number_digits radix fuel n) as [|c l] eqn:El; [cbn in Hlen; lia|]. cbn [forallb] in Hc.
  apply andb_true_iff in Hc as [Hc _]. apply negb_true_iff in Hc. rewrite Hc, E. cbn [length].
  by rewrite (proj2 (Z.leb_le n limit)).
Qed.
End Numbers.

(** What may follow an address that is read. *)
Definition ip_end (r : text) : bool :=
  match head r with Some c => negb (is_hexdigit c) && negb (c =? 58) && negb (c =? 46) | None => true end.

Lemma span_head p a r c r' : span p (a ++ c :: r) = (a, r') → r' = c :: r.
Proof. intros E. apply span_spec in E as [E _]. by apply app_inv_head in E. Qed.

Lemma take_front {A} (a r : list A) : take (length (a ++ r) - length r) (a ++ r) = a.
Proof. rewrite length_app, Nat.add_sub. apply take_app_length. Qed.

(** ** The groups of an address *)
Lemma of_segments a : 0 ≤ a < 2 ^ 128 → of_groups (segments a) = a.
Proof.
  intros Ha. unfold segments, of_groups. cbn [fmap list_fmap fold_left].
  assert (Hs : ∀ i, 0 ≤ i → a / 65536 ^ Z.succ i = a / 65536 ^ i / 65536).
  { intros i Hi. rewrite Z.pow_succ_r by done. rewrite Z.div_div by lia. f_equal. lia. }
  assert (Hq : ∀ i, 0 ≤ i → a / 65536 ^ i = 65536 * (a / 65536 ^ Z.succ i) + a / 65536 ^ i mod 65536).
  { intros i Hi. rewrite Hs by done. apply Z.div_mod. lia. }
  pose proof (Hq 0 ltac:(lia)) as H0. pose proof (Hq 1 ltac:(lia)) as H1. pose proof (Hq 2 ltac:(lia)) as H2.
  pose proof (Hq 3 ltac:(lia)) as H3. pose proof (Hq 4 ltac:(lia)) as H4. pose proof (Hq 5 ltac:(lia)) as H5.
  pose proof (Hq 6 ltac:(lia)) as H6. clear Hs Hq.
  change (Z.succ 0) with 1 in H0. change (Z.succ 1) with 2 in H1. change (Z.succ 2) with 3 in H2. change (Z.succ 3) with 4 in H3.
  change (Z.succ 4) with 5 in H4. change (Z.succ 5) with 6 in H5. change (Z.succ 6) with 7 in H6.
  rewrite Z.pow_0_r, Z.div_1_r in H0. rewrite Z.pow_0_r, Z.div_1_r.
  rewrite (Z.mod_small (a / 65536 ^ 7)) by (split; [apply Z.div_pos; lia|apply Z.div_lt_upper_bound; lia]).
  lia.
Qed.

Lemma segments_groups a : Forall (fun g => 0 ≤ g < 65536) (segments a).
Proof. unfold segments. cbn [fmap list_fmap]. repeat (apply Forall_cons_2; [apply Z.mod_pos_bound; lia|]). apply Forall_nil_2. Qed.

(** A run of zeros in a list of groups. *)
Definition zero_run (l : list Z) (run : nat * nat) : Prop :=
  run.2 = 0%nat ∨ ∃ a b, l = a ++ replicate run.2 0 ++ b ∧ length a = run.1.

Lemma zero_run_app l l' run : zero_run l run → zero_run (l ++ l') run.
Proof. intros [?|(a & b & -> & ?)]; [by left|right]. exists a, (b ++ l'). by rewrite <- !app_assoc. Qed.

Lemma longest_zeros_run gs prior current longest :
  (current.2 = 0%nat ∨ ∃ a, prior = a ++ replicate current.2 0 ∧ length a = current.1) → zero_run prior longest →
  zero_run (prior ++ gs) (longest_zeros (length prior) current longest gs).
Proof.
  revert prior current longest. induction gs as [|g gs IH]; intros prior current longest Hc Hl; cbn [longest_zeros].
  - by apply zero_run_app.
  - rewrite (cons_middle g prior gs), app_assoc.
    replace (S (length prior)) with (length (prior ++ [g])) by (rewrite length_app; cbn; lia).
    destruct (Z.eqb_spec g 0) as [->|Hg]; [|apply IH; [by left|by apply zero_run_app]].
    set (current' := if (current.2 =? 0)%nat then _ else _).
    assert (Hc' : ∃ a, prior ++ [0] = a ++ replicate current'.2 0 ∧ length a = current'.1).
    { subst current'. destruct (Nat.eqb_spec current.2 0) as [E|E]; [by exists prior|].
      destruct Hc as [?|(a & -> & Ha)]; [done|]. exists a. cbn [fst snd]. split; [|done].
      by rewrite <- app_assoc, <- replicate_cons_app. }
    apply IH; [by right|]. case_match; [|by apply zero_run_app]. right.
    destruct Hc' as (a & -> & Ha). exists a, []. by rewrite app_nil_r.
Qed.

Section Ips.
Context `{NL : NomLaws} `{V : ValueLib}.

(** *** IPv4 *)
Lemma octet_reads n r :
  0 ≤ n < 256 → opt_map_or true (fun c => negb (is_digit c)) (head r) = true →
  p_octet (number_digits 10 3 n ++ r) = IOk r n.
Proof.
  intros Hn Hr. unfold p_octet. rewrite n_map_res_eq. unfold doc_map_res. rewrite n_recognize_eq. unfold doc_recognize.
  rewrite n_many_m_n_eq. cbn [doc_many].
  pose proof (number_digits_length 10 3 n ltac:(lia)) as [Hlen _].
  assert (Hd : n_digit1 (number_digits 10 3 n ++ r) = IOk r (number_digits 10 3 n)).
  { rewrite n_digit1_eq. unfold doc_take_while1. rewrite span_app; [destruct (number_digits 10 3 n); [cbn in Hlen; lia|done]| |done].
    apply number_digits_chars; [lia| |lia]. intros. by apply digit_char_digit. }
  assert (He : n_digit1 r = IErr).
  { rewrite n_digit1_eq. unfold doc_take_while1. destruct r as [|c r]; [done|]. cbn in Hr. cbn [span].
    apply negb_true_iff in Hr. by rewrite Hr. }
  rewrite Hd. cbn [ires_bind app]. rewrite length_app, (proj2 (Nat.eqb_neq _ _)) by lia. cbn [doc_many]. rewrite He.
  cbn [length Nat.ltb Nat.leb ires_bind]. rewrite <- length_app, take_front.
  by rewrite parse_unsigned_number by (unfold u8_max; lia).
Qed.

Lemma dot_octet_reads n r :
  0 ≤ n < 256 → opt_map_or true (fun c => negb (is_digit c)) (head r) = true →
  n_preceded (n_char 46) p_octet (46 :: number_digits 10 3 n ++ r) = IOk r n.
Proof.
  intros Hn Hr. rewrite n_preceded_eq. unfold doc_preceded. rewrite n_char_eq. cbn. by apply octet_reads.
Qed.

Lemma ipv4_reads a r :
  0 ≤ a < 2 ^ 32 → opt_map_or true (fun c => negb (is_digit c)) (head r) = true → p_ipv4 (show_ipv4 a ++ r) = IOk r a.
Proof.
  intros Ha Hr. unfold p_ipv4, show_ipv4. rewrite <- !app_assoc. cbn [app]. rewrite n_map_eq. unfold doc_map.
  do 3 (rewrite n_pair_eq; unfold doc_pair).
  rewrite octet_reads by (done || apply Z.mod_pos_bound; lia). cbn [ires_bind].
  do 3 (rewrite dot_octet_reads by (done || apply Z.mod_pos_bound; lia); cbn [ires_bind]).
  f_equal. pose proof (Z.div_mod a 256 ltac:(lia)). pose proof (Z.div_mod (a / 256) 256 ltac:(lia)) as H1.
  pose proof (Z.div_mod (a / 65536) 256 ltac:(lia)) as H2. rewrite Z.div_div in H1 by lia. rewrite Z.div_div in H2 by lia.
  change (256 * 256) with 65536 in H1. change (65536 * 256) with 16777216 in H2.
  rewrite (Z.mod_small (a / 16777216)); [lia|]. split; [apply Z.div_pos; lia|apply Z.div_lt_upper_bound; lia].
Qed.

(** A text with no dot after its first digits is no IPv4 address. *)
Lemma ipv4_errs i : head (span is_digit i).2 ≠ Some 46 → p_ipv4 i = IErr.
Proof.
  intros Hh. unfold p_ipv4. rewrite n_map_eq. unfold doc_map. do 3 (rewrite n_pair_eq; unfold doc_pair).
  unfold p_octet at 1. rewrite n_map_res_eq. unfold doc_map_res. rewrite n_recognize_eq. unfold doc_recognize.
  rewrite n_many_m_n_eq. cbn [doc_many]. rewrite n_digit1_eq. unfold doc_take_while1.
  destruct (span is_digit i) as [a q] eqn:E. destruct a as [|c a]; [done|]. cbn [ires_bind snd] in *.
  pose proof (span_spec _ _ _ _ E) as [-> Ha].
  rewrite length_app, (proj2 (Nat.eqb_neq _ _)) by (cbn [length]; lia). cbn [doc_many app].
  rewrite n_digit1_eq. unfold doc_take_while1.
  assert (Eq : span is_digit q = ([], q)).
  { destruct q as [|d q]; [done|]. cbn [span]. destruct (is_digit d) eqn:Ed; [|done]. exfalso.
    assert (Hs : span is_digit ((c :: a) ++ d :: q) = (c :: a, d :: q)) by done. clear E.
    revert Hs Ha. generalize (c :: a) as l. induction l as [|x l IH]; cbn [app span forallb].
    - intros Hs _. rewrite Ed in Hs. by destruct (span is_digit q).
    - intros Hs [Hx Hl]%andb_true_iff. rewrite Hx in Hs. destruct (span is_digit (l ++ d :: q)) as [u v].
      injection Hs as -> ->. by apply IH. }
  rewrite Eq. cbn [length Nat.ltb Nat.leb ires_bind]. destruct (parse_unsigned _ _ _); [|done]. cbn [ires_bind].
  rewrite n_preceded_eq. unfold doc_preceded. rewrite n_char_eq. unfold doc_char.
  destruct q as [|d q]; [done|]. destruct (Z.eqb_spec d 46) as [->|]; done.
Qed.

(** *** IPv6 *)
Definition not_hex (r : text) : bool := opt_map_or true (fun c => negb (is_hexdigit c)) (head r).
(** No group follows, nor a separator with one. *)
Definition groups_end (r : text) : bool :=
  not_hex r && match r with c :: r => negb (c =? 58) || not_hex r | [] => true end.

Definition is_group (g : Z) : Prop := 0 ≤ g < 65536.

Lemma group_reads g r : is_group g → not_hex r = true → p_group (number_digits 16 4 g ++ r) = IOk r g.
Proof.
  intros Hg Hr. unfold p_group. rewrite n_map_res_eq. unfold doc_map_res. rewrite n_recognize_eq. unfold doc_recognize.
  rewrite n_verify_eq. unfold doc_verify. rewrite n_hex_digit1_eq. unfold doc_take_while1.
  pose proof (number_digits_length 16 4 g ltac:(lia)) as Hlen. unfold is_group in Hg.
  rewrite span_app; [|by apply number_digits_chars; [lia| |lia]; intros; apply digit_char_hex|done].
  pose proof (parse_unsigned_number 16 ltac:(lia) 4 g u16_max ltac:(lia) ltac:(lia) ltac:(unfold u16_max; lia)) as E.
  pose proof (take_front (number_digits 16 4 g) r) as Ht. revert Hlen E Ht.
  generalize (number_digits 16 4 g) as t. intros t Hlen E Ht. destruct t as [|c t]; [cbn in Hlen; lia|].
  cbn [ires_bind]. rewrite (proj2 (Nat.leb_le _ _)) by lia. change (non_empty (c :: t) && true) with true. cbn [ires_bind].
  rewrite Ht, E. done.
Qed.

Lemma group_errs r : not_hex r = true → p_group r = IErr.
Proof.
  intros Hr. unfold p_group. rewrite n_map_res_eq. unfold doc_map_res. rewrite n_recognize_eq. unfold doc_recognize.
  rewrite n_verify_eq. unfold doc_verify. rewrite n_hex_digit1_eq. unfold doc_take_while1.
  destruct r as [|c r]; [done|]. unfold not_hex in Hr. cbn [head opt_map_or] in Hr. apply negb_true_iff in Hr.
  cbn [span]. by rewrite Hr.
Qed.

Lemma not_hex_colon r : not_hex (58 :: r) = true.
Proof. done. Qed.

Definition show_more (gs : list Z) : text := gs ≫= fun g => 58 :: number_digits 16 4 g.
Lemma show_groups_cons g gs : show_groups (g :: gs) = number_digits 16 4 g ++ show_more gs.
Proof.
  revert g. induction gs as [|h gs IH]; intros g; [by cbn [show_groups show_more mbind list_bind]; rewrite app_nil_r|].
  change (show_groups (g :: h :: gs)) with (number_digits 16 4 g ++ [58] ++ show_groups (h :: gs)). by rewrite IH.
Qed.

Lemma more_groups gs fuel acc r :
  Forall is_group gs → groups_end r = true → (length (show_more gs ++ r) < fuel)%nat →
  doc_more fuel (n_char 58) p_group acc (show_more gs ++ r) = IOk r (acc ++ gs).
Proof.
  intros Hg Hr. revert fuel acc. induction Hg as [|g gs Hg _ IH]; intros fuel acc Hf; (destruct fuel as [|fuel]; [lia|]); cbn [doc_more].
  - cbn [show_more mbind list_bind app]. rewrite app_nil_r. rewrite n_char_eq. unfold doc_char.
    unfold groups_end in Hr. apply andb_true_iff in Hr as [Hr1 Hr2]. destruct r as [|c r]; [done|].
    destruct (Z.eqb_spec c 58) as [->|]; [|done]. cbn [ires_bind]. by rewrite group_errs.
  - change (show_more (g :: gs)) with (58 :: number_digits 16 4 g ++ show_more gs) in *. cbn [app] in *. rewrite <- app_assoc in *.
    rewrite n_char_eq. cbn [doc_char Z.eqb Pos.eqb ires_bind].
    assert (Hn : not_hex (show_more gs ++ r) = true).
    { unfold groups_end in Hr. apply andb_true_iff in Hr as [Hr _]. by destruct gs. }
    rewrite group_reads by done. cbn [ires_bind]. cbn [length] in *. rewrite !length_app in *.
    rewrite (proj2 (Nat.eqb_neq _ _)) by lia.
    rewrite IH; [by rewrite <- app_assoc|]. apply Nat.succ_lt_mono in Hf. eapply Nat.le_lt_trans; [|exact Hf]. apply Nat.le_add_l.
Qed.

Lemma groups_read gs r :
  Forall is_group gs → groups_end r = true → n_separated_list0 (n_char 58) p_group (show_groups gs ++ r) = IOk r gs.
Proof.
  intros Hg Hr. rewrite n_separated_list0_eq. unfold doc_separated_list0. destruct Hg as [|g gs Hg Hgs].
  - cbn [show_groups app]. unfold groups_end in Hr. apply andb_true_iff in Hr as [Hr _]. by rewrite group_errs.
  - rewrite show_groups_cons, <- app_assoc.
    assert (Hn : not_hex (show_more gs ++ r) = true).
    { unfold groups_end in Hr. apply andb_true_iff in Hr as [Hr' _]. by destruct gs. }
    rewrite group_reads by done. cbn [ires_bind]. rewrite more_groups; [done..|apply Nat.lt_succ_diag_r].
Qed.

(** In a text without dots no digits are followed by one. *)
Definition no_dots (t : text) : bool := forallb (fun c => negb (c =? 46)) t.

Lemma no_dot_after_digits t r : no_dots t = true → ip_end r = true → head (span is_digit (t ++ r)).2 ≠ Some 46.
Proof.
  intros Ht Hr. unfold no_dots in Ht. induction t as [|c t IH]; cbn [app].
  - destruct r as [|c r]; [done|]. unfold ip_end in Hr. cbn [head] in Hr. cbn [span].
    assert (is_digit c = false) as -> by (unfold is_hexdigit, is_ascii_hexdigit in Hr; unfold is_digit; lia).
    cbn. intros [= ->]. done.
  - cbn [forallb] in Ht. apply andb_true_iff in Ht as [Hc Ht]. cbn [span]. destruct (is_digit c).
    + destruct (span is_digit (t ++ r)) as [u v]. cbn in *. by apply IH.
    + cbn. intros [= ->]. done.
Qed.

Lemma show_groups_no_dots gs : Forall is_group gs → no_dots (show_groups gs) = true.
Proof.
  assert (Hn : ∀ g, is_group g → no_dots (number_digits 16 4 g) = true).
  { intros g Hg. unfold is_group in Hg. apply number_digits_chars; [lia| |lia]. intros d Hd. unfold digit_char. case_match; lia. }
  induction 1 as [|g gs Hg Hgs IH]; [done|]. destruct gs as [|h gs]; [by apply Hn|].
  change (show_groups (g :: h :: gs)) with (number_digits 16 4 g ++ 58 :: show_groups (h :: gs)).
  unfold no_dots in *. rewrite forallb_app, (Hn g Hg). cbn [forallb andb]. done.
Qed.

Lemma fill_run pre n post :
  length (pre ++ replicate n 0 ++ post) = 8%nat → (n ≠ 0)%nat →
  fill_groups pre post = Some (pre ++ replicate n 0 ++ post).
Proof.
  rewrite !length_app, length_replicate. intros Hl Hn. unfold fill_groups.
  rewrite (proj2 (Nat.ltb_ge _ _)) by lia. case_bool_decide as E.
  - subst post. cbn in *. rewrite app_nil_r. do 3 f_equal. lia.
  - rewrite (proj2 (Nat.ltb_ge _ _)) by lia. rewrite take_app_ge by lia.
    rewrite take_replicate, <- app_assoc. do 4 f_equal. lia.
Qed.

(** The parser of groups, perhaps with a gap. *)
Definition p_groups : Parser Z :=
  n_map_panic
    (n_verify (n_pair (n_pair (n_separated_list0 (n_char 58) p_group) (n_opt (n_tag (text_of "::"))))
                      (n_separated_list0 (n_char 58) p_group)) groups_ok)
    (fun '(pre, _, post) => of_groups <$> fill_groups pre post).

Lemma ip_end_groups r : ip_end r = true → groups_end r = true ∧ not_hex r = true ∧ head r ≠ Some 58.
Proof.
  unfold ip_end, groups_end, not_hex. destruct r as [|c r]; [done|]. cbn [head opt_map_or]. intros Hr.
  apply andb_true_iff in Hr as [[Hr H58]%andb_true_iff _]. rewrite Hr, H58. split_and!; [done|done|].
  intros [= ->]. done.
Qed.

Lemma groups_full gs r : Forall is_group gs → length gs = 8%nat → ip_end r = true → p_groups (show_groups gs ++ r) = IOk r (of_groups gs).
Proof.
  intros Hg Hl (He & Hn & H58)%ip_end_groups. unfold p_groups, n_map_panic. rewrite n_map_eq. unfold doc_map.
  rewrite n_verify_eq. unfold doc_verify. do 2 (rewrite n_pair_eq; unfold doc_pair). rewrite groups_read by done.
  cbn [ires_bind]. rewrite n_opt_eq. unfold doc_opt. rewrite n_tag_eq. unfold doc_tag.
  change (text_of "::") with [58; 58].
  rewrite bool_decide_false by (destruct r as [|c r]; [done|]; cbn in *; congruence).
  cbn [ires_bind]. pose proof (groups_read [] r ltac:(done) He) as Hnil. cbn [show_groups app] in Hnil. rewrite Hnil. cbn [ires_bind groups_ok]. rewrite Hl. cbn [Nat.eqb orb ires_bind].
  unfold fill_groups. rewrite Hl. cbn [Nat.ltb Nat.leb Nat.sub replicate]. rewrite app_nil_r. by rewrite bool_decide_true.
Qed.

Lemma groups_gap pre n post r :
  Forall is_group pre → Forall is_group post → length (pre ++ replicate n 0 ++ post) = 8%nat → (1 < n)%nat → ip_end r = true →
  p_groups (show_groups pre ++ [58; 58] ++ show_groups post ++ r) = IOk r (of_groups (pre ++ replicate n 0 ++ post)).
Proof.
  intros Hp Hq Hl Hn (He & _ & _)%ip_end_groups. unfold p_groups, n_map_panic. rewrite n_map_eq. unfold doc_map.
  rewrite n_verify_eq. unfold doc_verify. do 2 (rewrite n_pair_eq; unfold doc_pair).
  rewrite groups_read by done. cbn [ires_bind]. rewrite n_opt_eq. unfold doc_opt. rewrite n_tag_eq. unfold doc_tag.
  change (text_of "::") with [58; 58]. cbn [app length take drop]. rewrite bool_decide_true by done. cbn [ires_bind].
  rewrite drop_0, groups_read by done. cbn [ires_bind groups_ok is_some].
  pose proof Hl as Hl'. rewrite !length_app, length_replicate in Hl'. rewrite (proj2 (Nat.ltb_lt _ _)) by lia.
  rewrite orb_true_r. cbn [ires_bind]. rewrite (fill_run pre n post) by (done || lia). done.
Qed.

Lemma ipv6_alternatives i : p_ipv6 i =
  match n_preceded (n_tag (text_of "::ffff:")) p_ipv4 i with
  | IOk r a => IOk r (ipv6_mapped a)
  | IErr => p_groups i
  | IFail => IFail
  | IPanic => IPanic
  end.
Proof.
  unfold p_ipv6. rewrite n_alt_eq. cbn [doc_alt]. rewrite n_map_eq. unfold doc_map.
  destruct (n_preceded _ _ i); cbn [ires_bind]; [done| |done..]. fold p_groups. by destruct (p_groups i).
Qed.

Lemma mapped_reads a r :
  0 ≤ a < 2 ^ 128 → a / 2 ^ 32 = 65535 → ip_end r = true →
  p_ipv6 (text_of "::ffff:" ++ show_ipv4 (a mod 2 ^ 32) ++ r) = IOk r a.
Proof.
  intros Ha E Hr. rewrite ipv6_alternatives, n_preceded_eq. unfold doc_preceded. rewrite n_tag_eq. unfold doc_tag.
  rewrite take_app_length, drop_app_length, bool_decide_true by done. cbn [ires_bind].
  rewrite ipv4_reads; [|apply Z.mod_pos_bound; lia|].
  - unfold ipv6_mapped. f_equal. rewrite (Z.div_mod a (2 ^ 32)) at 2 by lia. lia.
  - unfold ip_end in Hr. destruct r as [|c r]; [done|]. cbn [head opt_map_or] in *. unfold is_hexdigit, is_ascii_hexdigit in Hr.
    unfold is_digit. lia.
Qed.

(** A text without dots is no mapped address, and no IPv4 address. *)
Lemma not_mapped t r : no_dots t = true → ip_end r = true → n_preceded (n_tag (text_of "::ffff:")) p_ipv4 (t ++ r) = IErr.
Proof.
  intros Ht Hr. rewrite n_preceded_eq. unfold doc_preceded. rewrite n_tag_eq. unfold doc_tag.
  case_bool_decide as E; [|done]. cbn [ires_bind].
  change (text_of "::ffff:") with [58; 58; 102; 102; 102; 102; 58] in *. apply ipv4_errs.
  destruct (decide (7 <= length t)%nat) as [Hl|Hl].
  - rewrite drop_app_le by done. apply no_dot_after_digits; [|done]. unfold no_dots in *.
    rewrite <- (firstn_skipn 7 t), forallb_app in Ht. by apply andb_true_iff in Ht as [_ ?].
  - exfalso. cbn [length] in E. rewrite take_app_ge in E by lia.
    assert (Hk : (t ++ take (7 - length t) r) !! length t = head r).
    { rewrite lookup_app_r, Nat.sub_diag by done. destruct r as [|c r]; [by rewrite take_nil|].
      by replace (7 - length t)%nat with (S (6 - length t)) by lia. }
    rewrite E in Hk. unfold ip_end in Hr.
    do 7 (destruct t as [|? t]; [cbn [length lookup list_lookup] in Hk; rewrite <- Hk in Hr; done|cbn [length] in *]). lia.
Qed.

Lemma no_dots_app a b : no_dots (a ++ b) = no_dots a && no_dots b.
Proof. apply forallb_app. Qed.

Lemma ipv6_reads a r : 0 ≤ a < 2 ^ 128 → ip_end r = true → p_ipv6 (show_ipv6 a ++ r) = IOk r a.
Proof.
  intros Ha Hr. unfold show_ipv6. destruct (Z.eqb_spec (a / 2 ^ 32) 65535) as [E|E].
  { rewrite <- app_assoc. by apply mapped_reads. }
  pose proof (segments_groups a) as Hg. pose proof (of_segments a Ha) as Hs.
  assert (Hl : length (segments a) = 8%nat) by done.
  destruct (longest_zeros 0 (0%nat, 0%nat) (0%nat, 0%nat) (segments a)) as [start n] eqn:Ez.
  pose proof (longest_zeros_run (segments a) [] (0%nat, 0%nat) (0%nat, 0%nat) ltac:(by left) ltac:(by left)) as Hrun.
  cbn [length app] in Hrun. rewrite Ez in Hrun. rewrite ipv6_alternatives.
  destruct (Nat.ltb_spec 1 n) as [Hn|Hn].
  - destruct Hrun as [Hz|(pre & post & Eg & Hpre)]; [cbn in Hz; lia|]. cbn [fst snd] in *. revert Hg Hs Hl.
    rewrite Eg. intros [Hp [_ Hq]%Forall_app]%Forall_app Hs Hl.
    rewrite take_app_length' by done.
    assert (Hd : drop (start + n) (pre ++ replicate n 0 ++ post) = post).
    { rewrite app_assoc. apply drop_app_length'. rewrite length_app, length_replicate. lia. }
    rewrite Hd. rewrite not_mapped; [|..|done].
    { rewrite <- !app_assoc. rewrite (groups_gap pre n post) by done. by rewrite Hs. }
    rewrite !no_dots_app, !show_groups_no_dots by done. done.
  - rewrite not_mapped; [|by apply show_groups_no_dots|done]. rewrite groups_full by done. by rewrite Hs.
Qed.

(** What is printed of an IPv6 address is not read as an IPv4 address. *)
Lemma ipv6_not_ipv4 a r : ip_end r = true → p_ipv4 (show_ipv6 a ++ r) = IErr.
Proof.
  intros Hr. apply ipv4_errs. unfold show_ipv6. destruct (a / 2 ^ 32 =? 65535); [done|].
  pose proof (segments_groups a) as Hg. destruct (longest_zeros _ _ _ _) as [start n]. destruct (1 <? n)%nat.
  - apply no_dot_after_digits; [|done]. rewrite !no_dots_app, !show_groups_no_dots by (by apply Forall_take || by apply Forall_drop). done.
  - apply no_dot_after_digits; [|done]. by apply show_groups_no_dots.
Qed.

(** An address of its family. *)
Definition ip_ok (ip : IpAddr) : Prop := match ip with V4 a => 0 ≤ a < 2 ^ 32 | V6 a => 0 ≤ a < 2 ^ 128 end.
Definition show_ip (ip : IpAddr) : text := match ip with V4 a => show_ipv4 a | V6 a => show_ipv6 a end.

(** C29: the configuration's readers of addresses read every address that the standard
    library prints, IPv6 addresses with their longest run of zeros left out and
    mapped IPv4 addresses included, up to the characters that cannot go on an
    address. *)
Theorem address_read_back ip r : ip_ok ip → ip_end r = true → p_ip (show_ip ip ++ r) = IOk r ip.
Proof.
  intros Hip Hr. unfold p_ip. rewrite n_alt_eq. cbn [doc_alt]. rewrite !n_map_eq. unfold doc_map.
  destruct ip as [a|a]; cbn [show_ip ip_ok] in *.
  - rewrite ipv4_reads; [done..|]. unfold ip_end in Hr. destruct r as [|c r]; [done|]. cbn [head opt_map_or] in *.
    unfold is_hexdigit, is_ascii_hexdigit in Hr. unfold is_digit. lia.
  - rewrite ipv6_not_ipv4 by done. cbn [ires_bind]. by rewrite ipv6_reads.
Qed.

(** *** The addresses of listeners ([Display for BindAddr]) *)
Definition bind_addr_show (b : BindAddr) : text :=
  match b with
  | BaLocalhost => text_of "localhost"
  | BaAll => [42]
  | BaV4 a => show_ipv4 a
  | BaV6 a => 91 :: show_ipv6 a ++ [93]
  end.
Definition bind_addr_ok (b : BindAddr) : Prop := match b with BaV4 a => ip_ok (V4 a) | BaV6 a => ip_ok (V6 a) | _ => True end.

Lemma show_ipv4_head a : 0 ≤ a → ∃ c t, show_ipv4 a = c :: t ∧ is_digit c = true.
Proof.
  intros Ha. unfold show_ipv4. set (n := a / 16777216 mod 256).
  assert (Hn : 0 ≤ n) by (apply Z.mod_pos_bound; lia).
  pose proof (number_digits_chars 10 ltac:(lia) is_digit 3 n ltac:(intros; by apply digit_char_digit) Hn) as Hd.
  pose proof (number_digits_length 10 3 n ltac:(done)) as Hl.
  destruct (number_digits 10 3 n) as [|c t]; [cbn in Hl; lia|]. cbn in Hd. apply andb_true_iff in Hd as [Hc _].
  exists c. eexists. by split.
Qed.

Lemma not_localhost c t : is_ascii c → ascii_lower c ≠ 108 → n_tag_no_case (text_of "localhost") (c :: t) = IErr.
Proof. intros Hc Hl. apply (n_tag_no_case_differs _ _ 0 108 c); [done|done|by vm_compute|done|]. intros E. apply Hl. by rewrite <- E. Qed.

(** A listener's address that is printed is read back, whatever follows that cannot
    go on an address. *)
Theorem bind_addr_read_back b r : bind_addr_ok b → ip_end r = true → p_bind_addr (bind_addr_show b ++ r) = IOk r b.
Proof.
  intros Hb Hr. unfold p_bind_addr. rewrite n_alt_eq. cbn [doc_alt]. rewrite n_alt_eq. cbn [doc_alt].
  rewrite !n_value_eq, !n_map_eq. unfold doc_value, doc_map. destruct b as [| |a|a]; cbn [bind_addr_show bind_addr_ok ip_ok] in *.
  - assert (Hasc : Forall is_ascii (text_of "localhost")) by (repeat constructor; done).
    rewrite n_tag_no_case_eq by (rewrite ?take_app_length; done). done.
  - cbn [app]. rewrite not_localhost by done. cbn [ires_bind]. rewrite ipv4_errs by done. cbn [ires_bind].
    rewrite n_delimited_eq. unfold doc_delimited. rewrite !n_char_eq. done.
  - destruct (show_ipv4_head a) as (c & t & Es & Hc); [lia|]. rewrite Es. cbn [app]. rewrite not_localhost by (unfold is_digit, is_ascii, ascii_lower in *; try case_match; lia).
    cbn [ires_bind]. rewrite app_comm_cons, <- Es, ipv4_reads; [done..|]. unfold ip_end in Hr. destruct r as [|d r]; [done|]. cbn [head opt_map_or] in *.
    unfold is_hexdigit, is_ascii_hexdigit in Hr. unfold is_digit. lia.
  - cbn [app]. rewrite not_localhost by done. cbn [ires_bind]. rewrite ipv4_errs by done. cbn [ires_bind].
    rewrite n_delimited_eq. unfold doc_delimited. rewrite n_char_eq. unfold doc_char at 1. change (91 =? 91) with true. cbn [ires_bind]. rewrite <- app_assoc, ipv6_reads by done. cbn [ires_bind app].
    rewrite n_char_eq. done.
Qed.
End Ips.

(** Eight groups and a gap: the groups after the gap take the last places, over
    those that were there, and a ninth group is out of range. *)
Example ipv6_overwritten :
  @p_ipv6 doc_nom (text_of "1:2:3:4:5:6:7:8::9") = IOk [] (of_groups [1; 2; 3; 4; 5; 6; 7; 9]) ∧
  @p_ipv6 doc_nom (text_of "1:2:3:4:5:6:7:8::1:2:3:4:5:6:7:8:9") = IPanic.
Proof. by vm_compute. Qed.
