(* ===== verification/AddressFile.v ===== *)
(** * The file of address rules ([api/address.rs], [config/parser/mod.rs])

    Lines of the configuration as text, and the requests of the API that add and
    remove address rules by reading a file of lines, changing the lines and writing
    them again. *)

From S2P Require Import Prelude Names Config Text DomainRule DomainRuleTree Message Runtime Context DnsUrl ClientBuild Ping ConfigItems Nom ParseValues ParseRules ParseServers ParseLine ParseSpec ParseIp.

(** [str::from_utf8], on text that is well formed: the inverse of [utf8]. *)
Fixpoint utf8_decode (l : list Z) : text :=
  match l with
  | [] => []
  | a :: l1 =>
      if a <? 128 then a :: utf8_decode l1
      else match l1 with
           | [] => []
           | b :: l2 =>
               if a <? 224 then (a - 192) * 64 + (b - 128) :: utf8_decode l2
               else match l2 with
                    | [] => []
                    | c :: l3 =>
                        if a <? 240 then (a - 224) * 4096 + (b - 128) * 64 + (c - 128) :: utf8_decode l3
                        else match l3 with
                             | [] => []
                             | d :: l4 => (a - 240) * 262144 + (b - 128) * 4096 + (c - 128) * 64 + (d - 128) :: utf8_decode l4
                             end
                    end
           end
  end.
Definition text_of_string (s : string) : text := utf8_decode (bytes_of_string s).

(** ** [Display] *)
Section Show.
Context {Name Level Pattern : Type} `{NameLib Name} `{NameText Name}.
Abbreviation Item := (ConfigItem Name Level Pattern).
(** The items that are printed by derived or library formats. *)
Variable show_other : Item → text.

Definition show_wildcard (w : Wildcard) : text := if bool_decide (w = []) then text_of "*" else utf8_decode w.
Definition show_wildcard_name (w : WildcardName Name) : text :=
  match w with
  | WDefault n => name_show n
  | WSuffix n => text_of "+." ++ name_show n
  | WSub w n => show_wildcard w ++ text_of "." ++ name_show n
  | WFull n => text_of "-." ++ name_show n
  end.
Definition show_domain (d : Domain Name) : text :=
  match d with DName w => show_wildcard_name w | DSet s => text_of "domain-set:" ++ text_of_string s end.

Definition show_address_value (v : AddressRuleValue) : text :=
  match v with
  | ASOA => text_of "#" | ASOAv4 => text_of "#4" | ASOAv6 => text_of "#6"
  | AIGN => text_of "-" | AIGNv4 => text_of "-4" | AIGNv6 => text_of "-6"
  | AAddr v4 v6 => join_at 44 (show_ip <$> ((V4 <$> opt_unwrap_or [] v4) ++ (V6 <$> opt_unwrap_or [] v6)))
  end.
Definition show_address_rule (r : Domain Name * AddressRuleValue) : text :=
  [47] ++ show_domain r.1 ++ [47] ++ show_address_value r.2.
Definition show_forward_rule (r : Domain Name * string) : text :=
  [47] ++ show_domain r.1 ++ [47] ++ text_of_string r.2.

Definition show_bool (b : bool) : text := text_of (if b then "true" else "false").
Definition show_number (n : Z) : text := number_digits 10 20 n.

(** [Display for ConfigItem]; of most items it is left to do, which panics. *)
Definition show_item (i : Item) : option text :=
  match i with
  | CiLogSyslog v => Some (text_of "log-syslog " ++ show_bool v)
  | CiAuditSoa v => Some (text_of "audit-SOA " ++ show_bool v)
  | CiAuditConsole v => Some (text_of "audit-console " ++ show_bool v)
  | CiAuditSyslog v => Some (text_of "audit-syslog " ++ show_bool v)
  | CiDebugSaveFailPacket v => Some (text_of "debug-save-fail-packet " ++ show_bool v)
  | CiBindCertSan v => Some (text_of "bind-cert-san " ++ join_at 32 (text_of_string <$> v))
  | CiBindCertValidityDays v => Some (text_of "bind-cert-validity-days " ++ show_number v)
  | CiServeExpiredPrefetchTime v => Some (text_of "serve-expired-prefetch-time " ++ show_number v)
  | CiMaxQueryLimit v => Some (text_of "max-query-limit " ++ show_number v)
  | CiWebUiEnable v => Some (text_of "webui-enable " ++ show_bool v)
  | CiAddress r => Some (text_of "address " ++ show_address_rule r)
  | CiDualstackIpPreferIpv4 v => Some (text_of "dualstack-ip-prefer-ipv4 " ++ show_bool v)
  | CiForwardRule r => Some (text_of "nameserver " ++ show_forward_rule r)
  | CiIpSetTimeout v => Some (text_of "ipset-timeout " ++ show_bool v)
  | CiNftSetTimeout v => Some (text_of "nftset-timeout " ++ show_bool v)
  | CiNftSetDebug v => Some (text_of "nftset-debug " ++ show_bool v)
  | CiDebugSaveFailPacketDir _ | CiBindCertGenerate _ | CiBindCertRootKeyFile _ | CiCacheMemorySize _ | CiWebUiBind _
  | CiOdhcpdLeaseFile _ | CiTxtRecord _ | CiKernelIpSet _ | CiIpSetNoSpeed _ | CiNftSetNoSpeed _ | CiServer _ =>
      Some (show_other i)
  | _ => None
  end.

Abbreviation Line := (ConfigLine (Name := Name) (Level := Level) (Pattern := Pattern)).

Definition show_line (l : Line) : option text :=
  match l with
  | ClConfig item comment => (fun t => t ++ opt_unwrap_or [] comment ++ [10]) <$> show_item item
  | ClComment comment => Some (comment ++ [10])
  | ClEmptyLine => Some [10]
  | ClEof => Some []
  end.

(** [Display for ConfigFile]: the lines, or a panic. *)
Fixpoint show_file (lines : list Line) : option text :=
  match lines with
  | [] => Some []
  | l :: lines => a ← show_line l; b ← show_file lines; Some (a ++ b)
  end.
End Show.

(** ** The requests *)
Inductive ApiResult :=
| ApiCreated | ApiNoContent | ApiNotFound | ApiFailed | ApiPanics.

(** The directory for files that the program writes: whether it is there, and the
    text of [address.conf] in it. *)
Record Managed := mkManaged { md_exists : bool; md_file : option text }.

Section Api.
Context {Name Level Pattern : Type} `{NameLib Name} `{NameText Name}.
Context `{N : Nom} `{U : Unicode} `{V : ValueLib} `{TL : TokenLib Level Pattern} `{R : RuleLib} `{L : UrlLib}.
Abbreviation Item := (ConfigItem Name Level Pattern).
Variable arc_new : text → Z.
Variable is_spki_pin : text → bool.
Variable show_other : Item → text.
Abbreviation Line := (ConfigLine (Name := Name) (Level := Level) (Pattern := Pattern)).

(** A line with an address rule of a domain. *)
Definition is_rule_for (d : Domain Name) (l : Line) : bool :=
  match l with ClConfig (CiAddress r) _ => domain_eqb r.1 d | _ => false end.

(** The file is written over when its lines can be printed. *)
Definition write_lines (lines : list Line) (ok : ApiResult) (m : Managed) : ApiResult * Managed :=
  match show_file show_other lines with
  | Some t => (ok, mkManaged true (Some t))
  | None => (ApiPanics, m)
  end.

Definition with_lines (t : text) (m : Managed) (k : list Line → ApiResult * Managed) : ApiResult * Managed :=
  match parse_file arc_new is_spki_pin t with
  | IOk _ lines => k lines
  | IErr | IFail => (ApiFailed, m)
  | IPanic => (ApiPanics, m)
  end.

(** [create]; none for a program without such a directory. *)
Definition api_create (rule : Domain Name * AddressRuleValue) (managed : option Managed) : ApiResult * option Managed :=
  match managed with
  | None => (ApiNotFound, None)
  | Some m =>
      let m := mkManaged true (md_file m) in
      let '(r, m) :=
        match md_file m with
        | Some t =>
            with_lines t m (fun lines =>
              if existsb (is_rule_for rule.1) lines then (ApiFailed, m)
              else write_lines (lines ++ [ClConfig (CiAddress rule) None]) ApiCreated m)
        | None =>
            match show_item show_other (CiAddress rule) with
            | Some t => (ApiCreated, mkManaged true (Some t))
            | None => (ApiPanics, m)
            end
        end in
      (r, Some m)
  end.

(** [delete] *)
Definition api_delete (domain : Domain Name) (managed : option Managed) : ApiResult * option Managed :=
  match managed with
  | None => (ApiNotFound, None)
  | Some m =>
      if negb (md_exists m) then (ApiNotFound, Some m)
      else
        match md_file m with
        | None => (ApiNotFound, Some m)
        | Some t =>
            let '(r, m) := with_lines t m (fun lines =>
              if existsb (is_rule_for domain) lines
              then write_lines (List.filter (fun l => negb (is_rule_for domain l)) lines) ApiNoContent m
              else (ApiNotFound, m)) in
            (r, Some m)
        end
  end.
End Api.

(** * The file of address rules is read back

    A file of address rules and comments that the program writes is read as the lines
    it was written from, and the requests change the rules of the one domain. *)

Lemma span_stop p a c r : forallb p a = true → p c = false → span p (a ++ c :: r) = (a, c :: r).
Proof. intros Ha Hc. apply span_app; [done|]. cbn. by rewrite Hc. Qed.

(** What may follow a value on its line: the end of the line, or a comment after
    spaces. *)
Inductive value_end : text → Prop :=
| value_end_text : value_end []
| value_end_line q : value_end (10 :: q)
| value_end_comment ws q : ws ≠ [] → forallb is_space ws = true → value_end (ws ++ 35 :: q).

Lemma value_end_head r : value_end r → r = [] ∨ ∃ c q, r = c :: q ∧ (c = 10 ∨ is_space c = true).
Proof.
  intros [|q|ws q Hne Hw]; [by left|right; by eexists _, _; split; [done|left]|right].
  destruct ws as [|c ws]; [done|]. cbn in Hw. apply andb_true_iff in Hw as [Hc _]. eexists _, _. split; [done|by right].
Qed.

Lemma space_cases c : is_space c = true → c = 32 ∨ c = 9.
Proof. unfold is_space, one_of_chars. cbn. lia. Qed.

Lemma value_end_ip r : value_end r → ip_end r = true.
Proof.
  intros [->|(c & q & -> & Hc)]%value_end_head; [done|]. unfold ip_end. cbn [head].
  destruct Hc as [-> |[-> | ->]%space_cases]; done.
Qed.

Section Values.
Context {Name Level Pattern : Type} `{NameLib Name} `{NameText Name}.
Context `{NL : NomLaws} `{V : ValueLib}.

(** *** Domains *)
Definition name_chars_ok (t : text) : bool :=
  is_word t && forallb (fun c => negb (one_of_chars name_ends c) && negb (c =? 42) && negb (c =? 58)) t.

Definition domain_ok (d : Domain Name) : Prop :=
  match d with
  | DName (WDefault n) =>
      name_parse (name_show n) = Some n ∧ name_chars_ok (name_show n) = true ∧ existsb (Z.eqb 46) (name_show n) = true ∧
      match head (name_show n) with Some c => c ≠ 43 ∧ c ≠ 45 ∧ c ≠ 46 | None => False end ∧
      name_is_wildcard n = false ∧ name_is_root n = false
  | DName (WSuffix n) | DName (WFull n) =>
      name_parse (name_show n) = Some n ∧ name_chars_ok (name_show n) = true ∧ name_show n ≠ []
  | DName (WSub _ _) => False
  | DSet s => text_of_string s ≠ [] ∧ string_of_text (text_of_string s) = s ∧ existsb (Z.eqb 47) (text_of_string s) = false
  end.

Lemma name_chars_plain t : name_chars_ok t = true →
  is_word t = true ∧ forallb (fun c => negb (one_of_chars name_ends c)) t = true ∧ existsb (Z.eqb 42) t = false ∧
  existsb (Z.eqb 58) t = false.
Proof.
  unfold name_chars_ok. intros [Hw Hc]%andb_true_iff. split; [done|]. clear Hw. induction t as [|c t IH]; [done|].
  cbn [forallb existsb] in *. apply andb_true_iff in Hc as [[[Hn H42]%andb_true_iff H58]%andb_true_iff Ht].
  destruct (IH Ht) as (-> & -> & ->). rewrite Hn. split_and!; [done| |]; rewrite orb_false_r; lia.
Qed.

Lemma p_name_reads n t r :
  name_parse t = Some n → t ≠ [] → name_chars_ok t = true → p_name (t ++ 47 :: r) = IOk (47 :: r) n.
Proof.
  intros Hn Hne (_ & Hc & _)%name_chars_plain. unfold p_name. rewrite n_map_res_eq. unfold doc_map_res.
  rewrite n_is_not_eq. unfold doc_take_while1. rewrite span_stop by done. destruct t; [done|]. cbn [ires_bind]. by rewrite Hn.
Qed.

(** The part of a text before a dot, without stars: no pattern of labels. *)
Lemma no_pattern {B} (f : text → option B) a q :
  existsb (Z.eqb 42) a = false → existsb (Z.eqb 46) a = false →
  n_map_res (n_terminated (n_verify (n_is_not (text_of ".")) (fun w => non_empty w && existsb (Z.eqb 42) w)) (n_char 46)) f
    (a ++ 46 :: q) = IErr.
Proof.
  intros Ha Hd. rewrite n_map_res_eq. unfold doc_map_res. rewrite n_terminated_eq. unfold doc_terminated.
  rewrite n_verify_eq. unfold doc_verify. rewrite n_is_not_eq. unfold doc_take_while1.
  rewrite span_stop; [| |done].
  - destruct a; [done|]. cbn [ires_bind]. by rewrite Ha, andb_false_r.
  - clear Ha. induction a as [|c a IH]; [done|]. cbn [existsb forallb] in *. apply orb_false_iff in Hd as [Hc Hd].
    rewrite (IH Hd). rewrite Z.eqb_sym in Hc. change (one_of_chars (text_of ".") c) with ((c =? 46) || false). by rewrite Hc.
Qed.

Lemma first_dot t : existsb (Z.eqb 46) t = true → ∃ a b, t = a ++ 46 :: b ∧ existsb (Z.eqb 46) a = false.
Proof.
  induction t as [|c t IH]; [done|]. cbn [existsb]. intros [Hc|Ht]%orb_true_iff.
  - apply Z.eqb_eq in Hc as <-. by exists [], t.
  - destruct (Z.eqb_spec 46 c) as [<-|Hne]; [by exists [], t|]. destruct (IH Ht) as (a & b & -> & Ha).
    exists (c :: a), b. split; [done|]. cbn [existsb]. rewrite Ha, orb_false_r. lia.
Qed.

Lemma wildcard_name_reads w r :
  domain_ok (DName w) → p_wildcard_name (show_wildcard_name w ++ 47 :: r) = IOk (47 :: r) w.
Proof.
  intros Hok. unfold p_wildcard_name. rewrite n_alt_eq. cbn [doc_alt]. rewrite !n_map_eq. unfold doc_map.
  rewrite !n_pair_eq, !n_preceded_eq. unfold doc_pair at 1, doc_preceded. rewrite !n_pair_eq. unfold doc_pair.
  destruct w as [n|n|w n|n]; cbn [show_wildcard_name domain_ok] in *; [|..|done|].
  - destruct Hok as (Hn & Hc & Hd & Hh & Hw & Hr). pose proof (name_chars_plain _ Hc) as (_ & _ & H42 & _).
    destruct (name_show n) as [|c t] eqn:Et; [done|]. cbn [head] in Hh. destruct Hh as (H43 & H45 & H46).
    destruct (first_dot _ Hd) as (a & b & Eab & Ha). rewrite Eab in H42. rewrite existsb_app in H42.
    apply orb_false_iff in H42 as [H42 _]. rewrite Eab at 1. rewrite <- app_assoc. cbn [app].
    rewrite no_pattern by done. cbn [ires_bind app]. rewrite !n_char_eq. unfold doc_char.
    rewrite (proj2 (Z.eqb_neq c 45)) by done. cbn [ires_bind]. rewrite n_opt_eq. unfold doc_opt. rewrite n_char_eq. unfold doc_char.
    rewrite (proj2 (Z.eqb_neq c 43)) by done. cbn [ires_bind]. rewrite n_char_eq. unfold doc_char.
    rewrite (proj2 (Z.eqb_neq c 46)) by done. cbn [ires_bind].
    change (c :: t ++ 47 :: r) with ((c :: t) ++ 47 :: r). rewrite (p_name_reads n) by done. cbn [ires_bind]. by rewrite Hw, Hr.
  - destruct Hok as (Hn & Hc & Hne). change (text_of "+.") with [43; 46]. cbn [app].
    pose proof (no_pattern wildcard_from_str [43] (name_show n ++ 47 :: r) eq_refl eq_refl) as Hp. cbn [app] in Hp.
    rewrite Hp. clear Hp. cbn [ires_bind]. rewrite !n_char_eq. cbn [doc_char Z.eqb Pos.eqb ires_bind].
    rewrite n_opt_eq. unfold doc_opt. rewrite n_char_eq. cbn [doc_char Z.eqb Pos.eqb ires_bind]. rewrite n_char_eq.
    cbn [doc_char Z.eqb Pos.eqb ires_bind]. by rewrite (p_name_reads n).
  - destruct Hok as (Hn & Hc & Hne). change (text_of "-.") with [45; 46]. cbn [app].
    pose proof (no_pattern wildcard_from_str [45] (name_show n ++ 47 :: r) eq_refl eq_refl) as Hp. cbn [app] in Hp.
    rewrite Hp. clear Hp. cbn [ires_bind]. rewrite !n_char_eq. cbn [doc_char Z.eqb Pos.eqb ires_bind].
    rewrite n_char_eq. cbn [doc_char Z.eqb Pos.eqb ires_bind]. by rewrite (p_name_reads n).
Qed.

Lemma no_colon_lower t : existsb (Z.eqb 58) t = false → 58 ∉ text_lower t.
Proof.
  intros Hc Hin. unfold text_lower in Hin. apply list_elem_of_fmap in Hin as (x & Hx & Hxin).
  assert (x = 58) as -> by (unfold ascii_lower in Hx; case_match; lia).
  apply list_elem_of_In in Hxin. assert (existsb (Z.eqb 58) t = true); [|congruence]. apply existsb_exists. by exists 58.
Qed.

Lemma not_domain_set t r : is_word t = true → existsb (Z.eqb 58) t = false → n_tag_no_case (text_of "domain-set:") (t ++ 47 :: r) = IErr.
Proof.
  intros Hw Hc. pose proof (no_colon_lower t Hc) as Hn.
  assert (Hk : 58 ∈ text_lower (text_of "domain-set:")) by (apply list_elem_of_In; vm_compute; tauto).
  destruct (tag_stops (text_of "domain-set:") t 47 r) as [->|(c & w & Hp & _)]; try done.
  - intros E. by rewrite E in Hk.
  - apply is_prefix_spec in Hp as [q Hq]. rewrite Hq in Hn. destruct Hn. apply elem_of_app. by left.
Qed.

Lemma domain_reads d r : domain_ok d → p_domain (show_domain d ++ 47 :: r) = IOk (47 :: r) d.
Proof.
  intros Hok. unfold p_domain. rewrite n_alt_eq. cbn [doc_alt]. rewrite !n_map_eq. unfold doc_map.
  rewrite n_preceded_eq. unfold doc_preceded. destruct d as [w|s]; cbn [show_domain].
  - assert (Hw : is_word (show_wildcard_name w) = true ∧ existsb (Z.eqb 58) (show_wildcard_name w) = false).
    { destruct w as [n|n|w n|n]; cbn [domain_ok show_wildcard_name] in *; [| |done|];
        destruct Hok as (_ & Hc & _); apply name_chars_plain in Hc as (Hw & _ & _ & H58); [done|..];
        unfold is_word in *; by rewrite forallb_app, existsb_app, Hw, H58. }
    destruct Hw. rewrite not_domain_set by done. cbn [ires_bind]. by rewrite wildcard_name_reads.
  - destruct Hok as (Hne & Hs & H47). rewrite <- app_assoc, tag_no_case_reads; [|repeat constructor; done..|done].
    cbn [ires_bind]. rewrite n_map_eq. unfold doc_map. rewrite n_take_till1_eq. unfold doc_take_while1.
    rewrite span_stop; [| |done].
    + destruct (text_of_string s) eqn:E; [done|]. cbn [ires_bind]. by rewrite Hs.
    + apply forallb_forall. intros x Hx. destruct (Z.eqb 47 x) eqn:E; [|done]. exfalso.
      assert (existsb (Z.eqb 47) (text_of_string s) = true); [|congruence]. apply existsb_exists. by exists x.
Qed.

(** *** Values *)
Definition family_ok (f : Z → IpAddr) (l : option (list Z)) : Prop :=
  match l with Some l => l ≠ [] ∧ Forall (fun a => ip_ok (f a)) l | None => True end.
Definition value_ok (v : AddressRuleValue) : Prop :=
  match v with AAddr v4 v6 => family_ok V4 v4 ∧ family_ok V6 v6 ∧ (v4 ≠ None ∨ v6 ≠ None) | _ => True end.

Lemma split_families_of v4 v6 : family_ok V4 v4 → family_ok V6 v6 →
  split_families ((V4 <$> opt_unwrap_or [] v4) ++ (V6 <$> opt_unwrap_or [] v6)) = AAddr v4 v6.
Proof.
  intros H4 H6. unfold split_families. rewrite !omap_app.
  assert (E : ∀ (f : Z → IpAddr) (g : IpAddr → option Z) l, (∀ a, g (f a) = Some a) → omap (M := list) g (f <$> l) = l).
  { intros f g l Hg. induction l as [|a l IH]; [done|]. cbn. by rewrite Hg, IH. }
  assert (E' : ∀ (f : Z → IpAddr) (g : IpAddr → option Z) l, (∀ a, g (f a) = None) → omap (M := list) g (f <$> l) = []).
  { intros f g l Hg. induction l as [|a l IH]; [done|]. cbn. by rewrite Hg, IH. }
  rewrite (E V4), (E' V6), (E' V4), (E V6), app_nil_r by done. cbn [app].
  assert (Hl : ∀ f l, family_ok f l → (if bool_decide (opt_unwrap_or [] l = []) then None else Some (opt_unwrap_or [] l)) = l).
  { intros f [l|] Hl; cbn [opt_unwrap_or]; [|by rewrite bool_decide_true]. destruct Hl. by rewrite bool_decide_false. }
  by rewrite (Hl V4 v4 H4), (Hl V6 v6 H6).
Qed.

Lemma comma_errs r : value_end r → p_comma3 r = IErr.
Proof.
  intros Hr. unfold p_comma3. do 2 (rewrite n_pair_eq; unfold doc_pair). destruct Hr as [|q|ws q Hne Hw].
  - rewrite space0_none by done. cbn [ires_bind]. by rewrite n_char_eq.
  - rewrite space0_none by done. cbn [ires_bind]. by rewrite n_char_eq.
  - rewrite space0_reads by done. cbn [ires_bind]. by rewrite n_char_eq.
Qed.

Lemma comma_reads q : opt_map_or true (fun c => negb (is_space c)) (head q) = true → p_comma3 (44 :: q) = IOk q ([], 44, []).
Proof.
  intros Hq. unfold p_comma3. do 2 (rewrite n_pair_eq; unfold doc_pair). rewrite space0_none by done.
  cbn [ires_bind]. rewrite n_char_eq. cbn [doc_char Z.eqb Pos.eqb ires_bind]. by rewrite space0_none.
Qed.

(** What is printed of an address begins with a digit or a colon. *)
Lemma show_ip_head ip : ip_ok ip → ∃ c q, show_ip ip = c :: q ∧ (is_hexdigit c = true ∨ c = 58).
Proof.
  assert (Hn : ∀ radix fuel n t, 2 ≤ radix ≤ 16 → (fuel ≠ 0)%nat → 0 ≤ n → ∃ c q, number_digits radix fuel n ++ t = c :: q ∧ is_hexdigit c = true).
  { intros radix fuel n t Hr Hf Hpos. pose proof (number_digits_length radix fuel n Hf) as [Hl _].
    pose proof (number_digits_chars radix Hr is_hexdigit fuel n ltac:(intros; apply digit_char_hex; lia) Hpos) as Hc.
    destruct (number_digits radix fuel n) as [|c q]; [cbn in Hl; lia|]. cbn in Hc. apply andb_true_iff in Hc as [Hc _]. by eexists _, _. }
  destruct ip as [a|a]; intros _; cbn [show_ip].
  - unfold show_ipv4. destruct (Hn 10 3%nat (a / 16777216 mod 256) ([46] ++ number_digits 10 3 (a / 65536 mod 256) ++ [46]
      ++ number_digits 10 3 (a / 256 mod 256) ++ [46] ++ number_digits 10 3 (a mod 256)) ltac:(lia) ltac:(lia)) as (c & q & E & Hc);
      [apply Z.mod_pos_bound; lia|]. exists c, q. by split; [|left].
  - unfold show_ipv6. destruct (_ =? 65535); [by eexists _, _; split; [|right]|].
    assert (Hg : ∀ gs t, Forall is_group gs → ∃ c q, show_groups gs ++ 58 :: t = c :: q ∧ (is_hexdigit c = true ∨ c = 58)).
    { intros gs t Hgs. destruct Hgs as [|g gs Hg _]; [by eexists _, _; split; [|right]|]. rewrite show_groups_cons, <- app_assoc.
      destruct (Hn 16 4%nat g (show_more gs ++ 58 :: t) ltac:(lia) ltac:(lia) ltac:(unfold is_group in Hg; lia)) as (c & q & -> & Hc).
      eexists _, _. by split; [|left]. }
    pose proof (segments_groups a) as Hs. destruct (longest_zeros _ _ _ _) as [start n]. destruct (1 <? n)%nat.
    + apply (Hg _ (58 :: _)). by apply Forall_take.
    + destruct (segments a) as [|g gs] eqn:E; [done|]. rewrite show_groups_cons. apply Forall_cons_1 in Hs as [Hg' _].
      destruct (Hn 16 4%nat g (show_more gs) ltac:(lia) ltac:(lia) ltac:(lia)) as (c & q & -> & Hc).
      eexists _, _. by split; [|left].
Qed.

Lemma ip_head_plain ip q : ip_ok ip → opt_map_or true (fun c => negb (is_space c)) (head (show_ip ip ++ q)) = true.
Proof.
  intros (c & t & -> & Hc)%show_ip_head. cbn [app head opt_map_or]. apply negb_true_iff.
  destruct (is_space c) eqn:E; [|done]. apply space_cases in E as [-> | ->]; by destruct Hc.
Qed.

Definition comma_ips (ips : list IpAddr) : text := mjoin ((fun ip => 44 :: show_ip ip) <$> ips).

Lemma more_ips ips fuel acc r :
  Forall ip_ok ips → value_end r → (length (comma_ips ips ++ r) < fuel)%nat →
  doc_more fuel p_comma3 p_ip acc (comma_ips ips ++ r) = IOk r (acc ++ ips).
Proof.
  intros Hi Hr. revert fuel acc. induction Hi as [|ip ips Hip Hips IH]; intros fuel acc Hf; (destruct fuel as [|fuel]; [lia|]); cbn [doc_more].
  - unfold comma_ips. cbn [fmap list_fmap mjoin list_join app]. by rewrite comma_errs, app_nil_r.
  - set (rest := comma_ips ips ++ r) in *.
    replace (comma_ips (ip :: ips) ++ r) with (44 :: show_ip ip ++ rest) in *
      by (subst rest; unfold comma_ips; cbn [fmap list_fmap mjoin list_join app]; by rewrite <- app_assoc).
    assert (He : ip_end rest = true).
    { subst rest. destruct ips; [by apply value_end_ip|done]. }
    clearbody rest. rewrite comma_reads by (by apply ip_head_plain). cbn [ires_bind]. rewrite address_read_back by done.
    cbn [ires_bind]. cbn [length] in *. rewrite length_app in *. rewrite (proj2 (Nat.eqb_neq _ _)) by lia.
    rewrite IH by lia. by rewrite <- app_assoc.
Qed.

Lemma join_at_ips ip ips : join_at 44 (show_ip <$> (ip :: ips)) = show_ip ip ++ comma_ips ips.
Proof.
  revert ip. induction ips as [|ip' ips IH]; intros ip; [by cbn; rewrite app_nil_r|].
  change (join_at 44 (show_ip <$> ip :: ip' :: ips)) with (show_ip ip ++ 44 :: join_at 44 (show_ip <$> ip' :: ips)). by rewrite IH.
Qed.

Lemma ips_read ips r : ips ≠ [] → Forall ip_ok ips → value_end r →
  n_separated_list1 p_comma3 p_ip (join_at 44 (show_ip <$> ips) ++ r) = IOk r ips.
Proof.
  intros Hne Hi Hr. destruct Hi as [|ip ips Hip Hips]; [done|]. rewrite join_at_ips, <- app_assoc.
  rewrite n_separated_list1_eq. unfold doc_separated_list1.
  rewrite address_read_back; [|done|destruct ips; [by apply value_end_ip|done]]. cbn [ires_bind].
  rewrite more_ips; [done..|apply Nat.lt_succ_diag_r].
Qed.

Lemma value_reads v r : value_ok v → value_end r → p_address_value (show_address_value v ++ r) = IOk r v.
Proof.
  intros Hv Hr. unfold p_address_value. rewrite n_alt_eq. cbn [doc_alt]. rewrite !n_value_eq, n_map_eq. unfold doc_value, doc_map.
  rewrite !n_tag_eq, n_char_eq. unfold doc_tag, doc_char.
  assert (Hh : ∀ d, d = 52 ∨ d = 54 → head r ≠ Some d).
  { intros d Hd E. destruct (value_end_head r Hr) as [->|(c & q & -> & Hc)]; [done|]. cbn in E. injection E as ->.
    destruct Hc as [-> |[-> | ->]%space_cases]; lia. }
  assert (H4 := Hh 52 ltac:(by left)). assert (H6 := Hh 54 ltac:(by right)). clear Hh.
  destruct v as [| | | | | |v4 v6]; cbn [show_address_value];
    change (text_of "#") with [35]; change (text_of "#4") with [35; 52]; change (text_of "#6") with [35; 54];
    change (text_of "-") with [45]; change (text_of "-4") with [45; 52]; change (text_of "-6") with [45; 54];
    [destruct r as [|c q]; cbn [app head length take drop Z.eqb Pos.eqb] in *; repeat (case_bool_decide; try congruence);
       cbn [ires_bind]; rewrite ?take_0, ?drop_0; done..|].
  destruct Hv as (H4' & H6' & Hsome).
  set (ips := (V4 <$> opt_unwrap_or [] v4) ++ (V6 <$> opt_unwrap_or [] v6)).
  assert (Hips : Forall ip_ok ips).
  { subst ips. apply Forall_app. split; apply Forall_fmap; [destruct v4|destruct v6]; cbn in *; tauto || constructor. }
  assert (Hne : ips ≠ []).
  { subst ips. intros [E4%fmap_nil_inv E6%fmap_nil_inv]%app_eq_nil.
    destruct v4 as [l4|]; [by destruct H4' as [? _]|]. destruct v6 as [l6|]; [by destruct H6' as [? _]|]. by destruct Hsome. }
  assert (Hfirst : ∃ c q, join_at 44 (show_ip <$> ips) ++ r = c :: q ∧ c ≠ 35 ∧ c ≠ 45).
  { destruct Hips as [|ip ips' Hip _]; [done|]. rewrite join_at_ips. destruct (show_ip_head ip Hip) as (c & q & -> & Hc).
    eexists _, _. split; [done|]. split; intros ->; by destruct Hc. }
  destruct Hfirst as (c & q & E & H35 & H45). pose proof (ips_read ips r Hne Hips Hr) as Hread. rewrite E in *.
  cbn [length take]. rewrite !bool_decide_false by (intros [=]; congruence). rewrite (proj2 (Z.eqb_neq c 35)) by done.
  cbn [ires_bind]. rewrite Hread. cbn [ires_bind]. subst ips. by rewrite split_families_of.
Qed.
End Values.

(** ** Lines *)
Section Lines.
Context {Name Level Pattern : Type} `{NameLib Name} `{NameText Name}.
Context `{NL : NomLaws} `{U : Unicode} `{V : ValueLib} `{TL : TokenLib Level Pattern} `{R : RuleLib} `{L : UrlLib}.
Context (arc_new : text → Z) (is_spki_pin : text → bool) (show_other : ConfigItem Name Level Pattern → text).
Abbreviation Line := (ConfigLine (Name := Name) (Level := Level) (Pattern := Pattern)).
Abbreviation read := (parse_line arc_new is_spki_pin).

Definition rule_ok (r : Domain Name * AddressRuleValue) : Prop := domain_ok r.1 ∧ value_ok r.2.

Definition no_line_end (t : text) : bool := forallb (fun c => negb (one_of_chars [10; 13] c)) t.

(** Lines that are written as they are read. *)
Definition line_ok (l : Line) : Prop :=
  match l with
  | ClConfig (CiAddress r) None => rule_ok r
  | ClConfig (CiAddress r) (Some c) =>
      rule_ok r ∧ ∃ ws t, c = ws ++ 35 :: t ∧ ws ≠ [] ∧ forallb is_space ws = true ∧ no_line_end t = true
  | ClComment c => trim_end c = c ∧ ∃ t, c = 35 :: t ∧ no_line_end t = true
  | ClEmptyLine => True
  | _ => False
  end.

Lemma rule_reads r q : rule_ok r → value_end q → p_address_rule (show_address_rule r ++ q) = IOk q r.
Proof.
  intros [Hd Hv] Hq. unfold p_address_rule, show_address_rule. rewrite <- !app_assoc. cbn [app].
  rewrite n_map_eq. unfold doc_map. rewrite n_pair_eq. unfold doc_pair, p_slashed_domain. rewrite n_delimited_eq. unfold doc_delimited.
  rewrite n_char_eq. cbn [doc_char Z.eqb Pos.eqb ires_bind]. rewrite domain_reads by done. cbn [ires_bind].
  rewrite n_char_eq. cbn [doc_char Z.eqb Pos.eqb ires_bind]. rewrite value_reads by done. by destruct r.
Qed.

Lemma address_item r q : rule_ok r → value_end q →
  p_item arc_new is_spki_pin (text_of "address " ++ show_address_rule r ++ q) = IOk q (CiAddress r).
Proof.
  intros Hr Hq. change (text_of "address ") with (text_of "address" ++ [32]). rewrite <- app_assoc. cbn [app].
  rewrite item_word by done.
  match goal with |- context [find_first ?f ?l] => 
    change (find_first f l) with (Some (DValue (Name := Name) (Level := Level) (Pattern := Pattern) "address" p_address_rule CiAddress)) end.
  cbn [dir_parser]. rewrite n_map_eq. unfold doc_map.
  change (32 :: show_address_rule r ++ q) with ([32] ++ show_address_rule r ++ q).
  rewrite config_same by done. by rewrite rule_reads.
Qed.

(** What follows a line: its end, or that of the text. *)
Inductive line_rest : text → Prop :=
| line_rest_text : line_rest []
| line_rest_line q : line_rest (10 :: q).

Lemma comment_text t r : no_line_end t = true → line_rest r →
  n_recognize (n_pair (n_char 35) n_not_line_ending) (35 :: t ++ r) = IOk r (35 :: t).
Proof.
  intros Ht Hr. rewrite n_recognize_eq. unfold doc_recognize. rewrite n_pair_eq. unfold doc_pair. rewrite n_char_eq.
  cbn [doc_char Z.eqb Pos.eqb ires_bind]. rewrite n_not_line_ending_eq. unfold doc_not_line_ending.
  rewrite span_app by (done || by destruct Hr).
  change (35 :: t ++ r) with ((35 :: t) ++ r). destruct Hr; cbn [ires_bind]; by rewrite take_front.
Qed.

Lemma line_reads l r : line_ok l → line_rest r → (l = ClEmptyLine → r ≠ []) →
  ∃ t, show_line show_other l = Some (t ++ [10]) ∧ read (t ++ r) = IOk r l.
Proof.
  intros Hl Hrest Hempty. unfold parse_line. destruct l as [i c|c| |]; cbn [line_ok show_line] in *; [|..|done].
  - destruct i; try done.
    assert (Hc : rule_ok v ∧ (c = None ∨ ∃ ws t, c = Some (ws ++ 35 :: t) ∧ ws ≠ [] ∧ forallb is_space ws = true ∧ no_line_end t = true)).
    { destruct c as [c|]; [|by split; [|left]]. destruct Hl as [? (ws & t & -> & ?)]. split; [done|]. right. by exists ws, t. }
    destruct Hc as [Hr Hc]. clear Hl. cbn [show_item fmap option_fmap option_map].
    exists ((text_of "address " ++ show_address_rule v) ++ opt_unwrap_or [] c). split; [by rewrite <- !app_assoc|].
    rewrite n_alt_eq. cbn [doc_alt]. rewrite n_map_eq. unfold doc_map. rewrite n_pair_eq. unfold doc_pair.
    rewrite n_preceded_eq. unfold doc_preceded. rewrite <- !app_assoc.
    rewrite space0_none by done. cbn [ires_bind].
    assert (Hend : value_end (opt_unwrap_or [] c ++ r)).
    { destruct Hc as [->|(ws & t & -> & Hne & Hw & _)]; cbn [opt_unwrap_or app]; [destruct Hrest; constructor|].
      rewrite <- app_assoc. by constructor. }
    rewrite address_item by done. cbn [ires_bind]. rewrite n_alt_eq. cbn [doc_alt]. rewrite !n_map_eq. unfold doc_map.
    rewrite n_recognize_eq. unfold doc_recognize. rewrite n_pair_eq. unfold doc_pair.
    destruct Hc as [->|(ws & t & -> & Hne & Hw & Ht)]; cbn [opt_unwrap_or app].
    + rewrite n_space1_eq. unfold doc_take_while1.
      replace (span is_space r) with (([] : text), r) by (by destruct Hrest). cbn [ires_bind].
      by rewrite space0_none by (by destruct Hrest).
    + rewrite <- app_assoc. cbn [app]. rewrite (space1_reads ws (35 :: t ++ r)) by done. cbn [ires_bind].
      unfold p_comment. rewrite n_map_eq. unfold doc_map. rewrite comment_text by done. cbn [ires_bind].
      change (ws ++ 35 :: t ++ r) with (ws ++ (35 :: t) ++ r). rewrite app_assoc. by rewrite take_front.
  - destruct Hl as [Htrim (t & -> & Ht)]. exists (35 :: t). split; [done|]. cbn [app].
    rewrite n_alt_eq. cbn [doc_alt]. rewrite !n_map_eq. unfold doc_map. rewrite n_pair_eq. unfold doc_pair.
    rewrite !n_preceded_eq. unfold doc_preceded. rewrite space0_none by done. cbn [ires_bind].
    rewrite item_none by (right; by eexists 35, _; split; [left|]). cbn [ires_bind].
    unfold p_comment. rewrite n_map_eq. unfold doc_map. rewrite comment_text by done. cbn [ires_bind]. by rewrite Htrim.
  - destruct Hrest as [|q]; [by specialize (Hempty eq_refl)|]. exists []. split; [done|]. cbn [app].
    rewrite n_alt_eq. cbn [doc_alt]. rewrite !n_map_eq. unfold doc_map. rewrite n_pair_eq. unfold doc_pair.
    rewrite !n_preceded_eq. unfold doc_preceded. rewrite space0_none by done. cbn [ires_bind].
    rewrite item_none by (right; by eexists 10, _; split; [right|]). cbn [ires_bind].
    unfold p_comment. rewrite n_map_eq. unfold doc_map. rewrite n_recognize_eq. unfold doc_recognize. rewrite n_pair_eq. unfold doc_pair.
    rewrite n_char_eq. cbn [doc_char Z.eqb Pos.eqb ires_bind]. by rewrite n_eof_eq.
Qed.

Lemma end_reads : read [] = IOk [] ClEof.
Proof.
  unfold parse_line. rewrite n_alt_eq. cbn [doc_alt]. rewrite !n_map_eq. unfold doc_map. rewrite n_pair_eq. unfold doc_pair.
  rewrite !n_preceded_eq. unfold doc_preceded. rewrite space0_none by done. cbn [ires_bind].
  rewrite item_none by (by left). cbn [ires_bind].
  unfold p_comment. rewrite n_map_eq. unfold doc_map. rewrite n_recognize_eq. unfold doc_recognize. rewrite n_pair_eq. unfold doc_pair.
  rewrite n_char_eq. cbn [doc_char ires_bind]. by rewrite n_eof_eq.
Qed.

(** The lines after the first, each after the end of the line before it. *)
Lemma more_lines lines : Forall line_ok lines → ∃ t, show_file show_other lines = Some t ∧
  ∀ fuel acc, (length t + 1 < fuel)%nat →
    doc_more fuel n_line_ending read acc (10 :: t) = IOk [] (acc ++ lines ++ [ClEof]).
Proof.
  induction 1 as [|l lines Hl _ (t & Ht & IH)].
  - exists []. split; [done|]. intros [|[|fuel]] acc Hf; cbn in Hf; [lia..|]. cbn [doc_more]. rewrite n_line_ending_eq.
    cbn [doc_line_ending Z.eqb Pos.eqb ires_bind]. rewrite end_reads. cbn [ires_bind length Nat.eqb].
    by rewrite n_line_ending_eq.
  - destruct (line_reads l (10 :: t) Hl) as (b & Hb & Hread); [constructor|done|]. exists ((b ++ [10]) ++ t). split.
    + cbn [show_file]. by rewrite Hb, Ht.
    + intros [|fuel] acc Hf; [lia|]. rewrite <- app_assoc in *. cbn [doc_more app]. rewrite n_line_ending_eq.
      cbn [doc_line_ending Z.eqb Pos.eqb ires_bind]. cbn [app] in *. rewrite Hread. cbn [ires_bind].
      cbn [length] in *. rewrite length_app in *. cbn [length] in *. rewrite (proj2 (Nat.eqb_neq _ _)) by lia.
      rewrite IH by lia. by rewrite <- !app_assoc.
Qed.

Lemma file_reads lines : Forall line_ok lines →
  ∃ t, show_file show_other lines = Some t ∧ parse_file arc_new is_spki_pin t = IOk [] (lines ++ [ClEof]).
Proof.
  intros Hl. unfold parse_file. destruct Hl as [|l lines Hl Hls].
  - exists []. split; [done|]. rewrite n_map_eq. unfold doc_map. rewrite n_separated_list0_eq. unfold doc_separated_list0.
    rewrite end_reads. cbn [ires_bind doc_more length]. by rewrite n_line_ending_eq.
  - destruct (more_lines lines Hls) as (t & Ht & Hmore). destruct (line_reads l (10 :: t) Hl) as (b & Hb & Hread); [constructor|done|].
    exists ((b ++ [10]) ++ t). split; [cbn [show_file]; by rewrite Hb, Ht|].
    rewrite n_map_eq. unfold doc_map. rewrite n_separated_list0_eq. unfold doc_separated_list0. rewrite <- app_assoc. cbn [app].
    rewrite Hread. cbn [ires_bind]. rewrite Hmore by (cbn [length]; lia). done.
Qed.

Lemma show_file_app a b : show_file show_other (a ++ b) = ta ← show_file show_other a; tb ← show_file show_other b; Some (ta ++ tb).
Proof.
  induction a as [|l a IH]; cbn [app show_file]; [by destruct (show_file show_other b)|].
  destruct (show_line show_other l) as [x|]; [|done]. cbn. rewrite IH. destruct (show_file show_other a) as [y|]; [|done]. cbn.
  destruct (show_file show_other b); [|done]. cbn. by rewrite app_assoc.
Qed.

(** The end of the text is no line. *)
Lemma show_file_end a : show_file show_other (a ++ [ClEof]) = show_file show_other a.
Proof. rewrite show_file_app. destruct (show_file show_other a) as [t|]; [|done]. cbn. by rewrite app_nil_r. Qed.

(** The same for a text that ends without the end of its last line. *)
Lemma more_lines_cut lines l : Forall line_ok lines → line_ok l → l ≠ ClEmptyLine →
  ∃ t, show_file show_other (lines ++ [l]) = Some (t ++ [10]) ∧
  ∀ fuel acc, (length t + 1 < fuel)%nat →
    doc_more fuel n_line_ending read acc (10 :: t) = IOk [] (acc ++ lines ++ [l]).
Proof.
  intros Hls Hl Hne. induction Hls as [|l' lines Hl' _ (t & Ht & IH)].
  - destruct (line_reads l [] Hl) as (b & Hb & Hread); [constructor|done|]. exists b. rewrite app_nil_r in Hread. split.
    { cbn [app show_file]. rewrite Hb. cbn. by rewrite app_nil_r. }
    intros [|[|fuel]] acc Hf; [lia..|]. cbn [doc_more]. rewrite n_line_ending_eq.
    cbn [doc_line_ending Z.eqb Pos.eqb ires_bind]. rewrite Hread. cbn [ires_bind length Nat.eqb]. by rewrite n_line_ending_eq.
  - destruct (line_reads l' (10 :: t) Hl') as (b & Hb & Hread); [constructor|done|]. exists ((b ++ [10]) ++ t). split.
    + cbn [app show_file]. rewrite Hb, Ht. cbn. by rewrite <- !app_assoc.
    + intros [|fuel] acc Hf; [lia|]. rewrite <- app_assoc in *. cbn [doc_more app]. rewrite n_line_ending_eq.
      cbn [doc_line_ending Z.eqb Pos.eqb ires_bind]. cbn [app] in *. rewrite Hread. cbn [ires_bind].
      cbn [length] in *. rewrite length_app in *. cbn [length] in *. rewrite (proj2 (Nat.eqb_neq _ _)) by lia.
      rewrite IH by lia. by rewrite <- !app_assoc.
Qed.

Lemma cut_file_reads lines t : Forall line_ok lines → lines ≠ [] → last lines ≠ Some ClEmptyLine →
  show_file show_other lines = Some (t ++ [10]) → parse_file arc_new is_spki_pin t = IOk [] lines.
Proof.
  intros Hl Hne Hlast Ht. destruct Hl as [|l lines Hl Hls]; [done|]. unfold parse_file.
  rewrite n_map_eq. unfold doc_map. rewrite n_separated_list0_eq. unfold doc_separated_list0.
  destruct lines as [|x lines _] using rev_ind.
  - cbn in Hlast. destruct (line_reads l [] Hl) as (b & Hb & Hread); [constructor|congruence|].
    cbn [show_file] in Ht. rewrite Hb in Ht. cbn in Ht. rewrite app_nil_r in Ht.
    apply (inj Some), app_inj_tail in Ht as [-> _]. rewrite app_nil_r in Hread. rewrite Hread. cbn [ires_bind doc_more length].
    by rewrite n_line_ending_eq.
  - rewrite app_comm_cons, last_snoc in Hlast. apply Forall_app in Hls as [Hls Hx]. apply Forall_cons_1 in Hx as [Hx _].
    destruct (more_lines_cut lines x Hls Hx) as (t' & Ht' & Hmore); [congruence|].
    destruct (line_reads l (10 :: t') Hl) as (b & Hb & Hread); [constructor|done|].
    cbn [app show_file] in Ht. rewrite Hb, Ht' in Ht. cbn in Ht. rewrite app_assoc in Ht.
    apply (inj Some), app_inj_tail in Ht as [<- _]. rewrite <- app_assoc. cbn [app].
    rewrite Hread. cbn [ires_bind]. rewrite Hmore by (cbn [length]; lia). done.
Qed.

(** The text of a file of lines, whose last line end may be missing. *)
Definition file_of (lines : list Line) (t : text) : Prop :=
  Forall line_ok lines ∧
  (show_file show_other lines = Some t ∨
   show_file show_other lines = Some (t ++ [10]) ∧ lines ≠ [] ∧ last lines ≠ Some ClEmptyLine).

Lemma file_of_reads lines t : file_of lines t →
  ∃ e, parse_file arc_new is_spki_pin t = IOk [] (lines ++ e) ∧ (e = [] ∨ e = [ClEof]).
Proof.
  intros [Hl [Ht|(Ht & Hne & Hlast)]].
  - destruct (file_reads lines Hl) as (t0 & Ht0 & Hread). rewrite Ht in Ht0. apply (inj Some) in Ht0 as <-.
    exists [ClEof]. by split; [|right].
  - exists []. rewrite app_nil_r. split; [by apply cut_file_reads|by left].
Qed.

Lemma show_file_past lines e : e = [] ∨ e = [ClEof] → show_file show_other (lines ++ e) = show_file show_other lines.
Proof. intros [-> | ->]; [by rewrite app_nil_r|apply show_file_end]. Qed.

Lemma domain_eqb_refl `{!NameLaws Name} (d : Domain Name) : domain_eqb d d = true.
Proof.
  assert (Hn : ∀ n : Name, name_eqb n n = true) by (intros n; by apply name_eqb_spec).
  destruct d as [[n|n|w n|n]|s]; cbn; rewrite ?Hn, ?bool_decide_true; done.
Qed.

Lemma filter_none (p : Line → bool) l : existsb p l = false → List.filter (fun x => negb (p x)) l = l.
Proof.
  induction l as [|x l IH]; [done|]. cbn. intros [Hx Hl]%orb_false_iff. by rewrite Hx, IH.
Qed.

End Lines.
