(* ===== verification/ParseTypes.v ===== *)
(** * What parsers give is well formed ([config/parser/])

    A predicate on what a parser gives, carried through the combinators: the integers
    of the configuration are within their widths, prefix lengths within their
    families, and the texts that have bounds within them. *)

From S2P Require Import Prelude Names Config Text Message DomainRule DomainRuleTree Runtime Context DnsUrl ClientBuild ConfigItems Ping Nom ParseValues ParseRules ParseServers ParseLine ParseSpec ParseIp AddressFile.

Create HintDb yields.

Definition yields {A} (P : A → Prop) (p : Parser A) : Prop := ∀ i r a, p i = IOk r a → P a.

Definition opt_all {A} (P : A → Prop) (o : option A) : Prop := match o with Some a => P a | None => True end.

Lemma yields_any {A} (p : Parser A) : yields (fun _ => True) p.
Proof. done. Qed.
Lemma yields_weaken {A} (P Q : A → Prop) p : yields Q p → (∀ a, Q a → P a) → yields P p.
Proof. intros Hp HQ i r a E. eauto. Qed.

Lemma bind_ok {A B} (x : IResult A) (k : text → A → IResult B) r b :
  ires_bind x k = IOk r b → ∃ r1 a, x = IOk r1 a ∧ k r1 a = IOk r b.
Proof. destruct x as [r1 a| | |]; cbn; [intros E; by exists r1, a|done..]. Qed.

Lemma yields_bind {A B} (P : B → Prop) (Q : A → Prop) (p : Parser A) (k : text → A → IResult B) :
  yields Q p → (∀ r a r' b, Q a → k r a = IOk r' b → P b) → yields P (fun i => ires_bind (p i) k).
Proof. intros Hp Hk i r b (r1 & a & E & Ek)%bind_ok. eauto. Qed.

Section Combinators.
Context `{NL : NomLaws} {A B C : Type}.
Implicit Types (p : Parser A) (q : Parser B).

Lemma yields_map (P : B → Prop) (Q : A → Prop) p (f : A → B) :
  yields Q p → (∀ a, Q a → P (f a)) → yields P (n_map p f).
Proof. intros Hp Hf i r b. rewrite n_map_eq. intros (r1 & a & E & [= <- <-])%bind_ok. eauto. Qed.
Lemma yields_map_res (P : B → Prop) (Q : A → Prop) p (f : A → option B) :
  yields Q p → (∀ a b, Q a → f a = Some b → P b) → yields P (n_map_res p f).
Proof.
  intros Hp Hf i r b. rewrite n_map_res_eq. intros (r1 & a & E & Eb)%bind_ok. destruct (f a) eqn:Ef; [|done].
  injection Eb as <- <-. eauto.
Qed.
Lemma yields_value (P : B → Prop) b p : P b → yields P (n_value b p).
Proof. intros Hb i r a. rewrite n_value_eq. by intros (r1 & x & E & [= <- <-])%bind_ok. Qed.
Lemma yields_verify (P : A → Prop) p ok : yields P p → yields (fun a => P a ∧ ok a = true) (n_verify p ok).
Proof.
  intros Hp i r a. rewrite n_verify_eq. intros (r1 & x & E & Ex)%bind_ok. destruct (ok x) eqn:Eok; [|done].
  injection Ex as <- <-. eauto.
Qed.
Lemma yields_opt (P : A → Prop) p : yields P p → yields (opt_all P) (n_opt p).
Proof.
  intros Hp i r o. rewrite n_opt_eq. unfold doc_opt. destruct (p i) eqn:E; cbn; [|by intros [= <- <-]|done..].
  intros [= <- <-]. cbn. eauto.
Qed.
Lemma yields_pair (P : A → Prop) (Q : B → Prop) p q :
  yields P p → yields Q q → yields (fun x => P x.1 ∧ Q x.2) (n_pair p q).
Proof.
  intros Hp Hq i r x. rewrite n_pair_eq. intros (r1 & a & E & (r2 & b & E' & [= <- <-])%bind_ok)%bind_ok. cbn. eauto.
Qed.
Lemma yields_preceded (Q : B → Prop) p q : yields Q q → yields Q (n_preceded p q).
Proof. intros Hq i r x. rewrite n_preceded_eq. intros (r1 & a & E & E')%bind_ok. eauto. Qed.
Lemma yields_terminated (P : A → Prop) p q : yields P p → yields P (n_terminated p q).
Proof. intros Hp i r x. rewrite n_terminated_eq. intros (r1 & a & E & (r2 & b & E' & [= <- <-])%bind_ok)%bind_ok. eauto. Qed.
Lemma yields_delimited (Q : B → Prop) p q (s : Parser C) : yields Q q → yields Q (n_delimited p q s).
Proof.
  intros Hq i r x. rewrite n_delimited_eq.
  intros (r1 & a & E & (r2 & b & E' & (r3 & c & E'' & [= <- <-])%bind_ok)%bind_ok)%bind_ok. eauto.
Qed.
Lemma yields_alt (P : A → Prop) (l : list (Parser A)) : Forall (yields P) l → yields P (n_alt l).
Proof.
  intros Hl i r a. rewrite n_alt_eq. induction Hl as [|p l Hp _ IH]; [done|]. cbn [doc_alt].
  destruct (p i) eqn:E; [|done..]. intros [= <- <-]. eauto.
Qed.
Lemma yields_more (Q : B → Prop) fuel p q acc i r l :
  yields Q q → Forall Q acc → doc_more fuel p q acc i = IOk r l → Forall Q l.
Proof.
  intros Hq. revert acc i. induction fuel as [|fuel IH]; intros acc i Hacc; [done|]. cbn [doc_more].
  destruct (p i) as [r1 a| | |]; [|by intros [= <- <-]|done..]. cbn [ires_bind].
  destruct (q r1) as [r2 b| | |] eqn:E; [|by intros [= <- <-]|done..]. cbn [ires_bind].
  destruct (length r2 =? length i)%nat; [done|]. apply IH. apply Forall_app. split; [done|]. apply Forall_singleton. eauto.
Qed.
Lemma yields_list1 (Q : B → Prop) p q : yields Q q → yields (Forall Q) (n_separated_list1 p q).
Proof.
  intros Hq i r l. rewrite n_separated_list1_eq. intros (r1 & b & E & Hm)%bind_ok.
  apply (yields_more Q _ _ _ _ _ _ _ Hq) in Hm; [done|]. apply Forall_singleton. eauto.
Qed.
Lemma yields_list0 (Q : B → Prop) p q : yields Q q → yields (Forall Q) (n_separated_list0 p q).
Proof.
  intros Hq i r l. rewrite n_separated_list0_eq. unfold doc_separated_list0.
  destruct (q i) as [r1 b| | |] eqn:E; [|intros [= <- <-]; constructor|done..]. cbn [ires_bind]. intros Hm.
  apply (yields_more Q _ _ _ _ _ _ _ Hq) in Hm; [done|]. apply Forall_singleton. eauto.
Qed.
End Combinators.

(** ** Numbers *)
Definition in_u8 (v : Z) : Prop := 0 ≤ v ≤ 255.
Definition in_u16 (v : Z) : Prop := 0 ≤ v ≤ 65535.
Definition in_u32 (v : Z) : Prop := 0 ≤ v ≤ 2 ^ 32 - 1.
Definition in_u64 (v : Z) : Prop := 0 ≤ v ≤ 2 ^ 64 - 1.
Definition in_i64 (v : Z) : Prop := - 2 ^ 63 ≤ v ≤ 2 ^ 63 - 1.

Lemma digit_val_nonneg radix c d : 0 ≤ radix → digit_val radix c = Some d → 0 ≤ d.
Proof. intros Hr. unfold digit_val. repeat case_match; intros [= <-]; lia. Qed.

Lemma digits_nonneg radix acc count l v n r : 0 ≤ radix → 0 ≤ acc → digits radix acc count l = (v, n, r) → 0 ≤ v.
Proof.
  intros Hr. revert acc count. induction l as [|c l IH]; intros acc count Ha; cbn [digits]; [by intros [= <- _ _]|].
  destruct (digit_val radix c) as [d|] eqn:E; [|by intros [= <- _ _]]. apply IH.
  pose proof (digit_val_nonneg radix c d Hr E). nia.
Qed.

Lemma parse_unsigned_range radix limit t v : 0 ≤ radix → parse_unsigned radix limit t = Some v → 0 ≤ v ≤ limit.
Proof.
  intros Hr. unfold parse_unsigned. set (t' := match t with c :: l' => _ | [] => t end). clearbody t'.
  destruct (digits radix 0 0 t') as [[w n] r] eqn:E. apply digits_nonneg in E; [|lia..]. repeat case_match; try done.
  intros [= <-]. lia.
Qed.

Section Values.
Context {Name : Type} `{NameLib Name} `{NameText Name} `{NL : NomLaws} `{VL : ValueLaws}.

Lemma unsigned_range limit i r v : doc_unsigned limit i = IOk r v → 0 ≤ v ≤ limit.
Proof.
  unfold doc_unsigned. destruct (digits 10 0 0 i) as [[w n] q] eqn:E. apply digits_nonneg in E; [|lia..].
  repeat case_match; try done. intros [= <- <-]. lia.
Qed.
Lemma yields_u8 : yields in_u8 n_u8.
Proof. intros i r v. rewrite n_u8_eq. apply unsigned_range. Qed.
Lemma yields_u16 : yields in_u16 n_u16.
Proof. intros i r v. rewrite n_u16_eq. apply unsigned_range. Qed.
Lemma yields_u64 : yields in_u64 n_u64.
Proof. intros i r v. rewrite n_u64_eq. apply unsigned_range. Qed.
Lemma yields_i64 : yields in_i64 n_i64.
Proof.
  intros i r v. rewrite n_i64_eq. unfold doc_signed. repeat case_match; try done;
    intros [= <- <-]; unfold in_i64; lia.
Qed.

Lemma unsigned_yields radix limit (p : Parser text) : 0 ≤ radix → yields (fun v => 0 ≤ v ≤ limit) (n_map_res p (parse_unsigned radix limit)).
Proof. intros Hr. eapply yields_map_res; [apply yields_any|]. intros t v _. by apply parse_unsigned_range. Qed.

Lemma yields_usize : yields in_u64 p_usize.
Proof. by eapply yields_map; [apply yields_u64|]. Qed.
Lemma yields_record_type : yields in_u16 p_record_type.
Proof. by eapply yields_map; [apply yields_u16|]. Qed.
Lemma yields_isize : yields in_i64 p_isize.
Proof. eapply yields_map_res; [apply yields_i64|]. by intros a b Ha [= <-]. Qed.
Lemma yields_octet : yields in_u8 p_octet.
Proof. apply (unsigned_yields 10 255). lia. Qed.
Lemma yields_group : yields is_group p_group.
Proof. eapply yields_weaken; [apply (unsigned_yields 16 65535); lia|]. unfold is_group. cbn. lia. Qed.
Lemma yields_prefix_len : yields in_u8 p_prefix_len.
Proof. apply (unsigned_yields 10 255). lia. Qed.
Lemma yields_bind_port : yields in_u16 p_bind_port.
Proof. apply (unsigned_yields 10 65535). lia. Qed.

Lemma yields_ipv4 : yields (fun a => 0 ≤ a < 2 ^ 32) p_ipv4.
Proof.
  eapply yields_map.
  - do 3 (apply yields_pair; [|apply yields_preceded, yields_octet]). apply yields_octet.
  - intros [[[a b] c] d]. cbn. unfold in_u8. lia.
Qed.

Lemma of_groups_snoc gs g : of_groups (gs ++ [g]) = of_groups gs * 65536 + g.
Proof. unfold of_groups. by rewrite fold_left_app. Qed.
Lemma of_groups_range gs : Forall is_group gs → 0 ≤ of_groups gs < 65536 ^ Z.of_nat (length gs).
Proof.
  induction gs as [|g gs IH] using rev_ind; [by intros _; cbn|]. intros [Hgs Hg]%Forall_app. apply Forall_cons_1 in Hg as [Hg _].
  specialize (IH Hgs). rewrite of_groups_snoc, length_app, Nat.add_1_r, Nat2Z.inj_succ, Z.pow_succ_r by lia.
  unfold is_group in Hg. lia.
Qed.

Lemma fill_groups_ok pre post l : Forall is_group pre → Forall is_group post → fill_groups pre post = Some l →
  Forall is_group l ∧ length l = 8%nat.
Proof.
  intros Hp Hq. unfold fill_groups. destruct (Nat.ltb_spec 8 (length pre)) as [|Hl]; [done|].
  assert (Ho : Forall is_group (pre ++ replicate (8 - length pre) 0)).
  { apply Forall_app. split; [done|]. apply Forall_replicate. unfold is_group. lia. }
  assert (Hol : length (pre ++ replicate (8 - length pre) 0) = 8%nat) by (rewrite length_app, length_replicate; lia).
  case_bool_decide; [by intros [= <-]|]. destruct (Nat.ltb_spec 8 (length post)) as [|Hl']; [done|]. intros [= <-]. split.
  - apply Forall_app. split; [by apply Forall_take|done].
  - rewrite length_app, length_take, Hol. lia.
Qed.

Lemma yields_ipv6 : yields (fun a => 0 ≤ a < 2 ^ 128) p_ipv6.
Proof.
  apply yields_alt. apply Forall_cons_2; [|apply Forall_singleton].
  - eapply yields_map; [apply yields_preceded, yields_ipv4|]. unfold ipv6_mapped. lia.
  - intros i r v (r1 & o & E & Eo)%bind_ok. destruct o as [w|]; [|done]. injection Eo as <- <-. revert E.
    enough (Hy : yields (opt_all (fun a => 0 ≤ a < 2 ^ 128))
      (n_map (n_verify (n_pair (n_pair (n_separated_list0 (n_char 58) p_group) (n_opt (n_tag (text_of "::"))))
                (n_separated_list0 (n_char 58) p_group)) groups_ok)
             (fun '(pre, _, post) => of_groups <$> fill_groups pre post))) by (intros E; by apply Hy in E).
    eapply yields_map.
    + apply yields_verify, yields_pair; [apply yields_pair; [apply yields_list0, yields_group|apply yields_any]|apply yields_list0, yields_group].
    + intros [[pre sep] post] [[[Hp _] Hq] _]. cbn in *. destruct (fill_groups pre post) as [l|] eqn:E; [|done]. cbn.
      destruct (fill_groups_ok pre post l Hp Hq E) as [Hl Hn]. apply of_groups_range in Hl. rewrite Hn in Hl. done.
Qed.

Lemma yields_ip : yields ip_ok p_ip.
Proof.
  apply yields_alt. apply Forall_cons_2; [|apply Forall_singleton]; (eapply yields_map; [|]); [apply yields_ipv4|done|apply yields_ipv6|done].
Qed.

(** *** Networks *)
Definition net_ok (n : IpNet) : Prop := ip_ok (net_addr n) ∧ 0 ≤ net_prefix_len n ≤ family_width (net_addr n).
Definition ip_or_set_ok (x : IpOrSet) : Prop := match x with IpNetItem n => net_ok n | IpSetItem _ => True end.

Lemma net_new_ok ip len n : ip_ok ip → in_u8 len → net_new ip len = Some n → net_ok n ∧ net_addr n = ip.
Proof.
  intros Hip Hl. unfold in_u8 in Hl. rewrite net_new_spec by lia. case_match; [|done]. intros [= <-]. unfold net_ok. cbn.
  split; [split; [done|lia]|done].
Qed.

Lemma yields_ip_net : yields net_ok p_ip_net.
Proof.
  eapply yields_map_res; [eapply (yields_map (fun x : IpAddr * Z => ip_ok x.1 ∧ in_u8 x.2)); [apply yields_pair|]|].
  - apply yields_ip.
  - apply yields_opt, yields_preceded, yields_prefix_len.
  - intros [ip len]. cbn. intros [Hip Hl]. split; [done|]. destruct len; [done|]. unfold in_u8. destruct ip; cbn; lia.
  - intros [ip len] n [Hip Hl] E. cbn in *. by apply (net_new_ok ip len).
Qed.

Lemma yields_ipv6_net : yields (fun x => 0 ≤ x.1 < 2 ^ 128 ∧ 0 ≤ x.2 ≤ 128) p_ipv6_net.
Proof.
  eapply yields_map_res; [apply yields_pair; [apply yields_ipv6|apply yields_preceded, yields_prefix_len]|].
  intros [ip len] [a l] [Hip Hl] E. cbn in *. destruct (net_new (V6 ip) len) as [n|] eqn:En; [|done]. injection E as <- <-.
  apply net_new_ok in En as [[Ha Hw] Hn]; [|done..]. rewrite Hn in *. cbn in *. done.
Qed.

Lemma yields_ip_or_set : yields ip_or_set_ok p_ip_or_set.
Proof.
  apply yields_alt. apply Forall_cons_2; [|apply Forall_singleton].
  - by eapply yields_map; [apply yields_any|].
  - by eapply yields_map; [apply yields_ip_net|].
Qed.

Lemma yields_file_mode : yields in_u32 p_file_mode.
Proof.
  eapply yields_map_res; [apply yields_any|]. intros t v _ E. unfold file_mode_from_str in E.
  apply parse_unsigned_range in E; [|lia]. unfold u32_max in E. unfold in_u32. lia.
Qed.

(** *** Modes *)
Definition mode_ok (m : SpeedCheckMode) : Prop :=
  match m with STcp p | STcpSyn p | SHttp p | SHttps p => in_u16 p | SNone | SPing => True end.

Lemma yields_port_or d : in_u16 d → yields in_u16 (p_port_or d).
Proof.
  intros Hd. eapply yields_map; [apply yields_opt, yields_preceded, yields_u16|]. intros [p|]; cbn; [done|]. by intros _.
Qed.

Lemma yields_speed_mode : yields mode_ok p_speed_mode.
Proof.
  apply yields_alt. repeat (apply Forall_cons_2; [|]); [..|apply Forall_nil_2].
  - by apply yields_value.
  - by apply yields_value.
  - by eapply yields_map; [apply yields_preceded, yields_u16|].
  - by eapply yields_map; [apply yields_preceded, yields_preceded, yields_u16|].
  - eapply yields_map; [apply yields_preceded, yields_port_or; unfold in_u16; lia|done].
  - eapply yields_map; [apply yields_preceded, yields_port_or; unfold in_u16; lia|done].
Qed.
Lemma yields_speed_modes : yields (Forall mode_ok) p_speed_modes.
Proof. by eapply yields_map; [apply yields_list1, yields_speed_mode|]. Qed.
Lemma yields_opt_speed_modes : yields (opt_all (Forall mode_ok)) p_opt_speed_modes.
Proof.
  apply yields_alt. apply Forall_cons_2; [by apply yields_value|apply Forall_singleton].
  by eapply yields_map; [apply yields_speed_modes|].
Qed.
End Values.

#[export] Hint Resolve yields_u8 yields_u16 yields_u64 yields_i64 yields_usize yields_record_type yields_isize yields_ip yields_ipv4 yields_ipv6
  yields_ip_net yields_ipv6_net yields_ip_or_set yields_file_mode yields_speed_modes yields_opt_speed_modes yields_bind_port : yields.

(** ** What the standard library reads

    Addresses with and without a port, as [IpAddr::from_str] and
    [SocketAddr::from_str] read them. *)
Lemma read_number_range radix m z limit l v r : 0 ≤ radix → read_number radix m z limit l = Some (v, r) → 0 ≤ v ≤ limit.
Proof.
  intros Hr. unfold read_number. destruct (digits radix 0 0 l) as [[w n] q] eqn:E. apply digits_nonneg in E; [|lia..].
  repeat case_match; try done. intros [= <- <-]. lia.
Qed.

Lemma read_separator_inv {A} sep i (p : Parse A) l x : read_separator sep i p l = Some x → ∃ l', p l' = Some x.
Proof.
  destruct i; cbn; [by exists l|]. destruct (given_char sep l) as [[u l']|]; [|done]. cbn. intros E. by exists l'.
Qed.

Lemma read_octet_range i l v r : read_octet i l = Some (v, r) → 0 ≤ v ≤ 255.
Proof. intros [l' E]%read_separator_inv. by apply read_number_range in E. Qed.

Lemma read_ipv4_range l a r : read_ipv4 l = Some (a, r) → 0 ≤ a < 2 ^ 32.
Proof.
  unfold read_ipv4. destruct (read_octet 0 l) as [[a0 l0]|] eqn:E0; [|done]. cbn [mbind option_bind].
  destruct (read_octet 1 l0) as [[a1 l1]|] eqn:E1; [|done]. cbn [mbind option_bind].
  destruct (read_octet 2 l1) as [[a2 l2]|] eqn:E2; [|done]. cbn [mbind option_bind].
  destruct (read_octet 3 l2) as [[a3 l3]|] eqn:E3; [|done]. cbn [mbind option_bind]. intros [= <- <-].
  apply read_octet_range in E0, E1, E2, E3. lia.
Qed.

Lemma read_groups_ok limit i l gs v4 r :
  read_groups limit i l = (gs, v4, r) → Forall is_group gs ∧ (length gs ≤ limit)%nat.
Proof.
  revert i l gs v4 r. induction limit as [|limit IH]; intros i l gs v4 r; cbn [read_groups]; [by intros [= <- <- <-]|].
  destruct (if (0 <? limit)%nat then read_separator 58 i read_ipv4 l else None) as [[a l']|] eqn:E4.
  - destruct (Nat.ltb_spec 0 limit); [|done]. apply read_separator_inv in E4 as [l2 E4]. apply read_ipv4_range in E4.
    intros [= <- <- <-]. split; [|cbn; lia]. repeat apply Forall_cons_2; [..|apply Forall_nil_2]; unfold is_group.
    + split; [apply Z.div_pos; lia|apply Z.div_lt_upper_bound; lia].
    + apply Z.mod_pos_bound. lia.
  - destruct (read_separator 58 i (read_number 16 4 true 65535) l) as [[g l']|] eqn:Eg; [|by intros [= <- <- <-]; split; [|cbn; lia]].
    apply read_separator_inv in Eg as [l2 Eg]. apply read_number_range in Eg; [|lia].
    destruct (read_groups limit (S i) l') as [[gs' v] r'] eqn:E. apply IH in E as [Hg Hl]. intros [= <- <- <-].
    split; [|cbn; lia]. apply Forall_cons_2; [unfold is_group; lia|done].
Qed.

Section StdText.
Context {Name : Type} `{NameLib Name} `{NameText Name} `{NL : NomLaws} `{VL : ValueLaws}.

Lemma read_ipv6_range l a r : read_ipv6 l = Some (a, r) → 0 ≤ a < 2 ^ 128.
Proof.
  unfold read_ipv6. destruct (read_groups 8 0 l) as [[hd h4] l1] eqn:E. apply read_groups_ok in E as [Hh Hl].
  destruct (Nat.eqb_spec (length hd) 8) as [E8|].
  { intros [= <- <-]. apply of_groups_range in Hh. by rewrite E8 in Hh. }
  destruct h4; [done|]. destruct (given_char 58 l1) as [[? l2]|]; [|done]. cbn [mbind option_bind].
  destruct (given_char 58 l2) as [[? l3]|]; [|done]. cbn [mbind option_bind].
  destruct (read_groups (8 - (length hd + 1)) 0 l3) as [[tl t4] l4] eqn:Et. apply read_groups_ok in Et as [Ht Htl].
  intros [= <- <-].
  assert (Hz : Forall is_group (hd ++ replicate (8 - length hd - length tl) 0 ++ tl)).
  { rewrite !Forall_app. split_and!; [done|apply Forall_replicate; unfold is_group; lia|done]. }
  apply of_groups_range in Hz. rewrite !length_app, length_replicate in Hz.
  by replace (length hd + (8 - length hd - length tl + length tl))%nat with 8%nat in Hz by lia.
Qed.

Lemma ip_of_bytes_ok l ip : ip_of_bytes l = Some ip → ip_ok ip.
Proof.
  unfold ip_of_bytes. destruct (read_ipv4 l) as [[a [|]]|] eqn:E4; [intros [= <-]; by apply read_ipv4_range in E4|done|].
  destruct (read_ipv6 l) as [[a [|]]|] eqn:E6; [intros [= <-]; by apply read_ipv6_range in E6|done..].
Qed.

Definition sock_ok (s : SocketAddr) : Prop := ip_ok (sa_ip s) ∧ in_u16 (sa_port s).

Lemma read_port_range l p r : read_port l = Some (p, r) → in_u16 p.
Proof.
  unfold read_port. destruct (given_char 58 l) as [[u l']|]; [|done]. cbn. intros E%read_number_range; [|lia].
  unfold u16_max in E. unfold in_u16. lia.
Qed.

Lemma sock_parse_ok l s : sock_parse l = Some s → sock_ok s.
Proof.
  unfold sock_parse, sock_ok. destruct (read_ipv4 l) as [[a l1]|] eqn:E4; cbn [mbind option_bind].
  - destruct (read_port l1) as [[p [|]]|] eqn:Ep; cbn [mbind option_bind]; [intros [= <-]|done|].
    + apply read_ipv4_range in E4. by apply read_port_range in Ep.
    + destruct (given_char 91 l) as [[u l2]|] eqn:E; [|done]. destruct l as [|b l]; [done|]. cbn in E.
      destruct (Z.eqb_spec b 91) as [->|]; [|done]. exfalso. by vm_compute in E4.
  - destruct (given_char 91 l) as [[u l2]|]; [|done]. cbn [mbind option_bind].
    destruct (read_ipv6 l2) as [[a l3]|] eqn:E6; [|done]. cbn [mbind option_bind].
    destruct (given_char 93 _) as [[u' l4]|]; [|done]. cbn [mbind option_bind].
    destruct (read_port l4) as [[p [|]]|] eqn:Ep; cbn [mbind option_bind]; [intros [= <-]|done..].
    apply read_ipv6_range in E6. by apply read_port_range in Ep.
Qed.

Lemma yields_sock_addr : yields sock_ok p_sock_addr.
Proof. eapply yields_map_res; [apply yields_any|]. intros t s _. apply sock_parse_ok. Qed.
End StdText.
#[export] Hint Resolve yields_sock_addr : yields.

(** ** The types of what libraries give

    A size in bytes is a [u64], the port of a URL a [u16] and its host an address of
    its family; so are the addresses a URL stands for. The client subnet of a network
    has the prefix lengths of its type. *)
Definition host_ok (h : Host) : Prop :=
  match h with HostIpv4 a => ip_ok (V4 a) | HostIpv6 a => ip_ok (V6 a) | HostDomain _ => True end.
Definition subnet_ok (s : ClientSubnet) : Prop :=
  ip_ok (subnet_addr s) ∧ in_u8 (subnet_source_prefix s) ∧ in_u8 (subnet_scope_prefix s).

Class LibraryTypes `{ValueLib} `{UrlLib} `{RuleLib} : Prop := {
  byte_parse_typed t v : byte_parse t = Some v → in_u64 v;
  url_parse_typed t u : url_parse t = Some u → opt_all in_u16 (ul_port u) ∧ opt_all host_ok (ul_host u);
  socket_addrs_typed u d :
    opt_all in_u16 (ul_port u) → opt_all host_ok (ul_host u) → opt_all in_u16 d → Forall sock_ok (socket_addrs u d);
  subnet_of_typed n : net_ok n → subnet_ok (subnet_of n);
}.

(** ** Rules and items *)
(** One field of a rule is set; the others are as before. *)
Ltac keep_rule := intros [] (? & ? & ? & ? & ? & ? & ? & ?); by split_and!.
Ltac yields_list := apply yields_alt; repeat (apply Forall_cons_2; [|]); [..|apply Forall_nil_2].
Section Rules.
Context {Name Level Pattern : Type} `{NameLib Name} `{NameText Name} `{NL : NomLaws} `{VL : ValueLaws} `{U : Unicode} `{R : RuleLib} `{L : UrlLib}.
Context `{!LibraryTypes}.

Lemma yields_list1_some {A B} (Q : B → Prop) (p : Parser A) (q : Parser B) :
  yields Q q → yields (fun l => l ≠ [] ∧ Forall Q l) (n_separated_list1 p q).
Proof.
  intros Hq i r l E. split; [|by eapply (yields_list1 Q)]. rewrite n_separated_list1_eq in E. apply bind_ok in E as (r1 & b & _ & E).
  assert (Hm : ∀ fuel acc i, doc_more fuel p q acc i = IOk r l → (length acc ≤ length l)%nat).
  { clear E. intros fuel. induction fuel as [|fuel IH]; intros acc j; [done|]. cbn [doc_more].
    destruct (p j) as [r2 a| | |]; [|by intros [= <- <-]|done..]. cbn [ires_bind].
    destruct (q r2) as [r3 c| | |]; [|by intros [= <- <-]|done..]. cbn [ires_bind]. case_match; [done|].
    intros Hacc%IH. rewrite length_app in Hacc. cbn in Hacc. lia. }
  apply Hm in E. cbn in E. intros ->. cbn in E. lia.
Qed.

Lemma omap_families (l : list IpAddr) : Forall ip_ok l →
  Forall (fun a => ip_ok (V4 a)) (omap (fun ip => match ip with V4 a => Some a | V6 _ => None end) l) ∧
  Forall (fun a => ip_ok (V6 a)) (omap (fun ip => match ip with V6 a => Some a | V4 _ => None end) l).
Proof.
  induction 1 as [|[a|a] l Ha _ [IH4 IH6]]; [by split; apply Forall_nil_2|..]; cbn [omap list_omap]; split; try done; by apply Forall_cons_2.
Qed.

Lemma split_families_ok l : l ≠ [] → Forall ip_ok l → value_ok (split_families l).
Proof.
  intros Hne Hl. unfold split_families. destruct (omap_families l Hl) as [H4 H6].
  set (v4 := omap (fun ip => match ip with V4 a => Some a | V6 _ => None end) l) in *.
  set (v6 := omap (fun ip => match ip with V6 a => Some a | V4 _ => None end) l) in *. cbn.
  assert (Hsome : v4 ≠ [] ∨ v6 ≠ []).
  { subst v4 v6. destruct l as [|[a|a] l]; [done|left; by cbn|right; by cbn]. }
  repeat case_bool_decide; cbn; split_and!; try done; try tauto.
  - by right.
  - by left.
  - by left.
Qed.

Lemma yields_address_value : yields value_ok p_address_value.
Proof.
  yields_list; [by apply yields_value..|]. eapply yields_map; [apply yields_list1_some, yields_ip|].
  intros l [? ?]. by apply split_families_ok.
Qed.

Lemma yields_for_domain {T} (P : T → Prop) (p : Parser T) : yields P p → yields (fun x : Domain Name * T => P x.2) (p_for_domain p).
Proof. intros Hp. eapply yields_map; [apply yields_pair; [apply yields_any|by apply yields_preceded]|]. by intros x [_ ?]. Qed.

Lemma yields_address_rule : yields (fun x : Domain Name * AddressRuleValue => value_ok x.2) p_address_rule.
Proof. eapply yields_map; [apply yields_pair; [apply yields_any|apply yields_address_value]|]. by intros x [_ ?]. Qed.

Definition srv_ok (s : SRV Name) : Prop := in_u16 (srv_priority _ s) ∧ in_u16 (srv_weight _ s) ∧ in_u16 (srv_port _ s).
Lemma yields_srv : yields srv_ok p_srv.
Proof.
  eapply yields_map.
  - do 3 (apply yields_pair; [|apply yields_preceded, yields_u16]). apply yields_any.
  - intros [[[t a] b] c] [[[_ Ha] Hb] Hc]. by split_and!.
Qed.

(** At least one text, of at most 255 bytes each. *)
Definition txt_ok (t : TXT) : Prop := t ≠ [] ∧ Forall (fun chunk => (length chunk ≤ 255)%nat) t.
Lemma yields_txt : yields txt_ok p_txt.
Proof.
  intros i r t (r1 & l & _ & E)%bind_ok. destruct (txt_finish _) as [chunks|] eqn:Ef; [|done]. injection E as <- <-.
  unfold txt_finish in Ef. destruct (tx_quoted _ || tx_escaped _); [done|]. set (s := txt_chars txt_start l) in *.
  set (cs := if tx_started s || bool_decide (tx_chunks s = []) then tx_chunks s ++ [tx_chunk s] else tx_chunks s) in Ef. assert (Hne : cs ≠ []).
  { subst cs. destruct (tx_started s); cbn [orb]; [by destruct (tx_chunks s)|]. case_bool_decide; [by destruct (tx_chunks s)|done]. }
  clearbody cs. destruct (existsb _ cs) eqn:Ee; [done|]. injection Ef as <-. split; [by destruct cs|].
  apply Forall_fmap, Forall_forall. intros c Hc. cbn. destruct (Nat.ltb_spec 255 (length (utf8 c))); [|done].
  exfalso. assert (existsb (fun chunk => (255 <? length (utf8 chunk))%nat) cs = true); [|congruence].
  apply existsb_exists. exists c. split; [by apply list_elem_of_In|]. by apply Nat.ltb_lt.
Qed.

(** The parameters of a service binding are encoded from typed values. *)
Definition svc_ok (v : SvcValue) : Prop :=
  match v with
  | SvPort p => in_u16 p
  | SvIpv4Hint ips => Forall (fun a => ip_ok (V4 a)) ips
  | SvIpv6Hint ips => Forall (fun a => ip_ok (V6 a)) ips
  | SvAlpn _ | SvEch _ => True
  end.
Definition svcb_ok (h : HTTPS Name) : Prop :=
  in_u16 (https_priority _ h) ∧ ∃ values, Forall svc_ok values ∧ https_params _ h = svc_param <$> values.
Definition https_ok (x : HttpsRecordRule Name) : Prop :=
  match x with HRecordData _ h => svcb_ok h | _ => True end.

Lemma changes_keep {S} (P : S → Prop) (l : list (S → S)) s :
  P s → Forall (fun f => ∀ s, P s → P (f s)) l → P (fold_left (fun s f => f s) l s).
Proof. intros Hs Hl. revert s Hs. induction Hl as [|f l Hf _ IH]; intros s Hs; [done|]. apply IH, Hf, Hs. Qed.

Lemma yields_svc_value : yields svc_ok p_svc_value.
Proof.
  yields_list.
  - by eapply yields_map; [apply yields_any|].
  - by eapply yields_map; [apply yields_preceded, yields_u16|].
  - eapply yields_map; [apply yields_preceded; yields_list; [apply yields_delimited|]; apply yields_list1, yields_delimited, yields_ipv4|done].
  - eapply yields_map; [apply yields_preceded; yields_list; [apply yields_delimited|]; apply yields_list1, yields_delimited, yields_ipv6|done].
  - by eapply yields_map; [apply yields_any|].
Qed.

Definition svc_vars_ok (s : SvcVars (Name := Name)) : Prop := in_u16 (sw_priority s) ∧ Forall svc_ok (sw_params s).
Lemma yields_svcb : yields svcb_ok p_svcb.
Proof.
  eapply (yields_bind _ (Forall (fun f : SvcVars (Name := Name) → SvcVars => ∀ s, svc_vars_ok s → svc_vars_ok (f s)))).
  - apply yields_list0, yields_delimited. yields_list.
    + eapply yields_map; [apply yields_svc_value|]. intros v Hv s [? ?]. split; [done|]. apply Forall_app. by split; [|apply Forall_singleton].
    + by eapply yields_map; [apply yields_any|].
    + eapply yields_map; [apply yields_preceded, yields_u16|]. by intros v Hv s [? ?].
    + by eapply yields_map; [apply yields_any|].
  - intros r changes r' b Hc [= <- <-]. cbn.
    assert (Hs : svc_vars_ok (fold_left (fun s f => f s) changes (mkSvcVars [] name_root 0))).
    { apply (changes_keep svc_vars_ok); [|done]. split; [cbn; unfold in_u16; lia|apply Forall_nil_2]. }
    destruct Hs as [Hp Hv]. split; [done|]. by eexists.
Qed.

Lemma yields_https : yields https_ok p_https_rule.
Proof. yields_list; [by eapply yields_map; [apply yields_any|]..|by eapply yields_map; [apply yields_svcb|]]. Qed.

(** The family of a set is one that has addresses of the kind. *)
Definition nft_ok (x : ConfigForIP NFTsetConfig) : Prop :=
  match x with
  | ForV4 n => nft_family n = "inet"%string ∨ nft_family n = "ip"%string
  | ForV6 n => nft_family n = "inet"%string ∨ nft_family n = "ip6"%string
  | ForAll _ => False
  | _ => True
  end.
Lemma yields_nftset_for : yields nft_ok p_nftset_for.
Proof.
  yields_list; [by apply yields_value|by apply yields_value|by eapply yields_map; [apply yields_any|]|..];
    (eapply yields_map; [apply yields_preceded, yields_verify, yields_any|]);
    unfold family_is; intros n [_ [?%bool_decide_eq_true|?%bool_decide_eq_true]%orb_true_iff]; cbn; tauto.
Qed.
Lemma yields_nftsets : yields (Forall nft_ok) p_nftsets.
Proof. apply yields_list1, yields_nftset_for. Qed.

(** The name of a kernel set: at most 31 letters, digits, [_], [-] or [.]. *)
Definition ipset_name_ok (n : KernelIpSet) : Prop :=
  ∃ t, n = string_of_text t ∧ (0 < length t < 32)%nat ∧
    forallb (fun c => is_ascii_alphanumeric c || (c =? 95) || (c =? 45) || (c =? 46)) t = true.
Definition ipset_ok (x : ConfigForIP KernelIpSet) : Prop :=
  match x with ForV4 n | ForV6 n | ForAll n => ipset_name_ok n | _ => True end.

Lemma yields_take_while1 f : yields (fun t => t ≠ [] ∧ forallb f t = true) (n_take_while1 f).
Proof.
  intros i r t. rewrite n_take_while1_eq. unfold doc_take_while1. destruct (span f i) as [a q] eqn:E.
  assert (Ha : forallb f a = true).
  { revert a q E. induction i as [|c i IH]; intros a q; cbn [span]; [by intros [= <- <-]|].
    destruct (f c) eqn:Ef; [|by intros [= <- <-]]. destruct (span f i) as [a' q'] eqn:E'. intros [= <- <-].
    cbn [forallb]. rewrite Ef. by eapply IH. }
  destruct a; [done|]. intros [= <- <-]. by split.
Qed.

Lemma yields_kernel_ipset : yields ipset_name_ok p_kernel_ipset.
Proof.
  eapply yields_map; [apply yields_verify, yields_take_while1|]. intros t [[Hne Hc] Hl]. exists t. split; [done|].
  split; [|done]. destruct t; [done|]. apply Nat.ltb_lt in Hl. cbn [length] in *. lia.
Qed.

Lemma yields_ipsets : yields (Forall ipset_ok) p_ipsets.
Proof.
  apply yields_list1. yields_list; try (by apply yields_value);
    (eapply yields_map; [try apply yields_preceded; apply yields_kernel_ipset|done]).
Qed.

(** *** Rules of domains *)
Definition domain_rule_ok (r : DomainRule Name) : Prop :=
  opt_all (Forall mode_ok) (speed_check_mode r) ∧ opt_all value_ok (address r) ∧ opt_all (Forall nft_ok) (nftset r) ∧
  opt_all (Forall ipset_ok) (ipset r) ∧ opt_all subnet_ok (subnet r) ∧
  opt_all in_u64 (rr_ttl r) ∧ opt_all in_u64 (rr_ttl_min r) ∧ opt_all in_u64 (rr_ttl_max r).

Lemma yields_value_of {A B} (P : B → Prop) (name : Parser A) p : yields P p → yields P (parse_value name p).
Proof. intros Hp. by apply yields_preceded. Qed.

Lemma yields_rule_option : yields (fun f => ∀ r, domain_rule_ok r → domain_rule_ok (f r)) rule_option.
Proof.
  unfold rule_option. yields_list;
    try (eapply yields_map; [apply yields_any|by intros v _ [] (? & ? & ? & ? & ? & ? & ? & ?)]).
  - eapply yields_map; [apply yields_value_of, yields_speed_modes|]. intros v Hv [] (Hm & ?). split; [|done].
    cbn in *. apply Forall_app. split; [|done]. by destruct speed_check_mode.
  - eapply yields_map; [apply yields_value_of, yields_address_value|intros v Hv; keep_rule].
  - eapply yields_map; [apply yields_value_of, yields_ip_net|]. intros v Hv%subnet_of_typed. keep_rule.
  - eapply yields_map; [apply yields_value_of, yields_nftsets|intros v Hv; keep_rule].
  - eapply yields_map; [apply yields_value_of, yields_ipsets|intros v Hv; keep_rule].
  - eapply yields_map; [apply yields_value_of, yields_u64|intros v Hv; keep_rule].
  - eapply yields_map; [apply yields_value_of, yields_u64|intros v Hv; keep_rule].
  - eapply yields_map; [apply yields_value_of, yields_u64|intros v Hv; keep_rule].
Qed.

Lemma yields_domain_rule : yields domain_rule_ok p_domain_rule.
Proof.
  eapply yields_bind; [apply yields_list1, yields_rule_option|].
  intros r changes r' b Hc [= <- <-]. by apply (changes_keep domain_rule_ok).
Qed.

(** *** Listeners, clients and servers *)
Definition opts_ok (o : ServerOpts) : Prop := opt_all (Forall nft_ok) (so_nftset o) ∧ opt_all (Forall ipset_ok) (so_ipset o).

Lemma all_of_ok {A} (P : A → Prop) (p : Parser A) v a : yields P p → parse_all_of p v = Some a → P a.
Proof.
  intros Hp. unfold parse_all_of. destruct v as [t|]; [|done]. cbn. rewrite n_all_consuming_eq. unfold doc_all_consuming.
  destruct (p t) as [r x| | |] eqn:E; [|done..]. cbn. destruct r; [|done]. intros [= <-]. eauto.
Qed.

Lemma server_opt_ok k v o o' : opts_ok o → server_opt k v o = Some (inl o') → opts_ok o'.
Proof.
  intros [Hn Hi]. unfold server_opt. repeat (case_match; [try (intros [= <-]; by destruct o)|]); [..|done].
  - destruct (parse_all_of p_ipsets v) eqn:E; [|done]. cbn. intros [= <-]. apply (all_of_ok (Forall ipset_ok)) in E; [|apply yields_ipsets].
    by destruct o.
  - destruct (parse_all_of p_nftsets v) eqn:E; [|done]. cbn. intros [= <-]. apply (all_of_ok (Forall nft_ok)) in E; [|apply yields_nftsets].
    by destruct o.
Qed.

Lemma server_opts_ok options rest o r : opts_ok o → server_opts_from options rest o = Some r → opts_ok r.2.
Proof.
  revert rest o. induction options as [|[k v] options IH]; intros rest o Ho; cbn [server_opts_from]; [by intros [= <-]|].
  destruct (server_opt k v o) as [[o'|[]]|] eqn:E; [|by apply IH|done]. apply IH. by eapply server_opt_ok.
Qed.
Lemma parse_server_opts_ok options r : parse_server_opts options = Some r → opts_ok r.2.
Proof. by apply server_opts_ok. Qed.

Definition bind_addr_ok (a : BindAddr) : Prop := match a with BaV4 a => ip_ok (V4 a) | BaV6 a => ip_ok (V6 a) | _ => True end.
Definition listener_ok (c : BindAddrConfig) : Prop :=
  bind_addr_ok (DnsUrl.bind_addr c) ∧ in_u16 (bind_port c) ∧ opts_ok (bind_server_opts c).

Lemma yields_bind_addr : yields bind_addr_ok p_bind_addr.
Proof.
  yields_list; [yields_list|by apply yields_value].
  - by apply yields_value.
  - by eapply yields_map; [apply yields_ipv4|].
  - by eapply yields_map; [apply yields_delimited, yields_ipv6|].
Qed.

Lemma yields_bind_config : yields listener_ok p_bind.
Proof.
  eapply yields_bind.
  - apply yields_pair; [apply yields_pair; [apply yields_pair; [apply yields_any|]|]|apply yields_any].
    + apply yields_preceded. eapply (yields_map bind_addr_ok); [apply yields_opt, yields_bind_addr|].
      intros [a|] Ha; [done|]. cbn. lia.
    + apply yields_preceded, yields_bind_port.
  - intros r [[[proto addr] port] device] r' b [[[_ Ha] Hp] _] (r2 & options & _ & E)%bind_ok. cbn in *.
    destruct (match options with Some o => parse_server_opts o | None => Some ([], opts_default) end) as [[rest opts]|] eqn:Eo; [|done].
    assert (Hopts : opts_ok opts).
    { destruct options; [by apply parse_server_opts_ok in Eo|]. by injection Eo as <- <-. }
    injection E as <- <-. by destruct proto.
Qed.

Definition client_ok (c : Client) : Prop := match c with CIpAddr n => net_ok n | CMacAddr _ => True end.
Lemma yields_client_rule : yields (fun r => client_ok (cr_client r) ∧ opts_ok (cr_options r)) p_client_rule.
Proof.
  eapply (yields_bind _ client_ok).
  - yields_list; [by eapply yields_map; [apply yields_ip_net|]|by eapply yields_map; [apply yields_any|]].
  - intros r c r' b Hc (r2 & options & _ & E)%bind_ok.
    cbn zeta in E. destruct (parse_server_opts (opt_unwrap_or [] options)) as [[rest opts]|] eqn:Eo; [|done]. apply parse_server_opts_ok in Eo.
    injection E as <- <-. split; [done|]. by destruct opts.
Qed.

Definition url_ok (u : DnsUrl) : Prop := host_ok (url_host u) ∧ opt_all in_u16 (url_port_opt u).

Lemma host_of_ok h : host_ok h → host_ok (host_of h).
Proof.
  destruct h as [d|a|a]; cbn; [|done..]. intros _. destruct (ip_parse d) as [[a|a]|] eqn:E; [..|done]; by apply ip_of_bytes_ok in E.
Qed.

Lemma take_host_ok h params : host_ok h → host_ok (take_host_param h params).1.
Proof. unfold take_host_param. by destruct (params !! _). Qed.

Lemma dns_url_ok t u : dns_url_from_str t = Some u → url_ok u.
Proof.
  unfold dns_url_from_str. case_bool_decide; [by intros [= <-]|]. case_bool_decide; [by intros [= <-]|]. cbn zeta.
  destruct (url_parse _) as [p|] eqn:E; [|done]. cbn [mbind option_bind]. apply url_parse_typed in E as [Hp Hh].
  case_bool_decide; [by intros [= <-]|]. destruct (protocol_of_scheme _); [|done]. cbn [mbind option_bind].
  destruct (ul_host p) as [h|]; [|done]. cbn [fmap option_fmap option_map mbind option_bind]. cbn in Hh. apply host_of_ok in Hh.
  pose proof (take_host_ok _ (params_from (opt_unwrap_or EmptyString (ul_query p))) Hh) as Ht.
  destruct (take_host_param _ _) as [h' params]. intros Hu. apply (inj Some) in Hu as <-. by split.
Qed.

Lemma server_url_ok d t u : server_url d t = Some u → url_ok u.
Proof.
  unfold server_url, opt_or. repeat case_match; intros E; try (injection E as <-); by eapply dns_url_ok.
Qed.

Lemma set_host_ok h u : url_ok u → url_ok (set_host h u).
Proof. intros [_ Hp]. split; [done|]. cbn. by destruct (url_host u). Qed.

Lemma host_name_ok t u : url_ok u → url_ok (host_name_option t u).
Proof. unfold host_name_option. case_bool_decide; [done|apply set_host_ok]. Qed.

Lemma tls_host_ok t u : url_ok u → url_ok (tls_host_verify_option t u).
Proof. intros Hu. unfold tls_host_verify_option. destruct (url_host u); [done|by apply set_host_ok..]. Qed.

Definition server_ok (s : ServerConf) : Prop :=
  url_ok (sc_server s) ∧ opt_all net_ok (sv_subnet (sc_options s)) ∧ opt_all in_u32 (sv_so_mark (sc_options s)).

Lemma u32_option_ok t : opt_all in_u32 (u32_from_str_or_hex t).
Proof.
  unfold u32_from_str_or_hex. case_match; (destruct (parse_unsigned _ _ _) eqn:E; [|done]);
    apply parse_unsigned_range in E; [|lia| |lia]; unfold u32_max in E; cbn; unfold in_u32; lia.
Qed.

Lemma server_option_ok is_pin kv s r s' : server_ok s → server_option is_pin kv s = IOk r s' → server_ok s'.
Proof.
  intros Hs. destruct kv as [k v]. unfold server_option. destruct s as [info url boot proxy o], o. destruct Hs as (Hu & Hn & Hm). cbn in Hu, Hn, Hm.
  repeat (case_match; [try (intros [= <- <-]; by split_and!)|]); [..|by intros [= <- <-]];
    try (destruct v as [t|]; [|by intros [= <- <-]]); try (intros [= <- <-]; by split_and!).
  - intros [= <- <-]. split_and!; [done..|apply u32_option_ok].
  - intros (r1 & n & E & [= <- <-])%bind_ok. split_and!; [done| |done]. cbn. unfold subnet_option in E.
    destruct (p_ip_net t) as [r2 m| | |] eqn:Ep; [|..|done]; injection E as <- <-; [|done..]. by apply yields_ip_net in Ep.
  - intros [= <- <-]. split; [by apply host_name_ok|done].
  - intros [= <- <-]. split; [by apply tls_host_ok|done].
Qed.

Lemma server_options_ok is_pin l x : (∀ r s, x = IOk r s → server_ok s) → ∀ r s,
  fold_left (fun r kv => ires_bind r (fun _ s => server_option is_pin kv s)) l x = IOk r s → server_ok s.
Proof.
  revert x. induction l as [|kv l IH]; intros x Hx r s E; cbn in E; [eauto|]. eapply IH; [|exact E].
  intros r' t (r1 & s1 & E1 & E2)%bind_ok. eapply server_option_ok; [|exact E2]. eauto.
Qed.

Lemma yields_server is_pin : yields server_ok (p_server is_pin).
Proof.
  intros i r s (r1 & url & Eu & (r2 & options & _ & (r3 & s' & E & [= <- <-])%bind_ok)%bind_ok)%bind_ok.
  assert (Hu : yields url_ok p_server_url).
  { yields_list; apply yields_preceded, yields_preceded; (eapply yields_map_res; [apply yields_any|]); intros t u _; apply server_url_ok. }
  apply Hu in Eu. eapply server_options_ok; [|exact E]. intros ? ? [= <- <-]. by split_and!.
Qed.

(** *** Proxies and providers *)
Definition proxy_ok (p : NamedProxyConfig) : Prop := sock_ok (px_server (np_config p)).

Lemma proxy_from_str_ok t p : proxy_from_str t = Some p → sock_ok (px_server p).
Proof.
  unfold proxy_from_str. destruct (url_parse t) as [u|] eqn:E; [|done]. cbn [mbind option_bind]. apply url_parse_typed in E as [Hp Hh].
  destruct (proxy_scheme _) as [proto|]; [|done]. cbn [mbind option_bind].
  destruct (head (socket_addrs u _)) as [s|] eqn:Es; [|done]. cbn [mbind option_bind]. intros [= <-]. cbn.
  assert (Hs : Forall sock_ok (socket_addrs u (match proto with Socks5 => Some 1080 | HttpProxy => None end))).
  { apply socket_addrs_typed; [done..|]. destruct proto; cbn; [unfold in_u16; lia|done]. }
  destruct Hs; [done|]. cbn in Es. by injection Es as <-.
Qed.

Definition proxy_vars_ok (s : option string * option ProxyConfig) : Prop := opt_all (fun p => sock_ok (px_server p)) s.2.
Lemma yields_proxy : yields proxy_ok p_proxy.
Proof.
  eapply (yields_bind _ (Forall (fun f => ∀ s, proxy_vars_ok s → proxy_vars_ok (f s)))).
  - apply yields_list1. yields_list.
    + by eapply yields_map; [apply yields_any|].
    + eapply (yields_map _ (fun p => sock_ok (px_server p))).
      * eapply yields_map_res; [apply yields_any|]. intros t p _. apply proxy_from_str_ok.
      * by intros p Hp [n q] _.
  - intros r changes r' p Hc. assert (Hs : proxy_vars_ok (fold_left (fun s f => f s) changes (None, None))) by (by apply (changes_keep proxy_vars_ok)).
    destruct (fold_left _ _ _) as [[n|] [q|]]; [|done..]. by intros [= <- <-].
Qed.

Definition provider_ok (p : DomainSetProvider) : Prop := match p with DspHttp _ _ i => opt_all in_u64 i | DspFile _ _ => True end.
Definition vars_ok (v : ProviderVars) : Prop := opt_all in_u64 (pv_interval v).

Lemma yields_provider {T} (P : T → Prop) options (make : ProviderVars → option T) :
  Forall (yields (fun f => ∀ s, vars_ok s → vars_ok (f s))) options → (∀ s v, vars_ok s → make s = Some v → P v) →
  yields P (p_provider options make).
Proof.
  intros Ho Hm. eapply yields_bind; [by apply yields_list1, yields_alt|]. intros r changes r' v Hc.
  assert (Hs : vars_ok (fold_left (fun s f => f s) changes vars_start)) by (by apply (changes_keep vars_ok)).
  destruct (make _) as [x|] eqn:E; [|done]. intros [= <- <-]. by eapply Hm.
Qed.

Lemma yields_domain_set : yields provider_ok p_domain_set.
Proof.
  yields_list; (eapply (yields_map _ provider_ok); [|done]); apply yields_provider.
  - repeat apply Forall_cons_2; [..|apply Forall_nil_2]; by eapply yields_map; [apply yields_any|].
  - intros s v _. destruct (pv_name s); [|done]. cbn. destruct (pv_file s); [|done]. cbn. by intros [= <-].
  - repeat apply Forall_cons_2; [..|apply Forall_nil_2]; try (by eapply yields_map; [apply yields_any|]).
    eapply yields_map; [apply yields_value_of, yields_usize|done].
  - intros s v Hs. destruct (pv_name s); [|done]. cbn. destruct (pv_url s); [|done]. cbn. by intros [= <-].
Qed.

Lemma yields_byte : yields in_u64 p_byte.
Proof. eapply yields_map_res; [apply yields_any|]. intros t v _. apply byte_parse_typed. Qed.

(** *** Items *)
Definition item_ok (i : ConfigItem Name Level Pattern) : Prop :=
  match i with
  | CiAddress v => value_ok v.2
  | CiAuditSize v | CiLogSize v | CiCacheMemorySize v => in_u64 v
  | CiWebUiBind s => sock_ok s
  | CiProxyConfig p => proxy_ok p
  | CiDomainSetProvider p => provider_ok p
  | CiKernelIpSet v => Forall ipset_ok v.2
  | CiIpSetNoSpeed v => Forall ipset_ok v
  | CiAuditFileMode v | CiLogFileMode v => in_u32 v
  | CiAuditNum v | CiBindCertValidityDays v | CiServeExpiredPrefetchTime v | CiMaxQueryLimit v | CiCacheCheckpointTime v
  | CiDualstackIpSelectionThreshold v | CiLocalTtl v | CiLogNum v | CiNumWorkers v | CiServeExpiredTtl v
  | CiServeExpiredReplyTtl v | CiRrTtl v | CiRrTtlMin v | CiRrTtlMax v | CiRrTtlReplyMax v | CiTcpIdleTime v => in_u64 v
  | CiCacheSize v => in_i64 v
  | CiMaxReplyIpNum v => in_u8 v
  | CiForceQtypeSoa v => in_u16 v
  | CiBlacklistIp v | CiBogusNxDomain v | CiIgnoreIp v | CiWhitelistIp v => ip_or_set_ok v
  | CiTxtRecord v => txt_ok v.2
  | CiClientRule r => client_ok (cr_client r) ∧ opts_ok (cr_options r)
  | CiSrvRecord v => srv_ok v.2
  | CiHttpsRecord v => https_ok v.2
  | CiDns64 v => 0 ≤ v.1 < 2 ^ 128 ∧ 0 ≤ v.2 ≤ 128
  | CiDomainRule v => domain_rule_ok v.2
  | CiEdnsClientSubnet n => net_ok n
  | CiListener c => listener_ok c
  | CiServer s => server_ok s
  | CiNftSet v => Forall nft_ok v.2
  | CiNftSetNoSpeed v => Forall nft_ok v
  | CiSpeedMode v => opt_all (Forall mode_ok) v
  | CiIpAlias a => ip_or_set_ok (alias_ip a) ∧ arc_val (alias_to a) ≠ [] ∧ Forall ip_ok (arc_val (alias_to a))
  | _ => True
  end.
End Rules.

#[export] Hint Resolve yields_address_rule yields_srv yields_txt yields_https yields_nftsets yields_domain_rule yields_bind_config
  yields_ipsets yields_proxy yields_domain_set yields_byte
  yields_client_rule yields_server yields_for_domain : yields.

Section Items.
Context {Name Level Pattern : Type} `{NameLib Name} `{NameText Name}.
Context `{NL : NomLaws} `{VL : ValueLaws} `{U : Unicode} `{TL : TokenLib Level Pattern} `{R : RuleLib} `{L : UrlLib} `{!LibraryTypes}.
Context (arc_new : text → Z) (is_spki_pin : text → bool).
Abbreviation Item := (ConfigItem Name Level Pattern).

Lemma yields_ip_alias : yields (fun a => ip_or_set_ok (alias_ip a) ∧ arc_val (alias_to a) ≠ [] ∧ Forall ip_ok (arc_val (alias_to a))) (p_ip_alias arc_new).
Proof.
  enough (Hy : ∀ ptr, yields (fun a => ip_or_set_ok (alias_ip a) ∧ arc_val (alias_to a) ≠ [] ∧ Forall ip_ok (arc_val (alias_to a)))
    (n_map (n_pair (n_terminated p_ip_or_set n_space1) (n_separated_list1 p_comma3 p_ip)) (fun '(ip, to) => mkAlias ip (mkArc ptr to))))
    by (intros i; exact (Hy (arc_new i) i)).
  intros ptr. eapply yields_map.
  - apply yields_pair; [apply yields_terminated, yields_ip_or_set|apply yields_list1_some, yields_ip].
  - intros [ip to] [? [? ?]]. by split_and!.
Qed.

Lemma yields_directive {A} (P : A → Prop) kw (p : Parser A) (F : A → Item) :
  yields P p → (∀ a, P a → item_ok (F a)) → yields item_ok (dir_parser (DValue kw p F)).
Proof. intros Hp HF. eapply yields_map; [|exact HF]. by apply yields_preceded, yields_preceded. Qed.

Lemma directives_ok : Forall (fun d => yields item_ok (dir_parser d)) (directives (Name := Name) (Level := Level) (Pattern := Pattern) arc_new is_spki_pin).
Proof.
  unfold directives, groups, group1, group2, group3, group4, group5, group6, group7. cbn [concat app].
  repeat first [apply Forall_nil_2 | apply Forall_cons_2];
    first
      [ solve [eapply yields_directive; [solve [eauto with yields nocore]|done]]
      | solve [eapply yields_directive; [apply yields_for_domain; solve [eauto with yields nocore]|done]]
      | solve [eapply yields_directive; [apply yields_ip_alias|done]]
      | solve [eapply yields_directive; [apply yields_any|done]]
      | solve [eapply yields_map; [apply yields_bind_config || apply yields_server || apply yields_any|done]]].
Qed.

Lemma alt_ok {A} (P : A → Prop) (l : list (Parser A)) : Forall (yields P) l → ∀ i r a, doc_alt l i = IOk r a → P a.
Proof. intros Hl i r a. rewrite <- n_alt_eq. by apply yields_alt. Qed.

(** C28: every item that a line of the configuration is read as is well formed: its
    integers (numbers, sizes in bytes, intervals, ports, priorities and marks) are
    within the widths of their types, its addresses and prefix lengths within their
    families, its address rules, aliases and sets of addresses have what they need,
    the names of kernel sets their length and characters, and no text of a TXT record
    is longer than its length byte can say. Sizes, URLs and client subnets are read
    by libraries, which give values of their types. *)
Theorem read_item_typed t i : read_line arc_new is_spki_pin t = Some (Some (Some i)) → item_ok i.
Proof.
  unfold read_line, parse_config. destruct (parse_line arc_new is_spki_pin t) as [r l| | |] eqn:E; cbn [ires_bind]; [|done..].
  destruct l as [item c| | |]; [|done..]. intros Hi. assert (item = i) as -> by congruence. clear Hi. revert E.
  enough (Hy : yields (fun l => match l with ClConfig item _ => item_ok item | _ => True end) (parse_line arc_new is_spki_pin))
    by (intros E; by apply Hy in E).
  unfold parse_line. yields_list; [|by eapply yields_map; [apply yields_any|]..].
  eapply yields_map; [apply yields_pair; [apply yields_preceded|apply yields_any]|by intros [item c'] [? _]].
  intros j r' item. unfold p_item. rewrite n_alt_eq, alt_groups. apply alt_ok, Forall_fmap, directives_ok.
Qed.
End Items.
