(* ===== verification/ParseExamples.v ===== *)
(** * Lines of the configuration at concrete values

    The libraries at concrete functions, and lines with what they are read as; most
    are those of the program's own tests. *)

From S2P Require Import Prelude Names Config Text Message DomainRule DomainRuleTree Runtime Context DnsUrl ClientBuild ConfigItems Ping Nom ParseValues ParseRules ParseServers ParseLine ParseSpec ParseIp AddressFile ParseTypes.

(** ** A URL library: a scheme, a host that may be an address, a port, a path, a query
    and a fragment. *)
Definition cut (p : Z → bool) (t : text) : text * option text :=
  let '(a, r) := span (fun c => negb (p c)) t in (a, match r with _ :: r => Some r | [] => None end).

Definition plain_host (t : text) : Host :=
  match t with
  | 91 :: r => match read_ipv6 r with Some (a, [93]) => HostIpv6 a | _ => HostDomain (string_of_text t) end
  | _ => match read_ipv4 t with Some (a, []) => HostIpv4 a | _ => HostDomain (string_of_text t) end
  end.

Definition plain_url_parse (t : text) : option Url :=
  '(scheme, r) ← split_once scheme_end t;
  let '(r, fragment) := cut (Z.eqb 35) r in
  let '(r, query) := cut (Z.eqb 63) r in
  let '(auth, path) := span (fun c => negb (c =? 47)) r in
  let '(host, port) := match auth with
                       | 91 :: _ => let '(a, b) := span (fun c => negb (c =? 93)) auth in
                                    (a ++ take 1 b, match drop 1 b with 58 :: p => Some p | _ => None end)
                       | _ => cut (Z.eqb 58) auth
                       end in
  if existsb (Z.eqb 58) host && negb (bool_decide (head host = Some 91)) then None
  else if match port with Some p => existsb (Z.eqb 58) p | None => false end then None
  else Some (mkUrlParts (string_of_text scheme) (match host with [] => None | _ => Some (plain_host host) end)
               (port ≫= parse_unsigned 10 u16_max) (string_of_text (match path with [] => [47] | _ => path end))
               (string_of_text <$> query) (string_of_text <$> fragment) "" None).

Definition plain_form_parse (s : string) : list (string * string) :=
  (fun piece => let '(k, v) := cut (Z.eqb 61) piece in (string_of_text k, string_of_text (opt_unwrap_or [] v)))
  <$> words_at (Z.eqb 38) (text_of s).

Definition plain_urls : UrlLib := {|
  url_parse := plain_url_parse;
  form_parse := plain_form_parse;
  host_show h := match h with
                 | HostDomain d => d
                 | HostIpv4 a => ip_show (V4 a)
                 | HostIpv6 a => ("[" ++ ip_show (V6 a) ++ "]")%string
                 end;
  socket_addrs u default :=
    match ul_host u, opt_or (ul_port u) default with
    | Some (HostIpv4 a), Some p => [mkSocket (V4 a) p]
    | Some (HostIpv6 a), Some p => [mkSocket (V6 a) p]
    | _, _ => []
    end;
  default_dns_query_path := "/dns-query";
|}.

Definition plain_rules : RuleLib := {|
  svc_param v := match v with
                 | SvAlpn ids => (1, (bytes_of_string <$> ids) ≫= fun b => Z.of_nat (length b) :: b)
                 | SvPort p => (3, [p / 256; p mod 256])
                 | SvIpv4Hint ips => (4, ips ≫= fun a => [a / 2 ^ 24; a / 2 ^ 16 mod 256; a / 2 ^ 8 mod 256; a mod 256])
                 | SvIpv6Hint ips => (6, ips ≫= fun a => (fun k => a / 2 ^ (8 * k) mod 256) <$> reverse (seqZ 0 16))
                 | SvEch b => (5, b)
                 end;
  subnet_of n := mkSubnet (net_addr n) (net_prefix_len n) 0;
  http_url t := if is_some (split_once scheme_end t) then Some (string_of_text t) else None;
|}.

Section Plain.
#[local] Existing Instance doc_nom.
#[local] Existing Instance ascii_unicode.
#[local] Existing Instance plain_values.
#[local] Existing Instance plain_tokens.
#[local] Existing Instance plain_urls.
#[local] Existing Instance plain_rules.

Definition plain_config (s : string) : IResult (option (ConfigItem PlainName nat text)) :=
  parse_config (fun _ => 0) (fun pin => (length pin =? 44)%nat) (text_of s).

Definition rel_name (s : string) : PlainName := mkName (split_dots [] (bytes_of_string s)) false.
Definition rel_domain (s : string) : Domain PlainName := DName (WDefault (rel_name s)).

Example read_nftset : plain_config "nftset /www.example.com/#4:inet#tab#dns4 # comment 123" =
  IOk [] (Some (CiNftSet (rel_domain "www.example.com", [ForV4 (mkNft "inet" "tab" "dns4")]))).
Proof. by vm_compute. Qed.
Example read_blacklist : plain_config "blacklist-ip  243.185.187.39" =
  IOk [] (Some (CiBlacklistIp (IpNetItem (mkNet (V4 0xf3b9bb27) 32)))) ∧
  plain_config "Blacklist-IP ip-set:name" = IOk [] (Some (CiBlacklistIp (IpSetItem "name"))).
Proof. by vm_compute. Qed.
Example read_sets :
  plain_config "domain-set -name outbound -file /etc/smartdns/geoip.txt" =
    IOk [] (Some (CiDomainSetProvider (DspFile "outbound" (mkPathBuf true ["etc"; "smartdns"; "geoip.txt"]%string)))) ∧
  plain_config "domain-set -t list -n a -u http://a/b -i 60" =
    IOk [] (Some (CiDomainSetProvider (DspHttp "a" "http://a/b" (Some 60)))).
Proof. by vm_compute. Qed.
Example read_domain_rule :
  plain_config "domain-rules /domain-set:block/ --address # -n office -d -rr-ttl-min 60" =
    IOk [] (Some (CiDomainRule (DSet "block",
      mkRule PlainName (Some "office"%string) (Some ASOA) None None None None None (Some true) None None None None None None
        (Some 60) None None None None))).
Proof. by vm_compute. Qed.
Example read_address :
  plain_config "  address /a.b/1.2.3.4, ::1  # c" =
    IOk [] (Some (CiAddress (rel_domain "a.b", AAddr (Some [0x01020304]) (Some [1])))).
Proof. by vm_compute. Qed.
Example read_bind :
  plain_config "bind-tls [::]:853@lo -no-cache -group office -ssl-certificate a.pem" =
    IOk [] (Some (CiListener (BindTls
      (mkBind (BaV6 0) 853 (Some "lo"%string)
         (mkOpts None None None None (Some "office"%string) None None None None None (Some true) None None None None None false) None)
      (mkSsl None (Some "a.pem"%string) None None)))).
Proof. by vm_compute. Qed.
Example read_server :
  plain_config "server-https 1.1.1.1/dns-query -group office -e -host-name one.one -set-mark 0xff" =
    IOk [] (Some (CiServer (mkConf (mkServer ["office"%string] true)
      (mkUrl "one.one" (ProtoHttps "/dns-query" PreferAuto) (HostDomain "one.one") None {["ip" := "1.1.1.1"]}%string ∅) false None
      (mkServerOptions None false false false None None None (Some 255) None None)))).
Proof. by vm_compute. Qed.
Example read_txt :
  parse_config (Level := nat) (Pattern := text) (Name := PlainName) (fun _ => 0) (fun _ => true)
    (text_of "txt-record /a/ " ++ [34] ++ text_of "v=1 x" ++ [34] ++ text_of " y\ z # c") =
  IOk [] (Some (CiTxtRecord (rel_domain "a", [text_of "v=1 x"; text_of "y z"]))).
Proof. by vm_compute. Qed.
Example read_others :
  plain_config "   # comment" = IOk [] None ∧ plain_config "" = IOk [] None ∧ plain_config "cache-size x" = IOk (text_of "cache-size x") None ∧
  plain_config "no-such-directive 1" = IOk (text_of "no-such-directive 1") None ∧
  plain_config "group-end" = IOk [] (Some CiGroupEnd).
Proof. by vm_compute. Qed.

(** ** The theorems at concrete values *)
#[local] Existing Instance doc_nom_laws.

Lemma line_is_its_directive_witness :
  read_line (Name := PlainName) (Level := nat) (Pattern := text) (fun _ => 0) (fun _ => true) (text_of "  Cache-SIZE  512 # c") =
    Some (Some (Some (CiCacheSize 512))) ∧
  read_line (Name := PlainName) (Level := nat) (Pattern := text) (fun _ => 0) (fun _ => true) (text_of "cache-sizes 512") = Some (Some None).
Proof.
  split.
  - change (text_of "  Cache-SIZE  512 # c") with (text_of "  " ++ text_of "Cache-SIZE" ++ text_of "  " ++ text_of "512 # c").
    rewrite (line_is_its_directive _ _ (text_of "  ") (text_of "Cache-SIZE") (text_of "  ")) by (vm_compute; done).
    by vm_compute.
  - change (text_of "cache-sizes 512") with ([] ++ text_of "cache-sizes" ++ [32] ++ text_of "512").
    rewrite (line_is_its_directive _ _ [] (text_of "cache-sizes") [32]) by (vm_compute; done).
    by vm_compute.
Defined.

#[local] Existing Instance plain_values_laws.
Lemma plain_host_ok t : host_ok (plain_host t).
Proof.
  assert (H4 : host_ok (match read_ipv4 t with Some (a, []) => HostIpv4 a | _ => HostDomain (string_of_text t) end)).
  { destruct (read_ipv4 t) as [[a [|]]|] eqn:E; [by apply read_ipv4_range in E|done..]. }
  unfold plain_host. destruct t as [|c r]; [done|]. repeat (case_match; try done); subst; try exact H4.
  by match goal with E : read_ipv6 _ = _ |- _ => apply read_ipv6_range in E end.
Qed.

#[local] Instance plain_typed : LibraryTypes.
Proof.
  split.
  - intros t v. cbn. unfold u64_max, in_u64. destruct (match digits 10 0 0 t with (_, _, _) => _ end); [|done]. cbn.
    destruct (andb _ _) eqn:E; [|done]. intros [= <-]. lia.
  - intros t u. cbn. unfold plain_url_parse. destruct (split_once _ _) as [[scheme r]|]; [|done]. cbn.
    destruct (cut _ r) as [r1 fragment], (cut _ r1) as [r2 query], (span _ r2) as [auth path].
    match goal with |- context [let '(_, _) := ?x in _] => destruct x as [host port] end.
    case_match; [done|]. destruct (match port with Some p => _ | None => false end); [done|]. intros [= <-]. cbn. split.
    + destruct port as [p|]; [|done]. cbn. destruct (parse_unsigned _ _ _) eqn:E; [|done]. apply parse_unsigned_range in E; [|lia].
      unfold u16_max in E. cbn. unfold in_u16. lia.
    + destruct host; [done|]. apply plain_host_ok.
  - intros u d Hp Hh Hd. cbn. destruct (ul_host u) as [[x|a|a]|]; [by apply Forall_nil_2|..|by apply Forall_nil_2];
      unfold opt_or; destruct (ul_port u) as [p|]; [|destruct d as [p|]| |destruct d as [p|]];
      try (by apply Forall_nil_2); apply Forall_singleton; by split.
  - intros n [Hip Hl]. split; [done|]. cbn. unfold in_u8. destruct (net_addr n); cbn in Hl; lia.
Qed.

Lemma read_item_typed_witness :
  item_ok (CiEdnsClientSubnet (mkNet (V4 0x0a000000) 8) : ConfigItem PlainName nat text).
Proof.
  apply (read_item_typed (Name := PlainName) (Level := nat) (Pattern := text) (fun _ => 0) (fun _ => true) (text_of "edns-client-subnet 10.0.0.0/8")).
  by vm_compute.
Defined.

Lemma address_read_back_witness :
  p_ip (text_of "2001:db8::1,x") = IOk (text_of ",x") (V6 0x20010db8000000000000000000000001).
Proof.
  exact (address_read_back (V6 0x20010db8000000000000000000000001) (text_of ",x") ltac:(cbn; lia) eq_refl).
Defined.

(** An API over the plain libraries. *)
Definition no_show (_ : ConfigItem PlainName nat text) : text := [].
Definition plain_create := api_create (fun _ => 0) (fun _ => true) no_show.
Definition plain_delete := api_delete (fun _ => 0) (fun _ => true) no_show.
Definition rule_lines : list (ConfigLine (Name := PlainName) (Level := nat) (Pattern := text)) :=
  [ClComment (text_of "# mine"); ClConfig (CiAddress (rel_domain "a.example", AAddr (Some [0x01020304]) None)) (Some (text_of " # one")); ClEmptyLine].
Definition rule_text : text := text_of "# mine" ++ [10] ++ text_of "address /a.example/1.2.3.4 # one" ++ [10; 10].
Definition new_rule : Domain PlainName * AddressRuleValue := (rel_domain "b.example", ASOA).


(** The first rule is written without a line end, which the next request writes. *)
Example line_end_added :
  let other := (rel_domain "a.example", ASOA) in
  let one := text_of "address /a.example/#" in
  plain_create other (Some (mkManaged false None)) = (ApiCreated, Some (mkManaged true (Some one))) ∧
  plain_create new_rule (Some (mkManaged true (Some one))) =
    (ApiCreated, Some (mkManaged true (Some (one ++ [10] ++ text_of "address /b.example/#" ++ [10])))) ∧
  plain_delete new_rule.1 (Some (mkManaged true (Some (one ++ [10] ++ text_of "address /b.example/#" ++ [10])))) =
    (ApiNoContent, Some (mkManaged true (Some (one ++ [10])))).
Proof. by vm_compute. Qed.

(** A line that is not read ends the reading of a file: when a rule is added, the
    lines after it are lost. *)
Example lines_are_lost :
  plain_create new_rule (Some (mkManaged true (Some (text_of "cache-size x" ++ [10] ++ rule_text)))) =
    (ApiCreated, Some (mkManaged true (Some ([10] ++ text_of "address /b.example/#" ++ [10])))).
Proof. by vm_compute. Qed.
(** Most directives cannot be written. *)
Example directive_panics :
  plain_create new_rule (Some (mkManaged true (Some (text_of "cache-size 100" ++ [10])))) =
    (ApiPanics, Some (mkManaged true (Some (text_of "cache-size 100" ++ [10])))).
Proof. by vm_compute. Qed.

(** The pattern of a name is looked for beyond the domain, so that a comment can make
    a line one that is not read. *)
Example comment_hides_rule :
  plain_config "address /lan/# # hosts" = IOk [] (Some (CiAddress (rel_domain "lan", ASOA))) ∧
  plain_config "address /lan/# # *.hosts are local" = IOk (text_of "address /lan/# # *.hosts are local") None.
Proof. by vm_compute. Qed.

(** The path of an upstream is in lower case. *)
Example path_in_lower_case :
  plain_config "server-https https://example.com/DNS-Query" = plain_config "server-https https://example.com/dns-query".
Proof. by vm_compute. Qed.
End Plain.
