(* ===== verification/Connect.v ===== *)
(** * Connections to upstream servers ([libdns/custom/connection_provider.rs], [libdns/bridge.rs], [proxy.rs])

    Which addresses a server is reached at, in which way a connection to each is
    opened, and the race between them. The network is an argument: what a step of
    opening a connection takes and comes to, and how a connection answers the
    query that warms it up. *)

From S2P Require Import Prelude Names Config Text Context DnsUrl ConfigItems Message Tasks Dhcp Ping Nom ParseServers.

(** A task that may end in a panic instead of a value ([None]). *)
Abbreviation Ending T := (Task (option T)).

(** A panic of what is awaited is a panic of what awaits it. *)
Definition then_ {A B} (x : Ending A) (k : Instant → A → Outcome B) : Outcome B :=
  match x.2 with Some a => k x.1 a | None => Panicked end.
Definition ended {A} (x : Ending A) : Outcome A := then_ x Done.

(** A task of several that are awaited together: its panic ends the waiting, as a
    success does. *)
Definition racing {A E} (x : Ending (result A E)) : Task (result (option A) E) :=
  (x.1, match x.2 with Some (Ok a) => Ok (Some a) | Some (Err e) => Err e | None => Ok None end).
Definition raced {A E} (x : Task (result (option A) E)) : Outcome (result A E) :=
  match x.2 with Ok (Some a) => Done x.1 (Ok a) | Err e => Done x.1 (Err e) | Ok None => Panicked end.

(** ** URLs of addresses *)

(** The configuration of the library for a server ([hickory_resolver::config]). *)
Inductive LibProtocol :=
| LpUdp | LpTcp
| LpTls (server_name : string)
| LpHttps (server_name path : string)
| LpQuic (server_name : string)
| LpH3 (server_name path : string) (disable_grease : bool).
Record LibConnection := mkLibConn { lc_protocol : LibProtocol; lc_port : Z }.
Record LibServer := mkLibServer { ls_ip : IpAddr; ls_connections : list LibConnection }.

Definition set_proto (p : ProtocolConfig) (u : DnsUrl) : DnsUrl :=
  mkUrl (url_name u) p (url_host u) (url_port_opt u) (url_params u) (url_options u).
Definition set_name (n : string) (u : DnsUrl) : DnsUrl :=
  mkUrl n (url_proto u) (url_host u) (url_port_opt u) (url_params u) (url_options u).
Definition set_port (p : Z) (u : DnsUrl) : DnsUrl :=
  mkUrl (url_name u) (url_proto u) (url_host u) (Some p) (url_params u) (url_options u).

(** [LibdnsConnectionConfig::from(&DnsUrl)] *)
Definition lib_connection (u : DnsUrl) : LibConnection :=
  mkLibConn
    match url_proto u with
    | ProtoUdp | ProtoSystem | ProtoDhcp _ => LpUdp
    | ProtoTcp => LpTcp
    | ProtoTls => LpTls (url_name u)
    | ProtoQuic => LpQuic (url_name u)
    | ProtoHttps path _ => LpHttps (url_name u) path
    | ProtoH3 path grease => LpH3 (url_name u) path grease
    end (url_port u).

Definition with_lib_protocol (p : LibProtocol) (u : DnsUrl) : DnsUrl :=
  match p with
  | LpUdp => set_proto ProtoUdp u
  | LpTcp => set_proto ProtoTcp u
  | LpTls n => set_proto ProtoTls (set_name n u)
  | LpHttps n path => set_proto (ProtoHttps path PreferAuto) (set_name n u)
  | LpQuic n => set_proto ProtoQuic (set_name n u)
  | LpH3 n path grease => set_proto (ProtoH3 path grease) (set_name n u)
  end.

Section Urls.
Context `{L : UrlLib} `{U : Unicode}.

(** [DnsUrl::from(IpAddr)]: the text of the address, which must parse. *)
Definition url_of_ip (ip : IpAddr) : option DnsUrl :=
  dns_url_from_str match ip with
                   | V4 _ => text_of (ip_show ip)
                   | V6 _ => text_of "[" ++ text_of (ip_show ip) ++ text_of "]"
                   end.

(** [DnsUrl::from(&LibdnsNameServerConfig)] *)
Definition url_of_config (c : LibServer) : option DnsUrl :=
  u ← url_of_ip (ls_ip c);
  Some match ls_connections c with
       | [] => u
       | conn :: _ => with_lib_protocol (lc_protocol conn) (set_port (lc_port conn) u)
       end.
End Urls.

(** ** Opening a TCP connection or a UDP socket ([proxy.rs]) *)
Abbreviation Auth := (option (string * string)).

Inductive NetStep :=
| TcpConnect (a : SocketAddr)
| SocksConnect (target : SocketAddr) (auth : Auth)
| HttpConnect (target : string) (port : Z) (auth : Auth)
| UdpBind (a : SocketAddr)
| SocksAssociate (auth : Auth).

(** The user, and the password or an empty one. *)
Definition proxy_auth (p : ProxyConfig) : Auth :=
  (fun user => (user, opt_unwrap_or EmptyString (px_password p))) <$> px_username p.

Definition connect_tcp_steps (server : SocketAddr) (proxy : option ProxyConfig) : list NetStep :=
  match proxy with
  | None => [TcpConnect server]
  | Some p =>
      TcpConnect (px_server p)
      :: match px_proto p with
         | Socks5 => [SocksConnect server (proxy_auth p)]
         | HttpProxy => [HttpConnect (ip_show (sa_ip server)) (sa_port server) (proxy_auth p)]
         end
  end.

(** None where the code is left to do, which panics. *)
Definition connect_udp_steps (local : SocketAddr) (proxy : option ProxyConfig) : option (list NetStep) :=
  match proxy with
  | None => Some [UdpBind local]
  | Some p =>
      match px_proto p with
      | Socks5 => Some [TcpConnect (px_server p); UdpBind local; SocksAssociate (proxy_auth p)]
      | HttpProxy => None
      end
  end.

(** ** The runtime's sockets *)
Record RuntimeProvider := mkRuntime { rp_proxy : option ProxyConfig; rp_so_mark : option Z; rp_device : option string }.

(** What is set on a socket; a setting that fails is only warned of. *)
Inductive SockSetting := SetMark (m : Z) | SetDevice (d : string) | SetBind (a : SocketAddr).

Definition setup_socket (bind_addr : option SocketAddr) (mark : option Z) (device : option string) : list SockSetting :=
  opt_map_or [] (fun m => [SetMark m]) mark ++ opt_map_or [] (fun d => [SetDevice d]) device
  ++ opt_map_or [] (fun a => [SetBind a]) bind_addr.

Inductive ConnError :=
| NoConnections
| SystemConfFails
| DhcpFails
| BadServerName
| Unsupported
| TimedOut
| NetFails (e : Z).

(** [next_random_udp]: ten random ports, then the address as it is. Binding may
    fail at one attempt and not at another. *)
Section RandomPort.
Context {Socket : Type}.
Variable bind : nat → SocketAddr → result Socket ConnError.

Fixpoint random_attempts (attempt : nat) (ip : IpAddr) (ports : list Z) : option Socket :=
  match ports with
  | [] => None
  | port :: ports =>
      match bind attempt (mkSocket ip port) with
      | Ok s => Some s
      | Err _ => random_attempts (S attempt) ip ports
      end
  end.

Definition ATTEMPT_RANDOM : nat := 10.
Definition next_random_udp (addr : SocketAddr) (ports : list Z) : result Socket ConnError :=
  match (if sa_port addr =? 0 then random_attempts 0 (sa_ip addr) (take ATTEMPT_RANDOM ports) else None) with
  | Some s => Ok s
  | None => bind ATTEMPT_RANDOM addr
  end.
End RandomPort.

(** ** One connection *)

(** How a connection is opened: what the library is given. *)
Inductive Opening :=
| OpenMdns (a : SocketAddr)
| OpenUdp (a : SocketAddr)
| OpenTcp (a : SocketAddr)
| OpenTls (a : SocketAddr) (server_name : string) (enable_sni : bool)
| OpenHttps (a : SocketAddr) (server_name path : string)
| OpenQuic (local a : SocketAddr) (server_name : string)
| OpenH3 (local a : SocketAddr) (server_name path : string) (disable_grease : bool).

(** [MDNS_IPV4] of the library: [224.0.0.251:5353]. *)
Definition MDNS_IPV4 : SocketAddr := mkSocket (V4 3758096635) 5353.

(** The unspecified address of a family. *)
Definition unspecified_like (a : SocketAddr) : SocketAddr :=
  mkSocket (match sa_ip a with V4 _ => V4 0 | V6 _ => V6 0 end) 0.

Section Opening.
Context `{L : UrlLib}.
(** [ServerName::try_from] of the TLS library: the names it takes. *)
Variable server_name_ok : string → bool.

(** [new_connection], up to the waiting for what it opens. *)
Definition new_connection (u : DnsUrl) (a : SocketAddr) : result Opening ConnError :=
  match url_proto u with
  | ProtoUdp => Ok (if bool_decide (a = MDNS_IPV4) then OpenMdns a else OpenUdp a)
  | ProtoTcp => Ok (OpenTcp a)
  | ProtoTls =>
      let name := host_show (url_host u) in
      if server_name_ok name then Ok (OpenTls a name false) else Err BadServerName
  | ProtoHttps path _ => Ok (OpenHttps a (url_name u) path)
  | ProtoQuic => Ok (OpenQuic (unspecified_like a) a (url_name u))
  | ProtoH3 path grease => Ok (OpenH3 (unspecified_like a) a (url_name u) path grease)
  | ProtoSystem | ProtoDhcp _ => Err Unsupported
  end.
End Opening.

(** [IpAddr::is_multicast] *)
Definition is_multicast (ip : IpAddr) : bool :=
  match ip with V4 a => a / 2 ^ 28 =? 14 | V6 a => a / 2 ^ 120 =? 255 end.

(** [Connection::new]: the client of this program for plain addresses, that of the
    library otherwise. *)
Inductive Connection := ConnUdp (a : SocketAddr) | ConnOther (c : LibConnection).
Definition connection_new (u : DnsUrl) : Connection :=
  match url_proto u, url_ip u with
  | ProtoUdp, Some ip => if is_multicast ip then ConnOther (lib_connection u) else ConnUdp (mkSocket ip (url_port u))
  | _, _ => ConnOther (lib_connection u)
  end.

(** [connect_tcp] of the runtime: the steps one after the other, given up after
    [timeout] or five seconds; the result is ready first when both are. *)
Definition SETUP_TIMEOUT : Z := millis 5000.

Section Steps.
Context {E : Type}.
Variable step : Instant → NetStep → Task (option Z).

(** Each step begins when the one before has ended; an error ends them. *)
Fixpoint run_steps (now : Instant) (steps : list NetStep) : Task (option Z) :=
  match steps with
  | [] => (now, None)
  | s :: steps =>
      let '(t, r) := step now s in
      match r with Some e => (t, Some e) | None => run_steps t steps end
  end.

Definition connect_tcp (rt : RuntimeProvider) (server : SocketAddr) (bind_addr : option SocketAddr)
    (timeout : option Z) (now : Instant) : Task (result (list SockSetting) ConnError) :=
  let wait_for := opt_unwrap_or SETUP_TIMEOUT timeout in
  let '(t, r) := run_steps now (connect_tcp_steps server (rp_proxy rt)) in
  if t <=? now + wait_for
  then (t, match r with None => Ok (setup_socket bind_addr (rp_so_mark rt) (rp_device rt)) | Some e => Err (NetFails e) end)
  else (now + wait_for, Err TimedOut).

(** [bind_udp] of the runtime; none is a panic. *)
Definition bind_udp (rt : RuntimeProvider) (local : SocketAddr) (now : Instant)
    : option (Task (result (list SockSetting) ConnError)) :=
  steps ← connect_udp_steps local (rp_proxy rt);
  let '(t, r) := run_steps now steps in
  Some (t, match r with None => Ok (setup_socket None (rp_so_mark rt) (rp_device rt)) | Some e => Err (NetFails e) end).
End Steps.

(** ** The provider of connections ([new_connection] of [ConnectionProvider]) *)
Section Provider.
Context `{L : UrlLib} `{U : Unicode} `{FL : FuturesLib} {Conn : Type}.
Variable server_name_ok : string → bool.
(** What this server listens on, and the addresses of its interfaces. *)
Variable listeners : list Listener.
Variable interfaces : list IpAddr.
(** [read_system_conf]; none when it fails. *)
Variable system_conf : option (list LibServer).
(** [discover_v4], and the lookup of addresses by the bootstrap resolver, if there
    is one; a lookup that fails has no addresses. *)
Variable discover : Instant → option string → Ending (option DhcpV4Reply).
Variable resolver : option (Instant → string → Ending (list IpAddr)).
(** Opening a connection, and the query that warms it up. *)
Variable open : Instant → Opening → Ending (result Conn ConnError).
Variable warmup : Instant → Conn → Ending bool.

Abbreviation Targets := (result (list (DnsUrl * list IpAddr)) ConnError).

(** The URLs that are not this server, each with its address. *)
Definition own_targets (urls : list DnsUrl) (change : DnsUrl → DnsUrl) : Targets :=
  match (without_own listeners interfaces urls).1 with
  | [] => Err NoConnections
  | urls => Ok (omap (fun url => ip ← url_ip url; Some (change url, [ip])) urls)
  end.

Definition dhcp_targets (now : Instant) (interface : option string) : Outcome Targets :=
  then_ (discover now interface) (fun t reply =>
    match reply with
    | None => Done t (Err DhcpFails)
    | Some reply =>
        match mapM url_of_ip (nameservers reply) with
        | None => Panicked
        | Some urls => Done t (own_targets urls (fun url => url))
        end
    end).

Definition system_targets (now : Instant) (server : DnsUrl) : Outcome Targets :=
  match system_conf with
  | None => Done now (Err SystemConfFails)
  | Some servers =>
      match mapM url_of_config servers with
      | None => Panicked
      | Some urls => Done now (own_targets urls (set_params (url_params server)))
      end
  end.

Definition domain_targets (now : Instant) (server : DnsUrl) (domain : string) : Outcome Targets :=
  match get_param ip_parse (url_params server) "ip" with
  | Some ip => Done now (Ok [(server, [ip])])
  | None =>
      match resolver with
      | None => Done now (Err NoConnections)
      | Some lookup_ip =>
          then_ (lookup_ip now domain) (fun t ips =>
            Done t (match ips with [] => Err NoConnections | _ => Ok [(server, ips)] end))
      end
  end.

Definition ip_targets (now : Instant) (server : DnsUrl) : Outcome Targets :=
  match url_proto server, url_host server with
  | ProtoSystem, _ => system_targets now server
  | ProtoDhcp interface, _ => dhcp_targets now interface
  | _, HostDomain domain => domain_targets now server domain
  | _, HostIpv4 a => Done now (Ok [(server, [V4 a])])
  | _, HostIpv6 a => Done now (Ok [(server, [V6 a])])
  end.

Definition server_addrs (targets : list (DnsUrl * list IpAddr)) : list (DnsUrl * list SocketAddr) :=
  (fun '(server, ips) => (server, (fun ip => mkSocket ip (url_port server)) <$> (ips : list IpAddr))) <$> targets.

(** HTTPS that is not restricted to HTTP/2. *)
Definition tries_h3 (u : DnsUrl) : bool :=
  match url_proto u with ProtoHttps _ prefer => negb (bool_decide (prefer = PreferH2)) | _ => false end.

(** The attempts for a server: a server, an address, and whether a connection that
    is ready waits before it counts. *)
Definition server_attempts (x : DnsUrl * list SocketAddr) : list (DnsUrl * SocketAddr * bool) :=
  let '(server, addrs) := x in
  match url_proto server with
  | ProtoHttps path prefer =>
      if bool_decide (prefer = PreferH2) then (fun a => (server, a, false)) <$> addrs
      else
        let h3 := set_proto (ProtoH3 path (is_set (url_params server) "disable_grease")) server in
        addrs ≫= fun a => [(h3, a, false); (server, a, bool_decide (prefer = PreferH3))]
  | _ => (fun a => (server, a, false)) <$> addrs
  end.

Definition connect_one (now : Instant) (server : DnsUrl) (a : SocketAddr) : Ending (result Conn ConnError) :=
  match new_connection server_name_ok server a with
  | Err e => (now, Some (Err e))
  | Ok o => open now o
  end.

Definition RACE_DELAY : Z := millis 50.

(** A connection is warmed up; one that does not answer, or comes second by
    preference, counts a little later. *)
Definition attempt (now : Instant) (x : DnsUrl * SocketAddr * bool) : Ending (result Conn ConnError) :=
  let '(server, a, delay) := x in
  let '(t, r) := connect_one now server a in
  match r with
  | None => (t, None)
  | Some (Err e) => (t, Some (Err e))
  | Some (Ok conn) =>
      let '(t, ok) := warmup t conn in
      match ok with
      | None => (t, None)
      | Some ok => (if negb ok || delay then t + RACE_DELAY else t, Some (Ok conn))
      end
  end.

(** The only address of a server, when there is one way to reach it. *)
Definition single (addrs : list (DnsUrl * list SocketAddr)) : option (DnsUrl * SocketAddr) :=
  match addrs with
  | [(server, [a])] => if tries_h3 server then None else Some (server, a)
  | _ => None
  end.

Definition connect (now : Instant) (server : DnsUrl) : Outcome (result Conn ConnError) :=
  out_bind (ip_targets now server) (fun now targets =>
    match targets with
    | Err e => Done now (Err e)
    | Ok targets =>
        let addrs := server_addrs targets in
        match single addrs with
        | Some (server, a) => ended (connect_one now server a)
        | None =>
            match addrs ≫= server_attempts with
            | [] => Panicked
            | attempts => raced (select_ok NoConnections (length attempts) now (racing ∘ attempt now <$> attempts))
            end
        end
    end).
End Provider.
