(* ===== verification/ConnectSpec.v ===== *)
(** * Connections to upstream servers: what is reached, and by whom

    The URL of an address has that address; the provider of connections tries
    every way there is to each address of a server and takes the connection that
    counts first, and when it panics. *)

From S2P Require Import Prelude Names Config Text Dhcp Message Context DnsUrl Tasks Ping ConfigItems Nom ParseValues ParseServers ParseIp Connect.

(** ** The URL of an address *)

(** What the library makes of the URL of an address: for a scheme it does not know
    an IPv4 address is a name. *)
Class UrlIpLaws `{UrlLib} : Prop := {
  url_parse_v4 a : 0 ≤ a < 2 ^ 32 →
    ∃ path, url_parse (text_of "udp://" ++ text_of (ip_show (V4 a)))
            = Some (mkUrlParts "udp" (Some (HostDomain (ip_show (V4 a)))) None path None None "" None);
  url_parse_v6 a : 0 ≤ a < 2 ^ 128 →
    ∃ path, url_parse (text_of "udp://" ++ text_of "[" ++ text_of (ip_show (V6 a)) ++ text_of "]")
            = Some (mkUrlParts "udp" (Some (HostIpv6 a)) None path None None "" None);
  form_parse_empty : form_parse EmptyString = [];
}.

(** A character of an address: a digit in lower case, a dot or a colon. *)
Definition ip_char (c : Z) : bool := ((46 <=? c) && (c <=? 58) && negb (c =? 47)) || ((97 <=? c) && (c <=? 102)).

Lemma number_chars radix fuel n : 2 ≤ radix ≤ 16 → 0 ≤ n → forallb ip_char (number_digits radix fuel n) = true.
Proof.
  intros Hr Hn. apply number_digits_chars; [lia| |done]. intros d Hd. unfold ip_char, digit_char. case_match; lia.
Qed.

Lemma ipv4_chars a : forallb ip_char (show_ipv4 a) = true.
Proof.
  unfold show_ipv4. rewrite !forallb_app, !number_chars by (lia || (apply Z.mod_pos_bound; lia)). done.
Qed.

Lemma groups_chars gs : Forall (fun g => 0 ≤ g < 65536) gs → forallb ip_char (show_groups gs) = true.
Proof.
  intros Hg. induction gs as [|g gs IH]; [done|]. apply Forall_cons_1 in Hg as [Hg Hgs]. cbn [show_groups].
  destruct gs as [|g' gs]; [apply number_chars; lia|].
  rewrite !forallb_app, number_chars, IH by (done || lia). done.
Qed.

Lemma ipv6_chars a : forallb ip_char (show_ipv6 a) = true.
Proof.
  unfold show_ipv6. case_match; [rewrite forallb_app, ipv4_chars; done|].
  pose proof (segments_groups a) as Hg. destruct (longest_zeros _ _ _ _) as [start len]. case_match.
  - rewrite !forallb_app, !groups_chars; [done|by apply Forall_drop|by apply Forall_take].
  - by apply groups_chars.
Qed.

Lemma bytes_of_text_of_bytes l : Forall (fun c => 0 ≤ c < 256) l → bytes_of_string (text_of_bytes l) = l.
Proof.
  intros Hl. unfold bytes_of_string, text_of_bytes. rewrite String.list_ascii_of_string_of_list_ascii, <- list_fmap_compose.
  induction Hl as [|c l Hc Hl IH]; [done|]. cbn [fmap list_fmap]. rewrite IH. f_equal. unfold compose.
  rewrite Ascii.nat_ascii_embedding by lia. lia.
Qed.

Lemma show_text ip : text_of (ip_show ip) = show_ip ip ∧ forallb ip_char (show_ip ip) = true.
Proof.
  assert (Hc : forallb ip_char (show_ip ip) = true) by (destruct ip; [apply ipv4_chars|apply ipv6_chars]).
  split; [|done]. unfold text_of, ip_show. assert (Hb : Forall (fun c => 0 ≤ c < 256) (show_ip ip)).
  { rewrite Forall_forall. intros c Hin. rewrite forallb_forall in Hc. apply list_elem_of_In, Hc in Hin.
    unfold ip_char in Hin. lia. }
  destruct ip; by apply bytes_of_text_of_bytes.
Qed.

(** The standard library reads an IPv4 address as it prints it. *)
Lemma no_zero_prefix n r : 0 ≤ n < 256 →
  bool_decide (head (number_digits 10 3 n ++ r) = Some 48) && (1 <? length (number_digits 10 3 n))%nat = false.
Proof.
  intros Hn. assert (Hall : forallb (fun n => negb (bool_decide (head (number_digits 10 3 n) = Some 48) && (1 <? length (number_digits 10 3 n))%nat))
                              (seqZ 0 256) = true) by (by vm_compute).
  rewrite forallb_forall in Hall. specialize (Hall n). rewrite <- list_elem_of_In in Hall.
  specialize (Hall ltac:(apply elem_of_seqZ; lia)). apply negb_true_iff in Hall.
  pose proof (number_digits_length 10 3 n ltac:(done)) as Hlen.
  destruct (number_digits 10 3 n) as [|c l]; [cbn in Hlen; lia|]. cbn [head app] in *. done.
Qed.

Lemma read_octet_number n r :
  0 ≤ n < 256 → opt_map_or true (fun c => negb (is_some (digit_val 10 c))) (head r) = true →
  read_octet 0 (number_digits 10 3 n ++ r) = Some (n, r).
Proof.
  intros Hn Hr. unfold read_octet, read_separator, read_number. rewrite digits_number by (lia || done).
  rewrite Z.mul_0_l, !Nat.add_0_l, Z.add_0_l. pose proof (number_digits_length 10 3 n ltac:(done)) as Hlen.
  assert (Ed : digits 10 n (length (number_digits 10 3 n)) r = (n, length (number_digits 10 3 n), r)).
  { destruct r as [|c r]; [done|]. cbn in *. by destruct (digit_val 10 c). }
  rewrite Ed, (proj2 (Nat.ltb_ge _ _)), (proj2 (Nat.eqb_neq _ _)) by lia. cbn [orb negb andb].
  by rewrite no_zero_prefix, (proj2 (Z.leb_le _ _)) by lia.
Qed.

Lemma read_dot_octet i n r :
  0 ≤ n < 256 → opt_map_or true (fun c => negb (is_some (digit_val 10 c))) (head r) = true →
  read_octet (S i) (46 :: number_digits 10 3 n ++ r) = Some (n, r).
Proof. intros Hn Hr. rewrite <- (read_octet_number n r) by done. done. Qed.

Lemma ipv4_octets a : 0 ≤ a < 2 ^ 32 →
  ((a / 16777216 mod 256 * 256 + a / 65536 mod 256) * 256 + a / 256 mod 256) * 256 + a mod 256 = a.
Proof.
  intros Ha. pose proof (Z.div_mod a 256 ltac:(lia)). pose proof (Z.div_mod (a / 256) 256 ltac:(lia)) as H1.
  pose proof (Z.div_mod (a / 65536) 256 ltac:(lia)) as H2. rewrite Z.div_div in H1 by lia. rewrite Z.div_div in H2 by lia.
  change (256 * 256) with 65536 in H1. change (65536 * 256) with 16777216 in H2.
  rewrite (Z.mod_small (a / 16777216)); [lia|]. split; [apply Z.div_pos; lia|apply Z.div_lt_upper_bound; lia].
Qed.

Lemma ip_parse_show_v4 a : 0 ≤ a < 2 ^ 32 → ip_parse (ip_show (V4 a)) = Some (V4 a).
Proof.
  intros Ha. unfold ip_parse. change (bytes_of_string (ip_show (V4 a))) with (text_of (ip_show (V4 a))).
  rewrite (proj1 (show_text (V4 a))). cbn [show_ip]. unfold ip_of_bytes, read_ipv4, show_ipv4. cbn [app].
  pose proof (fun n => Z.mod_pos_bound n 256 ltac:(lia)) as Hm.
  rewrite read_octet_number by done. cbn [mbind option_bind].
  rewrite read_dot_octet by done. cbn [mbind option_bind].
  rewrite read_dot_octet by done. cbn [mbind option_bind].
  rewrite <- (app_nil_r (number_digits 10 3 (a mod 256))), read_dot_octet by done. cbn [mbind option_bind].
  by rewrite ipv4_octets.
Qed.

(** A text without a slash has no scheme. *)
Lemma no_scheme t : 47 ∉ t → split_once scheme_end t = None.
Proof.
  intros Ht. induction t as [|c t IH]; [done|]. cbn [split_once].
  destruct (strip_prefix scheme_end (c :: t)) as [r|] eqn:E.
  - exfalso. apply Ht. revert E. unfold scheme_end. change (text_of "://") with [58; 47; 47]. cbn [strip_prefix].
    destruct (58 =? c); [|done]. destruct t as [|d t]; [done|]. destruct (Z.eqb_spec 47 d) as [->|]; [|done].
    intros _. right. by left.
  - rewrite IH; [done|]. intros Hin. apply Ht. by right.
Qed.

Section UrlOfIp.
Context `{L : UrlLib} `{!UrlIpLaws} `{U : Unicode} `{!UnicodeLaws}.

(** The text of an address with its brackets. *)
Definition ip_text (ip : IpAddr) : text :=
  match ip with V4 _ => text_of (ip_show ip) | V6 _ => text_of "[" ++ text_of (ip_show ip) ++ text_of "]" end.

Definition url_char (c : Z) : bool := ip_char c || (c =? 91) || (c =? 93).

Lemma ip_text_chars ip : forallb url_char (ip_text ip) = true.
Proof.
  destruct (show_text ip) as [Ht Hc]. assert (Hu : forallb url_char (show_ip ip) = true).
  { rewrite forallb_forall in *. intros c Hin. unfold url_char. by rewrite Hc. }
  destruct ip; unfold ip_text; rewrite Ht; [done|]. by rewrite !forallb_app, Hu.
Qed.

Lemma ip_text_lower ip : str_to_lowercase (ip_text ip) = ip_text ip.
Proof.
  pose proof (ip_text_chars ip) as Hc. rewrite forallb_forall in Hc. rewrite str_to_lowercase_ascii.
  - unfold text_lower. transitivity (id <$> ip_text ip); [|apply list_fmap_id]. apply list_fmap_ext. intros i c Hin.
    apply list_elem_of_lookup_2, list_elem_of_In, Hc in Hin. unfold url_char, ip_char in Hin. unfold ascii_lower.
    case_match; [lia|done].
  - rewrite Forall_forall. intros c Hin. apply list_elem_of_In, Hc in Hin. unfold url_char, ip_char in Hin. unfold is_ascii. lia.
Qed.

(** The URL of an address is that of a plain server at the address. *)
Lemma url_of_ip_ok ip : ip_ok ip → ∃ u, url_of_ip ip = Some u ∧ url_ip u = Some ip ∧ url_proto u = ProtoUdp ∧ url_port u = 53.
Proof.
  intros Hip. pose proof (ip_text_chars ip) as Hc. change (url_of_ip ip) with (dns_url_from_str (ip_text ip)).
  assert (Hno : ∀ w, forallb url_char w = false → ip_text ip ≠ w) by (intros w Hw E; rewrite E in Hc; congruence).
  assert (Hs : split_once scheme_end (ip_text ip) = None).
  { apply no_scheme. rewrite forallb_forall in Hc. intros Hin. by apply list_elem_of_In, Hc in Hin. }
  unfold dns_url_from_str. rewrite ip_text_lower. rewrite !bool_decide_false by (by apply Hno). rewrite Hs. cbn [is_some].
  assert (Hparse : ∃ path host, url_parse (text_of "udp://" ++ ip_text ip) = Some (mkUrlParts "udp" (Some host) None path None None "" None)
                           ∧ host_of host = match ip with V4 a => HostIpv4 a | V6 a => HostIpv6 a end).
  { unfold ip_text. destruct ip as [a|a]; cbn [ip_ok] in Hip.
    - destruct (url_parse_v4 a Hip) as (path & ->). exists path. eexists. split; [done|]. cbn [host_of]. by rewrite ip_parse_show_v4.
    - destruct (url_parse_v6 a Hip) as (path & ->). exists path. eexists. split; done. }
  destruct Hparse as (path & host & -> & Hhost). cbn [mbind option_bind ul_host ul_scheme ul_query ul_fragment ul_port opt_unwrap_or fmap option_fmap option_map].
  rewrite Hhost. unfold params_from. rewrite form_parse_empty. cbn [fold_left].
  rewrite bool_decide_false by done. change (protocol_of_scheme "udp") with (Some PUdp). cbn [mbind option_bind].
  unfold take_host_param. change ((∅ : Params) !! "host"%string) with (@None string). eexists. split; [done|].
  destruct ip; done.
Qed.
End UrlOfIp.

(** ** The servers of the system and of the network *)
Lemma with_lib_protocol_ip p u : url_ip (with_lib_protocol p u) = url_ip u.
Proof. by destruct p. Qed.

(** A protocol that [new_connection] can open. *)
Definition opens (u : DnsUrl) : Prop := match url_proto u with ProtoSystem | ProtoDhcp _ => False | _ => True end.

Section Found.
Context `{L : UrlLib} `{!UrlIpLaws} `{U : Unicode} `{!UnicodeLaws}.

Definition has_address (u : DnsUrl) : Prop := (∃ ip, url_ip u = Some ip) ∧ opens u.

Lemma url_of_config_ok c : ip_ok (ls_ip c) → ∃ u, url_of_config c = Some u ∧ has_address u.
Proof.
  intros Hip. destruct (url_of_ip_ok _ Hip) as (u & Hu & Hi & Hp & _). unfold url_of_config. rewrite Hu. cbn [mbind option_bind].
  eexists. split; [done|]. destruct (ls_connections c) as [|conn l].
  - split; [eauto|]. unfold opens. by rewrite Hp.
  - split; [rewrite with_lib_protocol_ip; exists (ls_ip c); by rewrite <- Hi|]. by destruct (lc_protocol conn).
Qed.

(** Mapping a function that always succeeds, and what holds of what it gives. *)
Lemma mapM_all {A B} (f : A → option B) (P : B → Prop) l :
  Forall (fun x => ∃ y, f x = Some y ∧ P y) l → ∃ k, mapM f l = Some k ∧ Forall P k.
Proof.
  induction 1 as [|x l (y & Hf & Hy) _ (k & Hk & HP)]; [by eexists|]. exists (y :: k). cbn.
  rewrite Hf. cbn. rewrite Hk. cbn. split; [done|by constructor].
Qed.

Variable listeners : list Listener.
Variable interfaces : list IpAddr.

(** What there is to connect to: something, all of it with addresses. *)
Definition targets_ok (targets : list (DnsUrl * list IpAddr)) : Prop :=
  targets ≠ [] ∧ Forall (fun x => x.2 ≠ [] ∧ opens x.1) targets.

Lemma own_targets_ok urls change :
  Forall has_address urls → (∀ u, opens u → opens (change u)) →
  match own_targets listeners interfaces urls change with Ok l => targets_ok l | Err _ => True end.
Proof.
  intros Hu Hc. unfold own_targets, without_own. cbn [fst].
  set (kept := List.filter _ urls). assert (Hk : Forall has_address kept).
  { rewrite Forall_forall in *. intros u Hin. apply Hu. subst kept.
    apply list_elem_of_In, filter_In in Hin as [Hin _]. by apply list_elem_of_In. }
  assert (Hmap : ∀ l, Forall has_address l →
    omap (fun url => ip ← url_ip url; Some (change url, [ip])) l = (fun url => (change url, match url_ip url with Some ip => [ip] | None => [] end)) <$> l).
  { induction l as [|v l IH]; [done|]. intros [[[ip Hip] _] Hl]%Forall_cons_1. cbn [omap list_omap fmap list_fmap].
    rewrite Hip. cbn [mbind option_bind]. f_equal. by apply IH. }
  destruct kept as [|u kept]; [done|]. rewrite Hmap by done. split; [done|]. apply Forall_fmap.
  eapply Forall_impl; [exact Hk|]. intros v [[ip Hip] Hv]. cbn. rewrite Hip. split; [done|by apply Hc].
Qed.
End Found.

(** ** The ways to a server *)

(** The server over HTTP/3. *)
Definition h3_of (server : DnsUrl) : DnsUrl :=
  match url_proto server with
  | ProtoHttps path _ => set_proto (ProtoH3 path (is_set (url_params server) "disable_grease")) server
  | _ => server
  end.
Definition prefers_h3 (server : DnsUrl) : bool :=
  match url_proto server with ProtoHttps _ PreferH3 => true | _ => false end.

(** HTTPS is tried over HTTP/3 too, unless the URL restricts it to HTTP/2; where it
    prefers HTTP/3, HTTP/2 is delayed. *)
Definition way (server u : DnsUrl) (delay : bool) : Prop :=
  if tries_h3 server then (u = h3_of server ∧ delay = false) ∨ (u = server ∧ delay = prefers_h3 server)
  else u = server ∧ delay = false.

(** A way to an address of one of the targets. *)
Definition candidate (targets : list (DnsUrl * list IpAddr)) (u : DnsUrl) (a : SocketAddr) (delay : bool) : Prop :=
  ∃ server ips ip, (server, ips) ∈ targets ∧ ip ∈ ips ∧ a = mkSocket ip (url_port server) ∧ way server u delay.

Lemma elem_server_attempts u a d server addrs :
  (u, a, d) ∈ server_attempts (server, addrs) ↔ a ∈ addrs ∧ way server u d.
Proof.
  unfold server_attempts, way, tries_h3, h3_of, prefers_h3.
  assert (Hplain : (u, a, d) ∈ (fun a => (server, a, false)) <$> addrs ↔ a ∈ addrs ∧ u = server ∧ d = false).
  { rewrite list_elem_of_fmap. split; [by intros (? & [= -> -> ->] & ?)|]. intros (Ha & -> & ->). eauto. }
  destruct (url_proto server) as [| | |path prefer| |path grease| |interface]; try done.
  destruct (decide (prefer = PreferH2)) as [->|Hp]; [done|].
  rewrite bool_decide_false by done. cbn [negb]. rewrite list_elem_of_bind. split.
  - intros (b & Hb & Hin). rewrite !elem_of_cons in Hb. destruct Hb as [[= -> -> ->]|[[= -> -> ->]|Hb]].
    + split; [done|by left].
    + split; [done|]. right. split; [done|]. by destruct prefer.
    + by apply elem_of_nil in Hb.
  - intros (Ha & [[-> ->]|[-> ->]]); exists a; (split; [|done]); [by left|]. right.
    destruct prefer; by left.
Qed.

Lemma elem_attempts u a d targets : (u, a, d) ∈ server_addrs targets ≫= server_attempts ↔ candidate targets u a d.
Proof.
  rewrite list_elem_of_bind. split.
  - intros ([server addrs] & Hx & Hin). apply elem_server_attempts in Hx as [Ha Hw].
    unfold server_addrs in Hin. apply list_elem_of_fmap in Hin as ([s ips] & [= -> ->] & Hin).
    apply list_elem_of_fmap in Ha as (ip & -> & Hip). by exists s, ips, ip.
  - intros (server & ips & ip & Hin & Hip & -> & Hw). exists (server, (fun ip => mkSocket ip (url_port server)) <$> ips).
    split; [apply elem_server_attempts; split; [|done]; apply list_elem_of_fmap; eauto|].
    unfold server_addrs. apply list_elem_of_fmap. by exists (server, ips).
Qed.

Lemma candidate_opens targets u a d : targets_ok targets → candidate targets u a d → opens u.
Proof.
  intros [_ Ht] (server & ips & ip & Hin & _ & _ & Hw). rewrite Forall_forall in Ht. destruct (Ht _ Hin) as [_ Ho].
  cbn [fst] in Ho. revert Hw. unfold way, h3_of. case_match; [|by intros [-> _]].
  intros [[-> _]|[-> _]]; [|done]. by case_match.
Qed.

Lemma targets_candidate targets : targets_ok targets → ∃ u a d, candidate targets u a d.
Proof.
  intros [Hne Ht]. destruct targets as [|[server ips] l]; [done|]. apply Forall_cons_1 in Ht as [[Hips _] _]. cbn in Hips.
  destruct ips as [|ip ips]; [done|]. destruct (tries_h3 server) eqn:E.
  - exists (h3_of server), (mkSocket ip (url_port server)), false, server, (ip :: ips), ip.
    split_and!; [by left..|done|]. unfold way. rewrite E. by left.
  - exists server, (mkSocket ip (url_port server)), false, server, (ip :: ips), ip.
    split_and!; [by left..|done|]. unfold way. by rewrite E.
Qed.

(** The only address there is. *)
Lemma single_candidate targets server a u a' d :
  single (server_addrs targets) = Some (server, a) → candidate targets u a' d ↔ u = server ∧ a' = a ∧ d = false.
Proof.
  intros Hs. rewrite <- elem_attempts. unfold single in Hs.
  destruct (server_addrs targets) as [|[s [|b [|]]] [|]]; try done. destruct (tries_h3 s) eqn:E; [done|]. injection Hs as -> ->.
  cbn [mbind list_bind]. rewrite app_nil_r, elem_server_attempts. unfold way. rewrite E, list_elem_of_singleton. tauto.
Qed.

(** ** The race *)
Section Race.
Context `{L : UrlLib} `{!UrlIpLaws} `{U : Unicode} `{!UnicodeLaws} `{FL : FuturesLib} `{!FuturesLaws} {Conn : Type}.
Variable server_name_ok : string → bool.
Variable listeners : list Listener.
Variable interfaces : list IpAddr.
Variable system_conf : option (list LibServer).
Variable discover : Instant → option string → Ending (option DhcpV4Reply).
Variable resolver : option (Instant → string → Ending (list IpAddr)).
Variable open : Instant → Opening → Ending (result Conn ConnError).
Variable warmup : Instant → Conn → Ending bool.
(** The sockets the library opens connections with. *)
Variable rt : RuntimeProvider.

(** Addresses are those of their families, and the answer to the warming query
    comes after the query. *)
Hypothesis system_ok : ∀ servers, system_conf = Some servers → Forall (fun c => ip_ok (ls_ip c)) servers.
Hypothesis discover_ok : ∀ now i r, (discover now i).2 = Some (Some r) → Forall ip_ok (nameservers r).
Hypothesis warmup_later : ∀ now c, now ≤ (warmup now c).1.

(** The library panics only where what it calls does: a connection over UDP binds
    its sockets with the runtime's [bind_udp], when it is opened or when it is first
    asked. *)
Definition udp_panics : Prop := ∃ l, connect_udp_steps l (rp_proxy rt) = None.
Hypothesis open_panics : ∀ now o, (open now o).2 = None → (∃ a, o = OpenUdp a) ∧ udp_panics.
Hypothesis warmup_panics : ∀ now o c t, (open now o).2 = Some (Ok c) → (warmup t c).2 = None → (∃ a, o = OpenUdp a) ∧ udp_panics.
Hypothesis udp_binds : ∀ now a c t, (open now (OpenUdp a)).2 = Some (Ok c) → udp_panics → (warmup t c).2 = None.

Abbreviation ip_targets := (ip_targets listeners interfaces system_conf discover resolver).
Abbreviation connect := (connect server_name_ok listeners interfaces system_conf discover resolver open warmup).
Abbreviation connect_one := (connect_one server_name_ok open).
Abbreviation attempt := (attempt server_name_ok open warmup).

(** The addresses of a server are looked for by what panics. *)
Definition finding_panics (now : Instant) (server : DnsUrl) : Prop :=
  match url_proto server, url_host server with
  | ProtoSystem, _ => False
  | ProtoDhcp i, _ => (discover now i).2 = None
  | _, HostDomain d =>
      get_param ip_parse (url_params server) "ip" = None ∧ ∃ lookup_ip, resolver = Some lookup_ip ∧ (lookup_ip now d).2 = None
  | _, _ => False
  end.

Lemma ip_targets_ok now server :
  (ip_targets now server = Panicked ∧ finding_panics now server) ∨
  ∃ t targets, ip_targets now server = Done t targets ∧ ¬ finding_panics now server ∧
    match targets with Ok l => targets_ok l | Err _ => True end.
Proof.
  assert (Hip : ∀ ips, ips ≠ [] → opens server → targets_ok [(server, ips)]) by (intros ips Ho; split; [done|]; by repeat constructor).
  assert (Hd : ∀ domain (P : Prop), opens server → url_host server = HostDomain domain →
    (P ↔ get_param ip_parse (url_params server) "ip" = None ∧ ∃ lookup_ip, resolver = Some lookup_ip ∧ (lookup_ip now domain).2 = None) →
    (domain_targets resolver now server domain = Panicked ∧ P) ∨
    ∃ t targets, domain_targets resolver now server domain = Done t targets ∧ ¬ P ∧ match targets with Ok l => targets_ok l | Err _ => True end).
  { intros domain P Ho _ HP. setoid_rewrite HP. unfold domain_targets. destruct (get_param _ _ _) as [ip|].
    { right. eexists _, _. split; [done|]. split; [naive_solver|by apply Hip]. }
    destruct resolver as [lookup_ip|]; [|right; eexists _, _; split; [done|split; [naive_solver|done]]].
    unfold then_. destruct ((lookup_ip now domain).2) as [ips|] eqn:E; [right|left; split; [done|split; [done|by exists lookup_ip]]].
    eexists _, _. split; [done|]. split; [intros (_ & f & [= <-] & Hf); congruence|]. destruct ips; [done|by apply Hip]. }
  unfold Connect.ip_targets, finding_panics. destruct (url_proto server) as [| | |path prefer| |path grease| |interface] eqn:Ep.
  all: try (assert (Ho : opens server) by (unfold opens; by rewrite Ep);
            destruct (url_host server) as [d| |] eqn:Eh; [by apply (Hd d _ Ho)|right; eexists _, _; split; [done|split; [tauto|by apply Hip]]..]).
  - right. unfold system_targets. destruct system_conf as [servers|] eqn:Es; [|eexists _, _; split; [done|split; [tauto|done]]].
    destruct (mapM_all url_of_config has_address servers) as (urls & -> & Hu).
    { eapply Forall_impl; [by apply system_ok|]. intros c. apply url_of_config_ok. }
    eexists _, _. split; [done|]. split; [tauto|]. by apply own_targets_ok.
  - unfold dhcp_targets, then_. destruct ((discover now interface).2) as [[r|]|] eqn:Es; [right|right|by left]; [|eexists _, _; split; [done|split; [done|done]]].
    destruct (mapM_all url_of_ip has_address (nameservers r)) as (urls & -> & Hu).
    { eapply Forall_impl; [by apply (discover_ok now interface)|]. intros ip Hi.
      destruct (url_of_ip_ok ip Hi) as (u & Hu & ? & Hp & _). exists u. split; [done|]. split; [eauto|]. unfold opens. by rewrite Hp. }
    eexists _, _. split; [done|]. split; [done|]. by apply own_targets_ok.
Qed.

(** An attempt ends as its connection is opened, and no sooner; it panics only over
    UDP. *)
Definition fails {A E} (x : Ending (result A E)) : Prop := ∃ e, x.2 = Some (Err e).

Lemma attempt_one now u a d :
  let one := connect_one now u a in
  let x := attempt now (u, a, d) in
  one.1 ≤ x.1 ∧ (fails x ↔ fails one) ∧ (∀ c, x.2 = Some (Ok c) → one.2 = Some (Ok c)) ∧
  (x.2 = None → url_proto u = ProtoUdp ∧ a ≠ MDNS_IPV4 ∧ udp_panics) ∧
  (url_proto u = ProtoUdp → a ≠ MDNS_IPV4 → udp_panics → ¬ fails one → x.2 = None).
Proof.
  assert (Hopen : ∀ o b, new_connection server_name_ok u a = Ok o → o = OpenUdp b → url_proto u = ProtoUdp ∧ a ≠ MDNS_IPV4).
  { unfold new_connection. intros o b. destruct (url_proto u); try (repeat case_match; by intros [= <-]).
    case_bool_decide; by intros [= <-]. }
  cbn zeta. unfold Connect.attempt, fails, Connect.connect_one. destruct (new_connection server_name_ok u a) as [o|e] eqn:Eo.
  2: { cbn. split_and!; [done|done|done|done|]. intros _ _ _ Hf. destruct Hf. by eexists. }
  pose proof (open_panics now o) as Hpanic. pose proof (warmup_panics now o) as Hwpanic.
  pose proof (fun a c t => udp_binds now a c t) as Hbind.
  destruct (open now o) as [t [[c|e]|]] eqn:E1; cbn [snd fst] in *.
  - pose proof (warmup_later t c) as Hl. specialize (Hwpanic c t eq_refl). destruct (warmup t c) as [t' [ok|]] eqn:E2; cbn [snd fst] in *.
    + unfold RACE_DELAY, millis. split_and!; [case_match; lia|naive_solver|naive_solver|done|].
      intros Hu Ha Hp _. assert (o = OpenUdp a) as ->.
      { unfold new_connection in Eo. rewrite Hu, bool_decide_false in Eo by done. by injection Eo as <-. }
      specialize (Hbind a c t). rewrite E1, E2 in Hbind. by specialize (Hbind eq_refl Hp).
    + destruct (Hwpanic eq_refl) as [[b Hb] Hp]. destruct (Hopen o b eq_refl Hb). split_and!; [done|naive_solver|done|done|done].
  - split_and!; [done|done|done|done|]. intros _ _ _ Hf. destruct Hf. by eexists.
  - destruct (Hpanic eq_refl) as [[b Hb] Hp]. destruct (Hopen o b eq_refl Hb). split_and!; [done|naive_solver|done|done|done].
Qed.

Lemma race_first now l :
  l ≠ [] →
  match raced (select_ok NoConnections (length l) now (racing ∘ attempt now <$> l)) with
  | Done t (Ok conn) => (∃ y, y ∈ l ∧ attempt now y = (t, Some (Ok conn))) ∧
                        ∀ y, y ∈ l → ¬ fails (attempt now y) → t ≤ (attempt now y).1
  | Done _ (Err _) => ∀ y, y ∈ l → fails (attempt now y)
  | Panicked => ∃ x, x ∈ l ∧ (attempt now x).2 = None ∧
                     ∀ y, y ∈ l → ¬ fails (attempt now y) → (attempt now x).1 ≤ (attempt now y).1
  | OutOfFuel => False
  end.
Proof.
  intros Hne. destruct (select_ok_first NoConnections (length l) now (racing ∘ attempt now <$> l)) as [Hx Hr];
    [by destruct l|by rewrite length_fmap|]. revert Hx Hr. generalize (select_ok NoConnections (length l) now (racing ∘ attempt now <$> l)) as x.
  intros x Hx Hr. apply list_elem_of_fmap in Hx as (y & -> & Hin).
  assert (Hmin : ∀ z, z ∈ l → ¬ fails (attempt now z) → is_ok (racing (attempt now z)).2 = true).
  { intros z _ Hz. unfold racing, fails in *. cbn. destruct ((attempt now z).2) as [[c|e]|]; [done| |done]. destruct Hz. by eexists. }
  unfold raced, compose in *. unfold racing at 1. cbn [fst snd]. unfold racing at 1 in Hr. cbn [fst snd] in Hr.
  destruct ((attempt now y).2) as [[conn|e]|] eqn:E.
  - split; [exists y; split; [done|]; unfold racing; cbn; rewrite <- E; by destruct (attempt now y)|].
    intros z Hz Hf. apply (Hr (racing (attempt now z))); [apply list_elem_of_fmap; by exists z|by apply Hmin].
  - intros z Hz. destruct (Hr (racing (attempt now z))) as [Hz' _]; [apply list_elem_of_fmap; by exists z|].
    unfold racing, fails in *. cbn in Hz'. destruct ((attempt now z).2) as [[?|e']|]; [done|by exists e'|done].
  - exists y. split_and!; [done|done|]. intros z Hz Hf.
    apply (Hr (racing (attempt now z))); [apply list_elem_of_fmap; by exists z|by apply Hmin].
Qed.

End Race.

(** ** Sockets *)

(** A random port is taken when the port is left open; with ten that fail, or a
    port that is given, the address is bound as it is. *)
Lemma next_random_udp_spec {Socket} (bind : nat → SocketAddr → result Socket ConnError) addr ports s :
  next_random_udp bind addr ports = Ok s →
  bind ATTEMPT_RANDOM addr = Ok s ∨
  (sa_port addr = 0 ∧ ∃ i p, take 10 ports !! i = Some p ∧ bind i (mkSocket (sa_ip addr) p) = Ok s).
Proof.
  assert (Hr : ∀ l k s, random_attempts bind k (sa_ip addr) l = Some s →
                 ∃ i p, l !! i = Some p ∧ bind (k + i)%nat (mkSocket (sa_ip addr) p) = Ok s).
  { induction l as [|p l IH]; intros k s'; [done|]. cbn. destruct (bind k _) as [s1|e] eqn:E.
    - intros [= ->]. exists 0%nat, p. split; [done|]. by rewrite Nat.add_0_r.
    - intros Hs. destruct (IH _ _ Hs) as (i & q & Hi & Hb). exists (S i), q. split; [done|]. by rewrite Nat.add_succ_r. }
  unfold next_random_udp. destruct (Z.eqb_spec (sa_port addr) 0) as [Hp|Hp]; [|by left].
  destruct (random_attempts _ _ _ _) as [s1|] eqn:E; [|by left]. intros [= ->]. right. split; [done|].
  by apply (Hr _ 0%nat).
Qed.

(** A UDP server behind an HTTP proxy panics: that is left to do. *)
Lemma udp_http_proxy_panics step rt local now :
  option_map px_proto (rp_proxy rt) = Some HttpProxy → bind_udp step rt local now = None.
Proof. unfold bind_udp, connect_udp_steps. destruct (rp_proxy rt) as [p|]; [|done]. cbn. by intros [= ->]. Qed.

(** A TCP connection is given up in time. *)
Lemma connect_tcp_ends (step : Instant → NetStep → Task (option Z)) rt server bind_addr timeout now :
  (∀ now s, now ≤ (step now s).1) → 0 ≤ opt_unwrap_or SETUP_TIMEOUT timeout →
  now ≤ (connect_tcp step rt server bind_addr timeout now).1 ≤ now + opt_unwrap_or SETUP_TIMEOUT timeout.
Proof.
  intros Hs Ht. assert (Hrun : ∀ steps now, now ≤ (run_steps step now steps).1).
  { induction steps as [|s steps IH]; intros n; cbn; [lia|]. pose proof (Hs n s). destruct (step n s) as [t [e|]]; cbn in *; [done|].
    specialize (IH t). lia. }
  unfold connect_tcp. specialize (Hrun (connect_tcp_steps server (rp_proxy rt)) now).
  destruct (run_steps _ _ _) as [t r]. cbn in Hrun. destruct (Z.leb_spec t (now + opt_unwrap_or SETUP_TIMEOUT timeout)); cbn; lia.
Qed.

(** What the library is told of a server's protocol, and reads of it again. *)
Lemma lib_connection_back u :
  opens u → url_port (with_lib_protocol (lc_protocol (lib_connection u)) (set_port (lc_port (lib_connection u)) u)) = url_port u ∧
  to_protocol (url_proto (with_lib_protocol (lc_protocol (lib_connection u)) (set_port (lc_port (lib_connection u)) u)))
  = to_protocol (url_proto u).
Proof. unfold opens, lib_connection, url_port. by destruct (url_proto u). Qed.

(** * Connections to upstream servers: concrete servers

    A library of URLs that knows those of addresses, a network with fixed times,
    and the theorem at them. *)

(** URLs of addresses without anything else. *)
Section AddressUrls.
Local Existing Instance doc_nom.
Local Existing Instance plain_values.

Definition address_url (t : text) : option Url :=
  r ← strip_prefix (text_of "udp://") t;
  if bool_decide (head r = Some 91)
  then match p_ipv6 (drop 1 r) with
       | IOk [93] a => Some (mkUrlParts "udp" (Some (HostIpv6 a)) None "" None None "" None)
       | _ => None
       end
  else match p_ipv4 r with
       | IOk [] a => Some (mkUrlParts "udp" (Some (HostDomain (ip_show (V4 a)))) None "" None None "" None)
       | _ => None
       end.

Definition address_urls : UrlLib := {|
  url_parse := address_url;
  form_parse _ := [];
  host_show h := match h with
                 | HostDomain d => d
                 | HostIpv4 a => ip_show (V4 a)
                 | HostIpv6 a => ("[" ++ ip_show (V6 a) ++ "]")%string
                 end;
  socket_addrs _ _ := [];
  default_dns_query_path := "/dns-query";
|}.

Lemma address_urls_laws : @UrlIpLaws address_urls.
Proof.
  pose proof doc_nom_laws as Hn. split; [..|done].
  - intros a Ha. destruct (show_text (V4 a)) as [Ht Hc]. cbn [url_parse address_urls]. unfold address_url.
    change (strip_prefix (text_of "udp://") (text_of "udp://" ++ text_of (ip_show (V4 a)))) with (Some (text_of (ip_show (V4 a)))).
    cbn [mbind option_bind]. rewrite Ht. cbn [show_ip] in *. rewrite bool_decide_false.
    + pose proof (ipv4_reads a [] Ha eq_refl) as Hr. rewrite app_nil_r in Hr. rewrite Hr. by eexists.
    + destruct (show_ipv4 a) as [|c l]; [done|]. cbn in *. intros [= ->]. done.
  - intros a Ha. destruct (show_text (V6 a)) as [Ht Hc]. cbn [url_parse address_urls]. unfold address_url.
    change (strip_prefix (text_of "udp://") (text_of "udp://" ++ text_of "[" ++ text_of (ip_show (V6 a)) ++ text_of "]"))
      with (Some (text_of "[" ++ text_of (ip_show (V6 a)) ++ text_of "]")).
    cbn [mbind option_bind]. rewrite Ht. rewrite bool_decide_true by done.
    change (drop 1 (text_of "[" ++ show_ip (V6 a) ++ text_of "]")) with (show_ipv6 a ++ [93]).
    rewrite ipv6_reads by done. by eexists.
Qed.
End AddressUrls.

Section Race.
Local Existing Instance address_urls.
Local Existing Instance address_urls_laws.
Local Existing Instance ascii_unicode.
Local Existing Instance ascii_unicode_laws.
Local Existing Instance FirstReady_lib.
Local Existing Instance FirstReady_laws.

(** The kinds of connections have fixed times; one over HTTP/3 is named 3, others 2. *)
Definition lab_open (h3 h2 : Z) (now : Instant) (o : Opening) : Ending (result Z ConnError) :=
  match o with
  | OpenH3 _ _ _ _ _ => (now + millis h3, Some (Ok 3))
  | OpenTls _ _ _ => (now, Some (Err (NetFails 1)))
  | OpenUdp _ => (now + millis h2, Some (Ok 1))
  | _ => (now + millis h2, Some (Ok 2))
  end.
(** The first query over UDP binds a socket. *)
Definition lab_warmup (rt : RuntimeProvider) (now : Instant) (conn : Z) : Ending bool :=
  if (conn =? 1) && is_none (connect_udp_steps (mkSocket (V4 0) 0) (rp_proxy rt)) then (now, None) else (now + millis 1, Some true).
Definition direct : RuntimeProvider := mkRuntime None None None.
Definition behind_http : RuntimeProvider := mkRuntime (Some (mkProxy HttpProxy (mkSocket (V4 0x0a000001) 8080) None None)) None None.
Definition lab_resolver (now : Instant) (domain : string) : Ending (list IpAddr) :=
  (now + millis 5, Some (if bool_decide (domain = "dns.example") then [V4 0x01010101; V4 0x01000001] else [])).
Definition lab_discover (now : Instant) (_ : option string) : Ending (option DhcpV4Reply) :=
  (now + millis 3, Some (Some (mkReply [0xc0a80101] []))).
Definition lab_name (s : string) : bool := negb (bool_decide (head (text_of s) = Some 91)).
Definition lab_system : option (list LibServer) := Some [mkLibServer (V4 0x08080808) [mkLibConn LpTcp 53]; mkLibServer (V6 1) []].
Definition lab_connect_by (rt : RuntimeProvider) (h3 h2 : Z) : DnsUrl → Outcome (result Z ConnError) :=
  connect lab_name [mkListener TrPlain (mkSocket (V6 0) 53)] [] lab_system lab_discover (Some lab_resolver)
    (lab_open h3 h2) (lab_warmup rt) 0.
Definition lab_connect : Z → Z → DnsUrl → Outcome (result Z ConnError) := lab_connect_by direct.

Definition https_server (prefer : HttpsPrefer) : DnsUrl :=
  mkUrl "dns.example" (ProtoHttps "/dns-query" prefer) (HostDomain "dns.example") None ∅ ∅.

(** HTTP/3 is taken when it is first; when it is preferred also when it is a little
    later; never when the URL asks for HTTP/2. *)
Example https_races :
  lab_connect 10 2 (https_server PreferAuto) = Done (millis 8) (Ok 2) ∧
  lab_connect 10 20 (https_server PreferAuto) = Done (millis 16) (Ok 3) ∧
  lab_connect 10 2 (https_server PreferH3) = Done (millis 16) (Ok 3) ∧
  lab_connect 100 2 (https_server PreferH3) = Done (millis 58) (Ok 2) ∧
  lab_connect 1 2 (https_server PreferH2) = Done (millis 8) (Ok 2).
Proof. by vm_compute. Qed.

(** The servers of the system, but for this server itself, and those of DHCP. *)
Example found_servers :
  lab_connect 1 2 (mkUrl "system" ProtoSystem (HostDomain "system") None ∅ ∅) = Done (millis 2) (Ok 2) ∧
  lab_connect 1 2 (mkUrl "dhcp" (ProtoDhcp None) (HostDomain "dhcp") None ∅ ∅) = Done (millis 5) (Ok 1) ∧
  lab_connect 1 2 (mkUrl "" ProtoUdp (HostDomain "nowhere") None ∅ ∅) = Done (millis 5) (Err NoConnections).
Proof. by vm_compute. Qed.

(** A name in brackets is neither a name nor an address to the TLS library. *)
Example tls_ipv6_fails :
  lab_connect 1 2 (mkUrl "[::1]" ProtoTls (HostIpv6 1) None ∅ ∅) = Done 0 (Err BadServerName).
Proof. by vm_compute. Qed.

Lemma lab_system_ok : ∀ servers, lab_system = Some servers → Forall (fun c => ip_ok (ls_ip c)) servers.
Proof. intros servers [= <-]. by repeat constructor. Defined.
Lemma lab_discover_ok now i r : (lab_discover now i).2 = Some (Some r) → Forall ip_ok (nameservers r).
Proof. intros [= <-]. by repeat constructor. Defined.
Lemma lab_open_total h3 h2 now o : (lab_open h3 h2 now o).2 ≠ None.
Proof. by destruct o. Defined.
Lemma lab_open_udp h3 h2 now o : (lab_open h3 h2 now o).2 = Some (Ok 1) → ∃ a, o = OpenUdp a.
Proof. destruct o; try done. by eexists. Defined.
Lemma lab_warmup_later rt now c : now ≤ (lab_warmup rt now c).1.
Proof. unfold lab_warmup, millis. case_match; cbn; lia. Defined.
Lemma lab_steps rt l : connect_udp_steps l (rp_proxy rt) = None → is_none (connect_udp_steps (mkSocket (V4 0) 0) (rp_proxy rt)) = true.
Proof. unfold connect_udp_steps. destruct (rp_proxy rt) as [p|]; [|done]. by destruct (px_proto p). Defined.
Lemma lab_warmup_panics rt h3 h2 now o c t :
  (lab_open h3 h2 now o).2 = Some (Ok c) → (lab_warmup rt t c).2 = None → (∃ a, o = OpenUdp a) ∧ udp_panics rt.
Proof.
  unfold lab_warmup. destruct (Z.eqb_spec c 1) as [->|]; [|done]. intros Ho. cbn [andb].
  destruct (is_none _) eqn:E; [|done]. intros _. split; [by apply (lab_open_udp h3 h2 now)|].
  exists (mkSocket (V4 0) 0). by destruct (connect_udp_steps _ _).
Defined.
Lemma lab_udp_binds rt h3 h2 now a c t :
  (lab_open h3 h2 now (OpenUdp a)).2 = Some (Ok c) → udp_panics rt → (lab_warmup rt t c).2 = None.
Proof. intros [= <-] [l Hl%lab_steps]. unfold lab_warmup. by rewrite Hl. Defined.

(** A UDP server behind an HTTP proxy: with one address a connection is given, whose
    first query panics; with two the race between them does. *)
Example udp_behind_http :
  lab_connect_by behind_http 1 2 (mkUrl "" ProtoUdp (HostIpv4 0x01010101) None ∅ ∅) = Done (millis 2) (Ok 1) ∧
  lab_connect_by behind_http 1 2 (mkUrl "" ProtoUdp (HostDomain "dns.example") None ∅ ∅) = Panicked ∧
  lab_connect_by direct 1 2 (mkUrl "" ProtoUdp (HostDomain "dns.example") None ∅ ∅) = Done (millis 8) (Ok 1).
Proof. by vm_compute. Qed.

End Race.
