(* ===== verification/Certificates.v ===== *)
(** * Certificates ([rustls.rs], [rustls/certificate.rs], [rustls/der.rs])

    The fields of a certificate that are read, which certificates of an upstream
    are trusted, and the certificate that listeners present: an existing one, or one
    that is made and written. Signatures, hashes, encodings in text and the calendar
    are the libraries'. *)

From S2P Require Import Prelude Bytes Names Config Text LogFile Context DnsUrl ConfigItems.

(** ** Fields of certificates ([der.rs]) *)
Record Element := mkElement { el_tag : Z; el_contents : list Z; el_whole : list Z; el_rest : list Z }.

(** A length in its long form: the number of its bytes, and the bytes. *)
Definition long_length (first : Z) (rest : list Z) : option (Z * list Z) :=
  let count := Z.to_nat (Z.land first 127) in
  if (count =? 0)%nat || (4 <? count)%nat || (length rest <? count)%nat then None
  else Some (fold_left (fun len b => Z.lor (Z.shiftl len 8) b) (take count rest) 0, drop count rest).

Definition element (input : list Z) : option Element :=
  match input with
  | tag :: first :: rest =>
      '(len, rest) ← (if first <? 128 then Some (first, rest) else long_length first rest);
      if Z.of_nat (length rest) <? len then None
      else
        let header := (length input - length rest)%nat in
        let len := Z.to_nat len in
        Some (mkElement tag (take len rest) (take (header + len) input) (drop len rest))
  | _ => None
  end.

Definition expect_tag (input : list Z) (tag : Z) : option Element := opt_filter (fun e => el_tag e =? tag) (element input).

Fixpoint skip_elements (n : nat) (fields : list Z) : option (list Z) :=
  match n with
  | O => Some fields
  | S n => e ← element fields; skip_elements n (el_rest e)
  end.

(** [tbs_field] *)
Definition tbs_field (der : list Z) (index : nat) : option Element :=
  certificate ← expect_tag der 0x30;
  tbs ← expect_tag (el_contents certificate) 0x30;
  let fields := el_contents tbs in
  fields ← (if bool_decide (head fields = Some 0xa0) then el_rest <$> expect_tag fields 0xa0 else Some fields);
  fields ← skip_elements index fields;
  element fields.

Definition subject_public_key_info (der : list Z) : option (list Z) :=
  el_whole <$> opt_filter (fun field => el_tag field =? 0x30) (tbs_field der 5).

(** Times: seconds since 1970. *)
Section Time.
(** [from_calendar_date], [from_hms] and [assume_utc] *)
Variable calendar : Z → Z → Z → Z → Z → Z → option Z.

Definition ascii_digit (b : Z) : bool := (48 <=? b) && (b <=? 57).
Definition number (l : list Z) : Z := fold_left (fun n b => n * 10 + (b - 48)) l 0.
Definition strip_z (l : list Z) : option (list Z) :=
  match last l with Some 90 => Some (take (length l - 1) l) | _ => None end.

Definition der_time (input : list Z) : option (Z * list Z) :=
  e ← element input;
  year_digits ← (if el_tag e =? 0x17 then Some 2%nat else if el_tag e =? 0x18 then Some 4%nat else None);
  text ← strip_z (el_contents e);
  if negb (length text =? year_digits + 10)%nat || negb (forallb ascii_digit text) then None
  else
    let n := number (take year_digits text) in
    let year := if (year_digits =? 2)%nat then (if 50 <=? n then 1900 + n else 2000 + n) else n in
    let field i := number (take 2 (drop (year_digits + 2 * i) text)) in
    t ← calendar year (field 0%nat) (field 1%nat) (field 2%nat) (field 3%nat) (field 4%nat);
    Some (t, el_rest e).

Definition validity (der : list Z) : option (Z * Z) :=
  validity ← opt_filter (fun field => el_tag field =? 0x30) (tbs_field der 3);
  '(not_before, rest) ← der_time (el_contents validity);
  '(not_after, _) ← der_time rest;
  Some (not_before, not_after).
End Time.

(** ** Trust in an upstream ([rustls.rs]) *)
Abbreviation Certificate := (list Z).

(** [load_certs_from_path]: all files of a directory, or one file. *)
Record CertFs := mkCertFs {
  cf_is_dir : PathBuf → bool;
  (** [read_dir]: its entries, none one that cannot be read *)
  cf_read_dir : PathBuf → option (list (option PathBuf));
  cf_is_file : PathBuf → bool;
  (** the certificates of a file, if it can be read and parses *)
  cf_pem_certs : PathBuf → option (list Certificate);
}.
Fixpoint load_entries (fs : CertFs) (entries : list (option PathBuf)) : option (list Certificate) :=
  match entries with
  | [] => Some []
  | entry :: entries =>
      path ← entry;
      certs ← (if cf_is_file fs path then cf_pem_certs fs path else Some []);
      rest ← load_entries fs entries;
      Some (certs ++ rest)
  end.
Definition load_certs_from_path (fs : CertFs) (path : PathBuf) : option (list Certificate) :=
  if cf_is_dir fs path then entries ← cf_read_dir fs path; load_entries fs entries else cf_pem_certs fs path.

(** The roots: those of the program, and those of the system and of the paths that
    can be added; a path that cannot be loaded is left out. *)
Definition root_store (fs : CertFs) (root_ok : Certificate → bool) (builtin native : list Certificate)
    (ca_path ca_file : option PathBuf) : list Certificate :=
  builtin ++ List.filter root_ok
    (native ++ (omap (load_certs_from_path fs) (option_list ca_path ++ option_list ca_file) ≫= id)).

Inductive Verifier := WebPki | NoCertificateVerification | PinnedCertificateVerifier (pin : list Z) (verifier : Verifier).
Record ClientConfig := mkClientConfig { cc_verifier : Verifier; cc_enable_sni : bool }.
Record TlsClientConfigBundle := mkBundle {
  tb_normal : ClientConfig;
  tb_sni_off : ClientConfig;
  tb_verify_off : ClientConfig;
  tb_verifier : Verifier;
}.
Definition bundle_new : TlsClientConfigBundle :=
  let config := mkClientConfig WebPki true in
  mkBundle config (mkClientConfig WebPki false) (mkClientConfig NoCertificateVerification true) WebPki.

Section Trust.
(** [base64]'s [STANDARD.decode]; SHA-256; what the library's verifier says of a
    certificate for the server that is connected to, over the root store. *)
Variable base64 : string → option (list Z).
Variable sha256 : list Z → list Z.
Variable webpki : Certificate → bool.

Definition parse_spki_pin (pin : string) : option (list Z) :=
  opt_filter (fun bytes => (length bytes =? 32)%nat) (base64 pin).

Definition for_upstream (b : TlsClientConfigBundle) (verify sni : bool) (pin : option string) : option ClientConfig :=
  let config := if verify then tb_normal b else tb_verify_off b in
  match pin with
  | None => Some (mkClientConfig (cc_verifier config) sni)
  | Some pin =>
      pin ← parse_spki_pin pin;
      Some (mkClientConfig (PinnedCertificateVerifier pin (if verify then tb_verifier b else NoCertificateVerification)) sni)
  end.

Inductive TlsError := BadEncoding | PinMismatch | NotTrusted.
Fixpoint verify_server_cert (v : Verifier) (certificate : Certificate) : result unit TlsError :=
  match v with
  | WebPki => if webpki certificate then Ok () else Err NotTrusted
  | NoCertificateVerification => Ok ()
  | PinnedCertificateVerifier pin v =>
      match subject_public_key_info certificate with
      | None => Err BadEncoding
      | Some spki => if bool_decide (sha256 spki = pin) then verify_server_cert v certificate else Err PinMismatch
      end
  end.
End Trust.

(** [load_private_key]; the bytes of a key are those it is decoded to. *)
Section PrivateKey.
Context {Key : Type}.
Variable pem_key der_key : list Z → option Key.
(** [SecretDocument::from_pem] of a text: its label and document; [decrypt] of an
    encrypted PKCS#8 key. *)
Variable pem_document : list Z → option (string * list Z).
Variable decrypt : string → list Z → option (list Z).

Definition load_private_key (bytes : option (list Z)) (password : option string) : option Key :=
  bytes ← bytes;
  match pem_key bytes, der_key bytes with
  | Some key, _ => Some key
  | None, Some key => Some key
  | None, None =>
      password ← password;
      der ← (if bool_decide (take 10 bytes = text_of "-----BEGIN") then
               '(label, document) ← pem_document bytes;
               if bool_decide (label = "ENCRYPTED PRIVATE KEY"%string) then Some document else None
             else Some bytes);
      decrypted ← decrypt password der;
      der_key decrypted
  end.
End PrivateKey.

(** ** The certificate of the listeners ([certificate.rs]) *)
(** [dedup] of a sorted list. *)
Fixpoint dedup_text (l : list text) : list text :=
  match l with
  | x :: ((y :: _) as rest) => if bool_decide (x = y) then dedup_text rest else x :: dedup_text rest
  | l => l
  end.

(** What is asked of the library that makes certificates. *)
Record ServerParams := mkServerParams { sp_names : list text; sp_not_before : Z; sp_not_after : Z }.
Record RootParams := mkRootParams { rp_not_before : Z; rp_not_after : Z }.

Section Server.
Context {Name : Type} `{NL : NetLib} {Key : Type}.
Abbreviation Conf := (Config Name).
(** Keys as text, and a new one for the root and for the server, if it can be made. *)
Variable key_pem : Key → list Z.
Variable key_of_pem : list Z → option Key.
Variable new_root_key new_server_key : option Key.
(** Whether the names can be in a certificate, and the texts of the certificate of
    the server and of the root it is signed by. *)
Variable names_ok : list text → bool.
Variable sign : ServerParams → RootParams → Key → Key → option (list Z * list Z).
Variable calendar : Z → Z → Z → Z → Z → Z → option Z.
Variable pem_certs : list Z → option (list Certificate).
(** The name of the server, without a final dot; the addresses of the interfaces. *)
Variable server_name : text.
Variable interfaces : list IpAddr.
(** Paths from the options of listeners; where files can be written. *)
Variable to_path : string → PathBuf.
Variable writable : PathBuf → bool.
Variable default_conf_dir : PathBuf.

Abbreviation Disk := (gmap PathBuf (list Z)).
Definition write_private (path : PathBuf) (contents : list Z) (d : Disk) : option Disk :=
  if writable path then Some (<[path := contents]> d) else None.

Inductive CertError := CertUnreadable | CertInvalid | RootKeyInvalid | KeyFails | NamesInvalid | TooManyDays | SignFails | WriteFails.

Definition generates (c : CertConfig) (ssl : SslConfig) : bool :=
  let certificate := opt_or (to_path <$> ssl_certificate ssl) (ct_file c) in
  let key := opt_or (to_path <$> ssl_certificate_key ssl) (ct_key_file c) in
  match ct_generate c with
  | CertAuto => is_none certificate && is_none key
  | CertYes => true
  | CertNo => false
  end.

Definition cert_paths (conf_dir : option PathBuf) (c : CertConfig) (ssl : SslConfig) : PathBuf * PathBuf :=
  let directory := opt_unwrap_or default_conf_dir conf_dir in
  (opt_unwrap_or (path_join directory (path_of_name "smartdns-cert.pem")) (opt_or (to_path <$> ssl_certificate ssl) (ct_file c)),
   opt_unwrap_or (path_join directory (path_of_name "smartdns-key.pem")) (opt_or (to_path <$> ssl_certificate_key ssl) (ct_key_file c))).
Definition root_path (conf_dir : option PathBuf) (c : CertConfig) : PathBuf :=
  opt_unwrap_or (path_join (opt_unwrap_or default_conf_dir conf_dir) (path_of_name "smartdns-root-key.pem")) (ct_root_key_file c).

(** Whether the pair that exists is used as it is; an error when it cannot be read. *)
Definition existing_pair (now : Z) (d : Disk) (certificate key : PathBuf) : result bool CertError :=
  match d !! certificate, d !! key with
  | Some bytes, Some _ =>
      match pem_certs bytes with
      | None => Err CertUnreadable
      | Some [] => Ok false
      | Some (cert :: _) =>
          match validity calendar cert with
          | None => Err CertInvalid
          | Some (not_before, not_after) => Ok ((not_before <=? now) && (now <=? not_after))
          end
      end
  | _, _ => Ok false
  end.

(** The root key, which is made and written when there is none. *)
Definition root_key (root : PathBuf) (d : Disk) : result (Key * Disk) CertError :=
  match d !! root with
  | Some bytes => match key_of_pem bytes with Some k => Ok (k, d) | None => Err RootKeyInvalid end
  | None =>
      match new_root_key with
      | None => Err KeyFails
      | Some k => match write_private root (key_pem k) d with Some d => Ok (k, d) | None => Err WriteFails end
      end
  end.

Definition san_name (s : string) : text :=
  let t := text_of s in
  match strip_prefix (text_of "DNS:") t with
  | Some t => t
  | None => opt_unwrap_or t (strip_prefix (text_of "IP:") t)
  end.

Definition san_names (c : CertConfig) (binds : list BindAddrConfig) : list text :=
  dedup_text (sort_by text_leb
    ([text_of "localhost"; text_of "127.0.0.1"; text_of "::1"; server_name]
     ++ (san_name <$> ct_san c)
     ++ omap (fun b => let ip := sa_ip (bind_sock_addr b) in if is_unspecified ip then None else Some (text_of (ip_show ip))) binds
     ++ ((fun ip => text_of (ip_show ip)) <$> interfaces))).

Definition DAY : Z := 86400.
Definition validity_days (c : CertConfig) : Z := opt_unwrap_or 390 (opt_filter (fun days => 0 <? days) (ct_validity_days c)).
Definition root_params (now : Z) : RootParams := mkRootParams (now - DAY) (now + 3650 * DAY).
Definition server_params (now : Z) (c : CertConfig) (binds : list BindAddrConfig) : ServerParams :=
  mkServerParams (san_names c binds) (now - 300) (now + validity_days c * DAY).

(** The key and the certificate are made and written, the key first. *)
Definition make_pair (now : Z) (c : CertConfig) (binds : list BindAddrConfig) (certificate key : PathBuf) (root : Key) (d : Disk)
    : result unit CertError * Disk :=
  let params := server_params now c binds in
  if negb (names_ok (sp_names params)) then (Err NamesInvalid, d)
  else if 9999 <? validity_days c then (Err TooManyDays, d)
  else
    match new_server_key with
    | None => (Err KeyFails, d)
    | Some server_key =>
        match sign params (root_params now) server_key root with
        | None => (Err SignFails, d)
        | Some (server_pem, root_pem) =>
            match write_private key (key_pem server_key) d with
            | None => (Err WriteFails, d)
            | Some d =>
                match write_private certificate (server_pem ++ root_pem) d with
                | None => (Err WriteFails, d)
                | Some d => (Ok (), d)
                end
            end
        end
    end.

Definition prepare_server_certificate (now : Z) (conf_dir : option PathBuf) (c : CertConfig) (binds : list BindAddrConfig)
    (ssl : SslConfig) (d : Disk) : result (PathBuf * PathBuf) CertError * Disk :=
  let '(certificate, key) := cert_paths conf_dir c ssl in
  if negb (generates c ssl) then (Ok (certificate, key), d)
  else
    match existing_pair now d certificate key with
    | Err e => (Err e, d)
    | Ok true => (Ok (certificate, key), d)
    | Ok false =>
        match root_key (root_path conf_dir c) d with
        | Err e => (Err e, d)
        | Ok (root, d) =>
            match make_pair now c binds certificate key root d with
            | (Err e, d) => (Err e, d)
            | (Ok _, d) => (Ok (certificate, key), d)
            end
        end
    end.
End Server.

(** ** What is read of a certificate

    Elements as they are encoded, and a certificate of them: its version if it has
    one, the fields of its body and its signature. *)
Definition der_length (n : Z) : list Z :=
  if n <? 128 then [n]
  else if n <? 256 then 0x81 :: be_bytes 1 n
  else if n <? 65536 then 0x82 :: be_bytes 2 n
  else if n <? 16777216 then 0x83 :: be_bytes 3 n
  else 0x84 :: be_bytes 4 n.
Definition der (tag : Z) (contents : list Z) : list Z := tag :: der_length (Z.of_nat (length contents)) ++ contents.
Definition der_fields (fields : list (Z * list Z)) : list Z := fields ≫= fun f => der f.1 f.2.
Definition der_certificate (version : option (list Z)) (fields : list (Z * list Z)) (signature : list Z) : list Z :=
  der 0x30 (der 0x30 (opt_map_or [] (der 0xa0) version ++ der_fields fields) ++ signature).

Lemma lor_shift_byte n b : in_u8 b → Z.lor (Z.shiftl n 8) b = n * 256 + b.
Proof.
  unfold in_u8, u8_max. intros Hb. rewrite Z.shiftl_mul_pow2 by lia. change (2 ^ 8) with 256.
  assert (Hl : Z.land (n * 2 ^ 8) b = 0).
  { apply Z.bits_inj'. intros k Hk. rewrite Z.land_spec, Z.bits_0. destruct (Z.ltb_spec k 8).
    - by rewrite Z.mul_pow2_bits_low.
    - replace b with (b mod 2 ^ 8) by (rewrite Z.mod_small; lia). rewrite Z.mod_pow2_bits_high by lia. apply andb_false_r. }
  change 256 with (2 ^ 8). by rewrite <- Z.lxor_lor, <- Z.add_nocarry_lxor.
Qed.

Lemma length_value l : all_u8 l → fold_left (fun len b => Z.lor (Z.shiftl len 8) b) l 0 = be_value l.
Proof.
  induction l as [|b l IH] using rev_ind; intros Hl; [done|]. apply Forall_app in Hl as [Hl [Hb _]%Forall_cons].
  rewrite fold_left_app, be_value_snoc, IH by done. cbn. by apply lor_shift_byte.
Qed.

Lemma long_length_bytes k n tail : (1 ≤ k ≤ 4)%nat → 0 ≤ n < 256 ^ Z.of_nat k →
  long_length (128 + Z.of_nat k) (be_bytes k n ++ tail) = Some (n, tail).
Proof.
  intros Hk Hn. unfold long_length.
  replace (Z.to_nat (Z.land (128 + Z.of_nat k) 127)) with k by (by destruct k as [|[|[|[|[|k]]]]]; [lia|..|lia]).
  destruct (Nat.eqb_spec k 0); [lia|]. destruct (Nat.ltb_spec 4 k); [lia|]. cbn [orb].
  rewrite length_app, length_be_bytes. destruct (Nat.ltb_spec (k + length tail) k); [lia|].
  rewrite take_app_le, take_ge, drop_app_le, drop_ge by (rewrite length_be_bytes; lia). cbn [app].
  rewrite length_value by apply be_bytes_u8. by rewrite be_value_bytes, Z.mod_small.
Qed.

Lemma der_length_read n tail : 0 ≤ n < 2 ^ 32 → ∃ first more, der_length n = first :: more ∧
  (if first <? 128 then Some (first, more ++ tail) else long_length first (more ++ tail)) = Some (n, tail).
Proof.
  intros Hn. unfold der_length.
  destruct (Z.ltb_spec n 128); [exists n, []; destruct (Z.ltb_spec n 128); [done|lia]|].
  destruct (Z.ltb_spec n 256); [exists 0x81, (be_bytes 1 n); split; [done|apply (long_length_bytes 1); cbn; lia]|].
  destruct (Z.ltb_spec n 65536); [exists 0x82, (be_bytes 2 n); split; [done|apply (long_length_bytes 2); cbn; lia]|].
  destruct (Z.ltb_spec n 16777216); [exists 0x83, (be_bytes 3 n); split; [done|apply (long_length_bytes 3); cbn; lia]|].
  exists 0x84, (be_bytes 4 n). split; [done|]. apply (long_length_bytes 4); cbn; lia.
Qed.

Lemma element_der tag c rest : Z.of_nat (length c) < 2 ^ 32 → element (der tag c ++ rest) = Some (mkElement tag c (der tag c) rest).
Proof.
  intros Hc. destruct (der_length_read (Z.of_nat (length c)) (c ++ rest)) as (first & more & Hl & Hr); [lia|].
  unfold der. rewrite Hl. cbn [app element]. rewrite <- app_assoc. rewrite Hr. cbn [mbind option_bind].
  destruct (Z.ltb_spec (Z.of_nat (length (c ++ rest))) (Z.of_nat (length c))) as [Hlt|_]; [rewrite length_app in Hlt; lia|].
  rewrite Nat2Z.id. f_equal. f_equal.
  - by rewrite take_app_length.
  - replace (length (tag :: first :: more ++ c ++ rest) - length (c ++ rest) + length c)%nat with (length (tag :: first :: more ++ c)).
    + replace (tag :: first :: more ++ c ++ rest) with ((tag :: first :: more ++ c) ++ rest) by (cbn; by rewrite <- app_assoc).
      by rewrite take_app_length.
    + cbn [length]. rewrite !length_app. lia.
  - by rewrite drop_app_length.
Qed.

Lemma expect_der tag c rest : Z.of_nat (length c) < 2 ^ 32 → expect_tag (der tag c ++ rest) tag = Some (mkElement tag c (der tag c) rest).
Proof. intros Hc. unfold expect_tag. rewrite element_der by done. cbn. by rewrite Z.eqb_refl. Qed.

Definition small (l : list Z) : Prop := Z.of_nat (length l) < 2 ^ 32.
Lemma small_der tag c : small (der tag c) → small c.
Proof. unfold small, der. cbn [length]. rewrite length_app. lia. Qed.
Lemma small_app a b : small (a ++ b) → small a ∧ small b.
Proof. unfold small. rewrite length_app. lia. Qed.

Lemma skip_fields n fields : small (der_fields fields) → (n ≤ length fields)%nat →
  skip_elements n (der_fields fields) = Some (der_fields (drop n fields)).
Proof.
  revert fields. induction n as [|n IH]; intros [|[t c] fields] Hs Hn; [done..|cbn in Hn; lia|]. cbn [length drop skip_elements] in *.
  change (der_fields ((t, c) :: fields)) with (der t c ++ der_fields fields) in *. apply small_app in Hs as [Hc%small_der Hs]. rewrite element_der by done. cbn [mbind option_bind el_rest]. apply IH; [done|lia].
Qed.

(** A field of a certificate is the one it was made of. *)
Lemma tbs_field_der version fields signature i t c :
  small (der_certificate version fields signature) → fields !! i = Some (t, c) →
  (version = None → ∃ t0 c0, head fields = Some (t0, c0) ∧ t0 ≠ 0xa0) →
  tbs_field (der_certificate version fields signature) i = Some (mkElement t c (der t c) (der_fields (drop (S i) fields))).
Proof.
  intros Hs Hi Hv. unfold der_certificate in *. set (tbs := opt_map_or [] (der 0xa0) version ++ der_fields fields) in *.
  pose proof (small_der _ _ Hs) as Hs1. pose proof (proj1 (small_app _ _ Hs1)) as Hs2%small_der.
  destruct (small_app _ _ Hs2) as [Hsv Hsf].
  unfold tbs_field. rewrite <- (app_nil_r (der 0x30 (_ ++ _))), expect_der by exact Hs1. cbn [mbind option_bind el_contents].
  rewrite expect_der by done. cbn [mbind option_bind el_contents].
  assert (Hf : (if bool_decide (head tbs = Some 0xa0) then el_rest <$> expect_tag tbs 0xa0 else Some tbs) = Some (der_fields fields)).
  { subst tbs. destruct version as [v|]; cbn [opt_map_or] in *.
    - rewrite bool_decide_true by done. by rewrite expect_der by (by apply small_der in Hsv).
    - destruct (Hv eq_refl) as (t0 & c0 & Hh & Hne). destruct fields as [|f fields]; [done|]. injection Hh as ->. cbn [app].
      rewrite bool_decide_false; [done|]. cbn. by intros [= ->]. }
  rewrite Hf. cbn [mbind option_bind]. pose proof (lookup_lt_Some _ _ _ Hi).
  rewrite skip_fields by (done || lia). cbn [mbind option_bind]. rewrite (drop_S _ _ _ Hi). cbn [der_fields mbind list_bind fst snd].
  apply element_der. apply (small_der t). unfold small in *. revert Hsf. unfold der_fields.
  rewrite <- (take_drop_middle fields i (t, c) Hi), bind_app, length_app, bind_cons, length_app. cbn [fst snd]. lia.
Qed.

(** Times in the forms they have in a certificate. *)
Definition digits2 (n : Z) : list Z := [48 + n / 10; 48 + n mod 10].
Definition utc_time (y mo d h mi s : Z) : list Z := der 0x17 (([y; mo; d; h; mi; s] ≫= digits2) ++ [90]).
Definition generalized_time (y mo d h mi s : Z) : list Z := der 0x18 (([y / 100; y mod 100; mo; d; h; mi; s] ≫= digits2) ++ [90]).

Lemma number_digits2 n : 0 ≤ n < 100 → number (digits2 n) = n.
Proof. intros Hn. unfold number, digits2. cbn [fold_left]. pose proof (Z.div_mod n 10). lia. Qed.
Lemma number_digits4 a b : 0 ≤ a < 100 → 0 ≤ b < 100 → number (digits2 a ++ digits2 b) = 100 * a + b.
Proof. intros Ha Hb. unfold number, digits2. cbn [fold_left app]. pose proof (Z.div_mod a 10). pose proof (Z.div_mod b 10). lia. Qed.
Lemma digits2_digits n : 0 ≤ n < 100 → forallb ascii_digit (digits2 n) = true.
Proof.
  intros Hn. unfold digits2, ascii_digit. cbn [forallb]. pose proof (Z.div_pos n 10). pose proof (Z.div_lt_upper_bound n 10 10).
  pose proof (Z.mod_pos_bound n 10). lia.
Qed.

Lemma strip_z_snoc l : strip_z (l ++ [90]) = Some l.
Proof. unfold strip_z. rewrite last_snoc, length_app. cbn [length]. by rewrite Nat.add_sub, take_app_length. Qed.

(** The twelve or fourteen digits of a time. *)
Lemma der_time_digits calendar tag k t rest :
  (if tag =? 0x17 then Some 2%nat else if tag =? 0x18 then Some 4%nat else None) = Some k →
  length t = (k + 10)%nat → forallb ascii_digit t = true →
  der_time calendar (der tag (t ++ [90]) ++ rest) =
    let n := number (take k t) in
    let year := if (k =? 2)%nat then (if 50 <=? n then 1900 + n else 2000 + n) else n in
    let field i := number (take 2 (drop (k + 2 * i) t)) in
    t ← calendar year (field 0%nat) (field 1%nat) (field 2%nat) (field 3%nat) (field 4%nat);
    Some (t, rest).
Proof.
  intros Htag Hl Hd. unfold der_time. rewrite element_der.
  - cbn [mbind option_bind el_tag el_contents el_rest]. change (@option_bind nat) with (@mbind option option_bind nat).
    rewrite Htag. cbn [mbind option_bind]. rewrite strip_z_snoc. cbn [mbind option_bind]. by rewrite Hl, Nat.eqb_refl, Hd.
  - rewrite length_app, Hl. cbn [length]. assert (k ≤ 4)%nat by (repeat case_match; simplify_eq; lia). lia.
Qed.

Lemma der_time_read calendar y mo d h mi s rest :
  Forall (fun n => 0 ≤ n < 100) [mo; d; h; mi; s] →
  (0 ≤ y < 100 →
   der_time calendar (utc_time y mo d h mi s ++ rest) =
     t ← calendar (if 50 <=? y then 1900 + y else 2000 + y) mo d h mi s; Some (t, rest)) ∧
  (0 ≤ y < 10000 →
   der_time calendar (generalized_time y mo d h mi s ++ rest) = t ← calendar y mo d h mi s; Some (t, rest)).
Proof.
  rewrite !Forall_cons, Forall_nil. intros (Hmo & Hd & Hh & Hmi & Hs & _). split; intros Hy.
  - unfold utc_time. rewrite (der_time_digits _ _ 2); [|done|done|].
    2:{ cbn [mbind list_bind]. rewrite !forallb_app, !digits2_digits by done. done. }
    cbn zeta. change (2 =? 2)%nat with true. cbn iota. cbn [mbind list_bind].
    change (take 2 (digits2 y ++ _)) with (digits2 y). change (take 2 (drop (2 + 2 * 0) _)) with (digits2 mo).
    change (take 2 (drop (2 + 2 * 1) _)) with (digits2 d). change (take 2 (drop (2 + 2 * 2) _)) with (digits2 h).
    change (take 2 (drop (2 + 2 * 3) _)) with (digits2 mi). change (take 2 (drop (2 + 2 * 4) _)) with (digits2 s).
    by rewrite !number_digits2 by done.
  - assert (0 ≤ y / 100 < 100) as Hy1 by (split; [apply Z.div_pos; lia|apply Z.div_lt_upper_bound; lia]).
    pose proof (Z.mod_pos_bound y 100 ltac:(lia)) as Hy2.
    unfold generalized_time. rewrite (der_time_digits _ _ 4); [|done|done|].
    2:{ cbn [mbind list_bind]. rewrite !forallb_app, !digits2_digits by done. done. }
    cbn zeta. change (4 =? 2)%nat with false. cbn iota. cbn [mbind list_bind].
    change (take 4 _) with (digits2 (y / 100) ++ digits2 (y mod 100)). change (take 2 (drop (4 + 2 * 0) _)) with (digits2 mo).
    change (take 2 (drop (4 + 2 * 1) _)) with (digits2 d). change (take 2 (drop (4 + 2 * 2) _)) with (digits2 h).
    change (take 2 (drop (4 + 2 * 3) _)) with (digits2 mi). change (take 2 (drop (4 + 2 * 4) _)) with (digits2 s).
    rewrite number_digits4, !number_digits2 by done. by rewrite <- Z.div_mod by lia.
Qed.

(** ** Trust *)
Section TrustSpec.
Variable base64 : string → option (list Z).
Variable sha256 : list Z → list Z.
Variable webpki : Certificate → bool.

(** C33: An upstream with a pin is trusted for exactly the key that is pinned: a
    certificate, whatever its version and its other fields, is accepted when the
    encoding of its public key hashes to the pin and, unless verification is off, the
    certificate is valid besides; the name of the server is sent as asked. *)
Theorem pinned_key_trusted verify sni pin bytes version fields signature key :
  base64 pin = Some bytes → length bytes = 32%nat →
  small (der_certificate version fields signature) → fields !! 5%nat = Some (0x30, key) →
  (version = None → ∃ t0 c0, head fields = Some (t0, c0) ∧ t0 ≠ 0xa0) →
  ∃ c, for_upstream base64 bundle_new verify sni (Some pin) = Some c ∧ cc_enable_sni c = sni ∧
    (verify_server_cert sha256 webpki (cc_verifier c) (der_certificate version fields signature) = Ok () ↔
       sha256 (der 0x30 key) = bytes ∧ (verify = true → webpki (der_certificate version fields signature) = true)).
Proof.
  intros Hb Hl Hs Hk Hv. set (cert := der_certificate version fields signature) in *.
  assert (Hspki : subject_public_key_info cert = Some (der 0x30 key)).
  { unfold subject_public_key_info, cert. by rewrite (tbs_field_der _ _ _ 5 0x30 key). }
  eexists. unfold for_upstream, parse_spki_pin. rewrite Hb. cbn [opt_filter]. rewrite Hl. cbn [Nat.eqb mbind option_bind].
  split; [done|]. split; [done|]. cbn [cc_verifier verify_server_cert]. rewrite Hspki. case_bool_decide as He.
  - destruct verify; cbn [tb_verifier bundle_new verify_server_cert]; [|naive_solver].
    destruct (webpki cert); naive_solver.
  - naive_solver.
Qed.

(** A pin that is not one is an error, never left out; without a pin it is the
    verification that is asked for. *)
Lemma pin_refused verify sni pin :
  parse_spki_pin base64 pin = None → for_upstream base64 bundle_new verify sni (Some pin) = None.
Proof. intros Hp. unfold for_upstream. by rewrite Hp. Qed.
Lemma unpinned_trusted verify sni cert : ∃ c, for_upstream base64 bundle_new verify sni None = Some c ∧ cc_enable_sni c = sni ∧
  (verify_server_cert sha256 webpki (cc_verifier c) cert = Ok () ↔ verify = false ∨ webpki cert = true).
Proof.
  eexists. split; [done|]. split; [done|]. destruct verify; cbn; [destruct (webpki cert); naive_solver|naive_solver].
Qed.
End TrustSpec.

(** ** The certificate of the listeners *)
Section ServerSpec.
Context {Key : Type}.
Variable key_pem : Key → list Z.
Variable key_of_pem : list Z → option Key.
Variable new_root_key new_server_key : option Key.
Variable names_ok : list text → bool.
Variable sign : ServerParams → RootParams → Key → Key → option (list Z * list Z).
Variable calendar : Z → Z → Z → Z → Z → Z → option Z.
Variable pem_certs : list Z → option (list Certificate).
Variable server_name : text.
Variable interfaces : list IpAddr.
Variable to_path : string → PathBuf.
Variable writable : PathBuf → bool.
Variable default_conf_dir : PathBuf.

Abbreviation prepare := (prepare_server_certificate key_pem key_of_pem new_root_key new_server_key names_ok sign calendar
  pem_certs server_name interfaces to_path writable default_conf_dir).
Abbreviation params := (server_params server_name interfaces).

(** What a key is signed for: the text of a certificate whose times are those asked. *)
Definition signs (now : Z) (c : CertConfig) (binds : list BindAddrConfig) : Prop :=
  ∀ key root a b, sign (params now c binds) (root_params now) key root = Some (a, b) →
    ∃ cert more, pem_certs (a ++ b) = Some (cert :: more) ∧
      validity calendar cert = Some (sp_not_before (params now c binds), sp_not_after (params now c binds)).

Lemma validity_days_pos c : 0 < validity_days c.
Proof. unfold validity_days. destruct (ct_validity_days c) as [n|]; cbn; [|lia]. destruct (Z.ltb_spec 0 n); cbn; lia. Qed.

Lemma write_private_lookup path contents (d d' : gmap PathBuf (list Z)) :
  write_private writable path contents d = Some d' → d' = <[path:=contents]> d.
Proof. unfold write_private. case_match; congruence. Qed.

Lemma root_key_disk root (d d' : gmap PathBuf (list Z)) k :
  root_key key_pem key_of_pem new_root_key writable root d = Ok (k, d') →
  (d' = d ∧ is_Some (d !! root)) ∨ (d !! root = None ∧ d' = <[root:=key_pem k]> d ∧ new_root_key = Some k).
Proof.
  unfold root_key. destruct (d !! root) as [bytes|] eqn:Er.
  - destruct (key_of_pem bytes); [|done]. intros [= -> ->]. left. split; [done|by eexists].
  - destruct new_root_key as [k'|]; [|done]. destruct (write_private _ _ _ _) eqn:Ew; [|done].
    intros [= -> ->]. right. by apply write_private_lookup in Ew as ->.
Qed.

Abbreviation make := (make_pair key_pem new_server_key names_ok sign server_name interfaces writable).

Lemma make_pair_disk now c binds certificate key root (d : gmap PathBuf (list Z)) :
  let '(r, d') := make now c binds certificate key root d in
  (∀ p, p ≠ certificate → p ≠ key → d' !! p = d !! p) ∧
  (r = Ok () → ∃ k a b, new_server_key = Some k ∧ sign (params now c binds) (root_params now) k root = Some (a, b) ∧
     d' = <[certificate:=a ++ b]> (<[key:=key_pem k]> d)).
Proof.
  unfold make_pair. destruct (negb _); [done|]. destruct (_ <? _); [done|].
  destruct new_server_key as [k|]; [|done]. destruct (sign _ _ k root) as [[a b]|] eqn:Es; [|done].
  destruct (write_private writable key _ d) as [d1|] eqn:E1; [|done]. apply write_private_lookup in E1 as ->.
  destruct (write_private writable certificate _ _) as [d2|] eqn:E2; [apply write_private_lookup in E2 as ->|].
  - split; [|intros _; by exists k, a, b]. intros p Hc Hk. by rewrite !lookup_insert_ne.
  - split; [|done]. intros p _ Hk. by rewrite lookup_insert_ne.
Qed.

(** A pair with a first certificate that is valid now is used. *)
Definition pair_valid (now : Z) (d : gmap PathBuf (list Z)) (certificate key : PathBuf) : Prop :=
  ∃ bytes cert more nb na, d !! certificate = Some bytes ∧ is_Some (d !! key) ∧ pem_certs bytes = Some (cert :: more) ∧
    validity calendar cert = Some (nb, na) ∧ nb ≤ now ≤ na.

Lemma existing_pair_valid now d certificate key :
  existing_pair calendar pem_certs now d certificate key = Ok true ↔ pair_valid now d certificate key.
Proof.
  unfold existing_pair, pair_valid. split.
  - destruct (d !! certificate) as [bytes|] eqn:Ec; [|done]. destruct (d !! key) as [kb|] eqn:Ek; [|done].
    destruct (pem_certs bytes) as [[|cert more]|] eqn:Ep; [done| |done].
    destruct (validity calendar cert) as [[nb na]|] eqn:Ev; [|done]. intros [= Hv].
    exists bytes, cert, more, nb, na. split; [done|]. split; [by eexists|]. split; [done|]. split; [done|]. lia.
  - intros (bytes & cert & more & nb & na & -> & [kb ->] & -> & -> & Hn). f_equal. lia.
Qed.

Lemma prepare_valid now conf_dir c binds ssl d :
  let '(certificate, key) := cert_paths to_path default_conf_dir conf_dir c ssl in
  pair_valid now d certificate key → prepare now conf_dir c binds ssl d = (Ok (certificate, key), d).
Proof.
  destruct (cert_paths _ _ _ _ _) as [certificate key] eqn:Ep. intros Hv%existing_pair_valid.
  unfold prepare_server_certificate. rewrite Ep, Hv. by destruct (negb _).
Qed.

(** C34: The certificate of a listener: files that were configured are used as they are
    unless making them is asked for, and so is a pair that is valid; only the key, the
    certificate and the root key are ever written, and a root key that exists never;
    a pair that is made is valid at once, and until it ends it is used as it is, with
    nothing written. *)
Theorem listener_certificate now conf_dir c binds ssl d r d' certificate key :
  cert_paths to_path default_conf_dir conf_dir c ssl = (certificate, key) →
  certificate ≠ key → signs now c binds →
  prepare now conf_dir c binds ssl d = (r, d') →
  (generates to_path c ssl = false ∨ pair_valid now d certificate key → r = Ok (certificate, key) ∧ d' = d) ∧
  (∀ p, p ≠ certificate → p ≠ key → p ≠ root_path default_conf_dir conf_dir c ∨ is_Some (d !! p) → d' !! p = d !! p) ∧
  (∀ paths, r = Ok paths → generates to_path c ssl = true →
     paths = (certificate, key) ∧ pair_valid now d' certificate key ∧
     (¬ pair_valid now d certificate key → ∀ later, now ≤ later ≤ now + validity_days c * DAY →
        prepare later conf_dir c binds ssl d' = (Ok (certificate, key), d'))).
Proof.
  intros Hp Hne Hsign Hr.
  assert (Hkeep : generates to_path c ssl = false ∨ pair_valid now d certificate key → r = Ok (certificate, key) ∧ d' = d).
  { intros [Hg|Hv].
    - unfold prepare_server_certificate in Hr. rewrite Hp, Hg in Hr. by injection Hr as <- <-.
    - pose proof (prepare_valid now conf_dir c binds ssl d) as Hk. rewrite Hp in Hk. rewrite (Hk Hv) in Hr. by injection Hr as <- <-. }
  split; [done|].
  destruct (generates to_path c ssl) eqn:Hg; [|destruct (Hkeep (or_introl eq_refl)) as [_ ->]; split; [done|by intros]].
  assert (Hdec : pair_valid now d certificate key ∨ ¬ pair_valid now d certificate key).
  { rewrite <- existing_pair_valid. destruct (existing_pair _ _ _ _ _ _) as [[]|]; auto; right; discriminate. }
  destruct Hdec as [Hv|Hv].
  { destruct (Hkeep (or_intror Hv)) as [-> ->]. split; [done|]. intros paths [= <-] _. by split_and!. }
  unfold prepare_server_certificate in Hr. rewrite Hp, Hg in Hr. cbn [negb] in Hr.
  destruct (existing_pair _ _ now d certificate key) as [[]|e] eqn:Ee; [by apply existing_pair_valid in Ee| |].
  2:{ injection Hr as <- <-. by split. }
  destruct (root_key _ _ _ _ _ d) as [[root d1]|e] eqn:Er; [|injection Hr as <- <-; by split].
  pose proof (make_pair_disk now c binds certificate key root d1) as Hm.
  destruct (make now c binds certificate key root d1) as [r1 d2] eqn:Em. destruct Hm as [Hother Hok].
  assert (d' = d2) as -> by (destruct r1; congruence). split.
  - intros p Hc Hk Hroot. rewrite (Hother p Hc Hk). apply root_key_disk in Er as [[-> _]|(Hn & -> & _)]; [done|].
    destruct Hroot as [Hroot|[x Hx]]; [by rewrite lookup_insert_ne|]. rewrite lookup_insert_ne; [done|]. intros <-. congruence.
  - intros paths -> _. destruct r1 as [[]|]; [|done]. injection Hr as <-. split; [done|].
    destruct (Hok eq_refl) as (k & a & b & _ & Hs & ->). destruct (Hsign k root a b Hs) as (cert & more & Hpem & Hval).
    assert (Hvalid : ∀ later, now - 300 ≤ later ≤ now + validity_days c * DAY →
      pair_valid later (<[certificate:=a ++ b]> (<[key:=key_pem k]> d1)) certificate key).
    { intros later Hl. exists (a ++ b), cert, more, (now - 300), (now + validity_days c * DAY).
      rewrite lookup_insert_eq, lookup_insert_ne, lookup_insert_eq by done. split; [done|]. split; [by eexists|].
      split; [exact Hpem|]. split; [exact Hval|lia]. }
    pose proof (validity_days_pos c). unfold DAY in *. split; [apply Hvalid; lia|].
    intros _ later Hl. pose proof (prepare_valid later conf_dir c binds ssl (<[certificate:=a ++ b]> (<[key:=key_pem k]> d1))) as Hk.
    rewrite Hp in Hk. apply Hk, Hvalid. lia.
Qed.

(** The names a certificate is made for. *)
Lemma dedup_text_elem l x : x ∈ dedup_text l ↔ x ∈ l.
Proof.
  induction l as [|y [|z l] IH]; [done|done|]. cbn [dedup_text]. case_bool_decide as E.
  - subst. rewrite IH. set_solver.
  - set_solver.
Qed.

Lemma san_names_elem c binds x : x ∈ san_names server_name interfaces c binds ↔
  x = text_of "localhost" ∨ x = text_of "127.0.0.1" ∨ x = text_of "::1" ∨ x = server_name ∨
  (∃ s, s ∈ ct_san c ∧ x = san_name s) ∨
  (∃ b, b ∈ binds ∧ is_unspecified (sa_ip (bind_sock_addr b)) = false ∧ x = text_of (ip_show (sa_ip (bind_sock_addr b)))) ∨
  (∃ ip, ip ∈ interfaces ∧ x = text_of (ip_show ip)).
Proof.
  unfold san_names. rewrite dedup_text_elem, sort_by_perm, !elem_of_app, !elem_of_cons, list_elem_of_fmap, list_elem_of_omap, list_elem_of_fmap.
  split.
  - intros [[?|[?|[?|[?|[]%not_elem_of_nil]]]]|[(s & ? & ?)|[(b & ? & Hb)|(ip & ? & ?)]]]; eauto 10.
    destruct (is_unspecified _) eqn:Eu; [done|]. injection Hb as <-. eauto 12.
  - intros [?|[?|[?|[?|[(s & ? & ?)|[(b & ? & Hu & ?)|(ip & ? & ?)]]]]]]; eauto 10.
    right. right. left. exists b. rewrite Hu. by subst.
Qed.
End ServerSpec.

(** ** Concrete certificates *)
Definition days_from_civil (y m d : Z) : Z :=
  let y := if m <=? 2 then y - 1 else y in
  let era := y / 400 in
  let yoe := y mod 400 in
  let doy := (153 * (m + (if 2 <? m then -3 else 9)) + 2) / 5 + d - 1 in
  era * 146097 + yoe * 365 + yoe / 4 - yoe / 100 + doy - 719468.
Definition civil (y mo d h mi s : Z) : option Z :=
  if (1 <=? mo) && (mo <=? 12) && (1 <=? d) && (d <=? 31) && (h <? 24) && (mi <? 60) && (s <? 60)
  then Some (days_from_civil y mo d * 86400 + h * 3600 + mi * 60 + s) else None.

(** The fields of a certificate: serial number, signature, issuer, validity, subject
    and public key. *)
Definition sample_fields (not_before not_after key : list Z) : list (Z * list Z) :=
  [(0x02, [1]); (0x30, []); (0x30, []); (0x30, not_before ++ not_after); (0x30, []); (0x30, key)].
Definition sample_cert : Certificate :=
  der_certificate (Some [2]) (sample_fields (utc_time 24 5 31 23 55 0) (utc_time 25 6 26 0 0 0) [7; 7]) [1; 2; 3].

Example sample_validity : validity civil sample_cert = Some (1717199700, 1750896000).
Proof. vm_compute. reflexivity. Qed.

Lemma pinned_key_trusted_witness :
  ∃ c, for_upstream (fun _ => Some (repeat 5 32)) bundle_new false true (Some "pin"%string) = Some c ∧ cc_enable_sni c = true ∧
    verify_server_cert (fun l => repeat (List.last l 0 - 2) 32) (fun _ => false) (cc_verifier c) sample_cert = Ok () ∧
    verify_server_cert (fun l => repeat (List.last l 0) 32) (fun _ => false) (cc_verifier c) sample_cert = Err PinMismatch.
Proof.
  destruct (pinned_key_trusted (fun _ => Some (repeat 5 32)) (fun l => repeat (List.last l 0 - 2) 32) (fun _ => false) false true "pin"%string
    (repeat 5 32) (Some [2]) (sample_fields (utc_time 24 5 31 23 55 0) (utc_time 25 6 26 0 0 0) [7; 7]) [1; 2; 3] [7; 7])
    as (c & Hc & Hs & Hv).
  - reflexivity.
  - reflexivity.
  - vm_compute. reflexivity.
  - reflexivity.
  - discriminate.
  - exists c. split; [exact Hc|]. split; [exact Hs|]. split; [apply Hv; split; [reflexivity|discriminate]|].
    injection Hc as <-. vm_compute. reflexivity.
Defined.

(** A library whose keys are numbers, and whose certificates for the moment of the
    sample are the sample. *)
Definition sample_now : Z := 1717200000.
Definition sample_key_pem (k : Z) : list Z := [k].
Definition sample_sign (p : ServerParams) (_ : RootParams) (_ _ : Z) : option (list Z * list Z) :=
  if (sp_not_before p =? 1717199700) && (sp_not_after p =? 1750896000) then Some (sample_cert, [9]) else None.
Definition sample_path (s : string) : PathBuf := mkPathBuf true [s].
Definition sample_prepare (writable : PathBuf → bool) (now : Z) (d : gmap PathBuf (list Z)) :=
  prepare_server_certificate sample_key_pem head (Some 1) (Some 2) (fun _ => true) sample_sign civil (fun l => Some [l])
    (text_of "dns.lan") [V4 0x7f000001] sample_path writable (sample_path "etc") now None cert_default [] ssl_default d.
Definition cert_at : PathBuf := mkPathBuf true ["etc"; "smartdns-cert.pem"]%string.
Definition key_at : PathBuf := mkPathBuf true ["etc"; "smartdns-key.pem"]%string.
Definition root_at : PathBuf := mkPathBuf true ["etc"; "smartdns-root-key.pem"]%string.
Definition made : gmap PathBuf (list Z) := (sample_prepare (fun _ => true) sample_now ∅).2.

Lemma listener_certificate_witness :
  (sample_prepare (fun _ => true) sample_now ∅).1 = Ok (cert_at, key_at) ∧
  (made !! key_at, made !! root_at) = (Some [2], Some [1]) ∧
  sample_prepare (fun _ => true) 1750000000 made = (Ok (cert_at, key_at), made).
Proof.
  assert (Hok : (sample_prepare (fun _ => true) sample_now ∅).1 = Ok (cert_at, key_at)) by (vm_compute; reflexivity).
  assert (Hr : sample_prepare (fun _ => true) sample_now ∅ = (Ok (cert_at, key_at), made)).
  { rewrite <- Hok. apply surjective_pairing. }
  split; [exact Hok|]. split; [vm_compute; reflexivity|].
  assert (Hsign : signs sample_sign civil (fun l => Some [l]) (text_of "dns.lan") [V4 0x7f000001] sample_now cert_default []).
  { intros key root a b Hs. assert (Hab : sample_sign (server_params (text_of "dns.lan") [V4 0x7f000001] sample_now cert_default [])
      (root_params sample_now) key root = Some (sample_cert, [9])) by reflexivity.
    rewrite Hab in Hs. injection Hs as <- <-. exists (sample_cert ++ [9]), []. split; [reflexivity|]. vm_compute. reflexivity. }
  destruct (listener_certificate sample_key_pem head (Some 1) (Some 2) (fun _ => true) sample_sign civil (fun l => Some [l])
    (text_of "dns.lan") [V4 0x7f000001] sample_path (fun _ => true) (sample_path "etc") sample_now None cert_default [] ssl_default
    ∅ _ made cert_at key_at eq_refl ltac:(discriminate) Hsign Hr) as (_ & _ & Hlater).
  destruct (Hlater (cert_at, key_at) eq_refl eq_refl) as (_ & _ & Hkept). apply Hkept.
  - intros (bytes & cert & more & nb & na & Hc & _). rewrite lookup_empty in Hc. discriminate.
  - vm_compute. split; discriminate.
Defined.

(** The key is written before the certificate: when the certificate then cannot be,
    the new key is beside the old certificate, and is used with it. *)
Lemma key_without_certificate :
  let old := der_certificate (Some [2]) (sample_fields (utc_time 20 1 1 0 0 0) (utc_time 21 1 1 0 0 0) [5]) [] in
  let r := sample_prepare (fun p => negb (bool_decide (p = cert_at))) sample_now (<[cert_at := old]> (<[key_at := [5]]> ∅)) in
  r.1 = Err WriteFails ∧ r.2 !! key_at = Some [2] ∧ r.2 !! cert_at = Some old.
Proof. vm_compute. split_and!; reflexivity. Qed.
