(* ===== verification/Resolver.v ===== *)
(** * Servers and the addresses of hosts ([dns_client.rs], [preset_ns.rs])

    [NameServer::new], which the servers of a client are made by, the resolver of the
    system's configuration, and [lookup_ip], by which the address of an upstream is
    found. A connection is an argument, as is the configuration of the system. *)

From S2P Require Import Prelude Names Config Message Runtime Tasks Context DnsUrl Text Upstream ClientBuild ConfigItems Ping Nom ParseValues ParseServers Connect Certificates.

(** ** [lookup_ip] *)
Inductive LookupIpStrategy := Ipv4Only | Ipv6Only | Ipv4AndIpv6 | Ipv6thenIpv4 | Ipv4thenIpv6.

Section LookupIp.
Context {Name : Type} `{NameLib Name} `{MsgLib Name}.
Abbreviation Res := (result (DnsResponse Name) (LookupError Name)).
(** The resolver that is asked; it may keep what it is answered. *)
Context {W : Type}.
Variable lookup : Instant → Name → RecordType → W → Outcome Res * W.
Variable strategy : LookupIpStrategy.
Variable ndots : Z.
(** [Name::default]: the root. *)
Variable default_name : Name.
Variable ERR_NAME : LookupError Name.

(** [select]: the first that is ready, the left one when both are; the other is
    dropped. A lookup that is ready at once is not waited for. *)
Definition select_lookup (now : Instant) (left right : W → Outcome Res * W) (w : W) : Outcome Res * W :=
  let '(l, wl) := left w in
  match l with
  | Done tl rl =>
      if tl <=? now then (l, wl)
      else
        let '(r, wr) := right w in
        match r with
        | Done tr _ => if tl <=? tr then (l, wl) else (r, wr)
        | _ => (r, wr)
        end
  | _ => (l, wl)
  end.

(** One lookup, and another when it fails. *)
Definition then_lookup (now : Instant) (name : Name) (first second : RecordType) (w : W) : Outcome Res * W :=
  let '(o, w) := lookup now name first w in
  match o with
  | Done t (Err _) => lookup t name second w
  | _ => (o, w)
  end.

Definition lookup_by_strategy (now : Instant) (name : Name) (w : W) : Outcome Res * W :=
  match strategy with
  | Ipv4Only => lookup now name TYPE_A w
  | Ipv6Only => lookup now name TYPE_AAAA w
  | Ipv4AndIpv6 => select_lookup now (lookup now name TYPE_A) (lookup now name TYPE_AAAA) w
  | Ipv6thenIpv4 => then_lookup now name TYPE_AAAA TYPE_A w
  | Ipv4thenIpv6 => then_lookup now name TYPE_A TYPE_AAAA w
  end.

(** The host: the address it is, if it is one, and its name, if it has one. *)
Definition lookup_ip (now : Instant) (to_ip : option IpAddr) (into_name : option Name) (w : W) : Outcome Res * W :=
  let record ip := mkRr (opt_unwrap_or default_name into_name) MAX_TTL (match ip with V4 a => RA a | V6 a => RAAAA a end) in
  let direct ip := Done now (Ok (new_with_max_ttl now (query_of (rr_name (record ip)) (rr_type (record ip))) [record ip])) in
  match to_ip, into_name with
  | Some ip, None => (direct ip, w)
  | Some ip, Some name => if ndots <=? 4 then (direct ip, w) else lookup_by_strategy now name w
  | None, Some name => lookup_by_strategy now name w
  | None, None => (Done now (Err ERR_NAME), w)
  end.

(** It ends when the lookups do. *)
Lemma host_lookup_ends now to_ip into_name w :
  (∀ t name ty w, ∃ t' r, (lookup t name ty w).1 = Done t' r) → ∃ t r, (lookup_ip now to_ip into_name w).1 = Done t r.
Proof.
  intros Hl. assert (Hs : ∀ name, ∃ t r, (lookup_by_strategy now name w).1 = Done t r).
  { intros name. unfold lookup_by_strategy, select_lookup, then_lookup.
    destruct (Hl now name TYPE_A w) as (t4 & r4 & E4), (Hl now name TYPE_AAAA w) as (t6 & r6 & E6).
    destruct strategy; [by eexists _, _|by eexists _, _|..];
      destruct (lookup now name TYPE_A w) as [o4 w4], (lookup now name TYPE_AAAA w) as [o6 w6]; cbn in E4, E6; subst.
    - destruct (_ <=? _); [by eexists _, _|]. destruct (t4 <=? t6); by eexists _, _.
    - destruct r6; [by eexists _, _|apply Hl].
    - destruct r4; [by eexists _, _|apply Hl]. }
  unfold lookup_ip. destruct to_ip, into_name; [destruct (_ <=? _)|..]; by eauto.
Qed.

(** Of the lookups at the same time the first to end is the answer, also when it is
    an error and the other would have found an address. *)
Lemma first_lookup_wins now name w t4 t6 e r4 w4 w6 :
  strategy = Ipv4AndIpv6 → lookup now name TYPE_A w = (Done t4 r4, w4) → lookup now name TYPE_AAAA w = (Done t6 (Err e), w6) →
  now ≤ t6 → t6 < t4 → lookup_by_strategy now name w = (Done t6 (Err e), w6).
Proof.
  intros Hs H4 H6 Hn Ht. unfold lookup_by_strategy, select_lookup. rewrite Hs, H4, H6.
  destruct (Z.leb_spec t4 now); [lia|]. destruct (Z.leb_spec t4 t6); [lia|done].
Qed.
End LookupIp.

(** ** Servers *)
Inductive NsError := ResolverRequired | TlsConfigRequired | TlsConfigFails.

(** [Protocol::is_encrypted] of the protocols of URLs. *)
Definition is_encrypted (p : ProtocolConfig) : bool :=
  match p with ProtoTls | ProtoHttps _ _ | ProtoQuic | ProtoH3 _ _ => true | _ => false end.

(** What a connection is made with. *)
Record ConnectionArgs (Name : Type) := mkConnArgs {
  ca_server : DnsUrl;
  ca_options : NameServerOpts;
  ca_tls : option ClientConfig;
  ca_resolver : option (BootstrapResolver Name);
  ca_proxy : option ProxyConfig;
  ca_so_mark : option Z;
  ca_device : option string;
}.
Arguments mkConnArgs {Name} _ _ _ _ _ _ _.

Section Servers.
Context {Name : Type} `{NameLib Name} `{MsgLib Name} `{FL : FuturesLib}.
Abbreviation Res := (result (DnsResponse Name) (LookupError Name)).
Variable base64 : string → option (list Z).
(** A subnet as an option of a query; a connection. *)
Variable subnet_option : IpNet → ClientSubnet.
Variable connection : ConnectionArgs Name → Instant → Query Name → DnsRequestOptions → option UpEdns → Task Res.
(** The resolver options a lookup reads, of a resolver and by default. *)
Variable resolver_opts : BootstrapResolver Name → bool * bool.
Variable default_opts : bool * bool.

(** [NameServer::new] *)
Definition ns_new (s : ServerConf) (proxy : option ProxyConfig) (tls : option TlsClientConfigBundle)
    (resolver : option (BootstrapResolver Name)) (default_client_subnet : option ClientSubnet) : result (NameServer Name) NsError :=
  let url := sc_server s in
  let o := sc_options s in
  if negb (has_ip url) && is_none resolver then Err ResolverRequired
  else
    let made := fun tls_config =>
      let ro := opt_map_or default_opts resolver_opts resolver in
      let options := mkNsOpts (sv_blacklist_ip o) (sv_whitelist_ip o) (sv_check_edns o)
                       (opt_or (subnet_option <$> sv_subnet o) default_client_subnet) ro.1 ro.2 in
      Ok (mkNs options (connection (mkConnArgs url options tls_config resolver proxy (sv_so_mark o) (sv_interface o)))) in
    if is_encrypted (url_proto url) then
      match tls with
      | None => Err TlsConfigRequired
      | Some bundle =>
          match for_upstream base64 bundle (ssl_verify (url_params url)) (negb (sni_off (url_params url))) (sv_spki_pin o) with
          | None => Err TlsConfigFails
          | Some c => made (Some c)
          end
      end
    else made None.

(** What fails: a host without a resolver for it, and a pin that is not one. *)
Lemma for_upstream_fails bundle verify sni pin :
  for_upstream base64 bundle verify sni pin = None ↔ ∃ p, pin = Some p ∧ parse_spki_pin base64 p = None.
Proof.
  unfold for_upstream. destruct pin as [p|]; [|by split; [|intros (? & [=] & _)]].
  destruct (parse_spki_pin base64 p) eqn:Ep; cbn; [|by split; [intros _; exists p|]].
  split; [done|]. intros (q & [= <-] & Hq). congruence.
Qed.

Lemma ns_new_fails s proxy bundle resolver subnet :
  is_ok (ns_new s proxy (Some bundle) resolver subnet) = false ↔
  (has_ip (sc_server s) = false ∧ resolver = None) ∨
  (is_encrypted (url_proto (sc_server s)) = true ∧ ∃ pin, sv_spki_pin (sc_options s) = Some pin ∧ parse_spki_pin base64 pin = None).
Proof.
  unfold ns_new. destruct (negb (has_ip (sc_server s)) && is_none resolver) eqn:Eh.
  { split; [|done]. intros _. left. apply andb_true_iff in Eh as [Hi Hr]. apply negb_true_iff in Hi. split; [done|by destruct resolver]. }
  assert (Hno : ¬ (has_ip (sc_server s) = false ∧ resolver = None)) by (intros [Hi ->]; by rewrite Hi in Eh).
  destruct (is_encrypted _); [|split; [done|intros [?|[? _]]; done]].
  destruct (for_upstream _ _ _ _ _) eqn:Ef.
  - split; [done|]. intros [?|[_ Hp]]; [done|].
    rewrite (proj2 (for_upstream_fails bundle (ssl_verify (url_params (sc_server s))) (negb (sni_off (url_params (sc_server s)))) _) Hp) in Ef. done.
  - split; [|done]. intros _. right. split; [done|]. by eapply for_upstream_fails.
Qed.

(** *** The resolver of the system ([from_system_conf]) *)
Context `{UL : UrlLib} `{U : Unicode}.
Variable system_conf : option (list LibServer).
(** [ServerGroup::https]; [CLOUDFLARE] is the library's. *)
Record ServerGroup := mkServerGroup { sg_ips : list IpAddr; sg_server_name : string; sg_path : string }.
Variable group_https : ServerGroup → list LibServer.
Variable CLOUDFLARE : ServerGroup.

Definition ALIDNS : ServerGroup :=
  mkServerGroup [V4 (0xDF050505); V4 (0xDF060606); V6 (0x24003200baba00000000000000000001); V6 (0x24003200000000000000000000000001)]
    "dns.alidns.com" "/dns-query".

Definition presets : list LibServer := group_https ALIDNS ++ group_https CLOUDFLARE.

(** A server from a URL: in no group, and with no options. *)
Definition conf_of_url (u : DnsUrl) : ServerConf := mkConf (mkServer [] false) u false None server_options_default.

(** None: the address of a server does not parse, a panic. *)
Definition system_urls (listeners : list Listener) (interfaces : list IpAddr) : option (list DnsUrl) :=
  let servers := opt_unwrap_or presets system_conf in
  urls ← mapM url_of_config servers;
  match without_own listeners interfaces urls with
  | ([], S _) => mapM url_of_config presets
  | (urls, _) => Some urls
  end.

Definition from_system_conf (listeners : list Listener) (interfaces : list IpAddr) (bundle : TlsClientConfigBundle)
    : option (BootstrapResolver Name) :=
  urls ← system_urls listeners interfaces;
  Some (bs_new (mkGroup (omap (fun u => match ns_new (conf_of_url u) None (Some bundle) None None with Ok s => Some s | Err _ => None end) urls))).

(** When the system names no servers at all, none stand in: the client that is built
    with none of its own has nothing to start from, and the program ends. *)
Lemma no_system_servers listeners interfaces bundle proxies order keys :
  system_conf = Some [] →
  ∃ boot, from_system_conf listeners interfaces bundle = Some boot ∧
    client_build proxies (fun s p r => match ns_new s p (Some bundle) r None with Ok x => Some x | Err _ => None end)
      order keys listeners interfaces boot [] = None.
Proof.
  intros Hs. eexists. unfold from_system_conf, system_urls. rewrite Hs. cbn [opt_unwrap_or mapM mbind option_bind].
  unfold without_own. cbn [List.filter length Nat.sub]. split; [done|]. done.
Qed.
End Servers.
