(* ===== verification/Service.v ===== *)
(** * Installation as a service ([service/])

    The files that are installed and removed, and the commands of the system's
    service manager in their order. The disk holds files and directories; what a
    command does is an argument: Linux first, then macOS and Windows, where the
    arguments of a command are one line. *)

From S2P Require Import Prelude Names Config Text DomainRule DomainRuleTree IpSet Message Runtime Context DnsUrl ClientBuild ConfigItems LogFile Nom.

(** ** The disk *)
Inductive Node := NFile (content : list Z) | NDir.
Abbreviation Disk := (gmap PathBuf Node).

Definition path_exists (d : Disk) (p : PathBuf) : bool := is_some (d !! p).
Definition is_dir (d : Disk) (p : PathBuf) : bool := match d !! p with Some NDir => true | _ => bool_decide (pa_comps p = []) end.

(** A path below a directory, or the directory. *)
Definition within (dir p : PathBuf) : bool :=
  bool_decide (pa_root dir = pa_root p) && bool_decide (take (length (pa_comps dir)) (pa_comps p) = pa_comps dir).

(** ** The items ([installer.rs]) and the commands ([service_manager.rs]) *)
Inductive InstallStrategy := Overide | Backup | Preserve.
Inductive UninstallStrategy := Keep | Remove | RemoveIfEmpty.
Inductive InstallContentOrPath := Content (bytes : list Z) | FromPath (p : PathBuf).
Record InstallItem := mkItem {
  ii_path : PathBuf;
  ii_file : option InstallContentOrPath;
  ii_install : InstallStrategy;
  ii_uninstall : UninstallStrategy;
}.
#[global] Instance UninstallStrategy_eq_dec : EqDecision UninstallStrategy.
Proof. solve_decision. Defined.

Record ServiceCommand := mkServiceCommand { sc_program : string; sc_args : list string }.
Record ServiceCommands := mkServiceCommands {
  c_install : option ServiceCommand;
  c_uninstall : option ServiceCommand;
  c_status : option ServiceCommand;
  c_start : ServiceCommand;
  c_stop : ServiceCommand;
  c_restart : option ServiceCommand;
}.
Record ServiceDefinition := mkServiceDefinition { sd_items : list InstallItem; sd_commands : ServiceCommands }.
Inductive ServiceStatus := Running | Dead | Unknown.
#[global] Instance ServiceStatus_eq_dec : EqDecision ServiceStatus.
Proof. solve_decision. Defined.

(** What the file system lets be made, written or removed. *)
Section Installer.
Context (allowed : PathBuf → bool).

(** [create_dir_all]: fails where a file is. *)
Definition dir_prefixes (p : PathBuf) : list PathBuf := (fun n => mkPathBuf (pa_root p) (take (S n) (pa_comps p))) <$> seq 0 (length (pa_comps p)).
Fixpoint make_dirs (l : list PathBuf) (d : Disk) : Disk * bool :=
  match l with
  | [] => (d, true)
  | q :: l =>
      match d !! q with
      | Some (NFile _) => (d, false)
      | Some NDir => make_dirs l d
      | None => if allowed q then make_dirs l (<[q := NDir]> d) else (d, false)
      end
  end.
Definition create_dir_all (p : PathBuf) (d : Disk) : Disk * bool := make_dirs (dir_prefixes p) d.

(** A file is removed, or a directory with what is in it. *)
Definition remove_path (p : PathBuf) (d : Disk) : Disk * bool :=
  if allowed p then (filter (fun x => within p x.1 = false) d, true) else (d, false).
(** [read_dir] finds nothing; false when it cannot be read. *)
Definition dir_is_empty (d : Disk) (p : PathBuf) : bool :=
  is_dir d p && forallb (fun x => bool_decide (x.1 = p) || negb (within p x.1)) (map_to_list d).

(** A file can be made where a directory is, and no directory is at its name. *)
Definition can_write (d : Disk) (p : PathBuf) : bool :=
  allowed p && opt_map_or false (is_dir d) (path_parent p) && negb (is_dir d p).

(** [open] to write and create, not to truncate, and [write_all]: what is longer stays. *)
Definition overwrite (p : PathBuf) (bytes : list Z) (d : Disk) : Disk * bool :=
  if can_write d p then
    let old := match d !! p with Some (NFile c) => c | _ => [] end in
    (<[p := NFile (bytes ++ drop (length bytes) old)]> d, true)
  else (d, false).
(** [fs::copy]: the destination is emptied before the source is read. *)
Definition copy (src dest : PathBuf) (d : Disk) : Disk * bool :=
  match d !! src with
  | Some (NFile c) => if can_write d dest then (<[dest := NFile (if bool_decide (src = dest) then [] else c)]> d, true) else (d, false)
  | _ => (d, false)
  end.

(** [append_extension] ([third_ext/path.rs]). *)
Definition append_extension (ext : string) (p : PathBuf) : PathBuf :=
  match last (pa_comps p) with
  | None => p
  | Some name => mkPathBuf (pa_root p) (take (length (pa_comps p) - 1) (pa_comps p) ++ [(name ++ "." ++ ext)%string])
  end.

(** One item; the disk is what the item has left when it fails. *)
Definition put (file : InstallContentOrPath) (dest : PathBuf) (d : Disk) : Disk * bool :=
  match file with Content bytes => overwrite dest bytes d | FromPath p => copy p dest d end.
Definition install_item (i : InstallItem) (d : Disk) : Disk * bool :=
  match ii_file i with
  | None => if path_exists d (ii_path i) then (d, true) else create_dir_all (ii_path i) d
  | Some file =>
      if path_exists d (ii_path i) then
        match ii_install i with
        | Backup =>
            let '(d, ok) := copy (ii_path i) (append_extension "bak" (ii_path i)) d in
            if ok then put file (ii_path i) d else (d, false)
        | Preserve => put file (append_extension "default" (ii_path i)) d
        | Overide => put file (ii_path i) d
        end
      else put file (ii_path i) d
  end.
Fixpoint install_items (items : list InstallItem) (d : Disk) : Disk * bool :=
  match items with
  | [] => (d, true)
  | i :: items => let '(d, ok) := install_item i d in if ok then install_items items d else (d, false)
  end.

Definition uninstall_item (purge : bool) (i : InstallItem) (d : Disk) : Disk * bool :=
  if purge || bool_decide (ii_uninstall i = Remove) then remove_path (ii_path i) d
  else if is_none (ii_file i) && bool_decide (ii_uninstall i = RemoveIfEmpty) && dir_is_empty d (ii_path i) then remove_path (ii_path i) d
  else (d, true).
Fixpoint uninstall_go (purge : bool) (items : list InstallItem) (d : Disk) (n : nat) : Disk * option nat :=
  match items with
  | [] => (d, Some n)
  | i :: items =>
      if path_exists d (ii_path i) then
        let '(d, ok) := uninstall_item purge i d in if ok then uninstall_go purge items d (S n) else (d, None)
      else uninstall_go purge items d n
  end.
(** From the last item to the first; the number of items found. *)
Definition uninstall_items (purge : bool) (items : list InstallItem) (d : Disk) : Disk * option nat :=
  uninstall_go purge (reverse items) d 0.

(** ** The service manager ([service_manager.rs]) *)
Section Manager.
Context {Sys : Type}.
(** What a command does to the system: [None] when it cannot be run, else
    whether it ends with success. *)
Variable output : ServiceCommand → Sys → Sys * option bool.
Variable def : ServiceDefinition.
Abbreviation St := (Disk * Sys)%type.

Definition spawn (c : ServiceCommand) (s : St) : St * bool :=
  let '(sys, r) := output c s.2 in ((s.1, sys), bool_decide (r = Some true)).
Definition status (s : St) : St * option ServiceStatus :=
  match c_status (sd_commands def) with
  | Some c => let '(sys, r) := output c s.2 in ((s.1, sys), (fun ok : bool => if ok then Running else Dead) <$> r)
  | None => (s, Some Unknown)
  end.
Definition start (s : St) : St * bool :=
  let '(s, st) := status s in
  if bool_decide (st = Some Running) then (s, true) else spawn (c_start (sd_commands def)) s.
Definition try_stop (s : St) : St * bool :=
  let '(s, st) := status s in
  if bool_decide (st = Some Dead) then (s, true) else spawn (c_stop (sd_commands def)) s.
Definition service_stop (s : St) : St * bool := try_stop s.
Definition service_restart (s : St) : St * bool :=
  match c_restart (sd_commands def) with
  | Some c => spawn c s
  | None => let '(s, _) := try_stop s in start s
  end.
(** How the command for it ends does not matter, quiet or not. *)
Definition service_uninstall (purge : bool) (s : St) : St * option nat :=
  let '(s, _) := try_stop s in
  let s := match c_uninstall (sd_commands def) with Some c => (spawn c s).1 | None => s end in
  let '(d, r) := uninstall_items purge (sd_items def) s.1 in
  ((d, s.2), r).
Definition service_install (s : St) : St * bool :=
  let s := (service_uninstall false s).1 in
  let '(d, ok) := install_items (sd_items def) s.1 in
  let s := (d, s.2) in
  if negb ok then (s, false)
  else
    let '(s, ok) := match c_install (sd_commands def) with Some c => spawn c s | None => (s, true) end in
    if negb ok then (s, false) else start s.
End Manager.
End Installer.

(** ** The service on Linux ([linux/mod.rs], [linux/systemd], [linux/initd]) *)
Definition SERVICE_NAME : string := "smartdns-rs".
Definition BIN_PATH : PathBuf := mkPathBuf true ["usr"; "sbin"; "smartdns"]%string.
Definition CONF_DIR : PathBuf := mkPathBuf true ["etc"; "smartdns"]%string.
Definition CONF_PATH : PathBuf := mkPathBuf true ["etc"; "smartdns"; "smartdns.conf"]%string.
Definition SYSTEMD_FILE_PATH : PathBuf := mkPathBuf true ["lib"; "systemd"; "system"; "smartdns-rs.service"]%string.
Definition INITD_FILE_PATH : PathBuf := mkPathBuf true ["etc"; "init.d"; "smartdns-rs"]%string.

Definition install_current_exe_to (current_exe cmd_path : PathBuf) : list InstallItem :=
  if bool_decide (current_exe = cmd_path) then [] else [mkItem cmd_path (Some (FromPath current_exe)) Overide Remove].
Definition service_items (current_exe service_file_path : PathBuf) (service_file default_conf : list Z) : list InstallItem :=
  install_current_exe_to current_exe BIN_PATH
  ++ [mkItem CONF_DIR None Overide RemoveIfEmpty;
      mkItem CONF_PATH (Some (Content default_conf)) Preserve Keep;
      mkItem service_file_path (Some (Content service_file)) Overide Remove;
      mkItem (path_join CONF_DIR (path_of_name "managed")) None Overide RemoveIfEmpty].

Definition systemd_definition (current_exe : PathBuf) (service_file default_conf : list Z) : ServiceDefinition :=
  let ctl verb := mkServiceCommand "systemctl" [verb; (SERVICE_NAME ++ ".service")%string] in
  mkServiceDefinition (service_items current_exe SYSTEMD_FILE_PATH service_file default_conf)
    (mkServiceCommands (Some (ctl "enable"%string)) (Some (ctl "disable"%string)) (Some (ctl "status"%string))
       (ctl "start"%string) (ctl "stop"%string) (Some (ctl "restart"%string))).
Definition initd_definition (current_exe : PathBuf) (service_file default_conf : list Z) : ServiceDefinition :=
  let ctl verb := mkServiceCommand "service" [SERVICE_NAME; verb] in
  mkServiceDefinition (service_items current_exe INITD_FILE_PATH service_file default_conf)
    (mkServiceCommands (Some (ctl "enable"%string)) (Some (ctl "disable"%string)) (Some (ctl "status"%string))
       (ctl "start"%string) (ctl "stop"%string) (Some (ctl "restart"%string))).

(** What is found out about the system, and the files the program holds; on
    other systems than these there is no service. *)
Record SystemInfo := mkSystemInfo { si_systemd : bool; si_initd : bool; si_openwrt : bool; si_debian : bool }.
Record ServiceFiles := mkServiceFiles { sf_systemd : list Z; sf_openwrt : list Z; sf_debian : list Z; sf_others : list Z; sf_default_conf : list Z }.
Definition create_service_definition (sys : SystemInfo) (files : ServiceFiles) (current_exe : PathBuf) : option ServiceDefinition :=
  if si_systemd sys then Some (systemd_definition current_exe (sf_systemd files) (sf_default_conf files))
  else if si_initd sys then
    Some (initd_definition current_exe
            (if si_openwrt sys then sf_openwrt files else if si_debian sys then sf_debian files else sf_others files)
            (sf_default_conf files))
  else None.

(** ** What is kept *)
Definition holds (p : PathBuf) (c : list Z) (d : Disk) : Prop := d !! p = Some (NFile c).

Section Proofs.
Context (allowed : PathBuf → bool).

Lemma make_dirs_keep p c l d : holds p c d → holds p c (make_dirs allowed l d).1.
Proof.
  unfold holds. revert d. induction l as [|q l IH]; intros d Hd; cbn; [done|].
  destruct (d !! q) as [[b|]|] eqn:Eq; [done|by apply IH|]. destruct (allowed q); [|done].
  apply IH. rewrite lookup_insert_ne; [done|]. intros ->. congruence.
Qed.

Lemma put_keeps p c dest file d : p ≠ dest → holds p c d → holds p c (put allowed file dest d).1.
Proof.
  unfold holds, put, overwrite, copy. intros Hp Hd. repeat case_match; cbn; try done; by rewrite lookup_insert_ne.
Qed.

Lemma append_extension_ne ext p : pa_comps p ≠ [] → append_extension ext p ≠ p.
Proof.
  intros Hp. unfold append_extension. destruct (last (pa_comps p)) as [name|] eqn:El; [|by apply last_None in El].
  destruct p as [r comps]. cbn in *. intros [= E]. apply last_Some in El as [l ->]. rewrite length_app in E. cbn in E.
  rewrite Nat.add_sub, take_app_length in E. apply app_inj_tail in E as [_ E].
  apply (f_equal String.length) in E. revert E. clear. induction name as [|a name IH]; cbn; [done|intros [= E]; by apply IH].
Qed.

(** Items that leave a file as it is when they are installed and removed. *)
Definition spares_install (p : PathBuf) (i : InstallItem) : bool :=
  match ii_file i with
  | None => true
  | Some _ =>
      if bool_decide (ii_path i = p) then match ii_install i with Preserve => true | _ => false end
      else negb (bool_decide (append_extension "bak" (ii_path i) = p)) && negb (bool_decide (append_extension "default" (ii_path i) = p))
  end.
Definition spares_uninstall (p : PathBuf) (i : InstallItem) : bool :=
  negb (within (ii_path i) p)
  || match ii_uninstall i, ii_file i with Keep, _ => true | RemoveIfEmpty, None => negb (bool_decide (ii_path i = p)) | _, _ => false end.

Lemma install_item_keeps p c i d : pa_comps p ≠ [] → spares_install p i = true → holds p c d → holds p c (install_item allowed i d).1.
Proof.
  intros Hne Hs Hd. unfold install_item. unfold spares_install in Hs. destruct (ii_file i) as [file|].
  - case_bool_decide as Hp.
    + subst. assert (path_exists d (ii_path i) = true) as -> by (unfold path_exists; by rewrite Hd).
      destruct (ii_install i); [done..|]. apply put_keeps; [|done]. intros E. symmetry in E. by apply append_extension_ne in E.
    + apply andb_true_iff in Hs as [Hb%negb_true_iff%bool_decide_eq_false Hdf%negb_true_iff%bool_decide_eq_false].
      destruct (path_exists d (ii_path i)); [|by apply put_keeps].
      destruct (ii_install i); [by apply put_keeps| |by apply put_keeps].
      pose proof (put_keeps p c (append_extension "bak" (ii_path i)) (FromPath (ii_path i)) d (not_eq_sym Hb) Hd) as Hc. cbn [put] in Hc.
      destruct (copy _ _ _ d) as [d' []]; [by apply put_keeps|done].
  - destruct (path_exists _ _); [done|]. by apply make_dirs_keep.
Qed.

Lemma install_items_keep p c items d :
  pa_comps p ≠ [] → forallb (spares_install p) items = true → holds p c d → holds p c (install_items allowed items d).1.
Proof.
  intros Hne. revert d. induction items as [|i items IH]; intros d; cbn; [done|].
  intros [Hi Hs]%andb_true_iff Hd. pose proof (install_item_keeps p c i d Hne Hi Hd) as H1. destruct (install_item allowed i d) as [d1 []]; [by apply IH|done].
Qed.

Lemma remove_path_keeps q p c d : within q p = false → holds p c d → holds p c (remove_path allowed q d).1.
Proof. intros Hw Hd. unfold holds, remove_path. destruct (allowed q); [|done]. apply map_lookup_filter_Some. by split. Qed.

Lemma empty_holds_nothing q p c d : dir_is_empty d q = true → within q p = true → q ≠ p → ¬ holds p c d.
Proof.
  intros [_ He]%andb_true_iff Hw Hq Hd. rewrite forallb_forall in He. specialize (He (p, NFile c)). cbn in He.
  rewrite Hw, bool_decide_false in He by congruence. enough (In (p, NFile c) (map_to_list d)) as Hin by by specialize (He Hin).
  by apply list_elem_of_In, elem_of_map_to_list.
Qed.

Lemma uninstall_item_keeps p c i d : spares_uninstall p i = true → holds p c d → holds p c (uninstall_item allowed false i d).1.
Proof.
  intros Hs Hd. unfold uninstall_item. cbn [orb]. unfold spares_uninstall in Hs.
  destruct (within (ii_path i) p) eqn:Hw; cbn [negb orb] in Hs; [|repeat case_match; [by apply remove_path_keeps..|done]].
  destruct (ii_uninstall i); [|done|].
  - rewrite !bool_decide_false by done. by rewrite andb_false_r.
  - rewrite bool_decide_false by done. destruct (dir_is_empty d (ii_path i)) eqn:He; [|by rewrite andb_false_r].
    destruct (ii_file i); [done|]. apply negb_true_iff, bool_decide_eq_false in Hs. by destruct (empty_holds_nothing (ii_path i) p c d).
Qed.

Lemma uninstall_go_keeps p c items d n : forallb (spares_uninstall p) items = true → holds p c d → holds p c (uninstall_go allowed false items d n).1.
Proof.
  revert d n. induction items as [|i items IH]; intros d n; cbn [uninstall_go forallb]; [done|].
  intros [Hi Hs]%andb_true_iff Hd. destruct (path_exists _ _); [|by apply IH].
  pose proof (uninstall_item_keeps p c i d Hi Hd) as H1. destruct (uninstall_item allowed false i d) as [d1 []]; [by apply IH|done].
Qed.

Lemma forallb_reverse {A} (f : A → bool) l : forallb f (reverse l) = forallb f l.
Proof.
  apply eq_bool_prop_intro. rewrite !forallb_True, !Forall_forall. by setoid_rewrite elem_of_reverse.
Qed.

Lemma uninstall_items_keep p c items d : forallb (spares_uninstall p) items = true → holds p c d → holds p c (uninstall_items allowed false items d).1.
Proof. intros Hs. apply uninstall_go_keeps. by rewrite forallb_reverse. Qed.

(** ** What is removed *)
Lemma uninstall_item_sub purge i d : (uninstall_item allowed purge i d).1 ⊆ d.
Proof. unfold uninstall_item, remove_path. repeat case_match; cbn; [apply map_filter_subseteq|done|apply map_filter_subseteq|done|done]. Qed.

Lemma absent_sub p (d d' : Disk) : d' ⊆ d → d !! p = None → d' !! p = None.
Proof. intros Hs Hp. eapply lookup_weaken_None; eauto. Qed.

Lemma uninstall_go_sub purge items d n : (uninstall_go allowed purge items d n).1 ⊆ d.
Proof.
  revert d n. induction items as [|i items IH]; intros d n; cbn [uninstall_go]; [done|].
  destruct (path_exists _ _); [|apply IH]. pose proof (uninstall_item_sub purge i d) as Hs.
  destruct (uninstall_item allowed purge i d) as [d1 []]; [|done]. etrans; [apply IH|done].
Qed.

Lemma within_refl p : within p p = true.
Proof. unfold within. by rewrite firstn_all, !bool_decide_true. Qed.

Lemma uninstall_item_removes purge i d d' :
  purge || bool_decide (ii_uninstall i = Remove) = true → uninstall_item allowed purge i d = (d', true) → d' !! ii_path i = None.
Proof.
  unfold uninstall_item, remove_path. intros ->. destruct (allowed _); intros [= <-].
  apply map_lookup_filter_None. right. intros x _. cbn. by rewrite within_refl.
Qed.

Lemma uninstall_go_removes purge i items d n d' m :
  i ∈ items → purge || bool_decide (ii_uninstall i = Remove) = true → uninstall_go allowed purge items d n = (d', Some m) → d' !! ii_path i = None.
Proof.
  intros Hi Hr. revert d n. induction items as [|j items IH]; intros d n; cbn [uninstall_go]; [by apply not_elem_of_nil in Hi|].
  apply elem_of_cons in Hi as [<-|Hi]; [|repeat case_match; [by apply IH|done|by apply IH]].
  assert (Hgone : ∀ d0 k, d0 !! ii_path i = None → uninstall_go allowed purge items d0 k = (d', Some m) → d' !! ii_path i = None).
  { intros d0 k H0 E. eapply absent_sub; [|exact H0]. change d' with (d', Some m).1. rewrite <- E. apply uninstall_go_sub. }
  unfold path_exists at 1. destruct (d !! ii_path i) as [x|] eqn:Ex; cbn [is_some]; [|by apply Hgone].
  destruct (uninstall_item allowed purge i d) as [d1 []] eqn:E1; [|done]. apply Hgone. by eapply uninstall_item_removes.
Qed.

Lemma uninstall_items_remove purge i items d d' m :
  i ∈ items → purge || bool_decide (ii_uninstall i = Remove) = true → uninstall_items allowed purge items d = (d', Some m) → d' !! ii_path i = None.
Proof. intros Hi Hr. apply uninstall_go_removes; [by apply elem_of_reverse|done]. Qed.

(** ** What is written *)
(** An item that makes nothing at a path. *)
Definition avoids (p : PathBuf) (i : InstallItem) : bool :=
  negb (bool_decide (p ∈ ii_path i :: append_extension "bak" (ii_path i) :: append_extension "default" (ii_path i) :: dir_prefixes (ii_path i))).

Lemma make_dirs_absent p l d : p ∉ l → d !! p = None → (make_dirs allowed l d).1 !! p = None.
Proof.
  revert d. induction l as [|q l IH]; intros d Hp Hd; cbn; [done|]. apply not_elem_of_cons in Hp as [Hq Hp].
  destruct (d !! q) as [[b|]|]; [done|by apply IH|]. destruct (allowed q); [|done]. apply IH; [done|]. by rewrite lookup_insert_ne.
Qed.

Lemma put_absent p dest file d : p ≠ dest → d !! p = None → (put allowed file dest d).1 !! p = None.
Proof. unfold put, overwrite, copy. intros Hp Hd. repeat case_match; cbn; try done; by rewrite lookup_insert_ne. Qed.

Lemma install_item_absent p i d : avoids p i = true → d !! p = None → (install_item allowed i d).1 !! p = None.
Proof.
  unfold avoids. intros Ha%negb_true_iff%bool_decide_eq_false Hd. rewrite !not_elem_of_cons in Ha. destruct Ha as (Hp & Hb & Hdf & Hl).
  unfold install_item. destruct (ii_file i) as [file|].
  - destruct (path_exists _ _); [|by apply put_absent]. destruct (ii_install i); [by apply put_absent| |by apply put_absent].
    pose proof (put_absent p (append_extension "bak" (ii_path i)) (FromPath (ii_path i)) d Hb Hd) as Hc. cbn [put] in Hc.
    destruct (copy _ _ _ d) as [d' []]; [by apply put_absent|done].
  - destruct (path_exists _ _); [done|]. by apply make_dirs_absent.
Qed.

Lemma install_items_app a b d :
  install_items allowed (a ++ b) d = let '(d, ok) := install_items allowed a d in if ok then install_items allowed b d else (d, false).
Proof. revert d. induction a as [|i a IH]; intros d; cbn [app install_items]; [by destruct (install_items _ b d)|]. by destruct (install_item allowed i d) as [d1 []]. Qed.

Lemma install_items_absent p items d : forallb (avoids p) items = true → d !! p = None → (install_items allowed items d).1 !! p = None.
Proof.
  revert d. induction items as [|i items IH]; intros d; cbn; [done|].
  intros [Hi Hs]%andb_true_iff Hd. pose proof (install_item_absent p i d Hi Hd) as H1. destruct (install_item allowed i d) as [d1 []]; [by apply IH|done].
Qed.

(** A file that was not there holds what its item says once all is installed. *)
Lemma install_items_write pre p bytes si su post d d' :
  pa_comps p ≠ [] → forallb (avoids p) pre = true → forallb (spares_install p) post = true → d !! p = None →
  install_items allowed (pre ++ mkItem p (Some (Content bytes)) si su :: post) d = (d', true) → holds p bytes d'.
Proof.
  intros Hne Hpre Hpost Hd. rewrite install_items_app. pose proof (install_items_absent p pre d Hpre Hd) as H1.
  destruct (install_items allowed pre d) as [d1 []]; [|done]. cbn [fst] in H1. cbn [install_items].
  unfold install_item at 1, path_exists. cbn [ii_file ii_path]. rewrite H1. cbn [is_some put]. unfold overwrite. rewrite H1.
  destruct (can_write allowed d1 p); [|done]. rewrite drop_nil, app_nil_r. intros E. change d' with (d', true).1. rewrite <- E.
  apply install_items_keep; [done..|]. apply lookup_insert_eq.
Qed.

Section Managed.
Context {Sys : Type} (output : ServiceCommand → Sys → Sys * option bool) (def : ServiceDefinition).

(** Commands are run between the changes of the disk, not within them. *)
Lemma try_stop_disk s : (try_stop output def s).1.1 = s.1.
Proof. unfold try_stop, status, spawn. repeat case_match; simplify_eq/=; done. Qed.

Lemma service_uninstall_disk purge s :
  (service_uninstall allowed output def purge s).1.1 = (uninstall_items allowed purge (sd_items def) s.1).1
  ∧ (service_uninstall allowed output def purge s).2 = (uninstall_items allowed purge (sd_items def) s.1).2.
Proof.
  unfold service_uninstall, spawn. pose proof (try_stop_disk s) as Hs. destruct (try_stop output def s) as [s1 b]. cbn in Hs. rewrite <- Hs.
  destruct (c_uninstall _) as [c|]; [destruct (output c s1.2); cbn|]; by destruct (uninstall_items _ _ _ s1.1).
Qed.

Lemma service_install_disk s :
  let r := install_items allowed (sd_items def) (uninstall_items allowed false (sd_items def) s.1).1 in
  (service_install allowed output def s).1.1 = r.1 ∧ ((service_install allowed output def s).2 = true → r.2 = true).
Proof.
  unfold service_install. destruct (service_uninstall_disk false s) as [E _]. rewrite <- E.
  destruct (install_items _ _ _) as [d []]; cbn; [|done]. unfold start, status, spawn.
  repeat (case_match; simplify_eq/=; try done).
Qed.
End Managed.
End Proofs.

Lemma service_definition_items sys files exe def :
  create_service_definition sys files exe = Some def →
  ∃ path file, path ∈ [SYSTEMD_FILE_PATH; INITD_FILE_PATH] ∧ sd_items def = service_items exe path file (sf_default_conf files).
Proof.
  unfold create_service_definition. intros E. repeat case_match; simplify_eq; eexists _, _; (split; [|reflexivity]); rewrite !elem_of_cons; auto.
Qed.

Lemma service_items_spare exe path file conf :
  path ∈ [SYSTEMD_FILE_PATH; INITD_FILE_PATH] →
  forallb (spares_install CONF_PATH) (service_items exe path file conf) = true
  ∧ forallb (spares_uninstall CONF_PATH) (service_items exe path file conf) = true.
Proof.
  intros Hpath. unfold service_items, install_current_exe_to.
  repeat (apply elem_of_cons in Hpath as [->|Hpath]; [destruct (bool_decide (exe = BIN_PATH)); by vm_compute|]).
  by apply not_elem_of_nil in Hpath.
Qed.

(** Installing the service and removing it, however the commands of the
    system end and wherever it fails, leaves the configuration as it is, but for
    a removal that is to purge; an installation that succeeds writes the
    default configuration where there is none; a removal that succeeds leaves
    neither the file of the service nor the program, unless the program is the
    one that runs, and with purge no configuration. *)
Theorem service_keeps_configuration {Sys} allowed (output : ServiceCommand → Sys → Sys * option bool) sys files exe def (s : Disk * Sys) :
  create_service_definition sys files exe = Some def →
  (∀ c, s.1 !! CONF_PATH = Some (NFile c) →
     (service_install allowed output def s).1.1 !! CONF_PATH = Some (NFile c)
     ∧ (service_uninstall allowed output def false s).1.1 !! CONF_PATH = Some (NFile c))
  ∧ (s.1 !! CONF_PATH = None → (service_install allowed output def s).2 = true →
     (service_install allowed output def s).1.1 !! CONF_PATH = Some (NFile (sf_default_conf files)))
  ∧ (∀ purge n, (service_uninstall allowed output def purge s).2 = Some n →
     ∃ path, path ∈ [SYSTEMD_FILE_PATH; INITD_FILE_PATH]
     ∧ ∀ p, p = path ∨ (exe ≠ BIN_PATH ∧ p = BIN_PATH) ∨ (purge = true ∧ p = CONF_PATH) →
         (service_uninstall allowed output def purge s).1.1 !! p = None).
Proof.
  intros (path & file & Hpath & Ei)%service_definition_items.
  destruct (service_install_disk allowed output def s) as [Hi Hok]. rewrite Hi, Ei in *.
  destruct (service_items_spare exe path file (sf_default_conf files) Hpath) as [Hsi Hsu].
  split; [|split].
  - intros c Hc. destruct (service_uninstall_disk allowed output def false s) as [-> _]. rewrite Ei.
    pose proof (uninstall_items_keep allowed CONF_PATH c _ s.1 Hsu Hc) as Hu. split; [|done]. by apply install_items_keep.
  - intros Hc H1. specialize (Hok H1).
    set (d := (uninstall_items allowed false _ s.1).1) in *.
    assert (Hd : d !! CONF_PATH = None) by (eapply absent_sub; [apply uninstall_go_sub|done]).
    destruct (install_items allowed _ d) as [d' r] eqn:E. cbn [snd] in Hok. subst r.
    apply (install_items_write allowed (install_current_exe_to exe BIN_PATH ++ [mkItem CONF_DIR None Overide RemoveIfEmpty]) CONF_PATH _ Preserve Keep
      [mkItem path (Some (Content file)) Overide Remove; mkItem (path_join CONF_DIR (path_of_name "managed")) None Overide RemoveIfEmpty] d d').
    + done.
    + unfold install_current_exe_to. by destruct (bool_decide _); vm_compute.
    + repeat (apply elem_of_cons in Hpath as [->|Hpath]; [by vm_compute|]); by apply not_elem_of_nil in Hpath.
    + done.
    + rewrite <- app_assoc. exact E.
  - intros purge n Hn. exists path. split; [done|]. destruct (service_uninstall_disk allowed output def purge s) as [-> Hr].
    rewrite Hn, Ei in Hr. rewrite Ei. intros p Hp.
    destruct (uninstall_items allowed purge _ s.1) as [d' r] eqn:E. cbn in Hr. subst r. cbn.
    assert (∃ i, i ∈ service_items exe path file (sf_default_conf files) ∧ p = ii_path i ∧ purge || bool_decide (ii_uninstall i = Remove) = true)
      as (i & Hi1 & -> & Hi2); [|by eapply uninstall_items_remove].
    unfold service_items, install_current_exe_to. destruct Hp as [->|[[Hexe ->]|[-> ->]]].
    + exists (mkItem path (Some (Content file)) Overide Remove). split; [rewrite ?elem_of_app, !elem_of_cons; auto 8|]. split; [done|]. by rewrite orb_true_r.
    + exists (mkItem BIN_PATH (Some (FromPath exe)) Overide Remove). rewrite bool_decide_false by done. split; [rewrite ?elem_of_app, !elem_of_cons; auto 8|]. split; [done|]. by rewrite orb_true_r.
    + exists (mkItem CONF_PATH (Some (Content (sf_default_conf files))) Preserve Keep). split; [rewrite ?elem_of_app, !elem_of_cons; auto 8|done].
Qed.

(** Where all may be written and every command succeeds. *)
Definition etc_disk (conf : option (list Z)) : Disk :=
  let dir names := mkPathBuf true names in
  let d := list_to_map ((., NDir) <$> [dir ["usr"]; dir ["usr"; "sbin"]; dir ["etc"]; dir ["etc"; "init.d"]; CONF_DIR])%string in
  let d := <[dir ["root"; "smartdns"]%string := NFile [7; 7]]> d in
  match conf with Some c => <[CONF_PATH := NFile c]> d | None => d end.
Definition always_done (_ : ServiceCommand) (n : nat) : nat * option bool := (S n, Some true).
Definition initd_system : SystemInfo := mkSystemInfo false true false true.
Definition example_files (conf : list Z) : ServiceFiles := mkServiceFiles [] [] [3] [] conf.

Lemma service_keeps_configuration_witness :
  let exe := mkPathBuf true ["root"; "smartdns"]%string in
  let def := initd_definition exe [3] [1; 2] in
  let install s := service_install (λ _, true) always_done def s in
  (install (etc_disk (Some [9]), 0%nat)).2 = true
  ∧ (install (etc_disk (Some [9]), 0%nat)).1.1 !! CONF_PATH = Some (NFile [9])
  ∧ (install (etc_disk None, 0%nat)).1.1 !! CONF_PATH = Some (NFile [1; 2])
  ∧ (install (etc_disk None, 0%nat)).1.1 !! BIN_PATH = Some (NFile [7; 7])
  ∧ (service_uninstall (λ _, true) always_done def true (etc_disk (Some [9]), 0%nat)).1.1 !! CONF_PATH = None.
Proof.
  intros exe def install.
  assert (Hdef : create_service_definition initd_system (example_files [1; 2]) exe = Some def) by reflexivity.
  split; [by vm_compute|]. split.
  { apply (proj1 (service_keeps_configuration (λ _, true) always_done initd_system _ exe def (etc_disk (Some [9]), 0%nat) Hdef)). by vm_compute. }
  split.
  { apply (proj1 (proj2 (service_keeps_configuration (λ _, true) always_done initd_system _ exe def (etc_disk None, 0%nat) Hdef))); by vm_compute. }
  split; [by vm_compute|].
  destruct (proj2 (proj2 (service_keeps_configuration (λ _, true) always_done initd_system _ exe def (etc_disk (Some [9]), 0%nat) Hdef)) true 2%nat) as (path & _ & H);
    [by vm_compute|]. apply H. auto.
Defined.

(** The program that runs from where it is installed is no item, and stays. *)
Lemma running_program_stays {Sys} allowed (output : ServiceCommand → Sys → Sys * option bool) sys files def (s : Disk * Sys) c :
  create_service_definition sys files BIN_PATH = Some def → s.1 !! BIN_PATH = Some (NFile c) →
  (service_uninstall allowed output def false s).1.1 !! BIN_PATH = Some (NFile c).
Proof.
  intros (path & file & Hpath & Ei)%service_definition_items Hc. destruct (service_uninstall_disk allowed output def false s) as [-> _].
  rewrite Ei. apply uninstall_items_keep; [|done]. unfold service_items, install_current_exe_to. rewrite bool_decide_true by done.
  repeat (apply elem_of_cons in Hpath as [->|Hpath]; [by vm_compute|]). by apply not_elem_of_nil in Hpath.
Qed.

(** A default configuration that has become shorter keeps the end of the one
    written beside the configuration before. *)
Lemma default_keeps_tail :
  let install conf s := service_install (λ _, true) always_done (initd_definition BIN_PATH [3] conf) s in
  let s := (install [1; 2; 3; 4] (etc_disk (Some [9]), 0%nat)).1 in
  (install [5; 6] s).2 = true
  ∧ (install [5; 6] s).1.1 !! append_extension "default" CONF_PATH = Some (NFile [5; 6; 3; 4]).
Proof. split; by vm_compute. Qed.

(** * The services of macOS and Windows ([service/macos/], [service/windows/]) *)

(** ** macOS: by [launchctl], or by [brew], which installs the program itself *)
Definition MACOS_BIN_PATH : PathBuf := mkPathBuf true ["usr"; "local"; "sbin"; "smartdns"]%string.
Definition MACOS_CONF_DIR : PathBuf := mkPathBuf true ["usr"; "local"; "etc"; "smartdns"]%string.
Definition MACOS_CONF_PATH : PathBuf := mkPathBuf true ["usr"; "local"; "etc"; "smartdns"; "smartdns.conf"]%string.
Definition LAUNCHD_FILE_PATH : PathBuf := mkPathBuf true ["Library"; "LaunchDaemons"; "smartdns-rs.plist"]%string.

Definition launchd_items (current_exe : PathBuf) (service_file default_conf : list Z) : list InstallItem :=
  install_current_exe_to current_exe MACOS_BIN_PATH
  ++ [mkItem MACOS_CONF_DIR None Overide RemoveIfEmpty;
      mkItem MACOS_CONF_PATH (Some (Content default_conf)) Preserve Keep;
      mkItem LAUNCHD_FILE_PATH (Some (Content service_file)) Overide Remove;
      mkItem (path_join MACOS_CONF_DIR (path_of_name "managed")) None Overide RemoveIfEmpty].
Definition launchd_definition (current_exe : PathBuf) (service_file default_conf : list Z) : ServiceDefinition :=
  let ctl args := mkServiceCommand "launchctl" args in
  mkServiceDefinition (launchd_items current_exe service_file default_conf)
    (mkServiceCommands None None (Some (ctl ["list"; SERVICE_NAME]%string))
       (ctl ["load"; "/Library/LaunchDaemons/smartdns-rs.plist"]%string)
       (ctl ["bootout"; "system/" ++ SERVICE_NAME]%string) None).

Definition BREW_SERVICE_NAME : string := "smartdns".
Definition brew_definition (status_script : string) : ServiceDefinition :=
  let brew args := mkServiceCommand "brew" args in
  let services verb := brew ["services"; verb; BREW_SERVICE_NAME]%string in
  mkServiceDefinition []
    (mkServiceCommands (Some (brew ["install"; BREW_SERVICE_NAME]%string)) (Some (brew ["uninstall"; BREW_SERVICE_NAME]%string))
       (Some (mkServiceCommand "sh" ["-c"%string; status_script]))
       (services "start"%string) (services "stop"%string) (Some (services "restart"%string))).

(** Items that spare a file leave it as it is, whatever the commands do and wherever
    installing or removing fails. *)
Lemma spared_file_stays {Sys} allowed (output : ServiceCommand → Sys → Sys * option bool) def p c (s : Disk * Sys) :
  pa_comps p ≠ [] →
  forallb (spares_install p) (sd_items def) && forallb (spares_uninstall p) (sd_items def) = true → s.1 !! p = Some (NFile c) →
  (service_install allowed output def s).1.1 !! p = Some (NFile c)
  ∧ (service_uninstall allowed output def false s).1.1 !! p = Some (NFile c).
Proof.
  intros Hne [Hsi Hsu]%andb_true_iff Hc. destruct (service_install_disk allowed output def s) as [-> _].
  destruct (service_uninstall_disk allowed output def false s) as [-> _].
  pose proof (uninstall_items_keep allowed p c _ s.1 Hsu Hc) as Hu. split; [|done]. by apply install_items_keep.
Qed.

Lemma launchd_keeps_configuration {Sys} allowed (output : ServiceCommand → Sys → Sys * option bool) exe file conf c (s : Disk * Sys) :
  let def := launchd_definition exe file conf in
  s.1 !! MACOS_CONF_PATH = Some (NFile c) →
  (service_install allowed output def s).1.1 !! MACOS_CONF_PATH = Some (NFile c)
  ∧ (service_uninstall allowed output def false s).1.1 !! MACOS_CONF_PATH = Some (NFile c).
Proof.
  intros def. apply spared_file_stays; [done|]. unfold def, launchd_definition, launchd_items, install_current_exe_to. cbn [sd_items].
  destruct (bool_decide (exe = MACOS_BIN_PATH)); by vm_compute.
Qed.

Lemma brew_leaves_disk {Sys} allowed (output : ServiceCommand → Sys → Sys * option bool) script purge (s : Disk * Sys) :
  let def := brew_definition script in
  (service_install allowed output def s).1.1 = s.1 ∧ (service_uninstall allowed output def purge s).1.1 = s.1.
Proof.
  intros def. destruct (service_install_disk allowed output def s) as [-> _].
  by destruct (service_uninstall_disk allowed output def purge s) as [-> _].
Qed.

(** ** Windows: arguments on one line ([shell_escape.rs]); characters are those of
    UTF-16 *)
Definition DOUBLEQUOTE : Z := 34.
Definition BACKSLASH : Z := 92.
Definition ESCAPE_CHARS : list Z := [DOUBLEQUOTE; 32; 10; 9; 11].

Definition needs_escape (s : list Z) : bool :=
  bool_decide (s = []) || existsb (fun c => bool_decide (c ∈ ESCAPE_CHARS)) s.

(** The backslashes that have been read wait for what comes after them. *)
Fixpoint escape_loop (num_slashes : nat) (s : list Z) : list Z :=
  match s with
  | [] => replicate (num_slashes * 2) BACKSLASH
  | c :: s =>
      if c =? BACKSLASH then escape_loop (S num_slashes) s
      else if c =? DOUBLEQUOTE then replicate (num_slashes * 2 + 1) BACKSLASH ++ DOUBLEQUOTE :: escape_loop 0 s
      else replicate num_slashes BACKSLASH ++ c :: escape_loop 0 s
  end.
Definition escape (s : list Z) : list Z :=
  if needs_escape s then DOUBLEQUOTE :: escape_loop 0 s ++ [DOUBLEQUOTE] else s.

(** The command of the service: the program and its arguments. *)
Definition command_line (program : list Z) (args : list (list Z)) : list Z :=
  escape program ++ concat ((fun a => 32 :: escape a) <$> args).

Definition WINDOWS_BIN_PATH : text := text_of "C:\Program Files\SmartDNS\smartdns.exe".
Definition WINDOWS_CONF_PATH : text := text_of "C:\ProgramData\smartdns\smartdns.conf".
Definition windows_args : list (list Z) :=
  [text_of "run"; text_of "-c"; WINDOWS_CONF_PATH; text_of "--ws7642ea814a90496daaa54f2820254f12"].
Definition windows_bin_path : list Z := command_line WINDOWS_BIN_PATH windows_args.

(** *** How a program on Windows reads its arguments: spaces and tabs end one outside
    quotes; backslashes are themselves unless a quote follows, then two stand for
    one and one more makes the quote a character; two quotes within quotes are one.
    The name of the program is read by a simpler rule, which is the same for a name
    without quotes. *)
Definition pending (slashes : nat) (cur : option (list Z)) : list Z := opt_unwrap_or [] cur ++ replicate slashes BACKSLASH.
Definition end_arg (slashes : nat) (cur : option (list Z)) : list (list Z) :=
  match cur, slashes with None, O => [] | _, _ => [pending slashes cur] end.

Fixpoint argv (quoted : bool) (slashes : nat) (cur : option (list Z)) (s : list Z) : list (list Z) :=
  match s with
  | [] => end_arg slashes cur
  | c :: s =>
      if c =? BACKSLASH then argv quoted (S slashes) cur s
      else if c =? DOUBLEQUOTE then
        let half := pending (slashes / 2) cur in
        if Nat.odd slashes then argv quoted 0 (Some (half ++ [DOUBLEQUOTE])) s
        else if quoted then
          match s with
          | d :: s' => if d =? DOUBLEQUOTE then argv true 0 (Some (half ++ [DOUBLEQUOTE])) s' else argv false 0 (Some half) s
          | [] => argv false 0 (Some half) s
          end
        else argv true 0 (Some half) s
      else if negb quoted && ((c =? 32) || (c =? 9)) then end_arg slashes cur ++ argv false 0 None s
      else argv quoted 0 (Some (pending slashes cur ++ [c])) s
  end.

(** What comes after an argument. *)
Definition at_end (rest : list Z) : Prop := match rest with [] => True | c :: _ => c = 32 end.
Definition after (rest : list Z) : list (list Z) := match rest with [] => [] | _ :: rest => argv false 0 None rest end.

Lemma argv_at_end k cur rest : at_end rest → argv false k cur rest = end_arg k cur ++ after rest.
Proof. destruct rest as [|c rest]; cbn [at_end after]; [by rewrite app_nil_r|]. by intros ->. Qed.

Lemma argv_slashes q k n cur s : argv q k cur (replicate n BACKSLASH ++ s) = argv q (k + n) cur s.
Proof. revert k. induction n as [|n IH]; intros k; cbn; [by rewrite Nat.add_0_r|]. rewrite IH. f_equal. lia. Qed.

Lemma pending_char n cur c : c ≠ BACKSLASH → c ≠ DOUBLEQUOTE → ∀ s, argv true 0 (Some cur) (replicate n BACKSLASH ++ c :: s) = argv true 0 (Some (cur ++ replicate n BACKSLASH ++ [c])) s.
Proof.
  intros H1 H2 s. rewrite argv_slashes. cbn [argv]. rewrite (proj2 (Z.eqb_neq _ _) H1), (proj2 (Z.eqb_neq _ _) H2). cbn [negb andb].
  unfold pending. cbn [opt_unwrap_or Nat.add]. by rewrite <- app_assoc.
Qed.

Lemma argv_escaped n s cur rest :
  at_end rest →
  argv true 0 (Some cur) (escape_loop n s ++ DOUBLEQUOTE :: rest) = (cur ++ replicate n BACKSLASH ++ s) :: after rest.
Proof.
  intros Hrest. revert n cur. induction s as [|c s IH]; intros n cur; cbn [escape_loop].
  - rewrite argv_slashes. cbn [argv Nat.add]. change (DOUBLEQUOTE =? BACKSLASH) with false. change (DOUBLEQUOTE =? DOUBLEQUOTE) with true. cbn [negb].
    rewrite Nat.odd_mul, andb_false_r, Nat.div_mul by done.
    assert (∀ l, argv false 0 (Some l) rest = l :: after rest) as Hl.
    { intros l. rewrite argv_at_end by done. cbn. unfold pending. cbn. by rewrite app_nil_r. }
    unfold pending. cbn [opt_unwrap_or]. rewrite app_nil_r. destruct rest as [|d rest]; [done|]. cbn in Hrest. subst d.
    change (32 =? DOUBLEQUOTE) with false. by rewrite Hl.
  - destruct (Z.eqb_spec c BACKSLASH) as [->|Hb].
    { rewrite IH. do 2 f_equal. rewrite (replicate_S_end n). by rewrite <- app_assoc. }
    destruct (Z.eqb_spec c DOUBLEQUOTE) as [->|Hq].
    + rewrite <- app_assoc, argv_slashes. cbn [argv Nat.add app]. change (DOUBLEQUOTE =? BACKSLASH) with false. change (DOUBLEQUOTE =? DOUBLEQUOTE) with true. cbn [negb].
      assert (Nat.odd (n * 2 + 1) = true) as -> by (rewrite Nat.odd_add, Nat.odd_mul; by destruct (Nat.odd n)).
      assert ((n * 2 + 1) / 2 = n)%nat as -> by (symmetry; apply (Nat.div_unique _ 2 n 1); lia).
      rewrite IH. unfold pending. cbn. by rewrite <- !app_assoc.
    + rewrite <- app_assoc. cbn [app]. rewrite pending_char by done. rewrite IH. cbn. by rewrite <- !app_assoc.
Qed.

Lemma argv_plain s k cur rest :
  at_end rest → existsb (fun c => bool_decide (c ∈ ESCAPE_CHARS)) s = false → end_arg k cur ≠ [] ∨ s ≠ [] →
  argv false k cur (s ++ rest) = (pending k cur ++ s) :: after rest.
Proof.
  intros Hrest. revert k cur. induction s as [|c s IH]; intros k cur Hs Hne; cbn [app].
  - rewrite argv_at_end, app_nil_r by done. destruct Hne as [Hne|]; [|done]. unfold end_arg in *. by destruct cur, k.
  - cbn [existsb] in Hs. apply orb_false_iff in Hs as [Hc%bool_decide_eq_false Hs]. unfold ESCAPE_CHARS in Hc.
    rewrite !not_elem_of_cons in Hc. destruct Hc as (Hq & H32 & _ & H9 & _). cbn [argv].
    rewrite (proj2 (Z.eqb_neq c DOUBLEQUOTE) Hq), (proj2 (Z.eqb_neq _ _) H32), (proj2 (Z.eqb_neq _ _) H9). cbn [orb negb andb].
    destruct (Z.eqb_spec c BACKSLASH) as [->|Hb].
    + rewrite IH; [|done|left; by destruct cur]. unfold pending. rewrite (replicate_S_end k). by rewrite <- !app_assoc.
    + rewrite IH; [|done|by left]. f_equal. unfold pending. cbn. by rewrite app_nil_r, <- !app_assoc.
Qed.

(** An argument that is escaped is read as itself, whatever it is. *)
Lemma argv_escape s rest : at_end rest → argv false 0 None (escape s ++ rest) = s :: after rest.
Proof.
  intros Hrest. unfold escape. destruct (needs_escape s) eqn:E.
  - cbn [app argv]. change (DOUBLEQUOTE =? BACKSLASH) with false. change (DOUBLEQUOTE =? DOUBLEQUOTE) with true. cbn.
    rewrite <- app_assoc. exact (argv_escaped 0 s [] rest Hrest).
  - unfold needs_escape in E. apply orb_false_iff in E as [Hne%bool_decide_eq_false Hs]. by rewrite argv_plain; [..|right].
Qed.

(** The command line of a service is read as its program and its arguments. *)
Theorem command_line_roundtrip program args : argv false 0 None (command_line program args) = program :: args.
Proof.
  assert (Hend : ∀ l, at_end (concat ((fun a => 32 :: escape a) <$> l))) by (by intros [|a l]).
  unfold command_line. rewrite argv_escape by done. f_equal. induction args as [|a args IH]; [done|]. cbn [fmap list_fmap concat app after].
  by rewrite argv_escape, IH.
Qed.

Example escaped_quotes : escape (text_of "a\") = text_of "a\" ∧ escape (text_of "a b\") = [34; 97; 32; 98; 92; 92; 34] ∧ escape [] = [34; 34].
Proof. vm_compute. repeat split. Qed.

Example windows_command_read :
  argv false 0 None windows_bin_path = WINDOWS_BIN_PATH :: windows_args ∧ hd_error windows_bin_path = Some DOUBLEQUOTE.
Proof. vm_compute. repeat split. Qed.

(** The drive is the first part of a path. *)
Definition WINDOWS_BIN : PathBuf := mkPathBuf true ["C:"; "Program Files"; "SmartDNS"; "smartdns.exe"]%string.
Definition WINDOWS_BIN_DIR : PathBuf := mkPathBuf true ["C:"; "Program Files"; "SmartDNS"]%string.
Definition WINDOWS_CONF_DIR : PathBuf := mkPathBuf true ["C:"; "ProgramData"; "smartdns"]%string.
Definition WINDOWS_CONF : PathBuf := mkPathBuf true ["C:"; "ProgramData"; "smartdns"; "smartdns.conf"]%string.
Definition windows_items (current_exe : PathBuf) (default_conf : list Z) : list InstallItem :=
  [mkItem WINDOWS_BIN_DIR None Overide RemoveIfEmpty]
  ++ install_current_exe_to current_exe WINDOWS_BIN
  ++ [mkItem WINDOWS_CONF_DIR None Overide RemoveIfEmpty;
      mkItem WINDOWS_CONF (Some (Content default_conf)) Preserve Keep;
      mkItem (path_join WINDOWS_CONF_DIR (path_of_name "managed")) None Overide RemoveIfEmpty].

(** The script that asks for the state is that of the code. *)
Definition windows_definition (current_exe : PathBuf) (default_conf : list Z) (status_script : string) : ServiceDefinition :=
  let sc args := mkServiceCommand "sc.exe" args in
  mkServiceDefinition (windows_items current_exe default_conf)
    (mkServiceCommands
       (Some (sc ["create"; SERVICE_NAME; "type="; "own"; "start="; "auto"; "binpath="; string_of_text windows_bin_path;
                  "displayname="; "SmartDNS"]%string))
       (Some (sc ["delete"; SERVICE_NAME]%string)) (Some (mkServiceCommand "cmd.exe" ["/C"%string; status_script]))
       (sc ["start"; SERVICE_NAME]%string) (sc ["stop"; SERVICE_NAME]%string) None).

Lemma windows_keeps_configuration {Sys} allowed (output : ServiceCommand → Sys → Sys * option bool) exe conf script c (s : Disk * Sys) :
  let def := windows_definition exe conf script in
  s.1 !! WINDOWS_CONF = Some (NFile c) →
  (service_install allowed output def s).1.1 !! WINDOWS_CONF = Some (NFile c)
  ∧ (service_uninstall allowed output def false s).1.1 !! WINDOWS_CONF = Some (NFile c).
Proof.
  intros def. apply spared_file_stays; [done|]. unfold def, windows_definition, windows_items, install_current_exe_to. cbn [sd_items].
  destruct (bool_decide (exe = WINDOWS_BIN)); by vm_compute.
Qed.
