(* ===== verification/Serving.v ===== *)
(** * Listeners: connections and the requests on them ([server/])

    What a listener accepts, and how the requests of one connection are answered:
    each datagram on its own, the queries of a TCP connection at the same time,
    those of a TLS or QUIC connection one after the other. The handler of queries
    is an argument: the packet a request is answered with, as it is sent. *)

From S2P Require Import Prelude Names Config Text DomainRule Message Context DnsUrl Reply App.

(** ** Accepting

    The loop of every listener: what cannot be accepted is left out, and so is what
    comes from an address that cannot be replied to; a cancelled listener ends. *)
Inductive AcceptEvent (A : Type) :=
| Accepted (src : SocketAddr) (x : A)
| AcceptFails
| ListenerCancelled.
Arguments Accepted {A} _ _.
Arguments AcceptFails {A}.
Arguments ListenerCancelled {A}.

Fixpoint accept_loop {A} (events : list (AcceptEvent A)) : list (SocketAddr * A) :=
  match events with
  | [] => []
  | Accepted src x :: events => if src_address_ok src then (src, x) :: accept_loop events else accept_loop events
  | AcceptFails :: events => accept_loop events
  | ListenerCancelled :: _ => []
  end.

Section Serving.
Context {Name : Type}.
Abbreviation Serial := (SerialMessage (Name := Name)).

(** ** UDP ([udp.rs]) *)
Definition MAX_UDP_REQUEST : nat := 4096.

(** The requests of the datagrams, cut to the buffer they are received in. *)
Definition udp_serve (events : list (AcceptEvent (list Z))) : list Serial :=
  (fun x => SBytes (take MAX_UDP_REQUEST x.2) x.1 PUdp) <$> accept_loop events.

(** What is sent for a request, and where to. *)
Definition udp_reply (src : SocketAddr) (w : Wire) : option (SocketAddr * list Z) :=
  match w with WireBytes bytes => Some (src, bytes) | WireError | WirePanics => None end.

(** ** TCP ([tcp.rs])

    Each query of a connection has a task of its own, and is answered when it is
    done. When the client stops sending, or has sent nothing for too long, the tasks
    that are left are waited for while nothing is read, and the stream is polled once
    more so that the answers are written; what it then reads is thrown away. An error
    of the stream while it is read, or the listener's being cancelled, ends the tasks. *)
Inductive TcpPhase := TcpReading | TcpDraining | TcpFlushing | TcpClosed | TcpAborted.
#[global] Instance TcpPhase_eq_dec : EqDecision TcpPhase.
Proof. solve_decision. Defined.

Record TcpConn := mkTcp {
  tc_phase : TcpPhase;
  tc_requests : list Serial;
  (** the tasks that run, by the numbers of their requests *)
  tc_running : list nat;
  (** the tasks that have ended, with what they made of the answer *)
  tc_done : list (nat * Wire);
  (** frames that came when no more were read *)
  tc_dropped : list (list Z);
}.

(** A task ends: the one at a place of those that run. [TcpStops] is the end of the
    stream, or the time that a frame is waited for. *)
Inductive TcpEvent :=
| TcpFrame (bytes : list Z)
| TcpStops
| TcpFails
| TcpDone (k : nat) (w : Wire)
| TcpCancelled.

Definition tcp_start : TcpConn := mkTcp TcpReading [] [] [] [].

(** The answers handed to the stream: a task whose answer cannot be encoded, or
    that panics, hands over none. *)
Definition answer_of (x : nat * Wire) : option (nat * list Z) :=
  match x.2 with WireBytes bytes => Some (x.1, bytes) | WireError | WirePanics => None end.
Definition tc_queued (c : TcpConn) : list (nat * list Z) := omap answer_of (tc_done c).

(** A connection that is drained with no task left is polled a last time. *)
Definition drained (phase : TcpPhase) (running : list nat) : TcpPhase :=
  match phase, running with TcpDraining, [] => TcpFlushing | p, _ => p end.

(** None: the event cannot happen. *)
Definition tcp_step (src : SocketAddr) (c : TcpConn) (e : TcpEvent) : option TcpConn :=
  let '(mkTcp phase requests running ended dropped) := c in
  match e, phase with
  | TcpFrame bytes, TcpReading =>
      Some (mkTcp TcpReading (requests ++ [SBytes bytes src PTcp]) (running ++ [length requests]) ended dropped)
  | TcpFrame bytes, TcpDraining => Some (mkTcp TcpDraining requests running ended (dropped ++ [bytes]))
  | TcpFrame bytes, TcpFlushing => Some (mkTcp TcpClosed requests running ended (dropped ++ [bytes]))
  | TcpStops, TcpReading => Some (mkTcp (drained TcpDraining running) requests running ended dropped)
  | (TcpStops | TcpFails), TcpDraining => Some c
  | (TcpStops | TcpFails), TcpFlushing => Some (mkTcp TcpClosed requests running ended dropped)
  | TcpFails, TcpReading => Some (mkTcp TcpAborted requests [] ended dropped)
  | TcpDone k w, (TcpReading | TcpDraining) =>
      id ← running !! k;
      let running := delete k running in
      Some (mkTcp (drained phase running) requests running (ended ++ [(id, w)]) dropped)
  | TcpCancelled, (TcpReading | TcpDraining | TcpFlushing) => Some (mkTcp TcpAborted requests [] ended dropped)
  | _, _ => None
  end.

Fixpoint tcp_run (src : SocketAddr) (c : TcpConn) (events : list TcpEvent) : option TcpConn :=
  match events with
  | [] => Some c
  | e :: events => c ← tcp_step src c e; tcp_run src c events
  end.

(** ** TLS ([tls.rs]) and QUIC ([quic.rs])

    A request is read when the one before is answered. *)
Inductive StreamItem := StreamMessage (bytes : list Z) | StreamFails | StreamStops.

Section OneByOne.
Variable handler : Serial → Wire.

(** The answers handed to the stream; a panic ends the connection. *)
Fixpoint tls_conn (src : SocketAddr) (items : list StreamItem) : list (list Z) :=
  match items with
  | StreamMessage bytes :: items =>
      match handler (SBytes bytes src PTls) with
      | WireBytes answer => answer :: tls_conn src items
      | WireError => tls_conn src items
      | WirePanics => []
      end
  | (StreamFails | StreamStops) :: _ | [] => []
  end.

(** A stream of a QUIC connection: a request, or an error of receiving it. *)
Inductive QuicItem := QuicRequest (bytes : option (list Z)) | QuicFails | QuicCloses | QuicCancelled.

Definition MAX_QUIC_REQUESTS : nat := 100.

Fixpoint quic_conn (max_requests : nat) (src : SocketAddr) (items : list QuicItem) : list (list Z) :=
  match max_requests, items with
  | S max_requests, QuicRequest (Some bytes) :: items =>
      match handler (SBytes bytes src PQuic) with
      | WireBytes answer => answer :: quic_conn max_requests src items
      | WireError => quic_conn max_requests src items
      | WirePanics => []
      end
  | _, _ => []
  end.

(** The connections of a listener; of those over TLS the ones whose handshake
    succeeds. *)
Definition tls_serve (events : list (AcceptEvent (option (list StreamItem)))) : list (SocketAddr * list (list Z)) :=
  omap (fun x => items ← x.2; Some (x.1, tls_conn x.1 items)) (accept_loop events).

Definition quic_serve (events : list (AcceptEvent (list QuicItem))) : list (SocketAddr * list (list Z)) :=
  (fun x => (x.1, quic_conn MAX_QUIC_REQUESTS x.1 x.2)) <$> accept_loop events.
End OneByOne.

Definition tcp_serve (events : list (AcceptEvent (list TcpEvent))) : list (SocketAddr * option TcpConn) :=
  (fun x => (x.1, tcp_run x.1 tcp_start x.2)) <$> accept_loop events.
End Serving.

(** ** HTTP ([http.rs], [https.rs], [h3.rs])

    The router is given the requests of a connection and the address of the
    client, which over HTTP/3 is not known. *)
Section Http.
Context {Request : Type}.

Definition http_serve (events : list (AcceptEvent (list Request))) : list (SocketAddr * list Request) := accept_loop events.
Definition https_serve (events : list (AcceptEvent (option (list Request)))) : list (SocketAddr * list Request) :=
  omap (fun x => requests ← x.2; Some (x.1, requests)) (accept_loop events).
Definition h3_serve (connections : list (list Request)) : list (SocketAddr * list Request) :=
  (fun requests => (mkSocket (V4 0) 0, requests)) <$> connections.
End Http.

(** The port of the first HTTP/3 listener, and the header that announces it. *)
Definition h3_port (binds : list BindAddrConfig) : option Z :=
  bind_port <$> head (List.filter (fun b => match b with BindH3 _ _ => true | _ => false end) binds).
Definition alt_svc (port : string) : string :=
  let q := String (Ascii.ascii_of_nat 34) EmptyString in
  ("h3=" ++ q ++ ":" ++ port ++ q ++ "; h3-29=" ++ q ++ ":" ++ port ++ q ++ "; ma=86400")%string.

(** ** Correctness *)
Section Spec.
Context {Name : Type}.

Lemma tcp_run_snoc src (c : TcpConn (Name := Name)) events e :
  tcp_run src c (events ++ [e]) = c' ← tcp_run src c events; tcp_step src c' e.
Proof.
  revert c. induction events as [|d events IH]; intros c; cbn [app tcp_run].
  - cbn. by destruct (tcp_step src c e).
  - destruct (tcp_step src c d) as [c'|]; cbn; [apply IH|done].
Qed.

Definition frame_of (e : TcpEvent) : option (list Z) := match e with TcpFrame bytes => Some bytes | _ => None end.
Definition made_of (e : TcpEvent) : option Wire := match e with TcpDone _ w => Some w | _ => None end.

Abbreviation of_client src := (fun bytes => SBytes bytes src PTcp).

Record tcp_inv (src : SocketAddr) (events : list TcpEvent) (c : TcpConn (Name := Name)) : Prop := {
  ti_frames : ∃ served, omap frame_of events = served ++ tc_dropped c ∧ tc_requests c = of_client src <$> served;
  ti_reading : tc_phase c = TcpReading → tc_dropped c = [];
  ti_made : snd <$> tc_done c = omap made_of events;
  ti_tasks : tc_phase c ≠ TcpAborted → tc_running c ++ (fst <$> tc_done c) ≡ₚ seq 0 (length (tc_requests c));
  ti_once : NoDup (fst <$> tc_done c) ∧ ∀ id, id ∈ fst <$> tc_done c → (id < length (tc_requests c))%nat;
  ti_ended : tc_phase c = TcpFlushing ∨ tc_phase c = TcpClosed → tc_running c = [];
}.

Lemma omap_snoc {A B} (f : A → option B) l x : omap f (l ++ [x]) = omap f l ++ option_list (f x).
Proof. by rewrite omap_app. Qed.

(** An event that changes no task, reads nothing and drops [late]. *)
Lemma tcp_quiet_inv src events c e phase late :
  made_of e = None → option_list (frame_of e) = late → tc_phase c ≠ TcpReading ∨ late = [] → phase ≠ TcpReading →
  (phase = TcpFlushing ∨ phase = TcpClosed → tc_running c = []) → tc_phase c ≠ TcpAborted →
  tcp_inv src events c → tcp_inv src (events ++ [e]) (mkTcp phase (tc_requests c) (tc_running c) (tc_done c) (tc_dropped c ++ late)).
Proof.
  intros Hm Hf _ Hp Hempty Ha [(served & Hfr & Hr) _ Hmade Ht Ho _].
  split; cbn [tc_requests tc_done tc_running tc_phase tc_dropped]; rewrite ?omap_snoc, ?Hm, ?Hf; cbn [option_list]; rewrite ?app_nil_r; try done.
  - exists served. by rewrite Hfr, app_assoc.
  - intros _. by apply Ht.
Qed.

(** Ending a connection drops its tasks. *)
Lemma tcp_abort_inv src events c e :
  frame_of e = None → made_of e = None → tcp_inv src events c →
  tcp_inv src (events ++ [e]) (mkTcp TcpAborted (tc_requests c) [] (tc_done c) (tc_dropped c)).
Proof.
  intros Hf Hm [Hfr _ Hmade _ Ho _].
  split; cbn [tc_requests tc_done tc_running tc_phase tc_dropped]; rewrite ?omap_snoc, ?Hf, ?Hm; cbn [option_list]; rewrite ?app_nil_r; done.
Qed.

Lemma tcp_frame_inv src events requests running ended bytes :
  tcp_inv src events (mkTcp TcpReading requests running ended []) →
  tcp_inv src (events ++ [TcpFrame bytes])
    (mkTcp TcpReading (requests ++ [SBytes bytes src PTcp]) (running ++ [length requests]) ended []).
Proof.
  intros [(served & Hfr & Hr) _ Hmade Ht [Ho Hlt] _]. cbn [tc_requests tc_done tc_running tc_phase tc_dropped] in *.
  split; cbn [tc_requests tc_done tc_running tc_phase tc_dropped]; rewrite ?omap_snoc; cbn [frame_of made_of option_list]; rewrite ?app_nil_r; try done.
  - exists (served ++ [bytes]). rewrite Hfr, !app_nil_r, fmap_app. by rewrite Hr.
  - intros _. rewrite length_app, Nat.add_1_r, seq_S. cbn [Nat.add]. rewrite <- (Ht ltac:(done)).
    rewrite <- !app_assoc. f_equiv. by rewrite Permutation_app_comm.
  - split; [done|]. intros id Hin%Hlt. rewrite length_app. cbn. lia.
  - by intros [|].
Qed.

Lemma tcp_done_inv src events phase requests running ended dropped k id w :
  phase = TcpReading ∨ phase = TcpDraining → running !! k = Some id →
  tcp_inv src events (mkTcp phase requests running ended dropped) →
  tcp_inv src (events ++ [TcpDone k w])
    (mkTcp (drained phase (delete k running)) requests (delete k running) (ended ++ [(id, w)]) dropped).
Proof.
  intros Hp Hk [Hfr Hread Hmade Ht [Ho Hlt] _]. cbn [tc_requests tc_done tc_running tc_phase tc_dropped] in *.
  assert (Hperm : delete k running ++ (fst <$> ended ++ [(id, w)]) ≡ₚ seq 0 (length requests)).
  { rewrite <- Ht by (by destruct Hp as [-> | ->]). pose proof (delete_Permutation running k id Hk) as Hdel.
    revert Hdel. generalize (delete k running) as del. intros del ->. rewrite fmap_app. cbn [fmap list_fmap fst app].
    by rewrite app_assoc, <- Permutation_cons_append. }
  assert (Hnd : NoDup (delete k running ++ (fst <$> ended ++ [(id, w)]))) by (rewrite Hperm; apply NoDup_seq).
  split; cbn [tc_requests tc_done tc_running tc_phase tc_dropped]; rewrite ?omap_snoc; cbn [frame_of made_of option_list]; rewrite ?app_nil_r.
  - done.
  - intros Hd. apply Hread. destruct Hp as [-> | ->]; [done|]. by destruct (delete k running).
  - by rewrite fmap_app, Hmade.
  - done.
  - split; [by apply NoDup_app in Hnd as (_ & _ & ?)|]. intros i Hin.
    assert (Hi : i ∈ delete k running ++ (fst <$> ended ++ [(id, w)])) by (apply elem_of_app; by right).
    rewrite Hperm in Hi. apply elem_of_seq in Hi. lia.
  - destruct Hp as [-> | ->]; [by intros [|]|]. destruct (delete k running); [done|by intros [|]].
Qed.

Lemma tcp_step_inv src events c e c' :
  tcp_inv src events c → tcp_step src c e = Some c' → tcp_inv src (events ++ [e]) c'.
Proof.
  destruct c as [phase requests running ended dropped]. intros Hinv Hs.
  assert (Hquiet : ∀ p late, made_of e = None → option_list (frame_of e) = late → p ≠ TcpReading → phase ≠ TcpAborted →
    (p = TcpFlushing ∨ p = TcpClosed → running = []) → phase ≠ TcpReading ∨ late = [] →
    tcp_inv src (events ++ [e]) (mkTcp p requests running ended (dropped ++ late))).
  { intros p late Hm Hf Hp Ha He Hl. by apply (tcp_quiet_inv src events (mkTcp phase requests running ended dropped)). }
  assert (Habort : ∀ k, made_of e = None → frame_of e = None → c' = mkTcp TcpAborted requests [] ended k → k = dropped →
    tcp_inv src (events ++ [e]) c').
  { intros k Hm Hf -> ->. by apply (tcp_abort_inv src events (mkTcp phase requests running ended dropped)). }
  assert (Hend : phase = TcpFlushing → running = []) by (intros ->; apply (ti_ended _ _ _ Hinv); by left).
  destruct e as [bytes| | |k w|], phase; cbn [tcp_step] in Hs; try done.
  - injection Hs as <-. pose proof (ti_reading _ _ _ Hinv eq_refl) as Hd. cbn in Hd. subst dropped. by apply tcp_frame_inv.
  - injection Hs as <-. apply Hquiet; try done; [by intros [|]|by left].
  - injection Hs as <-. apply Hquiet; try done; [|by left]. intros _. by apply Hend.
  - injection Hs as <-. rewrite <- (app_nil_r dropped). apply Hquiet; try done; [by destruct running|destruct running; [done|by intros [|]]|by right].
  - injection Hs as <-. rewrite <- (app_nil_r dropped). apply Hquiet; try done; [by intros [|]|by left].
  - injection Hs as <-. rewrite <- (app_nil_r dropped). apply Hquiet; try done; [|by left]. intros _. by apply Hend.
  - injection Hs as <-. by eapply Habort.
  - injection Hs as <-. rewrite <- (app_nil_r dropped). apply Hquiet; try done; [by intros [|]|by left].
  - injection Hs as <-. rewrite <- (app_nil_r dropped). apply Hquiet; try done; [|by left]. intros _. by apply Hend.
  - destruct (running !! k) as [id|] eqn:Ek; [|done]. injection Hs as <-. by apply (tcp_done_inv src events TcpReading); [left| |].
  - destruct (running !! k) as [id|] eqn:Ek; [|done]. injection Hs as <-. by apply (tcp_done_inv src events TcpDraining); [right| |].
  - injection Hs as <-. by eapply Habort.
  - injection Hs as <-. by eapply Habort.
  - injection Hs as <-. by eapply Habort.
Qed.

Lemma tcp_run_inv src events (c : TcpConn (Name := Name)) : tcp_run src tcp_start events = Some c → tcp_inv src events c.
Proof.
  revert c. induction events as [|e events IH] using rev_ind; intros c.
  - cbn. intros [= <-]. split; cbn; try done; [by exists []|split; [constructor|by intros id ?%not_elem_of_nil]].
  - rewrite tcp_run_snoc. destruct (tcp_run src tcp_start events) as [c'|]; cbn; [|done]. apply tcp_step_inv. by apply IH.
Qed.


(** The answers of a TLS connection are those of its requests, in their order; a
    QUIC connection has at most a hundred. *)
Definition requests_of (items : list StreamItem) : list (list Z) := omap (fun i => match i with StreamMessage b => Some b | _ => None end) items.

Lemma tls_answers (handler : SerialMessage (Name := Name) → Wire) src requests rest :
  (∀ b, handler (SBytes b src PTls) ≠ WirePanics) →
  tls_conn handler src ((StreamMessage <$> requests) ++ StreamStops :: rest) =
  omap (fun b => match handler (SBytes b src PTls) with WireBytes a => Some a | _ => None end) requests.
Proof.
  intros Hp. induction requests as [|b l IH]; [done|]. cbn. specialize (Hp b). rewrite IH. by destruct (handler (SBytes b src PTls)).
Qed.

Lemma quic_answers_bound (handler : SerialMessage (Name := Name) → Wire) src n items :
  (length (quic_conn handler n src items) ≤ n)%nat.
Proof.
  revert items. induction n as [|n IH]; intros [|[[b|]| | |] items]; cbn; try lia.
  specialize (IH items). destruct (handler _); cbn; lia.
Qed.

(** What is served comes from an address that can be replied to. *)
Lemma accept_loop_safe {A} (events : list (AcceptEvent A)) src x : (src, x) ∈ accept_loop events → src_address_ok src = true.
Proof.
  induction events as [|[s y| |] events IH]; cbn; [by intros ?%not_elem_of_nil|..|done|by intros ?%not_elem_of_nil].
  destruct (src_address_ok s) eqn:E; [|done]. intros [[= -> ->]|Hin]%elem_of_cons; [done|by apply IH].
Qed.
End Spec.

(** Over HTTP/3 every query comes from an address that no other listener takes. *)
Lemma h3_clients_unknown {Request} (connections : list (list Request)) src l :
  (src, l) ∈ h3_serve connections → src_address_ok src = false.
Proof. unfold h3_serve. intros (r & [= -> ->] & _)%list_elem_of_fmap. done. Qed.

(** A slow query first and a fast one behind it, and one whose answer cannot be
    encoded; the client is then silent for too long, and a frame it sends while the
    others are waited for is not read. *)
Definition slow_then_fast : list TcpEvent :=
  [TcpFrame [5; 1]; TcpFrame [0; 2]; TcpFrame [7; 3]; TcpDone 1 (WireBytes [0; 2]); TcpStops; TcpDone 0 (WireBytes [5; 1]);
   TcpFrame [1; 4]; TcpDone 0 WireError; TcpStops].
