(* ===== verification/Doh.v ===== *)
(** * DNS over HTTP ([api/serve_dns.rs])

    Queries as the parameters or the body of a request, and their answers as
    packets or as JSON. The texts of names, types, data and base64 are the
    libraries'. *)

From S2P Require Import Prelude Names Config Text DomainRule Message Context Samples Reply.

Class DohLib := {
  (** [URL_SAFE_NO_PAD.decode] *)
  base64_url : string → option (list Z);
  (** [RecordType::from_str] *)
  record_type_parse : string → option RecordType;
}.

(** ** Requests *)
Definition APPLICATION_DNS_MESSAGE : string := "application/dns-message".
Definition APPLICATION_JSON : string := "application/json".

Record QueryParam := mkQueryParam {
  qp_dns : option string;
  qp_name : option text;
  qp_type : string;
  qp_dnssec : bool;
  qp_checking_disabled : bool;
}.

(** [bool] of a query string, as the parameters [do] and [cd] are read: the words
    only; [type] is A when it is not given. *)
Definition query_bool (s : string) : option bool :=
  if bool_decide (s = "true") then Some true else if bool_decide (s = "false") then Some false else None.
Definition default_query_type : string := "A".

(** A request: its [Accept] header when it is text, the parameters of a GET, none
    for a POST, and the body, none when it cannot be read. *)
Record HttpRequest := mkHttp { hr_accept : option string; hr_param : option QueryParam; hr_body : option (list Z) }.

(** ** Answers *)
Record Question := mkQuestion { qs_name : text; qs_type : Z }.
Record Answer := mkAnswer { an_name : text; an_type : Z; an_ttl : Z; an_data : text }.
Record JsonResponse := mkJson {
  js_status : Z; js_TC : bool; js_RD : bool; js_RA : bool; js_AD : bool; js_CD : bool;
  js_Question : list Question; js_Answer : list Answer;
}.

Inductive DohResult := DohWire (bytes : list Z) | DohJson (r : JsonResponse) | DohError | DohPanics.

Section Doh.
Context {Name : Type} `{ML : MsgLib Name} `{HL : HeaderLib Name} `{NT : NameText Name} `{DL : DohLib}.
Variable show_rdata : RData Name → text.
Abbreviation Serial := (SerialMessage (Name := Name)).

(** [DnsResponse::from(&Message)] *)
Definition json_of_message (m : Message Name) : JsonResponse :=
  let h := msg_header m in
  mkJson (h_response_code h) (h_truncated h) (h_recursion_desired h) (h_recursion_available h)
    (h_authentic_data h) (h_checking_disabled h)
    ((fun q => mkQuestion (name_show (q_name q)) (q_type q)) <$> msg_queries m)
    ((fun r => mkAnswer (name_show (rr_name r)) (rr_type r) (rr_ttl_secs r) (show_rdata (rr_data r))) <$> msg_answers m).

Definition wire_query (r : HttpRequest) : bool := match hr_param r with Some p => is_some (qp_dns p) | None => false end.

Definition accept_dns_message (r : HttpRequest) : bool :=
  let accept := opt_unwrap_or EmptyString (hr_accept r) in
  bool_decide (accept = APPLICATION_DNS_MESSAGE) || wire_query r
  || (is_none (hr_param r) && negb (bool_decide (accept = APPLICATION_JSON))).

(** The query of the parameters [name], [type], [do] and [cd]. *)
Definition param_query (p : QueryParam) : option (Message Name) :=
  name ← qp_name p;
  name ← name_parse name;
  let t := opt_unwrap_or 1 (record_type_parse (qp_type p)) in
  let m := msg_fresh in
  let h := msg_header m in
  let h := mkHeaderOf (h_id h) (h_message_type h) (h_op_code h) (h_authoritative h) (h_truncated h) (h_recursion_desired h)
             (h_recursion_available h) (h_authentic_data h) (qp_checking_disabled p) (h_response_code h) in
  Some (mkMsg h (msg_queries m ++ [query_of name t]) (msg_answers m) (msg_authorities m) (msg_additionals m)
          (if qp_dnssec p then Some (mkEdns true None) else msg_edns m)).

(** The message that is handed on for a request. *)
Definition doh_request (addr : SocketAddr) (r : HttpRequest) : option Serial :=
  match hr_param r with
  | Some p =>
      match qp_dns p with
      | Some encoded => bytes ← base64_url encoded; Some (SBytes bytes addr PHttpsP)
      | None => m ← param_query p; Some (SRaw m addr PHttpsP)
      end
  | None => bytes ← hr_body r; Some (SBytes bytes addr PHttpsP)
  end.

(** [process]; the handler is what answers a message. *)
Definition doh_process (handler : Serial → Serial) (addr : SocketAddr) (r : HttpRequest) : DohResult :=
  match doh_request addr r with
  | None => DohError
  | Some message =>
      let answer := handler message in
      if accept_dns_message r then
        match serial_to_wire answer with WireBytes bytes => DohWire bytes | WireError => DohError | WirePanics => DohPanics end
      else match serial_to_message answer with Some m => DohJson (json_of_message m) | None => DohError end
  end.

(** [serve_dns_get], [serve_dns]: the status and the type of the content. *)
Definition doh_status (r : DohResult) : option (Z * string) :=
  match r with
  | DohWire _ => Some (200, APPLICATION_DNS_MESSAGE)
  | DohJson _ => Some (200, APPLICATION_JSON)
  | DohError => Some (500, "text/plain; charset=utf-8"%string)
  | DohPanics => None
  end.

(** *** What is answered *)

(** A packet in a parameter is answered as a packet, and as the same packet in a
    body, whatever is accepted. *)
Lemma doh_get_post handler addr encoded bytes p accept accept' body :
  base64_url encoded = Some bytes → qp_dns p = Some encoded → opt_unwrap_or EmptyString accept' ≠ APPLICATION_JSON →
  doh_process handler addr (mkHttp accept (Some p) body) = doh_process handler addr (mkHttp accept' None (Some bytes)).
Proof.
  intros Hb Hp Ha. unfold doh_process, doh_request, accept_dns_message, wire_query. cbn [hr_param hr_body hr_accept].
  rewrite Hp, Hb. cbn [mbind option_bind is_some is_none]. rewrite (bool_decide_false _ Ha). cbn [negb andb].
  by rewrite !orb_true_r.
Qed.

(** A query by its name is answered in JSON unless a packet is accepted; either way
    it is the answer of the same message, from the address of the client. *)
Lemma doh_by_name handler addr p body m answer :
  qp_dns p = None → param_query p = Some m → handler (SRaw m addr PHttpsP) = answer →
  (∀ accept, accept ≠ Some APPLICATION_DNS_MESSAGE →
     doh_process handler addr (mkHttp accept (Some p) body) =
       match serial_to_message answer with Some a => DohJson (json_of_message a) | None => DohError end) ∧
  doh_process handler addr (mkHttp (Some APPLICATION_DNS_MESSAGE) (Some p) body) =
    match serial_to_wire answer with WireBytes bytes => DohWire bytes | WireError => DohError | WirePanics => DohPanics end.
Proof.
  intros Hd Hm Ha. unfold doh_process, doh_request, accept_dns_message, wire_query. cbn [hr_param hr_body hr_accept].
  rewrite Hd, Hm. cbn [mbind option_bind is_some is_none]. rewrite Ha. split; [|done].
  intros accept Hacc. rewrite bool_decide_false; [done|]. destruct accept as [a|]; cbn; [congruence|done].
Qed.

(** What is not a query is an error: no packet and no name, or a text that is not
    base64, or a name that does not parse. *)
Lemma doh_errors handler addr r : doh_request addr r = None → doh_process handler addr r = DohError.
Proof. unfold doh_process. by intros ->. Qed.
End Doh.

(** [do=1] is refused, though it is documented; [28] is no text of a type. *)
Example do_one_refused : query_bool "1" = None ∧ query_bool "0" = None ∧ query_bool "true" = Some true.
Proof. done. Qed.
