(* ===== verification/Stats.v ===== *)
(** * Statistics and observers ([stats.rs], [plugins/mod.rs], [webui/mod.rs])

    Counters that queries add to as they end, each addition a step of its own that
    others may come between, the upstream servers that are shown, and who is told of
    queries. *)

From S2P Require Import Prelude Names DomainMap Config DomainRule DomainRuleTree IpSet Message Runtime Context DnsUrl Text Samples.

(** ** The counters *)
Inductive Counter := Total | Success | ReceivedCount | ElapsedMicros | FromClient | Blocked.
#[global] Instance Counter_eq_dec : EqDecision Counter.
Proof. solve_decision. Defined.

(** The counters have 64 bits and wrap around. *)
Definition Stats := Counter → Z.
Definition stats_zero : Stats := fun _ => 0.
Definition fetch_add (c : Counter) (d : Z) (st : Stats) : Stats := fun k => if bool_decide (k = c) then as_u64 (st k + d) else st k.

Definition as_micros (d : Z) : Z := d / 1000.

Section Completed.
Context {Name : Type} {RM : Type → Type} {Fut : Type} `{ML : MsgLib Name}.
Abbreviation Ctx := (DnsContext Name RM Fut).
Abbreviation Res := (result (DnsResponse Name) (LookupError Name)).

(** [blocked] *)
Definition blocked (ctx : Ctx) (res : Res) : bool :=
  match res with
  | Ok response =>
      match ctx_source ctx with FromStatic | FromZone _ => true | _ => false end
      && existsb (fun r => rr_type r =? TYPE_SOA) (msg_answers (resp_message response) ++ msg_authorities (resp_message response))
  | Err (EResponseCode c) => c =? NXDomain
  | Err _ => false
  end.

(** [completed]: what is added, in this order. *)
Definition completed (ctx : Ctx) (req : DnsRequest Name) (res : Res) (duration : Z) : list (Counter * Z) :=
  [(Total, 1); (ReceivedCount, 1); (ElapsedMicros, as_u64 (as_micros duration))]
  ++ (if match res with Ok _ => true | Err e => is_negative_response e end then [(Success, 1)] else [])
  ++ (if negb (so_is_background (ctx_server_opts ctx)) && negb (ctx_is_dualstack ctx) && negb (sa_port (req_src req) =? 0)
      then [(FromClient, 1)] else [])
  ++ (if blocked ctx res then [(Blocked, 1)] else []).
End Completed.

(** ** Upstream servers *)
Record UpstreamStats := mkUpstream {
  us_host : string;
  us_ip : string;
  us_total : Z; us_success : Z; us_received : Z; us_elapsed : Z;
  us_alive : bool;
  us_registered : bool;
}.

(** [Upstream::new], before it is registered. *)
Definition upstream_new (host_text : Host → string) (u : DnsUrl) : UpstreamStats :=
  mkUpstream (host_text (url_host u)) (opt_map_or EmptyString ip_show (url_ip u)) 0 0 0 0 true true.

(** The start of a lookup, and its end ([Upstream::completed]). *)
Definition upstream_started (s : UpstreamStats) : UpstreamStats :=
  mkUpstream (us_host s) (us_ip s) (as_u64 (us_total s + 1)) (us_success s) (us_received s) (us_elapsed s) (us_alive s) (us_registered s).

Section UpstreamCompleted.
Context {Name : Type}.
Definition upstream_completed (res : result (DnsResponse Name) (LookupError Name)) (elapsed : Z) (s : UpstreamStats) : UpstreamStats :=
  let reachable := match res with Ok _ => true | Err e => is_nx_domain e || match e with ENoRecords _ _ => true | _ => false end end in
  if reachable
  then mkUpstream (us_host s) (us_ip s) (us_total s) (as_u64 (us_success s + 1)) (as_u64 (us_received s + 1))
         (as_u64 (us_elapsed s + as_u64 (as_micros elapsed))) true (us_registered s)
  else mkUpstream (us_host s) (us_ip s) (us_total s) (us_success s) (us_received s) (us_elapsed s) false (us_registered s).
End UpstreamCompleted.

(** [NameServer::drop] *)
Definition upstream_dropped (s : UpstreamStats) : UpstreamStats :=
  mkUpstream (us_host s) (us_ip s) (us_total s) (us_success s) (us_received s) (us_elapsed s) false false.

(** The registry holds no server alive: a server is known by a number, and how many
    hold it is kept beside it. *)
Record Registry := mkRegistry {
  rg_upstreams : list nat;
  rg_servers : gmap nat (UpstreamStats * nat);
  rg_next : nat;
}.
Definition registry_empty : Registry := mkRegistry [] ∅ 0%nat.

Definition strong_count (r : Registry) (i : nat) : nat := opt_map_or 0%nat snd (rg_servers r !! i).

Definition registry_new (s : UpstreamStats) (r : Registry) : Registry :=
  mkRegistry (List.filter (fun i => 0 <? strong_count r i)%nat (rg_upstreams r) ++ [rg_next r])
    (<[rg_next r := (s, 1%nat)]> (rg_servers r)) (S (rg_next r)).

(** A server is dropped; its statistics may still be held by those who show them. *)
Definition registry_drop (i : nat) (r : Registry) : Registry :=
  mkRegistry (rg_upstreams r) (alter (fun x => (upstream_dropped x.1, x.2 - 1)%nat) i (rg_servers r)) (rg_next r).
Definition registry_hold (i : nat) (r : Registry) : Registry :=
  mkRegistry (rg_upstreams r) (alter (fun x => (x.1, S x.2)) i (rg_servers r)) (rg_next r).
Definition registry_release (i : nat) (r : Registry) : Registry :=
  mkRegistry (rg_upstreams r) (alter (fun x => (x.1, x.2 - 1)%nat) i (rg_servers r)) (rg_next r).

(** [upstreams] *)
Definition upstreams (r : Registry) : list UpstreamStats :=
  omap (fun i => '(s, n) ← rg_servers r !! i; if (0 <? n)%nat && us_registered s then Some s else None) (rg_upstreams r).

(** ** Observers ([plugins/mod.rs])

    The extensions that are told of queries, of the log and of the audit, in the order
    they were registered. *)
Section Observers.
Context {P : Type}.
Record Plugins := mkPlugins { pl_plugins : list P; pl_active : bool }.
Definition plugins_none : Plugins := mkPlugins [] false.
Definition register (p : P) (pl : Plugins) : Plugins := mkPlugins (pl_plugins pl ++ [p]) true.
Definition plugins_shutdown (_ : Plugins) : Plugins := plugins_none.
Definition wants_mac (needs_mac : P → bool) (pl : Plugins) : bool := pl_active pl && existsb needs_mac (pl_plugins pl).
(** Those that are called: at the end of a query, and for a line of the log, unless it
    comes from such a call. *)
Definition completed_calls (pl : Plugins) : list P := if pl_active pl then pl_plugins pl else [].
Definition log_calls (logging : bool) (pl : Plugins) : list P := if logging then [] else pl_plugins pl.
End Observers.

(** ** What the web interface shows ([webui/mod.rs]) *)
Definition QUERY_HISTORY_LIMIT : nat := 1000.
Definition LOG_HISTORY_LIMIT : nat := 300.

(** [push_front] and [truncate] *)
Definition remember {A} (limit : nat) (x : A) (l : list A) : list A := take limit (x :: l).

Section History.
Context {Name : Type} {RM : Type → Type} {Fut : Type} `{ML : MsgLib Name}.
Abbreviation Ctx := (DnsContext Name RM Fut).
Abbreviation Res := (result (DnsResponse Name) (LookupError Name)).

Inductive QueryAnswer := AnswerIp (ip : IpAddr) | AnswerOther (d : RData Name).
Definition query_answer (d : RData Name) : QueryAnswer := match rdata_ip_addr d with Some ip => AnswerIp ip | None => AnswerOther d end.

Record QueryEntry := mkQueryEntry {
  qe_time : Z;
  qe_client : IpAddr;
  qe_name : Name;
  qe_type : RecordType;
  qe_rcode : option ResponseCode;
  qe_answers : list QueryAnswer;
  qe_source : LookupFrom;
  qe_elapsed : Z;
}.

(** [query_complete]; a query of this program itself is not shown. *)
Definition query_complete (webui_enabled : bool) (time : Z) (now : Instant) (ctx : Ctx) (req : DnsRequest Name) (res : Res) (elapsed : Z)
    (queries : list QueryEntry) : list QueryEntry :=
  if negb webui_enabled || so_is_background (ctx_server_opts ctx) || ctx_is_dualstack ctx || (sa_port (req_src req) =? 0) then queries
  else
    let rcode := match res with
                 | Ok r => Some (h_response_code (msg_header (resp_message r)))
                 | Err e => (fun r => h_response_code (msg_header (resp_message r))) <$> as_no_records_response now e (req_query req)
                 end in
    let entry := mkQueryEntry time (sa_ip (req_src req)) (q_name (req_query req)) (q_type (req_query req)) rcode
                   match res with Ok r => (fun x => query_answer (rr_data x)) <$> answers r | Err _ => [] end
                   (ctx_source ctx) elapsed in
    remember QUERY_HISTORY_LIMIT entry queries.

(** [log] *)
Definition log_line {A} (entry : A) (logs : list A) : list A := remember LOG_HISTORY_LIMIT entry logs.
End History.

(** What is remembered are the last, the newest first. *)
Lemma remember_last {A} limit (l : list A) : fold_left (fun h x => remember limit x h) l [] = take limit (reverse l).
Proof.
  induction l as [|x l IH] using rev_ind; [by destruct limit|]. rewrite fold_left_app, IH, reverse_app. cbn.
  unfold remember. destruct limit as [|n]; [done|]. cbn. by rewrite take_take, Nat.min_l by lia.
Qed.

(** ** Counting under interleaving

    Queries end at the same time: each of the additions of each is a step. *)
Section Counting.
Context {Name : Type} {RM : Type → Type} {Fut : Type} `{ML : MsgLib Name}.
Abbreviation Ctx := (DnsContext Name RM Fut).

Record Counting := mkCounting {
  ct_stats : Stats;
  (** the queries that have ended *)
  ct_ended : Z;
  (** what they have still to add *)
  ct_adds : list (list (Counter * Z));
}.

Inductive counting_step : Counting → Counting → Prop :=
| count_end st n l (ctx : Ctx) req res d :
    counting_step (mkCounting st n l) (mkCounting st (n + 1) (l ++ [completed ctx req res d]))
| count_add st n a c d rest b :
    counting_step (mkCounting st n (a ++ ((c, d) :: rest) :: b)) (mkCounting (fetch_add c d st) n (a ++ rest :: b))
| count_done st n a b : counting_step (mkCounting st n (a ++ [] :: b)) (mkCounting st n (a ++ b)).

Inductive counting_reach : Counting → Prop :=
| counting_start : counting_reach (mkCounting stats_zero 0 [])
| counting_next s s' : counting_reach s → counting_step s s' → counting_reach s'.

(** Whether a counter is still to be added to, and whether it is when the total is
    not: the query is then counted in the total and not in it. *)
Definition to_add (c : Counter) (adds : list (Counter * Z)) : Z := if bool_decide (c ∈ adds.*1) then 1 else 0.
Definition behind (c : Counter) (adds : list (Counter * Z)) : Z := if bool_decide (Total ∈ adds.*1) then 0 else to_add c adds.

Definition adds_ok (adds : list (Counter * Z)) : Prop :=
  NoDup adds.*1 ∧ Forall (fun x => x.1 ≠ ElapsedMicros → x.2 = 1) adds ∧ (∀ x rest, adds = x :: rest → Total ∉ rest.*1).

Definition counted (c : Counter) : Prop := c ≠ Total ∧ c ≠ ElapsedMicros.

Record counting_inv (s : Counting) : Prop := {
  ci_ok : Forall adds_ok (ct_adds s);
  ci_total : 0 ≤ ct_stats s Total ∧ ct_stats s Total + sum_list_with_Z (to_add Total) (ct_adds s) = ct_ended s;
  ci_received : ct_stats s ReceivedCount + sum_list_with_Z (to_add ReceivedCount) (ct_adds s) = ct_ended s;
  ci_behind c : counted c → 0 ≤ ct_stats s c ∧ ct_stats s c + sum_list_with_Z (behind c) (ct_adds s) ≤ ct_stats s Total;
}.

Lemma to_add_nonneg c a : 0 ≤ to_add c a.
Proof. unfold to_add. by case_bool_decide. Qed.
Lemma behind_nonneg c a : 0 ≤ behind c a.
Proof. unfold behind, to_add. by repeat case_bool_decide. Qed.

Lemma completed_ok (ctx : Ctx) req res d : adds_ok (completed ctx req res d) ∧ (Total, 1) ∈ completed ctx req res d ∧ (ReceivedCount, 1) ∈ completed ctx req res d.
Proof.
  assert (Hnd : ∀ b1 b2 b3 : bool, let l := [(Total, 1); (ReceivedCount, 1); (ElapsedMicros, as_u64 (as_micros d))]
     ++ (if b1 then [(Success, 1)] else []) ++ (if b2 then [(FromClient, 1)] else []) ++ (if b3 then [(Blocked, 1)] else []) in
     adds_ok l ∧ (Total, 1) ∈ l ∧ (ReceivedCount, 1) ∈ l).
  { intros b1 b2 b3 l. subst l. split; [|split; [by left|by right; left]]. split_and!.
    - destruct b1, b2, b3; cbn; (apply (bool_decide_unpack _); by vm_compute).
    - destruct b1, b2, b3; cbn; by repeat constructor.
    - intros x rest [= _ <-]. destruct b1, b2, b3; cbn; (apply (bool_decide_unpack _); by vm_compute). }
  apply Hnd.
Qed.

Lemma to_add_cons k c d rest : c ∉ rest.*1 → to_add k ((c, d) :: rest) = to_add k rest + (if bool_decide (k = c) then 1 else 0).
Proof.
  intros Hc. unfold to_add. rewrite fmap_cons. cbn [fst]. destruct (decide (k = c)) as [->|Hk].
  - rewrite (bool_decide_true (c = c)) by done. rewrite bool_decide_true by (by apply elem_of_cons; left). by rewrite bool_decide_false.
  - rewrite (bool_decide_false (k = c)) by done. rewrite (bool_decide_ext _ (k ∈ rest.*1)); [lia|]. rewrite elem_of_cons. naive_solver.
Qed.

Lemma adds_ok_cons c d rest : adds_ok ((c, d) :: rest) →
  (c ∉ rest.*1) ∧ (Total ∉ rest.*1) ∧ adds_ok rest ∧ (c ≠ ElapsedMicros → d = 1).
Proof.
  intros (Hnd & Hd & Ht). rewrite fmap_cons in Hnd; cbn [fst] in Hnd. apply NoDup_cons in Hnd as [Hc Hnd].
  apply Forall_cons in Hd as [Hd Hds]. specialize (Ht _ _ eq_refl).
  split_and!; [done..| |done]. split_and!; [done..|]. intros x l ->. cbn in Ht. by apply not_elem_of_cons in Ht as [_ ?].
Qed.

(** What one addition does to what a list still holds. *)
Lemma behind_cons k c d rest : adds_ok ((c, d) :: rest) → k ≠ Total →
  ((behind k rest) + (if bool_decide (k = c) then 1 else 0)) ≤ (behind k ((c, d) :: rest) + (if bool_decide (c = Total) then 1 else 0)).
Proof.
  intros (Hc & Ht & _ & _)%adds_ok_cons Hk. unfold behind. rewrite (bool_decide_false _ Ht).
  rewrite ?fmap_cons; cbn [fst]. destruct (decide (c = Total)) as [->|Hct].
  - rewrite (bool_decide_true (Total ∈ _)) by (by apply elem_of_cons; left). rewrite (bool_decide_false (k = Total)), (bool_decide_true (Total = Total)) by done.
    pose proof (to_add_nonneg k rest). unfold to_add in *. case_bool_decide; lia.
  - rewrite (bool_decide_false (Total ∈ _)) by (apply not_elem_of_cons; done).
    rewrite (to_add_cons k c d rest Hc), (bool_decide_false _ Hct). lia.
Qed.

Lemma fetch_add_at c d st k : 0 ≤ st k → st k + d < 2 ^ 64 → 0 ≤ d →
  fetch_add c d st k = st k + (if bool_decide (k = c) then d else 0).
Proof. intros ? ? ?. unfold fetch_add, as_u64. case_bool_decide; [|lia]. rewrite Z.mod_small; lia. Qed.
Lemma fetch_add_other c d st k : k ≠ c → fetch_add c d st k = st k.
Proof. intros Hk. unfold fetch_add. by rewrite bool_decide_false. Qed.

(** The counters stay within their width, so each addition adds one. *)
Lemma fetch_add_exact st n a c d rest b k :
  counting_inv (mkCounting st n (a ++ ((c, d) :: rest) :: b)) → n < 2 ^ 64 → k = Total ∨ counted k →
  fetch_add c d st k = st k + (if bool_decide (k = c) then 1 else 0).
Proof.
  intros [Hok [Ht0 Ht] _ Hb] Hlt Hk. cbn [ct_stats ct_ended ct_adds] in *.
  apply Forall_app in Hok as [_ [Hokc _]%Forall_cons]. destruct (adds_ok_cons _ _ _ Hokc) as (Hc & _ & _ & Hd).
  destruct (decide (k = c)) as [<-|Hkc]; [|rewrite fetch_add_other, bool_decide_false by done; lia].
  rewrite sum_list_app, sum_list_cons, to_add_cons in Ht by done.
  pose proof (sum_list_nonneg (to_add Total) a (fun x _ => to_add_nonneg _ x)).
  pose proof (sum_list_nonneg (to_add Total) b (fun x _ => to_add_nonneg _ x)).
  pose proof (to_add_nonneg Total rest). rewrite (bool_decide_true (k = k)) by done.
  destruct Hk as [->|Hk].
  - rewrite (bool_decide_true (Total = Total)) in Ht by done. rewrite Hd by done.
    rewrite fetch_add_at; [by rewrite bool_decide_true|lia..].
  - destruct (Hb k Hk) as [Hk0 Hkb]. destruct Hk as [HkT HkE]. rewrite sum_list_app, sum_list_cons in Hkb. rewrite Hd by done.
    pose proof (behind_cons k k d rest Hokc HkT) as HB. rewrite (bool_decide_true (k = k)), (bool_decide_false (k = Total)) in HB by done.
    pose proof (behind_nonneg k rest).
    pose proof (sum_list_nonneg (behind k) a (fun x _ => behind_nonneg _ x)).
    pose proof (sum_list_nonneg (behind k) b (fun x _ => behind_nonneg _ x)).
    rewrite (bool_decide_false (Total = k)) in Ht by done.
    rewrite fetch_add_at; [by rewrite bool_decide_true|..]; lia.
Qed.

Lemma count_add_inv st n a c d rest b :
  counting_inv (mkCounting st n (a ++ ((c, d) :: rest) :: b)) → n < 2 ^ 64 →
  counting_inv (mkCounting (fetch_add c d st) n (a ++ rest :: b)).
Proof.
  intros Hinv Hlt. pose proof (λ k, fetch_add_exact st n a c d rest b k Hinv Hlt) as Ek.
  destruct Hinv as [Hok [Ht0 Ht] Hr Hb]. cbn [ct_stats ct_ended ct_adds] in *.
  apply Forall_app in Hok as [Hoka [Hokc Hokb]%Forall_cons]. destruct (adds_ok_cons _ _ _ Hokc) as (Hc & HTr & Hor & Hd).
  rewrite sum_list_app, sum_list_cons, to_add_cons in Ht, Hr by done.
  split; cbn [ct_stats ct_ended ct_adds].
  - apply Forall_app. split; [done|]. by apply Forall_cons.
  - rewrite sum_list_app, sum_list_cons, Ek by auto. destruct (bool_decide (Total = c)); lia.
  - rewrite sum_list_app, sum_list_cons, Ek by (by right). lia.
  - intros k Hk. rewrite sum_list_app, sum_list_cons, !Ek by auto. specialize (Hb k Hk). rewrite sum_list_app, sum_list_cons in Hb.
    destruct Hk as [HkT _]. pose proof (behind_cons k c d rest Hokc HkT) as HB.
    rewrite (bool_decide_ext (Total = c) (c = Total)) by done.
    destruct (bool_decide (k = c)), (bool_decide (c = Total)); lia.
Qed.

Lemma counting_step_inv s s' : counting_step s s' → counting_inv s → ct_ended s' < 2 ^ 64 → counting_inv s'.
Proof.
  intros Hstep Hinv Hlt. destruct Hstep as [st n l ctx req res d|st n a c d rest b|st n a b]; [|by apply count_add_inv|];
    destruct Hinv as [Hok [Ht0 Ht] Hr Hb]; cbn [ct_stats ct_ended ct_adds] in *.
  - destruct (completed_ok ctx req res d) as (Hco & HT & HR).
    assert (∀ c, (c, 1) ∈ completed ctx req res d → to_add c (completed ctx req res d) = 1) as Hadd.
    { intros c Hc. unfold to_add. rewrite bool_decide_true; [done|]. apply list_elem_of_fmap. by exists (c, 1). }
    split; cbn [ct_stats ct_ended ct_adds].
    + apply Forall_app. split; [done|]. by apply Forall_singleton.
    + rewrite sum_list_app, sum_list_cons, (Hadd _ HT). change (sum_list_with_Z (to_add Total) []) with 0. lia.
    + rewrite sum_list_app, sum_list_cons, (Hadd _ HR). change (sum_list_with_Z (to_add ReceivedCount) []) with 0. lia.
    + intros c Hc. specialize (Hb c Hc). rewrite sum_list_app, sum_list_cons. change (sum_list_with_Z (behind c) []) with 0.
      enough (behind c (completed ctx req res d) = 0) by lia. unfold behind. rewrite bool_decide_true; [done|].
      apply list_elem_of_fmap. by exists (Total, 1).
  - apply Forall_app in Hok as [Hoka [Hokc Hokb]%Forall_cons].
    split; cbn [ct_stats ct_ended ct_adds].
    + apply Forall_app; done.
    + rewrite sum_list_app, sum_list_cons in Ht. rewrite sum_list_app. change (to_add Total []) with 0 in Ht. lia.
    + rewrite sum_list_app, sum_list_cons in Hr. rewrite sum_list_app. change (to_add ReceivedCount []) with 0 in Hr. lia.
    + intros k Hk. specialize (Hb k Hk). rewrite sum_list_app, sum_list_cons in Hb. rewrite sum_list_app.
      assert (behind k [] = 0) as Z0 by done. rewrite Z0 in Hb. lia.
Qed.

Lemma counting_step_ended s s' : counting_step s s' → ct_ended s ≤ ct_ended s'.
Proof. intros []; cbn; lia. Qed.

Lemma counting_invariant s : counting_reach s → ct_ended s < 2 ^ 64 → counting_inv s.
Proof.
  intros Hr. induction Hr as [|s s' Hr IH Hs]; intros Hlt.
  - split; cbn; [constructor|by split..]. 
  - apply (counting_step_inv s s' Hs); [|done]. apply IH. pose proof (counting_step_ended _ _ Hs). lia.
Qed.

(** What is left to add can always be added. *)
Lemma counting_settles s : ∃ s', rtc counting_step s s' ∧ ct_ended s' = ct_ended s ∧ ct_adds s' = [].
Proof.
  destruct s as [st n l]. revert st. induction l as [|a l IH]; intros st; [by exists (mkCounting st n [])|].
  revert st. induction a as [|[c d] a IHa]; intros st.
  - destruct (IH st) as (s' & H & Hrest). exists s'. split; [|done].
    eapply rtc_l; [apply (count_done st n [] l)|done].
  - destruct (IHa (fetch_add c d st)) as (s' & H & Hrest). exists s'. split; [|done].
    eapply rtc_l; [apply (count_add st n [] c d a l)|done].
Qed.

(** However the additions of the queries that end at the same time come between
    one another, as long as fewer than [2^64] queries have ended no counter of queries
    (received, successful, from clients, blocked) is ever seen above the total, nor the
    total above the number of queries that have ended; what is left to add can always
    be added, and once nothing is left the total and the received are the number of
    queries that have ended. *)
Theorem counters_consistent s :
  counting_reach s → ct_ended s < 2 ^ 64 →
  (∀ c, c ∈ [ReceivedCount; Success; FromClient; Blocked] → 0 ≤ ct_stats s c ≤ ct_stats s Total)
  ∧ ct_stats s Total ≤ ct_ended s
  ∧ ∃ s', rtc counting_step s s' ∧ ct_adds s' = [] ∧ ct_ended s' = ct_ended s
          ∧ ct_stats s' Total = ct_ended s ∧ ct_stats s' ReceivedCount = ct_ended s.
Proof.
  intros Hr Hlt. destruct (counting_invariant s Hr Hlt) as [_ [_ Ht] _ Hb]. split_and!.
  - intros c Hc. assert (counted c) as [Hc0 Hcb]%Hb.
    { repeat (apply elem_of_cons in Hc as [->|Hc]; [by split|]). by apply not_elem_of_nil in Hc. }
    pose proof (sum_list_nonneg (behind c) (ct_adds s) (fun x _ => behind_nonneg _ x)). lia.
  - pose proof (sum_list_nonneg (to_add Total) (ct_adds s) (fun x _ => to_add_nonneg _ x)). lia.
  - destruct (counting_settles s) as (s' & Hs & He & Hnil). exists s'. split_and!; [done..| |].
    all: assert (counting_reach s') as [_ [_ Ht'] Hr' _]%counting_invariant by
      (clear -Hr Hs; induction Hs; [done|]; apply IHHs; by eapply counting_next); [|lia].
    + rewrite Hnil in Ht'. change (sum_list_with_Z (to_add Total) []) with 0 in Ht'. lia.
    + rewrite Hnil in Hr'. change (sum_list_with_Z (to_add ReceivedCount) []) with 0 in Hr'. lia.
Qed.
End Counting.

(** Two queries have ended: the second has added to the total and to the received, the
    first to the total only. *)
Definition ended_ctx : DnsContext PlainName list_rm unit := sample_ctx config_default None.
Definition two_ended : Counting :=
  mkCounting (fetch_add Total 1 (fetch_add ReceivedCount 1 (fetch_add Total 1 stats_zero))) 2
    [[(ReceivedCount, 1); (ElapsedMicros, 3); (Success, 1); (FromClient, 1)]; [(ElapsedMicros, 2); (FromClient, 1)]].

Lemma two_ended_reached : counting_reach (Name := PlainName) (RM := list_rm) (Fut := unit) two_ended.
Proof.
  eapply counting_next; [|apply (count_add _ 2 [] Total 1 [(ReceivedCount, 1); (ElapsedMicros, 3); (Success, 1); (FromClient, 1)] [[(ElapsedMicros, 2); (FromClient, 1)]])].
  eapply counting_next; [|apply (count_add _ 2 [[(Total, 1); (ReceivedCount, 1); (ElapsedMicros, 3); (Success, 1); (FromClient, 1)]] ReceivedCount 1 [(ElapsedMicros, 2); (FromClient, 1)] [])].
  eapply counting_next; [|apply (count_add _ 2 [[(Total, 1); (ReceivedCount, 1); (ElapsedMicros, 3); (Success, 1); (FromClient, 1)]] Total 1 [(ReceivedCount, 1); (ElapsedMicros, 2); (FromClient, 1)] [])].
  assert (E1 : completed ended_ctx (sample_req TYPE_A) (Err (ENoRecords None NXDomain)) 3999
    = [(Total, 1); (ReceivedCount, 1); (ElapsedMicros, 3); (Success, 1); (FromClient, 1)]) by (by vm_compute).
  assert (E2 : completed ended_ctx (sample_req TYPE_A) (Err EIo) 2500
    = [(Total, 1); (ReceivedCount, 1); (ElapsedMicros, 2); (FromClient, 1)]) by (by vm_compute).
  cbn [app]. rewrite <- E1, <- E2.
  eapply counting_next; [eapply counting_next; [apply counting_start|apply count_end]|apply (count_end _ 1 [_])].
Qed.

Lemma counters_consistent_witness :
  (0 ≤ ct_stats two_ended ReceivedCount ≤ ct_stats two_ended Total)
  ∧ ct_stats two_ended Total = 2 ∧ ct_stats two_ended ReceivedCount = 1.
Proof.
  assert (Hlt : ct_ended two_ended < 2 ^ 64) by (cbn; lia).
  destruct (counters_consistent _ two_ended_reached Hlt) as (Hc & _ & _).
  split; [apply Hc; by left|]. split; by vm_compute.
Defined.
