(* ===== verification/QueryAudit.v ===== *)
(** * The audit of queries ([dns_mw_audit.rs])

    A record of each query, the line and the row it is written as, and the task that
    writes them to a file that is rotated. How a time, a name and the data of a record
    are shown, and the writer of rows, are the libraries'. *)

From S2P Require Import Prelude Names DomainMap Config DomainRule DomainRuleTree IpSet Message Runtime Context Calls Text LogFile AddressFile Samples.

(** [SocketAddr]'s [Display], without a scope. *)
Definition show_socket (a : SocketAddr) : text :=
  match sa_ip a with
  | V4 ip => show_ipv4 ip ++ text_of ":" ++ show_number (sa_port a)
  | V6 ip => text_of "[" ++ show_ipv6 ip ++ text_of "]:" ++ show_number (sa_port a)
  end.

Class AuditLib (Name : Type) := {
  name_text : Name → text;
  type_text : RecordType → text;
  rdata_text : RData Name → text;
  (** [Duration]'s [Debug] *)
  duration_text : Z → text;
  (** [DateTime::format] and [timestamp], of the nanoseconds since 1970 *)
  date_text : Z → text;
  timestamp_text : Z → text;
  (** [csv::Writer]: a row, and the writes of rows to what it writes to. *)
  csv_row : list text → text;
  csv_write : ∀ {W : Type}, (W → text → option W) → list (list text) → W → W * bool;
}.

Section Audit.
Context {Name : Type} `{NameLib Name} `{MsgLib Name} `{AuditLib Name}.
Context {RM : Type → Type} {Fut : Type}.
Abbreviation Ctx := (DnsContext Name RM Fut).
Abbreviation Res := (result (DnsResponse Name) (LookupError Name)).

Record AuditRecord := mkAudit {
  ad_id : Z;
  ad_client : text;
  ad_query : Query Name;
  ad_result : Res;
  ad_speed : Z;
  ad_elapsed : Z;
  ad_date : Z;
  ad_source : LookupFrom;
}.

(** [is_soa_only] *)
Definition is_soa_only (now : Instant) (res : Res) (q : Query Name) : bool :=
  match (match res with Ok r => Some r | Err e => as_no_records_response now e q end) with
  | None => false
  | Some r => bool_decide (ip_addrs r = []) && existsb (fun x => rr_type x =? TYPE_SOA) (answers r ++ authorities r)
  end.

(** [handle], with the clock: what is sent to the task that writes, if anything; the
    reply is that of what comes after. The date is that of the start. *)
Definition audit_handle (include_soa : bool) (date : Z) (start : Instant) (ctx : Ctx) (req : DnsRequest Name)
    : Handling Name (Instant * Ctx) ((Instant * Ctx) * Res * option AuditRecord) :=
  NextRun (start, ctx) req (fun '(now, ctx) res =>
  if negb include_soa && is_soa_only now res (req_query req) then Return ((now, ctx), res, None)
  else
    let speed := match res with
                 | Ok r => match probe_result r with Measured d => d | _ => ctx_fastest_speed ctx end
                 | Err _ => ctx_fastest_speed ctx
                 end in
    Return ((now, ctx), res,
      Some (mkAudit (req_id req) (show_socket (req_src req)) (req_query req) res speed (now - start) date (ctx_source ctx)))).

(** [fmt_result] *)
Definition show_record (r : Rr Name) : text :=
  rdata_text (rr_data r) ++ text_of " " ++ show_number (rr_ttl_secs r) ++ text_of " " ++ type_text (rr_type r).
Definition fmt_result (res : Res) : text :=
  match res with
  | Ok r =>
      concat (imap (fun i x => (if (0 <? i)%nat then text_of "|" else []) ++ show_record x) (answers r ++ authorities r))
  | Err _ => text_of "query failed"
  end.

(** [to_string_without_date] and [Display] *)
Definition audit_text (a : AuditRecord) : text :=
  ad_client a ++ text_of " query " ++ name_text (q_name (ad_query a)) ++ text_of ", type: " ++ type_text (q_type (ad_query a))
  ++ text_of ", elapsed: " ++ duration_text (ad_elapsed a) ++ text_of ", speed: " ++ duration_text (ad_speed a)
  ++ text_of ", result " ++ fmt_result (ad_result a).
Definition audit_show (a : AuditRecord) : text := text_of "[" ++ date_text (ad_date a) ++ text_of "] " ++ audit_text a.

(** A line is written piece by piece: this many characters at a time, each piece by
    one write. *)
Fixpoint pieces (sizes : list nat) (l : text) : list text :=
  match sizes with
  | [] => [l]
  | n :: sizes => take n l :: pieces sizes (drop n l)
  end.

(** [Debug] of [LookupFrom] *)
Definition show_source (s : LookupFrom) : text :=
  match s with
  | FromNone => text_of "None"
  | FromCache => text_of "Cache"
  | FromStatic => text_of "Static"
  | FromZone z => text_of "Zone: " ++ text_of z
  | FromServer z => text_of "Server: " ++ text_of z
  end.

Definition audit_header : list text :=
  text_of <$> ["id"; "timestamp"; "client"; "name"; "type"; "elapsed"; "speed"; "state"; "result"; "lookup_source"]%string.
Definition audit_fields (a : AuditRecord) : list text :=
  [show_number (ad_id a); timestamp_text (ad_date a); ad_client a; name_text (q_name (ad_query a));
   type_text (q_type (ad_query a)); duration_text (ad_elapsed a); duration_text (ad_speed a);
   text_of (match ad_result a with Ok _ => "success" | Err _ => "failed" end); fmt_result (ad_result a); show_source (ad_source a)].

(** A directory and the file, as they are written to. *)
Abbreviation Sink := (Dir * MappedFile)%type.
Definition sink_write (date : text) (s : Sink) (buf : text) : option Sink :=
  match buf with [] => Some s | _ => mapped_write date buf s.1 s.2 end.

(** The pieces up to the first that cannot be written. *)
Fixpoint write_pieces (date : text) (ps : list text) (s : Sink) : Sink * bool :=
  match ps with
  | [] => (s, true)
  | p :: ps => match sink_write date s p with Some s => write_pieces date ps s | None => (s, false) end
  end.

Variable sizes : AuditRecord → list nat.
Definition audit_line (a : AuditRecord) : list text := pieces (sizes a) (audit_show a ++ text_of (String (Ascii.ascii_of_nat 10) EmptyString)).

(** [record_audit_to_file]; in a file of lines, a line that cannot be written does not
    stop the next. *)
Definition record_audit_to_file (date : text) (records : list AuditRecord) (s : Sink) : Sink * bool :=
  if bool_decide (extension (mf_name s.2) = Some (text_of "csv")) then
    let s := match mf_peamble s.2 with
             | None => (s.1, set_peamble (Some (csv_row audit_header)) s.2)
             | Some _ => s
             end in
    csv_write (sink_write date) (audit_fields <$> records) s
  else (fold_left (fun s a => (write_pieces date (audit_line a) s).1) records s, true).

(** ** The task that writes: at most ten records at a time. *)
Inductive AuditOut := ToPlugins (t : text) | ToConsole (t : text) | ToSyslog (t : text).
Definition audit_outputs (console syslog : bool) (a : AuditRecord) : list AuditOut :=
  [ToPlugins (audit_show a)] ++ (if console then [ToConsole (audit_show a)] else []) ++ (if syslog then [ToSyslog (audit_text a)] else []).

Definition audit_batch (console syslog : bool) (date : text) (batch : list AuditRecord) (file : option Sink) : list AuditOut * option Sink :=
  (batch ≫= audit_outputs console syslog, (fun s => (record_audit_to_file date batch s).1) <$> file).

Definition BATCH : nat := 10.
Definition audit_run (console syslog : bool) (date : text) (batches : list (list AuditRecord)) (file : option Sink) : list AuditOut * option Sink :=
  fold_left (fun acc batch => let r := audit_batch console syslog date batch acc.2 in (acc.1 ++ r.1, r.2)) batches ([], file).

(** [new]: whether there is a file, and which. *)
Definition audit_file_of (syslog : bool) (num : nat) (size : Z) (path : text) : option MappedFile :=
  if negb syslog && (0 <? num)%nat then Some (mapped_open path size (Some num)) else None.

(** ** What is written *)
Lemma pieces_concat ns l : concat (pieces ns l) = l.
Proof. revert l. induction ns as [|n ns IH]; intros l; cbn; [apply app_nil_r|]. by rewrite IH, take_drop. Qed.

(** While the file is not full, writing appends. *)
Definition fits (s : Sink) (n : Z) : Prop :=
  mf_open s.2 = true ∧ file_len s.1 (mf_name s.2) = mf_len s.2 ∧ is_Some (s.1 !! mf_name s.2) ∧ mf_len s.2 + n < mf_size s.2.
Definition appended (s : Sink) (t : text) : Sink :=
  (<[mf_name s.2 := opt_unwrap_or [] (s.1 !! mf_name s.2) ++ t]> s.1,
   mkMapped (mf_name s.2) (mf_size s.2) (mf_num s.2) (mf_open s.2) (mf_len s.2 + Z.of_nat (length t)) (mf_peamble s.2)).

Lemma appended_nil s : is_Some (s.1 !! mf_name s.2) → appended s [] = s.
Proof.
  intros [c Hc]. destruct s as [d m]. unfold appended. cbn [fst snd] in *. rewrite Hc. cbn [opt_unwrap_or].
  rewrite app_nil_r, insert_id by done. destruct m. cbn. f_equal. f_equal. lia.
Qed.
Lemma appended_app s t1 t2 : appended (appended s t1) t2 = appended s (t1 ++ t2).
Proof.
  unfold appended. cbn. rewrite lookup_insert_eq, insert_insert_eq. cbn. rewrite <- app_assoc, length_app. do 2 f_equal. lia.
Qed.
Lemma appended_fits s t n : fits s (Z.of_nat (length t) + n) → fits (appended s t) n.
Proof.
  intros (Ho & Hl & [c Hc] & Hn). unfold fits, appended, file_len in *. cbn. rewrite lookup_insert_eq. cbn. rewrite Hc in *. cbn in Hl.
  split_and!; [done| |by eexists|lia]. cbn. rewrite length_app. lia.
Qed.

Lemma sink_write_fits date s p : fits s (Z.of_nat (length p)) → sink_write date s p = Some (appended s p).
Proof.
  intros (Ho & Hl & [c Hc] & Hn). destruct p as [|x p]; [by rewrite appended_nil|]. cbn [sink_write].
  unfold mapped_write, get_active_file, is_full, mapped_len, open_active. rewrite Ho, orb_true_r.
  destruct (Z.leb_spec (mf_size s.2) (mf_len s.2)); [lia|]. cbn [mbind option_bind]. cbn [mf_open mf_len mf_size].
  rewrite Ho, orb_true_r. destruct (Z.leb_spec (mf_size s.2) (mf_len s.2 + Z.of_nat (length (x :: p)))); [lia|]. unfold appended. by rewrite Ho.
Qed.

Lemma write_pieces_fits date ps s : fits s (Z.of_nat (length (concat ps))) → write_pieces date ps s = (appended s (concat ps), true).
Proof.
  revert s. induction ps as [|p ps IH]; intros s Hf; cbn.
  - destruct Hf as (_ & _ & Hs & _). by rewrite appended_nil.
  - cbn in Hf. rewrite length_app, Nat2Z.inj_add in Hf. rewrite sink_write_fits.
    + rewrite IH by (by apply appended_fits). by rewrite appended_app.
    + destruct Hf as (? & ? & ? & ?). split_and!; try done; lia.
Qed.

Definition line_text (a : AuditRecord) : text := audit_show a ++ text_of (String (Ascii.ascii_of_nat 10) EmptyString).

(** As long as the file is not full, it gains the lines of the records, whole and in
    order, however they come in batches and in whatever pieces they are written. *)
Lemma audit_lines console syslog date batches s :
  extension (mf_name s.2) ≠ Some (text_of "csv") →
  fits s (Z.of_nat (length (concat (line_text <$> concat batches)))) →
  audit_run console syslog date batches (Some s)
  = (concat batches ≫= audit_outputs console syslog, Some (appended s (concat (line_text <$> concat batches)))).
Proof.
  unfold audit_run. intros Hext Hf. change (concat batches ≫= audit_outputs console syslog) with ([] ++ (concat batches ≫= audit_outputs console syslog)).
  generalize (@nil AuditOut). revert s Hext Hf. induction batches as [|b batches IH]; intros s Hext Hf out; cbn.
  - destruct Hf as (_ & _ & Hs & _). by rewrite app_nil_r, appended_nil.
  - assert (Hb : ∀ s : Sink, fits s (Z.of_nat (length (concat (line_text <$> b)))) →
      fold_left (fun s a => (write_pieces date (audit_line a) s).1) b s = appended s (concat (line_text <$> b))).
    { clear. induction b as [|a b IH]; intros s Hf; cbn.
      - destruct Hf as (_ & _ & Hs & _). by rewrite appended_nil.
      - rewrite fmap_cons in *. cbn [concat] in Hf. rewrite length_app, Nat2Z.inj_add in Hf.
        assert (concat (audit_line a) = line_text a) as El by apply pieces_concat.
        rewrite write_pieces_fits; rewrite El; cbn [fst].
        + rewrite IH by (by apply appended_fits). by rewrite appended_app.
        + destruct Hf as (? & ? & ? & ?). split_and!; try done; lia. }
    cbn in Hf. rewrite fmap_app, concat_app, length_app, Nat2Z.inj_add in Hf.
    unfold record_audit_to_file. rewrite bool_decide_false by done. cbn [fst]. rewrite Hb.
    + rewrite IH; [|done|by apply appended_fits]. rewrite appended_app, fmap_app, concat_app, bind_app. by rewrite <- app_assoc.
    + destruct Hf as (? & ? & ? & ?). split_and!; try done; lia.
Qed.
End Audit.

(** ** A line between two files *)
#[local] Instance PlainAudit : AuditLib PlainName := {
  name_text := plain_show;
  type_text := show_number;
  rdata_text := fun _ => [];
  duration_text := show_number;
  date_text := show_number;
  timestamp_text := show_number;
  csv_row := fun fields => concat fields;
  csv_write := fun W write rows w =>
    fold_left (fun acc row => match write acc.1 (concat row) with Some w => (w, acc.2) | None => (acc.1, false) end) rows (w, true);
}.

Definition failed_query : AuditRecord (Name := PlainName) :=
  mkAudit 7 (text_of "192.0.2.1:53") (sample_query TYPE_A) (Err EIo) 0 3 1700000000 FromNone.

(** A line is written piece by piece, and the file is rotated at any of them: the line
    begins at the end of one file and ends at the start of the next. *)
Lemma line_split :
  (fun s => (s.1 !! text_of "audit.log", s.1 !! text_of "audit-2.log"))
    <$> (audit_run (fun _ => [1; 10; 2; 12]%nat) false false (text_of "2") [[failed_query]]
           (Some ({[text_of "audit.log" := [120; 10]]}, mapped_open (text_of "audit.log") 20 (Some 2%nat)))).2
  = Some (Some (text_of " query www.example.com., type: 1, elapsed: 3, speed: 0, result query failed" ++ [10]),
          Some ([120; 10] ++ text_of "[1700000000] 192.0.2.1:53")).
Proof. vm_compute. reflexivity. Qed.
