(* ===== verification/Pipeline.v ===== *)
(** * The chain of middlewares over one state ([dns_mw.rs], [app.rs])

    The middlewares of a configuration run over the state of all of them, with one
    clock: each is the program of its handler, its calls answered by running the rest
    of the chain ([run_over]). What is asked of the name servers for a query, and what
    never is, are properties of the whole chain; and a packet is answered by all of
    it, from its decoding to its reply ([serve_packet]). *)

From S2P Require Import Prelude Names DomainMap Config Text DomainRule DomainRuleTree IpSet Message Runtime Context Calls DnsUrl Dnsmasq Zones Samples Odhcpd HostsMw FirewallMw AddressMw Lru Cache CacheMw Tasks Upstream ClientBuild NameServerMw NameServerSpec NameServerExamples RewriteMw DualstackMw App ConfigItems Loader Chain QueryAudit Reply.

(** ** The whole state *)
(** The clock, the context of the query, what the middlewares keep, what they send
    out, the permits for deferred speed checks, and the lookups made in groups of name
    servers. *)
Record PipeWorld (Name : Type) (RM : Type → Type) (L Hosts Ctx Eff Audit : Type) := mkPipe {
  pw_now : Instant;
  pw_ctx : Ctx;
  pw_leases : LanClientStore (Name := Name);
  pw_odhcpd : OdhcpdCache (Name := Name);
  pw_hosts : option (HostsCache (Hosts := Hosts));
  pw_cache : DnsCache L;
  pw_effects : list Eff;
  pw_records : list Audit;
  pw_updates : list SetUpdate;
  pw_permits : Z;
  pw_asked : list (GroupLookup (Name := Name));
}.
Arguments mkPipe {Name RM L Hosts Ctx Eff Audit}.
Arguments pw_now {Name RM L Hosts Ctx Eff Audit}.
Arguments pw_ctx {Name RM L Hosts Ctx Eff Audit}.
Arguments pw_leases {Name RM L Hosts Ctx Eff Audit}.
Arguments pw_odhcpd {Name RM L Hosts Ctx Eff Audit}.
Arguments pw_hosts {Name RM L Hosts Ctx Eff Audit}.
Arguments pw_cache {Name RM L Hosts Ctx Eff Audit}.
Arguments pw_effects {Name RM L Hosts Ctx Eff Audit}.
Arguments pw_records {Name RM L Hosts Ctx Eff Audit}.
Arguments pw_updates {Name RM L Hosts Ctx Eff Audit}.
Arguments pw_permits {Name RM L Hosts Ctx Eff Audit}.
Arguments pw_asked {Name RM L Hosts Ctx Eff Audit}.

(** What the middlewares look at outside: files, interfaces, the neighbours and the
    name servers, at a time. *)
Record Surroundings (Name : Type) := mkSurroundings {
  su_server_name : Name;
  su_binds : list BindAddrConfig;
  su_version : text;
  su_json_text : list (string * text) → text;
  su_lookup_mac : IpAddr → option text;
  su_local_route : IpAddr → option IpAddr;
  su_interfaces : Instant → list IpAddr;
  su_leases : PathBuf → Instant → LeaseEnv;
  su_domain : option Name;
  su_odhcpd : PathBuf → Instant → option Z * FileRead;
  su_expand_ptr : bool;
  su_hosts : Instant → option (list PathInfo) * list PathInfo;
  su_include_soa : bool;
  su_date : Instant → Z;
  su_groups : gmap string NetworkSetOptions;
  su_client : DnsClient Name;
  su_iter : list (IpAddr * Z) → list (IpAddr * Z);
}.
Arguments mkSurroundings {Name}.
Arguments su_server_name {Name}.
Arguments su_binds {Name}.
Arguments su_version {Name}.
Arguments su_json_text {Name}.
Arguments su_lookup_mac {Name}.
Arguments su_local_route {Name}.
Arguments su_interfaces {Name}.
Arguments su_leases {Name}.
Arguments su_domain {Name}.
Arguments su_odhcpd {Name}.
Arguments su_expand_ptr {Name}.
Arguments su_hosts {Name}.
Arguments su_include_soa {Name}.
Arguments su_date {Name}.
Arguments su_groups {Name}.
Arguments su_client {Name}.
Arguments su_iter {Name}.

Section Pipeline.
Context {Name : Type} `{NL : NameLib Name} `{NT : NameText Name} `{ML : MsgLib Name} `{SZ : Sizes Name}.
Context {L : Type} `{LL : LruLib (Query Name) (DnsCacheEntry Name) L}.
Context {RM : Type → Type} `{RML : RangeMapLib RM} `{NetL : NetLib} `{FL : FuturesLib}.
Context {Hosts : Type} `{HL : HostsLib Name Hosts}.
Variable from_timestamp : Z → option Z.
Variable hash : Z → list Z → Z.
Variable wm : list Z → list Z → bool.
Variable names_order : list (WildcardName Name * ClientInfo Name) → list (WildcardName Name * ClientInfo Name).
Variable probe : Instant → PingAddr → Z * result Z Probe.PingError.
Variable env : Surroundings Name.

Abbreviation Req := (DnsRequest Name).
Abbreviation Res := (result (DnsResponse Name) (LookupError Name)).
Abbreviation Ctx := (DnsContext Name RM (Outcome Res)).
Abbreviation World := (PipeWorld Name RM L Hosts Ctx (Effect (Name := Name) (Fut := Outcome Res)) (AuditRecord (Name := Name))).
Abbreviation PReply := (result (DnsResponse Name) (PipeError Name)).
Abbreviation Mw := (Middleware (TCtx := World) (TReq := Req) (TRes := DnsResponse Name) (TErr := PipeError Name)).
Implicit Types (ctx : Ctx) (req : Req) (p : World).

(** The part of each middleware. *)
Definition put_ctx ctx p : World :=
  mkPipe (pw_now p) ctx (pw_leases p) (pw_odhcpd p) (pw_hosts p) (pw_cache p) (pw_effects p) (pw_records p) (pw_updates p) (pw_permits p) (pw_asked p).
Definition get_leases p := (pw_ctx p, pw_leases p).
Definition put_leases (w : Ctx * LanClientStore) p : World :=
  mkPipe (pw_now p) w.1 w.2 (pw_odhcpd p) (pw_hosts p) (pw_cache p) (pw_effects p) (pw_records p) (pw_updates p) (pw_permits p) (pw_asked p).
Definition get_odhcpd p := (pw_ctx p, pw_odhcpd p).
Definition put_odhcpd (w : Ctx * OdhcpdCache) p : World :=
  mkPipe (pw_now p) w.1 (pw_leases p) w.2 (pw_hosts p) (pw_cache p) (pw_effects p) (pw_records p) (pw_updates p) (pw_permits p) (pw_asked p).
Definition get_hosts p := (pw_ctx p, pw_hosts p).
Definition put_hosts (w : Ctx * option (HostsCache (Hosts := Hosts))) p : World :=
  mkPipe (pw_now p) w.1 (pw_leases p) (pw_odhcpd p) w.2 (pw_cache p) (pw_effects p) (pw_records p) (pw_updates p) (pw_permits p) (pw_asked p).
Definition get_cache p := (pw_now p, (pw_ctx p, pw_cache p)).
Definition put_cache (w : Instant * (Ctx * DnsCache L)) p : World :=
  mkPipe w.1 w.2.1 (pw_leases p) (pw_odhcpd p) (pw_hosts p) w.2.2 (pw_effects p) (pw_records p) (pw_updates p) (pw_permits p) (pw_asked p).
Definition add_effects (l : list (Effect (Name := Name) (Fut := Outcome Res))) p : World :=
  mkPipe (pw_now p) (pw_ctx p) (pw_leases p) (pw_odhcpd p) (pw_hosts p) (pw_cache p) (pw_effects p ++ l) (pw_records p) (pw_updates p) (pw_permits p) (pw_asked p).
Definition get_timed p := (pw_now p, pw_ctx p).
Definition put_timed (w : Instant * Ctx) p : World :=
  mkPipe w.1 w.2 (pw_leases p) (pw_odhcpd p) (pw_hosts p) (pw_cache p) (pw_effects p) (pw_records p) (pw_updates p) (pw_permits p) (pw_asked p).
Definition add_records (l : list (AuditRecord (Name := Name))) p : World :=
  mkPipe (pw_now p) (pw_ctx p) (pw_leases p) (pw_odhcpd p) (pw_hosts p) (pw_cache p) (pw_effects p) (pw_records p ++ l) (pw_updates p) (pw_permits p) (pw_asked p).
Definition get_updates p := (pw_ctx p, pw_updates p).
Definition put_updates (w : Ctx * list SetUpdate) p : World :=
  mkPipe (pw_now p) w.1 (pw_leases p) (pw_odhcpd p) (pw_hosts p) (pw_cache p) (pw_effects p) (pw_records p) w.2 (pw_permits p) (pw_asked p).

(** The name servers end the chain: they take the time they take, and a panic there
    ends the task. *)
Definition ns_middleware : Mw := fun p req _ =>
  let '(out, ctx, permits, asked) := ns_handle probe (su_iter env) (su_client env) (pw_permits p) (pw_now p) (pw_ctx p) req in
  let ends (t : Instant) :=
    mkPipe t ctx (pw_leases p) (pw_odhcpd p) (pw_hosts p) (pw_cache p) (pw_effects p) (pw_records p) (pw_updates p) permits
      (pw_asked p ++ asked) in
  match out with
  | Done t r => (ends t, reply_of r)
  | Panicked | OutOfFuel => (ends (pw_now p), Err PanicE)
  end.

(** A middleware: its part of the state, its handler, and what it leaves at its end. *)
Record Part := mkPart {
  pt_state : Type;
  pt_out : Type;
  pt_get : World → pt_state;
  pt_put : pt_state → World → World;
  pt_run : pt_state → Req → Handling Name pt_state pt_out;
  pt_keep : pt_out → World → World;
  pt_res : pt_out → Res;
}.
(** A handler that leaves its part and its result. *)
Definition mk_part {W} (get : World → W) (put : W → World → World) (run : W → Req → Handling Name W (W * Res)) : Part :=
  mkPart W (W * Res) get put run (fun out => put out.1) snd.

(** The middlewares, at a time; the name servers are the end of the chain. *)
Definition part_of_kind (k : MwKind) (now : Instant) : option Part :=
  match k with
  | MwNftset => Some (mk_part get_updates put_updates (firewall_run hash wm (su_groups env)))
  | MwAudit =>
      Some (mkPart _ _ get_timed put_timed (fun w => audit_handle (su_include_soa env) (su_date env now) w.1 w.2)
              (fun out p => add_records (option_list out.2) (put_timed out.1.1 p)) (fun out => out.1.2))
  | MwCName => Some (mk_part pw_ctx put_ctx (cname_run hash wm now))
  | MwDns64 net => Some (mk_part pw_ctx put_ctx (dns64_run net))
  | MwAddress => Some (mk_part pw_ctx put_ctx (address_run now))
  | MwDnsmasq file => Some (mk_part get_leases put_leases (dnsmasq_run from_timestamp hash wm names_order (su_leases env file now)))
  | MwZone =>
      Some (mk_part pw_ctx put_ctx
              (zone_run (su_server_name env) (su_binds env) (su_version env) (su_json_text env) (su_lookup_mac env)
                 (su_local_route env) now (su_interfaces env now)))
  | MwOdhcpd file =>
      let '(modified, read) := su_odhcpd env file now in
      Some (mk_part get_odhcpd put_odhcpd (odhcpd_run (su_domain env) now modified read))
  | MwHosts =>
      let '(matched, system) := su_hosts env now in
      Some (mk_part get_hosts put_hosts (hosts_run (su_expand_ptr env) now matched system))
  | MwCache =>
      Some (mkPart _ _ get_cache put_cache (fun w => cache_run w.1 w.2)
              (fun out p => add_effects out.2 (put_cache out.1.1 p)) (fun out => out.1.2))
  | MwDualStack =>
      Some (mkPart _ _ get_timed put_timed (fun w => dualstack_run probe w.1 w.2)
              (fun out => put_timed (out.2.1, out.1)) (fun out => out.2.2))
  | MwBogus => Some (mk_part pw_ctx put_ctx bogus_run)
  | MwNameServer => None
  end.

(** A middleware of the chain over the whole state: its calls run the rest of the
    chain. *)
Definition part_ends (x : Part) (out : pt_out x) p : World * PReply := (pt_keep x out p, reply_of (pt_res x out)).
Definition mw_of_kind (k : MwKind) : Mw := fun p req next =>
  match part_of_kind k (pw_now p) with
  | Some x => run_over (pt_get x) (pt_put x) (part_ends x) next p (pt_run x (pt_get x p) req)
  | None => ns_middleware p req next
  end.

(** [DnsDefaultHandler], and the host of the chain of a configuration. *)
Definition default_over p req : World * PReply :=
  let '(ctx, r) := default_handler (pw_ctx p) req in (put_ctx ctx p, reply_of r).
Definition pipeline (chain : list MwKind) : World → Req → World * PReply :=
  next_run default_over (mw_of_kind <$> chain).

(** *** What is asked of the name servers *)
Abbreviation Asked := (GroupLookup (Name := Name)).
Definition asks (S : Asked → Prop) (n : nat) (l l' : list Asked) : Prop :=
  ∃ m, l' = l ++ m ∧ Forall S m ∧ (length m ≤ n)%nat.
Definition asked_within S n p p' : Prop := asks S n (pw_asked p) (pw_asked p').

Lemma asks_none S n l : asks S n l l.
Proof. exists []. rewrite app_nil_r. repeat split; [constructor|cbn; lia]. Qed.

Lemma asked_none S n p p' : pw_asked p' = pw_asked p → asked_within S n p p'.
Proof. unfold asked_within. intros ->. apply asks_none. Qed.

Lemma asks_trans S n m l l1 l2 : asks S n l l1 → asks S m l1 l2 → asks S (n + m) l l2.
Proof.
  intros (k & -> & F & Hl) (k' & -> & F' & Hl'). exists (k ++ k'). rewrite app_assoc, length_app.
  repeat split; [by apply Forall_app|lia].
Qed.

Lemma asks_weaken S n m l l' : (n ≤ m)%nat → asks S n l l' → asks S m l l'.
Proof. intros Hle (k & E & F & Hl). exists k. repeat split; [done..|lia]. Qed.

(** No middleware touches the questions or the permits itself. *)
Lemma parts_quiet k now x : part_of_kind k now = Some x →
  (∀ w p, pw_asked (pt_put x w p) = pw_asked p ∧ pw_permits (pt_put x w p) = pw_permits p) ∧
  (∀ out p, pw_asked (pt_keep x out p) = pw_asked p ∧ pw_permits (pt_keep x out p) = pw_permits p).
Proof.
  destruct k; cbn [part_of_kind]; try (destruct (su_odhcpd env _ _)); try (destruct (su_hosts env _)); try done; by intros [= <-].
Qed.

(** The calls of a handler, each for a request of a kind, at no more than a cost. *)
Fixpoint calls_within {W A} (ok : Req → Prop) (cost : Req → nat) (n : nat) (r : Handling Name W A) : Prop :=
  match r with
  | Return _ => True
  | NextRun _ req k => ok req ∧ ∃ m, (cost req + m ≤ n)%nat ∧ ∀ w res, calls_within ok cost m (k w res)
  end.

Lemma pass_within {W} ok cost n (w : W) req : ok req → (cost req ≤ n)%nat → calls_within ok cost n (pass_on w req).
Proof. intros Ho Hc. split; [done|]. exists 0%nat. split; [lia|done]. Qed.

(** A handler asks what its calls ask, one after the other. *)
Lemma run_asks {W A} (get : World → W) put ends (next : World → Req → World * PReply) ok cost S (r : Handling Name W A) :
  (∀ w p, pw_asked (put w p) = pw_asked p) → (∀ a p, pw_asked (ends a p).1 = pw_asked p) →
  (∀ p req, ok req → asked_within S (cost req) p (next p req).1) →
  ∀ n p, calls_within ok cost n r → asked_within S n p (run_over get put ends next p r).1.
Proof.
  intros Hput Hends Hnext. induction r as [a|w req k IH]; intros n p; cbn [calls_within run_over]; [intros _; apply asked_none, Hends|].
  intros (Hok & m & Hn & Hk). specialize (Hnext (put w p) req Hok). destruct (next (put w p) req) as [p1 r1]. cbn [fst] in Hnext.
  unfold asked_within in *. rewrite Hput in Hnext. destruct (of_reply r1) as [res|].
  - eapply asks_weaken; [exact Hn|]. eapply asks_trans; [exact Hnext|]. by apply IH.
  - cbn [fst]. eapply asks_weaken; [|exact Hnext]. lia.
Qed.

Lemma part_asks k x p req next ok cost S n :
  part_of_kind k (pw_now p) = Some x → (∀ p req, ok req → asked_within S (cost req) p (next p req).1) →
  calls_within ok cost n (pt_run x (pt_get x p) req) → asked_within S n p (mw_of_kind k p req next).1.
Proof.
  intros Hx Hnext Hc. unfold mw_of_kind. rewrite Hx. destruct (parts_quiet _ _ _ Hx) as [Hp Hk].
  eapply run_asks; [apply Hp|intros; apply Hk|exact Hnext|exact Hc].
Qed.

(** The types a query of a type may lead to: an address may be looked for in the
    other family. *)
Definition related (t t' : RecordType) : Prop := t' = t ∨ (is_ip_addr t = true ∧ is_ip_addr t' = true).
(** A request for one of the names, and whose message is for one of them. *)
Definition about (names : list Name) (t : RecordType) req : Prop :=
  q_name (req_query req) ∈ names ∧ related t (q_type (req_query req)) ∧
  ∀ q, head (msg_queries (req_message req)) = Some q → q_name q ∈ names.
Definition asked_for (names : list Name) (t : RecordType) (a : Asked) : Prop :=
  asked_name a ∈ names ∧ related t (lo_record_type (asked_options a)).

Lemma related_trans t t' t'' : related t t' → related t' t'' → related t t''.
Proof. unfold related. naive_solver congruence. Qed.

Lemma about_set_type names t req t' : about names t req → related (q_type (req_query req)) t' → about names t (set_query_type req t').
Proof. intros (H1 & H2 & H3) Ht. split; [done|]. split; [|done]. by eapply related_trans. Qed.

(** The request of DNS64 for IPv4 addresses. *)
Abbreviation a_request req :=
  (req_new (msg_set_queries (set_first_query TYPE_A (msg_queries (req_message req))) (req_message req)) (req_src req) (req_protocol req)).

Lemma about_a_request names t req :
  about names t req → q_type (req_query req) = TYPE_AAAA → msg_queries (req_message req) ≠ [] →
  about names t (a_request req) ∧ q_type (req_query (a_request req)) = TYPE_A.
Proof.
  intros (H1 & H2 & H3) Ht Hne. destruct (msg_queries (req_message req)) as [|q qs] eqn:Eq; [done|]. split; [|done].
  specialize (H3 q eq_refl). unfold about. cbn. split; [done|]. split; [|by intros q' [= <-]].
  eapply related_trans; [exact H2|]. right. by rewrite Ht.
Qed.

(** How many lookups a chain makes for a query of a type: for an address, the name
    servers may be asked again in the group of a recheck. *)
Fixpoint questions_of (chain : list MwKind) (t : RecordType) : nat :=
  match chain with
  | [] => 0
  | MwNameServer :: _ => if is_ip_addr t then 2 else 1
  | MwDns64 _ :: rest => if t =? TYPE_AAAA then questions_of rest t + questions_of rest TYPE_A else questions_of rest t
  | MwDualStack :: rest => if is_ip_addr t then questions_of rest t + questions_of rest (that_type t) else questions_of rest t
  | _ :: rest => questions_of rest t
  end.

Abbreviation run := (next_run default_over).

(** The rules of a local zone answer, pass, or filter what the rest answers. *)
Lemma rule_lookup_cases now ctx req :
  rule_lookup now ctx req = Return (ctx, Ok None) ∨ (∃ r, rule_lookup now ctx req = Return (ctx, Ok (Some r))) ∨
  ∃ f, rule_lookup now ctx req = NextRun ctx req (fun (ctx : Ctx) res =>
         match res with Err e => Return (ctx, Err e) | Ok r => Return (ctx, Ok (Some (f r))) end).
Proof. unfold rule_lookup. repeat case_match; eauto. Qed.

(** A local zone answers, or hands the query on once as it is, and of an answer keeps
    an answer. *)
Definition passes_answer (w : Ctx) req (r : Handling Name Ctx (Ctx * Res)) : Prop :=
  (∃ w' a, r = Return (w', Ok a)) ∨
  ∃ k, r = NextRun w req k ∧ ∀ w' res, ∃ out, k w' res = Return out ∧ (is_ok res = true → is_ok out.2 = true).

Lemma zone_run_cases server_name binds version json_text lookup_mac local_route now interfaces ctx req :
  passes_answer ctx req (zone_run server_name binds version json_text lookup_mac local_route now interfaces ctx req).
Proof.
  unfold zone_run. destruct (ddr_lookup _ _ _ _ _ _) as [r|]; [left; by eexists _, _|].
  assert (∃ o, manager_lookup [local_ptr_lookup server_name now (local_ptr_new interfaces);
                       identity_lookup server_name version json_text lookup_mac now] ctx req = Ok o) as [o ->].
  { cbn. unfold local_ptr_lookup, identity_lookup. repeat case_match; simplify_eq; by eexists. }
  destruct o as [r|]; [left; by eexists _, _|].
  destruct (rule_lookup_cases now ctx req) as [->|[[r ->]|[f ->]]]; cbn [run_then].
  - right. eexists. split; [reflexivity|]. intros w' res. eexists. split; [reflexivity|done].
  - left. by eexists _, _.
  - right. eexists. split; [reflexivity|]. intros w' [r|e]; (eexists; split; [reflexivity|done]).
Qed.

(** So does a handler that ends with [pass_on]. *)
Ltac one_run := split; [done|exists 0%nat; split; [cbn; lia|]].

Lemma passes_within ok cost n (w : Ctx) req r : passes_answer w req r → ok req → (cost req ≤ n)%nat → calls_within ok cost n r.
Proof.
  intros [(w' & a & ->)|(k & -> & Hk)] Ho Hc; [done|]. split; [done|]. exists 0%nat. split; [lia|]. intros w' res.
  by destruct (Hk w' res) as (out & -> & _).
Qed.

(** The other lookup of dual-stack selection is for the other type. *)
Lemma dualstack_within names t chain now ctx req :
  about names t req →
  calls_within (about names t) (fun req => questions_of chain (q_type (req_query req)))
    (questions_of (MwDualStack :: chain) (q_type (req_query req))) (dualstack_run probe now ctx req).
Proof.
  intros Hab. cbn [questions_of].
  assert (Hpass : calls_within (about names t) (fun req => questions_of chain (q_type (req_query req)))
    (if is_ip_addr (q_type (req_query req)) then questions_of chain (q_type (req_query req)) + questions_of chain (that_type (q_type (req_query req)))
     else questions_of chain (q_type (req_query req)))%nat (passes now ctx req)).
  { split; [done|]. exists 0%nat. split; [destruct (is_ip_addr _); lia|]. by intros [t' ctx'] res. }
  unfold dualstack_run. destruct (no_dualstack_selection _); [done|]. destruct (is_ip_addr _) eqn:Hip; cbn [negb]; [|done].
  assert (Hthat : about names t (set_query_type req (that_type (q_type (req_query req))))).
  { apply about_set_type; [done|]. right. split; [done|]. unfold is_ip_addr, that_type in *.
    destruct (q_type _ =? TYPE_A); [done|]. cbn [orb] in Hip. by rewrite Hip. }
  destruct (dualstack_ip_prefer_ipv4 _).
  - destruct (q_type (req_query req) =? TYPE_A) eqn:EA; [done|].
    assert (Ht : that_type (q_type (req_query req)) = TYPE_A).
    { unfold is_ip_addr, that_type in *. rewrite EA in *. cbn [orb] in Hip. by rewrite Hip. }
    rewrite Ht in Hthat. rewrite Ht. split; [done|]. exists (questions_of chain TYPE_A). split; [lia|].
    intros [t6 ctx6] res6. split; [done|]. exists 0%nat. split; [cbn; lia|]. by intros [t4 ctx4] res4.
  - destruct (no_speed_check _); [done|]. destruct (_ && negb _); [done|]. destruct (negb (dualstack_selection _)); [done|].
    destruct (ds_modes ctx) as [modes|]; [|done]. split; [done|]. eexists. split; [reflexivity|].
    intros [t1 ctx1] res1. split; [done|]. exists 0%nat. split; [cbn; lia|]. by intros [t2 ctx2] res2.
Qed.

Lemma dualstack_first now ctx req : first_call (dualstack_run probe now ctx req) = Some ((now, ctx), req).
Proof. unfold dualstack_run. by repeat case_match. Qed.

Lemma dns64_within names t chain net ctx req :
  about names t req →
  calls_within (about names t) (fun req => questions_of chain (q_type (req_query req)))
    (questions_of (MwDns64 net :: chain) (q_type (req_query req))) (dns64_run net ctx req).
Proof.
  intros Hab. cbn [questions_of]. unfold dns64_run. destruct (Z.eqb_spec (q_type (req_query req)) TYPE_AAAA) as [Ht|Ht].
  2: { by apply pass_within. }
  split; [done|]. exists (questions_of chain TYPE_A). split; [lia|]. intros ctx1 [r|e]; [done|]. cbn zeta.
  destruct (msg_queries (req_message req)) as [|q qs] eqn:Eq; [done|]. destruct (about_a_request names t req Hab Ht ltac:(by rewrite Eq)) as [Ha Hta].
  rewrite Eq in Ha, Hta. split; [exact Ha|]. exists 0%nat. split; [rewrite Hta; lia|]. by intros ctx2 [lookup|e2].
Qed.

Lemma ns_asks names t p req next :
  about names t req →
  asked_within (asked_for names t) (if is_ip_addr (q_type (req_query req)) then 2 else 1) p (ns_middleware p req next).1.
Proof.
  intros (Hn & Ht & _). pose proof (NameServerSpec.ns_handle_asks probe (su_iter env) (su_client env) (pw_permits p) (pw_now p) (pw_ctx p) req) as Ha.
  unfold ns_middleware. destruct (ns_handle _ _ _ _ _ _ _) as [[[out ctx] permits] asked]. cbn [snd] in Ha.
  assert (Forall (asked_for names t) asked ∧ (length asked ≤ if is_ip_addr (q_type (req_query req)) then 2 else 1)%nat) as [Hf Hl].
  { unfold NameServerSpec.asked_first in Ha. destruct (_ && is_some _); [subst; split; [constructor|cbn; lia]|].
    destruct (if no_rule_nameserver _ then _ else _) as [group|]; cbn [fmap option_fmap option_map] in Ha;
      [|subst; split; [constructor|cbn; lia]].
    destruct Ha as (more & -> & Hm). destruct Hm as [->|(-> & rk & _ & ->)].
    - split; [by apply Forall_singleton|]. cbn. destruct (is_ip_addr _); lia.
    - split; [by apply Forall_cons_2; [|apply Forall_singleton]|done]. }
  destruct out; cbn [fst]; unfold asked_within; cbn [pw_asked]; by exists asked.
Qed.

(** A chain without CNAME rules asks for the names of the request. *)
Lemma asks_about chain names t p req :
  MwCName ∉ chain → about names t req →
  asked_within (asked_for names t) (questions_of chain (q_type (req_query req))) p (run (mw_of_kind <$> chain) p req).1.
Proof.
  revert p req. induction chain as [|k chain IH]; intros p req Hno Hab; cbn [fmap list_fmap next_run].
  { unfold default_over. destruct (default_handler _ _). by apply asked_none. }
  apply not_elem_of_cons in Hno as [Hk Hno].
  assert (IH' : ∀ p req, about names t req →
    asked_within (asked_for names t) (questions_of chain (q_type (req_query req))) p (run (mw_of_kind <$> chain) p req).1) by auto.
  destruct (part_of_kind k (pw_now p)) as [x|] eqn:Ex.
  2: { unfold mw_of_kind at 1. rewrite Ex. destruct k; cbn [part_of_kind] in Ex;
         try (destruct (su_odhcpd env _ _)); try (destruct (su_hosts env _)); try done. by apply ns_asks. }
  apply (part_asks k x p req _ (about names t) (fun req => questions_of chain (q_type (req_query req)))); [done|exact IH'|].
  destruct k; cbn [part_of_kind] in Ex; try (destruct (su_odhcpd env _ _)); try (destruct (su_hosts env _)); try done;
    injection Ex as <-; cbn [mk_part pt_run pt_get].
  - one_run. intros [ctx sent] []; done.
  - one_run. intros [t' ctx] res. cbn. by destruct (negb _ && _).
  - by apply dns64_within.
  - unfold address_run. destruct (handle_rule_addr _ _); [done|]. one_run. done.
  - unfold dnsmasq_run, get_leases. destruct (if _ =? TYPE_PTR then _ else _) as [s1 [d|]]; [done|].
    destruct (lease_lookup _ _ _ _ _ _ _ _) as [s2 [d|]]; [done|]. by apply pass_within.
  - by eapply passes_within; [apply zone_run_cases|..].
  - unfold odhcpd_run, get_odhcpd. cbn zeta. case_match; [by apply pass_within|done].
  - unfold hosts_run, get_hosts. cbn zeta. destruct (_ || _); [|by apply pass_within].
    destruct (cached_hosts _ _ _ _) as [c hosts]. destruct (opt_or _ _) as [[]|]; [done|by apply pass_within].
  - unfold cache_run, get_cache. cbn [fst snd]. cbn zeta. destruct (skips_cache _ _); [by one_run|].
    destruct (if so_is_background _ then _ else _) as [cached c]. destruct (serves _ _) as [[r []]|]; [done..|]. one_run.
    intros [t' [ctx' c']] res. by destruct (store_result _ _ _ _ _ _) as [[c2 r2] more].
  - by apply dualstack_within.
  - one_run. intros ctx [r|e]; [|done]. by destruct (_ && _).
Qed.

(** A handler of one call asks what that call asks. *)
Definition one_call (x : Part) (r : Handling Name (pt_state x) (pt_out x)) (w : pt_state x) req : Prop :=
  ∃ k, r = NextRun w req k ∧ ∀ w' res, ∃ out, k w' res = Return out.

Lemma part_asks_once k x p req next S n w req1 :
  part_of_kind k (pw_now p) = Some x → one_call x (pt_run x (pt_get x p) req) w req1 →
  asked_within S n (pt_put x w p) (next (pt_put x w p) req1).1 → asked_within S n p (mw_of_kind k p req next).1.
Proof.
  intros Hx (k' & Hr & Hk) Hnext. unfold mw_of_kind. rewrite Hx, Hr. destruct (parts_quiet _ _ _ Hx) as [Hp Hq]. cbn [run_over].
  destruct (next (pt_put x w p) req1) as [p1 r1]. cbn [fst] in Hnext. unfold asked_within in *. rewrite (proj1 (Hp w p)) in Hnext.
  destruct (of_reply r1) as [res|]; [|done]. destruct (Hk (pt_get x p1) res) as [out ->]. cbn. by rewrite (proj1 (Hq out p1)).
Qed.

(** The observers in front of the CNAME rules hand the request on as it is. *)
Lemma asks_behind k chain S n p req :
  k = MwNftset ∨ k = MwAudit →
  (∀ p', pw_ctx p' = pw_ctx p → asked_within S n p' (run (mw_of_kind <$> chain) p' req).1) →
  asked_within S n p (run (mw_of_kind <$> k :: chain) p req).1.
Proof.
  intros Hk Hrest. cbn [fmap list_fmap next_run].
  destruct Hk as [-> | ->].
  - eapply part_asks_once; [reflexivity|eexists; split; [reflexivity|]; intros [ctx sent] [r|e]; by eexists|by apply Hrest].
  - eapply part_asks_once; [reflexivity|eexists; split; [reflexivity|]; intros [t ctx] res|by apply Hrest].
    cbn. destruct (negb _ && _); by eexists.
Qed.

(** The names a request is for, and those of the CNAME rule of its name. *)
Definition message_name req : list Name := option_list (q_name <$> head (msg_queries (req_message req))).
Definition target_name ctx : list Name := option_list (absolute <$> cname_target ctx).

(** What a CNAME rule looks up. *)
Lemma cname_run_cases now ctx req :
  match cname_target ctx with
  | None => cname_run hash wm now ctx req = pass_on ctx req
  | Some n =>
      if q_type (req_query req) =? TYPE_CNAME
      then ∃ r, cname_run hash wm now ctx req = Return (ctx, Ok r)
      else ∃ k, cname_run hash wm now ctx req =
             NextRun (ctx_new hash wm (absolute n) (ctx_cfg ctx) (ctx_server_opts ctx)) (with_cname req (absolute n)) k ∧
             ∀ w res, ∃ out, k w res = Return out ∧ (is_ok res = true → is_ok out.2 = true)
  end.
Proof.
  unfold cname_run. destruct (cname_target ctx) as [n|]; [|done]. cbn zeta.
  replace (if negb (name_is_fqdn n) then name_set_fqdn true n else n) with (absolute n) by (unfold absolute; by destruct (name_is_fqdn n)).
  destruct (_ =? TYPE_CNAME); [by eexists|]. eexists. split; [reflexivity|].
  intros w [r|e]; (eexists; split; [reflexivity|done]).
Qed.

Lemma asks_target chain p req :
  MwCName ∉ chain →
  let t := q_type (req_query req) in
  asked_within (asked_for (q_name (req_query req) :: target_name (pw_ctx p) ++ message_name req) t) (questions_of chain t) p
    (run (mw_of_kind <$> MwCName :: chain) p req).1.
Proof.
  intros Hno t. cbn [fmap list_fmap next_run].
  assert (Hm : ∀ q l, head (msg_queries (req_message req)) = Some q → q_name q ∈ l ++ message_name req).
  { intros q l E. unfold message_name. rewrite E. apply elem_of_app. right. by left. }
  pose proof (cname_run_cases (pw_now p) (pw_ctx p) req) as Hc. unfold target_name.
  destruct (cname_target (pw_ctx p)) as [n|].
  - destruct (q_type (req_query req) =? TYPE_CNAME).
    { destruct Hc as [r Hc]. unfold mw_of_kind at 1. cbn [part_of_kind mk_part pt_get pt_run]. rewrite Hc. by apply asked_none. }
    destruct Hc as (k & Hc & Hk).
    eapply part_asks_once; [reflexivity| |].
    + eexists. split; [exact Hc|]. intros w res. destruct (Hk w res) as (out & -> & _). by eexists.
    + apply asks_about; [done|]. cbn. split; [right; by left|]. split; [by left|]. intros q E. right. by apply (Hm q [absolute n]).
  - eapply part_asks_once; [reflexivity| |].
    + eexists. split; [exact Hc|]. intros w res. by eexists.
    + apply asks_about; [done|]. split; [by left|]. split; [by left|]. intros q E. right. by apply (Hm q []).
Qed.

Lemma asks_plain chain p req l :
  MwCName ∉ chain →
  let t := q_type (req_query req) in
  asked_within (asked_for (q_name (req_query req) :: l ++ message_name req) t) (questions_of chain t) p (run (mw_of_kind <$> chain) p req).1.
Proof.
  intros Hno t. apply asks_about; [done|]. split; [|split]; [by left|by left|].
  intros q E. right. apply elem_of_app. right. unfold message_name. rewrite E. by left.
Qed.

(** The chains that a configuration calls for. *)
Section Built.
Context {Level Pattern : Type} (is_file : PathBuf → bool) (c : LoadedConfig Name Level Pattern RM).
Abbreviation built := (build_middleware is_file c).

(** What follows the CNAME rules. *)
Definition after_cname : list MwKind :=
  let cfg := ld_config c in
  when_some (c_dns64_prefix (cf_inner cfg)) MwDns64
  ++ [MwAddress]
  ++ when_some (opt_filter is_file (cf_dnsmasq_lease_file cfg)) MwDnsmasq
  ++ [MwZone]
  ++ when_some (cf_odhcpd_lease_file cfg) MwOdhcpd
  ++ when (resolv_hostname cfg) MwHosts
  ++ when (0 <? cache_size (ld_runtime c)) MwCache
  ++ when (dualstack_is_configured c) MwDualStack
  ++ when (negb (im_is_empty (rc_bogus_nxdomain (ld_runtime c)))) MwBogus
  ++ [MwNameServer].

Lemma not_in_when (k : MwKind) b m : k ≠ m → k ∉ when b m.
Proof. intros Hk. unfold when. destruct b; [|apply not_elem_of_nil]. by intros ?%list_elem_of_singleton. Qed.
Lemma not_in_when_some {A} (k : MwKind) (o : option A) f : (∀ a, k ≠ f a) → k ∉ when_some o f.
Proof. intros Hk. unfold when_some. destruct o; [|apply not_elem_of_nil]. by intros ?%list_elem_of_singleton%Hk. Qed.

Lemma after_no_cname : MwCName ∉ after_cname.
Proof.
  unfold after_cname. cbn zeta. rewrite !not_elem_of_app.
  repeat (split || apply not_in_when || apply not_in_when_some || (by intros ?%list_elem_of_singleton) || done).
Qed.

Lemma questions_when k b l t : (∀ l, questions_of (k :: l) t = questions_of l t) → questions_of (when b k ++ l) t = questions_of l t.
Proof. intros Hk. by destruct b; [apply Hk|]. Qed.
Lemma questions_when_some {A} (f : A → MwKind) o l t : (∀ a l, questions_of (f a :: l) t = questions_of l t) → questions_of (when_some o f ++ l) t = questions_of l t.
Proof. intros Hk. by destruct o; [apply Hk|]. Qed.

(** Eight lookups at most for an IPv6 address, four for an IPv4 one, else one. *)
Definition most_questions (t : RecordType) : nat := if t =? TYPE_AAAA then 8 else if t =? TYPE_A then 4 else 1.

Lemma after_questions t : (questions_of after_cname t ≤ most_questions t)%nat.
Proof.
  set (tail := when (dualstack_is_configured c) MwDualStack ++ when (negb (im_is_empty (rc_bogus_nxdomain (ld_runtime c)))) MwBogus ++ [MwNameServer]).
  assert (Htail : ∀ t, (questions_of tail t ≤ if is_ip_addr t then 4 else 1)%nat).
  { intros t'. unfold tail.
    assert (Hb : ∀ t, questions_of (when (negb (im_is_empty (rc_bogus_nxdomain (ld_runtime c)))) MwBogus ++ [MwNameServer]) t = if is_ip_addr t then 2%nat else 1%nat)
      by (intros; by rewrite questions_when).
    assert (Ht : ((if is_ip_addr (that_type t') then 2 else 1) ≤ 2)%nat) by (destruct (is_ip_addr (that_type t')); lia).
    unfold when at 1. destruct (dualstack_is_configured c); cbn [app questions_of]; rewrite ?Hb; by destruct (is_ip_addr t'); cbn; lia. }
  assert (Hrest : ∀ t, questions_of ([MwAddress] ++ when_some (opt_filter is_file (cf_dnsmasq_lease_file (ld_config c))) MwDnsmasq
    ++ [MwZone] ++ when_some (cf_odhcpd_lease_file (ld_config c)) MwOdhcpd ++ when (resolv_hostname (ld_config c)) MwHosts
    ++ when (0 <? cache_size (ld_runtime c)) MwCache ++ tail) t = questions_of tail t).
  { intros t'. cbn [app questions_of]. rewrite questions_when_some by done. cbn [app questions_of].
    by rewrite questions_when_some, !questions_when. }
  unfold after_cname, most_questions. cbn zeta. fold tail.
  destruct (c_dns64_prefix _) as [net|]; cbn [when_some app questions_of] in *.
  - rewrite !Hrest. pose proof (Htail t) as Ht. pose proof (Htail TYPE_A) as HA. revert Ht HA. unfold is_ip_addr.
    destruct (Z.eqb_spec t TYPE_AAAA) as [->|]; cbn; [lia|]. rewrite orb_false_r. by destruct (t =? TYPE_A); lia.
  - rewrite Hrest. pose proof (Htail t) as Ht. revert Ht. unfold is_ip_addr.
    destruct (Z.eqb_spec t TYPE_AAAA) as [->|]; cbn; [lia|]. rewrite orb_false_r. by destruct (t =? TYPE_A); lia.
Qed.

(** C37: whatever the configuration, every lookup that answering a query makes in a
    group of name servers is for the name of the query, for the target of a CNAME
    rule or for the name in the message of the query, and of its type, or of the
    other type of addresses for an address; and they are at most eight for an IPv6
    address (DNS64, the other family, and a recheck of each), four for an IPv4
    address and one for another type. *)
Theorem what_is_asked p req :
  let t := q_type (req_query req) in
  asked_within (asked_for (q_name (req_query req) :: target_name (pw_ctx p) ++ message_name req) t) (most_questions t) p
    (pipeline built p req).1.
Proof.
  intros t. apply (asks_weaken _ (questions_of after_cname t)); [apply after_questions|]. unfold pipeline, build_middleware. cbn zeta.
  assert (Hrest : ∀ p', pw_ctx p' = pw_ctx p → asked_within (asked_for (q_name (req_query req) :: target_name (pw_ctx p) ++ message_name req) t)
    (questions_of after_cname t) p'
    (run (mw_of_kind <$> when (any_group (fun g => negb (bool_decide (length (rg_cnames g) = 0%nat))) c) MwCName ++ after_cname) p' req).1).
  { intros p' <-. unfold when at 1. destruct (any_group _ c); [apply asks_target, after_no_cname|apply asks_plain, after_no_cname]. }
  unfold after_cname in Hrest. cbn zeta in Hrest. revert Hrest. generalize (asked_for (q_name (req_query req) :: target_name (pw_ctx p) ++ message_name req) t).
  intros S Hrest. unfold when at 1. destruct (nftset_is_configured c); cbn [app].
  - apply asks_behind; [by left|]. intros p' Hp'. unfold when at 1. destruct (audit_enable _); cbn [app].
    + apply asks_behind; [by right|]. intros p2 Hp2. apply Hrest. congruence.
    + by apply Hrest.
  - unfold when at 1. destruct (audit_enable _); cbn [app]; [|by apply Hrest]. apply asks_behind; [by right|]. intros p2 Hp2. by apply Hrest.
Qed.
End Built.

(** *** Answers of this server *)
(** The state and the request with which the name servers are reached first, unless
    a middleware answers. *)
Fixpoint reaches (chain : list MwKind) p req : option (World * Req) :=
  match chain with
  | [] => Some (p, req)
  | k :: rest =>
      match part_of_kind k (pw_now p) with
      | None => Some (p, req)
      | Some x =>
          '(w1, req1) ← first_call (pt_run x (pt_get x p) req);
          reaches rest (pt_put x w1 p) req1
      end
  end.

(** A middleware that answers does so without an error, and one that gets an answer
    keeps it one, without another call. *)
Definition keeps_answers (x : Part) (r : Handling Name (pt_state x) (pt_out x)) : Prop :=
  match r with
  | Return out => is_ok (pt_res x out) = true
  | NextRun _ _ k => ∀ w a, ∃ out, k w (Ok a) = Return out ∧ is_ok (pt_res x out) = true
  end.

Lemma pass_keeps {W} get put run (w : W) req : keeps_answers (mk_part get put run) (pass_on w req).
Proof. intros w' a. by eexists. Qed.

Lemma passes_keeps put run w req r : passes_answer w req r → keeps_answers (mk_part pw_ctx put run) r.
Proof.
  intros [(w' & a & ->)|(k & -> & Hk)]; [done|]. intros w' a. destruct (Hk w' (Ok a)) as (out & -> & Ho). exists out.
  split; [done|]. by apply Ho.
Qed.

Lemma store_keeps ctx c req r check t2 : ∃ r', (store_result ctx c req (Ok r) check t2).1.2 = Ok r'.
Proof. unfold store_result. repeat case_match; simplify_eq/=; by eexists. Qed.

Lemma keepers_keep k now x w req : k ≠ MwDualStack → k ≠ MwBogus → part_of_kind k now = Some x → keeps_answers x (pt_run x w req).
Proof.
  intros H1 H2. destruct k; cbn [part_of_kind]; try done; try (destruct (su_odhcpd env _ _)); try (destruct (su_hosts env _)); intros [= <-];
    cbn [mk_part pt_run pt_state pt_out] in *.
  - intros [ctx sent] a. by eexists.
  - intros [t ctx] a. cbn. destruct (negb _ && _); by eexists.
  - pose proof (cname_run_cases now w req) as Hc. destruct (cname_target w) as [n|]; [|rewrite Hc; apply pass_keeps].
    destruct (_ =? TYPE_CNAME); [by destruct Hc as [r ->]|]. destruct Hc as (k & -> & Hk). intros w' a.
    destruct (Hk w' (Ok a)) as (out & -> & Ho). exists out. split; [done|]. by apply Ho.
  - unfold dns64_run. destruct (_ =? _); [|apply pass_keeps]. intros ctx a. by eexists.
  - unfold address_run. destruct (handle_rule_addr _ _); [done|]. intros ctx a. by eexists.
  - destruct w as [ctx s]. unfold dnsmasq_run. destruct (if _ =? TYPE_PTR then _ else _) as [s1 [d|]]; [done|].
    destruct (lease_lookup _ _ _ _ _ _ _ _) as [s2 [d|]]; [done|apply pass_keeps].
  - eapply passes_keeps, zone_run_cases.
  - destruct w as [ctx c]. unfold odhcpd_run. cbn zeta. case_match; [apply pass_keeps|done].
  - destruct w as [ctx cache]. unfold hosts_run. cbn zeta. destruct (_ || _); [|apply pass_keeps].
    destruct (cached_hosts _ _ _ _) as [c hosts]. destruct (opt_or _ _) as [[]|]; [done|apply pass_keeps].
  - destruct w as [t [ctx c]]. unfold cache_run. cbn [fst snd]. cbn zeta. destruct (skips_cache _ _); [intros w' a; by eexists|].
    destruct (if so_is_background _ then _ else _) as [cached c1]. destruct (serves _ _) as [[r []]|]; [done..|].
    intros [t' [ctx' c']] a. destruct (store_keeps (ctx_set_pending None ctx') c' req a (ctx_pending_speed_check ctx') t') as [r' Hs].
    destruct (store_result _ _ _ _ _ _) as [[c2 res] more]. cbn in Hs. subst res. by eexists.
Qed.

(** A chain never takes a question back. *)
Abbreviation grows := (fun p p' : World => pw_asked p `prefix_of` pw_asked p').
#[local] Instance grows_refl : Reflexive grows.
Proof. intros p. done. Qed.
#[local] Instance grows_trans : Transitive grows.
Proof. intros p p1 p2 H1 H2. by etrans. Qed.

Lemma part_grows k now x ends next (r : Handling Name (pt_state x) (pt_out x)) p :
  part_of_kind k now = Some x → (∀ a p, pw_asked (ends a p).1 = pw_asked p) → (∀ p req, grows p (next p req).1) →
  grows p (run_over (pt_get x) (pt_put x) ends next p r).1.
Proof.
  intros Hx Hends Hnext. destruct (parts_quiet _ _ _ Hx) as [Hp _]. apply (run_over_inv _ _ grows); try apply _.
  - intros w q. by rewrite (proj1 (Hp w q)).
  - intros a q. by rewrite Hends.
  - done.
Qed.

Lemma asked_grows chain p req : grows p (run (mw_of_kind <$> chain) p req).1.
Proof.
  revert p req. induction chain as [|k chain IH]; intros p req; cbn [fmap list_fmap next_run].
  { unfold default_over. by destruct (default_handler _ _). }
  unfold mw_of_kind at 1. destruct (part_of_kind k (pw_now p)) as [x|] eqn:Ex.
  - eapply part_grows; [exact Ex| |exact IH]. intros a q. apply (parts_quiet _ _ _ Ex).
  - unfold ns_middleware. destruct (ns_handle _ _ _ _ _ _ _) as [[[out ctx] permits] asked].
    destruct out; cbn [fst pw_asked]; by eexists.
Qed.

(** When the name servers are reached, the first lookup made is theirs. *)
Lemma reached_asks chain p req p' req' a :
  MwNameServer ∈ chain → reaches chain p req = Some (p', req') →
  NameServerSpec.asked_first (su_client env) (pw_now p') (pw_ctx p') req' = Some a →
  (pw_asked p ++ [a]) `prefix_of` pw_asked (run (mw_of_kind <$> chain) p req).1.
Proof.
  revert p req. induction chain as [|k chain IH]; intros p req Hin Hr Hk; [by apply not_elem_of_nil in Hin|].
  cbn [reaches fmap list_fmap next_run] in *. unfold mw_of_kind at 1. destruct (part_of_kind k (pw_now p)) as [x|] eqn:Ex.
  - apply elem_of_cons in Hin as [<-|Hin]; [done|]. pose proof (parts_quiet _ _ _ Ex) as [Hp Hq].
    destruct (pt_run x (pt_get x p) req) as [out|w1 req1 k']; [done|]. cbn in Hr. cbn [run_over].
    specialize (IH _ _ Hin Hr Hk). rewrite (proj1 (Hp _ _)) in IH. destruct (run _ _ req1) as [p1 r1]. cbn [fst] in IH.
    destruct (of_reply r1) as [res|]; [|done]. etrans; [exact IH|]. eapply part_grows; [exact Ex| |apply asked_grows].
    intros b q. apply Hq.
  - injection Hr as <- <-. unfold ns_middleware.
    pose proof (NameServerSpec.ns_handle_asks probe (su_iter env) (su_client env) (pw_permits p) (pw_now p) (pw_ctx p) req) as Ha.
    destruct (ns_handle _ _ _ _ _ _ _) as [[[out ctx] permits] asked]. cbn [snd] in Ha. rewrite Hk in Ha.
    destruct Ha as (more & -> & _).
    destruct out; cbn [fst pw_asked]; exists more; by rewrite <- app_assoc.
Qed.

(** An answer of this server comes through the middlewares that keep answers. *)
Lemma stays pre post p req :
  Forall (fun k => k ≠ MwDualStack ∧ k ≠ MwBogus) pre → (∀ p req, reaches post p req ≠ None) → reaches (pre ++ post) p req = None →
  let out := run (mw_of_kind <$> pre ++ post) p req in
  (∃ r, out.2 = Ok r) ∧ pw_asked out.1 = pw_asked p ∧ pw_permits out.1 = pw_permits p.
Proof.
  revert p req. induction pre as [|k pre IH]; intros p req Hpre Hpost Hr; [by apply Hpost in Hr|].
  apply Forall_cons in Hpre as [[Hk1 Hk2] Hpre]. cbn [app reaches fmap list_fmap next_run] in *.
  destruct (part_of_kind k (pw_now p)) as [x|] eqn:Ex; [|done].
  assert (mw_of_kind k p req (run (mw_of_kind <$> pre ++ post)) =
    run_over (pt_get x) (pt_put x) (part_ends x) (run (mw_of_kind <$> pre ++ post)) p (pt_run x (pt_get x p) req)) as ->
    by (unfold mw_of_kind at 1; by rewrite Ex).
  pose proof (parts_quiet _ _ _ Ex) as [Hp Hq]. pose proof (keepers_keep _ _ _ (pt_get x p) req Hk1 Hk2 Ex) as Hkeep.
  assert (Hend : ∀ out q, is_ok (pt_res x out) = true → ∃ r, (part_ends x out q).2 = Ok r).
  { intros out q. unfold part_ends. cbn. destruct (pt_res x out); [by eexists|done]. }
  destruct (pt_run x (pt_get x p) req) as [out|w1 req1 k']; cbn [run_over keeps_answers] in *.
  { split; [by apply Hend|]. split; apply Hq. }
  specialize (IH (pt_put x w1 p) req1 Hpre Hpost Hr). destruct (run _ _ req1) as [p1 r1]. cbn in IH.
  destruct IH as ([r ->] & Ha & Hpm). cbn [of_reply]. destruct (Hkeep (pt_get x p1) r) as (out & -> & Ho). cbn [run_over].
  split; [by apply Hend|]. unfold part_ends. cbn [fst]. destruct (Hq out p1) as [-> ->]. rewrite Ha, Hpm. split; apply Hp.
Qed.

(** *** The chains of configurations *)
Section Answers.
Context {Level Pattern : Type} (is_file : PathBuf → bool) (c : LoadedConfig Name Level Pattern RM).
Abbreviation built := (build_middleware is_file c).

(** The middlewares up to dual-stack selection, and the others. *)
Definition built_front : list MwKind :=
  let cfg := ld_config c in
  when (nftset_is_configured c) MwNftset
  ++ when (audit_enable cfg) MwAudit
  ++ when (any_group (fun g => negb (bool_decide (length (rg_cnames g) = 0%nat))) c) MwCName
  ++ when_some (c_dns64_prefix (cf_inner cfg)) MwDns64
  ++ [MwAddress]
  ++ when_some (opt_filter is_file (cf_dnsmasq_lease_file cfg)) MwDnsmasq
  ++ [MwZone]
  ++ when_some (cf_odhcpd_lease_file cfg) MwOdhcpd
  ++ when (resolv_hostname cfg) MwHosts
  ++ when (0 <? cache_size (ld_runtime c)) MwCache.
Definition built_back : list MwKind :=
  when (dualstack_is_configured c) MwDualStack
  ++ when (negb (im_is_empty (rc_bogus_nxdomain (ld_runtime c)))) MwBogus
  ++ [MwNameServer].

Lemma built_split : built = built_front ++ built_back.
Proof. unfold build_middleware, built_front, built_back. cbn zeta. by rewrite <- !app_assoc. Qed.

Lemma Forall_when (P : MwKind → Prop) b m : P m → Forall P (when b m).
Proof. intros Hm. by destruct b; repeat constructor. Qed.
Lemma Forall_when_some {A} (P : MwKind → Prop) (o : option A) f : (∀ a, P (f a)) → Forall P (when_some o f).
Proof. intros Hm. by destruct o; repeat constructor. Qed.

Lemma front_keeps : Forall (fun k => k ≠ MwDualStack ∧ k ≠ MwBogus) built_front.
Proof.
  unfold built_front. cbn zeta. rewrite !Forall_app.
  repeat (split || apply Forall_when || apply Forall_when_some || (by constructor) || done).
Qed.

Lemma back_reaches p req : reaches built_back p req ≠ None.
Proof.
  unfold built_back, when. destruct (dualstack_is_configured c); cbn [app reaches part_of_kind pt_run pt_get];
    [unfold get_timed; cbn [fst snd]; rewrite dualstack_first; cbn|]; by destruct (negb (im_is_empty _)).
Qed.

(** C38: a query that a middleware of this server answers on the way to the name
    servers gets an answer and no error, no lookup is made in a group of name servers
    for it and no permit is taken; for any other query, the lookup with which they
    are reached is the first that is made: in the group that the options or the rules
    choose, for the query as it then is, unless it is for the address of one of the
    servers, which is known, or there is no such group. *)
Theorem answers_stay p req :
  let out := pipeline built p req in
  match reaches built p req with
  | None => (∃ r, out.2 = Ok r) ∧ pw_asked out.1 = pw_asked p ∧ pw_permits out.1 = pw_permits p
  | Some (p', req') =>
      ∀ a, NameServerSpec.asked_first (su_client env) (pw_now p') (pw_ctx p') req' = Some a →
        (pw_asked p ++ [a]) `prefix_of` pw_asked out.1
  end.
Proof.
  intros out. subst out. unfold pipeline. destruct (reaches built p req) as [[p' req']|] eqn:E.
  - intros a Ha. apply (reached_asks _ _ _ p' req'); [|done..].
    rewrite built_split. unfold built_back. rewrite !elem_of_app. do 3 right. by left.
  - revert E. rewrite built_split. apply stays; [apply front_keeps|intros; apply back_reaches].
Qed.

(** *** Names that are not renamed *)
(** A middleware hands a query without a CNAME target on as it is, in the same
    context and at the same time; and only the cache touches the cache. *)
Lemma hands_on k now x p req w1 req1 :
  part_of_kind k now = Some x → cname_target (pw_ctx p) = None → first_call (pt_run x (pt_get x p) req) = Some (w1, req1) →
  req1 = req ∧ pw_ctx (pt_put x w1 p) = pw_ctx p ∧ pw_now (pt_put x w1 p) = pw_now p ∧
  (k ≠ MwCache → pw_cache (pt_put x w1 p) = pw_cache p).
Proof.
  destruct k; cbn [part_of_kind]; try (destruct (su_odhcpd env _ _)); try (destruct (su_hosts env _)); try done; intros [= <-] Hn;
    cbn [mk_part pt_run pt_get pt_put].
  - by intros [= <- <-].
  - by intros [= <- <-].
  - pose proof (cname_run_cases now (pw_ctx p) req) as Hc. rewrite Hn in Hc. rewrite Hc. by intros [= <- <-].
  - unfold dns64_run. destruct (_ =? _); by intros [= <- <-].
  - unfold address_run. destruct (handle_rule_addr _ _); [done|]. by intros [= <- <-].
  - unfold dnsmasq_run, get_leases. destruct (if _ =? TYPE_PTR then _ else _) as [s1 [d|]]; [done|].
    destruct (lease_lookup _ _ _ _ _ _ _ _) as [s2 [d|]]; [done|]. by intros [= <- <-].
  - edestruct (zone_run_cases (su_server_name env) (su_binds env)) as [(w' & a & ->)|(k & -> & _)]; [done|]. by intros [= <- <-].
  - unfold odhcpd_run, get_odhcpd. cbn zeta. case_match; [|done]. by intros [= <- <-].
  - unfold hosts_run, get_hosts. cbn zeta. destruct (_ || _); [|by intros [= <- <-]]. destruct (cached_hosts _ _ _ _) as [h hosts].
    destruct (opt_or _ _) as [[]|]; [done|]. by intros [= <- <-].
  - unfold cache_run, get_cache. cbn [fst snd]. cbn zeta. destruct (skips_cache _ _); [by intros [= <- <-]|].
    destruct (if so_is_background _ then _ else _) as [cached c']. destruct (serves _ _) as [[r []]|]; [done..|]. by intros [= <- <-].
  - unfold get_timed. cbn [fst snd]. rewrite dualstack_first. by intros [= <- <-].
  - by intros [= <- <-].
Qed.

(** What a middleware answers in that context, at that time and with that cache is
    answered at the latest there. *)
Lemma reaches_none pre k post p req :
  cname_target (pw_ctx p) = None → MwNameServer ∉ pre → MwCache ∉ pre →
  (∀ p', pw_ctx p' = pw_ctx p → pw_now p' = pw_now p → pw_cache p' = pw_cache p →
    ∃ x, part_of_kind k (pw_now p') = Some x ∧ first_call (pt_run x (pt_get x p') req) = None) →
  reaches (pre ++ k :: post) p req = None.
Proof.
  revert p. induction pre as [|j pre IH]; intros p Hn Hns Hc Hk; cbn [app reaches].
  { destruct (Hk p) as (x & -> & ->); done. }
  apply not_elem_of_cons in Hns as [Hj Hns]. apply not_elem_of_cons in Hc as [Hjc Hc].
  destruct (part_of_kind j (pw_now p)) as [x|] eqn:Ex; last first.
  { destruct j; cbn [part_of_kind] in Ex; try (destruct (su_odhcpd env _ _)); try (destruct (su_hosts env _)); done. }
  destruct (first_call (pt_run x (pt_get x p) req)) as [[w1 req1]|] eqn:E1; [|done]. cbn.
  destruct (hands_on _ _ _ _ _ _ _ Ex Hn E1) as (-> & H1 & H2 & H3). specialize (H3 ltac:(done)).
  apply IH; [congruence|done..|]. intros p' ? ? ?. apply Hk; congruence.
Qed.

Definition before_zone : list MwKind :=
  let cfg := ld_config c in
  when (nftset_is_configured c) MwNftset
  ++ when (audit_enable cfg) MwAudit
  ++ when (any_group (fun g => negb (bool_decide (length (rg_cnames g) = 0%nat))) c) MwCName
  ++ when_some (c_dns64_prefix (cf_inner cfg)) MwDns64
  ++ [MwAddress]
  ++ when_some (opt_filter is_file (cf_dnsmasq_lease_file cfg)) MwDnsmasq.
Definition before_cache : list MwKind :=
  before_zone ++ MwZone :: when_some (cf_odhcpd_lease_file (ld_config c)) MwOdhcpd ++ when (resolv_hostname (ld_config c)) MwHosts.

Lemma built_zone :
  built = before_zone ++ MwZone :: (when_some (cf_odhcpd_lease_file (ld_config c)) MwOdhcpd ++ when (resolv_hostname (ld_config c)) MwHosts
            ++ when (0 <? cache_size (ld_runtime c)) MwCache ++ built_back).
Proof. unfold build_middleware, before_zone, built_back. cbn zeta. by rewrite <- !app_assoc. Qed.

Lemma built_cache : 0 < cache_size (ld_runtime c) → built = before_cache ++ MwCache :: built_back.
Proof.
  intros Hs. rewrite built_zone. unfold before_cache. rewrite (proj2 (Z.ltb_lt _ _) Hs). cbn [when app].
  by rewrite <- !app_assoc, <- app_comm_cons, <- !app_assoc.
Qed.

Lemma not_before_cache k : k = MwNameServer ∨ k = MwCache → k ∉ before_cache.
Proof.
  intros Hk. unfold before_cache, before_zone. cbn zeta.
  destruct Hk as [-> | ->];
    repeat match goal with
           | |- _ ∧ _ => split
           | |- _ ∉ _ ++ _ => apply not_elem_of_app
           | |- _ ∉ when _ _ => by apply not_in_when
           | |- _ ∉ when_some _ _ => by apply not_in_when_some
           | |- _ ∉ _ :: _ => apply not_elem_of_cons; split; [done|]
           | |- _ ∉ [] => apply not_elem_of_nil
           end.
Qed.
Lemma not_before_zone k : k = MwNameServer ∨ k = MwCache → k ∉ before_zone.
Proof. intros Hk. pose proof (not_before_cache k Hk) as Hc. unfold before_cache in Hc. by apply not_elem_of_app in Hc as [Hc _]. Qed.

(** A query that is answered on the way. *)
Lemma answered_here p req :
  reaches built p req = None →
  let out := pipeline built p req in
  (∃ r, out.2 = Ok r) ∧ pw_asked out.1 = pw_asked p ∧ pw_permits out.1 = pw_permits p.
Proof.
  unfold pipeline. rewrite built_split. intros Hr. exact (stays built_front built_back p req front_keeps back_reaches Hr).
Qed.

(** C35: the name of a private address is never asked of the name servers: whatever
    the configuration and the rest of the state, unless a CNAME rule names
    another, a query for it is answered here, and not with an error. *)
Theorem private_names_never_leave p req net :
  q_type (req_query req) = TYPE_PTR → name_parse_arpa (q_name (req_query req)) = Some net → is_private_ip (net_addr net) = true →
  cname_target (pw_ctx p) = None →
  let out := pipeline built p req in
  (∃ r, out.2 = Ok r) ∧ pw_asked out.1 = pw_asked p.
Proof.
  intros Ht Hnet Hpriv Hn. destruct (answered_here p req) as (H1 & H2 & _); [|by split].
  rewrite built_zone. apply reaches_none; [done|apply not_before_zone; by left|apply not_before_zone; by right|].
  intros p' _ _ _. eexists. split; [done|]. cbn [mk_part pt_run pt_get]. unfold zone_run.
  destruct (ddr_lookup _ _ _ _ _ _); [done|]. cbn [manager_lookup]. unfold local_ptr_lookup.
  rewrite Ht. change (TYPE_PTR =? TYPE_PTR) with true. cbn [negb].
  destruct (existsb _ _); [done|]. rewrite Hnet. destruct (im_overlap_net _ net); [done|]. by rewrite Hpriv.
Qed.

(** C36: a query whose answer the cache has and may serve, and which no CNAME rule
    renames, is never asked of the name servers, whatever else the server is
    configured to do: it is answered, by the cache or by what comes before it, and no
    permit is taken. (With such a rule it is the other name that is looked up.) *)
Theorem cached_answers_stay p req :
  0 < cache_size (ld_runtime c) → cname_target (pw_ctx p) = None → skips_cache (pw_ctx p) req = false →
  so_is_background (ctx_server_opts (pw_ctx p)) = false →
  is_some (serves (pw_ctx p) (cache_get (pw_cache p) (req_query req) (pw_now p)).1) = true →
  let out := pipeline built p req in
  (∃ r, out.2 = Ok r) ∧ pw_asked out.1 = pw_asked p ∧ pw_permits out.1 = pw_permits p.
Proof.
  intros Hsize Hn Hskip Hb Hs. apply answered_here. rewrite built_cache by done.
  apply reaches_none; [done|apply not_before_cache; by left|apply not_before_cache; by right|].
  intros p' Hctx Hnow Hcache. eexists. split; [done|]. cbn [mk_part pt_run pt_get]. unfold cache_run, get_cache. cbn [fst snd]. cbn zeta.
  rewrite Hctx, Hnow, Hcache, Hskip, Hb. destruct (cache_get (pw_cache p) (req_query req) (pw_now p)) as [cached c']. cbn in Hs.
  by destruct (serves (pw_ctx p) cached) as [[r []]|].
Qed.
End Answers.
(** *** Every query is answered *)
Section Ends.
Context `{!FuturesLaws} (iter_perm : ∀ l, su_iter env l ≡ₚ l).

(** A client whose groups all have servers. *)
Definition staffed (client : DnsClient Name) : Prop :=
  servers (cl_default client) ≠ [] ∧ ∀ name g, cl_servers client !! name = Some g → servers g ≠ [].

Lemma staffed_group (client : DnsClient Name) name g : staffed client → client_server_group client name = Some g → servers g ≠ [].
Proof. intros [Hd Hs]. unfold client_server_group. destruct (_ || _); [by intros [= <-]|apply Hs]. Qed.

Lemma choose_group_found (client : DnsClient Name) ctx req name g :
  choose_group client ctx req = Some (name, g) → client_server_group client name = Some g.
Proof.
  unfold choose_group, named_group. intros Hg. destruct (if mdns_name ctx req then _ else None) as [g'|] eqn:Em; cbn in Hg.
  - injection Hg as ->. destruct (mdns_name ctx req); [|done]. destruct (client_server_group client "mdns") eqn:E; [|done].
    cbn in Em. by injection Em as <- <-.
  - destruct (client_server_group client (server_group_name ctx)) eqn:E; [|done]. cbn in Hg. by injection Hg as <- <-.
Qed.

Lemma ns_ends p req next : staffed (su_client env) → ∃ r, (ns_middleware p req next).2 = reply_of r.
Proof.
  intros Hst. unfold ns_middleware.
  pose proof (NameServerSpec.ns_handle_answers probe (su_iter env) iter_perm (su_client env) (pw_permits p) (pw_now p) (pw_ctx p) req) as Ha.
  destruct (ns_handle _ _ _ _ _ _ _) as [[[out ctx] permits] asked]. destruct Ha as [Ha _]. destruct out as [t r| |]; [by exists r| |done].
  destruct Ha as [(_ & name & g & Hg & He)|[_ He]]; [|by destruct Hst].
  exfalso. apply choose_group_found, staffed_group in Hg; done.
Qed.

(** Every query is answered, with a response or an error and never with a panic of
    its task, by any chain of middlewares in any state. *)
Lemma pipeline_ends chain p req : staffed (su_client env) → ∃ r, (pipeline chain p req).2 = reply_of r.
Proof.
  intros Hst. unfold pipeline. revert p req. induction chain as [|k chain IH]; intros p req; cbn [fmap list_fmap next_run].
  { unfold default_over. destruct (default_handler _ _). by eexists. }
  unfold mw_of_kind at 1. destruct (part_of_kind k (pw_now p)) as [x|]; [|by apply ns_ends].
  apply run_over_ends; [|done]. intros a q. by eexists.
Qed.
End Ends.

(** *** From a packet to its reply *)
Section Server.
Context `{HdL : HeaderLib Name}.
Variable lookup_mac : IpAddr → option string.
Variable wants_mac : bool.
Variable cfg : RuntimeConfig Name RM.
Variable chain : list MwKind.

(** The permits left for foreground queries, and the state of the chain. *)
Record ServerWorld := mkServer { sv_permits : Permits; sv_pipe : World }.
Definition server_clock (s : ServerWorld) : Instant := pw_now (sv_pipe s).

(** [DnsMiddlewareHandler::search] with the chain over the state: no result when the
    task panics. *)
Definition search_over (s : ServerWorld) req (opts : ServerOpts) : ServerWorld * option Res :=
  match search_start hash wm lookup_mac wants_mac cfg (sv_permits s) req opts with
  | SPanic => (s, None)
  | SRefused e => (s, Some (Err e))
  | SRun permits ctx =>
      let '(p, r) := pipeline chain (put_ctx ctx (sv_pipe s)) req in
      (mkServer (release permits (so_is_background opts)) p, of_reply r)
  end.
Definition serve_packet : ServerWorld → SerialMessage → ServerOpts → ServerWorld * option SerialMessage :=
  process server_clock search_over.

(** The foreground queries have taken all permits. *)
Definition at_limit (permits : Permits) (background : bool) : bool :=
  negb background && opt_map_or false (fun n => n <=? 0) permits.

Lemma search_start_cases permits req opts :
  match search_start (Fut := Outcome Res) hash wm lookup_mac wants_mac cfg permits req opts with
  | SPanic => at_limit permits (so_is_background opts) = false ∧ is_ok (req_client_subnet req) = false
  | SRefused e => at_limit permits (so_is_background opts) = true ∧ e = EResponseCode Refused
  | SRun permits' _ =>
      at_limit permits (so_is_background opts) = false ∧ is_ok (req_client_subnet req) = true ∧
      release permits' (so_is_background opts) = permits
  end.
Proof.
  unfold search_start, acquire, release, at_limit. destruct (so_is_background opts); cbn [negb andb].
  { by destruct (req_client_subnet req). }
  destruct permits as [n|]; [|by destruct (req_client_subnet req)]. cbn [opt_map_or].
  destruct (Z.ltb_spec 0 n), (Z.leb_spec n 0); [lia| |done|lia].
  destruct (req_client_subnet req); [|done]. split; [done|]. split; [done|]. cbn. f_equal. lia.
Qed.

End Server.
End Pipeline.

(** ** A server at work *)
#[local] Existing Instance mask_net.
#[local] Existing Instance FirstReady_lib.
#[local] Existing Instance FirstReady_laws.
#[local] Existing Instance one_name_hosts.

Definition work_env (client : DnsClient PlainName) : Surroundings PlainName :=
  mkSurroundings (plain_name "dns.home") [] (text_of "1.0") (fun _ => []) (fun _ => None) Some (fun _ => [])
    (fun _ now => mkEnv now 0 None None None) None (fun _ _ => (None, ReadNotFound)) false (fun _ => (None, []))
    true (fun _ => 0) ∅ client sample_iter.

Abbreviation WorkWorld :=
  (PipeWorld PlainName list_rm SampleLru (list PlainName) (DnsContext PlainName list_rm (Outcome SampleRes))
     (Effect (Name := PlainName) (Fut := Outcome SampleRes)) (AuditRecord (Name := PlainName))).

Definition work_start (ctx : DnsContext PlainName list_rm (Outcome SampleRes)) : WorkWorld :=
  mkPipe 0 ctx (store_new 0 None) (odhcpd_new 0) None sample_cache [] [] [] 128 [].

Definition work_pipeline (client : DnsClient PlainName) (chain : list MwKind) :=
  pipeline (Hosts := list PlainName) (LL := sample_lru) Some fnv64 glob_match id sample_probe (work_env client) chain.

(** A name whose rule names another. *)
Definition work_target : PlainName := plain_name "target.example.".
Definition work_ctx (rule : option (TreeNode (DomainRule PlainName))) : DnsContext PlainName list_rm (Outcome SampleRes) :=
  mkCtx (sample_config config_default) opts_default rule 0 FromNone false false None.
Definition renamed_ctx : DnsContext PlainName list_rm (Outcome SampleRes) :=
  work_ctx (Some (mkNode (set_cname rule_default (Value work_target)) None)).

(** The groups, the names and the types of the lookups made. *)
Definition asked_questions (p : WorkWorld) : list (string * PlainName * RecordType) :=
  (fun a => (asked_group a, asked_name a, lo_record_type (asked_options a))) <$> pw_asked p.

(** An upstream that has an IPv4 address for every name and no IPv6 address. *)
Definition old_server : NameServer PlainName :=
  mkNs plain_ns_opts (fun now q _ _ => (now + millis 5, if q_type q =? TYPE_A then Ok (sample_resp [1] 60) else Err (no_records_found q 60))).
Definition old_client : DnsClient PlainName :=
  let g := mkGroup [old_server] in mkClient g (bs_new g) ∅.

(** With a CNAME rule and DNS64 the second question is for the first name, and not
    for the target, as the message of the request still holds it: what is returned
    for the target is made of the addresses of the other name. *)
Example dns64_forgets_target :
  let out := work_pipeline old_client [MwCName; MwDns64 (0, 96); MwAddress; MwNameServer] (work_start renamed_ctx) (sample_req TYPE_AAAA) in
  asked_questions out.1 = [("default"%string, work_target, TYPE_AAAA); ("default"%string, sample_name, TYPE_A)] ∧
  match out.2 with Ok r => rr_data <$> answers r = [RCNAME work_target; RAAAA 1] | Err _ => False end.
Proof. split; vm_compute; reflexivity. Qed.

(** A configuration that says nothing: addresses, zones, the cache and the name
    servers. *)
Definition work_config : LoadedConfig PlainName unit unit list_rm :=
  mkLoaded None None None (bd_config (builder_new None None)) ∅ (sample_config config_default).

Example work_chain : build_middleware (fun _ => false) work_config = [MwAddress; MwZone; MwCache; MwDualStack; MwNameServer].
Proof. vm_compute. reflexivity. Qed.

(** The first query is asked of the name servers, the second is answered by the cache. *)
Example asked_once :
  let run := work_pipeline old_client (build_middleware (fun _ => false) work_config) in
  let first := run (work_start (work_ctx None)) (sample_req TYPE_A) in
  let second := run first.1 (sample_req TYPE_A) in
  asked_questions first.1 = [("default"%string, sample_name, TYPE_A)] ∧ pw_asked second.1 = pw_asked first.1 ∧ is_ok second.2 = true.
Proof. vm_compute. repeat split. Qed.

(** The state after the first query, with a context for the second. *)
Definition work_again : WorkWorld :=
  put_ctx (work_ctx None) (work_pipeline old_client (build_middleware (fun _ => false) work_config) (work_start (work_ctx None)) (sample_req TYPE_A)).1.

Lemma cached_answers_stay_witness :
  let out := work_pipeline old_client (build_middleware (fun _ => false) work_config) work_again (sample_req TYPE_A) in
  (∃ r, out.2 = Ok r) ∧ asked_questions out.1 = [("default"%string, sample_name, TYPE_A)].
Proof.
  destruct (cached_answers_stay Some fnv64 glob_match id sample_probe (work_env old_client) (fun _ => false) work_config work_again (sample_req TYPE_A))
    as (H1 & H2 & _); [vm_compute; reflexivity..|].
  split; [exact H1|]. refine (eq_trans (f_equal _ H2) _). vm_compute. reflexivity.
Defined.

(** A packet and the same packet again, from two clients: the name servers are asked
    once, and both replies have the address and their own id. *)
Abbreviation WorkServer :=
  (ServerWorld (Name := PlainName) (L := SampleLru) (RM := list_rm) (Hosts := list PlainName)).
Definition work_serve (permits : Permits) (p : WorkWorld) : list Z → WorkServer * option (SerialMessage (Name := PlainName)) :=
  fun bytes =>
    serve_packet (Hosts := list PlainName) (LL := sample_lru) Some fnv64 glob_match id sample_probe (work_env old_client)
      (fun _ => None) false (sample_config config_default) (build_middleware (fun _ => false) work_config)
      (mkServer permits p) (SBytes bytes (mkSocket (V4 1) 53) PUdp) opts_default.
Definition reply_seen (out : option (SerialMessage (Name := PlainName))) : option (Z * ResponseCode * list (RData PlainName)) :=
  reply ← out; m ← serial_to_message reply;
  Some (h_id (msg_header m), msg_response_code m, rr_data <$> msg_answers m).

Example two_packets :
  let '(s1, out1) := work_serve (Some 1) (work_start (work_ctx None)) [9; TYPE_A] in
  let '(s2, out2) := work_serve (sv_permits s1) (sv_pipe s1) [10; TYPE_A] in
  reply_seen out1 = Some (9, NoError, [RA 1]) ∧ reply_seen out2 = Some (10, NoError, [RA 1]) ∧
  asked_questions (sv_pipe s2) = [("default"%string, sample_name, TYPE_A)] ∧ sv_permits s2 = Some 1.
Proof. vm_compute. repeat split. Qed.


Definition private_name : PlainName := plain_name "9.1.168.192.in-addr.arpa".

Lemma private_names_never_leave_witness :
  let req := req_of_query (query_of private_name TYPE_PTR) in
  let out := work_pipeline old_client (build_middleware (fun _ => false) work_config) (work_start (work_ctx None)) req in
  (∃ r, out.2 = Ok r) ∧ pw_asked out.1 = [].
Proof.
  destruct (name_parse_arpa private_name) as [net|] eqn:E; [|by vm_compute in E].
  refine (private_names_never_leave Some fnv64 glob_match id sample_probe (work_env old_client) (fun _ => false) work_config
    (work_start (work_ctx None)) (req_of_query (query_of private_name TYPE_PTR)) net eq_refl E _ eq_refl).
  vm_compute in E. injection E as <-. reflexivity.
Defined.
