(* ===== verification/System.v ===== *)
(** * The program around the server ([resolver.rs], [main.rs], [dns_conf.rs], [log.rs], [updater.rs], [infra/])

    What the command line asks to be looked up, the file of the configuration that
    is read, the servers the client is made of, where logs go, the guard of the
    process, what the system is, packets that are kept, and the release that the
    program is replaced by. *)

From S2P Require Import Prelude Names Config Text LogFile DomainRule Message Runtime Context DnsUrl ClientBuild ConfigItems Nom ParseServers ParseIp AddressFile Resolver QueryAudit CacheFile Service.

(** ** Lookups of the command line ([resolver.rs]) *)
(** What the library reads of an argument: [RecordType::from_str] and
    [DNSClass::from_str]; and letters beyond ASCII. *)
Class DigLib := {
  type_from_str : text → option RecordType;
  class_from_str : text → option Z;
  str_to_uppercase : text → text;
}.

Section Resolve.
Context {Name : Type} `{NT : NameText Name} `{DL : DigLib} `{UL : UrlLib} `{U : Unicode}.

Inductive Variant := VDomain (d : Name) | VRecordType (t : RecordType) | VDNSClass (c : Z) | VServer (s : text).

(** [Variant::from_str] *)
Definition variant_from_str (s : text) : option Variant :=
  match strip_prefix (text_of "@") s with
  | Some s => Some (VServer s)
  | None =>
      let upper := str_to_uppercase s in
      match type_from_str upper with
      | Some t => Some (VRecordType t)
      | None =>
          match class_from_str upper with
          | Some c => Some (VDNSClass c)
          | None => VDomain <$> name_parse s
          end
      end
  end.

(** The options for a protocol; one is kept in a flag of its own. *)
Definition proto_flags : list (string * Protocol) :=
  [("-U", PUdp); ("--udp", PUdp); ("-T", PTcp); ("--tcp", PTcp); ("-S", PTls); ("--tls", PTls); ("-Q", PQuic); ("--quic", PQuic);
   ("-H", PHttpsP); ("--https", PHttpsP); ("-H3", PH3); ("--h3", PH3)].
Definition proto_flag (arg : text) : option Protocol :=
  snd <$> find_first (fun x => bool_decide (arg = text_of x.1)) proto_flags.

Record ProtocolType := mkProtocolType { pt_udp : bool; pt_tcp : bool; pt_tls : bool; pt_quic : bool; pt_https : bool; pt_h3 : bool }.
#[local] Instance Protocol_eq_dec : EqDecision Protocol.
Proof. solve_decision. Defined.
Definition protocol_type (proto : option Protocol) : ProtocolType :=
  let flag p := bool_decide (proto = Some p) in
  mkProtocolType (flag PUdp) (flag PTcp) (flag PTls) (flag PQuic) (flag PHttpsP) (flag PH3).

Record ResolveCommand := mkResolve {
  rv_proto : ProtocolType;
  rv_json : bool;
  rv_short : bool;
  rv_domains : list Name;
  rv_record_types : list RecordType;
  rv_q_class : option Z;
  rv_global_server : option text;
}.

(** [ResolveCommand::proto] *)
Definition resolve_proto (c : ResolveCommand) : option Protocol :=
  let p := rv_proto c in
  if pt_udp p then Some PUdp else if pt_tcp p then Some PTcp else if pt_tls p then Some PTls
  else if pt_quic p then Some PQuic else if pt_https p then Some PHttpsP else if pt_h3 p then Some PH3 else None.

(** What has been read of the arguments. *)
Record DigState := mkDig {
  dg_proto : option Protocol;
  dg_types : list RecordType;
  dg_class : option Z;
  dg_domain : option Name;
  dg_server : option text;
}.
Definition dig_start : DigState := mkDig None [] None None None.

Inductive DigError := InvalidArgument (arg : text) | DomainRequired.

(** The record types of an argument with a plus sign. *)
Definition plus_types (arg : text) : list RecordType :=
  if existsb (Z.eqb 43) arg then omap type_from_str (str_to_uppercase <$> split_at (Z.eqb 43) arg) else [].

(** One argument of [ResolveCommand::try_parse_from]. *)
Definition dig_arg (st : DigState) (arg : text) : result DigState DigError :=
  let '(mkDig proto types class domain server) := st in
  if bool_decide (arg = text_of "resolve") then Ok st
  else
    match (if starts_with (text_of "-") arg && is_none proto then proto_flag arg else None) with
    | Some p => Ok (mkDig (Some p) types class domain server)
    | None =>
        match strip_prefix (text_of "@") arg with
        | Some s => Ok (mkDig proto types class domain (Some s))
        | None =>
            match plus_types arg with
            | (_ :: _) as ts => Ok (mkDig proto (types ++ ts) class domain server)
            | [] =>
                match variant_from_str arg with
                | Some (VDomain d) => Ok (mkDig proto types class (Some d) server)
                | Some (VRecordType t) => Ok (mkDig proto (types ++ [t]) class domain server)
                | Some (VDNSClass c) => Ok (mkDig proto types (Some c) domain server)
                | Some (VServer s) => Ok (mkDig proto types class domain (Some s))
                | None => Err (InvalidArgument arg)
                end
            end
        end
    end.

Fixpoint dig_args (st : DigState) (args : list text) : result DigState DigError :=
  match args with
  | [] => Ok st
  | arg :: args => result_bind (dig_arg st arg) (fun st => dig_args st args)
  end.

Definition dig_finish (st : DigState) : result ResolveCommand DigError :=
  match dg_domain st with
  | None => Err DomainRequired
  | Some d =>
      Ok (mkResolve (protocol_type (dg_proto st)) false false [d]
            (match dg_types st with [] => [TYPE_A] | types => types end) (dg_class st) (dg_server st))
  end.

(** [ResolveCommand::try_parse_from]: the first argument is the program. *)
Definition try_parse_from (args : list text) : result ResolveCommand DigError :=
  result_bind (dig_args dig_start (tail args)) dig_finish.

(** [ProtocolConfig::from] of a protocol *)
Definition proto_of_protocol (p : Protocol) : ProtocolConfig :=
  match p with
  | PUdp => ProtoUdp | PTcp => ProtoTcp | PTls => ProtoTls | PQuic => ProtoQuic
  | PHttpsP => ProtoHttps default_dns_query_path PreferAuto
  | PH3 => ProtoH3 default_dns_query_path false
  end.

(** [ResolveCommand::execute]: the server that is asked, or those of the system, and
    the lookups in their order. *)
Definition resolve_server (c : ResolveCommand) : option DnsUrl :=
  let server := rv_global_server c ≫= dns_url_from_str in
  match resolve_proto c with
  | Some p => (fun u => mkUrl (url_name u) (proto_of_protocol p) (url_host u) (url_port_opt u) (url_params u) (url_options u)) <$> server
  | None => server
  end.
Definition resolve_lookups (c : ResolveCommand) : list (Name * RecordType) :=
  d ← rv_domains c; (fun t => (d, t)) <$> rv_record_types c.
End Resolve.

(** *** What the arguments say *)
Section ResolveLaws.
Context {Name : Type} `{NT : NameText Name} `{DL : DigLib}.
Abbreviation State := (DigState (Name := Name)).

(** The protocol that is kept is the one that is asked for. *)
Lemma proto_kept (proto : option Protocol) json short (domains : list Name) types class server :
  resolve_proto (mkResolve (protocol_type proto) json short domains types class server) = proto.
Proof. by destruct proto as [[]|]. Qed.

(** What one argument is, when a protocol is known or not. *)
Inductive ArgRole := ArgNothing | ArgProto (p : Protocol) | ArgServer (s : text) | ArgTypes (ts : list RecordType) | ArgClass (c : Z) | ArgDomain (d : Name) | ArgInvalid.
Definition arg_role (known : bool) (arg : text) : ArgRole :=
  if bool_decide (arg = text_of "resolve") then ArgNothing
  else match (if starts_with (text_of "-") arg && negb known then proto_flag arg else None) with
       | Some p => ArgProto p
       | None =>
           match strip_prefix (text_of "@") arg, plus_types arg, variant_from_str arg with
           | Some s, _, _ => ArgServer s
           | None, (_ :: _) as ts, _ => ArgTypes ts
           | None, [], Some (VDomain d) => ArgDomain d
           | None, [], Some (VRecordType t) => ArgTypes [t]
           | None, [], Some (VDNSClass c) => ArgClass c
           | None, [], Some (VServer s) => ArgServer s
           | None, [], None => ArgInvalid
           end
       end.
Fixpoint arg_roles (known : bool) (args : list text) : list ArgRole :=
  match args with
  | [] => []
  | arg :: args => let r := arg_role known arg in r :: arg_roles (known || match r with ArgProto _ => true | _ => false end) args
  end.

Definition role_proto r := match r with ArgProto p => Some p | _ => None end.
Definition role_server r := match r with ArgServer s => Some s | _ => None end.
Definition role_types r : list RecordType := match r with ArgTypes ts => ts | _ => [] end.
Definition role_class r := match r with ArgClass c => Some c | _ => None end.
Definition role_domain r := match r with ArgDomain d => Some d | _ => None end.
Definition role_invalid r := match r with ArgInvalid => true | _ => false end.

Lemma dig_arg_role (st : State) arg :
  dig_arg st arg =
    let r := arg_role (is_some (dg_proto st)) arg in
    if role_invalid r then Err (InvalidArgument arg)
    else Ok (mkDig (opt_or (dg_proto st) (role_proto r)) (dg_types st ++ role_types r) (opt_or (role_class r) (dg_class st))
               (opt_or (role_domain r) (dg_domain st)) (opt_or (role_server r) (dg_server st))).
Proof.
  destruct st as [proto types class domain server]. unfold dig_arg, arg_role. cbn [dg_proto dg_types dg_class dg_domain dg_server].
  assert (Hp : opt_or proto None = proto) by (by destruct proto).
  generalize (plus_types arg) (variant_from_str arg) (strip_prefix (text_of "@") arg) (proto_flag arg). intros ts v s f.
  destruct (bool_decide _); [by cbn; rewrite Hp, app_nil_r|].
  replace (is_none proto) with (negb (is_some proto)) by done.
  assert (Ho : (if starts_with (text_of "-") arg && negb (is_some proto) then f else None) = None ∨ is_some proto = false)
    by (destruct (is_some proto); [left; by rewrite andb_false_r|by right]).
  destruct (if starts_with _ arg && _ then f else None) as [p|].
  - destruct Ho as [|Ho]; [done|]. destruct proto; [done|]. cbn. by rewrite app_nil_r.
  - destruct s; [by destruct proto; cbn; rewrite app_nil_r|]. destruct ts; [|by destruct proto].
    destruct v as [[]|]; destruct proto; cbn; by rewrite ?app_nil_r.
Qed.

Lemma last_cons_or {A B} (f : A → option B) r rs : last (omap f (r :: rs)) = opt_or (last (omap f rs)) (f r).
Proof.
  cbn. destruct (f r) as [b|]; [|by destruct (last (omap f rs))]. rewrite last_cons. by destruct (last (omap f rs)).
Qed.

(** The arguments in any state: the first protocol, all the types, and of the rest
    the last of each. *)
Lemma dig_args_roles (st : State) args :
  let roles := arg_roles (is_some (dg_proto st)) args in
  if existsb role_invalid roles then is_ok (dig_args st args) = false
  else dig_args st args =
    Ok (mkDig (opt_or (dg_proto st) (head (omap role_proto roles))) (dg_types st ++ (roles ≫= role_types))
          (opt_or (last (omap role_class roles)) (dg_class st)) (opt_or (last (omap role_domain roles)) (dg_domain st))
          (opt_or (last (omap role_server roles)) (dg_server st))).
Proof.
  revert st. induction args as [|arg args IH]; intros st roles; subst roles.
  { destruct st as [[] types class domain server]; cbn; by rewrite app_nil_r. }
  cbn [dig_args]. rewrite dig_arg_role. cbn [arg_roles existsb]. cbn zeta.
  set (r := arg_role (is_some (dg_proto st)) arg). destruct (role_invalid r) eqn:Ei; [done|]. cbn [orb result_bind].
  specialize (IH (mkDig (opt_or (dg_proto st) (role_proto r)) (dg_types st ++ role_types r) (opt_or (role_class r) (dg_class st))
               (opt_or (role_domain r) (dg_domain st)) (opt_or (role_server r) (dg_server st)))).
  cbn [dg_proto dg_types dg_class dg_domain dg_server] in IH. cbn zeta in IH.
  assert (is_some (opt_or (dg_proto st) (role_proto r)) = is_some (dg_proto st) || match r with ArgProto _ => true | _ => false end) as Hk.
  { destruct (dg_proto st); [done|]. by destruct r. }
  rewrite Hk in IH. destruct (existsb role_invalid _); [done|]. rewrite IH. f_equal.
  rewrite !last_cons_or, !opt_or_assoc, <- app_assoc. f_equal.
  cbn. destruct (role_proto r); [by destruct (dg_proto st)|done].
Qed.

(** The command of a list of arguments: it is refused when an argument says
    nothing or no domain is named; else it has the last domain, class and server,
    the first protocol, and all the types in their order or A. *)
Lemma resolve_arguments prog args :
  let roles := arg_roles false args in
  match try_parse_from (prog :: args) with
  | Err _ => existsb role_invalid roles = true ∨ omap role_domain roles = []
  | Ok c =>
      existsb role_invalid roles = false ∧
      (∃ d, last (omap role_domain roles) = Some d ∧ rv_domains c = [d]) ∧
      rv_record_types c = (match roles ≫= role_types with [] => [TYPE_A] | ts => ts end) ∧
      rv_q_class c = last (omap role_class roles) ∧ rv_global_server c = last (omap role_server roles) ∧
      resolve_proto c = head (omap role_proto roles)
  end.
Proof.
  intros roles. unfold try_parse_from. cbn [tail]. pose proof (dig_args_roles dig_start args) as Ha. cbn [dg_proto dig_start is_some] in Ha.
  cbn zeta in Ha. fold roles in Ha. destruct (existsb role_invalid roles).
  { destruct (dig_args dig_start args); [done|]. by left. }
  rewrite Ha. cbn [result_bind dg_types dg_class dg_domain dg_server dig_start app opt_or].
  assert (Hn : ∀ A (x : option A), opt_or x None = x) by (by intros ? []). rewrite !Hn. unfold dig_finish. cbn [dg_domain].
  destruct (last (omap role_domain roles)) as [d|] eqn:Ed; [|right; by apply last_None].
  split; [done|]. split; [by exists d|]. split; [done|]. split; [done|]. split; [done|]. apply proto_kept.
Qed.
End ResolveLaws.

(** Of two options for a protocol the second is a name to look up. *)
Definition dig_lib_example : DigLib := {|
  type_from_str t := if bool_decide (t = text_of "A") then Some TYPE_A else if bool_decide (t = text_of "AAAA") then Some TYPE_AAAA else None;
  class_from_str t := if bool_decide (t = text_of "CH") then Some CLASS_CH else None;
  str_to_uppercase t := (fun c => if (97 <=? c) && (c <=? 122) then c - 32 else c) <$> t;
|}.
Definition dig_example (args : list string) : result (ResolveCommand (Name := PlainName)) DigError :=
  try_parse_from (DL := dig_lib_example) (text_of <$> args).

Example second_protocol_looked_up :
  match dig_example ["dig"; "example.com"; "-U"; "-T"; "a+aaaa"; "@1.1.1.1"] with
  | Ok c => rv_domains c = [mkName [text_of "-T"] false] ∧ resolve_proto c = Some PUdp ∧ rv_record_types c = [TYPE_A; TYPE_AAAA] ∧
      rv_global_server c = Some (text_of "1.1.1.1")
  | Err _ => False
  end.
Proof. vm_compute. repeat split. Qed.

(** A class changes nothing of what is looked up. *)
Lemma class_not_used {Name} (c : ResolveCommand (Name := Name)) q :
  resolve_lookups (mkResolve (rv_proto c) (rv_json c) (rv_short c) (rv_domains c) (rv_record_types c) q (rv_global_server c)) = resolve_lookups c.
Proof. done. Qed.

(** ** The guard of the process ([infra/process_guard.rs], [main.rs]) *)
Section Guard.
(** Which processes run, and what the system lets the program write. *)
Variable running : Z → bool.
Variable writable : PathBuf → bool.

Inductive GuardError := AlreadyRunning (id : Z) | GuardIo.

(** [process_guard::create] *)
Definition guard_create (id : Z) (path : PathBuf) (d : Disk) : Disk * result (Z * PathBuf) GuardError :=
  let write := if writable path then (<[path := NFile (show_number id)]> d, Ok (id, path)) else (d, Err GuardIo) in
  match d !! path with
  | None => write
  | Some NDir => (d, Err GuardIo)
  | Some (NFile content) =>
      if negb (utf8_valid (length content) content) then (d, Err GuardIo)
      else match parse_unsigned 10 u32_max content with
      | Some previous => if running previous then (d, Err (AlreadyRunning previous)) else write
      | None => write
      end
  end.

(** [ProcessGuard::drop] *)
Definition guard_drop (guard : Z * PathBuf) (d : Disk) : Disk :=
  match d !! guard.2 with Some (NFile _) => if writable guard.2 then delete guard.2 d else d | _ => d end.

(** The start of the server: it panics when another runs, and goes on without a
    guard when the file cannot be read or written. *)
Inductive Guarded := GuardHeld (guard : Z * PathBuf) | NoGuard | GuardPanics.
Definition run_guard (id : Z) (pid : option PathBuf) (d : Disk) : Disk * Guarded :=
  match pid with
  | None => (d, NoGuard)
  | Some path =>
      match guard_create id path d with
      | (d, Ok guard) => (d, GuardHeld guard)
      | (d, Err (AlreadyRunning _)) => (d, GuardPanics)
      | (d, Err GuardIo) => (d, NoGuard)
      end
  end.

Lemma show_number_u32 id : 0 ≤ id ≤ u32_max → parse_unsigned 10 u32_max (show_number id) = Some id.
Proof. intros Hid. apply parse_unsigned_number; [lia|unfold u32_max in *; cbn; lia|done|lia]. Qed.

Lemma utf8_ascii fuel l : (length l ≤ fuel)%nat → forallb (fun c => in_range 0 c 127) l = true → utf8_valid fuel l = true.
Proof.
  revert fuel. induction l as [|c l IH]; intros [|fuel] Hf Hl; cbn in Hf; try done; [lia|]. cbn [forallb] in Hl.
  apply andb_true_iff in Hl as [Hc Hl]. cbn [utf8_valid]. rewrite Hc. apply IH; [lia|done].
Qed.

Lemma show_number_utf8 id : 0 ≤ id → utf8_valid (length (show_number id)) (show_number id) = true.
Proof.
  intros Hid. apply utf8_ascii; [done|]. apply number_digits_chars; [lia| |done]. intros d Hd. unfold digit_char, in_range. case_match; lia.
Qed.

(** The guard keeps a second process out while the first runs, and leaves the file
    alone; a process that has ended, with its file or without, is in nobody's way. *)
Lemma guard_excludes path a b d :
  0 ≤ a ≤ u32_max → writable path = true → d !! path = None →
  let '(d1, held) := guard_create a path d in
  held = Ok (a, path) ∧
  guard_create b path d1 = (if running a then (d1, Err (AlreadyRunning a)) else (<[path := NFile (show_number b)]> d1, Ok (b, path))) ∧
  guard_drop (a, path) d1 = d.
Proof.
  intros Ha Hw Hd. unfold guard_create at 1. rewrite Hd, Hw. split; [done|]. split.
  - unfold guard_create. rewrite lookup_insert_eq, show_number_utf8, show_number_u32 by (done || lia). cbn [negb]. by rewrite Hw.
  - unfold guard_drop. cbn. rewrite lookup_insert_eq, Hw. by apply delete_insert_id.
Qed.

(** A file that was left by a process of the same number, as the first process of a
    container has after each start, keeps the program from starting. *)
Lemma own_number_excludes path a d :
  0 ≤ a ≤ u32_max → running a = true → d !! path = Some (NFile (show_number a)) →
  run_guard a (Some path) d = (d, GuardPanics).
Proof. intros Ha Hr Hd. unfold run_guard, guard_create. rewrite Hd, show_number_utf8, show_number_u32 by (done || lia). cbn [negb]. by rewrite Hr. Qed.
End Guard.

(** ** The system ([infra/os_release.rs]) *)
Record OsRelease := mkOsRelease { os_id : text; os_name : text; os_pretty_name : text; os_id_like : option text }.

(** One line of [OsRelease::from_str]. *)
Definition os_line `{Unicode} (r : OsRelease) (line : text) : OsRelease :=
  match span (fun c => negb (c =? 61)) line with
  | (_, []) => r
  | (p, _ :: v) =>
      let p := str_to_lowercase (trim p) in let v := trim v in
      if bool_decide (p = text_of "id") then mkOsRelease (os_id r ++ v) (os_name r) (os_pretty_name r) (os_id_like r)
      else if bool_decide (p = text_of "name") then mkOsRelease (os_id r) (os_name r ++ v) (os_pretty_name r) (os_id_like r)
      else if bool_decide (p = text_of "pretty_name") then mkOsRelease (os_id r) (os_name r) (os_pretty_name r ++ v) (os_id_like r)
      else if bool_decide (p = text_of "id_like") then mkOsRelease (os_id r) (os_name r) (os_pretty_name r) (Some v)
      else r
  end.
Definition os_release_from_str `{Unicode} (s : text) : OsRelease := fold_left os_line (str_lines s) (mkOsRelease [] [] [] None).

(** [str::contains] *)
Fixpoint text_contains (needle l : text) : bool :=
  starts_with needle l || match l with _ :: l => text_contains needle l | [] => false end.
Definition id_contains (search : string) (r : OsRelease) : bool :=
  text_contains (text_of search) (os_id r) || opt_map_or false (text_contains (text_of search)) (os_id_like r).
Definition is_kali (r : OsRelease) : bool := text_contains (text_of "kali") (os_id r).
Definition is_deepin (r : OsRelease) : bool := id_contains "Deepin" r.
Definition is_debian (r : OsRelease) : bool := id_contains "debian" r || is_deepin r.
Definition is_centos (r : OsRelease) : bool := id_contains "centos" r.
Definition is_fedora (r : OsRelease) : bool := id_contains "fedora" r.
Definition is_openwrt (r : OsRelease) : bool := text_contains (text_of "openwrt") (os_id r).

(** The text of a whole release, a line for each field. *)
Definition os_text (id name : string) (id_like : option string) : text :=
  text_of "NAME=" ++ text_of name ++ 10 :: text_of "  ID = " ++ text_of id ++ 10 ::
  match id_like with Some l => text_of "ID_LIKE=" ++ text_of l ++ [10] | None => [] end.
#[local] Existing Instance ascii_unicode.

Example releases_read :
  let kali := os_release_from_str (os_text "kali" "Kali GNU/Linux" (Some "debian")%string) in
  let wrt := os_release_from_str (os_text "openwrt" "OpenWrt" (Some "lede openwrt")%string) in
  os_id kali = text_of "kali" ∧ os_id_like kali = Some (text_of "debian") ∧ is_kali kali = true ∧ is_debian kali = true ∧ is_openwrt kali = false ∧
  is_openwrt wrt = true ∧ is_debian wrt = false.
Proof. vm_compute. repeat split. Qed.

(** ** Packets that are kept ([infra/packet_debug.rs]) *)
Section Packets.
Variable allowed : PathBuf → bool.
(** [std::env::temp_dir] *)
Variable temp_dir : PathBuf.

Record PacketDebug := mkPacketDebug { pk_enabled : bool; pk_directory : option PathBuf; pk_sequence : Z }.
Definition packet_start : PacketDebug := mkPacketDebug false None 0.

Definition packet_configure (enabled : bool) (directory : option PathBuf) (s : PacketDebug) : PacketDebug :=
  mkPacketDebug enabled (Some (opt_unwrap_or (path_join temp_dir (path_of_name "smartdns")) directory)) (pk_sequence s).

Definition packet_name (source : text) (address : SocketAddr) (millis seq : Z) : text :=
  source ++ 45 :: ((fun c => if (c =? 58) || (c =? 91) || (c =? 93) then 95 else c) <$> show_socket address)
  ++ 45 :: show_number millis ++ 45 :: show_number seq.
Definition packet_note (source : text) (address : SocketAddr) (protocol : text) (len : nat) : text :=
  text_of "source=" ++ source ++ 10 :: text_of "peer=" ++ show_socket address ++ 10 :: text_of "protocol=" ++ protocol ++ 10 ::
  text_of "length=" ++ show_number (Z.of_nat len) ++ [10].

(** [write_packet]: the packet and a note beside it; false: an error. *)
Definition write_packet (directory : PathBuf) (source : text) (address : SocketAddr) (protocol : text) (bytes : list Z) (millis : Z)
    (s : PacketDebug) (d : Disk) : PacketDebug * Disk * bool :=
  let '(d, made) := create_dir_all allowed directory d in
  if negb made then (s, d, false)
  else
    let name := packet_name source address millis (pk_sequence s) in
    let s := mkPacketDebug (pk_enabled s) (pk_directory s) (as_u64 (pk_sequence s + 1)) in
    let file := name ++ text_of ".bin" in
    let path := path_join directory (path_of_name (text_of_bytes file)) in
    let note := path_join directory (path_of_name (text_of_bytes (with_extension (text_of "txt") file))) in
    if negb (allowed path) then (s, d, false)
    else
      let d := <[path := NFile bytes]> d in
      if negb (allowed note) then (s, d, false)
      else (s, <[note := NFile (packet_note source address protocol (length bytes))]> d, true).

(** [save]: a failure is a line of the log. *)
Definition packet_save (source : text) (address : SocketAddr) (protocol : text) (bytes : list Z) (millis : Z) (s : PacketDebug) (d : Disk)
    : PacketDebug * Disk :=
  if negb (pk_enabled s) then (s, d)
  else match pk_directory s with
       | Some directory => (write_packet directory source address protocol bytes millis s d).1
       | None => (s, d)
       end.

(** [check_received]: [decodes] is [Message::from_vec]. *)
Definition check_received (decodes : list Z → bool) (address : SocketAddr) (protocol : text) (bytes : list Z) (millis : Z)
    (s : PacketDebug) (d : Disk) : PacketDebug * Disk :=
  if pk_enabled s && negb (decodes bytes) then packet_save (text_of "client") address protocol bytes millis s d else (s, d).

(** Two parts that end in the same way after their last dash. *)
Lemma after_dash (x y s t : text) : x ++ 45 :: s = y ++ 45 :: t → 45 ∉ s → 45 ∉ t → s = t.
Proof.
  revert y. induction x as [|a x IH]; intros [|b y] E Hs Ht; cbn in E.
  - by injection E.
  - injection E as _ ->. destruct Hs. apply elem_of_app. right. by left.
  - injection E as _ E. destruct Ht. rewrite <- E. apply elem_of_app. right. by left.
  - injection E as _ E. by eapply IH.
Qed.

Lemma show_number_no_dash n : 0 ≤ n → 45 ∉ show_number n.
Proof.
  intros Hn Hin. assert (forallb (fun c => negb (c =? 45)) (show_number n) = true) as Hf.
  { apply number_digits_chars; [lia| |done]. intros d Hd. unfold digit_char. case_match; lia. }
  rewrite forallb_forall in Hf. by apply list_elem_of_In, Hf in Hin.
Qed.

Lemma show_number_inj m n : 0 ≤ m ≤ u64_max → 0 ≤ n ≤ u64_max → show_number m = show_number n → m = n.
Proof.
  intros Hm Hn E. assert (Hp : ∀ k, 0 ≤ k ≤ u64_max → parse_unsigned 10 u64_max (show_number k) = Some k).
  { intros k Hk. apply parse_unsigned_number; [lia|unfold u64_max in *; cbn; lia|done|lia]. }
  pose proof (Hp m Hm) as Em. rewrite E, Hp in Em by done. by injection Em.
Qed.

(** Packets with different numbers are kept in different files, whoever sent them
    and at whatever times. *)
Lemma packet_names_differ source address millis seq source' address' millis' seq' :
  0 ≤ seq ≤ u64_max → 0 ≤ seq' ≤ u64_max → seq ≠ seq' →
  packet_name source address millis seq ≠ packet_name source' address' millis' seq'.
Proof.
  intros Hs Hs' Hne E. apply Hne, show_number_inj; [done..|]. unfold packet_name in E.
  rewrite !app_comm_cons, !app_assoc in E. eapply after_dash; [exact E|apply show_number_no_dash; lia..].
Qed.

(** While packets are not kept nothing is looked at and nothing written. *)
Lemma packets_off decodes address protocol bytes millis s d :
  pk_enabled s = false → check_received decodes address protocol bytes millis s d = (s, d).
Proof. unfold check_received. by intros ->. Qed.
End Packets.

(** ** The release that replaces the program ([updater.rs]) *)
Section Updater.
(** [self_update::version::bump_is_greater] *)
Variable bump_is_greater : text → text → option bool.

Record Release := mkRelease { rl_version : text; rl_assets : list text }.

(** [str::trim_start_matches('v')] *)
Fixpoint trim_v (l : text) : text := match l with c :: l' => if c =? 118 then trim_v l' else l | [] => [] end.
Definition has_dash (l : text) : bool := existsb (Z.eqb 45) l.
Definition greater (a b : text) : bool := opt_unwrap_or false (bump_is_greater a b).

(** [select_release]: the assets are their names; an asset is the one that is expected. *)
Definition select_step (flavor target extension current : text) (requested : option text)
    (selected : option (Release * text * text)) (release : Release) : option (Release * text * text) :=
  let webui := bool_decide (flavor = text_of "webui") in
  match (if webui then strip_prefix (text_of "webui-v") (rl_version release) else Some (trim_v (rl_version release))) with
  | None => selected
  | Some version =>
      if match requested with
         | Some requested => negb (bool_decide (version = requested))
         | None => negb (greater current version) || (negb (has_dash current) && has_dash version)
         end
      then selected
      else
        let prefix := if webui then text_of "smartdns-webui" else text_of "smartdns" in
        let expected := prefix ++ text_of "-" ++ target ++ text_of "-v" ++ version ++ text_of "." ++ extension in
        match find_first (fun asset => bool_decide (asset = expected)) (rl_assets release) with
        | None => selected
        | Some asset =>
            match selected with
            | None => Some (release, asset, version)
            | Some (_, _, previous) => if greater previous version then Some (release, asset, version) else selected
            end
        end
  end.
Definition select_release (releases : list Release) (flavor target extension current : text) (requested : option text)
    : option (Release * text * text) :=
  fold_left (select_step flavor target extension current requested) releases None.

(** The version that [update] looks for, and the tag it loads. *)
Definition requested_version (value : text) : text :=
  match strip_prefix (text_of "webui-v") value with Some v => v | None => trim_v value end.
Definition release_tag (flavor version : text) : text :=
  if bool_decide (flavor = text_of "webui") then text_of "webui-v" ++ version else text_of "v" ++ version.

(** A release alone. *)
Definition suits flavor target extension current requested (release : Release) : option (Release * text * text) :=
  select_step flavor target extension current requested None release.

Lemma select_step_suits flavor target extension current requested selected release :
  select_step flavor target extension current requested selected release =
    match suits flavor target extension current requested release, selected with
    | None, _ => selected
    | Some c, None => Some c
    | Some c, Some (_, _, previous) => if greater previous c.2 then Some c else selected
    end.
Proof.
  unfold suits, select_step. destruct (if bool_decide _ then _ else _) as [v|]; [|done].
  destruct (match requested with Some _ => _ | None => _ end); [done|]. cbn zeta.
  destruct (find_first _ _) as [a|]; [|done]. by destruct selected as [[[? ?] ?]|].
Qed.

(** Versions are compared by a rank that some of them have. *)
Context (rank : text → option Z) (rank_greater : ∀ a b, bump_is_greater a b = a' ← rank a; b' ← rank b; Some (a' <? b')).

Lemma greater_later a b c : greater a b = true → greater a c = false → greater b c = false.
Proof.
  unfold greater. rewrite !rank_greater. destruct (rank a) as [x|], (rank b) as [y|], (rank c) as [z|]; cbn; intros H1 H2; try done.
  apply Z.ltb_ge. apply Z.ltb_lt in H1. apply Z.ltb_ge in H2. lia.
Qed.
Lemma greater_irrefl a : greater a a = false.
Proof. unfold greater. rewrite rank_greater. destruct (rank a); cbn; [apply Z.ltb_irrefl|done]. Qed.

(** The release that is selected suits, and no other that suits is newer; none is
    when none suits. *)
Lemma select_newest releases flavor target extension current requested :
  let suit := suits flavor target extension current requested in
  match select_release releases flavor target extension current requested with
  | None => ∀ r, r ∈ releases → suit r = None
  | Some (r, asset, version) =>
      r ∈ releases ∧ suit r = Some (r, asset, version) ∧
      ∀ r' c, r' ∈ releases → suit r' = Some c → greater version c.2 = false
  end.
Proof.
  intros suit. unfold select_release. induction releases as [|r releases IH] using rev_ind; [intros r Hr; by apply not_elem_of_nil in Hr|].
  rewrite fold_left_app. cbn [fold_left]. rewrite select_step_suits. fold suit.
  assert (Hown : ∀ c, suit r = Some c → c.1.1 = r) by
  (intros c; unfold suit, suits, select_step; destruct (if bool_decide _ then _ else _); [|done];
   destruct (match requested with Some _ => _ | None => _ end); [done|]; cbn zeta; destruct (find_first _ _); by intros [= <-]).
  destruct (fold_left _ releases None) as [[[r0 a0] v0]|].
  - destruct IH as (Hin & Hs & Hmax). destruct (suit r) as [[[r1 a1] v1]|] eqn:Er.
    + cbn [snd]. specialize (Hown _ eq_refl). cbn in Hown. subst r1. destruct (greater v0 v1) eqn:Eg.
      * split; [apply elem_of_app; right; by left|]. split; [done|]. intros r' c Hr' Hc.
        apply elem_of_app in Hr' as [Hr'|Hr'%list_elem_of_singleton]; [by eapply greater_later, Hmax|].
        subst. rewrite Er in Hc. injection Hc as <-. apply greater_irrefl.
      * split; [apply elem_of_app; by left|]. split; [done|]. intros r' c Hr' Hc.
        apply elem_of_app in Hr' as [Hr'|Hr'%list_elem_of_singleton]; [by eapply Hmax|]. subst. rewrite Er in Hc. by injection Hc as <-.
    + split; [apply elem_of_app; by left|]. split; [done|]. intros r' c Hr' Hc.
      apply elem_of_app in Hr' as [Hr'|Hr'%list_elem_of_singleton]; [by eapply Hmax|]. subst. by rewrite Er in Hc.
  - destruct (suit r) as [[[r1 a1] v1]|] eqn:Er.
    + specialize (Hown _ eq_refl). cbn in Hown. subst r1. split; [apply elem_of_app; right; by left|]. split; [done|]. intros r' c Hr' Hc.
      apply elem_of_app in Hr' as [Hr'|Hr'%list_elem_of_singleton]; [by rewrite IH in Hc|]. subst. rewrite Er in Hc. injection Hc as <-. apply greater_irrefl.
    + intros r' Hr'. apply elem_of_app in Hr' as [Hr'|Hr'%list_elem_of_singleton]; [by apply IH|]. by subst.
Qed.
End Updater.

(** ** Where the lines of the log go ([log.rs], [infra/syslog.rs]) *)
(** Levels by how much they let through: from 1, errors, to 5, traces. *)
Definition LEVEL_ERROR : Z := 1.
Definition LEVEL_WARN : Z := 2.
Definition LEVEL_INFO : Z := 3.
Definition LEVEL_DEBUG : Z := 4.
Definition LEVEL_TRACE : Z := 5.

(** What a subscriber is made of: the level of its filter, the writers with the
    levels they are limited to, and whether lines go to the system's log. *)
Inductive LogWriter := ToFile | ToConsole | ToSink.
#[global] Instance LogWriter_eq_dec : EqDecision LogWriter.
Proof. solve_decision. Defined.
Record LogPlan := mkLogPlan { lp_level : Z; lp_writers : list (LogWriter * Z); lp_syslog : bool }.

(** [make_dispatch]: [cli] is the level of the command line, [touched] whether the
    file could be opened. The plan of the greeting, and that of the rest. *)
Definition make_dispatch (cli : option Z) (enabled : bool) (level : option Z) (touched to_console to_syslog : bool)
    : option LogPlan * option LogPlan :=
  let level := match level, cli with
               | Some cfg, Some cli => Z.max cfg cli
               | Some cfg, None => cfg
               | None, Some cli => cli
               | None, None => LEVEL_ERROR
               end in
  let writable := enabled && touched in
  let console_level := if to_console then level else opt_unwrap_or LEVEL_ERROR cli in
  if writable then
    (Some (mkLogPlan level [(ToFile, level)] to_syslog),
     Some (mkLogPlan (Z.max level console_level)
             (if to_console then [(ToFile, level); (ToConsole, console_level)] else [(ToFile, level)]) to_syslog))
  else if to_console then (None, Some (mkLogPlan console_level [(ToConsole, console_level)] to_syslog))
  else if to_syslog then (None, Some (mkLogPlan level [(ToSink, LEVEL_TRACE)] true))
  else (None, None).

(** Whether a line of a level is written by a writer. *)
Definition written (plan : option LogPlan) (w : LogWriter) (line : Z) : Prop :=
  ∃ p limit, plan = Some p ∧ (w, limit) ∈ lp_writers p ∧ line ≤ lp_level p ∧ line ≤ limit.

(** The priority of a line in the system's log. *)
Definition syslog_priority (level : Z) : Z :=
  3 * 8 + (if level =? LEVEL_ERROR then 3 else if level =? LEVEL_WARN then 4 else if level =? LEVEL_INFO then 6 else 7).

(** A line is written to the file when there is one and the more talkative of the
    configuration and the command line lets it through, and to the console under
    the same condition when that is asked for; without a file, a console and the
    system's log there is no subscriber at all. *)
Lemma log_lines cli enabled level touched to_console to_syslog line :
  1 ≤ opt_unwrap_or LEVEL_ERROR cli → 1 ≤ opt_unwrap_or LEVEL_ERROR level →
  let plan := (make_dispatch cli enabled level touched to_console to_syslog).2 in
  let most := Z.max (opt_unwrap_or LEVEL_ERROR level) (opt_unwrap_or LEVEL_ERROR cli) in
  (written plan ToFile line ↔ enabled && touched = true ∧ line ≤ most) ∧
  (written plan ToConsole line ↔ to_console = true ∧ line ≤ most) ∧
  (plan = None ↔ enabled && touched = false ∧ to_console = false ∧ to_syslog = false).
Proof.
  intros Hc Hl plan most. subst plan. unfold make_dispatch, written.
  assert (Hm : (match level, cli with Some cfg, Some cli => Z.max cfg cli | Some cfg, None => cfg | None, Some cli => cli | None, None => LEVEL_ERROR end) = most)
    by (unfold most, LEVEL_ERROR in *; destruct level, cli; cbn in *; lia).
  rewrite Hm. assert (Hcli : opt_unwrap_or LEVEL_ERROR cli ≤ most) by (unfold most; lia).
  assert (Hw : ∀ level' writers syslog w, (∃ p limit, Some (mkLogPlan level' writers syslog) = Some p ∧ (w, limit) ∈ lp_writers p ∧ line ≤ lp_level p ∧ line ≤ limit)
    ↔ line ≤ level' ∧ ∃ limit, (w, limit) ∈ writers ∧ line ≤ limit) by naive_solver.
  assert (Hno : ∀ w, ¬ ∃ p limit, None = Some p ∧ (w, limit) ∈ lp_writers p ∧ line ≤ lp_level p ∧ line ≤ limit) by naive_solver.
  assert (H1 : ∀ (w w1 : LogWriter) (l : Z), (∃ limit, (w, limit) ∈ [(w1, l)] ∧ line ≤ limit) ↔ w = w1 ∧ line ≤ l)
    by (intros; setoid_rewrite list_elem_of_singleton; naive_solver).
  assert (H2 : ∀ (w w1 w2 : LogWriter) (l1 l2 : Z), (∃ limit, (w, limit) ∈ [(w1, l1); (w2, l2)] ∧ line ≤ limit) ↔ w = w1 ∧ line ≤ l1 ∨ w = w2 ∧ line ≤ l2)
    by (intros; setoid_rewrite elem_of_cons; setoid_rewrite list_elem_of_singleton; naive_solver).
  destruct (enabled && touched), to_console, to_syslog; cbn [snd]; rewrite ?Hw, ?H1, ?H2, ?Z.max_id, ?(Z.max_l _ _ Hcli);
    split_and!; split; intros Hx; clear Hw H1 H2 Hm; first [by destruct (Hno _ Hx) | clear Hno; intuition congruence].
Qed.

(** ** Which file is read ([RuntimeConfig::load]) *)
Section Load.
Variable fs_dir fs_exists : PathBuf → bool.

(** Without a file named on the command line: the first that is there, of a program
    that can be installed as a service. *)
Definition candidate_path : list PathBuf :=
  [CONF_PATH; mkPathBuf true ["etc"; "smartdns.conf"]; mkPathBuf true ["etc"; "smartdns"; "smartdns.conf"];
   mkPathBuf true ["usr"; "local"; "etc"; "smartdns.conf"]; mkPathBuf true ["usr"; "local"; "etc"; "smartdns"; "smartdns.conf"]]%string.

(** A directory of the name of the program, whatever follows a dot. *)
Definition names_program (dir : PathBuf) : bool :=
  match path_file_name dir with
  | Some name => bool_decide (text_lower (file_stem (text_of name)) = text_of "smartdns")
  | None => false
  end.

(** The directory and the file of the configuration; [None]: there is no file, a
    panic. *)
Definition load_paths (conf_dir path : option PathBuf) : option (option PathBuf * PathBuf) :=
  match path with
  | Some conf =>
      let path := if fs_dir conf then path_join conf (path_of_name "smartdns.conf") else conf in
      let dir := match conf_dir, path_parent path with
                 | None, Some dir => if names_program dir then Some dir else None
                 | _, _ => conf_dir
                 end in
      Some (dir, path)
  | None => (fun path => (conf_dir, path)) <$> find_first fs_exists candidate_path
  end.

(** A directory given on the command line is kept; the file given is read, or the
    one of the program in it when it is a directory. *)
Lemma load_paths_given conf_dir conf :
  ∃ dir, load_paths conf_dir (Some conf) = Some (dir, if fs_dir conf then path_join conf (path_of_name "smartdns.conf") else conf) ∧
    (is_some conf_dir = true → dir = conf_dir).
Proof. eexists. split; [done|]. by destruct conf_dir. Qed.

(** Without a file on the command line the directory of the configuration is not
    that of the file that is found. *)
Lemma load_paths_found dir path :
  load_paths None None = Some (dir, path) → dir = None ∧ path ∈ candidate_path ∧ fs_exists path = true.
Proof.
  unfold load_paths. destruct (find_first fs_exists candidate_path) as [p|] eqn:E; [|done]. cbn. intros [= <- <-].
  by apply find_first_Some in E as [? ?].
Qed.
End Load.

(** ** The servers of the client ([main.rs]) *)
Section Client.
Context {Name Level Pattern : Type} `{UL : UrlLib} `{U : Unicode}.
Implicit Types (c : Config Name Level Pattern).

(** The groups of multicast DNS, as text ([MDNS_IPV4] and [MDNS_IPV6]). *)
Definition mdns_addresses : list text := [text_of "224.0.0.251:5353"; text_of "[ff02::fb]:5353"].
Definition mdns_servers : list ServerConf :=
  (fun url => {| sc_info := mkServer ["mdns"%string] true; sc_server := url; sc_bootstrap_dns := sc_bootstrap_dns (conf_of_url url);
                 sc_proxy := sc_proxy (conf_of_url url); sc_options := sc_options (conf_of_url url) |})
    <$> omap (fun a => dns_url_from_str (text_of "mdns://" ++ a)) mdns_addresses.

(** What [create_dns_client] hands to the builder: the servers, the directory and the
    file of certificates, the subnet and the addresses of this server. *)
Record ClientParts := mkClientParts {
  cp_servers : list ServerConf;
  cp_ca_path : option PathBuf;
  cp_ca_file : option PathBuf;
  cp_subnet : option IpNet;
  cp_listeners : list Listener;
}.
Definition create_dns_client (mdns : bool) c : ClientParts :=
  mkClientParts ((if mdns then mdns_servers else []) ++ cf_nameservers c)
    (opt_or (cf_ca_file c) (cf_ca_path c)) None (c_edns_client_subnet (cf_inner c)) (from_binds (cf_binds c)).

(** A file of certificates takes the place of the directory. *)
Lemma ca_file_replaces_path mdns c file :
  cf_ca_file c = Some file → cp_ca_path (create_dns_client mdns c) = Some file ∧ cp_ca_file (create_dns_client mdns c) = None.
Proof. intros Hf. unfold create_dns_client. by rewrite Hf. Qed.

(** The scheme of a URL is what is before its colon; that of multicast DNS is none of
    those of upstreams, and so there are never servers for it: with multicast DNS
    the client has the servers it has without. *)
Context `{!UnicodeLaws} (scheme_kept : ∀ a u, a ∈ mdns_addresses → url_parse (text_of "mdns://" ++ a) = Some u → ul_scheme u = "mdns"%string).

Lemma mdns_not_read a : a ∈ mdns_addresses → dns_url_from_str (text_of "mdns://" ++ a) = None.
Proof.
  intros Ha. pose proof (scheme_kept a) as Hs.
  assert (Hl : str_to_lowercase (text_of "mdns://" ++ a) = text_of "mdns://" ++ a).
  { rewrite str_to_lowercase_ascii; [|];
      repeat (apply elem_of_cons in Ha as [->|Ha]; [first [by vm_compute|by repeat constructor]|]); by apply not_elem_of_nil in Ha. }
  unfold dns_url_from_str. rewrite Hl. cbn zeta.
  case_bool_decide as E1; [by vm_compute in E1|]. case_bool_decide as E2; [by vm_compute in E2|].
  match goal with |- context [if is_some ?x then _ else _] => change (is_some x) with true end. cbn iota.
  specialize (λ u, Hs u Ha).
  destruct (url_parse _) as [u|]; [|done]. cbn. rewrite (Hs u eq_refl). cbn. by destruct (host_of <$> ul_host u).
Qed.

Lemma mdns_has_no_servers c : cp_servers (create_dns_client true c) = cp_servers (create_dns_client false c).
Proof.
  unfold create_dns_client, cp_servers, mdns_servers, mdns_addresses. cbn [omap list_omap].
  by rewrite !mdns_not_read by (unfold mdns_addresses; set_solver).
Qed.
End Client.

(** A library of URLs that are a scheme and a host. *)
Definition scheme_urls : UrlLib := {|
  url_parse t := '(scheme, host) ← split_once scheme_end t;
                 Some (mkUrlParts (text_of_bytes scheme) (Some (HostDomain (text_of_bytes host))) None "" None None "" None);
  form_parse _ := [];
  host_show h := match h with HostDomain d => d | HostIpv4 a => ip_show (V4 a) | HostIpv6 a => ip_show (V6 a) end;
  socket_addrs _ _ := [];
  default_dns_query_path := "/dns-query";
|}.

#[local] Existing Instance ascii_unicode_laws.
Example mdns_servers_example (c : Config PlainName unit unit) :
  is_some (dns_url_from_str (L := scheme_urls) (text_of "tls://dns.example")) = true ∧
  cp_servers (create_dns_client (UL := scheme_urls) true c) = cf_nameservers c.
Proof.
  split; [by vm_compute|]. apply (mdns_has_no_servers (UL := scheme_urls)).
  intros a u Ha. unfold mdns_addresses in Ha. rewrite !elem_of_cons in Ha. destruct Ha as [->|[->|Ha]]; [..|by apply not_elem_of_nil in Ha];
    intros E; vm_compute in E; by injection E as <-.
Qed.
